(* ===== verification/_CoqProject ===== *)
-Q . S2P
Prelude.v
Netip.v
GoFmt.v
Trust.v
Reputation.v
BanLifecycle.v
BanStores.v
Cleanup.v
AutoBan.v
RuntimeModels.v
Lease.v
Reports.v
Outbox.v
Sha256.v
Events.v
EventLog.v
Lifecycle.v
Scheduler.v
GoHeap.v
WorkQueue.v
Snapshot.v
ResourceGraph.v
Planner.v
Execution.v
Rollback.v
Ownership.v
Policy.v
Cloudflare.v
Translation.v
Governor.v
Pipeline.v
AutoDeban.v
Guard.v
Recidive.v
CidrBan.v
CrowdSec.v
Quota.v
Transport.v
Enforcement.v
TrustedNetworks.v
Shadow.v
NetipText.v
Protection.v
SyncApp.v
Risk.v
ReportGate.v
Reporting.v
Checkpoint.v
Drift.v
AiGateway.v
EnrichService.v
Poller.v
Adapters.v
OpenResty.v
WafRef.v
