(* ===== verification/Prelude.v ===== *)
(** * Verification of the security-automation control plane

    The program bans hostile addresses at Cloudflare, lifts the bans when they
    end, reports the addresses to AbuseIPDB, and reconciles rules under leases
    and a lifecycle state machine whose transitions are logged.  This library
    models the parts that decide and that keep state, one file per component,
    and proves what makes them correct.

    ** Parts, files and sources

    - [Prelude] (this file): results of fallible calls, 64-bit integers,
      instants, strings, sorting, list lemmas, tactics ([bool_simpl],
      [go_cases], [go_solve]) and the hint database [secauto];
      [ensureWritable] of [internal/storage/sqlite/db.go].
    - [Netip], [GoFmt], [Sha256]: what the program uses of Go's [net/netip],
      [time], [fmt] and [crypto/sha256], written out and tested on vectors.
    - [Trust]: the registry of protected networks
      ([internal/security/trust/trust.go]).
    - [Reputation]: the gate that asks providers before a ban or a report
      ([internal/security/reputation/gate.go]), against the class [IPEnricher].
    - [BanLifecycle], [BanStores]: the entry of a ban, the duration policy and
      the store interface as the class [BanStoreOps] with its laws; the
      in-memory store ([internal/cloudflare/banlifecycle/memstore]) and the
      SQLite store ([internal/storage/sqlite/ban_lifecycle.go]) as instances.
    - [Cleanup]: the worker that lifts expired bans
      ([internal/cloudflare/banlifecycle/cleanup]), over any store that
      satisfies the laws and any Cloudflare client.
    - [AutoBan]: the burst counter, the dedup guard, the cached AbuseIPDB
      lookup and the evaluator ([internal/services/autoban]).
    - [RuntimeModels]: leases, epochs, the lifecycle record and the state
      documents ([internal/runtime/models], [internal/runtime/state]).
    - [Lease]: the lease table ([internal/storage/sqlite/lease.go]) and its
      transactions on the shared connection, the lease manager and heartbeat
      ([internal/runtime/coordination]), the fencing validator and the outbox
      guard, against the class [LeaseStore].
    - [Reports], [Outbox]: the comment format and the merging of reports
      ([internal/security/abuseformat], [internal/services/reporting]), the
      outbox table ([internal/storage/sqlite/report_outbox.go]) and its worker.
    - [Events], [EventLog]: typed events and their JSON, the bus, the event
      tables with checkpoints and compaction, and replay
      ([internal/runtime/events], [internal/storage/sqlite/events.go]).
    - [Lifecycle]: scope ids, the reducer and the state machine
      ([internal/runtime/scope], [reducer], [engine]), against the classes
      [EventBus] and [CheckpointManager]; the first is discharged by the bus
      over the event tables.
    - [Scheduler]: cooldowns, circuit breaker, tenant budgets, worker pool and
      the stateful scheduler ([internal/runtime/scheduler]).
    - [GoHeap], [WorkQueue]: [container/heap] on the array it works on, and the
      priority queue of the reconciler over it and over its table
      ([internal/runtime/workqueue], [internal/storage/sqlite]).
    - [Snapshot], [ResourceGraph], [Planner], [Execution], [Rollback]: resources
      with canonical JSON, their dependency graph, the plan between two
      snapshots, the governed executor with approvals and fencing, and its
      undoing ([internal/snapshot], [internal/graph], [internal/planner],
      [internal/execution], [internal/rollback]).
    - [Ownership], [Policy], [Governor]: who may change a resource, bundles and
      rules of policies with admission, and the mutation budgets.
    - [Cloudflare], [Translation], [Pipeline]: pages and normal forms of the
      provider, the translation of rules, and the reconciliation pipeline that
      composes the parts above ([internal/pipeline]).
    - [AutoDeban], [Guard]: early removal of bans and the screening of
      mutations by confidence, blast radius and memory of false positives.
    - [Recidive], [CidrBan]: repeat offenders and bans of networks, with their
      state files.
    - [CrowdSec], [Quota], [Transport]: the [cscli] client with its checks, the
      quota headers and registry, the Cloudflare transport with its quota gate
      and the mutators ([internal/crowdsec], [internal/security/quota],
      [internal/cloudflare]).
    - [Enforcement]: the interfaces of the enforcement loops as classes with
      laws, instances by [Transport] and [CrowdSec] and services in memory.
    - [TrustedNetworks]: the operator's networks, their two stores, the registry
      that pushes them and the allowlist app ([internal/trustednetworks]).
    - [Shadow]: the records of shadow mode, their metrics, log and
      classification ([internal/shadow]).
    - [NetipText], [Protection]: the text of addresses as a normal form, the
      protected networks and the allowlist view
      ([internal/security/protected], [internal/app/runtime_helpers.go]).
    - [SyncApp]: the daemon that mirrors CrowdSec to Cloudflare, the state file
      of the web server and the removal of stale rules ([internal/app],
      [internal/openresty/state]), over the laws of [Enforcement].
    - [Risk], [ReportGate], [Reporting]: the baseline of harmless requests, the
      risk score and the classifier ([internal/security/baseline], [risk],
      [classifier]); the gate of duplicates with its lock per address as steps
      of goroutines, and the reporting service with evidence, windows,
      reservations and submissions ([internal/services/reporting]).
    - [Checkpoint]: the checkpoint manager over the event tables, with the JSON
      of the runtime state ([internal/runtime/checkpoint]).
    - [Drift]: memory, classification and escalation of drift over the
      lifecycle machine, the invariants of a snapshot and the check of
      convergence ([internal/runtime/drift], [invariants], [convergence]).
    - [AiGateway]: quota posture, cache, router and gateway of the explanations
      ([internal/ai]), over the interfaces of builder, redactor and provider.
    - [EnrichService]: the enrichment service with its cache and scoring and the
      static table of networks ([internal/security/enrichment]), an instance of
      the class [IPEnricher] of [Reputation].
    - [Poller], [Adapters], [OpenResty], [WafRef]: the poller that copies
      decisions and alerts of CrowdSec to a log ([internal/crowdsec/poller]),
      the source that reads that log into [Reporting], the file of OpenResty
      events with its recovery, and the followed file of block-page references
      ([internal/adapters]).

    ** What the theorems show

    - Stores: the SQLite ban store refines the in-memory one over every valid
      sequence of writes, the queue table and the heap its specification, and
      the table of trusted networks its in-memory store; the class laws that
      the cleanup worker uses hold of both ban stores.
    - Coordination: a lease excludes other owners until it expires, superseded
      leases are fenced off, tokens increase, claims of the outbox never
      overlap, a delivered report is not taken again; the pool's counters are
      the slots its goroutines, queue and blocked submitters hold, within the
      budgets under any interleaving; memory, claims and lineage agree on who
      holds a resource as far as the lineage was written.
    - Decisions: the exact conditions under which the evaluator bans, the gate
      allows, admission grants and the guard lets a mutation pass; the burst
      loop agrees with counting events in an interval.
    - Cleanup: for every expired ban what a pass asks of Cloudflare and how the
      entry ends, errors recorded; what a pass may delete, and that it empties
      the expired set when its dependencies work; what early removal may lift.
    - Event sourcing: consecutive sequence numbers and unique digests under
      any outcome of transactions, appends exactly once (an ambiguous commit
      whose look-up fails is the one error after which the row may be there),
      replay that terminates and equals a replay from a checkpoint, and
      transitions whose logged form reduces to the saved state up to its time
      stamps; the lifecycle follows its table.
    - Reconciliation: a plan leads to its target; the executor makes no call
      before approval, guard, ownership and fencing have been checked, each at
      its own time; a rollback goes through its plan once, save for the
      operation whose checkpoint a failed save or a crash lost; a dry run of
      the pipeline has no effect and succeeds under exact conditions; a
      snapshot keeps every object with its attributes, two builds are equal
      exactly when their objects are, canonical JSON is injective, and the
      dependency order is found exactly when there is no cycle.
    - Enforcement: a pass makes the tagged rules the mirror of the active bans
      that are neither protected nor allowed, whatever their spelling; what
      fails (with the request carried out or not) or is interrupted adds and
      removes nothing else; shadow mode is inert; every spelling of a protected
      address is protected; the words of command lines are checked, the reason
      of a ban excepted; pushes of trusted networks converge.
    - Reports: at most one report of a [netip.Addr] per window while the table of
      reports works, the exact condition
      under which a call sends one, mutual exclusion of the lock per address,
      and which events can be reported at all; detections without a ban stay
      local.
    - Recovery: saving a checkpoint keeps every event that the newest remaining
      checkpoint of its name needs, and gives the state back.
    - Sources: decisions and alerts stand once in the log across restarts and
      failing writes, plus once for each process that cannot read the log at its
      start; a log read again gives its new lines alone; the events of OpenResty
      are conserved through crashes; following a file in steps is following it
      at once.
    - Explanations and enrichment: what leaves the house is redacted and every
      provider is asked at most once; caches are bounded, current and spare the
      quotas; an address of a friendly network is never open to a hard ban;
      drift that oscillates is damped, and a run converged exactly when the
      captured state is sound and has the checksum of the target.
    - Defects found while proving, each with a theorem or an example:
      [run_blocks_scheduler], [repeated_transition_unlogged],
      [renew_lost_in_rollback], [sustained_attack_unreported],
      [delete_failure_hidden], [Build_length], [untrimmed_bypasses_trust],
      [withLineage_panics_iff], [DefaultRegistry_misses_mapped],
      [Evaluate_unset_strength], [upsert_bookkeeping_diverges],
      [rollback_keeps_lease], [admission_denied_blocks],
      [ruleset_update_unscreened], [recidive_never_starts],
      [unreadable_state_panics], [mapped_addresses_ban_everything],
      [suspended_until_read], [list_item_path], [push_failure_reads_as_auth],
      [readiness_always_pending], [oversized_blocks], [host_network_banned],
      [lock_shared_when_late], [failed_report_is_duplicate],
      [padded_address_not_protected], [stale_check_forgets],
      [other_name_prunes], [no_fallback_past_the_best],
      [mixed_expiry_by_chance], [stale_local_signal], [shadowed_range],
      [failed_write_forgotten], [torn_line_swallows],
      [unreadable_log_repeats], [kinds_share_numbers],
      [missing_numbers_collide], [long_line_blocks],
      [long_line_loses_batch], [unreadable_file_removed], [reason_unchecked]
      and [mapped_form_reported_again].

    ** Conventions and bounds

    A function of Go that returns an error is a function into [result]; state
    is passed explicitly; a method that holds a mutex is one atomic step, and
    concurrency is the interleaving of such steps ([rtc] of a step relation or
    a fold over operations); in [Pool] the steps are those of the goroutines
    themselves, blocked sends included.  Where the source relies on a transaction that it
    does not have, [Lease.SharedConn] models the single statements.  Each call
    reads the clock once, except where several readings matter: then the clock
    is a function of the reading ([clk], [now 0], [now 1], ...), and [cancel]
    says where the context ends.  A panic is an [Err] that says so, or [None].
    Instants are nanoseconds in [Z]; comparisons of timestamps in SQL are
    comparisons of instants, with [CURRENT_TIMESTAMP] cut to seconds
    ([sql_now]).  Integers that can overflow are wrapped ([wrap64]) or bounded
    by hypotheses; [float64] is the binary64 of the Standard Library.  Rows of
    a table are lists in insertion order, with the unique indexes of the
    schema checked.  A store may be read-only and the disk may refuse writes.
    Where a write that fails matters, its outcomes are part of the state
    ([EventRepository.Faults], [ct_writes], [lt_fails], [Poller.disk]), an error
    after the write took effect included; an external service may have carried
    out a request it answers with an error ([Enforcement.law_add]).  A crash is
    any state between two effects ([Rollback.run_states]).  The checks of the
    executor take time ([guard], [fencing], [recordTime]).  Other reads of the
    database succeed unless said otherwise.  Iteration over a map
    takes some order, on which no theorem depends;
    the one example that does, [mixed_expiry_by_chance], is a defect.  A field that no code of
    the program reads, named as such where it is declared, is the trace of the
    requests made.

    Fuel appears in [Replay.replay_loop], where two pages are enough for the
    tables and the theorems say so; in [GoHeap], where the length of the array
    bounds both sifts; in [Graph.visit], by the number of nodes; in the
    traversals of pages ([Pagination.traverse], [Transport.pages],
    [OwnershipTables.pages]), by the number of pages, with theorems that enough
    fuel gives the whole listing; the five attempts of
    [EventRepository.append_loop] are those of the source; the other fuels
    bound loops over a string by its length.  JSON text is modelled for the
    values the program writes.

    ** Not modelled, and what comes next

    The HTTP clients of the providers, the web console, the command line,
    telemetry and metrics, start-up and wiring are left out: they present,
    connect or transport and do not decide.  Also left out: the regular
    expressions of the redactor and of the search in access logs, the builder
    of AI contexts, the adapters that only count and hand over events
    ([cloudflareevent], [nginxerrors], [nginxaccess]), the runtime journal (a
    log of the kind of [Shadow.Log]), and the tables that store what the code
    never reads back to decide.  These are the candidates for an extension. *)

From Stdlib Require Export Ascii.
From stdpp Require Export prelude gmap strings pretty sorting.

Local Open Scope Z_scope.

(** ** Fallible computations

    A Go function that returns [(T, error)] is a function into [result T];
    the error carries its message. *)
Inductive result (A : Type) : Type :=
| Ok (a : A)
| Err (msg : string).
Arguments Ok {A} _.
Arguments Err {A} _.

Declare Scope go_scope.
Delimit Scope go_scope with go.

Definition is_ok {A} (r : result A) : bool :=
  match r with Ok _ => true | Err _ => false end.

Definition rbind {A B} (r : result A) (k : A -> result B) : result B :=
  match r with Ok a => k a | Err m => Err m end.

Notation "x <-? r ; k" := (rbind r (fun x => k))
  (at level 100, r at next level, right associativity) : go_scope.

(** [apperr.Wrap]: prefix the message with the operation name. *)
Definition wrap_msg (op msg : string) : string := op +:+ ": " +:+ msg.

(** [DB.ensureWritable] of [internal/storage/sqlite/db.go]: every write of the
    SQLite stores starts with it. *)
Definition ensureWritable (op : string) (readOnly : bool) : result unit :=
  if readOnly then Err (wrap_msg op "sqlite database is in read-only degraded mode") else Ok tt.

(** ** Machine integers *)
Definition int64_min : Z := - 2 ^ 63.
Definition int64_max : Z := 2 ^ 63 - 1.

(** Two's complement wrap-around of a 64-bit signed integer. *)
Definition wrap64 (z : Z) : Z := (z + 2 ^ 63) `mod` 2 ^ 64 - 2 ^ 63.

(** Saturation, as in [time.Time.Sub]. *)
Definition sat64 (z : Z) : Z := Z.max int64_min (Z.min int64_max z).

(** ** Time

    [time.Time] is an instant, in nanoseconds since Go's zero time
    (0001-01-01 00:00:00 UTC), so that [IsZero] is the test against [0];
    [time.Duration] is a number of nanoseconds.  Instants carry no location:
    [UTC()] is the identity. *)
Definition is_zero_time (t : Z) : bool := t =? 0.
Definition t_before (a b : Z) : bool := a <? b.
Definition t_after (a b : Z) : bool := b <? a.
Definition t_sub (a b : Z) : Z := sat64 (a - b).
Definition t_add (t d : Z) : Z := t + d.

Definition nanosecond : Z := 1.
Definition second : Z := 1000000000.
Definition minute : Z := 60 * second.
Definition hour : Z := 60 * minute.

(** [Time.UnixNano] and [Time.Unix]: 1970-01-01 is day 719162. *)
Definition unix_nano (now : Z) : Z := wrap64 (now - 719162 * 24 * hour).
Definition unix_seconds (now : Z) : Z := (now - 719162 * 24 * hour) `div` second.

(** SQLite's [CURRENT_TIMESTAMP] has a resolution of one second. *)
Definition sql_now (now : Z) : Z := now - now `mod` second.

Lemma t_sub_small a b :
  int64_min <= a - b <= int64_max -> t_sub a b = a - b.
Proof. unfold t_sub, sat64. lia. Qed.

Lemma t_sub_lt_iff a b d :
  int64_min < d <= int64_max -> (t_sub a b < d <-> a - b < d).
Proof. unfold t_sub, sat64, int64_min, int64_max. lia. Qed.

Lemma wrap64_small z : int64_min <= z <= int64_max -> wrap64 z = z.
Proof.
  unfold wrap64, int64_min, int64_max. intros ?.
  rewrite Z.mod_small; lia.
Qed.

Lemma wrap64_bounds z : int64_min <= wrap64 z <= int64_max.
Proof.
  unfold wrap64, int64_min, int64_max.
  pose proof (Z.mod_pos_bound (z + 2 ^ 63) (2 ^ 64)). lia.
Qed.

(** ** Strings

    A Go string is a sequence of bytes, as a Rocq [string] is. *)
Fixpoint has_prefix (p s : string) : bool :=
  match p, s with
  | EmptyString, _ => true
  | String _ _, EmptyString => false
  | String a p', String b s' => bool_decide (a = b) && has_prefix p' s'
  end.

Fixpoint str_contains (s sub : string) : bool :=
  has_prefix sub s ||
  match s with
  | EmptyString => false
  | String _ s' => str_contains s' sub
  end.

Definition lower_ascii (a : Ascii.ascii) : Ascii.ascii :=
  let n := Ascii.N_of_ascii a in
  if (N.leb 65 n && N.leb n 90)%bool then Ascii.ascii_of_N (n + 32) else a.

(** [strings.ToLower] on ASCII letters; other bytes are unchanged. *)
Fixpoint to_lower (s : string) : string :=
  match s with
  | EmptyString => EmptyString
  | String a s' => String (lower_ascii a) (to_lower s')
  end.

Fixpoint str_rev_app (s acc : string) : string :=
  match s with
  | EmptyString => acc
  | String a s' => str_rev_app s' (String a acc)
  end.
Definition str_rev (s : string) : string := str_rev_app s EmptyString.

Definition bytes_str (l : list N) : string :=
  foldr (fun n s => String (Ascii.ascii_of_N n) s) EmptyString l.

(** The UTF-8 encodings of the code points of [unicode.IsSpace], each in
    order and (for trimming on the right) reversed. *)
Definition space_seqs : list string :=
  bytes_str <$> [[9]; [10]; [11]; [12]; [13]; [32]; [194;133]; [194;160];
    [225;154;128]; [226;128;128]; [226;128;129]; [226;128;130]; [226;128;131];
    [226;128;132]; [226;128;133]; [226;128;134]; [226;128;135]; [226;128;136];
    [226;128;137]; [226;128;138]; [226;128;168]; [226;128;169]; [226;128;175];
    [226;129;159]; [227;128;128]]%N.

Fixpoint drop_bytes (n : nat) (s : string) : string :=
  match n, s with
  | S n', String _ s' => drop_bytes n' s'
  | _, _ => s
  end.

(** Strip leading occurrences of the sequences; each round removes at least
    one byte, so [String.length s] rounds are enough. *)
Fixpoint trim_left_fuel (fuel : nat) (seqs : list string) (s : string) : string :=
  match fuel with
  | O => s
  | S f =>
      match List.find (fun q => has_prefix q s) seqs with
      | Some q => trim_left_fuel f seqs (drop_bytes (String.length q) s)
      | None => s
      end
  end.

(** [strings.TrimSpace]. *)
Definition trim_space (s : string) : string :=
  let l := trim_left_fuel (String.length s) space_seqs s in
  let r := trim_left_fuel (String.length l) (str_rev <$> space_seqs) (str_rev l) in
  str_rev r.

(** [strings.Join]. *)
Fixpoint str_join (sep : string) (l : list string) : string :=
  match l with
  | [] => EmptyString
  | [x] => x
  | x :: l' => x +:+ sep +:+ str_join sep l'
  end.

(** [strings.Split] at a one-byte separator. *)
Fixpoint str_split (sep : Ascii.ascii) (s : string) : list string :=
  match s with
  | EmptyString => [EmptyString]
  | String a s' =>
      if bool_decide (a = sep) then EmptyString :: str_split sep s'
      else match str_split sep s' with
           | x :: l => String a x :: l
           | [] => [String a EmptyString]
           end
  end.

Lemma str_length_app s t : String.length (s +:+ t) = (String.length s + String.length t)%nat.
Proof. induction s as [|a s IH]; [done|]. exact (f_equal S IH). Qed.

Lemma has_prefix_app p s : has_prefix p (p +:+ s) = true.
Proof.
  induction p as [|a p IH]; [by destruct s|].
  change (bool_decide (a = a) && has_prefix p (p +:+ s) = true). rewrite bool_decide_true by done. exact IH.
Qed.

Lemma str_cons_app a s t : String a s +:+ t = String a (s +:+ t).
Proof. done. Qed.

Lemma str_nil_app t : "" +:+ t = t.
Proof. done. Qed.

Lemma str_app_inv s x y : s +:+ x = s +:+ y -> x = y.
Proof. induction s as [|a s IH]; [done|]. rewrite !str_cons_app. intros [= H]. auto. Qed.

Lemma str_app_assoc (a b c : string) : (a +:+ b) +:+ c = a +:+ b +:+ c.
Proof. induction a as [|x a IH]; [done|]. exact (f_equal (String x) IH). Qed.

Lemma str_app_nil s : s +:+ "" = s.
Proof. induction s as [|a s IH]; [done|]. by rewrite str_cons_app, IH. Qed.

Lemma has_prefix_app_r p s t : has_prefix p s = true -> has_prefix p (s +:+ t) = true.
Proof.
  revert s. induction p as [|a p IH]; intros [|b s]; try done.
  change (has_prefix (String a p) (String b s) = true ->
          (bool_decide (a = b) && has_prefix p (s +:+ t))%bool = true).
  cbn [has_prefix]. rewrite !andb_true_iff. intros [? ?]. auto.
Qed.

Lemma str_contains_app_r s t sub : str_contains s sub = true -> str_contains (s +:+ t) sub = true.
Proof.
  induction s as [|a s IH].
  - cbn [str_contains]. rewrite orb_false_r. intros H.
    change ("" +:+ t) with t. destruct sub; [by destruct t|done].
  - change (String a s +:+ t) with (String a (s +:+ t)). cbn [str_contains].
    rewrite !orb_true_iff. intros [H|H]; [left|right; auto].
    exact (has_prefix_app_r sub (String a s) t H).
Qed.

Lemma str_contains_app_l s t sub : str_contains t sub = true -> str_contains (s +:+ t) sub = true.
Proof.
  intros H. induction s as [|a s IH]; [done|].
  change (String a s +:+ t) with (String a (s +:+ t)). cbn [str_contains].
  rewrite IH. apply orb_true_r.
Qed.

Lemma to_lower_app s t : to_lower (s +:+ t) = to_lower s +:+ to_lower t.
Proof. induction s as [|a s IH]; [done|]. exact (f_equal (String (lower_ascii a)) IH). Qed.

Lemma has_prefix_lower p s : has_prefix p s = true -> has_prefix (to_lower p) (to_lower s) = true.
Proof.
  revert s. induction p as [|a p IH]; intros [|b s]; try done. cbn [has_prefix to_lower].
  rewrite !andb_true_iff, !bool_decide_eq_true. intros [-> ?]. auto.
Qed.

Lemma str_contains_lower s sub :
  str_contains s sub = true -> str_contains (to_lower s) (to_lower sub) = true.
Proof.
  induction s as [|a s IH]; cbn [str_contains to_lower]; rewrite !orb_true_iff;
    (intros [H|H]; [left|right; auto]).
  - exact (has_prefix_lower sub "" H).
  - exact (has_prefix_lower sub (String a s) H).
Qed.

(** ** Sorting

    Go's [sort.Slice] with a strict order [lt]; insertion of each element
    before the first one that is not below it. *)
Section isort.
Context {A : Type} (lt : A -> A -> bool).

Fixpoint ins (x : A) (l : list A) : list A :=
  match l with
  | [] => [x]
  | y :: l' => if lt y x then y :: ins x l' else x :: l
  end.

Definition isort (l : list A) : list A := foldr ins [] l.

Lemma ins_perm x l : ins x l ≡ₚ x :: l.
Proof.
  induction l as [|y l IH]; [done|]. cbn. destruct (lt y x); [|done].
  rewrite IH. constructor.
Qed.

Lemma isort_perm l : isort l ≡ₚ l.
Proof. induction l as [|x l IH]; [done|]. cbn. by rewrite ins_perm, IH. Qed.

Lemma elem_of_isort x l : x ∈ isort l <-> x ∈ l.
Proof. by rewrite isort_perm. Qed.

Lemma isort_length l : length (isort l) = length l.
Proof. apply Permutation_length, isort_perm. Qed.

Lemma isort_nil_iff l : isort l = [] <-> l = [].
Proof.
  split; [|by intros ->]. intros E.
  apply length_zero_iff_nil. rewrite <- isort_length, E. done.
Qed.

Lemma ins_sorted (R : relation A) x l :
  (forall y, lt y x = true -> R y x) -> (forall y, lt y x = false -> R x y) ->
  Transitive R -> StronglySorted R l -> StronglySorted R (ins x l).
Proof.
  intros Hlt Hge Htr. induction 1 as [|y l Hs IH Hall]; cbn.
  - repeat constructor.
  - destruct (lt y x) eqn:E.
    + constructor; [done|]. rewrite ins_perm. constructor; [by apply Hlt|done].
    + constructor; [by constructor|]. constructor; [by apply Hge|].
      eapply Forall_impl; [exact Hall|]. intros z Hz.
      transitivity y; [by apply Hge|done].
Qed.

Lemma isort_sorted (R : relation A) l :
  (forall x y, lt y x = true -> R y x) -> (forall x y, lt y x = false -> R x y) ->
  Transitive R -> StronglySorted R (isort l).
Proof.
  intros H1 H2 H3. induction l as [|x l IH]; [constructor|].
  cbn. apply ins_sorted; auto.
Qed.

(** A list already in order is left as it is. *)
Lemma isort_id l : StronglySorted (fun x y => lt y x = false) l -> isort l = l.
Proof.
  induction 1 as [|x l Hs IH Hall]; [done|].
  change (isort (x :: l)) with (ins x (isort l)). rewrite IH.
  destruct l as [|y l]; [done|]. cbn. inv Hall as [|? ? Hy _]. by rewrite Hy.
Qed.

(** Sorting commutes with selecting, when what is not below is transitive. *)
Lemma ins_filter (p : A -> bool) x l :
  (forall x y z, lt y x = false -> lt z y = false -> lt z x = false) -> StronglySorted (fun x y => lt y x = false) l ->
  List.filter p (ins x l) = if p x then ins x (List.filter p l) else List.filter p l.
Proof.
  intros Htr. induction 1 as [|y l Hs IH Hall]; cbn; [by destruct (p x)|]. destruct (lt y x) eqn:E; cbn.
  - rewrite IH. destruct (p x), (p y); cbn; rewrite ?E; done.
  - destruct (p x); [|done]. destruct (p y); cbn; [by rewrite E|].
    assert (Forall (fun z => lt z x = false) (List.filter p l)) as Hf.
    { apply List.Forall_forall. intros z [Hz _]%filter_In. apply (Htr x y z E). by eapply List.Forall_forall in Hall. }
    by destruct Hf as [|z l' Hz _]; cbn; [|rewrite Hz].
Qed.

Lemma isort_filter (p : A -> bool) l :
  (forall x y z, lt y x = false -> lt z y = false -> lt z x = false) -> (forall x y, lt y x = true -> lt x y = false) ->
  List.filter p (isort l) = isort (List.filter p l).
Proof.
  intros Htr Has. induction l as [|x l IH]; [done|]. change (isort (x :: l)) with (ins x (isort l)).
  rewrite ins_filter; [|done|apply isort_sorted; [auto|auto|by intros ? ? ? H1 H2; eapply Htr]].
  rewrite IH. cbn. by destruct (p x).
Qed.
End isort.

(** Strings are compared bytewise. *)
Definition str_lt (a b : string) : bool := String.ltb a b.

Lemma str_lt_cons a s b t :
  str_lt (String a s) (String b t) =
  match Ascii.compare a b with Lt => true | Eq => str_lt s t | Gt => false end.
Proof. unfold str_lt, String.ltb. cbn. by destruct (Ascii.compare a b). Qed.

Lemma ascii_compare_N a b : Ascii.compare a b = N.compare (N_of_ascii a) (N_of_ascii b).
Proof. done. Qed.

Lemma ascii_compare_eq a b : Ascii.compare a b = Eq -> a = b.
Proof.
  rewrite ascii_compare_N, N.compare_eq_iff. intros H. by rewrite <- (ascii_N_embedding a), H, ascii_N_embedding.
Qed.

Lemma str_lt_irrefl s : str_lt s s = false.
Proof.
  induction s as [|a s IH]; [done|]. rewrite str_lt_cons, ascii_compare_N, N.compare_refl. done.
Qed.

Lemma str_lt_trans s t u : str_lt s t = true -> str_lt t u = true -> str_lt s u = true.
Proof.
  revert t u. induction s as [|a s IH]; intros [|b t] [|c u]; try done.
  rewrite !str_lt_cons, !ascii_compare_N.
  destruct (N.compare_spec (N_of_ascii a) (N_of_ascii b)),
    (N.compare_spec (N_of_ascii b) (N_of_ascii c)),
    (N.compare_spec (N_of_ascii a) (N_of_ascii c)); try done; try lia; eauto.
Qed.

Lemma str_lt_total s t : str_lt s t = false -> str_lt t s = false -> s = t.
Proof.
  revert t. induction s as [|a s IH]; intros [|b t]; try done.
  rewrite !str_lt_cons, !ascii_compare_N.
  destruct (N.compare_spec (N_of_ascii a) (N_of_ascii b)) as [E|E|E]; try done.
  - rewrite E, N.compare_refl. intros.
    f_equal; [by apply ascii_compare_eq; rewrite ascii_compare_N, N.compare_eq_iff|auto].
  - rewrite (proj2 (N.compare_lt_iff _ _)) by lia. done.
Qed.

Lemma str_le_trans s t u : str_lt t s = false -> str_lt u t = false -> str_lt u s = false.
Proof.
  intros H1 H2. destruct (str_lt u s) eqn:E; [|done]. destruct (str_lt s t) eqn:E1.
  - pose proof (str_lt_trans _ _ _ E E1). congruence.
  - assert (s = t) as -> by by apply str_lt_total. congruence.
Qed.

(** ** Lists *)
Lemma filter_app_snoc {A} (P : A -> Prop) `{!forall x, Decision (P x)} l x :
  filter P (l ++ [x]) = filter P l ++ (if decide (P x) then [x] else []).
Proof. rewrite filter_app. cbn. by destruct (decide (P x)). Qed.

Lemma find_some_in {A} (f : A -> bool) l x :
  List.find f l = Some x -> x ∈ l /\ f x = true.
Proof.
  intros H. apply List.find_some in H as [? ?].
  split; [by apply list_elem_of_In|done].
Qed.

Lemma sublist_full {A} (l1 l2 : list A) :
  l1 `sublist_of` l2 -> (length l2 <= length l1)%nat -> l1 = l2.
Proof.
  induction 1 as [|x l1 l2 Hs IH|x l1 l2 Hs IH]; cbn; intros Hl; [done| |].
  - f_equal. apply IH. lia.
  - apply sublist_length in Hs. lia.
Qed.

Lemma NoDup_fmap_filter {A B} (f : A -> B) (p : A -> bool) l :
  NoDup (f <$> l) -> NoDup (f <$> List.filter p l).
Proof.
  intros Hn. eapply sublist_NoDup; [exact Hn|]. apply fmap_sublist. clear Hn.
  induction l as [|x l IH]; cbn; [constructor|]. destruct (p x); by constructor.
Qed.

Lemma elem_of_lfilter {A} (p : A -> bool) l (x : A) : x ∈ List.filter p l <-> x ∈ l /\ p x = true.
Proof. rewrite !list_elem_of_In. apply List.filter_In. Qed.

Lemma elem_of_concat_fmap {A B} (f : A -> list B) l x :
  x ∈ List.concat (f <$> l) <-> exists y, y ∈ l /\ x ∈ f y.
Proof.
  induction l as [|y l IH]; cbn [List.concat fmap list_fmap].
  - split; [by intros ?%not_elem_of_nil|]. by intros (? & ?%not_elem_of_nil & _).
  - rewrite elem_of_app, IH. setoid_rewrite elem_of_cons. naive_solver.
Qed.

Lemma filter_all {A} (p : A -> bool) l : (forall x, x ∈ l -> p x = true) -> List.filter p l = l.
Proof.
  intros Hp. apply List.forallb_filter_id, List.forallb_forall. intros x Hx.
  by apply Hp, list_elem_of_In.
Qed.

Lemma filter_none {A} (p : A -> bool) l : (forall x, x ∈ l -> p x = false) -> List.filter p l = [].
Proof.
  induction l as [|x l IH]; intros Hp; cbn; [done|]. rewrite Hp by set_solver. apply IH. set_solver.
Qed.

Lemma lfilter_perm {A} (p : A -> bool) l1 l2 : l1 ≡ₚ l2 -> List.filter p l1 ≡ₚ List.filter p l2.
Proof.
  induction 1 as [|x l1 l2 _ IH|x y l|l1 l2 l3 _ IH1 _ IH2]; cbn; [done| | |by etransitivity];
    repeat case_match; try done; [by rewrite IH|by constructor].
Qed.

Lemma lfilter_lfilter {A} (p q : A -> bool) l :
  List.filter p (List.filter q l) = List.filter (fun x => p x && q x) l.
Proof.
  induction l as [|x l IH]; [done|]. cbn. destruct (q x) eqn:Hq; cbn; destruct (p x) eqn:Hp; cbn; by rewrite IH.
Qed.

Lemma SS_fmap {A B} (R : relation B) (f : A -> B) l :
  StronglySorted R (f <$> l) <-> StronglySorted (fun a b => R (f a) (f b)) l.
Proof.
  induction l as [|x l IH]; [split; constructor|].
  rewrite fmap_cons. split; inversion 1; subst; constructor;
    try (by apply IH); by rewrite ?Forall_fmap in *.
Qed.

Lemma lfilter_sublist {A} (p : A -> bool) l : List.filter p l `sublist_of` l.
Proof. induction l as [|x l IH]; [done|]. cbn. destruct (p x); by constructor. Qed.

Lemma lfilter_sublist_mono {A} (p : A -> bool) l1 l2 : l1 `sublist_of` l2 -> List.filter p l1 `sublist_of` List.filter p l2.
Proof. induction 1 as [|x l1 l2 _ IH|x l1 l2 _ IH]; cbn; [done|..]; destruct (p x); by try constructor. Qed.

Lemma lfilter_ext_in {A} (p q : A -> bool) l : (forall x, x ∈ l -> p x = q x) -> List.filter p l = List.filter q l.
Proof. intros H. apply List.filter_ext_in. intros x Hx. by apply H, list_elem_of_In. Qed.

Lemma list_fmap_ext_in {A B} (f g : A -> B) (l : list A) : (forall x, x ∈ l -> f x = g x) -> f <$> l = g <$> l.
Proof. intros H. apply list_fmap_ext. intros i x Hx. apply H. by eapply list_elem_of_lookup_2. Qed.

Lemma NoDup_fmap_eq {A B} (f : A -> B) l x y : NoDup (f <$> l) -> x ∈ l -> y ∈ l -> f x = f y -> x = y.
Proof.
  induction l as [|z l IH]; [by intros _ ?%not_elem_of_nil|]. rewrite fmap_cons, NoDup_cons. intros [Hz Hl] Hx Hy E.
  apply elem_of_cons in Hx as [->|Hx], Hy as [->|Hy]; try done; [exfalso; apply Hz; rewrite E; by apply list_elem_of_fmap_2
  |exfalso; apply Hz; rewrite <- E; by apply list_elem_of_fmap_2|by apply IH].
Qed.

Lemma StronglySorted_lfilter {A} (R : relation A) (p : A -> bool) l :
  StronglySorted R l -> StronglySorted R (List.filter p l).
Proof.
  induction 1 as [|x l _ IH Hx]; cbn; [constructor|]. destruct (p x); [|done]. constructor; [done|].
  rewrite Forall_forall in *. intros y [? _]%elem_of_lfilter. auto.
Qed.

(** The last element that is greatest for [leb], as picked by an SQL
    [ORDER BY ... DESC LIMIT 1] over rows listed in insertion order. *)
Section max_by.
Context {A : Type} (leb : A -> A -> bool).

Definition max_step (acc : option A) (x : A) : option A :=
  match acc with
  | None => Some x
  | Some m => if leb m x then Some x else Some m
  end.

Definition max_by (l : list A) : option A := foldl max_step None l.

Lemma max_by_snoc l x : max_by (l ++ [x]) = max_step (max_by l) x.
Proof. unfold max_by. by rewrite foldl_app. Qed.

Lemma max_by_in l m : max_by l = Some m -> m ∈ l.
Proof.
  revert m. induction l as [|x l IH] using rev_ind; [done|].
  intros m. rewrite max_by_snoc, elem_of_app, list_elem_of_singleton.
  unfold max_step. destruct (max_by l) as [y|].
  - destruct (leb y x); intros [= <-]; auto.
  - intros [= <-]; auto.
Qed.

Lemma max_by_none l : max_by l = None <-> l = [].
Proof.
  split; [|by intros ->]. induction l as [|x l _] using rev_ind; [done|].
  rewrite max_by_snoc. unfold max_step. destruct (max_by l); [|done].
  by destruct (leb _ _).
Qed.

(** When the rows are listed in [leb] order the greatest is the last. *)
Lemma max_by_sorted l :
  StronglySorted (fun a b => leb a b = true) l -> max_by l = last l.
Proof.
  induction l as [|x l IH] using rev_ind; [done|].
  intros Hs. rewrite max_by_snoc, last_snoc.
  apply StronglySorted_app in Hs as (Hc & Hl & _).
  unfold max_step. destruct (max_by l) as [m|] eqn:E; [|done].
  rewrite Hc; [done| |by apply list_elem_of_singleton].
  by apply max_by_in.
Qed.
End max_by.

(** ** Automation *)
Create HintDb secauto discriminated.

(** Split a hypothesis or goal built from [&&], [||] and [negb]. *)
Ltac bool_simpl :=
  repeat match goal with
  | H : andb _ _ = true |- _ => apply andb_true_iff in H as [? ?]
  | H : orb _ _ = false |- _ => apply orb_false_iff in H as [? ?]
  | H : negb _ = true |- _ => apply negb_true_iff in H
  | H : negb _ = false |- _ => apply negb_false_iff in H
  | H : bool_decide _ = true |- _ => apply bool_decide_eq_true in H
  | H : bool_decide _ = false |- _ => apply bool_decide_eq_false in H
  end.

(** Follow every branch of the program text in the goal or a hypothesis. *)
Ltac go_cases := repeat (case_match; simplify_eq/=); bool_simpl; simplify_eq/=.

(** Close a goal after following every branch. *)
Ltac go_solve := go_cases; try done; try lia; eauto with secauto.
