(* ===== verification/Netip.v ===== *)
(** * Go's [net/netip] and [net] addresses

    The part of the standard library the security packages rest on: textual
    addresses, CIDR prefixes, containment, and the class predicates
    ([IsPrivate], [IsLoopback], ...), as Go 1.25 implements them.  Addresses
    are numbers; an IPv4-mapped IPv6 address stays an IPv6 address, which is
    what makes it invisible to IPv4 prefixes. *)

From S2P Require Import Prelude.

Local Open Scope Z_scope.

Module Netip.

(** A valid address: 32 bits, or 128 bits with an optional zone. *)
Inductive addr : Type :=
| A4 (v : Z)
| A6 (v : Z) (zone : string).

#[export] Instance addr_eq_dec : EqDecision addr.
Proof. solve_decision. Defined.

Definition digit (a : Ascii.ascii) : option Z :=
  let n := Z.of_N (Ascii.N_of_ascii a) in
  if (48 <=? n) && (n <=? 57) then Some (n - 48) else None.

Definition hex_digit (a : Ascii.ascii) : option Z :=
  let n := Z.of_N (Ascii.N_of_ascii a) in
  if (48 <=? n) && (n <=? 57) then Some (n - 48)
  else if (97 <=? n) && (n <=? 102) then Some (n - 87)
  else if (65 <=? n) && (n <=? 70) then Some (n - 55)
  else None.

(** ** IPv4 text *)

(** One pass over the text: [start] is true at the first byte of a field (so a
    dot there is an empty field), [fields] the completed octets, newest first. *)
Fixpoint v4_scan (s : string) (start : bool) (val : Z) (dig : nat)
    (fields : list Z) : option (list Z) :=
  match s with
  | EmptyString => if bool_decide (length fields < 3)%nat then None
                   else Some (val :: fields)
  | String a s' =>
      match digit a with
      | Some d =>
          if bool_decide (dig = 1%nat) && (val =? 0) then None
          else let val' := val * 10 + d in
               if 255 <? val' then None else v4_scan s' false val' (S dig) fields
      | None =>
          if bool_decide (a = "."%char) then
            if start || bool_decide (s' = EmptyString) then None
            else if bool_decide (length fields = 3%nat) then None
            else v4_scan s' true 0 0 (val :: fields)
          else None
      end
  end.

Definition v4_value (rev_fields : list Z) : Z :=
  match rev_fields with
  | [d; c; b; a] => a * 2 ^ 24 + b * 2 ^ 16 + c * 2 ^ 8 + d
  | _ => 0
  end.

Definition parse_v4 (s : string) : option Z :=
  v4_value <$> v4_scan s true 0 0 [].

(** ** IPv6 text *)

(** The hexadecimal digits at the front of [s]: how many, their value and the
    rest; a fifth digit is an error. *)
Fixpoint hex_run (s : string) (off : nat) (acc : Z) : option (nat * Z * string) :=
  match s with
  | EmptyString => Some (off, acc, s)
  | String a s' =>
      match hex_digit a with
      | None => Some (off, acc, s)
      | Some d => if bool_decide (3 < off)%nat then None
                  else hex_run s' (S off) (acc * 16 + d)
      end
  end.

(** The loop over colon-separated groups; [gs] holds the groups read so far,
    newest first, [ell] the number of groups before the ellipsis.  Each round
    reads one group, and eight are the most an address has. *)
Fixpoint v6_loop (fuel : nat) (s : string) (gs : list Z) (ell : option nat)
    : option (list Z * option nat * string) :=
  match fuel with
  | O => Some (gs, ell, s)
  | S f =>
      match hex_run s 0 0 with
      | None => None
      | Some (O, _, _) => None
      | Some (_, acc, rest) =>
          match rest with
          | EmptyString => Some (acc :: gs, ell, EmptyString)
          | String c r =>
              if bool_decide (c = "."%char) then
                if bool_decide (ell = None) && negb (bool_decide (length gs = 6%nat))
                then None
                else if bool_decide (6 < length gs)%nat then None
                else match parse_v4 s with
                     | None => None
                     | Some v => Some (v `mod` 2 ^ 16 :: v / 2 ^ 16 :: gs, ell, EmptyString)
                     end
              else if bool_decide (c = ":"%char) then
                match r with
                | EmptyString => None
                | String c2 r2 =>
                    if bool_decide (c2 = ":"%char) then
                      match ell with
                      | Some _ => None
                      | None =>
                          let ell' := Some (S (length gs)) in
                          match r2 with
                          | EmptyString => Some (acc :: gs, ell', EmptyString)
                          | _ => v6_loop f r2 (acc :: gs) ell'
                          end
                      end
                    else v6_loop f r (acc :: gs) ell
                end
              else None
          end
      end
  end.

Definition v6_value (groups : list Z) : Z :=
  foldl (fun acc g => acc * 2 ^ 16 + g) 0 groups.

Definition v6_finish (gs : list Z) (ell : option nat) : option Z :=
  let n := (8 - length gs)%nat in
  match n, ell with
  | O, None => Some (v6_value (rev gs))
  | O, Some _ => None
  | S _, None => None
  | S _, Some e =>
      let l := rev gs in
      Some (v6_value (take e l ++ replicate n 0 ++ drop e l))
  end.

(** Split at the first [%]: the address text and the zone. *)
Fixpoint split_zone (s : string) : string * option string :=
  match s with
  | EmptyString => (EmptyString, None)
  | String a s' =>
      if bool_decide (a = "%"%char) then (EmptyString, Some s')
      else let '(x, z) := split_zone s' in (String a x, z)
  end.

Definition parse_v6_body (s : string) : option Z :=
  let '(s1, ell) :=
    if has_prefix "::" s then (drop_bytes 2 s, Some 0%nat) else (s, None) in
  if bool_decide (ell = Some 0%nat) && bool_decide (s1 = EmptyString) then Some 0
  else match v6_loop 8 s1 [] ell with
       | Some (gs, ell', EmptyString) => v6_finish gs ell'
       | _ => None
       end.

Definition parse_v6 (s : string) : option addr :=
  let '(body, zone) := split_zone s in
  match zone with
  | Some EmptyString => None
  | Some z => (fun v => A6 v z) <$> parse_v6_body body
  | None => (fun v => A6 v EmptyString) <$> parse_v6_body body
  end.

(** [netip.ParseAddr]: the first of [.], [:] and [%] decides the family. *)
Fixpoint addr_kind (s : string) : option bool :=
  match s with
  | EmptyString => None
  | String a s' =>
      if bool_decide (a = "."%char) then Some true
      else if bool_decide (a = ":"%char) then Some false
      else if bool_decide (a = "%"%char) then None
      else addr_kind s'
  end.

Definition ParseAddr (s : string) : option addr :=
  match addr_kind s with
  | Some true => A4 <$> parse_v4 s
  | Some false => parse_v6 s
  | None => None
  end.

(** ** Prefixes *)
Record prefix := Prefix { p_ip : addr; p_bits : Z }.

Definition bit_len (a : addr) : Z :=
  match a with A4 _ => 32 | A6 _ _ => 128 end.

Fixpoint parse_dec (s : string) (acc : Z) : option Z :=
  match s with
  | EmptyString => Some acc
  | String a s' => d ← digit a; parse_dec s' (acc * 10 + d)
  end.

(** [strconv.Atoi] on an unsigned, non-empty text without leading zeros. *)
Definition parse_bits (s : string) : option Z :=
  match s with
  | EmptyString => None
  | String a EmptyString => digit a
  | String a _ => if bool_decide (a = "0"%char) then None else parse_dec s 0
  end.

(** Split at the last slash. *)
Fixpoint split_slash (s : string) : option (string * string) :=
  match s with
  | EmptyString => None
  | String a s' =>
      match split_slash s' with
      | Some (x, y) => Some (String a x, y)
      | None => if bool_decide (a = "/"%char) then Some (EmptyString, s') else None
      end
  end.

Definition zone_of (a : addr) : string :=
  match a with A4 _ => EmptyString | A6 _ z => z end.

Definition ParsePrefix (s : string) : option prefix :=
  '(x, y) ← split_slash s;
  a ← ParseAddr x;
  if bool_decide (zone_of a = EmptyString) then
    b ← parse_bits y;
    if (0 <=? b) && (b <=? bit_len a) then Some (Prefix a b) else None
  else None.

Definition addr_value (a : addr) : Z :=
  match a with A4 v => v | A6 v _ => v end.

(** [netip.Prefix.Contains]: same family, no zone, equal leading bits. *)
Definition Contains (p : prefix) (a : addr) : bool :=
  bool_decide (zone_of a = EmptyString) &&
  (bit_len (p_ip p) =? bit_len a) &&
  (Z.shiftr (Z.lxor (addr_value a) (addr_value (p_ip p))) (bit_len a - p_bits p) =? 0).

(** ** Address classes *)
Definition is4in6 (a : addr) : bool :=
  match a with A4 _ => false | A6 v _ => v / 2 ^ 32 =? 65535 end.

Definition unmap (a : addr) : addr :=
  match a with
  | A6 v _ => if is4in6 a then A4 (v `mod` 2 ^ 32) else a
  | A4 _ => a
  end.

Definition IsLoopback (a : addr) : bool :=
  match unmap a with A4 v => v / 2 ^ 24 =? 127 | A6 v _ => v =? 1 end.

Definition IsMulticast (a : addr) : bool :=
  match unmap a with A4 v => v / 2 ^ 28 =? 14 | A6 v _ => v / 2 ^ 120 =? 255 end.

Definition IsLinkLocalUnicast (a : addr) : bool :=
  match unmap a with
  | A4 v => v / 2 ^ 16 =? 169 * 256 + 254
  | A6 v _ => v / 2 ^ 118 =? 1018
  end.

Definition IsPrivate (a : addr) : bool :=
  match unmap a with
  | A4 v => (v / 2 ^ 24 =? 10) || (v / 2 ^ 20 =? 172 * 16 + 1)
            || (v / 2 ^ 16 =? 192 * 256 + 168)
  | A6 v _ => v / 2 ^ 121 =? 126
  end.

Definition IsGlobalUnicast (a : addr) : bool :=
  match a with
  | A4 v => negb ((v =? 0) || (v =? 2 ^ 32 - 1))
  | A6 v z => negb ((v =? 0) && bool_decide (z = EmptyString))
  end && negb (IsLoopback a) && negb (IsMulticast a) && negb (IsLinkLocalUnicast a).

(** ** Printing *)
Definition v4_string (v : Z) : string :=
  pretty (v / 2 ^ 24) +:+ "." +:+ pretty ((v / 2 ^ 16) `mod` 256) +:+ "."
  +:+ pretty ((v / 2 ^ 8) `mod` 256) +:+ "." +:+ pretty (v `mod` 256).

Definition hex_char (n : Z) : Ascii.ascii :=
  Ascii.ascii_of_N (Z.to_N (if n <? 10 then 48 + n else 87 + n)).

Fixpoint hex_fuel (fuel : nat) (n : Z) (acc : string) : string :=
  match fuel with
  | O => acc
  | S f => let acc' := String (hex_char (n `mod` 16)) acc in
           if n <? 16 then acc' else hex_fuel f (n / 16) acc'
  end.

Definition groups_of (v : Z) : list Z :=
  (fun i => (v / 2 ^ (16 * (7 - Z.of_nat i))) `mod` 2 ^ 16) <$> seq 0 8.

Fixpoint zero_run (gs : list Z) : nat :=
  match gs with g :: gs' => if g =? 0 then S (zero_run gs') else O | [] => O end.

(** The longest run of at least two zero groups, the leftmost of them. *)
Definition best_run (gs : list Z) : nat * nat :=
  foldl (fun '(s, l) i =>
           let r := zero_run (drop i gs) in
           if bool_decide (2 <= r)%nat && bool_decide (l < r)%nat then (i, r) else (s, l))
        (8%nat, 0%nat) (seq 0 8).

Definition v6_string (v : Z) : string :=
  let gs := groups_of v in
  let hexes := (fun g => hex_fuel 4 g EmptyString) <$> gs in
  let '(s, l) := best_run gs in
  if bool_decide (l = 0%nat) then str_join ":" hexes
  else str_join ":" (take s hexes) +:+ "::" +:+ str_join ":" (drop (s + l) hexes).

Definition zone_suffix (z : string) : string :=
  if bool_decide (z = EmptyString) then EmptyString else "%" +:+ z.

(** [netip.Addr.String]. *)
Definition addr_string (a : addr) : string :=
  match a with
  | A4 v => v4_string v
  | A6 v z => (if is4in6 a then "::ffff:" +:+ v4_string (v `mod` 2 ^ 32) else v6_string v)
              +:+ zone_suffix z
  end.

(** ** Package [net] *)

(** [net.ParseIP]: no zones. *)
Definition ParseIP (s : string) : option addr :=
  a ← ParseAddr s; if bool_decide (zone_of a = EmptyString) then Some a else None.

(** [net.IP.To4] is non-nil for IPv4 and IPv4-mapped addresses. *)
Definition To4 (a : addr) : option Z :=
  match unmap a with A4 v => Some v | A6 _ _ => None end.

(** The network of [net.ParseCIDR], printed by [net.IPNet.String]: the address
    with the host bits cleared and the mask length. *)
Definition mask_addr (a : addr) (b : Z) : addr :=
  let w := bit_len a in
  let m v := Z.shiftl (Z.shiftr v (w - b)) (w - b) in
  match a with A4 v => A4 (m v) | A6 v z => A6 (m v) z end.

Definition ParseCIDR (s : string) : option (addr * Z) :=
  '(x, y) ← split_slash s;
  a ← ParseAddr x;
  if bool_decide (zone_of a = EmptyString) then
    b ← (if bool_decide (y = EmptyString) then None else parse_dec y 0);
    if b <=? bit_len a then Some (mask_addr a b, b) else None
  else None.

(** [net.IP.String]: mapped addresses print as IPv4. *)
Definition ip_string (a : addr) : string := match To4 a with Some v => v4_string v | None => addr_string a end.

(** The network number and mask length that package [net] uses of a network:
    those of IPv4 when the address is IPv4 or mapped. *)
Definition net_norm (n : addr * Z) : addr * Z :=
  match To4 n.1 with
  | Some v => (A4 v, match n.1 with A4 _ => n.2 | A6 _ _ => Z.max 0 (n.2 - 96) end)
  | None => n
  end.

(** [net.IPNet.String]. *)
Definition net_string (n : addr * Z) : string :=
  let n := net_norm n in ip_string (n.1) +:+ "/" +:+ pretty (n.2).

(** [net.IPNet.Contains]. *)
Definition net_contains (n : addr * Z) (a : addr) : bool :=
  let n := net_norm n in Contains (Prefix n.1 n.2) (unmap a).

(** ** Facts *)

(** Containment is agreement of the leading bits: the quotients by the size of
    the host part are equal. *)
Lemma Contains_A4 v p b :
  0 <= b <= 32 ->
  Contains (Prefix (A4 p) b) (A4 v) = (v / 2 ^ (32 - b) =? p / 2 ^ (32 - b)).
Proof.
  intros Hb. unfold Contains.
  change (bool_decide _ && _) with true. cbn -[Z.pow Z.shiftr Z.sub Z.div].
  apply Bool.eq_iff_eq_true. rewrite !Z.eqb_eq, Z.shiftr_lxor, <- !Z.shiftr_div_pow2 by lia. apply Z.lxor_eq_0_iff.
Qed.

Lemma Contains_A6_A4 v p b z : Contains (Prefix (A4 p) b) (A6 v z) = false.
Proof. unfold Contains. cbn. apply andb_false_intro1, andb_false_r. Qed.

Lemma Contains_zone p v z : z <> EmptyString -> Contains p (A6 v z) = false.
Proof. intros Hz. unfold Contains. cbn. by rewrite bool_decide_false. Qed.

Example parse_v4_ok : ParseAddr "192.168.1.77" = Some (A4 3232235853).
Proof. vm_compute. reflexivity. Qed.
Example parse_v4_leading_zero : ParseAddr "10.0.0.01" = None.
Proof. vm_compute. reflexivity. Qed.
Example parse_v4_range : (ParseAddr "256.1.1.1", ParseAddr "1.2.3", ParseAddr "1.2.3.4.5",
    ParseAddr "1..2.3", ParseAddr " 1.2.3.4", ParseAddr "") = (None, None, None, None, None, None).
Proof. vm_compute. reflexivity. Qed.
Example parse_v6_ok : (ParseAddr "2001:db8::1", ParseAddr "::", ParseAddr "fe80::1%eth0",
    ParseAddr "::ffff:1.2.3.4", ParseAddr "1:2:3:4:5:6:7:8")
  = (Some (A6 (0x20010db8 * 2 ^ 96 + 1) ""), Some (A6 0 ""), Some (A6 (0xfe80 * 2 ^ 112 + 1) "eth0"),
     Some (A6 (0xffff01020304) ""), Some (A6 0x00010002000300040005000600070008 "")).
Proof. vm_compute. reflexivity. Qed.
Example parse_v6_bad : (ParseAddr "1:2:3:4:5:6:7", ParseAddr "1::2::3", ParseAddr "12345::",
    ParseAddr "::%", ParseAddr "1:2:3:4:5:6:7:8:9", ParseAddr "1:2:3:4::5:6:7:8")
  = (None, None, None, None, None, None).
Proof. vm_compute. reflexivity. Qed.
Example print_v6 : addr_string <$> [A6 (0x20010db8 * 2 ^ 96 + 1) ""; A6 0 ""; A6 0xffff01020304 "";
    A6 0x00010000000000040005000600070008 ""; A4 3232235853]
  = ["2001:db8::1"; "::"; "::ffff:1.2.3.4"; "1::4:5:6:7:8"; "192.168.1.77"].
Proof. vm_compute. reflexivity. Qed.
Example parse_cidr_mapped : net_string <$> ParseCIDR "::ffff:1.2.3.4/24" = Some "::/24".
Proof. vm_compute. reflexivity. Qed.

End Netip.
