(* ===== verification/GoFmt.v ===== *)
(** * Formatting of times and durations

    What the program uses of Go's [time] and [fmt] packages to build messages:
    [Time.UTC().Format(time.RFC3339)], [Duration.String] and [%d]. *)

From S2P Require Import Prelude.

Local Open Scope Z_scope.

Module GoFmt.

(** [%d]. *)
Definition fmt_d (z : Z) : string := pretty z.

(** A number in decimal on at least [n] digits. *)
Fixpoint zeros (n : nat) : string :=
  match n with O => "" | S n' => String "0" (zeros n') end.
Definition pad (n : nat) (z : Z) : string :=
  let s := fmt_d z in zeros (n - String.length s) +:+ s.

(** The civil date of a number of days since 0001-01-01 (proleptic Gregorian),
    by 400-year eras of 146097 days that start on 1 March. *)
Definition civil (days : Z) : Z * Z * Z :=
  let z := days + 306 in
  let era := z `div` 146097 in
  let doe := z `mod` 146097 in
  let yoe := (doe - doe `div` 1460 + doe `div` 36524 - doe `div` 146096) `div` 365 in
  let doy := doe - (365 * yoe + yoe `div` 4 - yoe `div` 100) in
  let mp := (5 * doy + 2) `div` 153 in
  let d := doy - (153 * mp + 2) `div` 5 + 1 in
  let m := if mp <? 10 then mp + 3 else mp - 9 in
  let y := yoe + era * 400 in
  ((if m <=? 2 then y + 1 else y), m, d).

Definition day : Z := 24 * hour.

(** [t.UTC().Format(time.RFC3339)]. *)
Definition format_rfc3339 (t : Z) : string :=
  let '(y, m, d) := civil (t `div` day) in
  let r := (t `mod` day) `div` second in
  pad 4 y +:+ "-" +:+ pad 2 m +:+ "-" +:+ pad 2 d +:+ "T" +:+
  pad 2 (r `div` 3600) +:+ ":" +:+ pad 2 ((r `mod` 3600) `div` 60) +:+ ":" +:+
  pad 2 (r `mod` 60) +:+ "Z".

(** The fraction [v / 10^prec] without trailing zeros, with its point. *)
Fixpoint drop_zeros (prec : nat) (v : Z) : nat * Z :=
  match prec with
  | O => (O, v)
  | S p => if v `mod` 10 =? 0 then drop_zeros p (v `div` 10) else (prec, v)
  end.
Definition fraction (prec : nat) (v : Z) : string :=
  let '(p, v') := drop_zeros prec v in
  match p with O => "" | _ => "." +:+ pad p v' end.

(** The micro sign is encoded in two bytes. *)
Definition micro : string := bytes_str [194; 181]%N +:+ "s".

(** [Duration.String]. *)
Definition duration_string (d : Z) : string :=
  let u := Z.abs d in
  let sign := if d <? 0 then "-" else "" in
  if u =? 0 then "0s"
  else if u <? 1000 then sign +:+ fmt_d u +:+ "ns"
  else if u <? 1000000 then sign +:+ fmt_d (u `div` 1000) +:+ fraction 3 (u `mod` 1000) +:+ micro
  else if u <? 1000000000 then
    sign +:+ fmt_d (u `div` 1000000) +:+ fraction 6 (u `mod` 1000000) +:+ "ms"
  else
    let secs := u `div` second in
    let s := fmt_d (secs `mod` 60) +:+ fraction 9 (u `mod` second) +:+ "s" in
    let mins := secs `div` 60 in
    if mins =? 0 then sign +:+ s
    else if mins <? 60 then sign +:+ fmt_d mins +:+ "m" +:+ s
    else sign +:+ fmt_d (mins `div` 60) +:+ "h" +:+ fmt_d (mins `mod` 60) +:+ "m" +:+ s.

Example duration_string_ex :
  duration_string <$> [hour; 90 * second; 1500000; 0; 6 * hour + 500000000]
  = ["1h0m0s"; "1m30s"; "1.5ms"; "0s"; "6h0m0.5s"].
Proof. by vm_compute. Qed.

Example format_rfc3339_ex :
  format_rfc3339 0 = "0001-01-01T00:00:00Z" /\
  format_rfc3339 (719162 * day + 3661 * second) = "1970-01-01T01:01:01Z" /\
  format_rfc3339 ((719162 + 11016) * day) = "2000-02-29T00:00:00Z".
Proof. by vm_compute. Qed.

End GoFmt.
