(* ===== verification/Trust.v ===== *)
(** * The trust registry ([internal/security/trust])

    The registry of protected resources every automatic ban decision consults:
    [Add], [MatchIP], [MatchService] and the built-in [DefaultRegistry]. *)

From Stdlib Require Import QArith.
From S2P Require Import Prelude Netip.
Import Netip.

Local Open Scope Z_scope.

Module Trust.

Record ProtectedResource := {
  pr_Name : string;
  pr_Kind : string;
  pr_CIDR : string;
  pr_Tags : list string;
  pr_MinConfidence : Q;
  pr_AllowPropagation : bool;
}.

Record Match := { m_Resource : ProtectedResource; m_Reason : string }.

Record Registry := {
  resources : list ProtectedResource;
  prefixes : list (prefix * ProtectedResource);
}.

Definition empty_registry : Registry := {| resources := []; prefixes := [] |}.

(** A resource whose CIDR does not parse is recorded without a prefix. *)
Definition Add (r : Registry) (res : ProtectedResource) : Registry :=
  {| resources := resources r ++ [res];
     prefixes :=
       if bool_decide (pr_CIDR res = "") then prefixes r
       else match ParsePrefix (pr_CIDR res) with
            | Some p => prefixes r ++ [(p, res)]
            | None => prefixes r
            end |}.

Definition match_lt (a b : Match) : bool :=
  str_lt (pr_Name (m_Resource a)) (pr_Name (m_Resource b)).

Fixpoint match_loop (a : addr) (items : list (prefix * ProtectedResource)) : list Match :=
  match items with
  | [] => []
  | (p, res) :: rest =>
      if Contains p a
      then {| m_Resource := res; m_Reason := "protected network" |} :: match_loop a rest
      else match_loop a rest
  end.

Definition MatchIP (r : Registry) (ip : string) : list Match :=
  match ParseAddr ip with
  | None => []
  | Some a => isort match_lt (match_loop a (prefixes r))
  end.

Definition service_hit (name : string) (res : ProtectedResource) : bool :=
  bool_decide (pr_Kind res = "service") &&
  (bool_decide (to_lower (pr_Name res) = to_lower name) || bool_decide (name ∈ pr_Tags res)).

Definition MatchService (r : Registry) (name0 : string) : list Match :=
  let name := trim_space (to_lower name0) in
  if bool_decide (name = "") then []
  else isort match_lt
         ((fun res => {| m_Resource := res; m_Reason := "protected service" |})
            <$> List.filter (service_hit name) (resources r)).

Definition network (name cidr : string) (tags : list string) : ProtectedResource :=
  {| pr_Name := name; pr_Kind := "network"; pr_CIDR := cidr; pr_Tags := tags;
     pr_MinConfidence := 1; pr_AllowPropagation := false |}.

Definition service (name : string) (tags : list string) (conf : Q) : ProtectedResource :=
  {| pr_Name := name; pr_Kind := "service"; pr_CIDR := ""; pr_Tags := tags;
     pr_MinConfidence := conf; pr_AllowPropagation := false |}.

Definition default_resources : list ProtectedResource :=
  [ network "rfc1918-10" "10.0.0.0/8" ["internal"; "rfc1918"];
    network "rfc1918-172" "172.16.0.0/12" ["internal"; "rfc1918"];
    network "rfc1918-192" "192.168.0.0/16" ["internal"; "rfc1918"];
    network "loopback-v4" "127.0.0.0/8" ["loopback"];
    network "loopback-v6" "::1/128" ["loopback"];
    network "link-local-v4" "169.254.0.0/16" ["linklocal"];
    network "link-local-v6" "fe80::/10" ["linklocal"];
    network "cloudflare-173" "173.245.48.0/20" ["cloudflare"; "edge"];
    network "cloudflare-103-21" "103.21.244.0/22" ["cloudflare"; "edge"];
    network "cloudflare-103-22" "103.22.200.0/22" ["cloudflare"; "edge"];
    network "cloudflare-103-31" "103.31.4.0/22" ["cloudflare"; "edge"];
    network "cloudflare-141" "141.101.64.0/18" ["cloudflare"; "edge"];
    network "cloudflare-108" "108.162.192.0/18" ["cloudflare"; "edge"];
    network "cloudflare-190" "190.93.240.0/20" ["cloudflare"; "edge"];
    network "cloudflare-188" "188.114.96.0/20" ["cloudflare"; "edge"];
    network "cloudflare-197" "197.234.240.0/22" ["cloudflare"; "edge"];
    network "cloudflare-198" "198.41.128.0/17" ["cloudflare"; "edge"];
    network "cloudflare-162" "162.158.0.0/15" ["cloudflare"; "edge"];
    network "cloudflare-104-16" "104.16.0.0/13" ["cloudflare"; "edge"];
    network "cloudflare-104-24" "104.24.0.0/14" ["cloudflare"; "edge"];
    network "cloudflare-172" "172.64.0.0/13" ["cloudflare"; "edge"];
    network "cloudflare-131" "131.0.72.0/22" ["cloudflare"; "edge"];
    service "control-plane" ["management"; "control-plane"] 1;
    service "monitoring" ["monitoring"] (98 # 100);
    service "sonarr" ["media"; "critical"] (98 # 100);
    service "radarr" ["media"; "critical"] (98 # 100) ].

Definition DefaultRegistry : Registry := foldl Add empty_registry default_resources.

(** ** Lemmas *)

(** An address is protected when one of the registry's prefixes contains it. *)
Definition protects (r : Registry) (a : addr) : Prop :=
  exists p res, (p, res) ∈ prefixes r /\ Contains p a = true.

Lemma match_loop_in a items m :
  m ∈ match_loop a items <->
  exists p res, (p, res) ∈ items /\ Contains p a = true /\
                m = {| m_Resource := res; m_Reason := "protected network" |}.
Proof.
  induction items as [|[p res] items IH]; cbn [match_loop].
  - rewrite elem_of_nil. naive_solver set_solver.
  - destruct (Contains p a) eqn:E.
    + rewrite elem_of_cons, IH. setoid_rewrite elem_of_cons. naive_solver.
    + rewrite IH. setoid_rewrite elem_of_cons. naive_solver congruence.
Qed.

Lemma match_loop_nil a items :
  match_loop a items = [] <-> forall p res, (p, res) ∈ items -> Contains p a = false.
Proof.
  split.
  - intros E p res Hin. destruct (Contains p a) eqn:Hc; [|done].
    assert (H : {| m_Resource := res; m_Reason := "protected network" |} ∈ match_loop a items)
      by (apply match_loop_in; eauto).
    rewrite E in H. by apply elem_of_nil in H.
  - intros H. destruct (match_loop a items) as [|m l] eqn:E; [done|].
    assert (Hm : m ∈ match_loop a items) by (rewrite E; apply list_elem_of_here).
    apply match_loop_in in Hm as (p & res & Hin & Hc & _).
    by rewrite (H _ _ Hin) in Hc.
Qed.

Lemma MatchIP_nil r ip a :
  ParseAddr ip = Some a -> (MatchIP r ip = [] <-> ~ protects r a).
Proof.
  intros Hp. unfold MatchIP. rewrite Hp, isort_nil_iff, match_loop_nil.
  unfold protects. split.
  - intros H (p & res & Hin & Hc). by rewrite (H _ _ Hin) in Hc.
  - intros H p res Hin. destruct (Contains p a) eqn:E; [|done]. naive_solver.
Qed.

Lemma MatchIP_unparsed r ip : ParseAddr ip = None -> MatchIP r ip = [].
Proof. intros E. unfold MatchIP. by rewrite E. Qed.

Lemma protects_Add r res a : protects r a -> protects (Add r res) a.
Proof.
  intros (p & res' & Hin & Hc). exists p, res'. split; [|done].
  unfold Add; cbn. repeat case_match; set_solver.
Qed.

Lemma protects_foldl rs r a : protects r a -> protects (foldl Add r rs) a.
Proof. revert r. induction rs; cbn; auto using protects_Add. Qed.

(** The registry protects every address of a range it was given. *)
Lemma protects_range r res p a :
  pr_CIDR res <> "" -> ParsePrefix (pr_CIDR res) = Some p -> Contains p a = true ->
  protects (Add r res) a.
Proof.
  intros Hne Hp Hc. exists p, res. split; [|done].
  unfold Add; cbn. rewrite bool_decide_false, Hp by done. set_solver.
Qed.

(** The prefixes of the default registry, computed. *)
Lemma default_prefixes_check :
  forallb (fun x : prefix * ProtectedResource =>
             match p_ip (x.1) with
             | A4 v => (0 <=? p_bits (x.1)) && (p_bits (x.1) <=? 32)
             | A6 v z => ((v =? 1) && (p_bits (x.1) =? 128))
                         || ((v =? 0xfe80 * 2 ^ 112) && (p_bits (x.1) =? 10))
             end) (prefixes DefaultRegistry) = true.
Proof. vm_compute. reflexivity. Qed.

Lemma default_protects_v4 p res v :
  (p, res) ∈ prefixes DefaultRegistry -> Contains p (A4 v) = true ->
  protects DefaultRegistry (A4 v).
Proof. intros ? ?. by exists p, res. Qed.

Lemma default_has name p b :
  existsb (fun x : prefix * ProtectedResource =>
             bool_decide (pr_Name (x.2) = name) && bool_decide (p_ip (x.1) = p)
             && (p_bits (x.1) =? b)) (prefixes DefaultRegistry) = true ->
  exists res, (Prefix p b, res) ∈ prefixes DefaultRegistry.
Proof.
  intros H. apply existsb_exists in H as ([[p' b'] res] & Hin & H). cbn in H.
  bool_simpl. apply Z.eqb_eq in H0. subst.
  exists res. by apply list_elem_of_In.
Qed.

Lemma default_v4_range name p b v :
  existsb (fun x : prefix * ProtectedResource =>
             bool_decide (pr_Name (x.2) = name) && bool_decide (p_ip (x.1) = A4 p)
             && (p_bits (x.1) =? b)) (prefixes DefaultRegistry) = true ->
  0 <= b <= 32 -> v / 2 ^ (32 - b) = p / 2 ^ (32 - b) ->
  protects DefaultRegistry (A4 v).
Proof.
  intros H Hb Hv. apply default_has in H as [res Hin].
  apply (default_protects_v4 (Prefix (A4 p) b) res); [done|].
  rewrite Contains_A4 by done. by apply Z.eqb_eq.
Qed.

Lemma mapped_not_in_default v z :
  v / 2 ^ 32 = 65535 -> ~ protects DefaultRegistry (A6 v z).
Proof.
  intros Hv (p & res & Hin & Hc).
  pose proof default_prefixes_check as Hck.
  rewrite forallb_forall in Hck. apply list_elem_of_In in Hin.
  specialize (Hck _ Hin). cbn in Hck. destruct p as [[q|q zq] b]; cbn in Hck.
  - by rewrite Contains_A6_A4 in Hc.
  - unfold Contains in Hc. cbn -[Z.pow Z.shiftr Z.sub] in Hc.
    apply andb_true_iff in Hc as [_ Hc].
    rewrite Z.eqb_eq, Z.shiftr_lxor, Z.lxor_eq_0_iff in Hc.
    apply orb_true_iff in Hck as [Hck|Hck]; apply andb_true_iff in Hck as [Hq Hb];
      apply Z.eqb_eq in Hq, Hb; subst q b;
      rewrite !Z.shiftr_div_pow2 in Hc by lia.
    + change (128 - 128) with 0 in Hc. rewrite !Z.div_1_r in Hc. subst v. done.
    + change (128 - 10) with 118 in Hc.
      replace (2 ^ 118) with (2 ^ 32 * 2 ^ 86) in Hc by done.
      rewrite <- Zdiv_Zdiv, Hv in Hc by lia. vm_compute in Hc. done.
Qed.

(** ** Properties *)

(** [MatchIP] is sound and complete for the registry's networks: a
    parsable address has a match exactly when one of the prefixes added to the
    registry contains it, and text that is not an address has none. *)
Theorem MatchIP_spec r ip :
  MatchIP r ip <> [] <-> exists a, ParseAddr ip = Some a /\ protects r a.
Proof.
  destruct (ParseAddr ip) as [a|] eqn:E.
  - split.
    + intros H. exists a. split; [done|]. destruct (MatchIP r ip) as [|m l] eqn:Em; [done|].
      unfold MatchIP in Em. rewrite E in Em.
      assert (Hm : m ∈ match_loop a (prefixes r))
        by (rewrite <- (elem_of_isort match_lt), Em; apply list_elem_of_here).
      apply match_loop_in in Hm as (p & res & ? & ? & _). by exists p, res.
    + intros (a' & [= <-] & Hp) Hn. by apply (MatchIP_nil r ip a E) in Hn.
  - rewrite MatchIP_unparsed by done. naive_solver.
Qed.

(** the default registry protects every private, loopback and link-local
    IPv4 address, whatever resources are added to it afterwards. *)
Theorem DefaultRegistry_protects_local extra ip v :
  ParseAddr ip = Some (A4 v) ->
  IsPrivate (A4 v) || IsLoopback (A4 v) || IsLinkLocalUnicast (A4 v) = true ->
  MatchIP (foldl Add DefaultRegistry extra) ip <> [].
Proof.
  intros Hp H Hn. apply (MatchIP_nil _ _ _ Hp) in Hn. apply Hn, protects_foldl.
  unfold IsPrivate, IsLoopback, IsLinkLocalUnicast, unmap in H.
  rewrite !orb_true_iff, !Z.eqb_eq in H. destruct H as [[[[H|H]|H]|H]|H].
  - by apply (default_v4_range "rfc1918-10" (10 * 2 ^ 24) 8); [vm_compute| |].
  - by apply (default_v4_range "rfc1918-172" ((172 * 16 + 1) * 2 ^ 20) 12); [vm_compute| |].
  - by apply (default_v4_range "rfc1918-192" ((192 * 256 + 168) * 2 ^ 16) 16); [vm_compute| |].
  - by apply (default_v4_range "loopback-v4" (127 * 2 ^ 24) 8); [vm_compute| |].
  - by apply (default_v4_range "link-local-v4" ((169 * 256 + 254) * 2 ^ 16) 16); [vm_compute| |].
Qed.

Lemma DefaultRegistry_protects_local_witness :
  MatchIP (foldl Add DefaultRegistry [service "git" [] 1]) "10.1.2.3" <> [].
Proof.
  apply (DefaultRegistry_protects_local _ _ (10 * 2 ^ 24 + 2 ^ 16 + 2 * 2 ^ 8 + 3));
    vm_compute; reflexivity.
Defined.

(** an IPv4-mapped IPv6 address is never protected by the default
    registry, even when it names an address of a protected IPv4 range. *)
Theorem DefaultRegistry_misses_mapped ip v z :
  ParseAddr ip = Some (A6 v z) -> v / 2 ^ 32 = 65535 ->
  MatchIP DefaultRegistry ip = [].
Proof. intros Hp Hv. apply (MatchIP_nil _ _ _ Hp). by apply mapped_not_in_default. Qed.

Lemma DefaultRegistry_misses_mapped_witness :
  MatchIP DefaultRegistry "::ffff:173.245.48.1" = [] /\
  MatchIP DefaultRegistry "173.245.48.1" <> [].
Proof.
  split.
  - apply (DefaultRegistry_misses_mapped _ (0xffffadf53001) ""); vm_compute; reflexivity.
  - vm_compute. discriminate.
Defined.

End Trust.
