(* ===== verification/Reputation.v ===== *)
(** * The reputation gate ([internal/security/reputation/gate.go])

    [Evaluate] turns the verdicts of AbuseIPDB and VirusTotal and the caller's
    local signal into a decision; [FetchSignals] collects the verdicts through
    the enrichment interface, and the gate composes the two. *)

From S2P Require Import Prelude Netip.
Import Netip.

Local Open Scope Z_scope.

(** ** The enrichment interface ([internal/security/enrichment/types.go])

    What the gate and the auto-ban evaluator read of a summary are the
    provider verdicts; the DNS and ASN results are not looked at. *)
Module Enrichment.

Record LookupOptions := {
  ManualForensics : bool;
  SpamhausReport : bool;
  ReputationCheck : bool;
  lo_LocalSignalScore : Z;
}.

Record ProviderVerdict := {
  v_Provider : string;
  v_Mode : string;
  v_Score : Z;
  v_Manual : bool;
  v_Note : string;
}.

Record EnrichmentSummary := {
  es_IP : option addr;   (** [None]: the zero [netip.Addr] *)
  es_Providers : list ProviderVerdict;
  es_LocalSignalScore : Z;
  es_CacheHit : bool;
}.

(** The Go interface with one method [Enrich]: an implementation with its own
    state, called at a given instant; [None] is the zero [netip.Addr]. *)
Class IPEnricher (E : Type) :=
  Enrich : Z -> option addr -> LookupOptions -> E -> E * result EnrichmentSummary.

Definition manual_forensics : LookupOptions :=
  {| ManualForensics := true; SpamhausReport := false; ReputationCheck := false;
     lo_LocalSignalScore := 0 |}.
Definition reputation_check : LookupOptions :=
  {| ManualForensics := false; SpamhausReport := false; ReputationCheck := true;
     lo_LocalSignalScore := 0 |}.

End Enrichment.
Import Enrichment.

(** ** Quota states ([internal/security/quota/state.go]) *)
Inductive QuotaState := QNormal | QWarning | QThrottled | QExhausted | QUnknown.

(** The guard shared by the gate and the evaluator: the registry knows the
    provider and its state is EXHAUSTED or THROTTLED. *)
Definition quota_constrained (q : option QuotaState) : bool :=
  match q with Some QExhausted | Some QThrottled => true | _ => false end.

Module Reputation.

Definition ModeShadow : string := "shadow".
Definition ModeEnforce : string := "enforce".

Definition ActionAllow : string := "allow".
Definition ActionSuppressLowConfidence : string := "suppress_low_confidence".
Definition ActionInvestigationShadow : string := "investigation_shadow".

Definition ReasonSuppressedLowReputationConfidence : string :=
  "suppressed_low_reputation_confidence".
Definition ReasonInvestigationShadow : string := "investigation_shadow".
Definition ReasonProviderUnavailable : string := "provider_unavailable".
Definition ReasonAllowedCorroborated : string := "allowed_corroborated_signal".

(** [SignalStrength] is a Go string type: the three constants are the declared
    values, but any string (and the empty zero value) inhabits it. *)
Definition SignalNone : string := "none".
Definition SignalWeak : string := "weak".
Definition SignalConfirmedHostile : string := "confirmed_hostile".

Record LocalSignal := { Strength : string; ls_AbuseType : string }.

Record ProviderSignal := {
  Available : bool;
  Score : Z;
  Note : string;
  ps_Err : option string;
}.

Record Signals := {
  sAbuseIPDB : ProviderSignal;
  sVirusTotal : ProviderSignal;
  sLocal : LocalSignal;
}.

Record Policy := {
  Enabled : bool;
  Mode : string;
  AbuseIPDBCheckBeforeReport : bool;
  AbuseIPDBMinConfidenceToReport : Z;
  AbuseIPDBMinConfidenceToBan : Z;
  AbuseIPDBSuppressIfZero : bool;
  VirusTotalEnabled : bool;
  VirusTotalSuppressClean : bool;
}.

Definition DefaultPolicy : Policy := {|
  Enabled := true;
  Mode := ModeShadow;
  AbuseIPDBCheckBeforeReport := true;
  AbuseIPDBMinConfidenceToReport := 25;
  AbuseIPDBMinConfidenceToBan := 50;
  AbuseIPDBSuppressIfZero := true;
  VirusTotalEnabled := true;
  VirusTotalSuppressClean := true;
|}.

Record Decision := {
  Action : string;
  Reason : string;
  AllowReport : bool;
  AllowBan : bool;
  ProviderUnavailable : bool;
  Shadow : bool;
}.

Definition actionFor (allow : bool) : string :=
  if allow then ActionAllow else ActionSuppressLowConfidence.

Definition mk_decision (action reason : string) (allow unavailable shadow : bool) : Decision :=
  {| Action := action; Reason := reason; AllowReport := allow; AllowBan := allow;
     ProviderUnavailable := unavailable; Shadow := shadow |}.

Definition not_enforce (policy : Policy) : bool := negb (bool_decide (Mode policy = ModeEnforce)).

Definition min_confidence (policy : Policy) (forBan : bool) : Z :=
  if forBan then AbuseIPDBMinConfidenceToBan policy else AbuseIPDBMinConfidenceToReport policy.

Definition Evaluate (policy : Policy) (signals : Signals) (forBan : bool) : Decision :=
  if negb (Enabled policy) then
    mk_decision ActionAllow "reputation_gate_disabled" true false (not_enforce policy)
  else
  let shadow := not_enforce policy in
  let providerUnavailable :=
    negb (Available (sAbuseIPDB signals))
    || (VirusTotalEnabled policy && negb (Available (sVirusTotal signals))) in
  let haveAbuseIPDB := Available (sAbuseIPDB signals) in
  let abuseScore := Score (sAbuseIPDB signals) in
  let haveVT := VirusTotalEnabled policy && Available (sVirusTotal signals) in
  let vtMalicious := haveVT && (0 <? Score (sVirusTotal signals)) in
  let vtClean := haveVT && (Score (sVirusTotal signals) =? 0) in
  let abuseHigh := haveAbuseIPDB && (min_confidence policy forBan <=? abuseScore) in
  let abuseZero := haveAbuseIPDB && (abuseScore =? 0) in
  let strength := Strength (sLocal signals) in
  if (abuseHigh || vtMalicious) && negb (bool_decide (strength = SignalNone)) then
    mk_decision ActionAllow ReasonAllowedCorroborated true providerUnavailable shadow
  else if negb haveAbuseIPDB && negb haveVT then
    let allow := bool_decide (strength = SignalConfirmedHostile) in
    mk_decision (actionFor allow) ReasonProviderUnavailable allow true shadow
  else if bool_decide (strength = SignalConfirmedHostile) then
    mk_decision ActionInvestigationShadow ReasonInvestigationShadow false
      providerUnavailable shadow
  else if AbuseIPDBSuppressIfZero policy && abuseZero then
    mk_decision ActionSuppressLowConfidence ReasonSuppressedLowReputationConfidence false
      providerUnavailable shadow
  else if VirusTotalSuppressClean policy && haveVT && vtClean && negb abuseHigh then
    mk_decision ActionSuppressLowConfidence ReasonSuppressedLowReputationConfidence false
      providerUnavailable shadow
  else if bool_decide (strength = SignalNone) || bool_decide (strength = SignalWeak) then
    mk_decision ActionSuppressLowConfidence ReasonSuppressedLowReputationConfidence false
      providerUnavailable shadow
  else
    mk_decision ActionAllow ReasonAllowedCorroborated true providerUnavailable shadow.

(** ** Collecting the signals *)
Definition unavailable (note : string) (err : option string) : ProviderSignal :=
  {| Available := false; Score := 0; Note := note; ps_Err := err |}.

Definition extractProviderSignal (summary : EnrichmentSummary) (provider : string) : ProviderSignal :=
  match List.find (fun v => bool_decide (v_Provider v = provider)) (es_Providers summary) with
  | Some v => {| Available := true; Score := v_Score v; Note := v_Note v; ps_Err := None |}
  | None => unavailable (provider +:+ "_not_returned") None
  end.

Section gate.
Context {E : Type} `{IPEnricher E}.

(** The enricher may be nil; [quota] is what the quota registry reports for
    "abuseipdb" ([None] when there is no registry or no observation). *)
Definition FetchSignals (now : Z) (enricher : option E) (quota : option QuotaState)
    (ip : string) (policy : Policy) (local : LocalSignal) : option E * Signals :=
  match ParseAddr ip with
  | None =>
      let bad := unavailable "" (Some "unable to parse IP") in
      (enricher, {| sAbuseIPDB := bad; sVirusTotal := bad; sLocal := local |})
  | Some a =>
      let constrained := quota_constrained quota in
      let '(enricher', abuse, vt) :=
        if negb constrained then
          match enricher with
          | Some e =>
              let '(e', r) := Enrich now (Some a) reputation_check e in
              match r with
              | Err m => (Some e', unavailable "" (Some m), unavailable "" None)
              | Ok s => (Some e', extractProviderSignal s "abuseipdb",
                         if VirusTotalEnabled policy then extractProviderSignal s "virustotal"
                         else unavailable "" None)
              end
          | None => (None, unavailable "" None, unavailable "" None)
          end
        else
          let abuse := unavailable "abuseipdb_quota_constrained" None in
          match enricher with
          | Some e =>
              if VirusTotalEnabled policy then
                let '(e', r) := Enrich now (Some a) reputation_check e in
                match r with
                | Err m => (Some e', abuse, unavailable "" (Some m))
                | Ok s => (Some e', abuse, extractProviderSignal s "virustotal")
                end
              else (Some e, abuse, unavailable "" None)
          | None => (None, abuse, unavailable "" None)
          end in
      let vt' := if negb (VirusTotalEnabled policy) then unavailable "virustotal_disabled" None
                 else vt in
      (enricher', {| sAbuseIPDB := abuse; sVirusTotal := vt'; sLocal := local |})
  end.

Definition EvaluateFor (forBan : bool) (now : Z) (enricher : option E)
    (quota : option QuotaState) (policy : Policy) (ip : string) (local : LocalSignal)
    : option E * Decision :=
  let '(e', signals) := FetchSignals now enricher quota ip policy local in
  (e', Evaluate policy signals forBan).

Definition EvaluateReport := EvaluateFor false.
Definition EvaluateBan := EvaluateFor true.

End gate.

(** ** Lemmas *)
Definition declared_strength (s : string) : Prop :=
  s = SignalNone \/ s = SignalWeak \/ s = SignalConfirmedHostile.

(** A provider that answered confirms the threat. *)
Definition corroborated (policy : Policy) (signals : Signals) (forBan : bool) : Prop :=
  (Available (sAbuseIPDB signals) = true /\
   min_confidence policy forBan <= Score (sAbuseIPDB signals)) \/
  (VirusTotalEnabled policy = true /\ Available (sVirusTotal signals) = true /\
   0 < Score (sVirusTotal signals)).

(** No provider answered. *)
Definition silent (policy : Policy) (signals : Signals) : Prop :=
  Available (sAbuseIPDB signals) = false /\
  (VirusTotalEnabled policy = false \/ Available (sVirusTotal signals) = false).

Lemma strengths_distinct :
  SignalNone <> SignalWeak /\ SignalNone <> SignalConfirmedHostile
  /\ SignalWeak <> SignalConfirmedHostile.
Proof. done. Qed.

Lemma corroborated_bool policy signals forBan :
  corroborated policy signals forBan <->
  Available (sAbuseIPDB signals) && (min_confidence policy forBan <=? Score (sAbuseIPDB signals))
  || VirusTotalEnabled policy && Available (sVirusTotal signals)
     && (0 <? Score (sVirusTotal signals)) = true.
Proof.
  unfold corroborated. rewrite orb_true_iff, !andb_true_iff, Z.leb_le, Z.ltb_lt. tauto.
Qed.

Lemma silent_bool policy signals :
  silent policy signals <->
  negb (Available (sAbuseIPDB signals))
  && negb (VirusTotalEnabled policy && Available (sVirusTotal signals)) = true.
Proof.
  unfold silent. rewrite andb_true_iff, !negb_true_iff, andb_false_iff. tauto.
Qed.

(** The two flags of a decision always agree. *)
Lemma allow_flags policy signals forBan :
  AllowReport (Evaluate policy signals forBan) = AllowBan (Evaluate policy signals forBan).
Proof. unfold Evaluate. by repeat case_match. Qed.

Lemma Evaluate_declared policy signals forBan :
  Enabled policy = true -> declared_strength (Strength (sLocal signals)) ->
  (AllowBan (Evaluate policy signals forBan) = true <->
   Strength (sLocal signals) <> SignalNone /\ corroborated policy signals forBan
   \/ Strength (sLocal signals) = SignalConfirmedHostile /\ silent policy signals).
Proof.
  intros Hen Hd. pose proof strengths_distinct as (? & ? & ?).
  rewrite corroborated_bool, silent_bool. unfold Evaluate. rewrite Hen. cbn [negb].
  destruct (_ || _) eqn:E1; destruct (negb _ && negb _) eqn:E2;
    destruct Hd as [Hd|[Hd|Hd]]; rewrite Hd;
    rewrite ?(bool_decide_true (SignalNone = SignalNone)),
      ?(bool_decide_true (SignalConfirmedHostile = SignalConfirmedHostile)),
      ?(bool_decide_true (SignalWeak = SignalWeak)),
      ?(bool_decide_false (SignalWeak = SignalNone)),
      ?(bool_decide_false (SignalConfirmedHostile = SignalNone)),
      ?(bool_decide_false (SignalNone = SignalConfirmedHostile)),
      ?(bool_decide_false (SignalWeak = SignalConfirmedHostile)) by done;
    cbn [andb orb negb mk_decision AllowBan];
    repeat (case_match; cbn [mk_decision AllowBan]);
    intuition congruence.
Qed.

(** ** Properties *)

(** for the declared signal strengths the enabled gate lets a report or a
    ban through exactly when local evidence is corroborated by a provider that
    answered, or the local evidence is confirmed hostile and no provider
    answered; in particular never on an external verdict alone. *)
Theorem Evaluate_allow_iff policy signals forBan :
  Enabled policy = true -> declared_strength (Strength (sLocal signals)) ->
  (AllowBan (Evaluate policy signals forBan) = true <->
     Strength (sLocal signals) <> SignalNone /\ corroborated policy signals forBan
     \/ Strength (sLocal signals) = SignalConfirmedHostile /\ silent policy signals)
  /\ AllowReport (Evaluate policy signals forBan) = AllowBan (Evaluate policy signals forBan)
  /\ (Action (Evaluate policy signals forBan) = ActionAllow <->
      AllowBan (Evaluate policy signals forBan) = true).
Proof.
  intros Hen Hd. split_and!.
  - by apply Evaluate_declared.
  - apply allow_flags.
  - unfold Evaluate, actionFor, mk_decision. by repeat case_match.
Qed.

Definition sig (avail : bool) (score : Z) : ProviderSignal :=
  {| Available := avail; Score := score; Note := ""; ps_Err := None |}.

Definition sigs (a v : ProviderSignal) (strength : string) : Signals :=
  {| sAbuseIPDB := a; sVirusTotal := v;
     sLocal := {| Strength := strength; ls_AbuseType := "" |} |}.

Lemma Evaluate_allow_iff_witness :
  AllowBan (Evaluate DefaultPolicy (sigs (sig true 90) (sig true 0) SignalWeak) true) = true.
Proof.
  pose proof (Evaluate_allow_iff DefaultPolicy (sigs (sig true 90) (sig true 0) SignalWeak) true
    eq_refl (or_intror (or_introl eq_refl))) as [[_ H] _].
  apply H. left. split; [done|]. left. vm_compute. split; [reflexivity|discriminate].
Defined.

(** the gate is monotone in the AbuseIPDB confidence (a number from 0 up):
    with every other signal fixed, a higher score never turns an allowed ban or report into a
    refused one, whatever the policy, its thresholds and the local strength. *)
Theorem Evaluate_monotone policy a v local forBan score' :
  0 <= Score a <= score' ->
  AllowBan (Evaluate policy {| sAbuseIPDB := a; sVirusTotal := v; sLocal := local |} forBan)
    = true ->
  AllowBan (Evaluate policy
      {| sAbuseIPDB := {| Available := Available a; Score := score';
                          Note := Note a; ps_Err := ps_Err a |};
         sVirusTotal := v; sLocal := local |} forBan) = true.
Proof.
  intros Hle. unfold Evaluate. cbn [sAbuseIPDB sVirusTotal sLocal Available Score].
  destruct (Enabled policy); [|done]. cbn [negb].
  destruct (Available a); cbn [andb orb negb].
  2:{ done. }
  destruct (min_confidence policy forBan <=? Score a) eqn:E1.
  { assert ((min_confidence policy forBan <=? score') = true) as -> by lia.
    cbn [andb orb negb]. repeat case_match; bool_simpl; cbn; done. }
  destruct (min_confidence policy forBan <=? score') eqn:E2; cbn [andb orb negb];
    repeat (case_match; cbn in *; bool_simpl; try done; try congruence; try lia).
  all: repeat match goal with H : AbuseIPDBSuppressIfZero _ = true |- _ => rewrite H in *; clear H end.
  all: cbn in *; lia.
Qed.

Lemma Evaluate_monotone_witness :
  AllowBan (Evaluate DefaultPolicy (sigs (sig true 90) (sig true 0) SignalWeak) true) = true.
Proof.
  apply (Evaluate_monotone DefaultPolicy (sig true 60) (sig true 0)
           {| Strength := SignalWeak; ls_AbuseType := "" |} true 90).
  - vm_compute. split; discriminate.
  - reflexivity.
Defined.

(** provider failure never blocks nor escalates by itself: when the
    address does not parse, no enricher is configured, or the lookup fails,
    the enabled gate decides by the local signal alone, and says so. *)
Theorem EvaluateFor_fail_open {E} `{IPEnricher E} forBan now (enricher : option E) quota
    policy ip local :
  Enabled policy = true ->
  (ParseAddr ip = None \/ enricher = None \/
   exists a e m, ParseAddr ip = Some a /\ enricher = Some e /\
                 (Enrich now (Some a) reputation_check e).2 = Err m) ->
  let d := (EvaluateFor forBan now enricher quota policy ip local).2 in
  Reason d = ReasonProviderUnavailable /\ ProviderUnavailable d = true /\
  AllowBan d = bool_decide (Strength local = SignalConfirmedHostile).
Proof.
  intros Hen Hf. unfold EvaluateFor, FetchSignals.
  destruct (ParseAddr ip) as [a|] eqn:Ea.
  - destruct enricher as [e|].
    + destruct Hf as [|[|(a' & e' & m & [= <-] & [= <-] & Hm)]]; [done..|].
      destruct (Enrich now (Some a) reputation_check e) as [e' r]; cbn in Hm; subst r.
      unfold Evaluate. rewrite Hen.
      destruct (quota_constrained quota), (VirusTotalEnabled policy); cbn; done.
    + unfold Evaluate. rewrite Hen.
      destruct (quota_constrained quota), (VirusTotalEnabled policy); cbn; done.
  - unfold Evaluate. rewrite Hen. destruct (VirusTotalEnabled policy); cbn; done.
Qed.

(** An enricher that always fails. *)
#[local] Instance failing_enricher : IPEnricher unit :=
  fun _ _ _ e => (e, Err "timeout").

Lemma EvaluateFor_fail_open_witness :
  AllowBan (EvaluateFor true 0 (Some tt) None DefaultPolicy "203.0.113.9"
     {| Strength := SignalConfirmedHostile; ls_AbuseType := "exploit_attempt" |}).2 = true.
Proof.
  apply (EvaluateFor_fail_open true 0 (Some tt) None DefaultPolicy "203.0.113.9"
     {| Strength := SignalConfirmedHostile; ls_AbuseType := "exploit_attempt" |}).
  - reflexivity.
  - right; right. eexists _, tt, _. split_and!; vm_compute; reflexivity.
Defined.

(** the zero-valued local signal (no strength set) is treated as local
    evidence: a corroborating provider alone then allows the ban. *)
Theorem Evaluate_unset_strength policy a v abuseType forBan :
  Enabled policy = true ->
  corroborated policy {| sAbuseIPDB := a; sVirusTotal := v;
                         sLocal := {| Strength := ""; ls_AbuseType := abuseType |} |} forBan ->
  Action (Evaluate policy {| sAbuseIPDB := a; sVirusTotal := v;
            sLocal := {| Strength := ""; ls_AbuseType := abuseType |} |} forBan) = ActionAllow.
Proof.
  intros Hen Hc. apply corroborated_bool in Hc. cbn in Hc.
  unfold Evaluate. rewrite Hen. cbn [negb sAbuseIPDB sVirusTotal sLocal Strength].
  rewrite Hc. done.
Qed.

Lemma Evaluate_unset_strength_witness :
  Action (Evaluate DefaultPolicy (sigs (sig true 90) (sig true 0) "") true) = ActionAllow.
Proof.
  apply (Evaluate_unset_strength DefaultPolicy (sig true 90) (sig true 0) "" true).
  - reflexivity.
  - left. vm_compute. split; [reflexivity|discriminate].
Defined.

End Reputation.
