(* ===== verification/BanLifecycle.v ===== *)
(** * Ban lifecycle storage ([internal/cloudflare/banlifecycle])

    The lifecycle entry, the duration policy, and the [Store] interface as a
    class of operations with the laws its clients rely on.  The two
    implementations are in [BanStores]. *)

From S2P Require Import Prelude.

Local Open Scope Z_scope.

Module BanLifecycle.

Definition StatusActive : string := "active".
Definition StatusExpiredCleaned : string := "expired_cleaned".
Definition StatusAutoDebanned : string := "auto_debanned".
Definition StatusManualOverride : string := "manual_override".
Definition StatusOperatorDebanned : string := "operator_debanned".

Record Entry := {
  IP : string;
  Source : string;
  Reason : string;
  Confidence : Z;
  CreatedAt : Z;
  ExpiresAt : Z;
  Duration : Z;
  RuleID : string;
  EvidenceID : string;
  RecidiveLevel : Z;
  Status : string;
  CleanupAttempts : Z;
  LastCleanupError : string;
  LastCleanupAttemptAt : Z;
}.

#[export] Instance Entry_eq_dec : EqDecision Entry.
Proof. solve_decision. Defined.

Definition set_status (st : string) (e : Entry) : Entry :=
  {| IP := IP e; Source := Source e; Reason := Reason e; Confidence := Confidence e;
     CreatedAt := CreatedAt e; ExpiresAt := ExpiresAt e; Duration := Duration e;
     RuleID := RuleID e; EvidenceID := EvidenceID e; RecidiveLevel := RecidiveLevel e;
     Status := st; CleanupAttempts := CleanupAttempts e;
     LastCleanupError := LastCleanupError e;
     LastCleanupAttemptAt := LastCleanupAttemptAt e |}.

Definition set_created (t : Z) (e : Entry) : Entry :=
  {| IP := IP e; Source := Source e; Reason := Reason e; Confidence := Confidence e;
     CreatedAt := t; ExpiresAt := ExpiresAt e; Duration := Duration e;
     RuleID := RuleID e; EvidenceID := EvidenceID e; RecidiveLevel := RecidiveLevel e;
     Status := Status e; CleanupAttempts := CleanupAttempts e;
     LastCleanupError := LastCleanupError e;
     LastCleanupAttemptAt := LastCleanupAttemptAt e |}.

Definition set_bookkeeping (attempts : Z) (err : string) (at_ : Z) (e : Entry) : Entry :=
  {| IP := IP e; Source := Source e; Reason := Reason e; Confidence := Confidence e;
     CreatedAt := CreatedAt e; ExpiresAt := ExpiresAt e; Duration := Duration e;
     RuleID := RuleID e; EvidenceID := EvidenceID e; RecidiveLevel := RecidiveLevel e;
     Status := Status e; CleanupAttempts := attempts;
     LastCleanupError := err; LastCleanupAttemptAt := at_ |}.

Definition is_active (e : Entry) : bool := bool_decide (Status e = StatusActive).

(** ** Duration policy *)
Definition DefaultFirstBanDuration : Z := 1 * hour.
Definition DefaultSecondBanDuration : Z := 6 * hour.
Definition DefaultThirdPlusBanDuration : Z := 24 * hour.
Definition MaxBanDuration : Z := 24 * hour.

Record DurationPolicy := { First : Z; Second : Z; ThirdPlus : Z }.

Definition DefaultDurationPolicy : DurationPolicy :=
  {| First := DefaultFirstBanDuration; Second := DefaultSecondBanDuration;
     ThirdPlus := DefaultThirdPlusBanDuration |}.

Definition DurationFor (p : DurationPolicy) (recidiveLevel : Z) : Z :=
  let d := if recidiveLevel <=? 1 then First p
           else if recidiveLevel =? 2 then Second p else ThirdPlus p in
  if MaxBanDuration <? d then MaxBanDuration else d.

(** whatever the configured policy, no ban outlasts 24 hours; a policy that
    escalates yields durations that never shorten as the recidive level grows;
    and the default policy is 1h, 6h, then 24h. *)
Theorem DurationFor_bounded (p : DurationPolicy) (a b : Z) :
  DurationFor p a <= 24 * hour /\
  (First p <= Second p /\ Second p <= ThirdPlus p /\ a <= b -> DurationFor p a <= DurationFor p b) /\
  DurationFor DefaultDurationPolicy 1 = 1 * hour /\
  DurationFor DefaultDurationPolicy 2 = 6 * hour /\
  DurationFor DefaultDurationPolicy 3 = 24 * hour.
Proof.
  unfold DurationFor, MaxBanDuration, hour, minute, second. cbn.
  split_and!; try done; [|intros (? & ? & ?)];
    repeat case_match; lia.
Qed.

(** ** The [Store] interface *)
Class BanStoreOps (S : Type) := {
  Upsert : Z -> Entry -> S -> result S;
  Get : string -> S -> result (option Entry);
  Active : S -> result (list Entry);
  Expired : Z -> S -> result (list Entry);
  MarkStatus : Z -> string -> string -> string -> S -> result S;
  RecordCleanupFailure : Z -> string -> string -> S -> result S;
  Recent : Z -> S -> result (list Entry);
  RecidiveLevelOf : string -> S -> result Z;
}.

(** What a store promises is stated on the history of each IP, oldest entry
    first.  [update_last] changes the current (most recent) entry. *)
Fixpoint update_last (f : Entry -> Entry) (h : list Entry) : list Entry :=
  match h with
  | [] => []
  | [e] => [f e]
  | e :: h' => e :: update_last f h'
  end.

Definition upsert_hist (e : Entry) (h : list Entry) : list Entry :=
  match last h with
  | Some cur => if is_active cur then update_last (fun _ => e) h else h ++ [e]
  | None => [e]
  end.

(** Entries agree up to the cleanup-failure bookkeeping, which the two
    implementations treat differently. *)
Record entry_eqv (a b : Entry) : Prop := EntryEqv {
  eqv_core : set_bookkeeping 0 "" 0 a = set_bookkeeping 0 "" 0 b;
}.
#[export] Instance Entry_equiv : Equiv Entry := entry_eqv.

(** An entry the ban-creation path may upsert: active, stamped, and not older
    than what is on record for the IP. *)
Definition upsertable (e : Entry) (h : list Entry) : Prop :=
  Status e = StatusActive /\ CreatedAt e <> 0 /\
  Forall (fun e' => CreatedAt e' <= CreatedAt e) h.

#[export] Instance upsertable_dec e h : Decision (upsertable e h).
Proof. apply _. Defined.

Class BanStore (S : Type) `{BanStoreOps S} := {
  bs_wf : S -> Prop;
  hist : S -> string -> list Entry;
  hist_ip s ip e : bs_wf s -> e ∈ hist s ip -> IP e = ip;
  get_law s ip : bs_wf s -> Get ip s = Ok (last (hist s ip));
  active_law s : bs_wf s -> exists l, Active s = Ok l /\ NoDup (IP <$> l) /\
    forall e, e ∈ l <-> last (hist s (IP e)) = Some e /\ Status e = StatusActive;
  expired_law s now : bs_wf s -> exists l, Expired now s = Ok l /\ NoDup (IP <$> l) /\
    forall e, e ∈ l <-> last (hist s (IP e)) = Some e /\ Status e = StatusActive
                        /\ ExpiresAt e <= now;
  mark_law s now ip st note s' : bs_wf s -> MarkStatus now ip st note s = Ok s' ->
    bs_wf s' /\ hist s' ip = update_last (set_status st) (hist s ip) /\
    forall ip', ip' <> ip -> hist s' ip' = hist s ip';
  fail_law s now ip msg s' : bs_wf s -> RecordCleanupFailure now ip msg s = Ok s' ->
    bs_wf s' /\
    (exists at_, hist s' ip = update_last (fun e => set_bookkeeping (CleanupAttempts e + 1) msg at_ e)
                                          (hist s ip)) /\
    forall ip', ip' <> ip -> hist s' ip' = hist s ip';
  upsert_law s now e s' : bs_wf s -> upsertable e (hist s (IP e)) -> Upsert now e s = Ok s' ->
    bs_wf s' /\ hist s' (IP e) ≡ upsert_hist e (hist s (IP e)) /\
    forall ip', ip' <> IP e -> hist s' ip' = hist s ip';
  recidive_law s ip : bs_wf s ->
    RecidiveLevelOf ip s = Ok (Z.of_nat (length (List.filter (fun e => negb (is_active e)) (hist s ip))));
}.

(** ** Lemmas on histories *)
Lemma update_last_snoc f h e : update_last f (h ++ [e]) = h ++ [f e].
Proof. induction h as [|x h IH]; [done|]. cbn. rewrite IH. by destruct h. Qed.

Lemma last_update_last f h : last (update_last f h) = f <$> last h.
Proof.
  destruct h as [|e h] using rev_ind; [done|]. by rewrite update_last_snoc, !last_snoc.
Qed.

Lemma update_last_length f h : length (update_last f h) = length h.
Proof.
  destruct h as [|e h] using rev_ind; [done|]. by rewrite update_last_snoc, !length_app.
Qed.

Lemma upsert_hist_last e h : last (upsert_hist e h) = Some e.
Proof.
  unfold upsert_hist. destruct (last h) as [cur|] eqn:E; [|done].
  destruct (is_active cur).
  - by rewrite last_update_last, E.
  - apply last_snoc.
Qed.

#[export] Instance Entry_equiv_equivalence : Equivalence (≡@{Entry}).
Proof.
  split.
  - intros a. exact (EntryEqv _ _ eq_refl).
  - intros a b [H]. exact (EntryEqv _ _ (eq_sym H)).
  - intros a b c [H1] [H2]. exact (EntryEqv _ _ (eq_trans H1 H2)).
Qed.

#[export] Instance Status_proper : Proper ((≡@{Entry}) ==> eq) Status.
Proof. intros a b [H]. exact (f_equal Status H). Qed.
#[export] Instance ExpiresAt_proper : Proper ((≡@{Entry}) ==> eq) ExpiresAt.
Proof. intros a b [H]. exact (f_equal ExpiresAt H). Qed.
#[export] Instance IP_proper : Proper ((≡@{Entry}) ==> eq) IP.
Proof. intros a b [H]. exact (f_equal IP H). Qed.
#[export] Instance CreatedAt_proper : Proper ((≡@{Entry}) ==> eq) CreatedAt.
Proof. intros a b [H]. exact (f_equal CreatedAt H). Qed.
#[export] Instance is_active_proper : Proper ((≡@{Entry}) ==> eq) is_active.
Proof. intros a b H. unfold is_active. by rewrite (Status_proper a b H). Qed.

#[export] Instance set_status_proper st : Proper ((≡@{Entry}) ==> (≡)) (set_status st).
Proof.
  intros a b [H]. constructor. exact (f_equal (set_status st) H).
Qed.

Lemma set_bookkeeping_equiv n m t e : set_bookkeeping n m t e ≡ e.
Proof. done. Qed.

Lemma update_last_equiv (f g : Entry -> Entry) h1 h2 :
  (forall a b, a ≡ b -> f a ≡ g b) -> h1 ≡ h2 -> update_last f h1 ≡ update_last g h2.
Proof.
  intros Hfg. induction 1 as [|a b h1 h2 Hab Hh IH]; [constructor|].
  destruct Hh; cbn in *; constructor; auto; by constructor; auto.
Qed.

Lemma update_last_same (f : Entry -> Entry) h :
  (forall a, f a ≡ a) -> update_last f h ≡ h.
Proof.
  intros Hf. destruct h as [|e h] using rev_ind; [done|].
  rewrite update_last_snoc. by rewrite Hf.
Qed.

Lemma last_equiv (h1 h2 : list Entry) : h1 ≡ h2 -> last h1 ≡ last h2.
Proof. intros H. by rewrite H. Qed.

Lemma upsert_hist_equiv e h1 h2 : h1 ≡ h2 -> upsert_hist e h1 ≡ upsert_hist e h2.
Proof.
  intros H. unfold upsert_hist. pose proof (last_equiv _ _ H) as Hl.
  destruct (last h1) as [a|], (last h2) as [b|]; inversion Hl as [? ? Hab|]; subst; [|done].
  rewrite Hab. destruct (is_active b).
  - apply update_last_equiv; [done|exact H].
  - by rewrite H.
Qed.

Lemma count_inactive_equiv (h1 h2 : list Entry) :
  h1 ≡ h2 -> length (List.filter (fun e => negb (is_active e)) h1)
             = length (List.filter (fun e => negb (is_active e)) h2).
Proof.
  induction 1 as [|a b h1 h2 Hab Hh IH]; [done|]. cbn. rewrite Hab.
  destruct (is_active b); cbn; lia.
Qed.

End BanLifecycle.
