(* ===== verification/BanStores.v ===== *)
(** * The two ban lifecycle stores

    [MemStore] is [internal/cloudflare/banlifecycle/memstore]; [SqliteStore] is
    [internal/storage/sqlite/ban_lifecycle.go] over the table
    [cf_ban_lifecycle], whose rows are listed in the order of their
    autoincrement ids and whose partial unique index allows one active row per
    IP.  Both are instances of [BanStore]. *)

From S2P Require Import Prelude BanLifecycle.
Import BanLifecycle.

Local Open Scope Z_scope.

(** ** The in-memory store *)
Module MemStore.

Record Store := { history : gmap string (list Entry) }.

Definition New : Store := {| history := ∅ |}.

Definition entries_of (s : Store) (ip : string) : list Entry := default [] (history s !! ip).

Definition put (s : Store) (ip : string) (h : list Entry) : Store :=
  {| history := <[ip := h]> (history s) |}.

Definition mem_upsert (_now : Z) (e : Entry) (s : Store) : result Store :=
  let entries := entries_of s (IP e) in
  match last entries with
  | Some cur =>
      if is_active cur then Ok (put s (IP e) (update_last (fun _ => e) entries))
      else Ok (put s (IP e) (entries ++ [e]))
  | None => Ok (put s (IP e) (entries ++ [e]))
  end.

Definition mem_get (ip : string) (s : Store) : result (option Entry) :=
  Ok (last (entries_of s ip)).

(** The current entry of each IP that satisfies a test, in map order. *)
Definition current_where (f : Entry -> bool) (s : Store) : list Entry :=
  omap (fun kv : string * list Entry =>
          match last (kv.2) with
          | Some e => if f e then Some e else None
          | None => None
          end) (map_to_list (history s)).

Definition mem_active (s : Store) : result (list Entry) := Ok (current_where is_active s).

Definition mem_expired (now : Z) (s : Store) : result (list Entry) :=
  Ok (current_where (fun e => is_active e && negb (t_after (ExpiresAt e) now)) s).

Definition mem_mark (_now : Z) (ip status _note : string) (s : Store) : result Store :=
  match entries_of s ip with
  | [] => Ok s
  | entries => Ok (put s ip (update_last (set_status status) entries))
  end.

Definition mem_fail (now : Z) (ip errMsg : string) (s : Store) : result Store :=
  match entries_of s ip with
  | [] => Ok s
  | entries =>
      Ok (put s ip (update_last (fun e => set_bookkeeping (CleanupAttempts e + 1) errMsg now e)
                                entries))
  end.

Definition mem_recent (limit : Z) (s : Store) : result (list Entry) :=
  let limit' := if limit <=? 0 then 100 else limit in
  let out := map_to_list (history s) ≫= snd in
  Ok (take (Z.to_nat limit') (isort (fun a b => t_after (CreatedAt a) (CreatedAt b)) out)).

Definition mem_recidive (ip : string) (s : Store) : result Z :=
  Ok (Z.of_nat (length (List.filter (fun e => negb (is_active e)) (entries_of s ip)))).

#[global] Instance mem_ops : BanStoreOps Store := {|
  Upsert := mem_upsert; Get := mem_get; Active := mem_active; Expired := mem_expired;
  MarkStatus := mem_mark; RecordCleanupFailure := mem_fail; Recent := mem_recent;
  RecidiveLevelOf := mem_recidive;
|}.

Definition mem_wf (s : Store) : Prop :=
  forall ip e, e ∈ entries_of s ip -> IP e = ip.

Lemma entries_put s ip h ip' :
  entries_of (put s ip h) ip' = if decide (ip = ip') then h else entries_of s ip'.
Proof. unfold entries_of, put; cbn. rewrite lookup_insert. by case_decide. Qed.

Lemma current_where_spec f s e :
  mem_wf s -> (e ∈ current_where f s <-> last (entries_of s (IP e)) = Some e /\ f e = true).
Proof.
  intros Hwf. unfold current_where. rewrite list_elem_of_omap. split.
  - intros ([ip h] & Hin & Hm). apply elem_of_map_to_list in Hin. cbn in Hm.
    destruct (last h) as [e'|] eqn:El; [|done].
    destruct (f e') eqn:Ef; simplify_eq.
    assert (entries_of s ip = h) as Hh by (unfold entries_of; by rewrite Hin).
    assert (IP e = ip) as ->; [|by rewrite Hh].
    apply Hwf. rewrite Hh. by apply last_Some_elem_of.
  - intros [Hl Hf]. unfold entries_of in Hl.
    destruct (history s !! IP e) as [h|] eqn:Eh; [|done]. cbn in Hl.
    exists (IP e, h). split; [by apply elem_of_map_to_list|]. cbn. by rewrite Hl, Hf.
Qed.

Lemma omap_keys_NoDup (f : string * list Entry -> option Entry) l :
  (forall k h e, (k, h) ∈ l -> f (k, h) = Some e -> IP e = k) ->
  NoDup l.*1 -> NoDup (IP <$> omap f l).
Proof.
  induction l as [|[k h] l IH]; intros Hf Hnd; [constructor|].
  inversion Hnd as [|? ? Hk Hl]; subst. cbn.
  assert (NoDup (IP <$> omap f l)) by (apply IH; [|done]; set_solver).
  destruct (f (k, h)) as [e|] eqn:E; [|done]. cbn. constructor; [|done].
  rewrite (Hf k h e) by (done || set_solver).
  intros (e' & HIP & Hin)%list_elem_of_fmap.
  apply list_elem_of_omap in Hin as ([k' h'] & Hin & Hm).
  assert (IP e' = k') as Hk' by (eapply Hf; [|done]; set_solver).
  apply Hk, list_elem_of_fmap. exists (k', h'). split; [by rewrite <- Hk', <- HIP|done].
Qed.

Lemma current_where_NoDup f s : mem_wf s -> NoDup (IP <$> current_where f s).
Proof.
  intros Hwf. apply omap_keys_NoDup.
  - intros k h e Hin%elem_of_map_to_list Hm. cbn in Hm.
    destruct (last h) as [e'|] eqn:El; [|done]. destruct (f e'); simplify_eq.
    apply Hwf. unfold entries_of. rewrite Hin. by apply last_Some_elem_of.
  - apply NoDup_fst_map_to_list.
Qed.

Lemma update_last_ip f h ip :
  (forall e, IP (f e) = IP e) -> (forall e, e ∈ h -> IP e = ip) ->
  forall e, e ∈ update_last f h -> IP e = ip.
Proof.
  intros Hf. destruct h as [|x h _] using rev_ind; [done|].
  rewrite update_last_snoc. intros H e. rewrite elem_of_app, list_elem_of_singleton.
  intros [?| ->]; [apply H; set_solver|]. rewrite Hf. apply H. set_solver.
Qed.

Lemma mem_put_wf s ip h :
  mem_wf s -> (forall e, e ∈ h -> IP e = ip) -> mem_wf (put s ip h).
Proof. intros Hwf Hh ip' e. rewrite entries_put. case_decide; subst; auto. Qed.

Lemma mem_write_law s ip f s' :
  mem_wf s -> (forall e, IP (f e) = IP e) ->
  match entries_of s ip with [] => Ok s | entries => Ok (put s ip (update_last f entries)) end = Ok s' ->
  mem_wf s' /\ entries_of s' ip = update_last f (entries_of s ip) /\
  forall ip', ip' <> ip -> entries_of s' ip' = entries_of s ip'.
Proof.
  intros Hwf Hf H. destruct (entries_of s ip) as [|x h] eqn:E.
  - injection H as <-. by rewrite E.
  - assert (s' = put s ip (update_last f (x :: h))) as -> by congruence.
    rewrite <- E. split_and!.
    + apply mem_put_wf; [done|]. apply update_last_ip; [done|]. intros e. apply Hwf.
    + by rewrite entries_put, decide_True.
    + intros ip' Hne. by rewrite entries_put, decide_False.
Qed.

Lemma mem_upsert_law s now e s' :
  mem_wf s -> mem_upsert now e s = Ok s' ->
  mem_wf s' /\ entries_of s' (IP e) = upsert_hist e (entries_of s (IP e)) /\
  forall ip', ip' <> IP e -> entries_of s' ip' = entries_of s ip'.
Proof.
  intros Hwf H.
  assert (s' = put s (IP e) (upsert_hist e (entries_of s (IP e)))) as ->.
  { unfold mem_upsert, upsert_hist in *. destruct (last (entries_of s (IP e))) eqn:El.
    - by destruct (is_active _); injection H as <-.
    - apply last_None in El. rewrite El in *. by injection H as <-. }
  split_and!.
  - apply mem_put_wf; [done|]. intros e' He'. unfold upsert_hist in He'.
    assert (Hsnoc : e' ∈ entries_of s (IP e) \/ e' = e).
    { destruct (last (entries_of s (IP e))) as [c|]; [|set_solver].
      destruct (is_active c); [|set_solver].
      destruct (entries_of s (IP e)) as [|x h _] using rev_ind; [set_solver|].
      rewrite update_last_snoc in He'. set_solver. }
    destruct Hsnoc as [Hin | ->]; [by apply Hwf|done].
  - by rewrite entries_put, decide_True.
  - intros ip' Hne. by rewrite entries_put, decide_False.
Qed.

Lemma is_active_iff e : is_active e = true <-> Status e = StatusActive.
Proof. unfold is_active. apply bool_decide_eq_true. Qed.

#[global] Program Instance mem_store : BanStore Store := {|
  bs_wf := mem_wf; hist := entries_of;
|}.
Next Obligation. intros s ip e Hwf. apply Hwf. Qed.
Next Obligation. done. Qed.
Next Obligation.
  intros s Hwf. eexists. split_and!; [done|by apply current_where_NoDup|].
  intros e. by rewrite current_where_spec, is_active_iff.
Qed.
Next Obligation.
  intros s now Hwf. eexists. split_and!; [done|by apply current_where_NoDup|].
  intros e. rewrite current_where_spec, andb_true_iff, is_active_iff by done.
  unfold t_after. rewrite negb_true_iff, Z.ltb_ge. done.
Qed.
Next Obligation. intros s now ip st note s' Hwf H. by apply (mem_write_law s ip (set_status st)). Qed.
Next Obligation.
  intros s now ip msg s' Hwf H.
  destruct (mem_write_law s ip (fun e => set_bookkeeping (CleanupAttempts e + 1) msg now e) s')
    as (? & ? & ?); [done..|]. split_and!; eauto.
Qed.
Next Obligation.
  intros s now e s' Hwf _ H. destruct (mem_upsert_law s now e s' Hwf H) as (? & -> & ?). done.
Qed.
Next Obligation. done. Qed.

End MemStore.

(** ** The SQLite store *)
Module SqliteStore.

(** A row of [cf_ban_lifecycle]: the entry's columns, and the two columns no
    read returns. *)
Record row := { r_id : Z; r_entry : Entry; r_note : string; r_updated : Z }.

Record BanLifecycleStore := {
  readOnly : bool;
  rows : list row;      (** in the order of their ids *)
  next_id : Z;          (** the next autoincrement value *)
}.

Definition NewBanLifecycleStore : BanLifecycleStore :=
  {| readOnly := false; rows := []; next_id := 1 |}.

Definition r_ip (r : row) : string := IP (r_entry r).
Definition rows_of (s : BanLifecycleStore) (ip : string) : list row :=
  filter (fun r => r_ip r = ip) (rows s).

(** [ORDER BY created_at, id]. *)
Definition row_leb (a b : row) : bool :=
  (CreatedAt (r_entry a) <? CreatedAt (r_entry b)) ||
  ((CreatedAt (r_entry a) =? CreatedAt (r_entry b)) && (r_id a <=? r_id b)).
Definition row_ltb (a b : row) : bool := negb (row_leb b a).

Definition is_active_row (r : row) : bool := is_active (r_entry r).

(** [UPDATE ... WHERE id = ?]; the partial unique index on active rows rejects
    the statement when it would make a second row of the IP active. *)
Definition update_rows (id : Z) (f : row -> row) (l : list row) : list row :=
  (fun r => if r_id r =? id then f r else r) <$> l.
Definition active_unique (l : list row) : bool :=
  bool_decide (NoDup (r_ip <$> List.filter is_active_row l)).
Definition exec_update (op : string) (id : Z) (f : row -> row) (s : BanLifecycleStore)
  : result BanLifecycleStore :=
  let rows' := update_rows id f (rows s) in
  if active_unique rows'
  then Ok {| readOnly := readOnly s; rows := rows'; next_id := next_id s |}
  else Err (wrap_msg op "UNIQUE constraint failed: cf_ban_lifecycle.ip").
Definition exec_insert (op : string) (e : Entry) (now : Z) (s : BanLifecycleStore)
  : result BanLifecycleStore :=
  let rows' := rows s ++ [{| r_id := next_id s; r_entry := set_bookkeeping 0 "" 0 e;
                             r_note := ""; r_updated := sql_now now |}] in
  if active_unique rows'
  then Ok {| readOnly := readOnly s; rows := rows'; next_id := next_id s + 1 |}
  else Err (wrap_msg op "UNIQUE constraint failed: cf_ban_lifecycle.ip").

Definition sq_upsert (now : Z) (e0 : Entry) (s : BanLifecycleStore) : result BanLifecycleStore :=
  let op := "storage.sqlite.BanLifecycleStore.Upsert" in
  (_ <-? ensureWritable op (readOnly s);
   let e1 := if bool_decide (Status e0 = "") then set_status StatusActive e0 else e0 in
   let e := if is_zero_time (CreatedAt e1) then set_created now e1 else e1 in
   match List.find is_active_row (rows_of s (IP e)) with
   | Some ex =>
       exec_update op (r_id ex)
         (fun r => {| r_id := r_id r;
                      r_entry := set_bookkeeping (CleanupAttempts (r_entry r))
                                   (LastCleanupError (r_entry r))
                                   (LastCleanupAttemptAt (r_entry r)) e;
                      r_note := r_note r; r_updated := sql_now now |}) s
   | None => exec_insert op e now s
   end)%go.

(** [ORDER BY created_at DESC, id DESC LIMIT 1] over the rows of an IP. *)
Definition current_row (s : BanLifecycleStore) (ip : string) : option row :=
  max_by row_leb (rows_of s ip).

Definition sq_get (ip : string) (s : BanLifecycleStore) : result (option Entry) :=
  Ok (r_entry <$> current_row s ip).

Definition sq_active (s : BanLifecycleStore) : result (list Entry) :=
  Ok (r_entry <$> isort (fun a b => row_ltb b a) (List.filter is_active_row (rows s))).

Definition sq_expired (now : Z) (s : BanLifecycleStore) : result (list Entry) :=
  Ok (r_entry <$> isort row_ltb
        (List.filter (fun r => is_active_row r && (ExpiresAt (r_entry r) <=? now)) (rows s))).

Definition sq_recent (limit : Z) (s : BanLifecycleStore) : result (list Entry) :=
  let limit' := if limit <=? 0 then 100 else limit in
  Ok (r_entry <$> take (Z.to_nat limit') (isort (fun a b => row_ltb b a) (rows s))).

Definition sq_mark (now : Z) (ip status note : string) (s : BanLifecycleStore)
  : result BanLifecycleStore :=
  let op := "storage.sqlite.BanLifecycleStore.MarkStatus" in
  (_ <-? ensureWritable op (readOnly s);
   match current_row s ip with
   | None => Ok s
   | Some r0 =>
       exec_update op (r_id r0)
         (fun r => {| r_id := r_id r; r_entry := set_status status (r_entry r);
                      r_note := note; r_updated := sql_now now |}) s
   end)%go.

Definition sq_fail (now : Z) (ip errMsg : string) (s : BanLifecycleStore)
  : result BanLifecycleStore :=
  let op := "storage.sqlite.BanLifecycleStore.RecordCleanupFailure" in
  (_ <-? ensureWritable op (readOnly s);
   match current_row s ip with
   | None => Ok s
   | Some r0 =>
       exec_update op (r_id r0)
         (fun r => {| r_id := r_id r;
                      r_entry := set_bookkeeping (CleanupAttempts (r_entry r) + 1) errMsg
                                   (sql_now now) (r_entry r);
                      r_note := r_note r; r_updated := sql_now now |}) s
   end)%go.

Definition sq_recidive (ip : string) (s : BanLifecycleStore) : result Z :=
  Ok (Z.of_nat (length (List.filter (fun r => negb (is_active_row r)) (rows_of s ip)))).

#[global] Instance sqlite_ops : BanStoreOps BanLifecycleStore := {|
  Upsert := sq_upsert; Get := sq_get; Active := sq_active; Expired := sq_expired;
  MarkStatus := sq_mark; RecordCleanupFailure := sq_fail; Recent := sq_recent;
  RecidiveLevelOf := sq_recidive;
|}.

Definition sq_hist (s : BanLifecycleStore) (ip : string) : list Entry := r_entry <$> rows_of s ip.

(** Ids increase; the rows of an IP are in chronological order and only the
    latest of them can be active. *)
Definition older (a b : Entry) : Prop := CreatedAt a <= CreatedAt b /\ is_active a = false.
Record sq_wf (s : BanLifecycleStore) : Prop := {
  wf_ids : StronglySorted Z.lt (r_id <$> rows s);
  wf_next : Forall (fun i => i < next_id s) (r_id <$> rows s);
  wf_hist : forall ip, StronglySorted older (sq_hist s ip);
}.

Lemma SS_filter {A} (R : relation A) (P : A -> Prop) `{!forall x, Decision (P x)} l :
  StronglySorted R l -> StronglySorted R (filter P l).
Proof.
  induction 1 as [|x l Hs IH Hx]; [constructor|]. rewrite filter_cons.
  case_decide; [|done]. constructor; [done|].
  rewrite Forall_forall in *. intros y [_ Hy]%list_elem_of_filter. auto.
Qed.

Lemma SS_and {A} (R Q : relation A) l :
  StronglySorted R l -> StronglySorted Q l -> StronglySorted (fun a b => R a b /\ Q a b) l.
Proof.
  induction 1 as [|x l Hs IH Hx]; [constructor|]. inversion 1; subst.
  constructor; [auto|]. by apply Forall_and.
Qed.

Lemma SS_impl {A} (R Q : relation A) l :
  (forall a b, R a b -> Q a b) -> StronglySorted R l -> StronglySorted Q l.
Proof.
  intros HRQ. induction 1; constructor; [done|]. eapply Forall_impl; eauto.
Qed.

Lemma fmap_id_on {A} (g : A -> A) (l : list A) : (forall x, x ∈ l -> g x = x) -> g <$> l = l.
Proof.
  induction l as [|x l IH]; intros Hg; [done|].
  rewrite fmap_cons, Hg, IH by set_solver. done.
Qed.

Lemma rows_of_ids s ip : sq_wf s -> StronglySorted (fun a b => r_id a < r_id b) (rows_of s ip).
Proof. intros [Hi _ _]. apply SS_filter. by apply SS_fmap. Qed.

Lemma current_row_last s ip : sq_wf s -> current_row s ip = last (rows_of s ip).
Proof.
  intros Hwf. apply max_by_sorted.
  pose proof (wf_hist s Hwf ip) as Hh. unfold sq_hist in Hh. apply (SS_fmap older r_entry) in Hh.
  eapply SS_impl; [|exact (SS_and _ _ _ Hh (rows_of_ids s ip Hwf))].
  intros a b [[Hc _] Hid]. unfold row_leb.
  destruct (Z.ltb_spec (CreatedAt (r_entry a)) (CreatedAt (r_entry b))); [done|].
  cbn. apply andb_true_iff. split; [apply Z.eqb_eq|apply Z.leb_le]; lia.
Qed.

Lemma rows_NoDup s : sq_wf s -> forall r r', r ∈ rows s -> r' ∈ rows s -> r_id r = r_id r' -> r = r'.
Proof.
  intros [Hi _ _] r r' Hr Hr' E. revert r r' Hr Hr' E.
  induction (rows s) as [|x l IH]; [set_solver|].
  inversion Hi as [|? ? Hs Hx]; subst. rewrite Forall_fmap, Forall_forall in Hx.
  intros r r' [-> | Hr]%elem_of_cons [-> | Hr']%elem_of_cons E; [done| | |by apply IH].
  - specialize (Hx _ Hr'). cbn in Hx. lia.
  - specialize (Hx _ Hr). cbn in Hx. lia.
Qed.

(** Updating a row that keeps its id and its IP. *)
Section update.
Context (s : BanLifecycleStore) (Hwf : sq_wf s) (ip : string).
Context (l : list row) (r0 : row) (Hrows : rows_of s ip = l ++ [r0]).
Context (f : row -> row) (Hfid : forall r, r_id (f r) = r_id r) (Hfip : r_ip (f r0) = ip).

Definition updated : BanLifecycleStore :=
  {| readOnly := readOnly s; rows := update_rows (r_id r0) f (rows s); next_id := next_id s |}.

Lemma r0_in : r0 ∈ rows s /\ r_ip r0 = ip.
Proof.
  assert (r0 ∈ rows_of s ip) as H by (rewrite Hrows; set_solver).
  apply list_elem_of_filter in H. tauto.
Qed.

Lemma update_filter ip' :
  rows_of updated ip' = (fun r => if r_id r =? r_id r0 then f r else r) <$> rows_of s ip'.
Proof.
  destruct r0_in as [Hin0 Hip0]. unfold rows_of, updated, update_rows. cbn [rows].
  assert (forall r, r ∈ rows s ->
            r_ip (if r_id r =? r_id r0 then f r else r) = r_ip r) as Hg.
  { intros r Hr. case (Z.eqb_spec (r_id r) (r_id r0)); [|done]. intros E.
    rewrite (rows_NoDup s Hwf r r0) by done. by rewrite Hfip, Hip0. }
  revert Hg. generalize (rows s). intros L Hg. induction L as [|r L IH]; [done|].
  rewrite fmap_cons, !filter_cons. rewrite (Hg r) by set_solver.
  rewrite IH by set_solver. by case_decide.
Qed.

Lemma updated_self : rows_of updated ip = l ++ [f r0].
Proof.
  rewrite update_filter, Hrows, fmap_app. cbn. rewrite Z.eqb_refl. f_equal.
  apply fmap_id_on. intros r Hr.
  pose proof (rows_of_ids s ip Hwf) as Hs. rewrite Hrows in Hs.
  apply StronglySorted_app in Hs as (Hlt & _ & _).
  specialize (Hlt r r0 Hr). rewrite list_elem_of_singleton in Hlt.
  specialize (Hlt eq_refl). case (Z.eqb_spec (r_id r) (r_id r0)); [lia|done].
Qed.

Lemma updated_other ip' : ip' <> ip -> rows_of updated ip' = rows_of s ip'.
Proof.
  intros Hne. rewrite update_filter. apply fmap_id_on. intros r Hr.
  apply list_elem_of_filter in Hr as [Hrip Hr].
  case (Z.eqb_spec (r_id r) (r_id r0)); [|done]. intros E. destruct r0_in.
  rewrite (rows_NoDup s Hwf r r0) in Hrip by done. congruence.
Qed.

Lemma updated_wf :
  StronglySorted older (r_entry <$> (l ++ [f r0])) -> sq_wf updated.
Proof.
  intros Hs.
  assert (r_id <$> rows updated = r_id <$> rows s) as Hids.
  { unfold updated, update_rows; cbn [rows]. rewrite <- list_fmap_compose.
    apply list_fmap_ext. intros i r _. cbn. by case (r_id r =? r_id r0). }
  constructor; rewrite ?Hids; [exact (wf_ids s Hwf)|exact (wf_next s Hwf)|].
  intros ip'. unfold sq_hist. destruct (decide (ip' = ip)) as [->|Hne].
  - by rewrite updated_self.
  - rewrite updated_other by done. apply wf_hist, Hwf.
Qed.
End update.

Lemma wf_active_unique s : (forall ip, StronglySorted older (sq_hist s ip)) -> active_unique (rows s) = true.
Proof.
  unfold sq_hist, rows_of, active_unique. rewrite bool_decide_eq_true.
  induction (rows s) as [|x L IH]; intros Hs; [constructor|].
  assert (forall ip, StronglySorted older (r_entry <$> filter (fun r => r_ip r = ip) L)) as HL.
  { intros ip. specialize (Hs ip). rewrite filter_cons in Hs. case_decide; [|done].
    by inversion Hs. }
  cbn. destruct (is_active_row x) eqn:Ex; [|by apply IH]. cbn. constructor; [|by apply IH].
  intros (y & Hy & Hin)%list_elem_of_fmap. apply list_elem_of_In, List.filter_In in Hin as [Hin Ey].
  specialize (Hs (r_ip x)). rewrite filter_cons, decide_True in Hs by done.
  inversion Hs as [|? ? _ Hx]; subst. rewrite Forall_fmap, Forall_forall in Hx.
  destruct (Hx y) as [_ Hf]; [|unfold is_active_row in *; congruence].
  apply list_elem_of_filter. split; [done|]. by apply list_elem_of_In.
Qed.

(** Writes to the current row: the statement succeeds, and its effect on the
    histories. *)
Lemma exec_update_current s op ip l r0 f :
  sq_wf s -> rows_of s ip = l ++ [r0] ->
  (forall r, r_id (f r) = r_id r) -> r_ip (f r0) = ip ->
  StronglySorted older (r_entry <$> (l ++ [f r0])) ->
  exists s', exec_update op (r_id r0) f s = Ok s' /\ sq_wf s' /\ readOnly s' = readOnly s /\
    sq_hist s' ip = (r_entry <$> l) ++ [r_entry (f r0)] /\
    forall ip', ip' <> ip -> sq_hist s' ip' = sq_hist s ip'.
Proof.
  intros Hwf Hrows Hid Hip Hs. exists (updated s r0 f).
  pose proof (updated_wf s Hwf ip l r0 Hrows f Hid Hip Hs) as Hwf'.
  unfold exec_update.
  change (update_rows (r_id r0) f (rows s)) with (rows (updated s r0 f)).
  rewrite wf_active_unique by (apply wf_hist, Hwf').
  split_and!; [done..| |].
  - unfold sq_hist. by rewrite (updated_self s Hwf ip l r0), fmap_app.
  - intros ip' Hne. unfold sq_hist. by rewrite (updated_other s Hwf ip l r0).
Qed.

Lemma older_snoc_weaken l e e' :
  StronglySorted older (l ++ [e]) -> CreatedAt e <= CreatedAt e' ->
  StronglySorted older (l ++ [e']).
Proof.
  intros Hs He. apply StronglySorted_app in Hs as (H1 & H2 & _).
  apply StronglySorted_app. split_and!; [|done|repeat constructor].
  intros a b Ha ->%list_elem_of_singleton. specialize (H1 a e Ha).
  rewrite list_elem_of_singleton in H1. destruct (H1 eq_refl). split; [lia|done].
Qed.

Lemma rows_of_case s ip :
  (rows_of s ip = [] /\ sq_hist s ip = []) \/
  (exists l r0, rows_of s ip = l ++ [r0] /\ sq_hist s ip = (r_entry <$> l) ++ [r_entry r0] /\ r_ip r0 = ip).
Proof.
  unfold sq_hist. destruct (rows_of s ip) as [|r0 l _] eqn:E using rev_ind; [auto|].
  right. exists l, r0. rewrite fmap_app. split_and!; [done..|].
  assert (r0 ∈ rows_of s ip) as H by (rewrite E; set_solver).
  by apply list_elem_of_filter in H as [? _].
Qed.

(** The shape shared by [MarkStatus] and [RecordCleanupFailure]. *)
Lemma write_current_total s op ip (g : row -> row) (h : Entry -> Entry) :
  sq_wf s -> readOnly s = false ->
  (forall r, r_id (g r) = r_id r) -> (forall r, r_entry (g r) = h (r_entry r)) ->
  (forall e, IP (h e) = IP e) -> (forall e, CreatedAt (h e) = CreatedAt e) ->
  exists s',
    rbind (ensureWritable op (readOnly s))
          (fun _ => match current_row s ip with
                    | None => Ok s
                    | Some r0 => exec_update op (r_id r0) g s
                    end) = Ok s' /\
    sq_wf s' /\ readOnly s' = false /\ sq_hist s' ip = update_last h (sq_hist s ip) /\
    forall ip', ip' <> ip -> sq_hist s' ip' = sq_hist s ip'.
Proof.
  intros Hwf Hro Hgid Hge Hip Hcr. unfold ensureWritable. rewrite Hro. cbn [rbind].
  rewrite current_row_last by done.
  destruct (rows_of_case s ip) as [[Er Eh]|(l & r0 & Er & Eh & Hr0)].
  - rewrite Er, Eh. exists s. by rewrite Hro.
  - rewrite Er, last_snoc.
    pose proof (wf_hist s Hwf ip) as Hs. rewrite Eh in Hs.
    destruct (exec_update_current s op ip l r0 g) as (s' & E & Hwf' & Hro' & Hh & Ho); try done.
    + unfold r_ip. by rewrite Hge, Hip.
    + rewrite fmap_app. cbn. eapply older_snoc_weaken; [exact Hs|]. rewrite Hge, Hcr. lia.
    + exists s'. rewrite Hro', Hh, Eh, update_last_snoc, Hge. eauto 10.
Qed.

Lemma find_active_last s ip l r0 :
  sq_wf s -> rows_of s ip = l ++ [r0] ->
  List.find is_active_row (rows_of s ip) = if is_active_row r0 then Some r0 else None.
Proof.
  intros Hwf Er. rewrite Er. pose proof (wf_hist s Hwf ip) as Hs.
  unfold sq_hist in Hs. rewrite Er, fmap_app in Hs.
  apply StronglySorted_app in Hs as (Hl & _ & _). clear Er.
  induction l as [|x l IH]; cbn; [done|].
  destruct (Hl (r_entry x) (r_entry r0)) as [_ Hx]; [set_solver..|].
  unfold is_active_row in *. rewrite Hx. apply IH. set_solver.
Qed.

Lemma exec_insert_total s op e now :
  sq_wf s -> StronglySorted older (sq_hist s (IP e) ++ [set_bookkeeping 0 "" 0 e]) ->
  exists s', exec_insert op e now s = Ok s' /\ sq_wf s' /\ readOnly s' = readOnly s /\
    sq_hist s' (IP e) = sq_hist s (IP e) ++ [set_bookkeeping 0 "" 0 e] /\
    forall ip', ip' <> IP e -> sq_hist s' ip' = sq_hist s ip'.
Proof.
  intros Hwf Hs.
  set (r := {| r_id := next_id s; r_entry := set_bookkeeping 0 "" 0 e;
               r_note := ""; r_updated := sql_now now |}).
  set (s' := {| readOnly := readOnly s; rows := rows s ++ [r]; next_id := next_id s + 1 |}).
  assert (forall ip', sq_hist s' ip' =
            if decide (IP e = ip') then sq_hist s ip' ++ [set_bookkeeping 0 "" 0 e] else sq_hist s ip')
    as Hh.
  { intros ip'. unfold sq_hist, rows_of. subst s'. cbn [rows]. rewrite filter_app_snoc.
    unfold r_ip at 2. cbn. case_decide; [by rewrite fmap_app|]. by rewrite app_nil_r. }
  assert (sq_wf s') as Hwf'.
  { constructor; subst s'; cbn [rows next_id]; rewrite ?fmap_app.
    - apply StronglySorted_app. split_and!; [|apply Hwf|repeat constructor].
      intros a b Ha ->%list_elem_of_singleton. cbn.
      pose proof (wf_next s Hwf) as Hn. rewrite Forall_forall in Hn. auto.
    - apply Forall_app. split; [|repeat constructor; cbn; lia].
      eapply Forall_impl; [apply (wf_next s Hwf)|]. cbn. lia.
    - intros ip'. rewrite Hh. case_decide; [by subst|]. apply wf_hist, Hwf. }
  exists s'. unfold exec_insert. fold r.
  change (rows s ++ [r]) with (rows s').
  rewrite wf_active_unique by (apply wf_hist, Hwf').
  split_and!; [done..| |].
  - by rewrite Hh, decide_True.
  - intros ip' Hne. by rewrite Hh, decide_False.
Qed.

Lemma sq_upsert_total s now e :
  sq_wf s -> readOnly s = false -> upsertable e (sq_hist s (IP e)) ->
  exists s', sq_upsert now e s = Ok s' /\ sq_wf s' /\ readOnly s' = false /\
    sq_hist s' (IP e) ≡ upsert_hist e (sq_hist s (IP e)) /\
    forall ip', ip' <> IP e -> sq_hist s' ip' = sq_hist s ip'.
Proof.
  intros Hwf Hro (Hst & Hcr & Hall). unfold sq_upsert, ensureWritable. rewrite Hro. cbn [rbind].
  rewrite bool_decide_false by (rewrite Hst; done). unfold is_zero_time.
  replace (CreatedAt e =? 0) with false by lia.
  destruct (rows_of_case s (IP e)) as [[Er Eh]|(l & r0 & Er & Eh & Hr0)].
  - rewrite Er. cbn [List.find].
    destruct (exec_insert_total s "storage.sqlite.BanLifecycleStore.Upsert" e now)
      as (s' & E & Hwf' & Hro' & Hh & Ho); [done|rewrite Eh; repeat constructor|].
    exists s'. rewrite Hh, Eh, Hro'. split_and!; try done.
    cbn. by rewrite set_bookkeeping_equiv.
  - rewrite (find_active_last s _ l r0) by done.
    unfold upsert_hist. rewrite Eh, last_snoc.
    pose proof (wf_hist s Hwf (IP e)) as Hs. rewrite Eh in Hs.
    rewrite Eh, Forall_app in Hall. destruct Hall as [Hl Hr].
    rewrite Forall_singleton in Hr. unfold is_active_row.
    destruct (is_active (r_entry r0)) eqn:Ea.
    + edestruct (exec_update_current s "storage.sqlite.BanLifecycleStore.Upsert" (IP e) l r0)
        as (s' & E & Hwf' & Hro' & Hh & Ho); [done|done| | | |exists s'; split; [exact E|]].
      * done.
      * done.
      * rewrite fmap_app. cbn. eapply older_snoc_weaken; [exact Hs|]. exact Hr.
      * rewrite Hh, Hro', update_last_snoc. split_and!; try done.
        cbn [r_entry]. by rewrite set_bookkeeping_equiv.
    + destruct (exec_insert_total s "storage.sqlite.BanLifecycleStore.Upsert" e now)
        as (s' & E & Hwf' & Hro' & Hh & Ho); [done| |].
      * rewrite Eh. apply StronglySorted_app. split_and!; [|done|repeat constructor].
        intros a b Ha ->%list_elem_of_singleton.
        apply StronglySorted_app in Hs as (H1 & _ & _).
        apply elem_of_app in Ha as [Ha | ->%list_elem_of_singleton]; [|split; [exact Hr|exact Ea]].
        destruct (H1 a (r_entry r0) Ha) as [? ?]; [set_solver|].
        rewrite Forall_forall in Hl. split; [|done]. cbn. by apply Hl.
      * exists s'. rewrite Hh, Eh, Hro'. split_and!; try done.
        by rewrite set_bookkeeping_equiv.
Qed.

(** A row is the current row of its IP exactly when it is active. *)
Lemma active_row_current s r :
  sq_wf s -> r ∈ rows s -> is_active_row r = true -> last (rows_of s (r_ip r)) = Some r.
Proof.
  intros Hwf Hin Ha.
  assert (r ∈ rows_of s (r_ip r)) as Hr by (by apply list_elem_of_filter).
  destruct (rows_of_case s (r_ip r)) as [[Er _]|(l & r0 & Er & Eh & _)];
    rewrite Er in *; [set_solver|].
  rewrite last_snoc. apply elem_of_app in Hr as [Hr|Hr]; [|set_solver].
  pose proof (wf_hist s Hwf (r_ip r)) as Hs. rewrite Eh in Hs.
  apply StronglySorted_app in Hs as (H1 & _ & _).
  destruct (H1 (r_entry r) (r_entry r0)) as [_ Hf]; [set_solver..|].
  unfold is_active_row in Ha. congruence.
Qed.

Lemma where_spec s (lt : row -> row -> bool) (t : row -> bool) e :
  sq_wf s ->
  e ∈ r_entry <$> isort lt (List.filter (fun r => is_active_row r && t r) (rows s)) <->
  exists r, last (rows_of s (IP e)) = Some r /\ r_entry r = e /\ is_active e = true /\ t r = true.
Proof.
  intros Hwf. rewrite list_elem_of_fmap. setoid_rewrite elem_of_isort.
  setoid_rewrite list_elem_of_In. setoid_rewrite List.filter_In.
  setoid_rewrite andb_true_iff. setoid_rewrite <- list_elem_of_In. split.
  - intros (r & -> & Hin & Ha & Ht). exists r.
    pose proof (active_row_current s r Hwf Hin Ha). eauto.
  - intros (r & Hl & <- & Ha & Ht). exists r. apply last_Some_elem_of, list_elem_of_filter in Hl.
    tauto.
Qed.

Lemma where_NoDup s (lt : row -> row -> bool) (t : row -> bool) :
  sq_wf s ->
  NoDup (IP <$> (r_entry <$> isort lt (List.filter (fun r => is_active_row r && t r) (rows s)))).
Proof.
  intros Hwf. rewrite isort_perm, <- list_fmap_compose. change (IP ∘ r_entry) with r_ip.
  pose proof (wf_active_unique s (wf_hist s Hwf)) as Hu.
  unfold active_unique in Hu. rewrite bool_decide_eq_true in Hu.
  eapply sublist_NoDup; [exact Hu|]. apply fmap_sublist.
  clear Hu. induction (rows s) as [|x L IH]; cbn; [constructor|].
  destruct (is_active_row x), (t x); cbn; eauto using sublist_skip, sublist_cons.
Qed.

Lemma filter_and_true {A} (p : A -> bool) l :
  List.filter p l = List.filter (fun x => p x && true) l.
Proof. apply List.filter_ext. intros a. by rewrite andb_true_r. Qed.

Lemma last_sq_hist s ip : last (sq_hist s ip) = r_entry <$> last (rows_of s ip).
Proof. apply fmap_last. Qed.

#[global] Program Instance sqlite_store : BanStore BanLifecycleStore := {|
  bs_wf := sq_wf; hist := sq_hist;
|}.
Next Obligation.
  intros s ip e _ (r & -> & [<- _]%list_elem_of_filter)%list_elem_of_fmap. done.
Qed.
Next Obligation.
  intros s ip Hwf. cbn. unfold sq_get. by rewrite current_row_last, last_sq_hist.
Qed.
Next Obligation.
  intros s Hwf. eexists. split; [done|]. rewrite filter_and_true.
  split; [by apply where_NoDup|]. intros e. rewrite where_spec by done.
  rewrite last_sq_hist, fmap_Some, <- MemStore.is_active_iff. naive_solver.
Qed.
Next Obligation.
  intros s now Hwf. eexists. split; [done|].
  split; [by apply where_NoDup|]. intros e. rewrite where_spec by done.
  rewrite last_sq_hist, fmap_Some, <- MemStore.is_active_iff.
  setoid_rewrite Z.leb_le. naive_solver.
Qed.
Next Obligation.
  intros s now ip st note s' Hwf H. cbn in H. unfold sq_mark in H.
  assert (readOnly s = false) as Hro by (by destruct (readOnly s)).

  edestruct (write_current_total s "storage.sqlite.BanLifecycleStore.MarkStatus" ip)
    as (s1 & E & ? & _ & ? & ?); [done|done|..|rewrite E in H; simplify_eq; eauto]; done.
Qed.
Next Obligation.
  intros s now ip msg s' Hwf H. cbn in H. unfold sq_fail in H.
  assert (readOnly s = false) as Hro by (by destruct (readOnly s)).

  edestruct (write_current_total s "storage.sqlite.BanLifecycleStore.RecordCleanupFailure" ip)
    with (h := fun e => set_bookkeeping (CleanupAttempts e + 1) msg (sql_now now) e)
    as (s1 & E & ? & _ & ? & ?); [done|done|..|rewrite E in H; simplify_eq; eauto]; done.
Qed.
Next Obligation.
  intros s now e s' Hwf Hup H. cbn in H.
  destruct (readOnly s) eqn:Hro;
    [by unfold sq_upsert in H; rewrite Hro in H|].
  destruct (sq_upsert_total s now e Hwf Hro Hup) as (s1 & E & ? & _ & ? & ?).
  rewrite E in H. by simplify_eq.
Qed.
Next Obligation.
  intros s ip Hwf. cbn. unfold sq_recidive, sq_hist. do 2 f_equal.
  induction (rows_of s ip) as [|r l IH]; cbn; [done|].
  unfold is_active_row at 1. destruct (is_active (r_entry r)); cbn; by rewrite IH.
Qed.

End SqliteStore.

(** ** Refinement

    Sequences of writes, run against any store, and the abstract effect on the
    per-IP histories: the SQLite store and the in-memory store both implement
    it, up to the cleanup bookkeeping. *)
Module StoreRefinement.

Inductive Cmd :=
| CUpsert (now : Z) (e : Entry)
| CMark (now : Z) (ip status note : string)
| CFail (now : Z) (ip msg : string).

Definition exec `{BanStoreOps T} (c : Cmd) (s : T) : result T :=
  match c with
  | CUpsert now e => Upsert now e s
  | CMark now ip status note => MarkStatus now ip status note s
  | CFail now ip msg => RecordCleanupFailure now ip msg s
  end.

Fixpoint run `{BanStoreOps T} (cs : list Cmd) (s : T) : result T :=
  match cs with
  | [] => Ok s
  | c :: cs' => rbind (exec c s) (run cs')
  end.

Definition histories := string -> list Entry.
Definition hset (ip : string) (l : list Entry) (h : histories) : histories :=
  fun ip' => if decide (ip' = ip) then l else h ip'.

Definition spec_step (c : Cmd) (h : histories) : histories :=
  match c with
  | CUpsert _ e => hset (IP e) (upsert_hist e (h (IP e))) h
  | CMark _ ip status _ => hset ip (update_last (set_status status) (h ip)) h
  | CFail _ _ _ => h
  end.

Fixpoint spec_run (cs : list Cmd) (h : histories) : histories :=
  match cs with [] => h | c :: cs' => spec_run cs' (spec_step c h) end.

(** Every upsert of the sequence is one the ban-creation path performs. *)
Fixpoint valid (h : histories) (cs : list Cmd) : Prop :=
  match cs with
  | [] => True
  | c :: cs' =>
      match c with CUpsert _ e => upsertable e (h (IP e)) | _ => True end /\
      valid (spec_step c h) cs'
  end.

#[export] Instance valid_dec cs : forall h, Decision (valid h cs).
Proof.
  induction cs as [|c cs IH]; intros h; [apply _|].
  apply and_dec; [destruct c; apply _|apply IH].
Defined.

Lemma upsertable_equiv e h1 h2 : h1 ≡ h2 -> upsertable e h1 -> upsertable e h2.
Proof.
  intros Hh (? & ? & Hall). split_and!; [done..|].
  induction Hh as [|a b h1 h2 Hab Hh IH]; [constructor|].
  inversion Hall; subst. constructor; [by rewrite <- Hab|auto].
Qed.

Lemma hset_equiv ip (l1 l2 : list Entry) (h1 h2 : histories) :
  l1 ≡ l2 -> (forall ip', ip' <> ip -> h1 ip' ≡ h2 ip') -> forall ip', hset ip l1 h1 ip' ≡ hset ip l2 h2 ip'.
Proof. intros Hl Hh ip'. unfold hset. case_decide; auto. Qed.

(** One write of any lawful store follows the abstract step. *)
Lemma exec_hist `{BanStore T} c (s s' : T) (h : histories) :
  bs_wf s -> (forall ip, hist s ip ≡ h ip) ->
  match c with CUpsert _ e => upsertable e (h (IP e)) | _ => True end ->
  exec c s = Ok s' -> bs_wf s' /\ forall ip, hist s' ip ≡ spec_step c h ip.
Proof.
  intros Hwf Hh Hv Hex. destruct c as [now e|now ip st note|now ip msg]; cbn in Hex.
  - destruct (upsert_law s now e s') as (Hwf' & Hu & Ho); [done| |done|].
    { eapply upsertable_equiv; [|exact Hv]. by rewrite Hh. }
    split; [done|]. intros ip. cbn. unfold hset. case_decide; subst.
    + rewrite Hu. by apply upsert_hist_equiv.
    + by rewrite Ho.
  - destruct (mark_law s now ip st note s') as (Hwf' & Hu & Ho); [done..|].
    split; [done|]. intros ip'. cbn. unfold hset. case_decide; subst.
    + rewrite Hu. apply update_last_equiv; [|done]. intros a b Hab. by rewrite Hab.
    + by rewrite Ho.
  - destruct (fail_law s now ip msg s') as (Hwf' & (at_ & Hu) & Ho); [done..|].
    split; [done|]. intros ip'. cbn. destruct (decide (ip' = ip)) as [->|].
    + rewrite Hu, update_last_same; [done|]. intros a. apply set_bookkeeping_equiv.
    + by rewrite Ho.
Qed.

Lemma run_hist `{BanStore T} cs : forall (s s' : T) (h : histories),
  bs_wf s -> (forall ip, hist s ip ≡ h ip) -> valid h cs ->
  run cs s = Ok s' -> bs_wf s' /\ forall ip, hist s' ip ≡ spec_run cs h ip.
Proof.
  induction cs as [|c cs IH]; intros s s' h Hwf Hh Hv Hr; cbn in *; [by simplify_eq|].
  destruct Hv as [Hc Hv]. destruct (exec c s) as [s1|] eqn:E; [|done]. cbn in Hr.
  destruct (exec_hist c s s1 h Hwf Hh Hc E). eauto.
Qed.

Lemma mem_run_total cs : forall s : MemStore.Store, exists s', run cs s = Ok s'.
Proof.
  induction cs as [|c cs IH]; intros s; [eauto|]. cbn.
  destruct (exec c s) as [s1|m] eqn:E; [apply IH|]. exfalso.
  destruct c; cbn in E; unfold MemStore.mem_upsert, MemStore.mem_mark, MemStore.mem_fail in E; go_cases.
Qed.

Lemma sq_run_total cs : forall (s : SqliteStore.BanLifecycleStore) h,
  bs_wf s -> SqliteStore.readOnly s = false -> (forall ip, hist s ip ≡ h ip) -> valid h cs ->
  exists s', run cs s = Ok s'.
Proof.
  induction cs as [|c cs IH]; intros s h Hwf Hro Hh Hv; [eauto|]. destruct Hv as [Hc Hv]. cbn.
  assert (exists s1, exec c s = Ok s1 /\ SqliteStore.readOnly s1 = false) as (s1 & E & Hro1).
  { destruct c as [now e|now ip st note|now ip msg].
    - destruct (SqliteStore.sq_upsert_total s now e) as (s1 & E & _ & ? & _); [done..| |eauto].
      eapply upsertable_equiv; [|exact Hc]. symmetry. apply Hh.
    - edestruct (SqliteStore.write_current_total s "storage.sqlite.BanLifecycleStore.MarkStatus" ip)
        as (s1 & E & _ & ? & _); [done|done|..|exists s1; split; [exact E|done]]; done.
    - edestruct (SqliteStore.write_current_total s
                   "storage.sqlite.BanLifecycleStore.RecordCleanupFailure" ip)
        with (h := fun e => set_bookkeeping (CleanupAttempts e + 1) msg (sql_now now) e)
        as (s1 & E & _ & ? & _); [done|done|..|exists s1; split; [exact E|done]]; done. }
  rewrite E. destruct (exec_hist c s s1 h Hwf Hh Hc E). eauto.
Qed.

(** The IPs a store reports are determined by its histories. *)
Lemma reported_ips `{BanStore T1, BanStore T2} (t : Entry -> Prop) (s1 : T1) (s2 : T2) l1 l2 :
  (forall a b, a ≡ b -> t a -> t b) ->
  (forall ip, hist s1 ip ≡ hist s2 ip) ->
  NoDup (IP <$> l1) -> NoDup (IP <$> l2) ->
  (forall e, e ∈ l1 <-> last (hist s1 (IP e)) = Some e /\ t e) ->
  (forall e, e ∈ l2 <-> last (hist s2 (IP e)) = Some e /\ t e) ->
  IP <$> l1 ≡ₚ IP <$> l2.
Proof.
  intros Ht Hh Hn1 Hn2 Hr1 Hr2. apply NoDup_Permutation; [done..|]. intros ip.
  rewrite !list_elem_of_fmap.
  split; intros (e & -> & Hin); [apply Hr1 in Hin|apply Hr2 in Hin]; destruct Hin as [Hl He];
    pose proof (last_equiv _ _ (Hh (IP e))) as Heq; rewrite Hl in Heq;
    inversion Heq as [x y Hxy Ex Ey|]; subst.
  - exists y. assert (IP y = IP e) as HIP by (by rewrite Hxy).
    split; [done|]. apply Hr2. rewrite HIP. eauto.
  - exists x. assert (IP x = IP e) as HIP by (by rewrite Hxy).
    split; [done|]. apply Hr1. rewrite HIP. split; [done|]. by eapply Ht.
Qed.

Definition no_history : histories := fun _ => [].

Lemma runs_agree cs :
  valid no_history cs ->
  exists d m, run cs SqliteStore.NewBanLifecycleStore = Ok d /\ run cs MemStore.New = Ok m /\
    bs_wf d /\ bs_wf m /\ forall ip, hist d ip ≡ hist m ip.
Proof.
  intros Hv.
  assert (bs_wf SqliteStore.NewBanLifecycleStore) as Hwd
    by (constructor; cbn; repeat constructor; intros; constructor).
  assert (bs_wf MemStore.New) as Hwm by (intros ip e He; cbn in He; set_solver).
  destruct (mem_run_total cs MemStore.New) as [m Hm].
  destruct (sq_run_total cs SqliteStore.NewBanLifecycleStore no_history) as [d Hd]; [done..|].
  destruct (run_hist cs _ _ no_history Hwd (fun _ => reflexivity _) Hv Hd) as [? Hhd].
  destruct (run_hist cs _ _ no_history Hwm (fun _ => reflexivity _) Hv Hm) as [? Hhm].
  exists d, m. split_and!; [done..|]. intros ip. by rewrite Hhd, Hhm.
Qed.

(** C2: starting from empty stores, the SQLite store and the in-memory store
    accept the same sequences of writes of the ban lifecycle and then answer
    every query alike: the same current entry per IP (up to the cleanup
    bookkeeping), the same recidive level, the same IPs active and the same
    IPs expired at any instant. *)
Theorem sqlite_refines_memstore (cs : list Cmd) (Hv : valid no_history cs) :
  exists d m, run cs SqliteStore.NewBanLifecycleStore = Ok d /\ run cs MemStore.New = Ok m /\
    (forall ip, exists a b, Get ip d = Ok a /\ Get ip m = Ok b /\ a ≡ b) /\
    (forall ip, RecidiveLevelOf ip d = RecidiveLevelOf ip m) /\
    (exists a b, Active d = Ok a /\ Active m = Ok b /\ IP <$> a ≡ₚ IP <$> b) /\
    (forall now, exists a b, Expired now d = Ok a /\ Expired now m = Ok b /\ IP <$> a ≡ₚ IP <$> b).
Proof.
  destruct (runs_agree cs Hv) as (d & m & Hd & Hm & Hwd & Hwm & Hh).
  exists d, m. split_and!; [done..| | | |].
  - intros ip. exists (last (hist d ip)), (last (hist m ip)).
    rewrite !get_law by done. split_and!; [done..|]. by rewrite Hh.
  - intros ip. rewrite !recidive_law by done. by rewrite (count_inactive_equiv _ _ (Hh ip)).
  - destruct (active_law d Hwd) as (a & -> & Hna & Ha), (active_law m Hwm) as (b & -> & Hnb & Hb).
    exists a, b. split_and!; [done..|].
    apply (reported_ips (fun e => Status e = StatusActive) d m); try done.
    intros x y Hxy. by rewrite Hxy.
  - intros now. destruct (expired_law d now Hwd) as (a & -> & Hna & Ha).
    destruct (expired_law m now Hwm) as (b & -> & Hnb & Hb).
    exists a, b. split_and!; [done..|].
    apply (reported_ips (fun e => Status e = StatusActive /\ ExpiresAt e <= now) d m); try done.
    intros x y Hxy. by rewrite Hxy.
Qed.

Definition sample_entry (ip : string) (t : Z) : Entry :=
  {| IP := ip; Source := "autoban"; Reason := "confidence"; Confidence := 95;
     CreatedAt := t; ExpiresAt := t + hour; Duration := hour; RuleID := "r1";
     EvidenceID := ""; RecidiveLevel := 1; Status := StatusActive;
     CleanupAttempts := 0; LastCleanupError := ""; LastCleanupAttemptAt := 0 |}.

Definition sample_cmds : list Cmd :=
  [CUpsert hour (sample_entry "203.0.113.7" hour);
   CFail (3 * hour) "203.0.113.7" "cloudflare: 500";
   CMark (4 * hour) "203.0.113.7" StatusExpiredCleaned "expired";
   CUpsert (5 * hour) (sample_entry "203.0.113.7" (5 * hour))].

Theorem sqlite_refines_memstore_witness :
  exists d m, run sample_cmds SqliteStore.NewBanLifecycleStore = Ok d /\
    run sample_cmds MemStore.New = Ok m /\ RecidiveLevelOf "203.0.113.7" d = RecidiveLevelOf "203.0.113.7" m.
Proof.
  destruct (sqlite_refines_memstore sample_cmds) as (d & m & Hd & Hm & _ & Hr & _).
  - by apply (bool_decide_unpack _).
  - exists d, m. split; [exact Hd|]. split; [exact Hm|apply Hr].
Defined.

(** The cleanup attempts on record for an IP after a run. *)
Definition attempts_after `{BanStoreOps T} (cs : list Cmd) (s : T) (ip : string) : result (option Z) :=
  rbind (run cs s) (fun s' => rbind (Get ip s') (fun e => Ok (CleanupAttempts <$> e))).

(** the stores differ on one point. Re-banning an IP whose ban is still
    active keeps the recorded cleanup failures in the SQLite store and forgets
    them in the in-memory store. *)
Theorem upsert_bookkeeping_diverges :
  let cs := [CUpsert hour (sample_entry "203.0.113.7" hour);
             CFail (3 * hour) "203.0.113.7" "cloudflare: 500";
             CUpsert (5 * hour) (sample_entry "203.0.113.7" (5 * hour))] in
  attempts_after cs SqliteStore.NewBanLifecycleStore "203.0.113.7" = Ok (Some 1) /\
  attempts_after cs MemStore.New "203.0.113.7" = Ok (Some 0).
Proof. by vm_compute. Qed.

End StoreRefinement.
