(* ===== verification/Cleanup.v ===== *)
(** * Ban cleanup worker ([internal/cloudflare/banlifecycle/cleanup])

    The worker that removes Cloudflare access rules of expired bans, and the
    operator actions that lift bans early.  It is written against the [Store]
    interface and against a Cloudflare client, here two classes; the theorems
    use only the laws of the store.  Beside the interfaces' own states the
    world carries the trace of the requests sent to Cloudflare. *)

From S2P Require Import Prelude GoFmt BanLifecycle BanStores.
Import BanLifecycle.

Local Open Scope Z_scope.

Module Cleanup.

Definition AutobanNotePrefix : string := "cf-sync:autoban:".

Record CFRule := { rule_ID : string; rule_Notes : string; rule_IP : string }.

(** The Cloudflare client: each request may change the client's own state and
    may fail. *)
Class CFClient (C : Type) := {
  ListAutobanRules : string -> C -> C * result (list CFRule);
  DeleteIPAccessRule : string -> string -> C -> C * result unit;
}.

(** [RecordDeban] and [RecordDebanEvidence]. *)
Class DebanSink (A : Type) := record_deban : Entry -> string -> A -> A * result unit.

Inductive Request :=
| ReqList (answer : result (list CFRule))
| ReqDelete (ruleID : string) (answer : result unit).

Fixpoint matchRuleByNote (rules : list CFRule) (ip : string) : string :=
  match rules with
  | [] => ""
  | r :: rules' =>
      if negb (bool_decide (rule_IP r = ip)) then matchRuleByNote rules' ip
      else if has_prefix AutobanNotePrefix (rule_Notes r) then rule_ID r
      else matchRuleByNote rules' ip
  end.

Definition isNotFound (err : string) : bool :=
  let msg := to_lower err in
  str_contains msg "404" || str_contains msg "not found" || str_contains msg "could not find".

Record ClearResult := {
  Attempted : Z; Deleted : Z; Skipped : Z; Failed : Z; Errors : list string;
}.

(** The error the Cloudflare client returns for a failed deletion: it names the
    rule and wraps the cause. *)
Definition delete_error (ruleID cause : string) : string :=
  "cloudflare.Client.DeleteIPAccessRule " +:+ ruleID +:+ ": " +:+ cause.

Section worker.
Context {T C A V : Type} `{BanStoreOps T} `{CFClient C} `{DebanSink A} `{DebanSink V}.

(** A nil interface is [None]. *)
Record Worker := {
  store : T;
  cf : option C;
  zoneID : string;
  audit : option A;
  evidence : option V;
  trace : list Request;
}.

Definition set_store (w : Worker) (s : T) : Worker :=
  {| store := s; cf := cf w; zoneID := zoneID w; audit := audit w; evidence := evidence w;
     trace := trace w |}.
Definition set_cf (w : Worker) (c : C) (r : Request) : Worker :=
  {| store := store w; cf := Some c; zoneID := zoneID w; audit := audit w; evidence := evidence w;
     trace := trace w ++ [r] |}.
Definition set_sinks (w : Worker) (a : option A) (v : option V) : Worker :=
  {| store := store w; cf := cf w; zoneID := zoneID w; audit := a; evidence := v;
     trace := trace w |}.

(** The closure [loadRules] with its cache [rulesCache]/[rulesCacheLoaded]. *)
Definition loadRules (cache : option (list CFRule)) (w : Worker)
  : Worker * option (list CFRule) * result (list CFRule) :=
  match cache with
  | Some rules => (w, cache, Ok rules)
  | None =>
      match cf w with
      | None => (w, Some [], Ok [])
      | Some c =>
          let '(c', r) := ListAutobanRules (zoneID w) c in
          let w' := set_cf w c' (ReqList r) in
          match r with
          | Err e => (w', None, Err e)
          | Ok rules => (w', Some rules, Ok rules)
          end
      end
  end.

Definition recordCleanupFailure (now : Z) (ip : string) (cleanupErr : string) (w : Worker) : Worker :=
  match RecordCleanupFailure now ip cleanupErr (store w) with
  | Ok s' => set_store w s'
  | Err _ => w
  end.

(** A sink's own failure is only logged. *)
Definition run_sink {X} `{DebanSink X} (e : Entry) (reason : string) (x : option X) : option X :=
  (fun x0 => fst (record_deban e reason x0)) <$> x.

Definition finishCleanup (now : Z) (entry : Entry) (status reason : string) (w : Worker)
  : Worker * result unit :=
  match MarkStatus now (IP entry) status reason (store w) with
  | Err e => (w, Err (wrap_msg "mark status" e))
  | Ok s' =>
      let w1 := set_store w s' in
      let finishedEntry := set_status status entry in
      (set_sinks w1 (run_sink finishedEntry reason (audit w1))
                    (run_sink finishedEntry reason (evidence w1)), Ok tt)
  end.

(** The deletion by rule id, when there is one and a client is configured. *)
Definition delete_rule (ruleID : string) (w : Worker) : Worker * result unit :=
  if bool_decide (ruleID = "") then (w, Ok tt)
  else match cf w with
       | None => (w, Ok tt)
       | Some c =>
           let '(c', r) := DeleteIPAccessRule (zoneID w) ruleID c in
           (set_cf w c' (ReqDelete ruleID r),
            match r with
            | Ok _ => Ok tt
            | Err e => if isNotFound e then Ok tt
                       else Err ("delete rule " +:+ ruleID +:+ ": " +:+ e)
            end)
       end.

(** The rule to delete: the tracked id, or the one found by the note. *)
Definition locate_rule (entry : Entry) (cache : option (list CFRule)) (w : Worker)
  : Worker * option (list CFRule) * result string :=
  if bool_decide (RuleID entry = "") then
    match loadRules cache w with
    | (w1, cache1, Err e) => (w1, cache1, Err (wrap_msg "list autoban rules" e))
    | (w1, cache1, Ok rules) => (w1, cache1, Ok (matchRuleByNote rules (IP entry)))
    end
  else (w, cache, Ok (RuleID entry)).

Definition deleteRuleAndFinish (now : Z) (entry : Entry) (status reason : string)
  (cache : option (list CFRule)) (w : Worker) : Worker * option (list CFRule) * result unit :=
  let '(w1, cache1, found) := locate_rule entry cache w in
  match found with
  | Err e => (recordCleanupFailure now (IP entry) e w1, cache1, Err e)
  | Ok ruleID =>
      match delete_rule ruleID w1 with
      | (w2, Err e) => (recordCleanupFailure now (IP entry) e w2, cache1, Err e)
      | (w2, Ok _) =>
          let '(w3, r) := finishCleanup now entry status reason w2 in (w3, cache1, r)
      end
  end.

Definition cleanupOne (now : Z) (entry : Entry) (cache : option (list CFRule)) (w : Worker)
  : Worker * option (list CFRule) * result unit :=
  let reason := "ban expired at " +:+ GoFmt.format_rfc3339 (ExpiresAt entry) +:+ " (duration=" +:+
                GoFmt.duration_string (Duration entry) +:+ ", recidive_level=" +:+
                GoFmt.fmt_d (RecidiveLevel entry) +:+ ")" in
  deleteRuleAndFinish now entry StatusExpiredCleaned reason cache w.

Fixpoint run_loop (now : Z) (expired : list Entry) (cache : option (list CFRule)) (w : Worker) : Worker :=
  match expired with
  | [] => w
  | entry :: rest =>
      let '(w', cache', _) := cleanupOne now entry cache w in run_loop now rest cache' w'
  end.

Definition Run (now : Z) (w : Worker) : Worker * result unit :=
  match Expired now (store w) with
  | Err e => (w, Err (wrap_msg "banlifecycle/cleanup: Store.Expired" e))
  | Ok expired => (run_loop now expired None w, Ok tt)
  end.

Definition DebanOne (now : Z) (ip reason0 : string) (w : Worker) : Worker * result Entry :=
  match Get ip (store w) with
  | Err e => (w, Err ("get entry for " +:+ ip +:+ ": " +:+ e))
  | Ok None => (w, Err ("no tracked ban lifecycle entry for " +:+ ip))
  | Ok (Some entry) =>
      let reason := if bool_decide (reason0 = "") then "operator-initiated deban" else reason0 in
      match deleteRuleAndFinish now entry StatusOperatorDebanned reason None w with
      | (w', _, Err e) => (w', Err e)
      | (w', _, Ok _) => (w', Ok (set_status StatusOperatorDebanned entry))
      end
  end.

Definition add_failure (n : Z) (msg : string) (r : ClearResult) : ClearResult :=
  {| Attempted := Attempted r; Deleted := Deleted r; Skipped := Skipped r;
     Failed := Failed r + n; Errors := Errors r ++ [msg] |}.
Definition add_deleted (r : ClearResult) : ClearResult :=
  {| Attempted := Attempted r; Deleted := Deleted r + 1; Skipped := Skipped r;
     Failed := Failed r; Errors := Errors r |}.

(** [ctxErr i] is the context's error at the start of the [i]-th iteration;
    the pause between deletions has no effect on the state. *)
Fixpoint clear_loop (now : Z) (ctxErr : nat -> option string) (reason : string) (i : nat)
  (active : list Entry) (w : Worker) (res : ClearResult) : Worker * ClearResult :=
  match active with
  | [] => (w, res)
  | entry :: rest =>
      match ctxErr i with
      | Some e => (w, add_failure (Z.of_nat (length active)) (IP entry +:+ ": " +:+ e) res)
      | None =>
          match DebanOne now (IP entry) reason w with
          | (w', Err e) =>
              clear_loop now ctxErr reason (S i) rest w' (add_failure 1 (IP entry +:+ ": " +:+ e) res)
          | (w', Ok _) => clear_loop now ctxErr reason (S i) rest w' (add_deleted res)
          end
      end
  end.

Definition ClearAll (now : Z) (ctxErr : nat -> option string) (reason0 : string) (w : Worker)
  : Worker * result ClearResult :=
  match Active (store w) with
  | Err e => (w, Err (wrap_msg "banlifecycle/cleanup: Store.Active" e))
  | Ok active =>
      let reason := if bool_decide (reason0 = "") then "operator-initiated bulk clear" else reason0 in
      let '(w', res) := clear_loop now ctxErr reason 0 active w
        {| Attempted := Z.of_nat (length active); Deleted := 0; Skipped := 0; Failed := 0;
           Errors := [] |} in
      (w', Ok res)
  end.

(** ** What one deletion does to the store and to Cloudflare *)
Context `{!BanStore T}.

(** The rule of an entry: the tracked id, or the one that the listed rules have
    for its address with the autoban note; empty when there is none. *)
Definition target (rules : list CFRule) (e : Entry) : string :=
  if bool_decide (RuleID e = "") then matchRuleByNote rules (IP e) else RuleID e.

(** The rule is gone: deleted now, or reported as already gone. *)
Definition gone (a : result unit) : Prop :=
  match a with Ok _ => True | Err x => isNotFound x = true end.

(** The requests before the deletion: an entry without a tracked id needs the
    rules, which are listed for it or were listed earlier in the pass [tr]. *)
Definition listing (tr : list Request) (rules : list CFRule) (e : Entry) (pre : list Request) : Prop :=
  (RuleID e = "" -> ReqList (Ok rules) ∈ tr) /\
  (pre = [] \/ (RuleID e = "" /\ pre = [ReqList (Ok rules)])).

(** The requests that handle one entry, and what came of them. *)
Inductive handled (client : bool) (tr : list Request) (rules : list CFRule) (e : Entry)
  : list Request -> result unit -> Prop :=
| no_client : client = false -> handled client tr rules e [] (Ok tt)
| list_failed x : RuleID e = "" ->
    handled client tr rules e [ReqList (Err x)] (Err (wrap_msg "list autoban rules" x))
| no_rule pre : listing tr rules e pre -> target rules e = "" -> handled client tr rules e pre (Ok tt)
| rule_gone pre a : listing tr rules e pre -> target rules e <> "" -> gone a ->
    handled client tr rules e (pre ++ [ReqDelete (target rules e) a]) (Ok tt)
| delete_failed pre x : listing tr rules e pre -> target rules e <> "" -> isNotFound x = false ->
    handled client tr rules e (pre ++ [ReqDelete (target rules e) (Err x)])
      (Err ("delete rule " +:+ target rules e +:+ ": " +:+ x)).

(** What the store then holds of the entry: the new status, or one more failed
    attempt with its error; the entry as it was only where the store refused
    that write. *)
Definition settled (now : Z) (st : string) (e : Entry) (h : result unit) (cur : option Entry) : Prop :=
  match h with
  | Ok _ => cur = Some (set_status st e) \/
            (cur = Some e /\ exists reason s x, bs_wf s /\ MarkStatus now (IP e) st reason s = Err x)
  | Err m => (exists at_, cur = Some (set_bookkeeping (CleanupAttempts e + 1) m at_ e)) \/
             (cur = Some e /\ exists s x, bs_wf s /\ RecordCleanupFailure now (IP e) m s = Err x)
  end.

Definition is_list_ok (r : Request) : bool :=
  match r with ReqList (Ok _) => true | _ => false end.
Definition lists (tr : list Request) : nat := length (List.filter is_list_ok tr).

(** The cache holds a list Cloudflare returned during the pass, fetched once;
    without a client it is empty. *)
Definition cache_ok (cache : option (list CFRule)) (w : Worker) : Prop :=
  match cache with
  | None => lists (trace w) = 0%nat
  | Some rules => (cf w = None \/ ReqList (Ok rules) ∈ trace w) /\ (lists (trace w) <= 1)%nat
  end.

Lemma lists_app tr1 tr2 : lists (tr1 ++ tr2) = (lists tr1 + lists tr2)%nat.
Proof. unfold lists. by rewrite List.filter_app, length_app. Qed.

Definition has_client (w : Worker) : bool := bool_decide (is_Some (cf w)).

Lemma handled_mono client tr tr' rules e seg h : tr ⊆ tr' ->
  handled client tr rules e seg h -> handled client tr' rules e seg h.
Proof.
  intros Hs. assert (Hl : forall pre, listing tr rules e pre -> listing tr' rules e pre)
    by (intros pre [Ha Hb]; split; auto).
  destruct 1; [apply no_client|apply list_failed|apply no_rule|apply rule_gone|apply delete_failed]; auto.
Qed.

Lemma matchRuleByNote_spec rules ip :
  matchRuleByNote rules ip <> "" ->
  exists r, r ∈ rules /\ rule_ID r = matchRuleByNote rules ip /\ rule_IP r = ip /\
            has_prefix AutobanNotePrefix (rule_Notes r) = true.
Proof.
  induction rules as [|r rules IH]; cbn [matchRuleByNote]; [done|].
  assert (matchRuleByNote rules ip <> "" ->
    exists r', r' ∈ r :: rules /\ rule_ID r' = matchRuleByNote rules ip /\ rule_IP r' = ip /\
               has_prefix AutobanNotePrefix (rule_Notes r') = true) as Htail.
  { intros Hne. destruct (IH Hne) as (r' & ? & ?). exists r'. split; [by right|done]. }
  case_bool_decide; cbn [negb]; [|done].
  destruct (has_prefix _ _) eqn:E; [|done]. intros _. exists r. split; [by left|done].
Qed.

(** The store after a failure was recorded for the current entry. *)
Lemma recordCleanupFailure_spec now st e m w :
  bs_wf (store w) -> last (hist (store w) (IP e)) = Some e ->
  let w' := recordCleanupFailure now (IP e) m w in
  bs_wf (store w') /\ trace w' = trace w /\ cf w' = cf w /\
  (forall ip', ip' <> IP e -> hist (store w') ip' = hist (store w) ip') /\
  settled now st e (Err m) (last (hist (store w') (IP e))).
Proof.
  intros Hwf Hl. unfold recordCleanupFailure.
  destruct (RecordCleanupFailure now (IP e) m (store w)) as [s'|] eqn:E; cbn;
    [|split_and!; try done; right; split; [done|by eauto]].
  destruct (fail_law _ _ _ _ _ Hwf E) as (? & (at_ & Hh) & Ho). split_and!; auto.
  left. exists at_. by rewrite Hh, last_update_last, Hl.
Qed.

Lemma finishCleanup_spec now e st reason w w' r :
  bs_wf (store w) -> last (hist (store w) (IP e)) = Some e ->
  finishCleanup now e st reason w = (w', r) ->
  bs_wf (store w') /\ trace w' = trace w /\ cf w' = cf w /\
  (forall ip', ip' <> IP e -> hist (store w') ip' = hist (store w) ip') /\
  settled now st e (Ok tt) (last (hist (store w') (IP e))) /\
  (is_ok r = true -> last (hist (store w') (IP e)) = Some (set_status st e)).
Proof.
  intros Hwf Hl. unfold finishCleanup.
  destruct (MarkStatus now (IP e) st reason (store w)) as [s'|] eqn:E; intros [= <- <-]; cbn.
  - destruct (mark_law _ _ _ _ _ _ Hwf E) as (? & Hh & Ho).
    assert (last (hist s' (IP e)) = Some (set_status st e)) by (by rewrite Hh, last_update_last, Hl).
    split_and!; auto.
  - split_and!; try done. right. split; [done|]. by eauto.
Qed.

(** What a deletion found and did, before anything is written to the store:
    [rules] is any list that the cache does not contradict. *)
Record deletion (e : Entry) (w w' : Worker) (cache' : option (list CFRule)) (h : result unit) : Prop := {
  d_store : store w' = store w;
  d_client : has_client w' = has_client w;
  d_cache : cache_ok cache' w';
  d_handled : exists seg, trace w' = trace w ++ seg /\
    forall rules, cache' = None \/ cache' = Some rules -> handled (has_client w) (trace w') rules e seg h;
}.

Lemma locate_rule_spec e cache w w1 cache1 found :
  cache_ok cache w -> locate_rule e cache w = (w1, cache1, found) ->
  store w1 = store w /\ has_client w1 = has_client w /\ cache_ok cache1 w1 /\
  exists pre, trace w1 = trace w ++ pre /\ (has_client w = false -> pre = []) /\
  match found with
  | Err m => exists x, RuleID e = "" /\ pre = [ReqList (Err x)] /\ m = wrap_msg "list autoban rules" x
  | Ok id => (RuleID e = "" -> exists rules, cache1 = Some rules) /\
             forall rules, cache1 = None \/ cache1 = Some rules ->
               id = target rules e /\
               (has_client w = false \/ listing (trace w1) rules e pre)
  end.
Proof.
  intros Hc. unfold locate_rule, target, listing, has_client. case_bool_decide as Hid.
  2: { intros [= <- <- <-]. split_and!; try done. exists []. rewrite app_nil_r. split_and!; try done.
       intros rules _. split; [done|]. right. split; [done|by left]. }
  unfold loadRules. destruct cache as [rules|].
  { intros [= <- <- <-]. split_and!; try done. exists []. rewrite app_nil_r. split_and!; [done|done|by eauto|].
    intros rules' [?|[= <-]]; [done|]. split; [done|]. destruct Hc as [[Hn|Hin] _]; [left|right].
    - rewrite Hn. by apply bool_decide_false; intros [].
    - split; [done|by left]. }
  destruct (cf w) as [c|] eqn:Ec.
  2: { intros [= <- <- <-]. split_and!; [done|by rewrite Ec|unfold cache_ok in *; split; [by left|lia]|].
       exists []. rewrite app_nil_r. split_and!; [done|done|by eauto|]. intros rules' [?|[= <-]]; [done|]. split; [done|].
       left. by apply bool_decide_false; intros []. }
  rewrite (bool_decide_true (is_Some (Some c))) by eauto.
  destruct (ListAutobanRules (zoneID w) c) as [c' [rules|x]]; intros [= <- <- <-]; unfold cache_ok in *; cbn [set_cf store trace cf];
    rewrite lists_app, Hc.
  - split_and!; [done|by apply bool_decide_true; eauto|right; set_solver|cbn; lia|].
    exists [ReqList (Ok rules)]. split_and!; [done|done|by eauto|]. intros rules' [?|[= <-]]; [done|]. split; [done|].
    right. split; [intros _; set_solver|by right].
  - split_and!; [done|by apply bool_decide_true; eauto|done|]. exists [ReqList (Err x)]. split_and!; try done. by exists x.
Qed.

Lemma delete_rule_spec id w w2 r : delete_rule id w = (w2, r) ->
  store w2 = store w /\ has_client w2 = has_client w /\ (cf w = None -> cf w2 = None) /\
  ((id = "" /\ trace w2 = trace w /\ r = Ok tt) \/ (has_client w = false /\ trace w2 = trace w /\ r = Ok tt) \/
   (id <> "" /\ has_client w = true /\ exists a, trace w2 = trace w ++ [ReqDelete id a] /\
      (gone a /\ r = Ok tt \/
       exists x, a = Err x /\ isNotFound x = false /\ r = Err ("delete rule " +:+ id +:+ ": " +:+ x)))).
Proof.
  unfold delete_rule, has_client. case_bool_decide as Hid; [by intros [= <- <-]; auto 10|].
  destruct (cf w) as [c|] eqn:Ec.
  2: { intros [= <- <-]. rewrite Ec. split_and!; try done. right. left. split_and!; [by apply bool_decide_false; intros []|done..]. }
  destruct (DeleteIPAccessRule _ _ _) as [c' a]. intros [= <- <-]. cbn [set_cf store trace cf].
  split_and!; try done. right. right. split_and!; [done|done|]. exists a. split; [done|]. unfold gone.
  destruct a as [u|x]; [by left; destruct u|]. destruct (isNotFound x) eqn:E; [by left|right; by eauto].
Qed.

(** Locating and deleting the rule of one entry. *)
Lemma deletion_spec e cache w w1 cache1 found :
  cache_ok cache w -> locate_rule e cache w = (w1, cache1, found) ->
  match found with
  | Err m => deletion e w w1 cache1 (Err m)
  | Ok id => forall w2 r, delete_rule id w1 = (w2, r) -> deletion e w w2 cache1 r
  end.
Proof.
  intros Hc Ef. destruct (locate_rule_spec _ _ _ _ _ _ Hc Ef) as (Hs & Hcl & Hc1 & pre & Htr & Hpre & Hfound).
  destruct found as [id|m].
  2: { destruct Hfound as (x & Hid & -> & ->). split; try done. exists [ReqList (Err x)]. split; [done|].
       intros rules _. by constructor. }
  destruct Hfound as [Hsome Hfound]. intros w2 r Ed.
  destruct (delete_rule_spec _ _ _ _ Ed) as (Hs2 & Hcl2 & Hn2 & Hcase).
  assert (Hc2 : cache_ok cache1 w2).
  { assert (trace w1 ⊆ trace w2 /\ lists (trace w2) = lists (trace w1)) as [Hsub Hl].
    { destruct Hcase as [(_ & -> & _)|[(_ & -> & _)|(_ & _ & a & -> & _)]]; [done|done|].
      rewrite lists_app. cbn. split; [set_solver|lia]. }
    unfold cache_ok in *. rewrite Hl. destruct cache1; [|done]. destruct Hc1 as [[?|?] ?]; auto. }
  split; [congruence|congruence|done|].
  destruct Hcase as [(-> & E2 & ->)|[(Hno & E2 & ->)|(Hne & Hyes & a & E2 & Ha)]].
  - exists pre. split; [by rewrite E2|]. intros rules Hr. destruct (Hfound rules Hr) as [Ht [Hno|Hl]].
    { rewrite (Hpre Hno). by apply no_client. } apply no_rule; [|done]. by rewrite E2.
  - exists pre. split; [by rewrite E2|]. intros rules Hr. rewrite Hcl in Hno. rewrite (Hpre Hno). by apply no_client.
  - exists (pre ++ [ReqDelete id a]). split; [by rewrite E2, Htr, app_assoc|]. intros rules Hr.
    destruct (Hfound rules Hr) as [-> [Hno|[Hl1 Hl2]]]; [congruence|].
    assert (Hl : listing (trace w2) rules e pre).
    { split; [|done]. intros Hid. rewrite E2. apply elem_of_app. left. auto. }
    destruct Ha as [[Hg ->]|(x & -> & Hx & ->)]; by constructor.
Qed.

Record step_effect (now : Z) (st : string) (e : Entry) (w w' : Worker) (cache' : option (list CFRule))
  (r : result unit) : Prop := {
  se_wf : bs_wf (store w');
  se_other : forall ip', ip' <> IP e -> hist (store w') ip' = hist (store w) ip';
  se_ok : is_ok r = true -> last (hist (store w') (IP e)) = Some (set_status st e);
  se_client : has_client w' = has_client w;
  se_cache : cache_ok cache' w';
  se_handled : exists seg h, trace w' = trace w ++ seg /\
    (forall rules, cache' = None \/ cache' = Some rules -> handled (has_client w) (trace w') rules e seg h) /\
    settled now st e h (last (hist (store w') (IP e)));
}.

Lemma deleteRuleAndFinish_spec now e st reason cache w w' cache' r :
  bs_wf (store w) -> last (hist (store w) (IP e)) = Some e -> cache_ok cache w ->
  deleteRuleAndFinish now e st reason cache w = (w', cache', r) ->
  step_effect now st e w w' cache' r.
Proof.
  intros Hwf Hl Hc. unfold deleteRuleAndFinish.
  destruct (locate_rule e cache w) as [[w1 cache1] found] eqn:Ef.
  pose proof (deletion_spec _ _ _ _ _ _ Hc Ef) as Hd.
  assert (Hfail : forall w2 m, deletion e w w2 cache1 (Err m) ->
    step_effect now st e w (recordCleanupFailure now (IP e) m w2) cache1 (Err m)).
  { intros w2 m [Hs Hcl Hc2 (seg & Ht & Hh)].
    destruct (recordCleanupFailure_spec now st e m w2) as (? & Et & Ec & Ho & Hset); [by rewrite Hs..|].
    rewrite Hs in Ho. split; try done; [by unfold has_client in *; rewrite Ec|unfold cache_ok in *; by rewrite Ec, Et|].
    exists seg, (Err m). by rewrite Et. }
  destruct found as [id|m]; [|by intros [= <- <- <-]; apply Hfail].
  destruct (delete_rule id w1) as [w2 [[]|m]] eqn:Ed; specialize (Hd _ _ eq_refl);
    [|by intros [= <- <- <-]; apply Hfail].
  destruct (finishCleanup now e st reason w2) as [w3 r3] eqn:E3. intros [= <- <- <-].
  destruct Hd as [Hs Hcl Hc2 (seg & Ht & Hh)].
  destruct (finishCleanup_spec now e st reason w2 w3 r3) as (? & Et & Ec & Ho & Hset & Hok); [by rewrite Hs..|done|].
  rewrite Hs in Ho. split; try done; [by unfold has_client in *; rewrite Ec|unfold cache_ok in *; by rewrite Ec, Et|].
  exists seg, (Ok tt). by rewrite Et.
Qed.

(** ** A pass *)

(** Cloudflare answers every request (possibly that the rule is gone), and the
    store accepts status changes. *)
Definition reliable : Prop :=
  (forall z c, is_ok (ListAutobanRules z c).2 = true) /\
  (forall z id c, match (DeleteIPAccessRule z id c).2 with
                  | Ok _ => True
                  | Err e => isNotFound e = true
                  end) /\
  (forall now ip st note s, bs_wf s -> is_ok (MarkStatus now ip st note s) = true).

Lemma deleteRuleAndFinish_ok now e st reason cache w w' cache' r :
  reliable -> bs_wf (store w) ->
  deleteRuleAndFinish now e st reason cache w = (w', cache', r) -> r = Ok tt.
Proof.
  intros (Hlist & Hdel & Hmark) Hwf. unfold deleteRuleAndFinish, locate_rule.
  assert (Hload : exists w1 c1 rules, loadRules cache w = (w1, c1, Ok rules) /\ store w1 = store w).
  { unfold loadRules. destruct cache as [rules|]; [eauto|]. destruct (cf w) as [c|]; [|eauto].
    specialize (Hlist (zoneID w) c). destruct (ListAutobanRules _ _) as [c' [rules|]]; [|done]. eauto. }
  destruct Hload as (w1 & c1 & rules & El & Hs1). rewrite El.
  assert (Hd : forall id w0, exists w2, delete_rule id w0 = (w2, Ok tt) /\ store w2 = store w0).
  { intros id w0. unfold delete_rule. case_bool_decide; [eauto|]. destruct (cf w0) as [c|]; [|eauto].
    specialize (Hdel (zoneID w0) id c). destruct (DeleteIPAccessRule _ _ _) as [c' [[]|m]]; cbn in Hdel; [eauto|].
    rewrite Hdel. eauto. }
  assert (Hf : forall w0, store w0 = store w -> exists w3, finishCleanup now e st reason w0 = (w3, Ok tt)).
  { intros w0 E0. unfold finishCleanup. specialize (Hmark now (IP e) st reason (store w) Hwf).
    rewrite E0. destruct (MarkStatus _ _ _ _ _); [eauto|done]. }
  case_bool_decide.
  - destruct (Hd (matchRuleByNote rules (IP e)) w1) as (w2 & -> & Hs2).
    destruct (Hf w2) as (w3 & ->); [congruence|]. by intros [= <- <- <-].
  - destruct (Hd (RuleID e) w) as (w2 & -> & Hs2).
    destruct (Hf w2) as (w3 & ->); [congruence|]. by intros [= <- <- <-].
Qed.

(** What a pass over [es] leaves behind: the requests are those of its entries,
    one entry after the other, all with one list of rules. *)
Record pass_effect (now : Z) (cache : option (list CFRule)) (es : list Entry) (w w' : Worker) : Prop := {
  pe_wf : bs_wf (store w');
  pe_other : forall ip, ip ∉ IP <$> es -> hist (store w') ip = hist (store w) ip;
  pe_reliable : reliable -> forall e, e ∈ es ->
    last (hist (store w') (IP e)) = Some (set_status StatusExpiredCleaned e);
  pe_lists : (lists (trace w') <= 1)%nat;
  pe_handled : exists rules segs, (forall rules', cache = Some rules' -> rules = rules') /\
    trace w' = trace w ++ concat segs /\
    Forall2 (fun e seg => exists h, handled (has_client w) (trace w') rules e seg h /\
       settled now StatusExpiredCleaned e h (last (hist (store w') (IP e)))) es segs;
}.

(** The cache only grows: what it held stays. *)
Lemma cleanupOne_cache now e cache w rules w1 c1 r :
  cache = Some rules -> cleanupOne now e cache w = (w1, c1, r) -> c1 = Some rules.
Proof.
  intros ->. unfold cleanupOne, deleteRuleAndFinish, locate_rule, loadRules.
  case_bool_decide; cbn; destruct (delete_rule _ w) as [w2 [[]|m]];
    try destruct (finishCleanup _ _ _ _ _); by intros [= <- <- <-].
Qed.

Lemma run_loop_spec now es : forall cache w,
  bs_wf (store w) -> NoDup (IP <$> es) ->
  (forall e, e ∈ es -> last (hist (store w) (IP e)) = Some e) ->
  cache_ok cache w -> pass_effect now cache es w (run_loop now es cache w).
Proof.
  induction es as [|e es IH]; intros cache w Hwf Hnd Hcur Hc; cbn [run_loop].
  - split; [done|done|set_solver|destruct cache; unfold cache_ok in Hc; lia|].
    exists (default [] cache), []. split_and!; [by intros ? ->|by rewrite app_nil_r|constructor].
  - inversion Hnd as [|? ? Hni Hnd']; subst.
    destruct (cleanupOne now e cache w) as [[w1 c1] r] eqn:E. pose proof E as E'.
    apply deleteRuleAndFinish_spec in E as [Hwf1 Ho Hok Hcl Hc1 (seg & h & Ht & Hh & Hset)]; [|done|apply Hcur; by left|done].
    assert (Hne : forall e', e' ∈ es -> IP e' <> IP e).
    { intros e' He' Heq. apply Hni. rewrite <- Heq. by apply list_elem_of_fmap_2. }
    destruct (IH c1 w1) as [Hwf' Ho' Hrel Hl' (rules & segs & Hr & Ht' & HF)]; try done.
    { intros e' He'. rewrite Ho by auto. apply Hcur. by right. }
    split; try done.
    + intros ip Hip. rewrite fmap_cons, not_elem_of_cons in Hip. destruct Hip. by rewrite Ho', Ho.
    + intros Hre e' [-> | Hin]%elem_of_cons; [|by apply Hrel]. rewrite Ho' by done. apply Hok.
      by rewrite (deleteRuleAndFinish_ok _ _ _ _ _ _ _ _ _ Hre Hwf E').
    + exists rules, (seg :: segs). split_and!.
      * intros rules' Hc'. apply Hr. by eapply cleanupOne_cache.
      * cbn. by rewrite Ht', Ht, app_assoc.
      * constructor; [|by rewrite <- Hcl]. exists h. rewrite Ho' by done. split; [|done].
        eapply handled_mono; [|apply Hh; destruct c1 as [rules1|]; [right; by rewrite (Hr rules1)|by left]].
        rewrite Ht'. set_solver.
Qed.

Lemma Run_effect now w w' r :
  bs_wf (store w) -> trace w = [] -> Run now w = (w', r) ->
  exists expired, Expired now (store w) = Ok expired /\ r = Ok tt /\ pass_effect now None expired w w'.
Proof.
  intros Hwf Htr. unfold Run.
  destruct (expired_law (store w) now Hwf) as (l & El & Hnd & Hl). rewrite El.
  intros [= <- <-]. exists l. split_and!; [done..|].
  apply run_loop_spec; try done.
  - intros e He. by apply Hl.
  - cbn. by rewrite Htr.
Qed.


(** A deletion of rule [id] for the entry [e] is justified by the rule id
    tracked in the entry or by a rule for the same IP that carries the autoban
    note in a list Cloudflare returned. *)
Definition justified (tr : list Request) (e : Entry) (id : string) : Prop :=
  (RuleID e = id /\ id <> "") \/
  (RuleID e = "" /\ exists rules r, ReqList (Ok rules) ∈ tr /\ r ∈ rules /\ rule_ID r = id /\
     rule_IP r = IP e /\ has_prefix AutobanNotePrefix (rule_Notes r) = true).

Lemma target_justified tr rules e pre : listing tr rules e pre -> target rules e <> "" ->
  justified tr e (target rules e).
Proof.
  intros [Hl _]. unfold target, justified. case_bool_decide as Hid; [|by left]. intros Hne. right. split; [done|].
  destruct (matchRuleByNote_spec _ _ Hne) as (r & ? & ? & ? & ?). exists rules, r. auto.
Qed.

Lemma handled_deletes client tr rules e seg h id a :
  handled client tr rules e seg h -> ReqDelete id a ∈ seg -> justified tr e id.
Proof.
  assert (Hno : forall pre, listing tr rules e pre -> ReqDelete id a ∈ pre -> False)
    by (intros pre [_ [->|[_ ->]]]; set_solver).
  assert (Hlast : forall pre b, listing tr rules e pre -> target rules e <> "" ->
    ReqDelete id a ∈ pre ++ [ReqDelete (target rules e) b] -> justified tr e id).
  { intros pre b Hl Hne [Hin|Hin]%elem_of_app; [by destruct (Hno pre)|].
    apply list_elem_of_singleton in Hin. simplify_eq. by eapply target_justified. }
  destruct 1 as [|x|pre|pre b|pre x]; intros Hin; [set_solver|set_solver|by destruct (Hno pre)|by eauto|by eauto].
Qed.

Definition is_list (r : Request) : bool := match r with ReqList _ => true | _ => false end.
Definition listings (tr : list Request) : nat := length (List.filter is_list tr).
Definition untracked (es : list Entry) : nat := length (List.filter (fun e => bool_decide (RuleID e = "")) es).

Lemma handled_listings client tr rules e seg h : handled client tr rules e seg h ->
  (listings seg <= if bool_decide (RuleID e = "") then 1 else 0)%nat.
Proof.
  assert (Hpre : forall pre, listing tr rules e pre ->
    (listings pre <= if bool_decide (RuleID e = "") then 1 else 0)%nat).
  { intros pre [_ [->|[Hid ->]]]; [cbn; lia|]. rewrite bool_decide_true by done. cbn. lia. }
  assert (Happ : forall pre id a, listings (pre ++ [ReqDelete id a]) = listings pre).
  { intros. unfold listings. rewrite List.filter_app, length_app. cbn. lia. }
  destruct 1; rewrite ?Happ; eauto; [cbn; lia|]. rewrite bool_decide_true by done. cbn. lia.
Qed.

(** C11: A pass deletes a Cloudflare rule only when an expired entry tracks its
    id, whatever the note of that rule says, or tracks no id and Cloudflare
    listed the rule for the same IP with the autoban note.  It asks for the
    list of rules at most once for each expired entry without a tracked id,
    and no more once a listing has succeeded. *)
Theorem Run_deletes_justified now w w' r :
  bs_wf (store w) -> trace w = [] -> Run now w = (w', r) ->
  exists expired, Expired now (store w) = Ok expired /\
    (forall id ans, ReqDelete id ans ∈ trace w' -> exists e, e ∈ expired /\ justified (trace w') e id) /\
    (listings (trace w') <= untracked expired)%nat /\ (lists (trace w') <= 1)%nat.
Proof.
  intros Hwf Htr HR. destruct (Run_effect _ _ _ _ Hwf Htr HR) as (es & He & -> & Hp).
  exists es. split; [done|]. destruct (pe_handled _ _ _ _ _ Hp) as (rules & segs & _ & Ht & HF). rewrite Htr in Ht.
  cbn in Ht. split_and!; [| |apply Hp].
  - intros id a Hin. rewrite Ht in Hin. revert id a Hin. clear -HF. induction HF as [|e seg es segs (h & Hh & _) HF IH]; cbn; [set_solver|].
    intros id a [Hin|Hin]%elem_of_app.
    + exists e. split; [by left|]. by eapply handled_deletes.
    + destruct (IH id a Hin) as (e' & ? & ?). exists e'. split; [by right|done].
  - rewrite Ht. clear -HF. unfold listings, untracked.
    induction HF as [|e seg es segs (h & Hh & _) HF IH]; cbn; [done|].
    rewrite List.filter_app, length_app. apply handled_listings in Hh. unfold listings in Hh.
    case_bool_decide; cbn [length]; lia.
Qed.

(** when Cloudflare answers and the store accepts status changes, one pass
    leaves no expired ban. *)
Theorem Run_clears_expired now w w' r :
  reliable -> bs_wf (store w) -> trace w = [] -> Run now w = (w', r) ->
  Expired now (store w') = Ok [].
Proof.
  intros Hrel Hwf Htr HR. destruct (Run_effect _ _ _ _ Hwf Htr HR) as (es & He & -> & Hp).
  destruct (expired_law (store w) now Hwf) as (l & El & _ & Hl).
  destruct (expired_law (store w') now (pe_wf _ _ _ _ _ Hp)) as (l' & El' & _ & Hl').
  rewrite El'. f_equal. apply elem_of_nil_inv. intros e Hin.
  apply Hl' in Hin as (Hlast & Hact & Hexp).
  destruct (decide (IP e ∈ IP <$> es)) as [Hi|Hi].
  - apply list_elem_of_fmap in Hi as (e0 & Heq & Hin0).
    pose proof (pe_reliable _ _ _ _ _ Hp Hrel e0 Hin0) as Hr.
    rewrite <- Heq, Hlast in Hr. injection Hr as ->. discriminate.
  - rewrite (pe_other _ _ _ _ _ Hp) in Hlast by done.
    apply Hi, list_elem_of_fmap_2. assert (l = es) as -> by congruence. apply Hl. eauto.
Qed.

(** ** Operator actions *)
(** Accounting of a bulk clear. *)
Record clear_effect (es : list Entry) (w w' : Worker) (res res' : ClearResult) : Prop := {
  ce_wf : bs_wf (store w');
  ce_other : forall ip, ip ∉ IP <$> es -> hist (store w') ip = hist (store w) ip;
  ce_attempted : Attempted res' = Attempted res;
  ce_skipped : Skipped res' = Skipped res;
  ce_mono : Failed res <= Failed res';
  ce_count : Deleted res' + Failed res' = Deleted res + Failed res + Z.of_nat (length es);
  ce_deleted : exists done, done `sublist_of` es /\ Deleted res' = Deleted res + Z.of_nat (length done) /\
     forall e, e ∈ done ->
       last (hist (store w') (IP e)) = Some (set_status StatusOperatorDebanned e);
}.

(** The note-based lookup of a bulk clear starts from an empty cache at each
    entry, so the trace may hold several lists: only the store matters here. *)
Lemma DebanOne_store now e reason w w' r :
  bs_wf (store w) -> last (hist (store w) (IP e)) = Some e ->
  DebanOne now (IP e) reason w = (w', r) ->
  bs_wf (store w') /\ (forall ip', ip' <> IP e -> hist (store w') ip' = hist (store w) ip') /\
  (is_ok r = true -> last (hist (store w') (IP e)) = Some (set_status StatusOperatorDebanned e)).
Proof.
  intros Hwf Hl. unfold DebanOne. rewrite get_law, Hl by done. unfold deleteRuleAndFinish, locate_rule.
  destruct (if bool_decide (RuleID e = "") then _ else _) as [[w1 c1] found] eqn:Ef.
  assert (store w1 = store w) as E1.
  { case_bool_decide; simplify_eq; [|done]. unfold loadRules in Ef.
    destruct (cf w); [|by simplify_eq]. destruct (ListAutobanRules _ _) as [? []]; by simplify_eq. }
  rewrite <- E1 in Hwf, Hl |- *. destruct found as [id|m].
  - destruct (delete_rule id w1) as [w2 [[]|m]] eqn:Ed;
      destruct (delete_rule_spec _ _ _ _ Ed) as [E2 _]; rewrite <- E2 in Hwf, Hl |- *.
    + destruct (finishCleanup _ _ _ _ _) as [w3 r3] eqn:Ef3.
      destruct (finishCleanup_spec _ _ _ _ _ _ _ Hwf Hl Ef3) as (? & _ & _ & ? & _ & Hs).
      destruct r3; intros [= <- <-]; cbn in *; split_and!; auto; done.
    + destruct (recordCleanupFailure_spec now StatusOperatorDebanned e m w2 Hwf Hl) as (? & _ & _ & ? & _).
      intros [= <- <-]. split_and!; auto; done.
  - destruct (recordCleanupFailure_spec now StatusOperatorDebanned e m w1 Hwf Hl) as (? & _ & _ & ? & _).
    intros [= <- <-]. split_and!; auto; done.
Qed.

Lemma clear_loop_spec now ctxErr reason es : forall i w res w' res',
  bs_wf (store w) -> NoDup (IP <$> es) ->
  (forall e, e ∈ es -> last (hist (store w) (IP e)) = Some e) ->
  clear_loop now ctxErr reason i es w res = (w', res') ->
  clear_effect es w w' res res'.
Proof.
  induction es as [|e es IH]; intros i w res w' res' Hwf Hnd Hcur; cbn [clear_loop].
  - intros [= <- <-]. constructor; try done; cbn; [lia..|].
    exists []. split_and!; [constructor|cbn; lia|]. intros e He. by apply not_elem_of_nil in He.
  - inversion Hnd as [|? ? Hni Hnd']; subst. destruct (ctxErr i) as [m|].
    { intros [= <- <-]. constructor; try done; cbn; [lia..|].
      exists []. split_and!; [apply sublist_nil_l|cbn; lia|]. intros e' He. by apply not_elem_of_nil in He. }
    destruct (DebanOne now (IP e) reason w) as [w1 r1] eqn:E1.
    assert (Hcure : last (hist (store w) (IP e)) = Some e) by (apply Hcur; by left).
    destruct (DebanOne_store _ _ _ _ _ _ Hwf Hcure E1) as (Hwf1 & Ho & Hs).
    assert (Hne : forall e', e' ∈ es -> IP e' <> IP e).
    { intros e' He' Heq. apply Hni. rewrite <- Heq. by apply list_elem_of_fmap_2. }
    assert (Hcur1 : forall e', e' ∈ es -> last (hist (store w1) (IP e')) = Some e').
    { intros e' He'. rewrite Ho by auto. apply Hcur. by right. }
    assert (Hoth : forall w2 : Worker, (forall ip, ip ∉ IP <$> es -> hist (store w2) ip = hist (store w1) ip) ->
              forall ip, ip ∉ IP <$> e :: es -> hist (store w2) ip = hist (store w) ip).
    { intros w2 Ho2 ip Hip. rewrite fmap_cons, not_elem_of_cons in Hip. destruct Hip. by rewrite Ho2, Ho. }
    destruct r1 as [e1|m]; intros Hloop;
      destruct (IH _ _ _ _ _ Hwf1 Hnd' Hcur1 Hloop) as [? Ho' ? ? Hm Hcnt (dn & Hsub & Hdel & Hd)];
      cbn in *; constructor; auto; cbn; try lia.
    + exists (e :: dn). split_and!; [by constructor|cbn; lia|].
      intros e' [-> | Hin]%elem_of_cons; [|auto]. rewrite Ho' by done. auto.
    + exists dn. split_and!; [by constructor|lia|done].
Qed.

(** a bulk clear accounts for every active ban as deleted or failed, and
    if none failed then no ban is active any more. *)
Theorem ClearAll_accounting now ctxErr reason w w' res :
  bs_wf (store w) -> ClearAll now ctxErr reason w = (w', Ok res) ->
  Attempted res = Deleted res + Failed res /\ Skipped res = 0 /\
  (Failed res = 0 -> Active (store w') = Ok []).
Proof.
  intros Hwf. unfold ClearAll.
  destruct (active_law (store w) Hwf) as (es & El & Hnd & Hes). rewrite El.
  destruct (clear_loop _ _ _ _ _ _ _) as [w1 res1] eqn:E. intros [= <- <-].
  destruct (clear_loop_spec _ _ _ _ _ _ _ _ _ Hwf Hnd (fun e He => proj1 (proj1 (Hes e) He)) E)
    as [Hwf' Ho Ha Hsk Hm Hcnt (dn & Hsub & Hdel & Hd)].
  cbn in *. split_and!; [lia|done|]. intros HF.
  assert (dn = es) as ->.
  { apply sublist_full; [done|]. lia. }
  destruct (active_law (store w1) Hwf') as (l' & El' & _ & Hl'). rewrite El'. f_equal.
  apply elem_of_nil_inv. intros e Hin. apply Hl' in Hin as (Hlast & Hact).
  destruct (decide (IP e ∈ IP <$> es)) as [Hi|Hi].
  - apply list_elem_of_fmap in Hi as (e0 & Heq & Hin0).
    rewrite Heq, (Hd e0 Hin0) in Hlast. injection Hlast as <-. discriminate.
  - rewrite Ho in Hlast by done. apply Hi, list_elem_of_fmap_2, Hes. eauto.
Qed.

(** the worker reads "already gone" off the text of the error, and the
    client's error text contains the rule's id: for a rule whose id contains
    the digits 404, any failed deletion (a timeout, a 500) is taken for a rule
    already gone, and the ban is marked as lifted while the rule remains. *)
Theorem delete_failure_hidden now e st reason cache w c c' cause s' :
  cf w = Some c -> str_contains (RuleID e) "404" = true ->
  DeleteIPAccessRule (zoneID w) (RuleID e) c = (c', Err (delete_error (RuleID e) cause)) ->
  MarkStatus now (IP e) st reason (store w) = Ok s' ->
  exists w', deleteRuleAndFinish now e st reason cache w = (w', cache, Ok tt) /\ store w' = s' /\
    trace w' = trace w ++ [ReqDelete (RuleID e) (Err (delete_error (RuleID e) cause))].
Proof.
  intros Hcf Hid Hdel Hmark.
  assert (isNotFound (delete_error (RuleID e) cause) = true) as Hnf.
  { unfold isNotFound, delete_error. rewrite !orb_true_iff. left; left.
    apply (str_contains_lower _ "404"), str_contains_app_l, str_contains_app_r, Hid. }
  assert (RuleID e <> "") as Hne by (by intros E; rewrite E in Hid).
  unfold deleteRuleAndFinish, locate_rule. rewrite bool_decide_false by done.
  unfold delete_rule. rewrite bool_decide_false, Hcf, Hdel, Hnf by done.
  unfold finishCleanup. cbn [set_cf store]. rewrite Hmark. eauto.
Qed.
End worker.

(** ** Witnesses: the in-memory store and a Cloudflare that holds a rule list *)
Record FakeCF := { fake_rules : list CFRule; fake_down : bool }.

#[global] Instance fake_cf : CFClient FakeCF := {|
  ListAutobanRules := fun _ c => (c, Ok (fake_rules c));
  DeleteIPAccessRule := fun _ id c =>
    if fake_down c then (c, Err (delete_error id "HTTP 500"))
    else ({| fake_rules := List.filter (fun r => negb (bool_decide (rule_ID r = id))) (fake_rules c);
             fake_down := false |}, Ok tt);
|}.
#[global] Instance unit_sink : DebanSink unit := fun _ _ a => (a, Ok tt).

Definition demo_entry (ip rid : string) : Entry :=
  {| IP := ip; Source := "autoban"; Reason := "confidence"; Confidence := 95;
     CreatedAt := hour; ExpiresAt := 2 * hour; Duration := hour; RuleID := rid;
     EvidenceID := ""; RecidiveLevel := 1; Status := StatusActive;
     CleanupAttempts := 0; LastCleanupError := ""; LastCleanupAttemptAt := 0 |}.

Definition demo_store : MemStore.Store :=
  {| MemStore.history := {[ "203.0.113.7" := [demo_entry "203.0.113.7" ""];
                            "203.0.113.8" := [demo_entry "203.0.113.8" "a404b"] ]} |}.

Definition demo_worker (down : bool) : Worker (T := MemStore.Store) (C := FakeCF) (A := unit) (V := unit) :=
  {| store := demo_store;
     cf := Some {| fake_rules := [{| rule_ID := "x1"; rule_Notes := "manual"; rule_IP := "203.0.113.7" |};
                                  {| rule_ID := "x2"; rule_Notes := "cf-sync:autoban:conf";
                                     rule_IP := "203.0.113.7" |}];
                   fake_down := down |};
     zoneID := "z"; audit := None; evidence := Some tt; trace := [] |}.

Lemma demo_store_wf down : bs_wf (store (demo_worker down)).
Proof.
  intros ip e. unfold MemStore.entries_of. cbn.
  destruct ((_ : gmap string (list Entry)) !! ip) as [l|] eqn:E; [|set_solver].
  rewrite lookup_insert in E. case_decide; simplify_eq; cbn.
  - intros ->%list_elem_of_singleton. done.
  - apply lookup_singleton_Some in E as [<- <-]. intros ->%list_elem_of_singleton. done.
Qed.


Theorem Run_deletes_justified_witness :
  (exists expired, Expired (3 * hour) demo_store = Ok expired /\
    (listings (trace (Run (3 * hour) (demo_worker false)).1) <= untracked expired)%nat) /\
  trace (Run (3 * hour) (demo_worker false)).1 <> [].
Proof.
  split; [|by vm_compute].
  destruct (Run_deletes_justified (3 * hour) (demo_worker false) _ _ (demo_store_wf false) eq_refl eq_refl)
    as (es & E & _ & Hl & _).
  exists es. split; [exact E|exact Hl].
Defined.

Theorem ClearAll_accounting_witness :
  Active (store (ClearAll (3 * hour) (fun _ => None) "" (demo_worker false)).1) = Ok [].
Proof.
  apply (ClearAll_accounting (3 * hour) (fun _ => None) "" (demo_worker false) _
           {| Attempted := 2; Deleted := 2; Skipped := 0; Failed := 0; Errors := [] |}
           (demo_store_wf false)); by vm_compute.
Defined.

Theorem delete_failure_hidden_witness :
  exists w', deleteRuleAndFinish (3 * hour) (demo_entry "203.0.113.8" "a404b") StatusExpiredCleaned ""
               None (demo_worker true) = (w', None, Ok tt).
Proof.
  edestruct (delete_failure_hidden (3 * hour) (demo_entry "203.0.113.8" "a404b") StatusExpiredCleaned ""
               None (demo_worker true)) as (w' & E & _); [reflexivity..|]. exists w'. exact E.
Defined.

(** A Cloudflare that always answers. *)
Definition RuleBook := list CFRule.
#[global] Instance book_cf : CFClient RuleBook := {|
  ListAutobanRules := fun _ c => (c, Ok c);
  DeleteIPAccessRule := fun _ id c =>
    if bool_decide (id ∈ rule_ID <$> c)
    then (List.filter (fun r => negb (bool_decide (rule_ID r = id))) c, Ok tt)
    else (c, Err (delete_error id "rule not found"));
|}.

Definition book_worker : Worker (T := MemStore.Store) (C := RuleBook) (A := unit) (V := unit) :=
  {| store := demo_store;
     cf := Some [{| rule_ID := "x2"; rule_Notes := "cf-sync:autoban:conf"; rule_IP := "203.0.113.7" |}];
     zoneID := "z"; audit := None; evidence := None; trace := [] |}.

Theorem Run_clears_expired_witness :
  Expired (3 * hour) (store (Run (3 * hour) book_worker).1) = Ok [].
Proof.
  refine (Run_clears_expired (3 * hour) book_worker _ _ _ (demo_store_wf true) eq_refl eq_refl).
  split; [done|]. split.
  - intros z id c. cbn. case_bool_decide; [done|]. cbn [snd].
    unfold isNotFound. rewrite !orb_true_iff. left; right.
    apply (str_contains_lower _ "not found"), str_contains_app_l, str_contains_app_l,
      str_contains_app_l. reflexivity.
  - intros now ip st note s _. cbn. unfold MemStore.mem_mark.
    by destruct (MemStore.entries_of s ip).
Defined.

End Cleanup.
