(* ===== verification/AutoBan.v ===== *)
(** * Automatic bans ([internal/services/autoban])

    The burst counter, the dedup guard, the cached AbuseIPDB lookup and the
    evaluator that combines them with the trust registry and the reputation
    gate into ban decisions. *)

From S2P Require Import Prelude Netip Trust Reputation.
Import Netip Trust Enrichment.

Local Open Scope Z_scope.

(** ** Burst counter ([burst.go]) *)
Module Burst.

Definition burstPruneLookback : Z := 15 * minute.

Record BurstCounter := {
  events : gmap string (list Z);
  seen : gset string;
}.

Definition NewBurstCounter : BurstCounter := {| events := ∅; seen := ∅ |}.

Definition events_of (c : BurstCounter) (ip : string) : list Z := default [] (events c !! ip).

Definition Record_ (ip key : string) (ts : Z) (c : BurstCounter) : BurstCounter :=
  let dk := ip +:+ ":" +:+ key in
  if negb (bool_decide (key = "")) && bool_decide (dk ∈ seen c) then c
  else {| events := <[ip := events_of c ip ++ [ts]]> (events c);
          seen := if bool_decide (key = "") then seen c else {[dk]} ∪ seen c |}.

Definition HasLocalEvidence (ip : string) (now : Z) (c : BurstCounter) : bool :=
  let cutoff := t_add now (- burstPruneLookback) in
  existsb (fun t => t_after t cutoff) (events_of c ip).

(** The inner loop: [count] events of the window seen so far. *)
Fixpoint window_loop (end_ threshold count : Z) (rest : list Z) : bool :=
  match rest with
  | [] => false
  | t :: rest' =>
      if negb (t_before t end_) then false
      else let count' := count + 1 in
           if threshold <? count' then true else window_loop end_ threshold count' rest'
  end.

Fixpoint burst_loop (window threshold : Z) (ts : list Z) : bool :=
  match ts with
  | [] => false
  | t :: rest =>
      if window_loop (t_add t window) threshold 1 rest then true
      else burst_loop window threshold rest
  end.

(** The pruned slice is stored back and, when it is long enough, sorted in
    place: the stored events and the sorted ones are the same slice. *)
Definition DetectBurst (ip : string) (window threshold now : Z) (c : BurstCounter)
  : BurstCounter * bool :=
  let cutoff := t_add now (- burstPruneLookback) in
  let ts := List.filter (fun t => t_after t cutoff) (events_of c ip) in
  let store ts := {| events := <[ip := ts]> (events c); seen := seen c |} in
  if Z.of_nat (length ts) <=? threshold then (store ts, false)
  else let sorted := isort t_before ts in
       (store sorted, burst_loop window threshold sorted).

(** *** The specification of a burst *)
Definition in_window (a window : Z) (t : Z) : bool := (a <=? t) && (t <? a + window).
Definition count_in (a window : Z) (ts : list Z) : Z :=
  Z.of_nat (length (List.filter (in_window a window) ts)).

Lemma count_in_cons a w t ts :
  count_in a w (t :: ts) = (if in_window a w t then 1 else 0) + count_in a w ts.
Proof. unfold count_in. cbn. destruct (in_window a w t); cbn; lia. Qed.

Lemma count_in_perm a w l1 l2 : l1 ≡ₚ l2 -> count_in a w l1 = count_in a w l2.
Proof.
  unfold count_in. induction 1; cbn; try congruence.
  - destruct (in_window a w x); cbn; lia.
  - destruct (in_window a w x), (in_window a w y); cbn; lia.
Qed.

Lemma count_in_length a w l : count_in a w l <= Z.of_nat (length l).
Proof. unfold count_in. pose proof (List.filter_length_le (in_window a w) l). lia. Qed.

Lemma count_in_nonneg a w l : 0 <= count_in a w l.
Proof. unfold count_in. lia. Qed.

(** On sorted events not before [a], the inner loop counts the window. *)
Lemma window_loop_spec a w threshold count rest :
  StronglySorted Z.le rest -> Forall (Z.le a) rest -> count <= threshold ->
  window_loop (a + w) threshold count rest = bool_decide (threshold < count + count_in a w rest).
Proof.
  intros Hs Ha. revert count. induction Hs as [|t rest Hs IH Ht]; intros count Hc; cbn [window_loop].
  - rewrite bool_decide_false; [done|]. unfold count_in. cbn. lia.
  - inversion Ha; subst. rewrite count_in_cons. unfold t_before, in_window.
    destruct (Z.ltb_spec t (a + w)) as [Hlt|Hge]; cbn [negb].
    + replace (a <=? t) with true by lia. cbn [andb].
      pose proof (count_in_nonneg a w rest).
      destruct (Z.ltb_spec threshold (count + 1)).
      * rewrite bool_decide_true; [done|]. lia.
      * rewrite IH by (done || lia). apply bool_decide_ext. lia.
    + assert (count_in a w rest = 0) as ->.
      { unfold count_in.
        clear -Ht Hge. induction rest as [|x rest IH]; [done|]. inversion Ht; subst. cbn.
        unfold in_window at 1. replace (x <? a + w) with false by lia. rewrite andb_false_r. auto. }
      rewrite andb_false_r, bool_decide_false; [done|]. lia.
Qed.

Lemma burst_loop_spec w threshold ts :
  StronglySorted Z.le ts -> 0 < w -> 1 <= threshold ->
  burst_loop w threshold ts = true <-> exists a, threshold < count_in a w ts.
Proof.
  intros Hs Hw Hth. induction Hs as [|t rest Hs IH Ht]; cbn [burst_loop].
  - split; [done|]. intros [a Ha]. unfold count_in in Ha. cbn in Ha. lia.
  - unfold t_add. rewrite (window_loop_spec t) by done.
    case_bool_decide as Hb.
    + split; [|done]. intros _. exists t. rewrite count_in_cons. unfold in_window at 1.
      replace ((t <=? t) && (t <? t + w)) with true by lia. lia.
    + rewrite IH. split; intros [a Ha]; exists a; rewrite ?count_in_cons in *.
      * destruct (in_window a w t); lia.
      * destruct (in_window a w t) eqn:E; [|lia]. exfalso. apply Hb.
        assert (count_in a w rest <= count_in t w rest); [|lia].
        unfold in_window in E. apply andb_true_iff in E as [E1 E2].
        clear -Ht E1. induction rest as [|x rest IHr]; [done|].
        inversion Ht; subst. rewrite !count_in_cons. unfold in_window.
        specialize (IHr ltac:(done)). repeat case_match; lia.
Qed.

Lemma DetectBurst_iff ip window threshold now c :
  0 < window -> 1 <= threshold ->
  (DetectBurst ip window threshold now c).2 = true <->
  exists a, threshold < count_in a window
              (List.filter (fun t => now - burstPruneLookback <? t) (events_of c ip)).
Proof.
  intros Hw Hth. unfold DetectBurst, t_add, t_after.
  change (now + - burstPruneLookback) with (now - burstPruneLookback).
  set (ts := List.filter _ _). destruct (Z.leb_spec (Z.of_nat (length ts)) threshold) as [Hl|Hl].
  - split; [done|]. intros [a Ha]. pose proof (count_in_length a window ts). lia.
  - cbn [snd]. rewrite burst_loop_spec; try done.
    + setoid_rewrite (count_in_perm _ _ _ _ (isort_perm t_before ts)). done.
    + apply isort_sorted; [| |typeclasses eauto]; intros x y; unfold t_before.
      * intros ?%Z.ltb_lt. lia.
      * intros ?%Z.ltb_ge. lia.
Qed.

(** for a positive window and a threshold of at least one, [DetectBurst]
    answers whether some interval of the length of the window holds more than
    [threshold] of the events recorded for the IP in the last 15 minutes. *)
Theorem DetectBurst_spec ip window threshold now c :
  0 < window -> 1 <= threshold ->
  (DetectBurst ip window threshold now c).2 = true <->
  exists a, threshold < count_in a window
              (List.filter (fun t => now - burstPruneLookback <? t) (events_of c ip)).
Proof. apply DetectBurst_iff. Qed.

Theorem DetectBurst_spec_witness :
  exists a, 2 < count_in a (30 * second)
    (List.filter (fun t => hour - burstPruneLookback <? t)
       (events_of (Record_ "203.0.113.7" "" (hour - 5)
          (Record_ "203.0.113.7" "k" (hour - 9) (Record_ "203.0.113.7" "j" hour NewBurstCounter)))
          "203.0.113.7")).
Proof.
  apply (DetectBurst_spec "203.0.113.7" (30 * second) 2 hour); [done|done|]. by vm_compute.
Defined.

Inductive burst_op :=
| BRecord (ip key : string) (ts : Z)
| BDetect (ip : string) (window threshold now : Z).
Definition burst_step (c : BurstCounter) (o : burst_op) : BurstCounter :=
  match o with
  | BRecord ip key ts => Record_ ip key ts c
  | BDetect ip w th now => (DetectBurst ip w th now c).1
  end.

Lemma seen_mono ops : forall c, seen c ⊆ seen (foldl burst_step c ops).
Proof.
  induction ops as [|o ops IH]; intros c; [done|]. cbn. etrans; [|apply IH].
  destruct o as [ip key ts|ip w th now]; cbn.
  - unfold Record_. repeat case_match; cbn; set_solver.
  - unfold DetectBurst. by case_match.
Qed.

(** replaying an event (same IP, same ray id) leaves the counter unchanged,
    whatever happened in between to the same counter through other events and
    burst checks. *)
Theorem Record_replay ip key ts ts' ops c :
  key <> "" ->
  let c' := foldl burst_step (Record_ ip key ts c) ops in
  Record_ ip key ts' c' = c'.
Proof.
  intros Hk c'.
  assert (ip +:+ ":" +:+ key ∈ seen c') as Hin.
  { apply seen_mono. unfold Record_. rewrite bool_decide_false by done. cbn [negb andb].
    case_bool_decide; [done|]. cbn. set_solver. }
  unfold Record_ at 1. by rewrite bool_decide_false, bool_decide_true.
Qed.

Theorem Record_replay_witness :
  let c := Record_ "203.0.113.7" "ray" 5 NewBurstCounter in
  Record_ "203.0.113.7" "ray" 9 c = c.
Proof. exact (Record_replay "203.0.113.7" "ray" 5 9 [] NewBurstCounter ltac:(done)). Defined.

End Burst.

(** ** Dedup guard ([dedup.go]) *)
Module Dedup.

Record banRecord := { at_ : Z; ttl : Z }.

Record BanDedup := { bans : gmap string banRecord; defaultTTL : Z }.

Definition NewBanDedup (defaultTTL : Z) : BanDedup := {| bans := ∅; defaultTTL := defaultTTL |}.

Definition AlreadyBanned (ip : string) (now : Z) (d : BanDedup) : bool :=
  match bans d !! ip with
  | None => false
  | Some r => t_before now (t_add (at_ r) (ttl r))
  end.

Definition MarkBanned (ip : string) (now ttl : Z) (d : BanDedup) : BanDedup :=
  {| bans := <[ip := {| at_ := now; ttl := ttl |}]> (bans d); defaultTTL := defaultTTL d |}.

Definition MarkBannedDefaultTTL (ip : string) (now : Z) (d : BanDedup) : BanDedup :=
  MarkBanned ip now (defaultTTL d) d.

Lemma AlreadyBanned_mark ip ip' now ttl now' d :
  AlreadyBanned ip' now' (MarkBanned ip now ttl d) =
  if decide (ip = ip') then now' <? now + ttl else AlreadyBanned ip' now' d.
Proof. unfold AlreadyBanned, MarkBanned. cbn. rewrite lookup_insert. by case_decide. Qed.

End Dedup.

(** ** Cached AbuseIPDB lookup ([abusecheck.go]) *)
Module AbuseCheck.

(** [CheckScore]: the AbuseIPDB transport, with its own state. *)
Class AbuseIPDBChecker (K : Type) := CheckScore : string -> K -> K * result Z.

Record cacheEntry := { score : Z; expiresAt : Z }.

Definition makeSummary (ip : option addr) (score : Z) : EnrichmentSummary :=
  {| es_IP := ip;
     es_Providers := [{| v_Provider := "abuseipdb"; v_Mode := ""; v_Score := score;
                         v_Manual := true; v_Note := "" |}];
     es_LocalSignalScore := 0; es_CacheHit := false |}.

Section enricher.
Context {K : Type} `{AbuseIPDBChecker K}.

(** [calls] is the trace of the requests sent to AbuseIPDB. *)
Record cachedEnricher := {
  checker : K;
  cache : gmap string cacheEntry;
  ttl : Z;
  calls : list string;
}.

Definition NewCachedEnricher (k : K) (ttl : Z) : cachedEnricher :=
  {| checker := k; cache := ∅; ttl := ttl; calls := [] |}.

(** [ip.String()], which is "invalid IP" for the zero address. *)
Definition ip_key (ip : option addr) : string :=
  match ip with Some a => addr_string a | None => "invalid IP" end.

Definition cached_enrich (now : Z) (ip : option addr) (_ : LookupOptions) (c : cachedEnricher)
  : cachedEnricher * result EnrichmentSummary :=
  let ipStr := ip_key ip in
  let miss :=
    let '(k', r) := CheckScore ipStr (checker c) in
    match r with
    | Err m => ({| checker := k'; cache := cache c; ttl := ttl c; calls := calls c ++ [ipStr] |}, Err m)
    | Ok s =>
        ({| checker := k';
            cache := <[ipStr := {| score := s; expiresAt := t_add now (ttl c) |}]> (cache c);
            ttl := ttl c; calls := calls c ++ [ipStr] |}, Ok (makeSummary ip s))
    end in
  match cache c !! ipStr with
  | Some e => if t_before now (expiresAt e) then (c, Ok (makeSummary ip (score e))) else miss
  | None => miss
  end.

#[global] Instance cached_enricher : IPEnricher cachedEnricher := cached_enrich.

(** A sequence of lookups, each at its instant. *)
Definition lookups (l : list (Z * option addr * LookupOptions)) (c : cachedEnricher) : cachedEnricher :=
  foldl (fun c x => (Enrich x.1.1 x.1.2 x.2 c).1) c l.

Definition fresh_until (key : string) (t : Z) (s : Z) (c : cachedEnricher) : Prop :=
  exists e, cache c !! key = Some e /\ t <= expiresAt e /\ score e = s.

Lemma lookups_fresh key t s l : forall c,
  fresh_until key t s c -> Forall (fun x => x.1.1 < t) l ->
  fresh_until key t s (lookups l c) /\
  exists cs, calls (lookups l c) = calls c ++ cs /\ key ∉ cs.
Proof.
  induction l as [|[[now ip] o] l IH]; intros c Hf Hl; cbn.
  - split; [done|]. exists []. rewrite app_nil_r. split; [done|apply not_elem_of_nil].
  - inversion Hl as [|? ? Hnow Hl']; subst. cbn in Hnow.
    assert (fresh_until key t s (Enrich now ip o c).1 /\
            exists cs, calls (Enrich now ip o c).1 = calls c ++ cs /\ key ∉ cs) as [Hf1 (cs1 & E1 & Hk1)].
    { destruct Hf as (e & He & Ht & Hs). unfold Enrich, cached_enricher, cached_enrich.
      destruct (decide (ip_key ip = key)) as [Hk|Hk].
      - rewrite Hk, He. unfold t_before. replace (now <? expiresAt e) with true by lia.
        cbn. split; [by exists e|]. exists []. rewrite app_nil_r. split; [done|apply not_elem_of_nil].
      - assert (forall c', cache c' !! key = cache c !! key -> fresh_until key t s c') as Hkeep
          by (intros c' Hc'; exists e; by rewrite Hc').
        destruct (CheckScore (ip_key ip) (checker c)) as [k' [sc|m]];
          repeat case_match; cbn; (split; [apply Hkeep; cbn; by rewrite ?lookup_insert_ne|]);
          (exists [] + exists [ip_key ip]); rewrite ?app_nil_r; (split; [done|]);
          set_solver. }
    destruct (IH _ Hf1 Hl') as [Hf2 (cs2 & E2 & Hk2)]. split; [done|].
    exists (cs1 ++ cs2). unfold lookups in E2. rewrite E2, E1, app_assoc. split; [done|].
    rewrite elem_of_app. tauto.
Qed.

(** after a successful lookup of an address, every further lookup of it
    within the TTL is answered from the cache with the same score, whatever
    other addresses are looked up in between, and AbuseIPDB receives no
    further request for it. *)
Theorem cache_quota now ip o c sum l now' o' :
  (Enrich now ip o c).2 = Ok sum -> Forall (fun x => x.1.1 < now + ttl c) l ->
  (forall e, cache c !! ip_key ip = Some e -> expiresAt e <= now) ->
  now' < now + ttl c ->
  let c1 := (Enrich now ip o c).1 in
  let c2 := lookups l c1 in
  (exists cs, calls c2 = calls c1 ++ cs /\ ip_key ip ∉ cs) /\
  Enrich now' ip o' c2 = (c2, Ok sum).
Proof.
  intros Hok Hl Hstale Hnow' c1 c2.
  assert (exists s, sum = makeSummary ip s /\ fresh_until (ip_key ip) (now + ttl c) s c1) as (s & -> & Hf).
  { subst c1. revert Hok. unfold Enrich, cached_enricher, cached_enrich, t_before, t_add.
    assert (forall e, cache c !! ip_key ip = Some e -> (now <? expiresAt e) = false) as Hst
      by (intros e He; apply Hstale in He; lia).
    destruct (CheckScore (ip_key ip) (checker c)) as [k' [sc|m]];
      destruct (cache c !! ip_key ip) as [e|] eqn:Ec; try rewrite (Hst e eq_refl); cbn;
      intros [= <-]; exists sc; (split; [done|]); eexists; (split; [apply lookup_insert_eq|]); done. }
  destruct (lookups_fresh _ _ _ l c1 Hf Hl) as [(e & He & Ht & Hs) Hcs].
  split; [done|]. fold c2 in He.
  unfold Enrich at 1, cached_enricher at 1, cached_enrich, t_before. rewrite He.
  replace (now' <? expiresAt e) with true by lia. by rewrite Hs.
Qed.

End enricher.

(** An AbuseIPDB that always answers 100. *)
#[global] Instance const_checker : AbuseIPDBChecker unit := fun _ k => (k, Ok 100).

Theorem cache_quota_witness :
  let c := NewCachedEnricher tt (6 * hour) in
  let ip := ParseAddr "203.0.113.7" in
  let c1 := (Enrich hour ip manual_forensics c).1 in
  Enrich (2 * hour) ip manual_forensics c1 = (c1, Ok (makeSummary ip 100)).
Proof.
  exact (proj2 (cache_quota hour (ParseAddr "203.0.113.7") manual_forensics
    (NewCachedEnricher tt (6 * hour)) (makeSummary (ParseAddr "203.0.113.7") 100) [] (2 * hour)
    manual_forensics eq_refl (Forall_nil_2 _) ltac:(done) ltac:(done))).
Defined.

End AbuseCheck.

(** ** Evaluator ([evaluator.go]) *)
Module AutoBan.
Import Burst Dedup.

Definition BurstWindow : Z := 30 * second.
Definition BurstThreshold : Z := 30.
Definition BanDedupTTL : Z := 24 * hour.

Record BanDecision := {
  bd_IP : string;
  ShouldBan : bool;
  bd_Reason : string;
  SkipReason : string;
  bd_Shadow : bool;
  bd_Confidence : Z;
}.

Definition skipped (ip reason : string) : BanDecision :=
  {| bd_IP := ip; ShouldBan := false; bd_Reason := ""; SkipReason := reason; bd_Shadow := false;
     bd_Confidence := 0 |}.

Record MaliciousEvent := { ev_IP : string; ev_Timestamp : Z; ev_AbuseType : string; ev_RayID : string }.

(** [ReputationGate]. *)
Class ReputationGate (G : Type) :=
  gate_EvaluateBan : Z -> string -> Reputation.LocalSignal -> G -> G * Reputation.Decision.

Definition isBenign (abuseType : string) : bool :=
  bool_decide (abuseType = "benign_bootstrap") || bool_decide (abuseType = "benign_probe")
  || bool_decide (abuseType = "").

Definition abuseIPDBScore (s : EnrichmentSummary) : Z :=
  match List.find (fun v => bool_decide (v_Provider v = "abuseipdb")) (es_Providers s) with
  | Some v => v_Score v
  | None => 0
  end.

Definition confirmed_hostile : Reputation.LocalSignal :=
  {| Reputation.Strength := Reputation.SignalConfirmedHostile; Reputation.ls_AbuseType := "" |}.

Section evaluator.
Context {E G : Type} `{IPEnricher E} `{ReputationGate G}.

(** A nil trust registry or gate is [None]; the clock is an argument of the
    methods. *)
Record Evaluator := {
  trust : option Registry;
  enricher : E;
  burst : BurstCounter;
  dedup : BanDedup;
  liveMode : bool;
  reputationGate : option G;
}.

Definition NewEvaluator (live : bool) (reg : option Registry) (enr : E) : Evaluator :=
  {| trust := reg; enricher := enr; burst := NewBurstCounter; dedup := NewBanDedup BanDedupTTL;
     liveMode := live; reputationGate := None |}.

Definition set_burst (e : Evaluator) (b : BurstCounter) : Evaluator :=
  {| trust := trust e; enricher := enricher e; burst := b; dedup := dedup e;
     liveMode := liveMode e; reputationGate := reputationGate e |}.
Definition set_dedup (e : Evaluator) (d : BanDedup) : Evaluator :=
  {| trust := trust e; enricher := enricher e; burst := burst e; dedup := d;
     liveMode := liveMode e; reputationGate := reputationGate e |}.
Definition set_enricher (e : Evaluator) (x : E) : Evaluator :=
  {| trust := trust e; enricher := x; burst := burst e; dedup := dedup e;
     liveMode := liveMode e; reputationGate := reputationGate e |}.
Definition SetReputationGate (e : Evaluator) (g : option G) : Evaluator :=
  {| trust := trust e; enricher := enricher e; burst := burst e; dedup := dedup e;
     liveMode := liveMode e; reputationGate := g |}.

Definition RecordMalicious (ev : MaliciousEvent) (e : Evaluator) : Evaluator :=
  if bool_decide (ev_IP ev = "") || isBenign (ev_AbuseType ev) then e
  else match ParseAddr (ev_IP ev) with
       | None => e
       | Some _ => set_burst e (Record_ (ev_IP ev) (ev_RayID ev) (ev_Timestamp ev) (burst e))
       end.

Definition guardIP (ip : string) (now : Z) (e : Evaluator) : string :=
  match ParseAddr (trim_space ip) with
  | None => "invalid_ip"
  | Some a =>
      if negb (IsGlobalUnicast a) || IsPrivate a then "not_public_ip"
      else if match trust e with Some r => negb (bool_decide (MatchIP r ip = [])) | None => false end
      then "protected_target"
      else if AlreadyBanned ip now (dedup e) then "already_banned"
      else ""
  end.

Definition reputationSkip (now : Z) (ip : string) (local : Reputation.LocalSignal) (e : Evaluator)
  : Evaluator * string :=
  match reputationGate e with
  | None => (e, "")
  | Some g =>
      let '(g', d) := gate_EvaluateBan now ip local g in
      (SetReputationGate e (Some g'),
       if Reputation.Shadow d then ""
       else if negb (Reputation.AllowBan d) then "reputation_gate:" +:+ Reputation.Reason d
       else "")
  end.

Definition ban (e : Evaluator) (ip reason : string) (score : Z) : BanDecision :=
  {| bd_IP := ip; ShouldBan := true; bd_Reason := reason; SkipReason := "";
     bd_Shadow := negb (liveMode e); bd_Confidence := score |}.

(** [quota] is what the process-wide quota registry reports for AbuseIPDB. *)
Definition EvaluateConfidence (quota : option QuotaState) (now : Z) (ip : string) (e : Evaluator)
  : Evaluator * BanDecision :=
  let skip := guardIP ip now e in
  if negb (bool_decide (skip = "")) then (e, skipped ip skip)
  else if negb (HasLocalEvidence ip now (burst e)) then (e, skipped ip "no_local_evidence")
  else if quota_constrained quota then (e, skipped ip "abuseipdb_quota_constrained")
  else
    let '(x, r) := Enrich now (ParseAddr ip) manual_forensics (enricher e) in
    let e1 := set_enricher e x in
    match r with
    | Err m => (e1, skipped ip ("enrichment_error: " +:+ m))
    | Ok summary =>
        let score := abuseIPDBScore summary in
        if score <? 100 then (e1, skipped ip "confidence_below_100")
        else
          let '(e2, skip) := reputationSkip now ip confirmed_hostile e1 in
          if negb (bool_decide (skip = "")) then (e2, skipped ip skip)
          else (e2, ban e2 ip "confidence_100" score)
    end.

Definition EvaluateBurst (now : Z) (ip : string) (e : Evaluator) : Evaluator * BanDecision :=
  let skip := guardIP ip now e in
  if negb (bool_decide (skip = "")) then (e, skipped ip skip)
  else
    let '(b, hit) := DetectBurst ip BurstWindow BurstThreshold now (burst e) in
    let e1 := set_burst e b in
    if negb hit then (e1, skipped ip "burst_below_threshold")
    else
      let '(e2, skip) := reputationSkip now ip confirmed_hostile e1 in
      if negb (bool_decide (skip = "")) then (e2, skipped ip skip)
      else (e2, ban e2 ip "burst_malicious" 0).

Definition EvaluateExternalBurst (now : Z) (ip reason : string) (e : Evaluator)
  : Evaluator * BanDecision :=
  let skip := guardIP ip now e in
  if negb (bool_decide (skip = "")) then (e, skipped ip skip) else (e, ban e ip reason 0).

Definition RecordBan (now : Z) (ip : string) (e : Evaluator) : Evaluator :=
  set_dedup e (MarkBannedDefaultTTL ip now (dedup e)).

Definition RecordBanWithDuration (now : Z) (ip : string) (ttl : Z) (e : Evaluator) : Evaluator :=
  if ttl <=? 0 then set_dedup e (MarkBannedDefaultTTL ip now (dedup e))
  else set_dedup e (MarkBanned ip now ttl (dedup e)).

(** *** Lemmas *)

(** The guards every ban passes. *)
Definition eligible (ip : string) (now : Z) (e : Evaluator) : Prop :=
  (exists a, ParseAddr (trim_space ip) = Some a /\ IsGlobalUnicast a = true /\ IsPrivate a = false) /\
  (forall r, trust e = Some r -> MatchIP r ip = []) /\
  AlreadyBanned ip now (dedup e) = false.

Lemma guardIP_spec ip now e : guardIP ip now e = "" <-> eligible ip now e.
Proof.
  unfold guardIP, eligible. destruct (ParseAddr (trim_space ip)) as [a|].
  - destruct (IsGlobalUnicast a) eqn:Eg, (IsPrivate a) eqn:Ep; cbn [negb orb];
      try (split; [done|naive_solver congruence]).
    destruct (trust e) as [r|]; [case_bool_decide as Em; cbn [negb]|];
      destruct (AlreadyBanned ip now (dedup e)); split; try done; try naive_solver.
  - split; [done|naive_solver].
Qed.

(** The gate's verdict, when there is a gate. *)
Definition gate_allows (now : Z) (ip : string) (e : Evaluator) : Prop :=
  forall g, reputationGate e = Some g ->
    let d := (gate_EvaluateBan now ip confirmed_hostile g).2 in
    Reputation.Shadow d = true \/ Reputation.AllowBan d = true.

Lemma reputationSkip_spec now ip e :
  (reputationSkip now ip confirmed_hostile e).2 = "" <-> gate_allows now ip e.
Proof.
  unfold reputationSkip, gate_allows. destruct (reputationGate e) as [g|].
  - destruct (gate_EvaluateBan now ip confirmed_hostile g) as [g' d] eqn:Eg. cbn [snd]. split.
    + intros Hs g0 [= <-]. rewrite Eg. cbn [snd]. destruct (Reputation.Shadow d); [by left|].
      destruct (Reputation.AllowBan d); [by right|done].
    + intros Hg. specialize (Hg g eq_refl). rewrite Eg in Hg. cbn [snd] in Hg.
      destruct Hg as [-> | ->]; [done|]. by destruct (Reputation.Shadow d).
  - split; [by intros _ g|done].
Qed.

Lemma reputationSkip_frame now ip l e :
  let e' := (reputationSkip now ip l e).1 in
  trust e' = trust e /\ burst e' = burst e /\ dedup e' = dedup e /\ liveMode e' = liveMode e.
Proof. unfold reputationSkip. repeat case_match; by simplify_eq/=. Qed.

(** *** Properties *)

(** the confidence rule bans exactly when every guard passes: the address
    is public, not protected and not recently banned; there is local evidence;
    the AbuseIPDB quota is not constrained; the lookup succeeds with a score of
    at least 100; and the gate, if any, does not suppress the ban.  The
    decision is a shadow one unless the evaluator is live, and carries the
    score. *)
Theorem EvaluateConfidence_ban_iff quota now ip e :
  let d := (EvaluateConfidence quota now ip e).2 in
  let lookup := Enrich now (ParseAddr ip) manual_forensics (enricher e) in
  (ShouldBan d = true <->
    eligible ip now e /\ HasLocalEvidence ip now (burst e) = true /\ quota_constrained quota = false /\
    exists s, lookup.2 = Ok s /\ 100 <= abuseIPDBScore s /\ gate_allows now ip e) /\
  (ShouldBan d = true ->
    bd_Shadow d = negb (liveMode e) /\ bd_Confidence d >= 100 /\ bd_Reason d = "confidence_100").
Proof.
  unfold EvaluateConfidence. pose proof (guardIP_spec ip now e) as Hg.
  case_bool_decide as Hs; cbn [negb]; [|split; [split; [done|naive_solver]|done]].
  apply Hg in Hs. destruct (HasLocalEvidence ip now (burst e)); cbn [negb];
    [|split; [split; [done|naive_solver]|done]].
  destruct (quota_constrained quota); [split; [split; [done|naive_solver]|done]|].
  destruct (Enrich now (ParseAddr ip) manual_forensics (enricher e)) as [x [s|m]]; cbn [snd];
    [|split; [split; [done|naive_solver]|done]].
  destruct (Z.ltb_spec (abuseIPDBScore s) 100) as [Hlt|Hge];
    [split; [split; [done|naive_solver lia]|done]|].
  pose proof (reputationSkip_spec now ip (set_enricher e x)) as Hr.
  pose proof (reputationSkip_frame now ip confirmed_hostile (set_enricher e x)) as Hf.
  destruct (reputationSkip now ip confirmed_hostile (set_enricher e x)) as [e2 sk]. cbn [fst snd] in Hr, Hf.
  assert (sk = "" <-> gate_allows now ip e) as Hr' by exact Hr. clear Hr.
  case_bool_decide as Hsk; cbn [negb snd].
  - split.
    + split; [|done]. intros _. split_and!; try done. exists s. split_and!; try done. tauto.
    + intros _. cbn. destruct Hf as (_ & _ & _ & ->). split_and!; [done|lia|done].
  - split; [split; [done|]|done]. intros (_ & _ & _ & s' & [= <-] & _ & Hga). tauto.
Qed.

(** the burst rule bans exactly when every guard passes and more than 30
    malicious events recorded in the last 15 minutes fall in some 30-second
    interval, and the gate, if any, does not suppress the ban. *)
Theorem EvaluateBurst_ban_iff now ip e :
  let d := (EvaluateBurst now ip e).2 in
  (ShouldBan d = true <->
    eligible ip now e /\ gate_allows now ip e /\
    exists a, 30 < count_in a (30 * second)
                (List.filter (fun t => now - 15 * minute <? t) (events_of (burst e) ip))) /\
  (ShouldBan d = true -> bd_Shadow d = negb (liveMode e)).
Proof.
  unfold EvaluateBurst. pose proof (guardIP_spec ip now e) as Hg.
  case_bool_decide as Hs; cbn [negb]; [|split; [split; [done|naive_solver]|done]].
  apply Hg in Hs.
  pose proof (DetectBurst_iff ip BurstWindow BurstThreshold now (burst e) ltac:(done) ltac:(done)) as Hd.
  destruct (DetectBurst _ _ _ _ _) as [b [|]] eqn:Eb; cbn [snd negb] in *.
  - pose proof (reputationSkip_spec now ip (set_burst e b)) as Hr.
    pose proof (reputationSkip_frame now ip confirmed_hostile (set_burst e b)) as Hf.
    destruct (reputationSkip now ip confirmed_hostile (set_burst e b)) as [e2 sk].
    cbn [fst snd] in Hr, Hf.
    assert (sk = "" <-> gate_allows now ip e) as Hr' by exact Hr. clear Hr.
    case_bool_decide as Hsk; cbn [negb snd].
    + split; [|intros _; cbn; by destruct Hf as (_ & _ & _ & ->)].
      split; [|done]. intros _. split_and!; [done|tauto|]. by apply Hd.
    + split; [split; [done|]|done]. intros (_ & Hga & _). tauto.
  - split; [split; [done|]|done]. intros (_ & _ & Ha). by apply Hd in Ha.
Qed.

(** once a ban is recorded with the duration that was applied, no rule
    bans the IP again before that duration has elapsed, and the guard lifts
    exactly then; a duration that is not positive falls back to 24 hours.
    Other IPs are not affected. *)
Theorem RecordBanWithDuration_guards now ip ttl e :
  defaultTTL (dedup e) = BanDedupTTL ->
  let e' := RecordBanWithDuration now ip ttl e in
  let held := if ttl <=? 0 then 24 * hour else ttl in
  (forall now' q reason, now' < now + held ->
     ShouldBan (EvaluateConfidence q now' ip e').2 = false /\
     ShouldBan (EvaluateBurst now' ip e').2 = false /\
     ShouldBan (EvaluateExternalBurst now' ip reason e').2 = false) /\
  (forall now', now + held <= now' -> AlreadyBanned ip now' (dedup e') = false) /\
  (forall ip' now', ip' <> ip -> guardIP ip' now' e' = guardIP ip' now' e).
Proof.
  intros Hdef e' held.
  assert (forall ip' now', AlreadyBanned ip' now' (dedup e') =
            if decide (ip = ip') then now' <? now + held else AlreadyBanned ip' now' (dedup e)) as Hab.
  { intros ip' now'. subst e' held. unfold RecordBanWithDuration, MarkBannedDefaultTTL.
    destruct (ttl <=? 0); cbn [dedup set_dedup]; rewrite AlreadyBanned_mark; [by rewrite Hdef|done]. }
  split_and!.
  - intros now' q reason Hlt.
    assert (guardIP ip now' e' <> "") as Hg.
    { intros Hg. apply guardIP_spec in Hg as (_ & _ & Hb).
      rewrite Hab, decide_True in Hb by done. lia. }
    unfold EvaluateConfidence, EvaluateBurst, EvaluateExternalBurst.
    by rewrite bool_decide_false.
  - intros now' Hle. rewrite Hab, decide_True by done. lia.
  - intros ip' now' Hne. unfold guardIP. rewrite Hab, decide_False by done.
    subst e'. unfold RecordBanWithDuration. by destruct (ttl <=? 0).
Qed.

(** the reputation gate only tightens: a ban that a gated evaluator
    decides is also decided without the gate. *)
Theorem gate_only_tightens q now ip e :
  (ShouldBan (EvaluateConfidence q now ip e).2 = true ->
   ShouldBan (EvaluateConfidence q now ip (SetReputationGate e None)).2 = true) /\
  (ShouldBan (EvaluateBurst now ip e).2 = true ->
   ShouldBan (EvaluateBurst now ip (SetReputationGate e None)).2 = true).
Proof.
  unfold EvaluateConfidence, EvaluateBurst.
  assert (guardIP ip now (SetReputationGate e None) = guardIP ip now e) as -> by done.
  cbn [burst enricher SetReputationGate].
  split; repeat (case_match; simplify_eq/=); try done.
Qed.

(** the guard trims the text before parsing it but matches the trust
    registry with the text as given, so that white space in front of a
    protected public address makes it eligible: the external-burst rule then
    bans it. *)
Theorem untrimmed_bypasses_trust now reason live (enr : E) :
  let e := NewEvaluator live (Some DefaultRegistry) enr in
  ShouldBan (EvaluateExternalBurst now "173.245.48.1" reason e).2 = false /\
  ShouldBan (EvaluateExternalBurst now " 173.245.48.1" reason e).2 = true /\
  ShouldBan (EvaluateExternalBurst now "::ffff:173.245.48.1" reason e).2 = true.
Proof.
  intros e. unfold EvaluateExternalBurst.
  assert (guardIP "173.245.48.1" now e = "protected_target") as -> by (vm_compute; reflexivity).
  assert (guardIP " 173.245.48.1" now e = "") as -> by (vm_compute; reflexivity).
  assert (guardIP "::ffff:173.245.48.1" now e = "") as -> by (vm_compute; reflexivity).
  done.
Qed.

End evaluator.

(** The gate of [internal/security/reputation] is an implementation. *)
Record Gate (E : Type) := {
  gate_enricher : option E; gate_quota : option QuotaState; gate_policy : Reputation.Policy;
}.
Arguments gate_enricher {E} _.
Arguments gate_quota {E} _.
Arguments gate_policy {E} _.
Definition NewGate {E} (enr : option E) (q : option QuotaState) (p : Reputation.Policy) : Gate E :=
  {| gate_enricher := enr; gate_quota := q; gate_policy := p |}.
#[global] Instance reputation_gate {E} `{IPEnricher E} : ReputationGate (Gate E) :=
  fun now ip local g =>
    let '(enr, d) := Reputation.EvaluateBan now (gate_enricher g) (gate_quota g) (gate_policy g) ip local in
    (NewGate enr (gate_quota g) (gate_policy g), d).

Definition demo_evaluator : Evaluator (E := AbuseCheck.cachedEnricher (K := unit))
                                      (G := Gate (AbuseCheck.cachedEnricher (K := unit))) :=
  SetReputationGate
    (NewEvaluator true (Some DefaultRegistry) (AbuseCheck.NewCachedEnricher tt (6 * hour)))
    (Some (NewGate (Some (AbuseCheck.NewCachedEnricher tt (6 * hour))) None Reputation.DefaultPolicy)).

(** A locally observed event and a score of 100 lead to a ban. *)
Example confidence_ban :
  ShouldBan (EvaluateConfidence None (2 * hour) "203.0.113.7"
    (RecordMalicious {| ev_IP := "203.0.113.7"; ev_Timestamp := 2 * hour - second;
                        ev_AbuseType := "scanner"; ev_RayID := "ray" |} demo_evaluator)).2 = true.
Proof. by vm_compute. Qed.

Theorem RecordBanWithDuration_guards_witness :
  ShouldBan (EvaluateBurst (2 * hour) "203.0.113.7"
    (RecordBanWithDuration (hour + minute) "203.0.113.7" hour demo_evaluator)).2 = false.
Proof.
  apply (RecordBanWithDuration_guards (hour + minute) "203.0.113.7" hour demo_evaluator eq_refl);
    [exact None|exact ""|by vm_compute].
Defined.

End AutoBan.
