(* ===== verification/RuntimeModels.v ===== *)
(** * Runtime models and the state store

    [internal/runtime/models] (leases, epochs, the lifecycle state, the
    persisted runtime state) and [internal/runtime/state]: one JSON document
    for the process and one per scope, written atomically. *)

From S2P Require Import Prelude.

Local Open Scope Z_scope.

(** ** Models *)
Module Models.

Record Lease := {
  l_ID : string;
  l_Owner : string;
  l_Action : string;
  l_EpochID : string;
  l_ExpiresAt : Z;
  l_CreatedAt : Z;
  l_FencingToken : Z;
}.

#[export] Instance Lease_eq_dec : EqDecision Lease.
Proof. solve_decision. Defined.

Definition set_expires (t : Z) (l : Lease) : Lease :=
  {| l_ID := l_ID l; l_Owner := l_Owner l; l_Action := l_Action l; l_EpochID := l_EpochID l;
     l_ExpiresAt := t; l_CreatedAt := l_CreatedAt l; l_FencingToken := l_FencingToken l |}.

Definition IsExpired (now : Z) (l : Lease) : bool :=
  negb (is_zero_time (l_ExpiresAt l)) && t_after now (l_ExpiresAt l).

Record Epoch := {
  e_ID : string;
  e_ParentID : string;
  e_Generation : Z;
  e_SchedulerRunID : string;
  e_CreatedAt : Z;
}.

Definition zero_epoch : Epoch :=
  {| e_ID := ""; e_ParentID := ""; e_Generation := 0; e_SchedulerRunID := ""; e_CreatedAt := 0 |}.

(** [RuntimeStatus] is a string type with twelve declared values. *)
Definition StatusIdle : string := "idle".
Definition StatusDiscovering : string := "discovering".
Definition StatusPlanning : string := "planning".
Definition StatusAwaitingApproval : string := "awaiting_approval".
Definition StatusExecuting : string := "executing".
Definition StatusValidating : string := "validating".
Definition StatusConverged : string := "converged".
Definition StatusRollbackRequired : string := "rollback_required".
Definition StatusRollingBack : string := "rolling_back".
Definition StatusQuarantined : string := "quarantined".
Definition StatusFailed : string := "failed".
Definition StatusPaused : string := "paused".

Record LifecycleState := {
  lc_Status : string;
  lc_EpochID : string;
  lc_RunID : string;
  lc_BatchID : string;
  lc_PlanID : string;
  lc_StartedAt : Z;
  lc_LastUpdatedAt : Z;
  lc_Error : string;
  lc_RetryCount : Z;
}.

Definition zero_lifecycle : LifecycleState :=
  {| lc_Status := ""; lc_EpochID := ""; lc_RunID := ""; lc_BatchID := ""; lc_PlanID := "";
     lc_StartedAt := 0; lc_LastUpdatedAt := 0; lc_Error := ""; lc_RetryCount := 0 |}.

Record RuntimeState := {
  LastRunID : string;
  LastAppliedSnapshot : string;
  LastPlanID : string;
  LastSuccessAt : Z;
  IncompleteBatchID : string;
  ActiveRollbackID : string;
  CurrentEpoch : Epoch;
  ActiveLease : option Lease;
  ActiveRollbackLease : option Lease;
  LastSafeCheckpoint : string;
  Lifecycle : LifecycleState;
  Cooldowns : gmap string Z;
}.

Definition zero_state : RuntimeState :=
  {| LastRunID := ""; LastAppliedSnapshot := ""; LastPlanID := ""; LastSuccessAt := 0;
     IncompleteBatchID := ""; ActiveRollbackID := ""; CurrentEpoch := zero_epoch;
     ActiveLease := None; ActiveRollbackLease := None; LastSafeCheckpoint := "";
     Lifecycle := zero_lifecycle; Cooldowns := ∅ |}.

Definition set_epoch (e : Epoch) (s : RuntimeState) : RuntimeState :=
  {| LastRunID := LastRunID s; LastAppliedSnapshot := LastAppliedSnapshot s;
     LastPlanID := LastPlanID s; LastSuccessAt := LastSuccessAt s;
     IncompleteBatchID := IncompleteBatchID s; ActiveRollbackID := ActiveRollbackID s;
     CurrentEpoch := e; ActiveLease := ActiveLease s; ActiveRollbackLease := ActiveRollbackLease s;
     LastSafeCheckpoint := LastSafeCheckpoint s; Lifecycle := Lifecycle s; Cooldowns := Cooldowns s |}.

Definition set_leases (a r : option Lease) (s : RuntimeState) : RuntimeState :=
  {| LastRunID := LastRunID s; LastAppliedSnapshot := LastAppliedSnapshot s;
     LastPlanID := LastPlanID s; LastSuccessAt := LastSuccessAt s;
     IncompleteBatchID := IncompleteBatchID s; ActiveRollbackID := ActiveRollbackID s;
     CurrentEpoch := CurrentEpoch s; ActiveLease := a; ActiveRollbackLease := r;
     LastSafeCheckpoint := LastSafeCheckpoint s; Lifecycle := Lifecycle s; Cooldowns := Cooldowns s |}.

Definition set_lifecycle (l : LifecycleState) (s : RuntimeState) : RuntimeState :=
  {| LastRunID := LastRunID s; LastAppliedSnapshot := LastAppliedSnapshot s;
     LastPlanID := LastPlanID s; LastSuccessAt := LastSuccessAt s;
     IncompleteBatchID := IncompleteBatchID s; ActiveRollbackID := ActiveRollbackID s;
     CurrentEpoch := CurrentEpoch s; ActiveLease := ActiveLease s;
     ActiveRollbackLease := ActiveRollbackLease s; LastSafeCheckpoint := LastSafeCheckpoint s;
     Lifecycle := l; Cooldowns := Cooldowns s |}.

Definition set_cooldowns (c : gmap string Z) (s : RuntimeState) : RuntimeState :=
  {| LastRunID := LastRunID s; LastAppliedSnapshot := LastAppliedSnapshot s;
     LastPlanID := LastPlanID s; LastSuccessAt := LastSuccessAt s;
     IncompleteBatchID := IncompleteBatchID s; ActiveRollbackID := ActiveRollbackID s;
     CurrentEpoch := CurrentEpoch s; ActiveLease := ActiveLease s;
     ActiveRollbackLease := ActiveRollbackLease s; LastSafeCheckpoint := LastSafeCheckpoint s;
     Lifecycle := Lifecycle s; Cooldowns := c |}.

End Models.

(** ** State store ([internal/runtime/state/state.go])

    The directory holds at most one global document and one per scope id.  A
    save writes a temporary file and renames it: it either replaces the whole
    document or, when the disk refuses, leaves it as it was. *)
Module StateStore.
Import Models.

Record StateStore := {
  global_doc : option RuntimeState;
  scoped_docs : gmap string RuntimeState;
  disk_error : option string;   (** why writes fail at the moment, if they do *)
}.

Definition NewStateStore : StateStore :=
  {| global_doc := None; scoped_docs := ∅; disk_error := None |}.

Definition Save (st : RuntimeState) (s : StateStore) : StateStore * result unit :=
  match disk_error s with
  | Some e => (s, Err (wrap_msg "runtime.state.Save" e))
  | None => ({| global_doc := Some st; scoped_docs := scoped_docs s; disk_error := None |}, Ok tt)
  end.

Definition SaveForScope (scopeID : string) (st : RuntimeState) (s : StateStore)
  : StateStore * result unit :=
  if bool_decide (scopeID = "") then Save st s
  else match disk_error s with
       | Some e => (s, Err (wrap_msg "runtime.state.SaveForScope" e))
       | None => ({| global_doc := global_doc s; scoped_docs := <[scopeID := st]> (scoped_docs s);
                     disk_error := None |}, Ok tt)
       end.

Definition Load (s : StateStore) : RuntimeState := default zero_state (global_doc s).

Definition LoadForScope (scopeID : string) (s : StateStore) : RuntimeState :=
  if bool_decide (scopeID = "") then Load s
  else match scoped_docs s !! scopeID with
       | Some st => st
       | None => Load s
       end.

(** Scope ids in the order of the directory listing, which is by file name. *)
Definition ListScopes (s : StateStore) : list string :=
  isort str_lt (filter (fun k => k <> "") (map_to_list (scoped_docs s)).*1).

Lemma Load_Save st s s' : Save st s = (s', Ok tt) -> Load s' = st.
Proof. unfold Save. case_match; intros [= <-]. done. Qed.

Lemma Save_err st s s' m : Save st s = (s', Err m) -> s' = s.
Proof. unfold Save. case_match; intros [= <-]. done. Qed.

Lemma LoadForScope_Save scope scope' st s s' :
  SaveForScope scope st s = (s', Ok tt) ->
  LoadForScope scope s' = st /\
  (scope <> "" -> scope' <> scope -> LoadForScope scope' s' = LoadForScope scope' s).
Proof.
  unfold SaveForScope, LoadForScope. case_bool_decide as Hs.
  - intros ?%Load_Save. done.
  - case_match; intros [= <-]. cbn. rewrite lookup_insert_eq. split; [done|].
    intros _ Hne. case_bool_decide; [done|]. by rewrite lookup_insert_ne.
Qed.

End StateStore.
