(* ===== verification/Lease.v ===== *)
(** * Leases

    The lease table ([internal/storage/sqlite/lease.go]), the lease manager
    ([internal/runtime/coordination/lease.go]) written against the lease store
    interface, and the two consumers that refuse work without a valid lease:
    the fencing validator ([internal/execution/fencing.go]) and the outbox
    guard ([internal/services/reporting/outbox_lease_guard.go]). *)

From S2P Require Import Prelude RuntimeModels.
Import Models StateStore.

Local Open Scope Z_scope.

(** ** The lease store interface *)
Class LeaseStore (L : Type) := {
  GetActiveLease : Z -> string -> string -> L -> result (option Lease);
  AcquireLease : Z -> string -> Lease -> L -> result L;
  RenewLease : string -> string -> string -> string -> Z -> Z -> L -> result L;
  ReleaseLease : string -> string -> string -> L -> result L;
}.

(** ** The SQLite lease table *)
Module LeaseTable.

Record lease_row := { scope_id : string; lease : Lease }.

Record LeaseRepository := { readOnly : bool; rows : list lease_row }.

Definition NewLeaseRepository : LeaseRepository := {| readOnly := false; rows := [] |}.

Definition with_rows (r : LeaseRepository) (l : list lease_row) : LeaseRepository :=
  {| readOnly := readOnly r; rows := l |}.

Definition matches (scope action : string) (x : lease_row) : bool :=
  bool_decide (scope_id x = scope) && bool_decide (l_Action (lease x) = action).

(** The column is compared as text with [CURRENT_TIMESTAMP], which stops at the
    seconds: a lease is active through the second in which it expires. *)
Definition lt_getActive (now : Z) (scope action : string) (r : LeaseRepository)
  : result (option Lease) :=
  Ok (lease <$> List.find (fun x => matches scope action x && (sql_now now <=? l_ExpiresAt (lease x)))
                          (rows r)).

(** [ORDER BY expires_at DESC, created_at DESC]. *)
Definition lease_leb (a b : lease_row) : bool :=
  (l_ExpiresAt (lease a) <? l_ExpiresAt (lease b)) ||
  ((l_ExpiresAt (lease a) =? l_ExpiresAt (lease b)) && (l_CreatedAt (lease a) <=? l_CreatedAt (lease b))).

(** The unexpired lease of the slot, by the caller's clock. *)
Definition current_lease (now : Z) (scope action : string) (l : list lease_row) : option Lease :=
  lease <$> max_by lease_leb
    (List.filter (fun x => matches scope action x && (now <? l_ExpiresAt (lease x))) l).

(** The row inserted for a lease; [created_at] takes its default. *)
Definition inserted (now : Z) (scope : string) (l : Lease) : lease_row :=
  {| scope_id := scope;
     lease := {| l_ID := l_ID l; l_Owner := l_Owner l; l_Action := l_Action l;
                 l_EpochID := l_EpochID l; l_ExpiresAt := l_ExpiresAt l;
                 l_CreatedAt := sql_now now; l_FencingToken := l_FencingToken l |} |}.

(** The two statements of the transaction after the check: delete the slot,
    insert the lease; [lease_id] is the primary key. *)
Definition replace_slot (now : Z) (scope : string) (l : Lease) (rs : list lease_row)
  : result (list lease_row) :=
  let rest := List.filter (fun x => negb (matches scope (l_Action l) x)) rs in
  if existsb (fun x => bool_decide (l_ID (lease x) = l_ID l)) rest
  then Err "UNIQUE constraint failed: leases.lease_id"
  else Ok (rest ++ [inserted now scope l]).

Definition lt_acquire (now : Z) (scope : string) (l : Lease) (r : LeaseRepository)
  : result LeaseRepository :=
  let op := "storage.sqlite.LeaseRepository.AcquireLease" in
  (_ <-? ensureWritable op (readOnly r);
   let held := match current_lease now scope (l_Action l) (rows r) with
               | Some cur => if bool_decide (l_Owner cur = l_Owner l) then None else Some (l_Owner cur)
               | None => None
               end in
   match held with
   | Some o => Err (wrap_msg op ("lease held by " +:+ o +:+ " for " +:+ scope +:+ "/" +:+ l_Action l))
   | None => match replace_slot now scope l (rows r) with
             | Err m => Err (wrap_msg op m)
             | Ok rs => Ok (with_rows r rs)
             end
   end)%go.

Definition names (id scope owner epoch : string) (token : Z) (x : lease_row) : bool :=
  bool_decide (l_ID (lease x) = id) && bool_decide (scope_id x = scope) &&
  bool_decide (l_Owner (lease x) = owner) && bool_decide (l_EpochID (lease x) = epoch) &&
  (l_FencingToken (lease x) =? token).

Definition renew_rows (id scope owner epoch : string) (token exp : Z) (rs : list lease_row)
  : list lease_row :=
  (fun x => if names id scope owner epoch token x
            then {| scope_id := scope_id x; lease := set_expires exp (lease x) |} else x) <$> rs.

Definition lt_renew (scope id owner epoch : string) (token exp : Z) (r : LeaseRepository)
  : result LeaseRepository :=
  let op := "storage.sqlite.LeaseRepository.RenewLease" in
  (_ <-? ensureWritable op (readOnly r);
   if bool_decide (scope = "") then Err (wrap_msg op "scope_id is required")
   else if bool_decide (owner = "") then Err (wrap_msg op "owner is required")
   else if bool_decide (epoch = "") then Err (wrap_msg op "epoch_id is required")
   else if existsb (names id scope owner epoch token) (rows r)
   then Ok (with_rows r (renew_rows id scope owner epoch token exp (rows r)))
   else Err (wrap_msg op ("failed to renew lease " +:+ id +:+
               ": not found or owner/scope/epoch/fencing mismatch")))%go.

Definition lt_release (scope id owner : string) (r : LeaseRepository) : result LeaseRepository :=
  (_ <-? ensureWritable "storage.sqlite.LeaseRepository.ReleaseLease" (readOnly r);
   Ok (with_rows r (List.filter (fun x =>
         negb (bool_decide (l_ID (lease x) = id) && bool_decide (scope_id x = scope) &&
               bool_decide (l_Owner (lease x) = owner))) (rows r))))%go.

#[global] Instance lease_table : LeaseStore LeaseRepository := {|
  GetActiveLease := lt_getActive; AcquireLease := lt_acquire;
  RenewLease := lt_renew; ReleaseLease := lt_release;
|}.

(** *** Invariant: ids are unique, and so is the lease of each slot *)
Definition slot (x : lease_row) : string * string := (scope_id x, l_Action (lease x)).
Record wf (rs : list lease_row) : Prop := {
  wf_ids : NoDup ((l_ID ∘ lease) <$> rs);
  wf_slots : NoDup (slot <$> rs);
}.

Lemma matches_slot scope action x : matches scope action x = true <-> slot x = (scope, action).
Proof.
  unfold matches, slot. rewrite andb_true_iff, !bool_decide_eq_true. split; [naive_solver|by intros [= <- <-]].
Qed.

Lemma wf_slot_unique rs x y : wf rs -> x ∈ rs -> y ∈ rs -> slot x = slot y -> x = y.
Proof.
  intros [_ Hs] Hx Hy E. induction rs as [|z rs IH]; [by apply not_elem_of_nil in Hx|].
  rewrite fmap_cons, NoDup_cons in Hs. destruct Hs as [Hz Hs].
  apply elem_of_cons in Hx as [->|Hx], Hy as [->|Hy]; auto; exfalso; apply Hz.
  - rewrite E. by apply list_elem_of_fmap_2.
  - rewrite <- E. by apply list_elem_of_fmap_2.
Qed.

Lemma replace_slot_spec now scope l rs rs' :
  wf rs -> replace_slot now scope l rs = Ok rs' ->
  wf rs' /\ (forall x, x ∈ rs' <-> (x ∈ rs /\ slot x <> (scope, l_Action l)) \/ x = inserted now scope l).
Proof.
  intros Hwf. unfold replace_slot. set (rest := List.filter _ _).
  assert (Hrest : forall x, x ∈ rest <-> x ∈ rs /\ slot x <> (scope, l_Action l)).
  { intros x. unfold rest. rewrite elem_of_lfilter, negb_true_iff, <- not_true_iff_false, matches_slot. done. }
  destruct (existsb _ rest) eqn:Ee; [done|]. intros [= <-]. split.
  - destruct Hwf as [Hi Hs]. split; rewrite fmap_app; cbn; apply NoDup_app;
      (split_and!; [by apply NoDup_fmap_filter| |apply NoDup_singleton]).
    + intros id (y & -> & Hy)%list_elem_of_fmap Hid. apply list_elem_of_singleton in Hid.
      apply not_true_iff_false in Ee. apply Ee, existsb_exists. exists y.
      split; [by apply list_elem_of_In|]. apply bool_decide_eq_true. exact Hid.
    + intros sl (y & -> & Hy)%list_elem_of_fmap Hsl. apply list_elem_of_singleton in Hsl.
      apply Hrest in Hy as [_ Hne]. apply Hne. exact Hsl.
  - intros x. rewrite elem_of_app, Hrest, list_elem_of_singleton. done.
Qed.

Lemma renew_rows_fields id scope owner epoch token exp rs :
  (l_ID ∘ lease) <$> renew_rows id scope owner epoch token exp rs = (l_ID ∘ lease) <$> rs /\
  slot <$> renew_rows id scope owner epoch token exp rs = slot <$> rs.
Proof.
  unfold renew_rows. rewrite <- !list_fmap_compose.
  split; apply list_fmap_ext; intros i x _; cbn; by destruct (names _ _ _ _ _ x).
Qed.

(** *** Sequences of operations by any number of processes *)
Inductive lease_op :=
| OAcquire (now : Z) (scope : string) (l : Lease)
| ORenew (scope id owner epoch : string) (token exp : Z)
| ORelease (scope id owner : string).

Definition op_result (o : lease_op) (r : LeaseRepository) : result LeaseRepository :=
  match o with
  | OAcquire now scope l => AcquireLease now scope l r
  | ORenew scope id owner epoch token exp => RenewLease scope id owner epoch token exp r
  | ORelease scope id owner => ReleaseLease scope id owner r
  end.

(** A failed statement leaves the table as it was. *)
Definition lstep (r : LeaseRepository) (o : lease_op) : LeaseRepository :=
  match op_result o r with Ok r' => r' | Err _ => r end.

Definition op_owner (o : lease_op) : string :=
  match o with
  | OAcquire _ _ l => l_Owner l | ORenew _ _ owner _ _ _ => owner | ORelease _ _ owner => owner
  end.
Definition op_before (t : Z) (o : lease_op) : Prop :=
  match o with OAcquire now _ _ => now < t | _ => True end.

Lemma acquire_inv now scope l r r' :
  AcquireLease now scope l r = Ok r' ->
  readOnly r' = readOnly r /\
  (forall cur, current_lease now scope (l_Action l) (rows r) = Some cur -> l_Owner cur = l_Owner l) /\
  replace_slot now scope l (rows r) = Ok (rows r').
Proof.
  cbn. unfold lt_acquire. destruct (ensureWritable _ _); [|done]. cbn [rbind].
  destruct (current_lease _ _ _ _) as [cur|]; [case_bool_decide|];
    destruct (replace_slot now scope l (rows r)) as [rs|m]; intros [= <-];
    (split_and!; [done| |done]); intros ? [= <-]; done.
Qed.

Lemma lstep_wf r o : wf (rows r) -> wf (rows (lstep r o)).
Proof.
  intros Hwf. unfold lstep. destruct (op_result o r) as [r'|] eqn:E; [|done].
  destruct o as [now scope l|scope id owner epoch token exp|scope id owner]; cbn [op_result] in E.
  - apply acquire_inv in E as (_ & _ & E). by apply (replace_slot_spec _ _ _ _ _ Hwf E).
  - cbn in E. unfold lt_renew in E. destruct (ensureWritable _ _); [|done]. cbn [rbind] in E.
    repeat case_match; simplify_eq. cbn. destruct Hwf as [Hi Hs].
    destruct (renew_rows_fields id scope owner epoch token exp (rows r)) as [E1 E2].
    split; by rewrite ?E1, ?E2.
  - cbn in E. unfold lt_release in E. destruct (ensureWritable _ _); [|done]. cbn [rbind] in E.
    simplify_eq. cbn. destruct Hwf as [Hi Hs]. split; by apply NoDup_fmap_filter.
Qed.

Lemma run_wf ops : forall r, wf (rows r) -> wf (rows (foldl lstep r ops)).
Proof. induction ops as [|o ops IH]; intros r Hwf; [done|]. cbn. apply IH, lstep_wf, Hwf. Qed.

Lemma new_wf : wf (rows NewLeaseRepository).
Proof. split; cbn; apply NoDup_nil_2. Qed.

(** The unexpired lease of a slot is found. *)
Lemma current_lease_found now rs x :
  wf rs -> x ∈ rs -> now < l_ExpiresAt (lease x) ->
  current_lease now (scope_id x) (l_Action (lease x)) rs = Some (lease x).
Proof.
  intros Hwf Hin Hexp. unfold current_lease.
  set (f := fun y => matches _ _ y && _).
  assert (Hall : forall y, y ∈ List.filter f rs -> y = x).
  { intros y [Hy Hf]%elem_of_lfilter. unfold f in Hf. apply andb_true_iff in Hf as [Hm _].
    apply matches_slot in Hm. by apply (wf_slot_unique rs). }
  destruct (max_by lease_leb (List.filter f rs)) as [m|] eqn:Em.
  - apply max_by_in, Hall in Em as ->. done.
  - apply max_by_none in Em.
    assert (x ∈ List.filter f rs) as Hx; [|rewrite Em in Hx; by apply not_elem_of_nil in Hx].
    apply elem_of_lfilter. split; [done|]. unfold f. apply andb_true_iff.
    split; [by apply matches_slot|lia].
Qed.

Lemma held_refuses now r x l :
  wf (rows r) -> x ∈ rows r -> now < l_ExpiresAt (lease x) ->
  l_Action l = l_Action (lease x) -> l_Owner l <> l_Owner (lease x) ->
  is_ok (AcquireLease now (scope_id x) l r) = false.
Proof.
  intros Hwf Hin Hexp Ha Ho. destruct (AcquireLease _ _ _ _) as [r'|] eqn:E; [|done].
  apply acquire_inv in E as (_ & Hc & _). rewrite Ha in Hc.
  specialize (Hc _ (current_lease_found _ _ _ Hwf Hin Hexp)). congruence.
Qed.

(** Nobody else can remove or change an unexpired lease. *)
Lemma others_keep r o x :
  wf (rows r) -> x ∈ rows r -> op_owner o <> l_Owner (lease x) ->
  op_before (l_ExpiresAt (lease x)) o -> x ∈ rows (lstep r o).
Proof.
  intros Hwf Hin Hown Hb. unfold lstep. destruct (op_result o r) as [r'|] eqn:E; [|done].
  destruct o as [now scope l|scope id owner epoch token exp|scope id owner]; cbn in Hown, Hb.
  - pose proof E as E0. cbn [op_result] in E. apply acquire_inv in E as (_ & _ & E).
    apply (replace_slot_spec _ _ _ _ _ Hwf E). left. split; [done|]. intros [= Hs Ha].
    pose proof (held_refuses now r x l Hwf Hin Hb (eq_sym Ha) Hown) as Hno.
    cbn [op_result] in E0. rewrite Hs, E0 in Hno. done.
  - cbn in E. unfold lt_renew in E. destruct (ensureWritable _ _); [|done]. cbn [rbind] in E.
    repeat case_match; simplify_eq. cbn. unfold renew_rows. apply list_elem_of_fmap. exists x. split; [|done].
    unfold names. rewrite (bool_decide_false (l_Owner (lease x) = owner)) by congruence.
    by rewrite andb_false_r.
  - cbn in E. unfold lt_release in E. destruct (ensureWritable _ _); [|done]. cbn [rbind] in E.
    simplify_eq. cbn. apply elem_of_lfilter. split; [done|].
    rewrite (bool_decide_false (l_Owner (lease x) = owner)) by congruence. by rewrite andb_false_r.
Qed.

Lemma others_keep_run ops x : forall r,
  wf (rows r) -> x ∈ rows r -> Forall (fun o => op_owner o <> l_Owner (lease x)) ops ->
  Forall (op_before (l_ExpiresAt (lease x))) ops -> x ∈ rows (foldl lstep r ops).
Proof.
  induction ops as [|o ops IH]; intros r Hwf Hin Ho Hb; [done|]. cbn.
  inversion Ho; inversion Hb; subst. apply IH; try done; [by apply lstep_wf|by apply others_keep].
Qed.

Lemma sql_now_le now : sql_now now <= now.
Proof. unfold sql_now. pose proof (Z.mod_pos_bound now second). unfold second in *. lia. Qed.

Lemma get_active_found now r x :
  wf (rows r) -> x ∈ rows r -> sql_now now <= l_ExpiresAt (lease x) ->
  GetActiveLease now (scope_id x) (l_Action (lease x)) r = Ok (Some (lease x)).
Proof.
  intros Hwf Hin Hexp. cbn. unfold lt_getActive. set (f := fun y => _ && _).
  destruct (List.find f (rows r)) as [y|] eqn:Ef.
  - apply find_some_in in Ef as [Hy Hf]. unfold f in Hf. apply andb_true_iff in Hf as [Hm _].
    apply matches_slot in Hm. by rewrite (wf_slot_unique _ y x Hwf Hy Hin Hm).
  - exfalso. apply list_elem_of_In in Hin. pose proof (List.find_none f _ Ef x Hin) as Hn.
    unfold f in Hn. rewrite (proj2 (matches_slot _ _ x)) in Hn by done. cbn in Hn. lia.
Qed.

Lemma get_active_in now scope action r l :
  GetActiveLease now scope action r = Ok (Some l) ->
  exists x, x ∈ rows r /\ slot x = (scope, action) /\ lease x = l.
Proof.
  cbn. unfold lt_getActive. destruct (List.find _ _) as [y|] eqn:Ef; [|done]. intros [= <-].
  apply find_some_in in Ef as [Hy Hf]. apply andb_true_iff in Hf as [Hm _].
  apply matches_slot in Hm. eauto.
Qed.

(** A lease id that is not in its slot stays out of it until it is acquired
    again. *)
Definition slot_free_of (scope action id : string) (rs : list lease_row) : Prop :=
  forall x, x ∈ rs -> slot x = (scope, action) -> l_ID (lease x) <> id.

Lemma slot_free_step scope action id r o :
  wf (rows r) -> match o with OAcquire _ _ l' => l_ID l' <> id | _ => True end ->
  slot_free_of scope action id (rows r) -> slot_free_of scope action id (rows (lstep r o)).
Proof.
  intros Hwf Ho Hcl x Hx. unfold lstep in Hx.
  destruct (op_result o r) as [r'|] eqn:E; [|by apply Hcl].
  destruct o as [t sc l'|sc i owner epoch token exp|sc i owner]; cbn [op_result] in E.
  - apply acquire_inv in E as (_ & _ & E).
    apply (replace_slot_spec _ _ _ _ _ Hwf E) in Hx as [[Hx _]| ->]; [by apply Hcl|done].
  - cbn in E. unfold lt_renew in E. destruct (ensureWritable _ _); [|done].
    cbn [rbind] in E. repeat case_match; simplify_eq. cbn in Hx.
    apply list_elem_of_fmap in Hx as (y & -> & Hy). specialize (Hcl y Hy).
    by destruct (names _ _ _ _ _ y).
  - cbn in E. unfold lt_release in E. destruct (ensureWritable _ _); [|done].
    cbn [rbind] in E. simplify_eq. cbn in Hx. apply elem_of_lfilter in Hx as [Hx _]. by apply Hcl.
Qed.

Lemma slot_free_run scope action id ops :
  Forall (fun o => match o with OAcquire _ _ l' => l_ID l' <> id | _ => True end) ops ->
  forall r, wf (rows r) -> slot_free_of scope action id (rows r) ->
  slot_free_of scope action id (rows (foldl lstep r ops)).
Proof.
  induction 1 as [|o ops Ho _ IH]; intros r Hwf Hcl; [done|]. cbn.
  apply IH; [by apply lstep_wf|by apply slot_free_step].
Qed.

(** C1: mutual exclusion.  After any history of the table, once a lease of a
    scope and action is acquired, then whatever other owners do (acquire,
    renew, release, for any scope) until it expires, it remains the active
    lease of its slot and every attempt by another owner to acquire the slot
    is refused. *)
Theorem lease_mutual_exclusion past now scope l r1 ops now' l' :
  AcquireLease now scope l (foldl lstep NewLeaseRepository past) = Ok r1 ->
  Forall (fun o => op_owner o <> l_Owner l) ops -> Forall (op_before (l_ExpiresAt l)) ops ->
  now' < l_ExpiresAt l -> l_Action l' = l_Action l -> l_Owner l' <> l_Owner l ->
  let r2 := foldl lstep r1 ops in
  is_ok (AcquireLease now' scope l' r2) = false /\
  exists cur, GetActiveLease now' scope (l_Action l) r2 = Ok (Some cur) /\
    l_ID cur = l_ID l /\ l_Owner cur = l_Owner l /\ l_FencingToken cur = l_FencingToken l.
Proof.
  intros Hacq Ho Hb Hexp Ha Hown r2.
  pose proof (run_wf past _ new_wf) as Hwf0. apply acquire_inv in Hacq as (_ & _ & Hrep).
  destruct (replace_slot_spec _ _ _ _ _ Hwf0 Hrep) as [Hwf1 Hin1].
  assert (inserted now scope l ∈ rows r2) as Hx.
  { apply others_keep_run; try done. apply Hin1. by right. }
  pose proof (run_wf ops _ Hwf1) as Hwf2. split.
  - by apply (held_refuses now' r2 (inserted now scope l)).
  - exists (lease (inserted now scope l)). split; [|done].
    apply (get_active_found now' r2 (inserted now scope l)); [done..|].
    cbn. pose proof (sql_now_le now'). lia.
Qed.

End LeaseTable.

(** ** Fencing ([internal/execution/fencing.go]) *)
Module Fencing.

(** The coordination fields of a mutation operation. *)
Record MutationOperation := {
  ScopeID : string; LeaseID : string; FencingToken : Z; LeaseAction : string;
}.

Section fencing.
Context {L : Type} `{LeaseStore L}.

Record LeaseStoreFencingValidator := { leases : option L; requireFencing : bool }.

Definition fence_msg (m : string) : string :=
  wrap_msg "execution.LeaseStoreFencingValidator.ValidateMutation" m.

Definition ValidateMutation (now : Z) (op : MutationOperation) (v : LeaseStoreFencingValidator)
  : result unit :=
  match leases v with
  | None => Ok tt
  | Some ls =>
      let no_id := bool_decide (LeaseID op = "") in
      let no_token := FencingToken op =? 0 in
      if requireFencing v && bool_decide (ScopeID op = "") then
        Err (fence_msg "missing scope_id for fenced mutation")
      else if requireFencing v && (no_id || no_token) then Err (fence_msg "missing fencing metadata")
      else if no_id && no_token then Ok tt
      else if bool_decide (ScopeID op = "") then Err (fence_msg "missing scope_id for fenced mutation")
      else if no_id || no_token then Err (fence_msg "incomplete fencing metadata")
      else
        let action := if bool_decide (LeaseAction op = "") then "reconcile" else LeaseAction op in
        match GetActiveLease now (ScopeID op) action ls with
        | Err m => Err (fence_msg m)
        | Ok None => Err (fence_msg ("no active lease for scope " +:+ ScopeID op +:+ " action " +:+ action))
        | Ok (Some active) =>
            if negb (bool_decide (l_ID active = LeaseID op)) || negb (l_FencingToken active =? FencingToken op)
            then Err (fence_msg ("stale fencing token for scope " +:+ ScopeID op +:+ " action " +:+ action))
            else Ok tt
        end
  end.

Lemma ValidateMutation_fenced now op v ls :
  leases v = Some ls -> requireFencing v = true -> ValidateMutation now op v = Ok tt ->
  ScopeID op <> "" /\ LeaseID op <> "" /\ FencingToken op <> 0 /\
  exists active,
    GetActiveLease now (ScopeID op)
      (if bool_decide (LeaseAction op = "") then "reconcile" else LeaseAction op) ls = Ok (Some active) /\
    l_ID active = LeaseID op /\ l_FencingToken active = FencingToken op.
Proof.
  unfold ValidateMutation. intros -> ->. cbn [andb].
  destruct (bool_decide_reflect (ScopeID op = "")) as [|Hs]; [done|].
  destruct (bool_decide_reflect (LeaseID op = "")) as [|Hi]; [done|].
  destruct (Z.eqb_spec (FencingToken op) 0) as [|Ht]; [done|]. cbn [orb andb].
  destruct (GetActiveLease _ _ _ _) as [[active|]|m]; [|done|done].
  destruct (bool_decide_reflect (l_ID active = LeaseID op)); cbn [negb orb]; [|done].
  destruct (Z.eqb_spec (l_FencingToken active) (FencingToken op)); cbn [negb]; [|done].
  intros _. eauto 10.
Qed.
End fencing.

Lemma stale_lease_refused past now scope l r1 ops now' op :
  AcquireLease now scope l (foldl LeaseTable.lstep LeaseTable.NewLeaseRepository past) = Ok r1 ->
  LeaseID op <> l_ID l -> ScopeID op = scope ->
  (if bool_decide (LeaseAction op = "") then "reconcile" else LeaseAction op) = l_Action l ->
  Forall (fun o => match o with LeaseTable.OAcquire _ _ l' => l_ID l' <> LeaseID op | _ => True end) ops ->
  is_ok (ValidateMutation now' op
           {| leases := Some (foldl LeaseTable.lstep r1 ops); requireFencing := true |}) = false.
Proof.
  intros Hacq Hid <- Hact Hops.
  pose proof (LeaseTable.run_wf past _ LeaseTable.new_wf) as Hwf0.
  apply LeaseTable.acquire_inv in Hacq as (_ & _ & Hrep).
  destruct (LeaseTable.replace_slot_spec _ _ _ _ _ Hwf0 Hrep) as [Hwf1 Hin1].
  assert (Hclean : LeaseTable.slot_free_of (ScopeID op) (l_Action l) (LeaseID op) (LeaseTable.rows r1)).
  { intros x Hx Hs He. apply Hin1 in Hx as [[_ Hne]| ->]; [done|]. cbn in He. congruence. }
  pose proof (LeaseTable.slot_free_run _ _ _ _ Hops r1 Hwf1 Hclean) as Hclean2.
  destruct (ValidateMutation _ _ _) as [[]|m] eqn:Ev; [|done]. exfalso.
  apply (ValidateMutation_fenced _ _ _ (foldl LeaseTable.lstep r1 ops)) in Ev
    as (_ & _ & _ & a & Hg & Hida & _); [|done|done].
  rewrite Hact in Hg. apply LeaseTable.get_active_in in Hg as (x & Hx & Hs & <-).
  by apply (Hclean2 x Hx).
Qed.

(** fencing.  When fencing is required and another lease of the same scope
    and action was acquired since, a mutation that presents the old lease id is
    refused, whatever is done to the table afterwards short of acquiring with
    that old id again. *)
Theorem stale_lease_fenced past now scope l r1 ops now' op :
  AcquireLease now scope l (foldl LeaseTable.lstep LeaseTable.NewLeaseRepository past) = Ok r1 ->
  LeaseID op <> l_ID l -> ScopeID op = scope ->
  (if bool_decide (LeaseAction op = "") then "reconcile" else LeaseAction op) = l_Action l ->
  Forall (fun o => match o with LeaseTable.OAcquire _ _ l' => l_ID l' <> LeaseID op | _ => True end) ops ->
  is_ok (ValidateMutation now' op
           {| leases := Some (foldl LeaseTable.lstep r1 ops); requireFencing := true |}) = false.
Proof. apply stale_lease_refused. Qed.

End Fencing.

(** ** Outbox guard ([outbox_lease_guard.go]) *)
Module OutboxGuard.
Section guard.
Context {L : Type} `{LeaseStore L}.

Record LeaseStoreOutboxGuard := { scopeID : string; action : string; leases : option L }.

Definition NewLeaseStoreOutboxGuard (scopeID action : string) (leases : option L) : LeaseStoreOutboxGuard :=
  {| scopeID := scopeID; action := if bool_decide (action = "") then "reconcile" else action;
     leases := leases |}.

Definition guard_msg (m : string) : string :=
  wrap_msg "reporting.LeaseStoreOutboxGuard.ValidateOutboxItem" m.

Definition ValidateOutboxItem (now : Z) (g : LeaseStoreOutboxGuard) : result unit :=
  match leases g with
  | None => Err (guard_msg "missing outbox lease guard configuration")
  | Some ls =>
      if bool_decide (scopeID g = "") then Err (guard_msg "missing outbox lease guard configuration")
      else match GetActiveLease now (scopeID g) (action g) ls with
           | Err m => Err (guard_msg m)
           | Ok None => Err (guard_msg ("no active lease for scope " +:+ scopeID g +:+ " action " +:+ action g))
           | Ok (Some l) =>
               if IsExpired now l
               then Err (guard_msg ("no active lease for scope " +:+ scopeID g +:+ " action " +:+ action g))
               else Ok tt
           end
  end.
End guard.
End OutboxGuard.

(** ** Lease manager ([coordination/lease.go]) *)
Module LeaseManager.

Section manager.
Context {L : Type} `{LeaseStore L}.

Record LeaseManager := {
  store : StateStore; expiry : Z; scopeID : string; leases : option L;
}.

Definition NewLeaseManager (store : StateStore) (expiry : Z) : LeaseManager :=
  {| store := store; expiry := expiry; scopeID := ""; leases := None |}.
Definition WithLeaseStore (scope : string) (ls : option L) (m : LeaseManager) : LeaseManager :=
  {| store := store m; expiry := expiry m; scopeID := scope; leases := ls |}.
Definition HasPersistentLeaseStore (m : LeaseManager) : bool :=
  negb (bool_decide (scopeID m = "")) && match leases m with Some _ => true | None => false end.

Definition set_store (m : LeaseManager) (s : StateStore) : LeaseManager :=
  {| store := s; expiry := expiry m; scopeID := scopeID m; leases := leases m |}.
Definition set_leases_store (m : LeaseManager) (ls : option L) : LeaseManager :=
  {| store := store m; expiry := expiry m; scopeID := scopeID m; leases := ls |}.

Definition new_epoch (now : Z) (runID : string) (cur : RuntimeState) : Epoch :=
  {| e_ID := "ep-" +:+ pretty (unix_nano now);
     e_ParentID := e_ID (CurrentEpoch cur);
     e_Generation := wrap64 (e_Generation (CurrentEpoch cur) + 1);
     e_SchedulerRunID := runID;
     e_CreatedAt := now |}.

Definition new_lease (now expiry : Z) (owner action : string) (ep : Epoch) : Lease :=
  {| l_ID := "lease-" +:+ e_ID ep; l_Owner := owner; l_Action := action; l_EpochID := e_ID ep;
     l_ExpiresAt := t_add now expiry; l_CreatedAt := now; l_FencingToken := e_Generation ep |}.

Definition put_lease (action : string) (l : option Lease) (s : RuntimeState) : RuntimeState :=
  if bool_decide (action = "rollback") then set_leases (ActiveLease s) l s
  else set_leases l (ActiveRollbackLease s) s.

Definition slot_lease (action : string) (s : RuntimeState) : option Lease :=
  if bool_decide (action = "rollback") then ActiveRollbackLease s else ActiveLease s.

Definition Acquire (now : Z) (owner action runID : string) (m : LeaseManager)
  : LeaseManager * result (Lease * Epoch) :=
  let op := "runtime.coordination.Acquire" in
  let cur := Load (store m) in
  let ep := new_epoch now runID cur in
  let l := new_lease now (expiry m) owner action ep in
  let granted :=
    match leases m with
    | Some ls => match AcquireLease now (scopeID m) l ls with
                 | Ok ls' => Ok (Some ls')
                 | Err e => Err (wrap_msg op e)
                 end
    | None =>
        match slot_lease action cur with
        | Some a => if negb (IsExpired now a) && negb (bool_decide (l_Owner a = owner))
                    then Err (wrap_msg op ("lease owned by " +:+ l_Owner a +:+ " (action: " +:+ l_Action a +:+ ")"))
                    else Ok None
        | None => Ok None
        end
    end in
  match granted with
  | Err e => (m, Err e)
  | Ok ls' =>
      let '(s', r) := Save (put_lease action (Some l) (set_epoch ep cur)) (store m) in
      (set_store (set_leases_store m ls') s',
       match r with Ok _ => Ok (l, ep) | Err e => Err (wrap_msg op e) end)
  end.

Definition activeLeaseByID (st : RuntimeState) (leaseID : string) : option Lease :=
  match ActiveLease st with
  | Some l => if bool_decide (l_ID l = leaseID) then Some l
              else match ActiveRollbackLease st with
                   | Some r => if bool_decide (l_ID r = leaseID) then Some r else None
                   | None => None
                   end
  | None => match ActiveRollbackLease st with
            | Some r => if bool_decide (l_ID r = leaseID) then Some r else None
            | None => None
            end
  end.

(** The lease found is a pointer into the loaded state: extending it changes
    the slot it was found in. *)
Definition write_through (leaseID : string) (l : Lease) (st : RuntimeState) : RuntimeState :=
  match ActiveLease st with
  | Some a => if bool_decide (l_ID a = leaseID) then set_leases (Some l) (ActiveRollbackLease st) st
              else set_leases (ActiveLease st) (Some l) st
  | None => set_leases None (Some l) st
  end.

Definition Release (leaseID : string) (m : LeaseManager) : LeaseManager * result unit :=
  let op := "runtime.coordination.Release" in
  let cur := Load (store m) in
  let found :=
    match ActiveLease cur with
    | Some l => if bool_decide (l_ID l = leaseID)
                then Some (l, set_leases None (ActiveRollbackLease cur) cur) else None
    | None => None
    end in
  let found :=
    match found with
    | Some x => Some x
    | None => match ActiveRollbackLease cur with
              | Some l => if bool_decide (l_ID l = leaseID)
                          then Some (l, set_leases (ActiveLease cur) None cur) else None
              | None => None
              end
    end in
  match found with
  | None => (m, Ok tt)
  | Some (l, cur') =>
      let released := match leases m with
                      | Some ls => match ReleaseLease (scopeID m) leaseID (l_Owner l) ls with
                                   | Ok ls' => Ok (Some ls')
                                   | Err e => Err (wrap_msg op e)
                                   end
                      | None => Ok None
                      end in
      match released with
      | Err e => (m, Err e)
      | Ok ls' => let '(s', r) := Save cur' (store m) in (set_store (set_leases_store m ls') s', r)
      end
  end.

Definition Renew (now : Z) (leaseID : string) (ttl0 : Z) (m : LeaseManager)
  : LeaseManager * result unit :=
  let op := "runtime.coordination.Renew" in
  let ttl := if ttl0 <=? 0 then expiry m else ttl0 in
  if ttl <=? 0 then (m, Err (wrap_msg op "lease ttl must be positive"))
  else
    let cur := Load (store m) in
    match activeLeaseByID cur leaseID with
    | None => (m, Err (wrap_msg op ("active lease not found: " +:+ leaseID)))
    | Some l0 =>
        let l := set_expires (t_add now ttl) l0 in
        let renewed := match leases m with
                       | Some ls => match RenewLease (scopeID m) (l_ID l) (l_Owner l) (l_EpochID l)
                                            (l_FencingToken l) (l_ExpiresAt l) ls with
                                    | Ok ls' => Ok (Some ls')
                                    | Err e => Err (wrap_msg op e)
                                    end
                       | None => Ok None
                       end in
        match renewed with
        | Err e => (m, Err e)
        | Ok ls' =>
            let '(s', r) := Save (put_lease (l_Action l) (Some l) (write_through leaseID l cur)) (store m) in
            (set_store (set_leases_store m ls') s', r)
        end
    end.

(** *** Properties of the manager *)
Definition generation (m : LeaseManager) : Z := e_Generation (CurrentEpoch (Load (store m))).

Inductive mgr_op :=
| MAcquire (now : Z) (owner action runID : string)
| MRelease (leaseID : string)
| MRenew (now : Z) (leaseID : string) (ttl : Z).

(** Run one call; the token handed out, if the call is a successful acquire. *)
Definition mgr_step (m : LeaseManager) (o : mgr_op) : LeaseManager * option Z :=
  match o with
  | MAcquire now owner action runID =>
      match Acquire now owner action runID m with
      | (m', Ok (l, _)) => (m', Some (l_FencingToken l))
      | (m', Err _) => (m', None)
      end
  | MRelease id => ((Release id m).1, None)
  | MRenew now id ttl => ((Renew now id ttl m).1, None)
  end.

Fixpoint mgr_tokens (m : LeaseManager) (ops : list mgr_op) : list Z :=
  match ops with
  | [] => []
  | o :: ops' => let '(m', t) := mgr_step m o in
                 match t with Some x => x :: mgr_tokens m' ops' | None => mgr_tokens m' ops' end
  end.

Lemma put_lease_epoch action l s : CurrentEpoch (put_lease action l s) = CurrentEpoch s.
Proof. unfold put_lease. by case_bool_decide. Qed.

Lemma write_through_epoch id l s : CurrentEpoch (write_through id l s) = CurrentEpoch s.
Proof. unfold write_through. repeat case_match; done. Qed.

Lemma Save_Load st s : (Save st s).2 = Ok tt /\ Load (Save st s).1 = st \/
                       is_ok (Save st s).2 = false /\ (Save st s).1 = s.
Proof. unfold Save. case_match; cbn; auto. Qed.

Lemma Acquire_cases now owner action runID m m' r :
  Acquire now owner action runID m = (m', r) ->
  match r with
  | Err _ => store m' = store m
  | Ok (l, ep) =>
      ep = new_epoch now runID (Load (store m)) /\
      l = new_lease now (expiry m) owner action ep /\
      Load (store m') = put_lease action (Some l) (set_epoch ep (Load (store m)))
  end.
Proof.
  unfold Acquire. destruct (match leases m with Some _ => _ | None => _ end) as [ls'|e];
    [|by intros [= <- <-]].
  set (st := put_lease _ _ _). destruct (Save_Load st (store m)) as [[E1 E2]|[E1 E2]];
    destruct (Save st (store m)) as [s' [[]|e]]; cbn in E1, E2; try done; intros [= <- <-]; done.
Qed.

Lemma Release_epoch id m : CurrentEpoch (Load (store (Release id m).1)) = CurrentEpoch (Load (store m)).
Proof.
  unfold Release. set (found := match _ with Some x => Some x | None => _ end).
  assert (forall l c, found = Some (l, c) -> CurrentEpoch c = CurrentEpoch (Load (store m))) as Hf.
  { intros l c. unfold found. repeat case_match; by intros; simplify_eq. }
  destruct found as [[l c]|]; [|done]. specialize (Hf l c eq_refl).
  destruct (match leases m with Some _ => _ | None => _ end); [|done].
  destruct (Save_Load c (store m)) as [[E1 E2]|[E1 E2]]; destruct (Save c (store m)) as [s' r];
    cbn in *; by rewrite E2.
Qed.

Lemma Renew_epoch now id ttl m :
  CurrentEpoch (Load (store (Renew now id ttl m).1)) = CurrentEpoch (Load (store m)).
Proof.
  unfold Renew. case_match; [done|]. destruct (activeLeaseByID _ _) as [l|]; [|done].
  destruct (match leases m with Some _ => _ | None => _ end); [|done]. set (st := put_lease _ _ _).
  assert (CurrentEpoch st = CurrentEpoch (Load (store m))) as Hst
    by (unfold st; by rewrite put_lease_epoch, write_through_epoch).
  destruct (Save_Load st (store m)) as [[E1 E2]|[E1 E2]]; destruct (Save st (store m)) as [s' r];
    cbn in *; by rewrite E2.
Qed.

Lemma mgr_step_generation m o :
  int64_min <= generation m < int64_max ->
  match mgr_step m o with
  | (m', Some t) => t = generation m + 1 /\ generation m' = generation m + 1
  | (m', None) => generation m' = generation m
  end.
Proof.
  intros Hg. destruct o as [now owner action runID|id|now id ttl]; cbn [mgr_step].
  - destruct (Acquire now owner action runID m) as [m' [[l ep]|e]] eqn:E;
      apply Acquire_cases in E; unfold generation in *; [|by rewrite E].
    destruct E as (-> & -> & ->). rewrite put_lease_epoch. cbn. rewrite wrap64_small; [done|].
    unfold int64_min, int64_max in *. lia.
  - unfold generation. by rewrite Release_epoch.
  - unfold generation. by rewrite Renew_epoch.
Qed.

Lemma mgr_tokens_above ops : forall m,
  int64_min <= generation m -> generation m + Z.of_nat (length ops) <= int64_max ->
  StronglySorted Z.lt (mgr_tokens m ops) /\ Forall (fun t => generation m < t) (mgr_tokens m ops).
Proof.
  induction ops as [|o ops IH]; intros m Hlo Hhi; [split; constructor|]. cbn [length] in Hhi. cbn [mgr_tokens].
  pose proof (mgr_step_generation m o ltac:(lia)) as Hs.
  destruct (mgr_step m o) as [m' [t|]].
  - destruct Hs as [-> Hg']. destruct (IH m') as [Hss Hall]; [lia..|]. rewrite Hg' in Hall. split.
    + constructor; done.
    + constructor; [lia|]. eapply Forall_impl; [exact Hall|]. cbn. lia.
  - destruct (IH m') as [Hss Hall]; [lia..|]. by rewrite Hs in Hall.
Qed.

(** the fencing tokens a manager hands out through any sequence of
    acquires, releases and renewals (with or without a lease store, whatever
    fails in between) strictly increase, as long as the epoch counter does not
    reach the top of its 64 bits. *)
Theorem tokens_increase m ops :
  0 <= generation m -> generation m + Z.of_nat (length ops) <= int64_max ->
  StronglySorted Z.lt (mgr_tokens m ops) /\ Forall (fun t => generation m < t) (mgr_tokens m ops).
Proof. intros Hlo Hhi. apply mgr_tokens_above; [unfold int64_min; lia|done]. Qed.

(** without a lease store, an unexpired lease recorded in the state bars
    every other owner from the same action, and the refusal changes nothing;
    its own owner, or anybody once it expired, acquires a fresh one. *)
Theorem local_exclusion now owner action runID m held :
  leases m = None -> disk_error (store m) = None ->
  slot_lease action (Load (store m)) = Some held ->
  if negb (IsExpired now held) && negb (bool_decide (l_Owner held = owner))
  then exists e, Acquire now owner action runID m = (m, Err e)
  else exists m' l ep, Acquire now owner action runID m = (m', Ok (l, ep)) /\
         l_Owner l = owner /\ slot_lease action (Load (store m')) = Some l /\
         l_FencingToken l = e_Generation (CurrentEpoch (Load (store m'))).
Proof.
  intros Hls Hdisk Hslot. unfold Acquire. rewrite Hls, Hslot.
  destruct (negb (IsExpired now held) && _); [by eexists|].
  unfold Save. rewrite Hdisk. eexists _, _, _. split_and!; [done|done| |].
  - cbn. unfold slot_lease, put_lease. by case_bool_decide.
  - cbn. by rewrite put_lease_epoch.
Qed.
End manager.

Definition demo_manager : LeaseManager (L := LeaseTable.LeaseRepository) :=
  NewLeaseManager NewStateStore minute.

Theorem tokens_increase_witness :
  mgr_tokens demo_manager [MAcquire hour "a" "reconcile" "r1"; MAcquire (hour + second) "b" "reconcile" "r2";
                           MAcquire (2 * hour) "b" "reconcile" "r3"] = [1; 2] /\
  StronglySorted Z.lt (mgr_tokens demo_manager
    [MAcquire hour "a" "reconcile" "r1"; MAcquire (hour + second) "b" "reconcile" "r2";
     MAcquire (2 * hour) "b" "reconcile" "r3"]).
Proof. split; [by vm_compute|]. apply (tokens_increase demo_manager); by vm_compute. Defined.

Theorem local_exclusion_witness :
  exists e, (Acquire (hour + second) "b" "reconcile" "r2"
               (Acquire hour "a" "reconcile" "r1" demo_manager).1).2 = Err e.
Proof.
  destruct (local_exclusion (hour + second) "b" "reconcile" "r2"
              (Acquire hour "a" "reconcile" "r1" demo_manager).1
              (new_lease hour minute "a" "reconcile" (new_epoch hour "r1" zero_state))
              eq_refl eq_refl eq_refl) as [e He].
  exists e. by rewrite He.
Defined.

End LeaseManager.

(** ** Statements on the shared connection

    [AcquireLease] issues BEGIN, a query, two writes and COMMIT as separate
    statements on the process's only connection ([SetMaxOpenConns(1)]), which
    other goroutines use between them. *)
Module SharedConn.
Import LeaseTable.

Record conn := { committed : list lease_row; tx : option (list lease_row) }.

(** What a statement sees: the open transaction's rows, whoever opened it. *)
Definition view (c : conn) : list lease_row := default (committed c) (tx c).
Definition write (rs : list lease_row) (c : conn) : conn :=
  match tx c with
  | Some _ => {| committed := committed c; tx := Some rs |}
  | None => {| committed := rs; tx := None |}
  end.
Definition begin_tx (c : conn) : result conn :=
  match tx c with
  | Some _ => Err "cannot start a transaction within a transaction"
  | None => Ok {| committed := committed c; tx := Some (committed c) |}
  end.
Definition commit_tx (c : conn) : conn := {| committed := view c; tx := None |}.
Definition rollback_tx (c : conn) : conn := {| committed := committed c; tx := None |}.

(** The steps of [AcquireLease] after BEGIN: the check decides between the
    writes with COMMIT and ROLLBACK. *)
Definition acquire_check (now : Z) (scope : string) (l : Lease) (c : conn) : bool :=
  match current_lease now scope (l_Action l) (view c) with
  | Some cur => bool_decide (l_Owner cur = l_Owner l)
  | None => true
  end.
Definition acquire_finish (now : Z) (scope : string) (l : Lease) (allowed : bool) (c : conn)
  : conn * bool :=
  if allowed then
    match replace_slot now scope l (view c) with
    | Ok rs => (commit_tx (write rs c), true)
    | Err _ => (rollback_tx c, false)
    end
  else (rollback_tx c, false).
Definition renew_stmt (scope id owner epoch : string) (token exp : Z) (c : conn) : conn * bool :=
  if existsb (names id scope owner epoch token) (view c)
  then (write (renew_rows id scope owner epoch token exp (view c)) c, true) else (c, false).

Definition acquire_alone (now : Z) (scope : string) (l : Lease) (c : conn) : conn * bool :=
  match begin_tx c with
  | Err _ => (c, false)
  | Ok c1 => acquire_finish now scope l (acquire_check now scope l c1) c1
  end.

(** with no statement of another goroutine in between, the transaction is
    the atomic [AcquireLease]: same verdict, same table. *)
Theorem acquire_alone_atomic now scope l rs :
  acquire_alone now scope l {| committed := rs; tx := None |} =
  match AcquireLease now scope l {| readOnly := false; rows := rs |} with
  | Ok r' => ({| committed := rows r'; tx := None |}, true)
  | Err _ => ({| committed := rs; tx := None |}, false)
  end.
Proof.
  change (AcquireLease now scope l) with (lt_acquire now scope l).
  unfold acquire_alone, begin_tx, acquire_check, lt_acquire, acquire_finish, ensureWritable, view.
  cbn [tx committed from_option id readOnly rows rbind].  change (id rs) with rs.
  destruct (current_lease now scope (l_Action l) rs) as [cur|].
  - destruct (bool_decide (l_Owner cur = l_Owner l)); [|done]. by destruct (replace_slot now scope l rs).
  - by destruct (replace_slot now scope l rs).
Qed.

(** a renewal that runs between the BEGIN and the ROLLBACK of a refused
    acquire reports success and is then lost. *)
Theorem renew_lost_in_rollback now scope l rs id owner epoch token exp c1 c2 :
  begin_tx {| committed := rs; tx := None |} = Ok c1 ->
  acquire_check now scope l c1 = false ->
  renew_stmt scope id owner epoch token exp c1 = (c2, true) ->
  committed (acquire_finish now scope l false c2).1 = rs /\ tx (acquire_finish now scope l false c2).1 = None.
Proof.
  intros [= <-] _. unfold renew_stmt. cbn. case_match; intros [= <-]. done.
Qed.

Definition demo_lease (owner id : string) (exp : Z) : Lease :=
  {| l_ID := id; l_Owner := owner; l_Action := "reconcile"; l_EpochID := "ep"; l_ExpiresAt := exp;
     l_CreatedAt := 0; l_FencingToken := 7 |}.
Definition demo_rows : list lease_row := [{| scope_id := "s"; lease := demo_lease "a" "la" (2 * hour) |}].

Theorem renew_lost_in_rollback_witness :
  let c1 := {| committed := demo_rows; tx := Some demo_rows |} in
  (renew_stmt "s" "la" "a" "ep" 7 (9 * hour) c1).2 = true /\
  committed (acquire_finish hour "s" (demo_lease "b" "lb" (3 * hour)) false
               (renew_stmt "s" "la" "a" "ep" 7 (9 * hour) c1).1).1 = demo_rows.
Proof.
  split; [by vm_compute|].
  apply (renew_lost_in_rollback hour "s" (demo_lease "b" "lb" (3 * hour)) demo_rows "la" "a" "ep" 7 (9 * hour)
           {| committed := demo_rows; tx := Some demo_rows |}); by vm_compute.
Defined.

Theorem lease_mutual_exclusion_witness :
  is_ok (AcquireLease (hour + minute) "s" (demo_lease "b" "lb" (3 * hour))
    (foldl lstep {| readOnly := false; rows := [inserted hour "s" (demo_lease "a" "la" (2 * hour))] |}
       [ORelease "s" "la" "b"])) = false.
Proof.
  apply (lease_mutual_exclusion [] hour "s" (demo_lease "a" "la" (2 * hour)) _
           [ORelease "s" "la" "b"] (hour + minute) (demo_lease "b" "lb" (3 * hour))).
  - reflexivity.
  - repeat constructor. by vm_compute.
  - repeat constructor.
  - by vm_compute.
  - reflexivity.
  - by vm_compute.
Defined.

Theorem stale_lease_fenced_witness :
  is_ok (Fencing.ValidateMutation (3 * hour)
    {| Fencing.ScopeID := "s"; Fencing.LeaseID := "la"; Fencing.FencingToken := 7; Fencing.LeaseAction := "" |}
    {| Fencing.leases := Some {| readOnly := false;
         rows := [inserted (3 * hour) "s" (demo_lease "b" "lb" (4 * hour))] |};
       Fencing.requireFencing := true |}) = false.
Proof.
  apply (Fencing.stale_lease_fenced [OAcquire hour "s" (demo_lease "a" "la" (2 * hour))] (3 * hour) "s"
           (demo_lease "b" "lb" (4 * hour)) _ []); try reflexivity; by vm_compute.
Defined.

End SharedConn.

(** ** Heartbeat ([coordination/heartbeat.go]) *)
Module Heartbeat.

Record HeartbeatConfig := { Interval : Z; TTL : Z; FailureThreshold : Z }.

(** The defaults [StartHeartbeat] fills in; [expiry / 2] truncates. *)
Definition normalize (expiry : Z) (cfg : HeartbeatConfig) : HeartbeatConfig :=
  let i := if Interval cfg <=? 0 then Z.quot expiry 2 else Interval cfg in
  let i := if i <=? 0 then second else i in
  let t := if TTL cfg <=? 0 then expiry else TTL cfg in
  let t := if t <=? 0 then i * 2 else t in
  {| Interval := i; TTL := t;
     FailureThreshold := if FailureThreshold cfg <=? 0 then 3 else FailureThreshold cfg |}.

Definition minDuration (left right : Z) : Z :=
  if left <=? 0 then right else if (right <=? 0) || (left <? right) then left else right.

(** The loop over the ticks: each renews the lease; [Some e] when the lease is
    reported lost, with the error of the last renewal. *)
Fixpoint heartbeat_loop (threshold failures : Z) (ticks : list (result unit)) : option string :=
  match ticks with
  | [] => None
  | Ok _ :: ticks' => heartbeat_loop threshold 0 ticks'
  | Err e :: ticks' =>
      let failures' := failures + 1 in
      if threshold <=? failures' then Some e else heartbeat_loop threshold failures' ticks'
  end.

(** The last [n] renewals of a list all failed. *)
Definition fails (r : result unit) : bool := negb (is_ok r).

Lemma heartbeat_loop_some threshold failures ticks e :
  0 <= failures < threshold -> heartbeat_loop threshold failures ticks = Some e ->
  exists pre mid post, ticks = pre ++ mid ++ [Err e] ++ post /\ Forall (fun r => fails r = true) mid /\
    (Z.of_nat (length mid) + 1 = threshold \/
     pre = [] /\ Z.of_nat (length mid) + 1 + failures = threshold).
Proof.
  revert failures. induction ticks as [|[u|m] ticks IH]; intros failures Hf; cbn [heartbeat_loop]; [done| |].
  - intros H. destruct (IH 0) as (pre & mid & post & -> & Hm & Hl); [lia|done|].
    exists (Ok u :: pre), mid, post. split_and!; [done|done|]. left. destruct Hl as [?|[_ ?]]; lia.
  - destruct (Z.leb_spec threshold (failures + 1)).
    + intros [= <-]. exists [], [], ticks. split_and!; [done|constructor|]. right. split; [done|]. cbn. lia.
    + intros Hh. destruct (IH (failures + 1)) as (pre & mid & post & -> & Hm & Hl); [lia|done|].
      destruct Hl as [Hl|[-> Hl]].
      * exists (Err m :: pre), mid, post. auto.
      * exists [], (Err m :: mid), post. cbn. split_and!; [done|by constructor|]. right. split; [done|lia].
Qed.

Lemma heartbeat_loop_fails threshold mid : forall failures post e,
  0 <= failures < threshold -> Forall (fun r => fails r = true) mid ->
  threshold <= failures + Z.of_nat (length mid) + 1 ->
  is_Some (heartbeat_loop threshold failures (mid ++ [Err e] ++ post)).
Proof.
  induction mid as [|r mid IH]; intros failures post e Hf Hm Hl; cbn in Hl.
  - cbn. replace (threshold <=? failures + 1) with true by lia. eauto.
  - inversion Hm as [|? ? Hr Hm']; subst. destruct r as [|m]; [done|]. cbn [app heartbeat_loop].
    destruct (Z.leb_spec threshold (failures + 1)); [eauto|]. apply IH; [lia|done|lia].
Qed.

Lemma heartbeat_loop_some_or ticks1 : forall threshold failures ticks2,
  0 <= failures < threshold ->
  is_Some (heartbeat_loop threshold failures ticks1) \/
  exists f, 0 <= f < threshold /\
    heartbeat_loop threshold failures (ticks1 ++ ticks2) = heartbeat_loop threshold f ticks2.
Proof.
  induction ticks1 as [|[u|m] ticks1 IH]; intros threshold failures ticks2 Hf; cbn.
  - right. eauto.
  - apply IH. lia.
  - destruct (Z.leb_spec threshold (failures + 1)); [eauto|]. apply IH. lia.
Qed.

Lemma heartbeat_loop_prefix ticks1 ticks2 threshold failures :
  is_Some (heartbeat_loop threshold failures ticks1) ->
  heartbeat_loop threshold failures (ticks1 ++ ticks2) = heartbeat_loop threshold failures ticks1.
Proof.
  revert failures. induction ticks1 as [|[u|m] ticks1 IH]; intros failures; cbn; [by intros [? ?]|auto|].
  destruct (threshold <=? failures + 1); auto.
Qed.

(** the heartbeat reports the lease lost exactly when as many renewals in
    a row as the normalised threshold have failed; the normalised settings are
    positive, and with the default interval and time to live a renewal is due
    before the lease runs out. *)
Theorem heartbeat_lost_iff expiry cfg ticks :
  let c := normalize expiry cfg in
  let n := Z.to_nat (FailureThreshold c) in
  (is_Some (heartbeat_loop (FailureThreshold c) 0 ticks) <->
   exists pre run post, ticks = pre ++ run ++ post /\ length run = n /\
     Forall (fun r => fails r = true) run) /\
  0 < Interval c /\ 0 < TTL c /\ 0 < FailureThreshold c /\
  (Interval cfg <= 0 /\ TTL cfg <= 0 /\ expiry > 1 -> Interval c < TTL c).
Proof.
  intros c n. assert (0 < FailureThreshold c) as Hth by (subst c; cbn; case_match; lia).
  split_and!.
  - split.
    + intros [e He]. destruct (heartbeat_loop_some _ _ _ _ (conj (Z.le_refl 0) Hth) He)
        as (pre & mid & post & -> & Hm & Hl).
      exists pre, (mid ++ [Err e]), post. rewrite <- app_assoc. split_and!; [done| |].
      * rewrite length_app. cbn. subst n. lia.
      * apply Forall_app. split; [done|by repeat constructor].
    + intros (pre & run & post & -> & Hlen & Hrun).
      destruct run as [|[u|e] run _] using rev_ind.
      { cbn in Hlen. subst n. lia. }
      { apply Forall_app in Hrun as [_ Hr]. inversion Hr; done. }
      apply Forall_app in Hrun as [Hrun _]. rewrite length_app in Hlen. cbn in Hlen.
      rewrite <- app_assoc.
      destruct (heartbeat_loop_some_or pre (FailureThreshold c) 0 (run ++ [Err e] ++ post) ltac:(lia))
        as [Hs|(f & Hf & ->)].
      * by rewrite heartbeat_loop_prefix.
      * apply heartbeat_loop_fails; [done|done|]. subst n. lia.
  - subst c. cbn. repeat case_match; unfold second; lia.
  - subst c. cbn. repeat case_match; unfold second; lia.
  - done.
  - intros (Hi & Ht & He). subst c. cbn. replace (Interval cfg <=? 0) with true by lia.
    replace (TTL cfg <=? 0) with true by lia. replace (expiry <=? 0) with false by lia.
    pose proof (Z.quot_lt expiry 2). case_match; [|lia].
    assert (1 <= expiry ÷ 2); [|lia]. apply Z.quot_le_lower_bound; lia.
Qed.

End Heartbeat.
