(* ===== verification/Reports.v ===== *)
(** * AbuseIPDB reports

    The report payload ([internal/abuseipdb/models]), the aggregation of
    reports for one IP ([internal/services/reporting/report_aggregate.go]) and
    the canonical comment ([internal/security/abuseformat]).  [float64] values
    are binary64 numbers of the Standard Library's [SpecFloat]. *)

From Stdlib Require Import SpecFloat.
From S2P Require Import Prelude GoFmt.

Local Open Scope Z_scope.

(** ** binary64 *)
Module F64.
Definition prec : Z := 53.
Definition emax : Z := 1024.
Definition float64 := spec_float.
Definition zero : float64 := S754_zero false.
Definition of_int (z : Z) : float64 := binary_normalize prec emax z 0 false.
Definition add : float64 -> float64 -> float64 := SFadd prec emax.
Definition div : float64 -> float64 -> float64 := SFdiv prec emax.
Definition mul : float64 -> float64 -> float64 := SFmul prec emax.
Definition sub : float64 -> float64 -> float64 := SFsub prec emax.
Definition gtb (a b : float64) : bool := SFltb b a.
Definition is_finite (a : float64) : bool :=
  match a with S754_zero _ | S754_finite _ _ _ => true | _ => false end.

(** The conversion to an integer drops the fraction; out of range it is not
    specified by Go, and not used here. *)
Definition trunc (a : float64) : Z :=
  match a with
  | S754_finite s m e => let n := if 0 <=? e then Zpos m * 2 ^ e else Zpos m / 2 ^ (- e) in if s then - n else n
  | _ => 0
  end.

(** [n / d] rounded to the nearest integer, ties to even. *)
Definition round_even (n d : Z) : Z :=
  let q := n `div` d in
  let r := n `mod` d in
  if 2 * r <? d then q
  else if d <? 2 * r then q + 1
  else if Z.even q then q else q + 1.

(** [%.2f]. *)
Definition fmt_2f (a : float64) : string :=
  let body (s : bool) (n : Z) :=
    (if s then "-" else "") +:+ GoFmt.fmt_d (n `div` 100) +:+ "." +:+ GoFmt.pad 2 (n `mod` 100) in
  match a with
  | S754_nan => "NaN"
  | S754_infinity s => if s then "-Inf" else "+Inf"
  | S754_zero s => body s 0
  | S754_finite s m e =>
      body s (if 0 <=? e then Zpos m * 2 ^ e * 100 else round_even (Zpos m * 100) (2 ^ (- e)))
  end.

Example fmt_2f_ex :
  fmt_2f (div (of_int 1) (of_int 3)) = "0.33" /\ fmt_2f (div (of_int 7) (of_int 8)) = "0.88" /\
  fmt_2f (of_int 95) = "95.00".
Proof. by vm_compute. Qed.
End F64.
Import F64.

(** ** Comment ([abuseformat/format.go]) *)
Module AbuseFormat.

Definition maxCommentLength : nat := 300.
Definition maxURIs : nat := 5.

Definition SourceCrowdSecWAF : string := "crowdsec_waf".
Definition SourceOpenRestyWAF : string := "openresty_waf".
Definition SourceCloudflareWAF : string := "cloudflare_waf".
Definition SourceNginxError : string := "nginx_http_error".

Record Input := {
  Source : string; Hits : Z; WindowSec : Z; Action : string; AbuseType : string;
  Categories : list string; RuleID : string; URIs : list string; Confidence : float64;
}.

Definition sourcePrefix (source : string) : string :=
  if bool_decide (source = SourceCrowdSecWAF) then "CrowdSec WAF"
  else if bool_decide (source = SourceOpenRestyWAF) then "OpenResty WAF"
  else if bool_decide (source = SourceNginxError) then "Nginx HTTP Error"
  else "Cloudflare WAF".

(** The loop of both normalisations: trimmed, not empty, first occurrence. *)
Fixpoint unique_loop (seen : gset string) (l : list string) : list string :=
  match l with
  | [] => []
  | x :: l' =>
      let v := trim_space x in
      if bool_decide (v = "") || bool_decide (v ∈ seen) then unique_loop seen l'
      else v :: unique_loop ({[v]} ∪ seen) l'
  end.

Definition normalizeCategories (l : list string) : list string := isort str_lt (unique_loop ∅ l).
Definition normalizeURIs (l : list string) : list string :=
  take maxURIs (isort str_lt (unique_loop ∅ l)).

Fixpoint take_bytes (n : nat) (s : string) : string :=
  match n, s with
  | S n', String a s' => String a (take_bytes n' s')
  | _, _ => ""
  end.

(** The ellipsis is three bytes long. *)
Definition ellipsis : string := bytes_str [226; 128; 166]%N.

Definition full_comment (inp : Input) : string :=
  let rule := if bool_decide (RuleID inp = "") then "unknown" else RuleID inp in
  sourcePrefix (Source inp) +:+ ": " +:+ GoFmt.fmt_d (Hits inp) +:+ " hits in " +:+
  GoFmt.fmt_d (WindowSec inp) +:+ "s | action=" +:+ Action inp +:+ " | abuse=" +:+ AbuseType inp +:+
  " | categories=" +:+ str_join "," (normalizeCategories (Categories inp)) +:+
  " | rule_id=" +:+ rule +:+ " | URIs=" +:+ str_join "," (normalizeURIs (URIs inp)) +:+
  " | confidence=" +:+ fmt_2f (Confidence inp).

Definition Build (inp : Input) : string :=
  let comment := full_comment inp in
  if (maxCommentLength <? String.length comment)%nat
  then take_bytes (maxCommentLength - 1) comment +:+ ellipsis else comment.

Lemma take_bytes_length n s : String.length (take_bytes n s) = Nat.min n (String.length s).
Proof.
  revert s. induction n as [|n IH]; intros [|a s]; try done. cbn. by rewrite IH.
Qed.

(** the comment is the full text when that fits in 300 bytes; otherwise
    the text is cut to 299 bytes and the ellipsis takes three more, so that a
    cut comment has 302 bytes, two above the limit it is cut for. *)
Theorem Build_length inp :
  ((String.length (full_comment inp) <= maxCommentLength)%nat -> Build inp = full_comment inp) /\
  ((maxCommentLength < String.length (full_comment inp))%nat ->
   String.length (Build inp) = 302%nat).
Proof.
  unfold Build. split; intros Hl.
  - destruct (Nat.ltb_spec maxCommentLength (String.length (full_comment inp))); [lia|done].
  - destruct (Nat.ltb_spec maxCommentLength (String.length (full_comment inp))); [|lia].
    rewrite str_length_app, take_bytes_length. unfold maxCommentLength in *.
    rewrite Nat.min_l by lia. done.
Qed.

Lemma unique_loop_in seen l v :
  v ∈ unique_loop seen l <-> (v <> "") /\ (v ∉ seen) /\ exists x, x ∈ l /\ trim_space x = v.
Proof.
  revert seen. induction l as [|x l IH]; intros seen; cbn [unique_loop].
  - split; [by intros ?%not_elem_of_nil|]. intros (_ & _ & x & Hx & _). by apply not_elem_of_nil in Hx.
  - destruct (bool_decide_reflect (trim_space x = "")) as [Hx|Hx]; cbn [orb].
    + rewrite IH. setoid_rewrite elem_of_cons. naive_solver.
    + destruct (bool_decide_reflect (trim_space x ∈ seen)) as [Hs|Hs].
      * rewrite IH. setoid_rewrite elem_of_cons. naive_solver.
      * rewrite elem_of_cons, IH. setoid_rewrite elem_of_cons.
        destruct (decide (v = trim_space x)) as [->|Hne]; [naive_solver|]. set_solver.
Qed.

Lemma unique_loop_NoDup seen l : NoDup (unique_loop seen l).
Proof.
  revert seen. induction l as [|x l IH]; intros seen; cbn [unique_loop]; [apply NoDup_nil_2|].
  case_match; [done|]. constructor; [|done]. rewrite unique_loop_in. set_solver.
Qed.

End AbuseFormat.

(** ** Aggregation ([report_aggregate.go]) *)
Module Reports.
Import AbuseFormat.

Record ExecutableReport := {
  ExecutionID : string;
  StableIdentityKey : string;
  rp_IP : string;
  rp_Source : string;
  rp_AbuseType : string;
  rp_Categories : string;
  Comment : string;
  rp_Action : string;
  OriginatingOpID : string;
  rp_CreatedAt : Z;
  rp_Hits : Z;
  rp_WindowSec : Z;
  rp_URIs : list string;
  RuleIDs : list string;
  Sources : list string;
  ConfidenceSum : float64;
  ConfidenceCount : Z;
  ConfidenceMax : float64;
}.

Definition maxIntLocal (a b : Z) : Z := if b <? a then a else b.

Definition splitCSV (value : string) : list string :=
  if bool_decide (trim_space value = "") then []
  else filter (fun p => p <> "") (trim_space <$> str_split "," value).

Definition mergeUnique (values : list (list string)) : list string := unique_loop ∅ (List.concat values).

Definition mergeCSV (existing incoming : string) : string :=
  str_join "," (mergeUnique [splitCSV existing; splitCSV incoming]).

Definition aggregatedAbuseComment (r : ExecutableReport) : string :=
  let confidence := if 0 <? ConfidenceCount r
                    then div (ConfidenceSum r) (of_int (ConfidenceCount r)) else ConfidenceMax r in
  let action := if bool_decide (trim_space (rp_Action r) = "") then "block" else trim_space (rp_Action r) in
  let source := if bool_decide (rp_Source r = "") then SourceCloudflareWAF else rp_Source r in
  Build {| Source := source; Hits := rp_Hits r; WindowSec := maxIntLocal 1 (rp_WindowSec r);
           Action := action; AbuseType := rp_AbuseType r;
           Categories := isort str_lt (splitCSV (rp_Categories r));
           RuleID := default "" (head (RuleIDs r)); URIs := isort str_lt (rp_URIs r);
           Confidence := confidence |}.

Definition first_nonempty (a b : string) : string := if bool_decide (a = "") then b else a.

Definition merge_action (existing incoming : string) : string :=
  if bool_decide (existing = "") then incoming
  else if negb (bool_decide (incoming = "")) &&
          negb (str_contains ("," +:+ existing +:+ ",") ("," +:+ incoming +:+ ","))
  then existing +:+ "," +:+ incoming else existing.

Definition merge_created (existing incoming : Z) : Z :=
  if is_zero_time existing || (negb (is_zero_time incoming) && t_before incoming existing)
  then incoming else existing.

Definition with_comment (c : string) (r : ExecutableReport) : ExecutableReport :=
  {| ExecutionID := ExecutionID r; StableIdentityKey := StableIdentityKey r; rp_IP := rp_IP r;
     rp_Source := rp_Source r; rp_AbuseType := rp_AbuseType r; rp_Categories := rp_Categories r;
     Comment := c; rp_Action := rp_Action r; OriginatingOpID := OriginatingOpID r;
     rp_CreatedAt := rp_CreatedAt r; rp_Hits := rp_Hits r; rp_WindowSec := rp_WindowSec r;
     rp_URIs := rp_URIs r; RuleIDs := RuleIDs r; Sources := Sources r;
     ConfidenceSum := ConfidenceSum r; ConfidenceCount := ConfidenceCount r;
     ConfidenceMax := ConfidenceMax r |}.

Definition MergeExecutableReports (a b : ExecutableReport) : ExecutableReport :=
  let m :=
    {| ExecutionID := first_nonempty (ExecutionID a) (ExecutionID b);
       StableIdentityKey := first_nonempty (StableIdentityKey a) (StableIdentityKey b);
       rp_IP := first_nonempty (rp_IP a) (rp_IP b);
       rp_Source := first_nonempty (rp_Source a) (rp_Source b);
       rp_AbuseType := first_nonempty (rp_AbuseType a) (rp_AbuseType b);
       rp_Categories := mergeCSV (rp_Categories a) (rp_Categories b);
       Comment := Comment a;
       rp_Action := merge_action (rp_Action a) (rp_Action b);
       OriginatingOpID := first_nonempty (OriginatingOpID a) (OriginatingOpID b);
       rp_CreatedAt := merge_created (rp_CreatedAt a) (rp_CreatedAt b);
       rp_Hits := wrap64 (rp_Hits a + rp_Hits b);
       rp_WindowSec := if rp_WindowSec a <? rp_WindowSec b then rp_WindowSec b else rp_WindowSec a;
       rp_URIs := mergeUnique [rp_URIs a; rp_URIs b];
       RuleIDs := mergeUnique [RuleIDs a; RuleIDs b];
       Sources := mergeUnique [Sources a; Sources b];
       ConfidenceSum := add (ConfidenceSum a) (ConfidenceSum b);
       ConfidenceCount := wrap64 (ConfidenceCount a + ConfidenceCount b);
       ConfidenceMax := if gtb (ConfidenceMax b) (ConfidenceMax a) then ConfidenceMax b
                        else ConfidenceMax a |} in
  with_comment (aggregatedAbuseComment m) m.

(** [json.Marshal] fails on a float that is not finite. *)
Definition marshal_ok (r : ExecutableReport) : bool :=
  is_finite (ConfidenceSum r) && is_finite (ConfidenceMax r).

Lemma mergeUnique_in a b v :
  v ∈ mergeUnique [a; b] <-> v <> "" /\ exists x, (x ∈ a \/ x ∈ b) /\ trim_space x = v.
Proof.
  unfold mergeUnique. cbn. rewrite app_nil_r, unique_loop_in. setoid_rewrite elem_of_app. set_solver.
Qed.

(** merging loses nothing: the hits add up (within the 64-bit range), and
    every URI, rule id and source of either report is in the merged report,
    each once. *)
Theorem merge_keeps_evidence a b :
  int64_min <= rp_Hits a + rp_Hits b <= int64_max ->
  let m := MergeExecutableReports a b in
  rp_Hits m = rp_Hits a + rp_Hits b /\
  NoDup (rp_URIs m) /\ NoDup (RuleIDs m) /\ NoDup (Sources m) /\
  (forall x, x ∈ rp_URIs a \/ x ∈ rp_URIs b -> trim_space x <> "" -> trim_space x ∈ rp_URIs m) /\
  (forall x, x ∈ RuleIDs a \/ x ∈ RuleIDs b -> trim_space x <> "" -> trim_space x ∈ RuleIDs m) /\
  (forall x, x ∈ Sources a \/ x ∈ Sources b -> trim_space x <> "" -> trim_space x ∈ Sources m).
Proof.
  intros Hh m. unfold m, MergeExecutableReports, with_comment. cbn -[mergeUnique wrap64 Z.add].
  rewrite wrap64_small by done.
  split_and!; try done; try apply unique_loop_NoDup; intros x Hx Hne; apply mergeUnique_in; eauto.
Qed.

Definition demo_report (ip uri : string) : ExecutableReport :=
  {| ExecutionID := "exec-1"; StableIdentityKey := "k"; rp_IP := ip; rp_Source := "crowdsec_waf";
     rp_AbuseType := "scanner"; rp_Categories := "14,21"; Comment := ""; rp_Action := "block";
     OriginatingOpID := "r1"; rp_CreatedAt := hour; rp_Hits := 3; rp_WindowSec := 30;
     rp_URIs := [uri]; RuleIDs := ["r1"]; Sources := ["waf"]; ConfidenceSum := of_int 1;
     ConfidenceCount := 1; ConfidenceMax := of_int 1 |}.

Theorem merge_keeps_evidence_witness :
  rp_Hits (MergeExecutableReports (demo_report "203.0.113.7" "/a") (demo_report "203.0.113.7" "/b")) = 6 /\
  Comment (MergeExecutableReports (demo_report "203.0.113.7" "/a") (demo_report "203.0.113.7" "/b")) =
    "CrowdSec WAF: 6 hits in 30s | action=block | abuse=scanner | categories=14,21 | rule_id=r1 | URIs=/a,/b | confidence=1.00".
Proof.
  split; [|by vm_compute].
  apply (merge_keeps_evidence (demo_report "203.0.113.7" "/a") (demo_report "203.0.113.7" "/b")).
  vm_compute. split; discriminate.
Defined.

End Reports.
