(* ===== verification/Outbox.v ===== *)
(** * Report outbox

    The outbox table ([internal/storage/sqlite/report_outbox.go]) and the
    worker that drains it ([internal/services/reporting/outbox_worker.go]). *)

From S2P Require Import Prelude Reports RuntimeModels Lease Netip.
Import Reports.

Local Open Scope Z_scope.

Module Outbox.

Definition ReportStatusPending : string := "pending".
Definition ReportStatusReported : string := "reported".
Definition ReportStatusFailed : string := "failed".
Definition ReportStatusReportedDedupFailed : string := "reported_dedup_failed".

Record ReportReservation := {
  rs_IP : string; rs_Source : string; IdempotencyKey : string; EvidenceID : string;
  rs_Status : string; rs_ExpiresAt : Z; Report : ExecutableReport;
}.

Record ReportOutboxItem := {
  Reservation : ReportReservation; AttemptCount : Z; LastError : string;
  NextAttemptAt : Z;   (** zero when the column is NULL *)
}.

(** A row of [abuseipdb_report_outbox]. *)
Record row := {
  evidence_id : string; ip : string; source : string; idempotency_key : string;
  status : string; expires_at : Z; report : ExecutableReport; attempt_count : Z;
  last_error : string; next_attempt_at : option Z; created_at : Z; updated_at : Z;
}.

Record ReportReservationStore := {
  readOnly : bool;
  rows : list row;
  retention : Z;
  maxEntries : Z;
  cleanupEvery : Z;
  writeCount : Z;
  lastCleanup : Z;
}.

Definition NewReportReservationStore : ReportReservationStore :=
  {| readOnly := false; rows := []; retention := 180 * 24 * hour; maxEntries := 25000;
     cleanupEvery := 32; writeCount := 0; lastCleanup := 0 |}.

Definition with_rows (s : ReportReservationStore) (l : list row) : ReportReservationStore :=
  {| readOnly := readOnly s; rows := l; retention := retention s; maxEntries := maxEntries s;
     cleanupEvery := cleanupEvery s; writeCount := writeCount s; lastCleanup := lastCleanup s |}.

(** *** Constraints: primary key [evidence_id], one pending row per IP *)
Definition is_pending (r : row) : bool := bool_decide (status r = ReportStatusPending).
Definition constraints_ok (l : list row) : bool :=
  bool_decide (NoDup (evidence_id <$> l)) && bool_decide (NoDup (ip <$> List.filter is_pending l)).
Definition commit (op : string) (s : ReportReservationStore) (l : list row) : result ReportReservationStore :=
  if constraints_ok l then Ok (with_rows s l)
  else Err (wrap_msg op "UNIQUE constraint failed: abuseipdb_report_outbox").

Definition update_where (p : row -> bool) (f : row -> row) (l : list row) : list row :=
  (fun r => if p r then f r else r) <$> l.
Definition has_id (id : string) (r : row) : bool := bool_decide (evidence_id r = id).

Definition set_status (st : string) (clk : Z) (r : row) : row :=
  {| evidence_id := evidence_id r; ip := ip r; source := source r; idempotency_key := idempotency_key r;
     status := st; expires_at := expires_at r; report := report r; attempt_count := attempt_count r;
     last_error := last_error r; next_attempt_at := next_attempt_at r; created_at := created_at r;
     updated_at := sql_now clk |}.
Definition set_merged (next : Z) (rep : ExecutableReport) (clk : Z) (r : row) : row :=
  {| evidence_id := evidence_id r; ip := ip r; source := source r; idempotency_key := idempotency_key r;
     status := status r; expires_at := next; report := rep; attempt_count := attempt_count r;
     last_error := last_error r; next_attempt_at := Some next; created_at := created_at r;
     updated_at := sql_now clk |}.
Definition set_next (next : Z) (clk : Z) (r : row) : row :=
  {| evidence_id := evidence_id r; ip := ip r; source := source r; idempotency_key := idempotency_key r;
     status := status r; expires_at := expires_at r; report := report r; attempt_count := attempt_count r;
     last_error := last_error r; next_attempt_at := Some next; created_at := created_at r;
     updated_at := sql_now clk |}.
Definition set_attempt (st err : string) (next : option Z) (clk : Z) (r : row) : row :=
  {| evidence_id := evidence_id r; ip := ip r; source := source r; idempotency_key := idempotency_key r;
     status := st; expires_at := expires_at r; report := report r; attempt_count := attempt_count r + 1;
     last_error := err; next_attempt_at := next; created_at := created_at r;
     updated_at := sql_now clk |}.

(** *** Retention *)
Definition noteWrite (s : ReportReservationStore) : ReportReservationStore :=
  {| readOnly := readOnly s; rows := rows s; retention := retention s; maxEntries := maxEntries s;
     cleanupEvery := cleanupEvery s; writeCount := writeCount s + 1; lastCleanup := lastCleanup s |}.

Definition purgeable (cutoff : Z) (r : row) : bool :=
  (bool_decide (status r ∈ [ReportStatusReported; ReportStatusFailed; ReportStatusReportedDedupFailed])
   && (updated_at r <? cutoff))
  || (is_pending r && (expires_at r <? cutoff)).
Definition purgeExpired (cutoff : Z) (s : ReportReservationStore) : ReportReservationStore :=
  if is_zero_time cutoff then s
  else with_rows s (List.filter (fun r => negb (purgeable cutoff r)) (rows s)).

(** [ORDER BY updated_at ASC, evidence_id ASC]. *)
Definition older (a b : row) : bool :=
  (updated_at a <? updated_at b) ||
  ((updated_at a =? updated_at b) && str_lt (evidence_id a) (evidence_id b)).
Definition trimToMaxEntries (maxE : Z) (s : ReportReservationStore) : ReportReservationStore :=
  let total := Z.of_nat (length (rows s)) in
  if (maxE <=? 0) || (total <=? maxE) then s
  else let victims := evidence_id <$> take (Z.to_nat (total - maxE)) (isort older (rows s)) in
       with_rows s (List.filter (fun r => negb (bool_decide (evidence_id r ∈ victims))) (rows s)).

Definition cleanup (now : Z) (s : ReportReservationStore) : ReportReservationStore :=
  if readOnly s then s
  else if (0 <? cleanupEvery s) && negb (Z.rem (writeCount s) (cleanupEvery s) =? 0)
          && negb (is_zero_time (lastCleanup s)) && (t_sub now (lastCleanup s) <? 5 * minute)
  then s
  else
    let s1 := {| readOnly := readOnly s; rows := rows s; retention := retention s;
                 maxEntries := maxEntries s; cleanupEvery := cleanupEvery s;
                 writeCount := writeCount s; lastCleanup := now |} in
    trimToMaxEntries (maxEntries s1) (purgeExpired (t_add now (- retention s1)) s1).

(** *** Operations; the store's clock and SQLite's are the same instant *)
Definition Reserve (now : Z) (r0 : ReportReservation) (s : ReportReservationStore)
  : result ReportReservationStore :=
  let op := "storage.sqlite.ReportReservationStore.Reserve" in
  (_ <-? ensureWritable op (readOnly s);
   let exp := if is_zero_time (rs_ExpiresAt r0) then t_add now (24 * hour) else rs_ExpiresAt r0 in
   let st := if bool_decide (rs_Status r0 = "") then ReportStatusPending else rs_Status r0 in
   if negb (marshal_ok (Report r0)) then Err (wrap_msg op "json: unsupported value")
   else
   let insert (s1 : ReportReservationStore) :=
     rbind (commit op s1 (rows s1 ++
       [{| evidence_id := EvidenceID r0; ip := rs_IP r0; source := rs_Source r0;
           idempotency_key := IdempotencyKey r0; status := st; expires_at := exp; report := Report r0;
           attempt_count := 0; last_error := ""; next_attempt_at := Some exp;
           created_at := sql_now now; updated_at := sql_now now |}]))
       (fun s2 => Ok (cleanup now (noteWrite s2))) in
   match List.find (fun r => bool_decide (ip r = rs_IP r0) && is_pending r) (rows s) with
   | None => insert s
   | Some ex =>
       if bool_decide (idempotency_key ex = IdempotencyKey r0) then Ok s
       else if t_before now (expires_at ex) then
         let merged := MergeExecutableReports (report ex) (Report r0) in
         if negb (marshal_ok merged) then Err (wrap_msg op "json: unsupported value")
         else
         let next := if t_before exp (expires_at ex) then expires_at ex else exp in
         commit op s (update_where (has_id (evidence_id ex)) (set_merged next merged now) (rows s))
       else
         rbind (commit op s (update_where (has_id (evidence_id ex)) (set_status ReportStatusFailed now)
                               (rows s)))
               insert
   end)%go.

Definition reservation_of (r : row) : ReportReservation :=
  {| rs_IP := ip r; rs_Source := source r; IdempotencyKey := idempotency_key r;
     EvidenceID := evidence_id r; rs_Status := status r; rs_ExpiresAt := expires_at r;
     Report := report r |}.

Definition FindPendingByIPAndIdempotencyKey (ip0 key : string) (s : ReportReservationStore)
  : result (option ReportReservation) :=
  (_ <-? ensureWritable "storage.sqlite.ReportReservationStore.FindPendingByIPAndIdempotencyKey" (readOnly s);
   Ok (reservation_of <$> head (isort (fun a b => older b a)
         (List.filter (fun r => bool_decide (ip r = ip0) && bool_decide (idempotency_key r = key)
                                && is_pending r) (rows s)))))%go.

Definition MarkStatus (now : Z) (evidenceID st : string) (s : ReportReservationStore)
  : result ReportReservationStore :=
  let op := "storage.sqlite.ReportReservationStore.MarkStatus" in
  (_ <-? ensureWritable op (readOnly s);
   s1 <-? commit op s (update_where (has_id evidenceID) (set_status st now) (rows s));
   if existsb (has_id evidenceID) (rows s) then Ok (cleanup now (noteWrite s1))
   else Err (wrap_msg op ("report reservation not found: " +:+ evidenceID)))%go.

Definition due (now : Z) (r : row) : bool :=
  match next_attempt_at r with None => true | Some t => t <=? now end.
Definition retryable (now : Z) (r : row) : bool :=
  (bool_decide (status r = ReportStatusPending) || bool_decide (status r = ReportStatusFailed))
  && due now r.

Definition item_of (r : row) : ReportOutboxItem :=
  {| Reservation := reservation_of r; AttemptCount := attempt_count r; LastError := last_error r;
     NextAttemptAt := default 0 (next_attempt_at r) |}.

(** The UPDATE that takes the claim, repeated for every selected row. *)
Definition claim_one (now claimUntil clk : Z) (r0 : row) (l : list row) : list row * bool :=
  let hit r := has_id (evidence_id r0) r && bool_decide (status r = status r0) && due now r in
  (update_where hit (set_next claimUntil clk) l, existsb hit l).

Fixpoint claim_loop (now claimUntil clk : Z) (sel : list row) (l : list row)
  : list row * list ReportOutboxItem :=
  match sel with
  | [] => (l, [])
  | r0 :: sel' =>
      let '(l1, ok) := claim_one now claimUntil clk r0 l in
      let '(l2, out) := claim_loop now claimUntil clk sel' l1 in
      (l2, if ok then item_of r0 :: out else out)
  end.

Definition ClaimRetryable (clk now limit0 claimUntil : Z) (s0 : ReportReservationStore)
  : ReportReservationStore * list ReportOutboxItem :=
  let limit := if limit0 <=? 0 then 50 else limit0 in
  let s := cleanup clk s0 in
  let sel := take (Z.to_nat limit) (isort older (List.filter (retryable now) (rows s))) in
  let '(l, out) := claim_loop now claimUntil clk sel (rows s) in
  (with_rows s l, out).

Definition ListRetryable (clk now limit : Z) (s : ReportReservationStore) := ClaimRetryable clk now limit now s.

Definition RecordAttempt (now : Z) (evidenceID st lastError : string) (nextAttemptAt : Z)
  (s : ReportReservationStore) : result ReportReservationStore :=
  let op := "storage.sqlite.ReportReservationStore.RecordAttempt" in
  (_ <-? ensureWritable op (readOnly s);
   let next := if is_zero_time nextAttemptAt then None else Some nextAttemptAt in
   s1 <-? commit op s (update_where (has_id evidenceID) (set_attempt st lastError next now) (rows s));
   if existsb (has_id evidenceID) (rows s) then Ok (cleanup now (noteWrite s1))
   else Err (wrap_msg op ("report reservation not found: " +:+ evidenceID)))%go.

(** ** Worker ([outbox_worker.go]) *)

(** The AbuseIPDB executor and the report dedup store, each with its state. *)
Class Reporter (R : Type) := Execute : list ExecutableReport -> R -> R * result unit.
Class DedupStore (D : Type) := MarkReported : Z -> Netip.addr -> string -> D -> D * result unit.

(** What [recordOutboxEvidence] appends for an item. *)
Record OutboxEvidence := {
  oe_EvidenceID : string; oe_Reported : bool; oe_Suppressed : bool; oe_Reason : string; oe_Error : string;
}.

Section worker.
Context {R D : Type} `{Reporter R} `{DedupStore D}.

Record OutboxWorker := {
  w_store : ReportReservationStore;
  reporter : R;
  dedupStore : option D;
  evidence : list OutboxEvidence;
  limit : Z;
  retryBackoff : Z;
  claimLease : Z;
}.

Definition NewOutboxWorker (s : ReportReservationStore) (rep : R) (d : option D) (lim backoff lease : Z)
  : OutboxWorker :=
  {| w_store := s; reporter := rep; dedupStore := d; evidence := [];
     limit := if lim <=? 0 then 50 else lim;
     retryBackoff := if backoff <=? 0 then 5 * minute else backoff;
     claimLease := if lease <=? 0 then 30 * second else lease |}.

Definition upd (w : OutboxWorker) (s : ReportReservationStore) (rep : R) (d : option D)
  (ev : list OutboxEvidence) : OutboxWorker :=
  {| w_store := s; reporter := rep; dedupStore := d; evidence := ev; limit := limit w;
     retryBackoff := retryBackoff w; claimLease := claimLease w |}.
Definition set_store (w : OutboxWorker) (s : ReportReservationStore) : OutboxWorker :=
  upd w s (reporter w) (dedupStore w) (evidence w).

Definition recordOutboxEvidence (item : ReportOutboxItem) (reported suppressed : bool)
  (reason err : string) (w : OutboxWorker) : OutboxWorker :=
  upd w (w_store w) (reporter w) (dedupStore w)
    (evidence w ++ [{| oe_EvidenceID := EvidenceID (Reservation item); oe_Reported := reported;
                       oe_Suppressed := suppressed; oe_Reason := reason; oe_Error := err |}]).

(** A write whose error the caller drops. *)
Definition try_write (r : result ReportReservationStore) (w : OutboxWorker) : OutboxWorker :=
  match r with Ok s => set_store w s | Err _ => w end.

Definition markDedup (now : Z) (item : ReportOutboxItem) (w : OutboxWorker) : OutboxWorker * result unit :=
  match dedupStore w with
  | None => (w, Ok tt)
  | Some d =>
      match Netip.ParseAddr (rs_IP (Reservation item)) with
      | None => (w, Err "unable to parse IP")
      | Some a =>
          let '(d', r) := MarkReported now a (EvidenceID (Reservation item)) d in
          (upd w (w_store w) (reporter w) (Some d') (evidence w), r)
      end
  end.

Definition with_ip (ip0 : string) (r : ExecutableReport) : ExecutableReport :=
  {| ExecutionID := ExecutionID r; StableIdentityKey := StableIdentityKey r; rp_IP := ip0;
     rp_Source := rp_Source r; rp_AbuseType := rp_AbuseType r; rp_Categories := rp_Categories r;
     Comment := Comment r; rp_Action := rp_Action r; OriginatingOpID := OriginatingOpID r;
     rp_CreatedAt := rp_CreatedAt r; rp_Hits := rp_Hits r; rp_WindowSec := rp_WindowSec r;
     rp_URIs := rp_URIs r; RuleIDs := RuleIDs r; Sources := Sources r;
     ConfidenceSum := ConfidenceSum r; ConfidenceCount := ConfidenceCount r;
     ConfidenceMax := ConfidenceMax r |}.

Definition processItem (now : Z) (item : ReportOutboxItem) (w : OutboxWorker) : OutboxWorker * result unit :=
  let id := EvidenceID (Reservation item) in
  let rep0 := Report (Reservation item) in
  let rep := if bool_decide (rp_IP rep0 = "") then with_ip (rs_IP (Reservation item)) rep0 else rep0 in
  let '(r', sent) := Execute [rep] (reporter w) in
  let w1 := upd w (w_store w) r' (dedupStore w) (evidence w) in
  match sent with
  | Err e =>
      let w2 := try_write (RecordAttempt now id ReportStatusFailed e (t_add now (retryBackoff w1))
                             (w_store w1)) w1 in
      (recordOutboxEvidence item false true "abuseipdb_outbox_retry_failed" e w2, Err e)
  | Ok _ =>
      match markDedup now item w1 with
      | (w2, Err e) =>
          let w3 := try_write (RecordAttempt now id ReportStatusReportedDedupFailed e 0 (w_store w2)) w2 in
          (recordOutboxEvidence item true true "abuseipdb_outbox_dedup_mark_failed" e w3, Err e)
      | (w2, Ok _) =>
          match MarkStatus now id ReportStatusReported (w_store w2) with
          | Err e => (recordOutboxEvidence item true true "abuseipdb_outbox_status_failed" e w2, Err e)
          | Ok s => (recordOutboxEvidence item true false "" "" (set_store w2 s), Ok tt)
          end
      end
  end.

(** [ctxErr i] and [guard i]: the context's error and the lease guard's verdict
    when the [i]-th item is reached. *)
Fixpoint process_loop (now : Z) (ctxErr : nat -> option string) (guard : option (nat -> result unit))
  (i : nat) (items : list ReportOutboxItem) (processed : Z) (firstErr : result unit) (w : OutboxWorker)
  : OutboxWorker * Z * result unit :=
  match items with
  | [] => (w, processed, firstErr)
  | item :: rest =>
      match ctxErr i with
      | Some e => (w, processed, Err e)
      | None =>
          match guard with
          | Some g =>
              match g i with
              | Err e => (recordOutboxEvidence item false true "outbox_lease_guard_refused" e w, processed, Err e)
              | Ok _ =>
                  let '(w1, r) := processItem now item w in
                  process_loop now ctxErr guard (S i) rest (processed + 1)
                    (if is_ok firstErr then r else firstErr) w1
              end
          | None =>
              let '(w1, r) := processItem now item w in
              process_loop now ctxErr guard (S i) rest (processed + 1)
                (if is_ok firstErr then r else firstErr) w1
          end
      end
  end.

Definition ProcessOnce (now : Z) (ctxErr : nat -> option string) (guard : option (nat -> result unit))
  (w : OutboxWorker) : OutboxWorker * Z * result unit :=
  let '(s, items) := ClaimRetryable now now (limit w) (t_add now (claimLease w)) (w_store w) in
  process_loop now ctxErr guard 0 items 0 (Ok tt) (set_store w s).
End worker.

(** ** Invariant: the table's constraints *)
Definition wf (l : list row) : Prop := constraints_ok l = true.

Lemma wf_iff l : wf l <-> NoDup (evidence_id <$> l) /\ NoDup (ip <$> List.filter is_pending l).
Proof. unfold wf, constraints_ok. rewrite andb_true_iff, !bool_decide_eq_true. done. Qed.

Lemma wf_unique l a b : wf l -> a ∈ l -> b ∈ l -> evidence_id a = evidence_id b -> a = b.
Proof.
  intros [Hn _]%wf_iff Ha Hb E. induction l as [|x l IH]; [by apply not_elem_of_nil in Ha|].
  rewrite fmap_cons, NoDup_cons in Hn. destruct Hn as [Hx Hn].
  apply elem_of_cons in Ha as [->|Ha], Hb as [->|Hb]; auto; exfalso; apply Hx.
  - rewrite E. by apply list_elem_of_fmap_2.
  - rewrite <- E. by apply list_elem_of_fmap_2.
Qed.

Lemma wf_filter p l : wf l -> wf (List.filter p l).
Proof.
  rewrite !wf_iff. intros [H1 H2]. split.
  - by apply NoDup_fmap_filter.
  - eapply sublist_NoDup; [exact H2|]. apply fmap_sublist.
    clear. induction l as [|x l IH]; cbn; [constructor|].
    destruct (p x); cbn; destruct (is_pending x); eauto using sublist_skip, sublist_cons.
Qed.

Lemma update_where_fields p f l :
  (forall r, evidence_id (f r) = evidence_id r /\ ip (f r) = ip r /\ status (f r) = status r) ->
  wf l -> wf (update_where p f l).
Proof.
  intros Hf. rewrite !wf_iff.
  assert (evidence_id <$> update_where p f l = evidence_id <$> l) as ->.
  { unfold update_where. rewrite <- list_fmap_compose. apply list_fmap_ext. intros i r _. cbn.
    destruct (p r); [by apply Hf|done]. }
  assert (ip <$> List.filter is_pending (update_where p f l) = ip <$> List.filter is_pending l) as ->; [|done].
  induction l as [|r l IH]; [done|]. cbn.
  assert (is_pending (if p r then f r else r) = is_pending r) as ->.
  { destruct (p r); [|done]. unfold is_pending. by destruct (Hf r) as (_ & _ & ->). }
  destruct (is_pending r); [|exact IH]. cbn. f_equal; [|exact IH].
  destruct (p r); [by apply Hf|done].
Qed.

(** Cleaning up only deletes rows. *)
Lemma cleanup_rows now s : exists p, rows (cleanup now s) = List.filter p (rows s).
Proof.
  assert (forall l : list row, l = List.filter (fun _ => true) l) as Hid
    by (intros l; induction l as [|x l IH]; cbn; congruence).
  assert (forall p q (l : list row), List.filter p (List.filter q l) = List.filter (fun x => q x && p x) l) as Hff.
  { intros p q l. induction l as [|x l IH]; cbn; [done|].
    destruct (q x); cbn; [|done]. destruct (p x); by rewrite IH. }
  unfold cleanup. destruct (readOnly s); [eauto|]. case_match; [eauto|].
  unfold trimToMaxEntries, purgeExpired. cbn. repeat case_match; cbn; rewrite ?Hff; eauto.
Qed.

Lemma cleanup_subset now s r : r ∈ rows (cleanup now s) -> r ∈ rows s.
Proof. destruct (cleanup_rows now s) as [p ->]. rewrite elem_of_lfilter. tauto. Qed.

Lemma cleanup_wf now s : wf (rows s) -> wf (rows (cleanup now s)).
Proof. destruct (cleanup_rows now s) as [p ->]. apply wf_filter. Qed.

Lemma commit_inv op s l s' : commit op s l = Ok s' -> wf l /\ s' = with_rows s l.
Proof. unfold commit. case_match; intros [= <-]. done. Qed.

(** ** Claims *)
Definition item_id (i : ReportOutboxItem) : string := EvidenceID (Reservation i).

Lemma update_where_in p f l x :
  x ∈ update_where p f l <-> exists r, r ∈ l /\ x = (if p r then f r else r).
Proof. unfold update_where. rewrite list_elem_of_fmap. naive_solver. Qed.

(** The loop claims every selected row: each is still in the table when its
    turn comes. *)
Lemma claim_loop_spec now cu clk sel : forall l,
  wf l -> NoDup (evidence_id <$> sel) ->
  (forall r, r ∈ sel -> r ∈ l /\ due now r = true) ->
  let '(l', out) := claim_loop now cu clk sel l in
  wf l' /\ out = item_of <$> sel /\
  (forall x, x ∈ l' <-> exists r, r ∈ l /\
     x = (if bool_decide (evidence_id r ∈ evidence_id <$> sel) then set_next cu clk r else r)).
Proof.
  induction sel as [|r0 sel IH]; intros l Hwf Hnd Hsel; cbn [claim_loop].
  - split_and!; [done..|]. intros x. setoid_rewrite bool_decide_false; [|by apply not_elem_of_nil].
    naive_solver.
  - rewrite fmap_cons, NoDup_cons in Hnd. destruct Hnd as [Hni Hnd].
    destruct (Hsel r0) as [Hin0 Hdue0]; [by left|].
    unfold claim_one. set (hit := fun r => _ && _ && _).
    assert (Hhit : forall r, r ∈ l -> hit r = bool_decide (evidence_id r = evidence_id r0)).
    { intros r Hr. unfold hit, has_id. destruct (bool_decide_reflect (evidence_id r = evidence_id r0)) as [E|]; [|done].
      rewrite (wf_unique l r r0) by done. rewrite bool_decide_true, Hdue0 by done. done. }
    assert (Hex : existsb hit l = true).
    { apply existsb_exists. exists r0. split; [by apply list_elem_of_In|].
      rewrite Hhit by done. by apply bool_decide_eq_true. }
    assert (Hl1 : wf (update_where hit (set_next cu clk) l)) by (by apply update_where_fields).
    specialize (IH _ Hl1 Hnd). rewrite Hex.
    destruct (claim_loop now cu clk sel (update_where hit (set_next cu clk) l)) as [l2 out].
    destruct IH as (Hwf2 & -> & Hin2).
    { intros r Hr. destruct (Hsel r) as [Hrl Hrd]; [by right|]. split; [|done].
      apply update_where_in. exists r. split; [done|]. rewrite Hhit by done.
      rewrite bool_decide_false; [done|]. intros E. apply Hni. rewrite <- E. by apply list_elem_of_fmap_2. }
    split_and!; [done..|]. intros x. rewrite Hin2. setoid_rewrite update_where_in.
    assert (Hcase : forall r, r ∈ l ->
      (if bool_decide (evidence_id (if hit r then set_next cu clk r else r) ∈ evidence_id <$> sel)
       then set_next cu clk (if hit r then set_next cu clk r else r) else if hit r then set_next cu clk r else r)
      = (if bool_decide (evidence_id r ∈ evidence_id <$> r0 :: sel) then set_next cu clk r else r)).
    { intros r Hr. rewrite Hhit by done. rewrite fmap_cons.
      destruct (bool_decide_reflect (evidence_id r = evidence_id r0)) as [E|E].
      - rewrite E. rewrite (bool_decide_true (evidence_id r0 ∈ _)) by (by left).
        by case_bool_decide.
      - assert (bool_decide (evidence_id r ∈ evidence_id r0 :: (evidence_id <$> sel))
                = bool_decide (evidence_id r ∈ evidence_id <$> sel)) as ->; [|done].
        apply bool_decide_ext. rewrite elem_of_cons. naive_solver. }
    split.
    + intros (y & (r & Hr & ->) & ->). exists r. split; [done|]. by apply Hcase.
    + intros (r & Hr & ->). eexists. split; [exists r; split; [done|reflexivity]|]. symmetry. by apply Hcase.
Qed.

(** The effect of a claim, given the rows left after cleaning up. *)
Lemma ClaimRetryable_spec clk now lim cu s s' out :
  wf (rows s) -> ClaimRetryable clk now lim cu s = (s', out) ->
  wf (rows s') /\ NoDup (item_id <$> out) /\
  (forall x, x ∈ rows s' -> exists r, r ∈ rows s /\
     x = (if bool_decide (evidence_id r ∈ item_id <$> out) then set_next cu clk r else r)) /\
  (forall i, i ∈ out -> exists r, r ∈ rows s /\ retryable now r = true /\ i = item_of r).
Proof.
  intros Hwf. unfold ClaimRetryable. set (s0 := cleanup clk s). set (sel := take _ _).
  assert (Hsel : forall r, r ∈ sel -> r ∈ rows s0 /\ retryable now r = true).
  { intros r Hr. apply (subseteq_take _ _), elem_of_isort, elem_of_lfilter in Hr. done. }
  assert (Hnd : NoDup (evidence_id <$> sel)).
  { assert (wf (rows s0)) as [Hn _]%wf_iff by (by apply cleanup_wf).
    eapply sublist_NoDup; [|apply fmap_sublist, sublist_take].
    rewrite isort_perm. by apply NoDup_fmap_filter. }
  pose proof (claim_loop_spec now cu clk sel (rows s0) (cleanup_wf _ _ Hwf) Hnd) as Hcl.
  destruct (claim_loop now cu clk sel (rows s0)) as [l o]. intros [= <- <-].
  destruct Hcl as (Hwf' & -> & Hin).
  { intros r Hr. destruct (Hsel r Hr) as [? Hret]. split; [done|].
    unfold retryable in Hret. by apply andb_true_iff in Hret as [_ ?]. }
  assert (item_id <$> (item_of <$> sel) = evidence_id <$> sel) as Hids
    by (rewrite <- list_fmap_compose; by apply list_fmap_ext).
  rewrite Hids. split_and!; [done|done| |].
  - intros x (r & Hr & ->)%Hin. exists r. split; [by apply (cleanup_subset clk)|done].
  - intros i (r & -> & Hr)%list_elem_of_fmap. destruct (Hsel r Hr) as [Hr0 ?].
    exists r. split_and!; [by apply (cleanup_subset clk)|done|done].
Qed.

(** ** Exclusive claims *)
Record claim_call := { cc_clk : Z; cc_now : Z; cc_limit : Z; cc_until : Z }.

Fixpoint run_claims (cs : list claim_call) (s : ReportReservationStore) : list string :=
  match cs with
  | [] => []
  | c :: cs' =>
      let '(s', out) := ClaimRetryable (cc_clk c) (cc_now c) (cc_limit c) (cc_until c) s in
      (item_id <$> out) ++ run_claims cs' s'
  end.

(** Rows of the given ids are not due before [T]. *)
Definition held_until (T : Z) (ids : list string) (l : list row) : Prop :=
  forall r, r ∈ l -> evidence_id r ∈ ids -> exists t, next_attempt_at r = Some t /\ T <= t.

Lemma run_claims_disjoint T cs : forall s held,
  wf (rows s) -> held_until T held (rows s) ->
  Forall (fun c => cc_now c < T /\ T <= cc_until c) cs ->
  NoDup (run_claims cs s) /\ forall id, id ∈ run_claims cs s -> id ∉ held.
Proof.
  induction cs as [|c cs IH]; intros s held Hwf Hheld Hcs; cbn [run_claims].
  - split; [apply NoDup_nil_2|]. intros id ?%not_elem_of_nil. done.
  - inversion Hcs as [|? ? [Hnow Hcu] Hcs']; subst.
    destruct (ClaimRetryable _ _ _ _ _) as [s' out] eqn:E.
    destruct (ClaimRetryable_spec _ _ _ _ _ _ _ Hwf E) as (Hwf' & Hnd & Hrows & Hout).
    assert (Hfresh : forall id, id ∈ item_id <$> out -> id ∉ held).
    { intros id (i & -> & Hi)%list_elem_of_fmap Hin.
      destruct (Hout i Hi) as (r & Hr & Hret & ->). cbn in Hin.
      destruct (Hheld r Hr Hin) as (t & Ht & Hle).
      unfold retryable, due in Hret. rewrite Ht in Hret. apply andb_true_iff in Hret as [_ ?]. lia. }
    destruct (IH s' (held ++ (item_id <$> out))) as [Hnd' Hd']; [done| |done|].
    { intros x Hx Hid. destruct (Hrows x Hx) as (r & Hr & ->). revert Hid.
      case_bool_decide as Hb; cbn [evidence_id set_next next_attempt_at].
      - intros _. by exists (cc_until c).
      - rewrite elem_of_app. intros [Hid|Hid]; [by apply Hheld|done]. }
    setoid_rewrite not_elem_of_app in Hd'. split.
    + apply NoDup_app. split_and!; [done| |done]. intros id Hid Hid'. by apply Hd' in Hid' as [_ ?].
    + intros id [Hid|Hid]%elem_of_app; [by apply Hfresh|by apply Hd'].
Qed.

(** C3: workers never hold the same report at the same time.  If any number of
    claims are made before an instant [T], each for a lease that lasts until
    [T] or later, no report is claimed twice. *)
Theorem claims_exclusive T cs s :
  wf (rows s) -> Forall (fun c => cc_now c < T /\ T <= cc_until c) cs -> NoDup (run_claims cs s).
Proof.
  intros Hwf Hcs. apply (run_claims_disjoint T cs s []); [done| |done].
  intros r _ ?%not_elem_of_nil. done.
Qed.

(** ** Delivered reports are not sent again *)
Definition settled (id : string) (l : list row) : Prop :=
  forall r, r ∈ l -> evidence_id r = id ->
    status r <> ReportStatusPending /\ status r <> ReportStatusFailed.

Lemma settled_mono id l l' : (forall r, r ∈ l' -> r ∈ l) -> settled id l -> settled id l'.
Proof. intros Hs H r Hr. apply H. auto. Qed.

Lemma settled_update id p f l :
  (forall r, p r = true -> r ∈ l -> evidence_id (f r) = evidence_id r /\ evidence_id r <> id) ->
  settled id l -> settled id (update_where p f l).
Proof.
  intros Hf H x (r & Hr & ->)%update_where_in. destruct (p r) eqn:Ep; [|by apply H].
  destruct (Hf r Ep Hr) as [-> ?]. done.
Qed.

Lemma has_id_true id r : has_id id r = true <-> evidence_id r = id.
Proof. apply bool_decide_eq_true. Qed.

Lemma insert_settled now op id r0 st exp s s' :
  EvidenceID r0 <> id -> settled id (rows s) ->
  rbind (commit op s (rows s ++
       [{| evidence_id := EvidenceID r0; ip := rs_IP r0; source := rs_Source r0;
           idempotency_key := IdempotencyKey r0; status := st; expires_at := exp; report := Report r0;
           attempt_count := 0; last_error := ""; next_attempt_at := Some exp;
           created_at := sql_now now; updated_at := sql_now now |}]))
       (fun s2 => Ok (cleanup now (noteWrite s2))) = Ok s' ->
  settled id (rows s') /\ wf (rows s').
Proof.
  intros Hne Hs. destruct (commit _ _ _) as [s2|] eqn:E; [|done]. cbn [rbind]. intros [= <-].
  apply commit_inv in E as [Hwf ->]. split; [|by apply cleanup_wf].
  eapply settled_mono; [intros r Hr; exact (cleanup_subset _ _ _ Hr)|].
  intros r [Hr| ->%list_elem_of_singleton]%elem_of_app; [by apply Hs|]. cbn. congruence.
Qed.

Lemma Reserve_settled now r0 id s s' :
  wf (rows s) -> EvidenceID r0 <> id -> settled id (rows s) -> Reserve now r0 s = Ok s' ->
  settled id (rows s') /\ wf (rows s').
Proof.
  intros Hwf Hne Hs. unfold Reserve. destruct (ensureWritable _ _); [|done]. cbn [rbind].
  destruct (negb (marshal_ok (Report r0))); [done|].
  destruct (List.find _ _) as [ex|] eqn:Ef; [|by apply insert_settled].
  apply find_some_in in Ef as [Hex Hp]. apply andb_true_iff in Hp as [_ Hp].
  assert (Hexid : forall r, has_id (evidence_id ex) r = true -> r ∈ rows s -> evidence_id r <> id).
  { intros r Hid%has_id_true _ E. destruct (Hs ex Hex); [congruence|].
    unfold is_pending in Hp. by apply bool_decide_eq_true in Hp. }
  case_bool_decide; [by intros [= <-]|]. destruct (t_before now (expires_at ex)).
  - destruct (negb (marshal_ok _)); [done|].
    intros E. apply commit_inv in E as [Hw ->]. split; [|done]. cbn.
    apply settled_update; [|done]. intros r Hr Hin. split; [done|by apply Hexid].
  - destruct (commit _ _ _) as [s1|] eqn:E; [|done]. cbn [rbind].
    apply commit_inv in E as [Hw ->]. apply insert_settled; [done|]. cbn.
    apply settled_update; [|done]. intros r Hr Hin. split; [done|by apply Hexid].
Qed.

Lemma commit_settled op s l s1 now id :
  settled id l -> commit op s l = Ok s1 ->
  settled id (rows (cleanup now (noteWrite s1))) /\ wf (rows (cleanup now (noteWrite s1))).
Proof.
  intros Hl [Hwf ->]%commit_inv. split; [|by apply cleanup_wf].
  eapply settled_mono; [intros x Hx; exact (cleanup_subset _ _ _ Hx)|]. done.
Qed.

Lemma MarkStatus_inv now id st s s' :
  MarkStatus now id st s = Ok s' ->
  exists s1, commit "storage.sqlite.ReportReservationStore.MarkStatus" s
    (update_where (has_id id) (set_status st now) (rows s)) = Ok s1 /\ s' = cleanup now (noteWrite s1).
Proof.
  unfold MarkStatus. destruct (ensureWritable _ _); [|done]. cbn [rbind].
  destruct (commit _ _ _) as [s1|]; [|done]. cbn [rbind]. case_match; intros [= <-]. eauto.
Qed.

Lemma RecordAttempt_inv now id st e t s s' :
  RecordAttempt now id st e t s = Ok s' ->
  exists s1, commit "storage.sqlite.ReportReservationStore.RecordAttempt" s
    (update_where (has_id id)
       (set_attempt st e (if is_zero_time t then None else Some t) now) (rows s)) = Ok s1 /\
    s' = cleanup now (noteWrite s1).
Proof.
  unfold RecordAttempt. destruct (ensureWritable _ _); [|done]. cbn [rbind].
  destruct (commit _ _ _) as [s1|]; [|done]. cbn [rbind]. case_match; intros [= <-]. eauto.
Qed.

(** Writes about another report. *)
Lemma MarkStatus_settled now id' st s s' id :
  id' <> id -> settled id (rows s) -> MarkStatus now id' st s = Ok s' -> settled id (rows s') /\ wf (rows s').
Proof.
  intros Hne Hs (s1 & Hc & ->)%MarkStatus_inv. eapply commit_settled; [|exact Hc].
  apply settled_update; [|done]. intros r <-%has_id_true _. done.
Qed.

Lemma RecordAttempt_settled now id' st e t s s' id :
  id' <> id -> settled id (rows s) -> RecordAttempt now id' st e t s = Ok s' ->
  settled id (rows s') /\ wf (rows s').
Proof.
  intros Hne Hs (s1 & Hc & ->)%RecordAttempt_inv. eapply commit_settled; [|exact Hc].
  apply settled_update; [|done]. intros r <-%has_id_true _. done.
Qed.

Section delivery.
Context {R D : Type} `{Reporter R} `{DedupStore D}.

Lemma try_write_settled id r (w : OutboxWorker (R := R) (D := D)) :
  settled id (rows (w_store w)) -> wf (rows (w_store w)) ->
  (forall s', r = Ok s' -> settled id (rows s') /\ wf (rows s')) ->
  settled id (rows (w_store (try_write r w))) /\ wf (rows (w_store (try_write r w))).
Proof. intros Hs Hwf Hr. destruct r as [s'|]; cbn; [by apply Hr|done]. Qed.

Lemma markDedup_store now item (w w' : OutboxWorker (R := R) (D := D)) r : markDedup now item w = (w', r) -> w_store w' = w_store w.
Proof.
  unfold markDedup. destruct (dedupStore w); [|by intros [= <- <-]].
  destruct (Netip.ParseAddr _); [|by intros [= <- <-]].
  destruct (MarkReported _ _ _ _) as [d' r']. by intros [= <- <-].
Qed.

(** Processing another item. *)
Lemma processItem_settled now item id (w : OutboxWorker (R := R) (D := D)) :
  item_id item <> id -> settled id (rows (w_store w)) -> wf (rows (w_store w)) ->
  settled id (rows (w_store (processItem now item w).1)) /\ wf (rows (w_store (processItem now item w).1)).
Proof.
  intros Hne Hs Hwf. unfold processItem. destruct (Execute _ _) as [r' [u|e]]; cbn.
  - destruct (markDedup now item _) as [w2 [u2|e]] eqn:Ed; apply markDedup_store in Ed; cbn in Ed.
    + destruct (MarkStatus _ _ _ _) as [s|] eqn:Em; cbn; rewrite ?Ed in *; [|done].
      by eapply MarkStatus_settled.
    + apply try_write_settled; rewrite ?Ed; try done. intros s'. by apply RecordAttempt_settled.
  - apply try_write_settled; try done. intros s'. by apply RecordAttempt_settled.
Qed.

Lemma process_loop_settled now ctxErr guard id items : forall i processed fe (w : OutboxWorker (R := R) (D := D)),
  Forall (fun it => item_id it <> id) items -> settled id (rows (w_store w)) -> wf (rows (w_store w)) ->
  let w' := (process_loop now ctxErr guard i items processed fe w).1.1 in
  settled id (rows (w_store w')) /\ wf (rows (w_store w')).
Proof.
  induction items as [|item items IH]; intros i processed fe w Hit Hs Hwf; [done|].
  inversion Hit as [|? ? Hne Hit']; subst. cbn [process_loop].
  destruct (processItem_settled now item id w Hne Hs Hwf) as [Hs1 Hwf1].
  destruct (ctxErr i); [done|].
  destruct guard as [g|]; [destruct (g i); [|done]|]; destruct (processItem now item w) as [w1 r]; by apply IH.
Qed.

(** Life of the outbox: reservations and worker passes, in any order. *)
Inductive outbox_op :=
| OReserve (now : Z) (r : ReportReservation)
| OPass (now : Z) (ctxErr : nat -> option string) (guard : option (nat -> result unit)).

Definition ob_step (w : OutboxWorker (R := R) (D := D)) (o : outbox_op) : OutboxWorker (R := R) (D := D) :=
  match o with
  | OReserve now r => try_write (Reserve now r (w_store w)) w
  | OPass now ctxErr guard => (ProcessOnce now ctxErr guard w).1.1
  end.

(** The reports a worker takes in hand along the way. *)
Fixpoint taken (w : OutboxWorker (R := R) (D := D)) (ops : list outbox_op) : list string :=
  match ops with
  | [] => []
  | o :: ops' =>
      match o with
      | OReserve _ _ => []
      | OPass now _ _ =>
          item_id <$> (ClaimRetryable now now (limit w) (t_add now (claimLease w)) (w_store w)).2
      end ++ taken (ob_step w o) ops'
  end.

Lemma taken_settled id ops : forall w : OutboxWorker (R := R) (D := D),
  wf (rows (w_store w)) -> settled id (rows (w_store w)) ->
  Forall (fun o => match o with OReserve _ r => EvidenceID r <> id | _ => True end) ops ->
  id ∉ taken w ops.
Proof.
  induction ops as [|o ops IH]; intros w Hwf Hs Hops; cbn [taken]; [apply not_elem_of_nil|].
  inversion Hops as [|? ? Ho Hops']; subst. apply not_elem_of_app.
  destruct o as [now r|now ctxErr guard].
  - split; [apply not_elem_of_nil|].
    assert (settled id (rows (w_store (try_write (Reserve now r (w_store w)) w))) /\
            wf (rows (w_store (try_write (Reserve now r (w_store w)) w)))) as [? ?].
    { apply try_write_settled; [done..|]. intros s'. by apply Reserve_settled. }
    by apply IH.
  - cbn [ob_step]. unfold ProcessOnce.
    destruct (ClaimRetryable now now (limit w) _ (w_store w)) as [s' items] eqn:E.
    destruct (ClaimRetryable_spec _ _ _ _ _ _ _ Hwf E) as (Hwf' & _ & Hrows & Hout). cbn [snd].
    assert (Hne : Forall (fun it => item_id it <> id) items).
    { apply Forall_forall. intros it Hit Hid. destruct (Hout it Hit) as (r & Hr & Hret & ->).
      destruct (Hs r Hr Hid) as [? ?]. unfold retryable in Hret.
      rewrite !bool_decide_false in Hret by done. done. }
    split.
    + intros (it & -> & Hit)%list_elem_of_fmap. rewrite Forall_forall in Hne. by apply (Hne it Hit).
    + assert (settled id (rows s')) as Hs'.
      { intros x Hx. destruct (Hrows x Hx) as (r & Hr & ->). case_bool_decide; [|by apply Hs].
        cbn. by apply Hs. }
      destruct (process_loop_settled now ctxErr guard id items 0 0 (Ok tt) (set_store w s') Hne Hs' Hwf').
      by apply IH.
Qed.

(** C4: once an item has been processed without error, its report is never
    taken in hand again, whatever reservations of other reports and worker
    passes follow. *)
Theorem delivered_once now item (w w' : OutboxWorker (R := R) (D := D)) ops :
  wf (rows (w_store w)) -> processItem now item w = (w', Ok tt) ->
  Forall (fun o => match o with OReserve _ r => EvidenceID r <> item_id item | _ => True end) ops ->
  item_id item ∉ taken w' ops.
Proof.
  intros Hwf Hp Hops.
  assert (settled (item_id item) (rows (w_store w')) /\ wf (rows (w_store w'))) as [? ?].
  { revert Hp. unfold processItem. destruct (Execute _ _) as [r' [u|e]]; [|done].
    destruct (markDedup now item _) as [w2 [u2|e]] eqn:Ed; [|done].
    destruct (MarkStatus _ _ _ _) as [s|] eqn:Em; [|done]. intros [= <-]. cbn.
    apply MarkStatus_inv in Em as (s1 & Hc & ->). eapply commit_settled; [|exact Hc].
    intros x (r & Hr & ->)%update_where_in. unfold item_id. destruct (has_id _ r) eqn:E; [done|].
    intros Hid. by rewrite (proj2 (has_id_true _ r) Hid) in E. }
  by apply taken_settled.
Qed.

(** The update of a refused report keeps the table's constraints: the row's
    status only moves to [failed]. *)
Lemma attempt_wf id e nx now l :
  wf l -> wf (update_where (has_id id) (set_attempt ReportStatusFailed e nx now) l).
Proof.
  intros [H1 H2]%wf_iff. apply wf_iff. split.
  - assert (evidence_id <$> update_where (has_id id) (set_attempt ReportStatusFailed e nx now) l
            = evidence_id <$> l) as ->; [|done].
    unfold update_where. rewrite <- list_fmap_compose. apply list_fmap_ext. intros i r _. cbn.
    by destruct (has_id _ r).
  - eapply sublist_NoDup; [exact H2|]. clear. induction l as [|r l IH]; [constructor|]. cbn.
    destruct (has_id id r); cbn; destruct (is_pending r); cbn;
      first [exact IH | exact (sublist_skip _ _ _ IH) | exact (sublist_cons _ _ _ IH)].
Qed.

Lemma RecordAttempt_failed now id e nx s row0 :
  wf (rows s) -> readOnly s = false -> row0 ∈ rows s -> evidence_id row0 = id -> nx <> 0 ->
  RecordAttempt now id ReportStatusFailed e nx s
  = Ok (cleanup now (noteWrite (with_rows s (update_where (has_id id)
          (set_attempt ReportStatusFailed e (Some nx) now) (rows s))))).
Proof.
  intros Hwf Hro Hin Hid Hnz. unfold RecordAttempt, ensureWritable. rewrite Hro. cbn [rbind].
  replace (is_zero_time nx) with false by (unfold is_zero_time; lia).
  unfold commit. pose proof (attempt_wf id e (Some nx) now _ Hwf) as Hw. unfold wf in Hw. rewrite Hw. cbn [rbind].
  replace (existsb (has_id id) (rows s)) with true; [done|].
  symmetry. apply existsb_exists. exists row0. split; [by apply list_elem_of_In|by apply has_id_true].
Qed.

(** a report AbuseIPDB refused is kept for retry: its row is [failed] with
    one more attempt counted and the error recorded, and it becomes retryable
    exactly when the backoff has elapsed. *)
Theorem failed_is_retried now item e r' row0 (w : OutboxWorker (R := R) (D := D)) :
  wf (rows (w_store w)) -> readOnly (w_store w) = false ->
  row0 ∈ rows (w_store w) -> evidence_id row0 = item_id item ->
  let rep0 := Report (Reservation item) in
  let rep := if bool_decide (rp_IP rep0 = "") then with_ip (rs_IP (Reservation item)) rep0 else rep0 in
  Execute [rep] (reporter w) = (r', Err e) -> now + retryBackoff w <> 0 ->
  let w' := (processItem now item w).1 in
  (processItem now item w).2 = Err e /\
  forall x, x ∈ rows (w_store w') -> evidence_id x = item_id item ->
    status x = ReportStatusFailed /\ last_error x = e /\ attempt_count x = attempt_count row0 + 1 /\
    forall t, retryable t x = true <-> now + retryBackoff w <= t.
Proof.
  intros Hwf Hro Hin0 Hid0 rep0 rep Hex Hnz. unfold processItem. fold rep0 rep. rewrite Hex.
  cbn [w_store retryBackoff upd recordOutboxEvidence fst snd]. split; [done|]. intros x Hx Hid.
  unfold t_add in Hx.
  rewrite (RecordAttempt_failed now (EvidenceID (Reservation item)) e _ (w_store w) row0) in Hx by done.
  cbn [try_write set_store upd w_store] in Hx.
  apply cleanup_subset in Hx. cbn [rows with_rows noteWrite] in Hx.
  apply update_where_in in Hx as (r & Hr & ->).
  assert (evidence_id r = item_id item) as Hrid by (revert Hid; by destruct (has_id _ r)).
  rewrite (proj2 (has_id_true (EvidenceID (Reservation item)) r) Hrid).
  rewrite (wf_unique _ r row0 Hwf Hr Hin0) by congruence.
  split_and!; [done..|]. intros t. unfold retryable, due. cbn [status set_attempt next_attempt_at].
  rewrite (bool_decide_true (ReportStatusFailed = ReportStatusFailed)), orb_true_r by done.
  apply Z.leb_le.
Qed.

Lemma process_loop_refused now ctxErr g items (w : OutboxWorker (R := R) (D := D)) e :
  g 0%nat = Err e ->
  let '(w', n, _) := process_loop now ctxErr (Some g) 0 items 0 (Ok tt) w in
  reporter w' = reporter w /\ n = 0.
Proof. intros Hg. destruct items as [|it items]; cbn; [done|]. destruct (ctxErr 0%nat); [done|]. by rewrite Hg. Qed.

(** without an active lease for its scope and action the guarded worker
    sends nothing: whatever is due, the reporter is not called and no item
    counts as processed. *)
Theorem no_lease_no_report {L} `{LeaseStore L} now ctxErr (g : OutboxGuard.LeaseStoreOutboxGuard (L := L)) ls
    (w : OutboxWorker (R := R) (D := D)) :
  OutboxGuard.leases g = Some ls ->
  GetActiveLease now (OutboxGuard.scopeID g) (OutboxGuard.action g) ls = Ok None ->
  let '(w', n, _) := ProcessOnce now ctxErr (Some (fun _ => OutboxGuard.ValidateOutboxItem now g)) w in
  reporter w' = reporter w /\ n = 0.
Proof.
  intros Hls Hget. unfold ProcessOnce.
  destruct (ClaimRetryable _ _ _ _ _) as [s items].
  assert (exists e, OutboxGuard.ValidateOutboxItem now g = Err e) as [e He].
  { unfold OutboxGuard.ValidateOutboxItem. rewrite Hls, Hget. case_bool_decide; eauto. }
  pose proof (process_loop_refused now ctxErr (fun _ => OutboxGuard.ValidateOutboxItem now g) items
                (set_store w s) e He) as Hp.
  by destruct (process_loop _ _ _ _ _ _ _ _) as [[w' n] fe].
Qed.
End delivery.

(** ** Postponement *)
Lemma wf_pending_unique l a b :
  wf l -> a ∈ l -> b ∈ l -> is_pending a = true -> is_pending b = true -> ip a = ip b -> a = b.
Proof.
  intros [_ Hn]%wf_iff Ha Hb Pa Pb E. revert Ha Hb. induction l as [|x l IH]; [by intros ?%not_elem_of_nil|].
  cbn in Hn. intros Ha Hb.
  assert (Hx : is_pending x = true -> forall y, y ∈ l -> is_pending y = true -> ip y <> ip x).
  { intros Px y Hy Py Ey. rewrite Px in Hn. cbn in Hn. rewrite NoDup_cons in Hn. destruct Hn as [Hni _].
    apply Hni. rewrite <- Ey. apply list_elem_of_fmap_2, elem_of_lfilter. done. }
  assert (NoDup (ip <$> List.filter is_pending l)) as Hn'.
  { destruct (is_pending x); [|done]. cbn in Hn. by apply NoDup_cons in Hn as [_ ?]. }
  apply elem_of_cons in Ha as [->|Ha], Hb as [->|Hb]; [done| | |by apply IH].
  - by destruct (Hx Pa b Hb Pb).
  - by destruct (Hx Pb a Ha Pa).
Qed.

(** The aggregation window of [report_attempt.go]. *)
Definition abuseAggregationWindow : Z := 30 * second.

(** Every row of the IP waits for [T], under a key already used. *)
Definition waits (ip0 : string) (T : Z) (used : list string) (l : list row) : Prop :=
  forall r, r ∈ l -> ip r = ip0 ->
    is_pending r = true /\ expires_at r = T /\ next_attempt_at r = Some T /\ idempotency_key r ∈ used.

(** A reservation the reporting service makes at [now]. *)
Definition service_reservation (ip0 : string) (now : Z) (r : ReportReservation) : Prop :=
  rs_IP r = ip0 /\ rs_Status r = ReportStatusPending /\
  rs_ExpiresAt r = now + abuseAggregationWindow /\ 0 < now.

Lemma Reserve_postpones ip0 T used now r s s' :
  wf (rows s) -> waits ip0 T used (rows s) -> service_reservation ip0 now r ->
  IdempotencyKey r ∉ used -> now < T <= now + abuseAggregationWindow ->
  Reserve now r s = Ok s' ->
  wf (rows s') /\ waits ip0 (now + abuseAggregationWindow) (IdempotencyKey r :: used) (rows s').
Proof.
  intros Hwf Hw (Hip & Hst & Hexp & Hpos) Hkey HT. unfold Reserve.
  destruct (ensureWritable _ _); [|done]. cbn [rbind]. rewrite Hexp, Hst, Hip.
  unfold is_zero_time, abuseAggregationWindow, second in *.
  replace (now + 30 * 1000000000 =? 0) with false by lia.
  rewrite bool_decide_false by done. destruct (negb (marshal_ok (Report r))); [done|].
  destruct (List.find _ _) as [ex|] eqn:Ef.
  - apply find_some_in in Ef as [Hex Hp]. apply andb_true_iff in Hp as [Hi Hp].
    apply bool_decide_eq_true in Hi. destruct (Hw ex Hex Hi) as (_ & He & _ & Hk).
    rewrite bool_decide_false by (intros E; rewrite <- E in Hkey; done).
    unfold t_before. rewrite He. replace (now <? T) with true by lia.
    destruct (negb (marshal_ok _)); [done|].
    replace (now + 30 * 1000000000 <? T) with false by lia.
    intros [Hwf' ->]%commit_inv. split; [done|]. cbn [rows with_rows].
    intros x (y & Hy & ->)%update_where_in. destruct (has_id (evidence_id ex) y) eqn:Eh.
    + apply has_id_true in Eh. rewrite (wf_unique _ y ex Hwf Hy Hex Eh). cbn. intros _.
      split_and!; [done..|]. by right.
    + intros Hipy. exfalso. destruct (Hw y Hy Hipy) as (Py & _).
      rewrite (wf_pending_unique _ y ex Hwf Hy Hex Py Hp) in Eh by congruence.
      by rewrite (proj2 (has_id_true _ _) eq_refl) in Eh.
  - destruct (commit _ _ _) as [s1|] eqn:E; [|done]. cbn [rbind]. intros [= <-].
    apply commit_inv in E as [Hwf' ->]. split; [by apply cleanup_wf|].
    intros x Hx%cleanup_subset Hipx. cbn [rows with_rows noteWrite] in Hx.
    apply elem_of_app in Hx as [Hx| ->%list_elem_of_singleton].
    + exfalso. destruct (Hw x Hx Hipx) as (Px & _). apply list_elem_of_In in Hx.
      pose proof (List.find_none _ _ Ef x Hx) as Hn. cbn in Hn.
      rewrite bool_decide_true, Px in Hn by done. done.
    + cbn. split_and!; [done..|]. by left.
Qed.

(** Reservations for one IP, each within 30 seconds of the previous one and
    under a key of its own, all accepted. *)
Fixpoint keeps_coming (ip0 : string) (last : Z) (used : list string)
  (rs : list (Z * ReportReservation)) (s s' : ReportReservationStore) : Prop :=
  match rs with
  | [] => s' = s
  | (now, r) :: rs' =>
      service_reservation ip0 now r /\ (IdempotencyKey r ∉ used) /\
      last <= now < last + abuseAggregationWindow /\
      exists s1, Reserve now r s = Ok s1 /\ keeps_coming ip0 now (IdempotencyKey r :: used) rs' s1 s'
  end.

Definition last_time (last : Z) (rs : list (Z * ReportReservation)) : Z := foldl (fun _ x => x.1) last rs.

Lemma keeps_coming_waits ip0 rs : forall last used s s',
  wf (rows s) -> waits ip0 (last + abuseAggregationWindow) used (rows s) ->
  keeps_coming ip0 last used rs s s' ->
  exists used', wf (rows s') /\ waits ip0 (last_time last rs + abuseAggregationWindow) used' (rows s').
Proof.
  induction rs as [|[now r] rs IH]; intros last used s s' Hwf Hw; cbn [keeps_coming].
  - intros ->. eauto.
  - intros (Hsr & Hk & Ht & s1 & Hres & Hrest).
    destruct (Reserve_postpones ip0 (last + abuseAggregationWindow) used now r s s1) as [Hwf1 Hw1]; try done; [lia|].
    exact (IH now _ s1 s' Hwf1 Hw1 Hrest).
Qed.

(** while events of an IP keep arriving less than 30 seconds apart, each
    reservation moves the pending report of the IP past the next one, so that
    at no instant before the last event's window closes is the report handed
    to a worker: a sustained attack is not reported while it lasts. *)
Theorem sustained_attack_unreported ip0 last used rs s s' t clk lim cu :
  wf (rows s) -> waits ip0 (last + abuseAggregationWindow) used (rows s) ->
  keeps_coming ip0 last used rs s s' -> t < last_time last rs + abuseAggregationWindow ->
  Forall (fun i => rs_IP (Reservation i) <> ip0) (ClaimRetryable clk t lim cu s').2.
Proof.
  intros Hwf Hw Hk Ht. destruct (keeps_coming_waits _ _ _ _ _ _ Hwf Hw Hk) as (used' & Hwf' & Hw').
  destruct (ClaimRetryable clk t lim cu s') as [s2 out] eqn:E.
  destruct (ClaimRetryable_spec _ _ _ _ _ _ _ Hwf' E) as (_ & _ & _ & Hout).
  apply Forall_forall. intros i Hi Hip. destruct (Hout i Hi) as (r & Hr & Hret & ->).
  destruct (Hw' r Hr Hip) as (_ & _ & Hn & _).
  unfold retryable, due in Hret. rewrite Hn in Hret. apply andb_true_iff in Hret as [_ ?]. lia.
Qed.

(** ** Witnesses *)

(** A reporter that accepts everything and remembers it, and one that is down. *)
Record FakeReporter := { fr_sent : list ExecutableReport; fr_down : bool }.
#[global] Instance fake_reporter : Reporter FakeReporter := fun rs r =>
  if fr_down r then (r, Err "HTTP 500")
  else ({| fr_sent := fr_sent r ++ rs; fr_down := false |}, Ok tt).
#[global] Instance list_dedup : DedupStore (list string) := fun _ _ id d => (d ++ [id], Ok tt).

Definition demo_reservation (key id : string) (now : Z) : ReportReservation :=
  {| rs_IP := "203.0.113.7"; rs_Source := "waf"; IdempotencyKey := key; EvidenceID := id;
     rs_Status := ReportStatusPending; rs_ExpiresAt := now + abuseAggregationWindow;
     Report := demo_report "203.0.113.7" "/a" |}.

Definition or_else (r : result ReportReservationStore) : ReportReservationStore :=
  match r with Ok s => s | Err _ => NewReportReservationStore end.
Definition demo_store : ReportReservationStore :=
  or_else (Reserve hour (demo_reservation "k1" "ev1" hour) NewReportReservationStore).
Definition demo_worker (down : bool) : OutboxWorker (R := FakeReporter) (D := list string) :=
  NewOutboxWorker demo_store {| fr_sent := []; fr_down := down |} (Some []) 0 0 0.
Definition demo_item : ReportOutboxItem :=
  {| Reservation := demo_reservation "k1" "ev1" hour; AttemptCount := 0; LastError := "";
     NextAttemptAt := hour + abuseAggregationWindow |}.

Lemma demo_wf : wf (rows demo_store).
Proof. by vm_compute. Qed.

Theorem claims_exclusive_witness :
  let c := {| cc_clk := 2 * hour; cc_now := 2 * hour; cc_limit := 0; cc_until := 2 * hour + 30 * second |} in
  run_claims [c; c] demo_store = ["ev1"] /\ NoDup (run_claims [c; c] demo_store).
Proof.
  split; [by vm_compute|].
  apply (claims_exclusive (2 * hour + 30 * second)); [exact demo_wf|].
  apply List.Forall_cons; [|apply List.Forall_cons; [|apply List.Forall_nil]]; split; vm_compute;
    reflexivity || discriminate.
Defined.

Theorem delivered_once_witness :
  "ev1" ∉ taken (processItem (2 * hour) demo_item (demo_worker false)).1
    [OPass (2 * hour) (fun _ => None) None; OReserve (3 * hour) (demo_reservation "k2" "ev2" (3 * hour));
     OPass (4 * hour) (fun _ => None) None].
Proof.
  apply (delivered_once (2 * hour) demo_item (demo_worker false)).
  - exact demo_wf.
  - by vm_compute.
  - apply List.Forall_cons; [done|]. apply List.Forall_cons; [by vm_compute|].
    apply List.Forall_cons; [done|apply List.Forall_nil].
Defined.

Theorem failed_is_retried_witness :
  (processItem (2 * hour) demo_item (demo_worker true)).2 = Err "HTTP 500".
Proof.
  destruct (rows demo_store) as [|row0 l] eqn:E; [by vm_compute in E|].
  apply (failed_is_retried (2 * hour) demo_item "HTTP 500" {| fr_sent := []; fr_down := true |} row0
           (demo_worker true)).
  - exact demo_wf.
  - by vm_compute.
  - cbn [demo_worker NewOutboxWorker w_store]. rewrite E. by left.
  - vm_compute in E. by injection E as <- _.
  - by vm_compute.
  - by vm_compute.
Defined.

Theorem no_lease_no_report_witness :
  let '(w', n, _) := ProcessOnce (2 * hour) (fun _ => None)
    (Some (fun _ => OutboxGuard.ValidateOutboxItem (2 * hour)
       (OutboxGuard.NewLeaseStoreOutboxGuard "s" "" (Some LeaseTable.NewLeaseRepository))))
    (demo_worker false) in
  reporter w' = {| fr_sent := []; fr_down := false |} /\ n = 0.
Proof.
  exact (no_lease_no_report (2 * hour) (fun _ => None)
    (OutboxGuard.NewLeaseStoreOutboxGuard "s" "" (Some LeaseTable.NewLeaseRepository))
    LeaseTable.NewLeaseRepository (demo_worker false) eq_refl eq_refl).
Defined.

Theorem sustained_attack_unreported_witness :
  let s1 := or_else (Reserve (hour + 20 * second) (demo_reservation "k2" "ev2" (hour + 20 * second)) demo_store) in
  Forall (fun i => rs_IP (Reservation i) <> "203.0.113.7")
    (ClaimRetryable (hour + 45 * second) (hour + 45 * second) 0 (2 * hour) s1).2.
Proof.
  apply (sustained_attack_unreported "203.0.113.7" hour ["k1"]
           [(hour + 20 * second, demo_reservation "k2" "ev2" (hour + 20 * second))] demo_store).
  - exact demo_wf.
  - intros r Hr _. assert (rows demo_store = [default (hd r (rows demo_store)) (head (rows demo_store))]) as E
      by (vm_compute; reflexivity).
    rewrite E in Hr. apply list_elem_of_singleton in Hr as ->. vm_compute. repeat split; left.
  - split; [repeat split; vm_compute; reflexivity|]. split; [|split; [split; vm_compute; done|]].
    + cbn. set_solver.
    + eexists. split; [|reflexivity]. vm_compute. reflexivity.
  - by vm_compute.
Defined.

End Outbox.
