(* ===== verification/Sha256.v ===== *)
(** * SHA-256

    [crypto/sha256] as the program uses it: scope identifiers are prefixes of
    the hexadecimal digest.  Words are 32-bit integers in [Z], with addition
    reduced modulo [2^32]. *)

From S2P Require Import Prelude.

Local Open Scope Z_scope.

Module Sha256.

Definition w32 (z : Z) : Z := Z.land z 0xffffffff.
Definition add32 (a b : Z) : Z := w32 (a + b).
Definition rotr (n x : Z) : Z := Z.lor (Z.shiftr x n) (w32 (Z.shiftl x (32 - n))).

Definition ch (x y z : Z) : Z := Z.lxor (Z.land x y) (Z.land (Z.lxor x 0xffffffff) z).
Definition maj (x y z : Z) : Z := Z.lxor (Z.lxor (Z.land x y) (Z.land x z)) (Z.land y z).
Definition bsig0 (x : Z) : Z := Z.lxor (Z.lxor (rotr 2 x) (rotr 13 x)) (rotr 22 x).
Definition bsig1 (x : Z) : Z := Z.lxor (Z.lxor (rotr 6 x) (rotr 11 x)) (rotr 25 x).
Definition ssig0 (x : Z) : Z := Z.lxor (Z.lxor (rotr 7 x) (rotr 18 x)) (Z.shiftr x 3).
Definition ssig1 (x : Z) : Z := Z.lxor (Z.lxor (rotr 17 x) (rotr 19 x)) (Z.shiftr x 10).

(** The first 32 bits of the fractional parts of the cube roots of the first
    64 primes, and of the square roots of the first 8. *)
Definition K : list Z :=
  [1116352408; 1899447441; 3049323471; 3921009573; 961987163; 1508970993;
   2453635748; 2870763221; 3624381080; 310598401; 607225278; 1426881987;
   1925078388; 2162078206; 2614888103; 3248222580; 3835390401; 4022224774;
   264347078; 604807628; 770255983; 1249150122; 1555081692; 1996064986;
   2554220882; 2821834349; 2952996808; 3210313671; 3336571891; 3584528711;
   113926993; 338241895; 666307205; 773529912; 1294757372; 1396182291;
   1695183700; 1986661051; 2177026350; 2456956037; 2730485921; 2820302411;
   3259730800; 3345764771; 3516065817; 3600352804; 4094571909; 275423344;
   430227734; 506948616; 659060556; 883997877; 958139571; 1322822218;
   1537002063; 1747873779; 1955562222; 2024104815; 2227730452; 2361852424;
   2428436474; 2756734187; 3204031479; 3329325298].
Definition H0 : list Z :=
  [1779033703; 3144134277; 1013904242; 2773480762; 1359893119; 2600822924;
   528734635; 1541459225].

(** Padding: a 1 bit, zeros, and the length in bits on 64 bits. *)
Definition pad (m : list Z) : list Z :=
  let n := Z.of_nat (length m) in
  let zeros := (55 - n) `mod` 64 in
  m ++ [128] ++ repeat 0 (Z.to_nat zeros) ++
  ((fun i => Z.land (Z.shiftr (8 * n) (8 * i)) 255) <$> [7; 6; 5; 4; 3; 2; 1; 0]).

Fixpoint words (fuel : nat) (l : list Z) : list Z :=
  match fuel, l with
  | S f, a :: b :: c :: d :: l' => (a * 2 ^ 24 + b * 2 ^ 16 + c * 2 ^ 8 + d) :: words f l'
  | _, _ => []
  end.

(** The message schedule, kept in reverse: the 16 latest words suffice. *)
Definition next_word (rev : list Z) : Z :=
  let at_ i := nth i rev 0 in
  add32 (add32 (ssig1 (at_ 1%nat)) (at_ 6%nat)) (add32 (ssig0 (at_ 14%nat)) (at_ 15%nat)).
Fixpoint schedule (n : nat) (rev : list Z) : list Z :=
  match n with O => rev | S n' => schedule n' (next_word rev :: rev) end.

Definition round (st : list Z) (kw : Z * Z) : list Z :=
  match st with
  | [a; b; c; d; e; f; g; h] =>
      let t1 := add32 (add32 h (bsig1 e)) (add32 (ch e f g) (add32 (kw.1) (kw.2))) in
      let t2 := add32 (bsig0 a) (maj a b c) in
      [add32 t1 t2; a; b; c; add32 d t1; e; f; g]
  | _ => st
  end.

Definition block (h : list Z) (ws : list Z) : list Z :=
  let w := rev (schedule 48 (rev ws)) in
  zip_with add32 h (foldl round h (zip K w)).

Fixpoint blocks (fuel : nat) (h : list Z) (ws : list Z) : list Z :=
  match fuel with
  | O => h
  | S f => match ws with [] => h | _ => blocks f (block h (take 16 ws)) (drop 16 ws) end
  end.

Definition bytes_of (s : string) : list Z :=
  (fun a => Z.of_N (Ascii.N_of_ascii a)) <$> String.list_ascii_of_string s.

Definition digest (s : string) : list Z :=
  let p := pad (bytes_of s) in
  blocks (length p) H0 (words (length p) p).

(** [fmt.Sprintf("%x", sum)]. *)
Definition hex_nibble (n : Z) : string :=
  match String.get (Z.to_nat n) "0123456789abcdef" with Some c => String c "" | None => "" end.
Definition hex_word (w : Z) : string :=
  str_join "" ((fun i => hex_nibble (Z.land (Z.shiftr w (4 * i)) 15)) <$> [7; 6; 5; 4; 3; 2; 1; 0]).
Definition hex_digest (s : string) : string := str_join "" (hex_word <$> digest s).

(** The digest is eight words, sixty-four hexadecimal characters. *)
Lemma round_length st kw : length (round st kw) = length st.
Proof. unfold round. repeat case_match; done. Qed.

Lemma block_length h ws : length (block h ws) = length h.
Proof.
  unfold block. generalize (zip K (rev (schedule 48 (rev ws)))). intros l.
  assert (forall st, length (foldl round st l) = length st) as Hf.
  { induction l as [|kw l IH]; intros st; cbn; [done|]. by rewrite IH, round_length. }
  rewrite length_zip_with, Hf. lia.
Qed.

Lemma blocks_length fuel h ws : length (blocks fuel h ws) = length h.
Proof.
  revert h ws. induction fuel as [|f IH]; intros h ws; cbn; [done|].
  destruct ws; [done|]. by rewrite IH, block_length.
Qed.

Lemma hex_nibble_length x : String.length (hex_nibble (Z.land x 15)) = 1%nat.
Proof.
  assert (0 <= Z.land x 15 < 16) as Hr.
  { change 15 with (Z.ones 4). rewrite Z.land_ones by lia. apply Z.mod_pos_bound. lia. }
  revert Hr. generalize (Z.land x 15). intros n Hn.
  assert (Forall (fun n => String.length (hex_nibble n) = 1%nat) (seqZ 0 16)) as Hall
    by (by repeat constructor).
  rewrite Forall_forall in Hall. apply Hall, elem_of_seqZ. lia.
Qed.

Lemma str_join_nil_cons (a : string) l :
  String.length (str_join "" (a :: l)) = (String.length a + String.length (str_join "" l))%nat.
Proof.
  destruct l as [|b l]; [cbn; lia|].
  change (str_join "" (a :: b :: l)) with (String.append a (str_join "" (b :: l))).
  apply str_length_app.
Qed.

Lemma str_join_length n (l : list string) :
  Forall (fun s => String.length s = n) l ->
  String.length (str_join "" l) = (n * length l)%nat.
Proof.
  induction 1 as [|s l Hs Hl IH]; [cbn; lia|].
  rewrite str_join_nil_cons, IH, Hs. cbn. lia.
Qed.

Lemma hex_digest_length s : String.length (hex_digest s) = 64%nat.
Proof.
  unfold hex_digest. rewrite (str_join_length 8).
  - rewrite length_fmap. unfold digest. by rewrite blocks_length.
  - apply Forall_fmap, Forall_true. intros w. unfold compose, hex_word.
    rewrite (str_join_length 1); [done|].
    apply Forall_fmap, Forall_true. intros i. apply hex_nibble_length.
Qed.

Example sha256_vectors :
  hex_digest "abc" = "ba7816bf8f01cfea414140de5dae2223b00361a396177a9cb410ff61f20015ad" /\
  hex_digest "" = "e3b0c44298fc1c149afbf4c8996fb92427ae41e4649b934ca495991b7852b855" /\
  hex_digest "default|acct-1|zone-1|prod and a text that needs more than one block"
  = "516b7d7f407f77584030e817698fb9317a4e466ce3058a07e4a92fc545085f5b".
Proof. by vm_compute. Qed.

End Sha256.
