(* ===== verification/Events.v ===== *)
(** * Runtime events

    [internal/runtime/events]: the typed events of the runtime, the requests
    that publish them, and what the program uses of [encoding/json] to store
    them.  A [json.RawMessage] is the JSON value it holds, or [None] when its
    text is not JSON.  A [map[string]any] is [None] when it is nil; its
    numbers are integers, which is what the program puts there. *)

From S2P Require Import Prelude GoFmt Sha256 RuntimeModels.

Local Open Scope Z_scope.

(** ** JSON *)
Module Json.

Inductive json :=
| JNull
| JBool (b : bool)
| JInt (z : Z)
| JNumber (literal : string)   (** a number that is not an integer *)
| JTime (t : Z)                (** the RFC 3339 text of an instant *)
| JString (s : string)
| JObject (fields : list (string * json)).

Definition RawMessage : Type := option json.

(** The dynamic values of metadata maps. *)
Inductive any :=
| ANil
| ABool (b : bool)
| AString (s : string)
| AInt (z : Z)
| AInt64 (z : Z)
| AFloat64 (z : Z).

#[export] Instance any_eq_dec : EqDecision any.
Proof. solve_decision. Defined.

Definition Metadata : Type := option (gmap string any).

Definition dquote : string := bytes_str [34]%N.
Definition backslash : string := bytes_str [92]%N.

(** Escapes of [encoding/json], HTML characters included.  Text is taken to be
    valid UTF-8 without the separators U+2028 and U+2029. *)
Definition esc (a : Ascii.ascii) : string :=
  let n := Ascii.N_of_ascii a in
  let u := backslash +:+ "u00" +:+ Sha256.hex_nibble (Z.of_N (N.shiftr n 4)) +:+
           Sha256.hex_nibble (Z.of_N (N.land n 15)) in
  if (n =? 34)%N then backslash +:+ dquote
  else if (n =? 92)%N then backslash +:+ backslash
  else if (n =? 8)%N then backslash +:+ "b"
  else if (n =? 9)%N then backslash +:+ "t"
  else if (n =? 10)%N then backslash +:+ "n"
  else if (n =? 12)%N then backslash +:+ "f"
  else if (n =? 13)%N then backslash +:+ "r"
  else if (n <? 32)%N || (n =? 60)%N || (n =? 62)%N || (n =? 38)%N then u
  else String a "".

Fixpoint esc_string (s : string) : string :=
  match s with "" => "" | String a s' => esc a +:+ esc_string s' end.

Definition text_string (s : string) : string := dquote +:+ esc_string s +:+ dquote.

(** [time.RFC3339Nano]: the fraction of a second without trailing zeros. *)
Definition text_time (t : Z) : string :=
  let base := GoFmt.format_rfc3339 t in
  String.substring 0 (String.length base - 1) base +:+ GoFmt.fraction 9 (t `mod` second) +:+ "Z".

(** The compact text of a value. *)
Fixpoint text (j : json) : string :=
  match j with
  | JNull => "null"
  | JBool b => if b then "true" else "false"
  | JInt z => GoFmt.fmt_d z
  | JNumber lit => lit
  | JTime t => dquote +:+ text_time t +:+ dquote
  | JString s => text_string s
  | JObject fs =>
      "{" +:+ str_join "," ((fix go fs := match fs with
                             | [] => []
                             | (k, v) :: fs' => (text_string k +:+ ":" +:+ text v) :: go fs'
                             end) fs) +:+ "}"
  end.

Definition any_json (a : any) : json :=
  match a with
  | ANil => JNull
  | ABool b => JBool b
  | AString s => JString s
  | AInt z | AInt64 z | AFloat64 z => JInt z
  end.

(** A map is written with its keys in order; a nil map is [null]. *)
Definition metadata_json (m : Metadata) : json :=
  match m with
  | None => JNull
  | Some g => JObject (prod_map id any_json <$>
                isort (fun x y => str_lt x.1 y.1) (map_to_list g))
  end.

(** The nearest 64-bit float of an integer: 53 bits, ties to even. *)
Definition to_float (z : Z) : Z :=
  let a := Z.abs z in
  let e := Z.log2 a - 52 in
  if e <=? 0 then z
  else
    let q := Z.shiftr a e in
    let r := a - Z.shiftl q e in
    let half := Z.shiftl 1 (e - 1) in
    let q' := if (half <? r) || ((r =? half) && Z.odd q) then q + 1 else q in
    Z.sgn z * Z.shiftl q' e.

(** Decoding into [map[string]any] makes every number a float. *)
Definition reread_any (a : any) : any :=
  match a with
  | AInt z | AInt64 z | AFloat64 z => AFloat64 (to_float z)
  | _ => a
  end.
Definition reread (m : Metadata) : Metadata := fmap (M := gmap string) reread_any <$> m.

Lemma to_float_exact z : Z.abs z <= 2 ^ 53 -> to_float z = z.
Proof.
  intros Hz. unfold to_float. case_match eqn:He; [done|].
  apply Z.leb_gt in He.
  assert (Z.abs z = 2 ^ 53) as Ha.
  { destruct (decide (Z.abs z = 2 ^ 53)) as [|Hne]; [done|].
    destruct (decide (Z.abs z = 0)) as [H0|H0]; [rewrite H0 in He; cbn in He; lia|].
    assert (Z.log2 (Z.abs z) < 53) by (apply Z.log2_lt_pow2; lia). lia. }
  assert (z = 2 ^ 53 \/ z = - 2 ^ 53) as [-> | ->] by lia; by vm_compute.
Qed.

(** [json.Unmarshal] into a struct: keys match without regard to case, the last
    one wins, a missing key or [null] leaves the zero value, and a value of
    another type is an error. *)
Definition field (name : string) (fs : list (string * json)) : option json :=
  foldl (fun acc kv => if bool_decide (to_lower kv.1 = name) then Some kv.2 else acc) None fs.

Definition type_error : string := "json: cannot unmarshal value into Go struct field".

Definition get_string (name : string) (fs : list (string * json)) : result string :=
  match field name fs with
  | None | Some JNull => Ok ""
  | Some (JString s) => Ok s
  | Some (JTime t) => Ok (text_time t)
  | Some _ => Err type_error
  end.
Definition get_int64 (name : string) (fs : list (string * json)) : result Z :=
  match field name fs with
  | None | Some JNull => Ok 0
  | Some (JInt z) =>
      if (int64_min <=? z) && (z <=? int64_max) then Ok z else Err type_error
  | Some _ => Err type_error
  end.
Definition get_time (name : string) (fs : list (string * json)) : result Z :=
  match field name fs with
  | None | Some JNull => Ok 0
  | Some (JTime t) => Ok t
  | Some _ => Err type_error
  end.

(** The fields of a struct's text; [null] is the zero struct. *)
Definition fields_of (r : RawMessage) : result (list (string * json)) :=
  match r with
  | None => Err "unexpected end of JSON input"
  | Some JNull => Ok []
  | Some (JObject fs) => Ok fs
  | Some _ => Err "json: cannot unmarshal value into Go value"
  end.

Example text_example :
  text (JObject [("from", JString "idle"); ("n", JInt (-3)); ("at", JTime 1500000000)]) =
  "{" +:+ dquote +:+ "from" +:+ dquote +:+ ":" +:+ dquote +:+ "idle" +:+ dquote +:+ "," +:+
  dquote +:+ "n" +:+ dquote +:+ ":-3," +:+ dquote +:+ "at" +:+ dquote +:+ ":" +:+
  dquote +:+ "0001-01-01T00:00:01.5Z" +:+ dquote +:+ "}".
Proof. by vm_compute. Qed.

End Json.

(** ** Typed events ([events.go], [typed.go]) *)
Module Events.
Import Json Models.

Definition CategoryLifecycle : string := "lifecycle".
Definition CategoryPolicy : string := "policy".
Definition CategoryMutation : string := "mutation".
Definition CategoryRollback : string := "rollback".
Definition CategoryDrift : string := "drift".
Definition CategoryScheduler : string := "scheduler".
Definition CategoryLease : string := "lease".
Definition CategoryFencing : string := "fencing".
Definition CategoryHA : string := "ha".
Definition CategorySecurity : string := "security".

Definition SchemaVersion : Z := 1.

Record Event := {
  ev_ID : Z;
  ev_Sequence : Z;
  ev_UID : string;
  ev_Timestamp : Z;
  ev_Category : string;
  ev_Type : string;
  ev_CorrelationID : string;
  ev_CausalID : string;
  ev_Actor : string;
  ev_ScopeID : string;
  ev_Payload : RawMessage;
  ev_Metadata : Metadata;
}.

Definition TypeLifecycleTransition : string := "lifecycle_transition".
Definition TypePolicyDecision : string := "policy_decision".
Definition TypeMutationPlanned : string := "mutation_planned".
Definition TypeMutationApplied : string := "mutation_applied".
Definition TypeRollbackStarted : string := "rollback_started".
Definition TypeRollbackCompleted : string := "rollback_completed".
Definition TypeRollbackFailed : string := "rollback_failed".
Definition TypeDriftDetected : string := "drift_detected".
Definition TypeLeaseAcquired : string := "lease_acquired".
Definition TypeFencingTokenIssued : string := "fencing_token_issued".
Definition TypeSchedulerTick : string := "scheduler_tick".
Definition TypeWorkerStarted : string := "worker_started".
Definition TypeWorkerStopped : string := "worker_stopped".
Definition TypeGovernorPressure : string := "governor_pressure".
Definition TypeBreakerOpened : string := "breaker_opened".
Definition TypeBreakerClosed : string := "breaker_closed".
Definition TypeHALeaderElected : string := "ha_leader_elected".
Definition TypeHALeaderLost : string := "ha_leader_lost".
Definition TypeRecoveryStarted : string := "recovery_started".
Definition TypeRecoveryCompleted : string := "recovery_completed".
Definition TypeReplayDivergence : string := "replay_divergence_detected".

Record Context := {
  c_ScopeID : string;
  c_CorrelationID : string;
  c_CausalID : string;
  c_Actor : string;
  c_Metadata : Metadata;
}.

(** The payload structs, one constructor each. *)
Inductive Payload :=
| LifecycleTransitionPayload (From To Reason : string)
| PolicyDecisionPayload (PolicyID Decision Action Reason : string)
| MutationAppliedPayload (MutationID Target Action Status LineageID : string)
| MutationPlannedPayload (MutationID Target Action Reason LineageID : string)
| RollbackPayload (RollbackID Reason LineageID : string)
| DriftDetectedPayload (Target Severity Diff : string)
| LeaseAcquiredPayload (LeaseID Action EpochID Owner : string) (FencingToken ExpiresAt : Z)
| FencingTokenIssuedPayload (EpochID : string) (FencingToken : Z) (Reason : string)
| SchedulerTickPayload (ScopeID WorkType : string) (Priority : Z)
| WorkerLifecyclePayload (WorkerID ScopeID Status : string)
| HALeaderPayload (NodeID Reason : string)
| GovernorPressurePayload (TenantID UsageRatio Reason : string)
| BreakerStatePayload (State Reason : string)
| RecoveryPayload (Mode : string) (TargetTime TargetSeq : Z) (Reason : string)
| ReplayDivergencePayload (ExpectedChecksum ActualChecksum : string) (Sequence : Z) (Reason : string)
| MapPayload (fields : list (string * json)).   (** a [map[string]any] *)

Definition jfield (name value : string) : string * json := (name, JString value).

(** [json.Marshal] of a payload, by the struct tags.  [target_sequence] is
    omitted when zero; [omitempty] does nothing for a [time.Time]. *)
Definition marshal_payload (p : Payload) : json :=
  JObject
    match p with
    | LifecycleTransitionPayload f t r => [jfield "from" f; jfield "to" t; jfield "reason" r]
    | PolicyDecisionPayload i d a r =>
        [jfield "policy_id" i; jfield "decision" d; jfield "action" a; jfield "reason" r]
    | MutationAppliedPayload i t a s l =>
        [jfield "mutation_id" i; jfield "target" t; jfield "action" a; jfield "status" s;
         jfield "lineage_id" l]
    | MutationPlannedPayload i t a r l =>
        [jfield "mutation_id" i; jfield "target" t; jfield "action" a; jfield "reason" r;
         jfield "lineage_id" l]
    | RollbackPayload i r l => [jfield "rollback_id" i; jfield "reason" r; jfield "lineage_id" l]
    | DriftDetectedPayload t s d => [jfield "target" t; jfield "severity" s; jfield "diff" d]
    | LeaseAcquiredPayload i a e o tok x =>
        [jfield "lease_id" i; jfield "action" a; jfield "epoch_id" e; jfield "owner" o;
         ("fencing_token", JInt tok); ("expires_at", JTime x)]
    | FencingTokenIssuedPayload e tok r =>
        [jfield "epoch_id" e; ("fencing_token", JInt tok); jfield "reason" r]
    | SchedulerTickPayload s w p =>
        [jfield "scope_id" s; jfield "work_type" w; ("priority", JInt p)]
    | WorkerLifecyclePayload w s st =>
        [jfield "worker_id" w; jfield "scope_id" s; jfield "status" st]
    | HALeaderPayload n r => [jfield "node_id" n; jfield "reason" r]
    | GovernorPressurePayload t u r =>
        [jfield "tenant_id" t; ("usage_ratio", JNumber u); jfield "reason" r]
    | BreakerStatePayload s r => [jfield "state" s; jfield "reason" r]
    | RecoveryPayload m t q r =>
        [jfield "mode" m; ("target_time", JTime t)] ++
        (if q =? 0 then [] else [("target_sequence", JInt q)]) ++ [jfield "reason" r]
    | ReplayDivergencePayload e a q r =>
        [jfield "expected_checksum" e; jfield "actual_checksum" a; ("sequence", JInt q);
         jfield "reason" r]
    | MapPayload fs => isort (fun x y => str_lt x.1 y.1) fs
    end.

Record PublishRequest := {
  r_UID : string;
  r_Timestamp : Z;
  r_Category : string;
  r_Type : string;
  r_CorrelationID : string;
  r_CausalID : string;
  r_Actor : string;
  r_ScopeID : string;
  r_Payload : Payload;
  r_Metadata : Metadata;
}.

(** The copy of an empty map is nil. *)
Definition cloneMap (m : Metadata) : Metadata :=
  match m with
  | None => None
  | Some g => if bool_decide (g = ∅) then None else Some g
  end.

Definition request (category eventType : string) (ctx : Context) (p : Payload) : PublishRequest :=
  {| r_UID := ""; r_Timestamp := 0; r_Category := category; r_Type := eventType;
     r_CorrelationID := c_CorrelationID ctx; r_CausalID := c_CausalID ctx;
     r_Actor := c_Actor ctx; r_ScopeID := c_ScopeID ctx; r_Payload := p;
     r_Metadata := cloneMap (c_Metadata ctx) |}.

Definition set_metadata (m : Metadata) (ctx : Context) : Context :=
  {| c_ScopeID := c_ScopeID ctx; c_CorrelationID := c_CorrelationID ctx;
     c_CausalID := c_CausalID ctx; c_Actor := c_Actor ctx; c_Metadata := m |}.

(** A write to a nil map panics. *)
Definition map_write (k : string) (v : any) (m : Metadata) : result Metadata :=
  match m with
  | None => Err "panic: assignment to entry in nil map"
  | Some g => Ok (Some (<[k := v]> g))
  end.

Definition withLineage (m : Metadata) (mutationLineageID rollbackLineageID : string)
  : result Metadata :=
  rbind (if bool_decide (mutationLineageID = "") then Ok (cloneMap m)
         else map_write "mutation_lineage_id" (AString mutationLineageID) (cloneMap m)) (fun out =>
  if bool_decide (rollbackLineageID = "") then Ok out
  else map_write "rollback_lineage_id" (AString rollbackLineageID) out).

Definition NewLifecycleTransition (ctx : Context) (from to reason : string) : PublishRequest :=
  request CategoryLifecycle TypeLifecycleTransition ctx (LifecycleTransitionPayload from to reason).

Definition NewPolicyDecision (ctx : Context) (policyID decision action reason : string)
  : PublishRequest :=
  request CategoryPolicy TypePolicyDecision ctx (PolicyDecisionPayload policyID decision action reason).

Definition NewMutationPlanned (ctx : Context) (mutationID target action reason lineageID : string)
  : result PublishRequest :=
  rbind (withLineage (c_Metadata ctx) lineageID "") (fun m =>
  Ok (request CategoryMutation TypeMutationPlanned (set_metadata m ctx)
        (MutationPlannedPayload mutationID target action reason lineageID))).

Definition NewMutationApplied (ctx : Context) (mutationID target action status lineageID : string)
  : result PublishRequest :=
  rbind (withLineage (c_Metadata ctx) lineageID "") (fun m =>
  Ok (request CategoryMutation TypeMutationApplied (set_metadata m ctx)
        (MutationAppliedPayload mutationID target action status lineageID))).

Definition NewRollbackStarted (ctx : Context) (rollbackID reason lineageID : string)
  : result PublishRequest :=
  rbind (withLineage (c_Metadata ctx) "" lineageID) (fun m =>
  Ok (request CategoryRollback TypeRollbackStarted (set_metadata m ctx)
        (RollbackPayload rollbackID reason lineageID))).

Definition NewRollbackCompleted (ctx : Context) (rollbackID reason lineageID : string)
  : result PublishRequest :=
  rbind (withLineage (c_Metadata ctx) "" lineageID) (fun m =>
  Ok (request CategoryRollback TypeRollbackCompleted (set_metadata m ctx)
        (RollbackPayload rollbackID reason lineageID))).

Definition NewRollbackFailed (ctx : Context) (rollbackID reason lineageID : string)
  : result PublishRequest :=
  rbind (withLineage (c_Metadata ctx) "" lineageID) (fun m =>
  Ok (request CategoryRollback TypeRollbackFailed (set_metadata m ctx)
        (RollbackPayload rollbackID reason lineageID))).

Definition NewDriftDetected (ctx : Context) (target severity diff : string) : PublishRequest :=
  request CategoryDrift TypeDriftDetected ctx (DriftDetectedPayload target severity diff).

Definition NewLeaseAcquired (ctx : Context) (leaseID action epochID owner : string)
  (fencingToken expiresAt : Z) : PublishRequest :=
  request CategoryLease TypeLeaseAcquired ctx
    (LeaseAcquiredPayload leaseID action epochID owner fencingToken expiresAt).

Definition NewFencingTokenIssued (ctx : Context) (epochID : string) (fencingToken : Z)
  (reason : string) : PublishRequest :=
  request CategoryFencing TypeFencingTokenIssued ctx
    (FencingTokenIssuedPayload epochID fencingToken reason).

Definition NewSchedulerTick (ctx : Context) (workType : string) (priority : Z) : PublishRequest :=
  request CategoryScheduler TypeSchedulerTick ctx
    (SchedulerTickPayload (c_ScopeID ctx) workType priority).

Definition NewWorkerStarted (ctx : Context) (workerID : string) : PublishRequest :=
  request CategoryScheduler TypeWorkerStarted ctx
    (WorkerLifecyclePayload workerID (c_ScopeID ctx) "started").

Definition NewWorkerStopped (ctx : Context) (workerID : string) : PublishRequest :=
  request CategoryScheduler TypeWorkerStopped ctx
    (WorkerLifecyclePayload workerID (c_ScopeID ctx) "stopped").

(** The ratio is given as its JSON literal. *)
Definition NewGovernorPressure (ctx : Context) (tenantID usageRatio reason : string)
  : PublishRequest :=
  request CategoryScheduler TypeGovernorPressure ctx
    (GovernorPressurePayload tenantID usageRatio reason).

Definition NewBreakerOpened (ctx : Context) (reason : string) : PublishRequest :=
  request CategorySecurity TypeBreakerOpened ctx (BreakerStatePayload "open" reason).

Definition NewBreakerClosed (ctx : Context) (reason : string) : PublishRequest :=
  request CategorySecurity TypeBreakerClosed ctx (BreakerStatePayload "closed" reason).

Definition NewLeaderElected (ctx : Context) (nodeID reason : string) : PublishRequest :=
  request CategoryHA TypeHALeaderElected ctx (HALeaderPayload nodeID reason).

Definition NewLeaderLost (ctx : Context) (nodeID reason : string) : PublishRequest :=
  request CategoryHA TypeHALeaderLost ctx (HALeaderPayload nodeID reason).

Definition NewRecoveryStarted (ctx : Context) (mode : string) (targetTime targetSeq : Z)
  (reason : string) : PublishRequest :=
  request CategoryLifecycle TypeRecoveryStarted ctx (RecoveryPayload mode targetTime targetSeq reason).

Definition NewRecoveryCompleted (ctx : Context) (mode : string) (targetTime targetSeq : Z)
  (reason : string) : PublishRequest :=
  request CategoryLifecycle TypeRecoveryCompleted ctx (RecoveryPayload mode targetTime targetSeq reason).

Definition NewReplayDivergenceDetected (ctx : Context) (expectedChecksum actualChecksum : string)
  (sequence : Z) (reason : string) : PublishRequest :=
  request CategorySecurity TypeReplayDivergence ctx
    (ReplayDivergencePayload expectedChecksum actualChecksum sequence reason).

(** Adding a lineage panics exactly when there is a lineage to add and no
    metadata to add it to; otherwise the other keys are kept. *)
Theorem withLineage_panics_iff m ml rl :
  (exists e, withLineage m ml rl = Err e) <->
  (ml <> "" \/ rl <> "") /\ (m = None \/ m = Some ∅).
Proof.
  unfold withLineage, cloneMap, map_write.
  destruct m as [g|]; [destruct (decide (g = ∅)) as [->|]|];
    repeat (case_bool_decide; simplify_eq/=; try done); naive_solver.
Qed.

End Events.
