(* ===== verification/EventLog.v ===== *)
(** * Event log

    [internal/storage/sqlite/events.go] (the [events], [event_sequences] and
    [event_checkpoints] tables), [internal/runtime/events/bus.go] and
    [replay.go].  A transaction may find the database busy, fail, or fail at
    its commit with or without its effect, and the look-ups of an append may
    fail; the other reads of the database succeed. *)

From S2P Require Import Prelude GoFmt Sha256 RuntimeModels Events.

Local Open Scope Z_scope.

(** ** Tables *)
Module EventRepository.
Import Json Events.

Record Checkpoint := {
  cp_Name : string;
  cp_ScopeID : string;
  cp_Sequence : Z;
  cp_EventID : Z;
  cp_Checksum : string;
  cp_State : RawMessage;
  cp_Compact : bool;   (** the state's text is in compact form *)
  cp_Metadata : Metadata;
  cp_SchemaVersion : Z;
  cp_CreatedAt : Z;
}.

Inductive TxOutcome :=
| TxCommitted
| TxBusy (msg : string)
| TxFails (msg : string)
| TxCommitFails (applied : bool) (msg : string).

(** What the next transactions and the next look-ups by digest meet: the
    outcomes of the former, the errors of the latter ([None] for a look-up
    that works), in order; beyond the lists they work. *)
Record Faults := { transactions : list TxOutcome; lookups : list (option string) }.

Definition no_faults : Faults := {| transactions := []; lookups := [] |}.

Record EventRepository := {
  rows : list Event;                 (** in insertion order *)
  sequences : gmap string Z;         (** [event_sequences] *)
  next_id : Z;                       (** the AUTOINCREMENT counter *)
  checkpoints : list Checkpoint;
  readOnly : bool;
  storageBytes : Z;
  plan : Faults;
}.

Definition NewEventRepository : EventRepository :=
  {| rows := []; sequences := ∅; next_id := 1; checkpoints := []; readOnly := false;
     storageBytes := 0; plan := no_faults |}.

Definition set_plan (p : Faults) (db : EventRepository) : EventRepository :=
  {| rows := rows db; sequences := sequences db; next_id := next_id db;
     checkpoints := checkpoints db; readOnly := readOnly db; storageBytes := storageBytes db;
     plan := p |}.
Definition set_checkpoints (c : list Checkpoint) (db : EventRepository) : EventRepository :=
  {| rows := rows db; sequences := sequences db; next_id := next_id db;
     checkpoints := c; readOnly := readOnly db; storageBytes := storageBytes db; plan := plan db |}.
Definition set_rows (r : list Event) (db : EventRepository) : EventRepository :=
  {| rows := r; sequences := sequences db; next_id := next_id db;
     checkpoints := checkpoints db; readOnly := readOnly db; storageBytes := storageBytes db;
     plan := plan db |}.

Definition set_uid (u : string) (e : Event) : Event :=
  {| ev_ID := ev_ID e; ev_Sequence := ev_Sequence e; ev_UID := u; ev_Timestamp := ev_Timestamp e;
     ev_Category := ev_Category e; ev_Type := ev_Type e; ev_CorrelationID := ev_CorrelationID e;
     ev_CausalID := ev_CausalID e; ev_Actor := ev_Actor e; ev_ScopeID := ev_ScopeID e;
     ev_Payload := ev_Payload e; ev_Metadata := ev_Metadata e |}.
Definition set_ids (id seq : Z) (e : Event) : Event :=
  {| ev_ID := id; ev_Sequence := seq; ev_UID := ev_UID e; ev_Timestamp := ev_Timestamp e;
     ev_Category := ev_Category e; ev_Type := ev_Type e; ev_CorrelationID := ev_CorrelationID e;
     ev_CausalID := ev_CausalID e; ev_Actor := ev_Actor e; ev_ScopeID := ev_ScopeID e;
     ev_Payload := ev_Payload e; ev_Metadata := ev_Metadata e |}.

(** [json:"metadata,omitempty"]. *)
Definition metadata_field (m : Metadata) : list (string * json) :=
  match cloneMap m with None => [] | Some g => [("metadata", metadata_json (Some g))] end.

(** A digest of the event's content: neither its time nor its sequence is
    part of it.  A payload that is not JSON makes [json.Marshal] fail, and the
    digest is that of no bytes. *)
Definition eventUID (e : Event) : string :=
  Sha256.hex_digest
    match ev_Payload e with
    | None => ""
    | Some p =>
        text (JObject ([jfield "category" (ev_Category e); jfield "type" (ev_Type e);
                        jfield "correlation_id" (ev_CorrelationID e);
                        jfield "causal_id" (ev_CausalID e); jfield "actor" (ev_Actor e);
                        jfield "scope_id" (ev_ScopeID e); ("payload", p)] ++
                       metadata_field (ev_Metadata e)))
    end.

Definition same_uid (scope uid : string) (r : Event) : bool :=
  bool_decide (ev_ScopeID r = scope) && bool_decide (ev_UID r = uid).

Definition loadExistingEvent (e : Event) (db : EventRepository) : option Event :=
  if bool_decide (ev_UID e = "") || bool_decide (ev_ScopeID e = "") then None
  else match List.find (same_uid (ev_ScopeID e) (ev_UID e)) (rows db) with
       | Some r => Some (set_ids (ev_ID r) (ev_Sequence r) e)
       | None => None
       end.

(** The sequence number the upsert on [event_sequences] returns. *)
Definition next_sequence (scope : string) (db : EventRepository) : Z :=
  default 1 (sequences db !! scope).

(** UNIQUE(scope_id, sequence), and UNIQUE(scope_id, event_uid) for a uid that
    is not empty. *)
Definition violates (e : Event) (db : EventRepository) : bool :=
  existsb (fun r => bool_decide (ev_ScopeID r = ev_ScopeID e) &&
                    (bool_decide (ev_Sequence r = ev_Sequence e) ||
                     (negb (bool_decide (ev_UID e = "")) && bool_decide (ev_UID r = ev_UID e))))
          (rows db).

(** The two statements of the transaction, once committed. *)
Definition insert_event (e : Event) (db : EventRepository) : EventRepository :=
  {| rows := rows db ++ [e];
     sequences := <[ev_ScopeID e := ev_Sequence e + 1]> (sequences db);
     next_id := ev_ID e + 1; checkpoints := checkpoints db; readOnly := readOnly db;
     storageBytes := storageBytes db; plan := plan db |}.

Definition op_append : string := "storage.sqlite.EventRepository.Append".
Definition constraint_error : string := "constraint failed: UNIQUE constraint failed".
Definition ErrCommitAmbiguous : string := "sqlite event append commit ambiguous".

Definition pop_plan (db : EventRepository) : TxOutcome * EventRepository :=
  match transactions (plan db) with
  | [] => (TxCommitted, db)
  | o :: p => (o, set_plan {| transactions := p; lookups := lookups (plan db) |} db)
  end.

(** [loadExistingEvent] with its error. *)
Definition lookup_existing (e : Event) (db : EventRepository) : EventRepository * result (option Event) :=
  match lookups (plan db) with
  | [] => (db, Ok (loadExistingEvent e db))
  | f :: l => (set_plan {| transactions := transactions (plan db); lookups := l |} db,
               match f with None => Ok (loadExistingEvent e db) | Some m => Err m end)
  end.

(** The attempts of [Append]; [n] are left, of five. *)
Fixpoint append_loop (n : nat) (e : Event) (db : EventRepository)
  : EventRepository * result Event :=
  match n with
  | O => (db, Err (wrap_msg op_append "failed to append event after retry budget"))
  | S n' =>
      let '(o, db) := pop_plan db in
      let e1 := set_ids (next_id db) (next_sequence (ev_ScopeID e) db) e in
      match o with
      | TxBusy m =>
          match n' with
          | O => (db, Err (wrap_msg op_append m))
          | _ => append_loop n' e db
          end
      | TxFails m => (db, Err (wrap_msg op_append m))
      | TxCommitted | TxCommitFails _ _ =>
          if violates e1 db then
            let '(db, found) := lookup_existing e db in
            (db, match found with
                 | Ok (Some e') => Ok e'
                 | _ => Err (wrap_msg op_append constraint_error)
                 end)
          else
            match o with
            | TxCommitFails applied m =>
                let '(db, found) := lookup_existing e1 (if applied then insert_event e1 db else db) in
                (db, match found with
                     | Ok (Some e') => Ok e'
                     | _ => Err (wrap_msg op_append (ErrCommitAmbiguous +:+ ": " +:+ m))
                     end)
            | _ => (insert_event e1 db, Ok e1)
            end
      end
  end.

Definition with_uid (e : Event) : Event :=
  if bool_decide (ev_UID e = "") then set_uid (eventUID e) e else e.

Definition Append (e : Event) (db : EventRepository) : EventRepository * result Event :=
  match ensureWritable op_append (readOnly db) with
  | Err m => (db, Err m)
  | Ok _ =>
      let e := with_uid e in
      let '(db, found) := lookup_existing e db in
      match found with
      | Err m => (db, Err (wrap_msg op_append m))
      | Ok (Some e') => (db, Ok e')
      | Ok None => append_loop 5 e db
      end
  end.

(** [rows.Scan]: the metadata are decoded from their text. *)
Definition scan (e : Event) : Event :=
  {| ev_ID := ev_ID e; ev_Sequence := ev_Sequence e; ev_UID := ev_UID e;
     ev_Timestamp := ev_Timestamp e; ev_Category := ev_Category e; ev_Type := ev_Type e;
     ev_CorrelationID := ev_CorrelationID e; ev_CausalID := ev_CausalID e;
     ev_Actor := ev_Actor e; ev_ScopeID := ev_ScopeID e; ev_Payload := ev_Payload e;
     ev_Metadata := reread (ev_Metadata e) |}.

Definition in_scope (scope : string) (db : EventRepository) : list Event :=
  List.filter (fun e => bool_decide (ev_ScopeID e = scope)) (rows db).

Definition List_ (scopeID : string) (afterSequence : Z) (db : EventRepository) : list Event :=
  scan <$> isort (fun x y => ev_Sequence x <? ev_Sequence y)
             (List.filter (fun e => afterSequence <? ev_Sequence e) (in_scope scopeID db)).

(** [COALESCE(MAX(sequence), 0)]. *)
Definition GetLastSequence (scopeID : string) (db : EventRepository) : Z :=
  foldr Z.max 0 (ev_Sequence <$> in_scope scopeID db).

(** ** Checkpoints *)
Definition same_checkpoint (scope name : string) (seq : Z) (c : Checkpoint) : bool :=
  bool_decide (cp_ScopeID c = scope) && bool_decide (cp_Name c = name) && (cp_Sequence c =? seq).

Definition SaveCheckpoint (now : Z) (c : Checkpoint) (db : EventRepository)
  : EventRepository * result unit :=
  match ensureWritable "storage.sqlite.EventRepository.SaveCheckpoint" (readOnly db) with
  | Err m => (db, Err m)
  | Ok _ =>
      let c := {| cp_Name := cp_Name c; cp_ScopeID := cp_ScopeID c; cp_Sequence := cp_Sequence c;
                  cp_EventID := cp_EventID c; cp_Checksum := cp_Checksum c; cp_State := cp_State c;
                  cp_Compact := cp_Compact c; cp_Metadata := cp_Metadata c;
                  cp_SchemaVersion := if cp_SchemaVersion c =? 0 then SchemaVersion
                                      else cp_SchemaVersion c;
                  cp_CreatedAt := if is_zero_time (cp_CreatedAt c) then now else cp_CreatedAt c |} in
      if existsb (same_checkpoint (cp_ScopeID c) (cp_Name c) (cp_Sequence c)) (checkpoints db)
      then (db, Ok tt)   (* INSERT OR IGNORE *)
      else (set_checkpoints (checkpoints db ++ [c]) db, Ok tt)
  end.

Definition scan_checkpoint (c : Checkpoint) : Checkpoint :=
  {| cp_Name := cp_Name c; cp_ScopeID := cp_ScopeID c; cp_Sequence := cp_Sequence c;
     cp_EventID := cp_EventID c; cp_Checksum := cp_Checksum c; cp_State := cp_State c;
     cp_Compact := cp_Compact c; cp_Metadata := reread (cp_Metadata c);
     cp_SchemaVersion := cp_SchemaVersion c; cp_CreatedAt := cp_CreatedAt c |}.

Definition named_checkpoints (scopeID name : string) (db : EventRepository) : list Checkpoint :=
  scan_checkpoint <$> isort (fun x y => cp_Sequence y <? cp_Sequence x)
    (List.filter (fun c => bool_decide (cp_ScopeID c = scopeID) && bool_decide (cp_Name c = name))
                 (checkpoints db)).

Definition ListCheckpoints (scopeID name : string) (limit : Z) (db : EventRepository)
  : list Checkpoint :=
  let l := named_checkpoints scopeID name db in
  if 0 <? limit then take (Z.to_nat limit) l else l.

Definition LatestCheckpoint (scopeID name : string) (db : EventRepository) : option Checkpoint :=
  head (named_checkpoints scopeID name db).

Definition DeleteCheckpoint (scopeID name : string) (sequence : Z) (db : EventRepository)
  : EventRepository * result unit :=
  match ensureWritable "storage.sqlite.EventRepository.DeleteCheckpoint" (readOnly db) with
  | Err m => (db, Err m)
  | Ok _ =>
      (set_checkpoints (List.filter (fun c => negb (same_checkpoint scopeID name sequence c))
                                    (checkpoints db)) db, Ok tt)
  end.

(** ** Compaction of the archive *)
Record ArchiveCompactionStats := {
  SafeSequence : Z; HotEntries : Z; WarmEntries : Z; ColdEntries : Z;
  ReplaySafeEntries : Z; PurgeCandidates : Z; Compactions : Z; Rotations : Z; StorageBytes : Z;
}.

Definition hasCheckpointBoundary (scopeID name : string) (sequence : Z) (db : EventRepository) : bool :=
  existsb (same_checkpoint scopeID name sequence) (checkpoints db).

Definition countEvents (scopeID : string) (db : EventRepository) : Z :=
  Z.of_nat (length (in_scope scopeID db)).
Definition countEventsThrough (scopeID : string) (through : Z) (db : EventRepository) : Z :=
  Z.of_nat (length (List.filter (fun e => ev_Sequence e <=? through) (in_scope scopeID db))).

Definition op_compact : string := "storage.sqlite.EventRepository.CompactRawArchive".

Definition boundary_missing (scopeID name : string) (through : Z) : string :=
  "checkpoint boundary not found for " +:+ scopeID +:+ "/" +:+ name +:+ " at sequence " +:+
  GoFmt.fmt_d through.

Definition CompactRawArchive (scopeID checkpointName : string) (through : Z) (db : EventRepository)
  : EventRepository * result ArchiveCompactionStats :=
  match ensureWritable op_compact (readOnly db) with
  | Err m => (db, Err m)
  | Ok _ =>
      if through =? 0 then (db, Err (wrap_msg op_compact "checkpoint boundary must be positive"))
      else if negb (hasCheckpointBoundary scopeID checkpointName through db) then
        (db, Err (wrap_msg op_compact (boundary_missing scopeID checkpointName through)))
      else
        let total := countEvents scopeID db in
        let safeCount := countEventsThrough scopeID through db in
        if safeCount =? 0 then
          (db, Ok {| SafeSequence := through; HotEntries := total; WarmEntries := 0;
                     ColdEntries := 0; ReplaySafeEntries := total; PurgeCandidates := 0;
                     Compactions := 0; Rotations := 0; StorageBytes := storageBytes db |})
        else
          let keep := List.filter (fun e => negb (bool_decide (ev_ScopeID e = scopeID) &&
                                             (ev_Sequence e <=? through))) (rows db) in
          (set_rows keep db,
           Ok {| SafeSequence := through;
                 HotEntries := if safeCount <=? total then total - safeCount else 0;
                 WarmEntries := safeCount;
                 ColdEntries := Z.of_nat (length (rows db)) - Z.of_nat (length keep);
                 ReplaySafeEntries := total - safeCount; PurgeCandidates := safeCount;
                 Compactions := 1; Rotations := 1; StorageBytes := storageBytes db |})
  end.

Definition PurgeThrough := CompactRawArchive.

(** ** The log invariant

    Per scope the sequence numbers of the rows are consecutive and end just
    below the counter (after a compaction they start where it stopped), row
    ids increase, and a digest identifies at most one row of its scope. *)
Definition uid_keys (l : list Event) : list (string * string) :=
  (fun e => (ev_ScopeID e, ev_UID e)) <$>
    List.filter (fun e => negb (bool_decide (ev_UID e = ""))) l.

Definition contiguous (scope : string) (db : EventRepository) : Prop :=
  exists b n, 1 <= b /\ 0 <= n /\ b + n = next_sequence scope db /\
              ev_Sequence <$> in_scope scope db = seqZ b n.

Record log_ok (db : EventRepository) : Prop := {
  log_contiguous : forall scope, contiguous scope db;
  log_uids : NoDup (uid_keys (rows db));
  log_ids : StronglySorted Z.lt (ev_ID <$> rows db);
  log_next_id : Forall (fun e => ev_ID e < next_id db) (rows db);
}.

Lemma contiguous_lt scope db e :
  contiguous scope db -> e ∈ rows db -> ev_ScopeID e = scope ->
  1 <= ev_Sequence e < next_sequence scope db.
Proof.
  intros (b & n & Hb & Hn & Hnext & Hseq) He Hs.
  assert (ev_Sequence e ∈ ev_Sequence <$> in_scope scope db) as Hin.
  { apply list_elem_of_fmap_2, elem_of_lfilter. rewrite bool_decide_eq_true. done. }
  rewrite Hseq, elem_of_seqZ in Hin. lia.
Qed.

Lemma elem_of_uid_keys k l :
  k ∈ uid_keys l <-> exists e, e ∈ l /\ ev_UID e <> "" /\ k = (ev_ScopeID e, ev_UID e).
Proof.
  unfold uid_keys. rewrite list_elem_of_fmap. split.
  - intros (e & -> & [He Hn]%elem_of_lfilter). bool_simpl. eauto.
  - intros (e & He & Hn & ->). exists e. rewrite elem_of_lfilter. by case_bool_decide.
Qed.

Lemma violates_false e db :
  violates e db = false ->
  forall r, r ∈ rows db -> ev_ScopeID r = ev_ScopeID e ->
  ev_Sequence r <> ev_Sequence e /\ (ev_UID e <> "" -> ev_UID r <> ev_UID e).
Proof.
  unfold violates. intros Hv r Hr Hs.
  assert (forall f : Event -> bool, existsb f (rows db) = false -> f r = false) as Hf.
  { intros f. rewrite <- !not_true_iff_false, existsb_exists. intros Hn Hf. apply Hn.
    exists r. by rewrite <- list_elem_of_In. }
  apply Hf in Hv. repeat (case_bool_decide; simplify_eq/=); naive_solver.
Qed.

Lemma in_scope_insert scope e db :
  in_scope scope (insert_event e db) =
  in_scope scope db ++ (if bool_decide (ev_ScopeID e = scope) then [e] else []).
Proof. unfold in_scope. cbn. rewrite List.filter_app. cbn. by case_bool_decide. Qed.

Lemma uid_keys_app l1 l2 : uid_keys (l1 ++ l2) = uid_keys l1 ++ uid_keys l2.
Proof. unfold uid_keys. by rewrite List.filter_app, fmap_app. Qed.

(** A committed transaction keeps the invariant. *)
Lemma insert_event_ok e db :
  log_ok db -> violates e db = false ->
  ev_Sequence e = next_sequence (ev_ScopeID e) db -> ev_ID e = next_id db ->
  log_ok (insert_event e db).
Proof.
  intros [Hc Hu Hi Hn] Hv Hs Hid.
  split; try change (rows (insert_event e db)) with (rows db ++ [e]);
    try change (next_id (insert_event e db)) with (ev_ID e + 1).
  - intros scope. destruct (Hc scope) as (b & n & Hb & Hn0 & Hnx & Hseq).
    unfold contiguous. rewrite in_scope_insert. unfold next_sequence in *. cbn.
    destruct (decide (ev_ScopeID e = scope)) as [<-|Hne].
    + exists b, (n + 1). rewrite bool_decide_true, lookup_insert_eq by done. cbn.
      rewrite fmap_app, Hseq. repeat split; [lia..|]. cbn.
      replace (ev_Sequence e) with (b + n) by congruence.
      by rewrite seqZ_app by lia.
    + exists b, n. rewrite bool_decide_false, lookup_insert_ne, app_nil_r by done. done.
  - rewrite uid_keys_app. apply NoDup_app. split; [done|].
    unfold uid_keys at 2 3. cbn. case_bool_decide as Hu0; cbn; [split; [set_solver|constructor]|].
    split; [|apply NoDup_singleton]. intros k (r & Hr & Hru & ->)%elem_of_uid_keys.
    rewrite list_elem_of_singleton. intros [= Hsc Huid].
    destruct (violates_false _ _ Hv r Hr Hsc) as [_ Hd]. by apply (Hd Hu0).
  - rewrite fmap_app. apply StronglySorted_app_2; [|done|repeat constructor].
    intros x y (r & -> & Hr)%list_elem_of_fmap ->%list_elem_of_singleton.
    rewrite Forall_forall in Hn. rewrite Hid. by apply Hn.
  - apply Forall_app. split; [|repeat constructor; lia].
    eapply Forall_impl; [done|]. cbn. lia.
Qed.

Lemma set_plan_ok p db : log_ok db -> log_ok (set_plan p db).
Proof. by intros []. Qed.

Lemma find_same_uid_none e db :
  violates e db = false -> ev_UID e <> "" ->
  List.find (same_uid (ev_ScopeID e) (ev_UID e)) (rows db) = None.
Proof.
  intros Hv Hu.
  destruct (List.find _ _) as [r|] eqn:Hf; [|done].
  apply find_some_in in Hf as [Hr Hs]. unfold same_uid in Hs. bool_simpl.
  destruct (violates_false _ _ Hv r Hr) as [_ Hd]; [done|]. by apply Hd in Hu.
Qed.

Lemma find_app {A} (f : A -> bool) l1 l2 :
  List.find f (l1 ++ l2) = match List.find f l1 with Some x => Some x | None => List.find f l2 end.
Proof. induction l1 as [|x l1 IH]; cbn; [done|]. by destruct (f x). Qed.

Lemma set_ids_idem i j e : ev_ID e = i -> ev_Sequence e = j -> set_ids i j e = e.
Proof. by destruct e; cbn; intros <- <-. Qed.

(** Once committed, the event is found again under its digest. *)
Lemma load_inserted e db :
  violates e db = false -> ev_UID e <> "" -> ev_ScopeID e <> "" ->
  loadExistingEvent e (insert_event e db) = Some e.
Proof.
  intros Hv Hu Hs. unfold loadExistingEvent. rewrite !bool_decide_false by done. cbn.
  rewrite find_app, find_same_uid_none by done. cbn. unfold same_uid.
  rewrite !bool_decide_true by done. cbn. by rewrite set_ids_idem.
Qed.

Lemma load_not_inserted e db : violates e db = false -> loadExistingEvent e db = None.
Proof.
  intros Hv. unfold loadExistingEvent. case_bool_decide as Hu; [done|]. case_bool_decide; [done|].
  cbn. by rewrite find_same_uid_none.
Qed.

Lemma set_plan_id db : set_plan (plan db) db = db.
Proof. by destruct db. Qed.

Lemma pop_plan_set db o db' : pop_plan db = (o, db') -> exists p, db' = set_plan p db.
Proof.
  unfold pop_plan. case_match; intros [= <- <-]; [|eauto]. exists (plan db). by rewrite set_plan_id.
Qed.

Lemma lookup_existing_set e db db' f : lookup_existing e db = (db', f) ->
  exists p, db' = set_plan p db /\ (f = Ok (loadExistingEvent e db) \/ is_ok f = false).
Proof.
  unfold lookup_existing. destruct (lookups (plan db)) as [|[m|] l]; intros [= <- <-]; eexists; (split; [|by auto]); try done.
  by rewrite set_plan_id.
Qed.

(** The answer of an append that does not know whether its commit took effect. *)
Definition ambiguous (r : result Event) : Prop :=
  exists m, r = Err (wrap_msg op_append (ErrCommitAmbiguous +:+ ": " +:+ m)).

(** An attempt either leaves the tables as they were, or has inserted the
    event; in the second case it reports the event, or that it does not know. *)
Lemma append_loop_cases n e db db' r :
  append_loop n e db = (db', r) ->
  exists p,
    (db' = set_plan p db /\
     (is_ok r = false \/ exists e', loadExistingEvent e db = Some e' /\ r = Ok e')) \/
    (let e1 := set_ids (next_id db) (next_sequence (ev_ScopeID e) db) e in
     violates e1 db = false /\ db' = insert_event e1 (set_plan p db) /\ (r = Ok e1 \/ ambiguous r)).
Proof.
  revert db. induction n as [|n IH]; intros db; cbn [append_loop].
  { intros [= <- <-]. exists (plan db). left. rewrite set_plan_id. split; [done|by left]. }
  destruct (pop_plan db) as [o db0] eqn:Hpop.
  apply pop_plan_set in Hpop as [p ->].
  change (next_id (set_plan p db)) with (next_id db).
  change (next_sequence (ev_ScopeID e) (set_plan p db)) with (next_sequence (ev_ScopeID e) db).
  set (e1 := set_ids (next_id db) (next_sequence (ev_ScopeID e) db) e).
  change (violates e1 (set_plan p db)) with (violates e1 db).
  assert (forall db' r, (let '(db1, found) := lookup_existing e (set_plan p db) in (db1, match found with
             | Ok (Some e') => Ok e' | _ => Err (wrap_msg op_append constraint_error) end)) = (db', r) ->
          exists q, db' = set_plan q db /\
          (is_ok r = false \/ exists e', loadExistingEvent e db = Some e' /\ r = Ok e')) as Hc.
  { intros ? ?. destruct (lookup_existing e (set_plan p db)) as [db1 f] eqn:El. intros [= <- <-].
    apply lookup_existing_set in El as (q & -> & Hf). exists q. split; [done|].
    change (loadExistingEvent e (set_plan p db)) with (loadExistingEvent e db) in Hf.
    destruct Hf as [-> |Hf]; [destruct (loadExistingEvent e db); [right; eauto|by left]|left; by destruct f]. }
  destruct o as [|m|m|[] m].
  - destruct (violates e1 db) eqn:Hv; [intros (q & ? & ?)%Hc; exists q; by left|].
    intros [= <- <-]. exists p. right. by repeat split; [..|left].
  - destruct n; [|by intros [q Hq]%IH; exists q].
    intros [= <- <-]. exists p. left. split; [done|by left].
  - intros [= <- <-]. exists p. left. split; [done|by left].
  - destruct (violates e1 db) eqn:Hv; [intros (q & ? & ?)%Hc; exists q; by left|].
    destruct (lookup_existing e1 _) as [db1 f] eqn:El. intros [= <- <-].
    apply lookup_existing_set in El as (q & -> & Hf). exists q. right. do 2 (split; [done|]).
    change (loadExistingEvent e1 (insert_event e1 (set_plan p db))) with (loadExistingEvent e1 (insert_event e1 db)) in Hf.
    assert (f = Ok (Some e1) \/ f = Ok None \/ is_ok f = false) as [-> |[-> |Hf']]; [|by left|right; by eexists|].
    { destruct Hf as [Hf|?]; [|by auto]. destruct (decide (ev_UID e = "")) as [Hu|Hu], (decide (ev_ScopeID e = "")) as [Hs|Hs].
      4: { rewrite load_inserted in Hf by done. by left. }
      all: right; left; rewrite Hf; unfold loadExistingEvent; cbn; rewrite ?Hu, ?Hs, ?orb_true_r; done. }
    right. destruct f; [done|]. by eexists.
  - destruct (violates e1 db) eqn:Hv; [intros (q & ? & ?)%Hc; exists q; by left|].
    destruct (lookup_existing e1 _) as [db1 f] eqn:El. intros [= <- <-].
    apply lookup_existing_set in El as (q & -> & Hf). exists q. left. split; [done|left].
    change (loadExistingEvent e1 (set_plan p db)) with (loadExistingEvent e1 db) in Hf.
    rewrite load_not_inserted in Hf by done. destruct Hf as [-> |Hf]; [done|by destruct f].
Qed.

Lemma with_uid_nonempty e : ev_UID (with_uid e) <> "".
Proof.
  unfold with_uid. case_bool_decide; [|done]. cbn. intros Hu.
  apply (f_equal String.length) in Hu. unfold eventUID in Hu.
  by rewrite Sha256.hex_digest_length in Hu.
Qed.

(** The digest is whatever it is: facts that do not depend on it generalise it. *)
Lemma with_uid_set e : exists u, with_uid e = set_uid u e.
Proof. unfold with_uid. case_bool_decide; [by eexists|]. exists (ev_UID e). by destruct e. Qed.

Lemma with_uid_scope e : ev_ScopeID (with_uid e) = ev_ScopeID e.
Proof. unfold with_uid. by case_bool_decide. Qed.

(** What [Append] does: nothing when the digest is known, otherwise an attempt
    of [append_loop]. *)
Lemma Append_cases e db db' r :
  Append e db = (db', r) ->
  exists p,
    (db' = set_plan p db /\
     (is_ok r = false \/
      readOnly db = false /\ exists e', loadExistingEvent (with_uid e) db = Some e' /\ r = Ok e')) \/
    (let e1 := set_ids (next_id db) (next_sequence (ev_ScopeID e) db) (with_uid e) in
     readOnly db = false /\ violates e1 db = false /\ db' = insert_event e1 (set_plan p db) /\ (r = Ok e1 \/ ambiguous r)).
Proof.
  unfold Append, ensureWritable. destruct (readOnly db) eqn:Hro.
  { intros [= <- <-]. exists (plan db). left. rewrite set_plan_id. split; [done|by left]. }
  destruct (lookup_existing (with_uid e) db) as [db1 f] eqn:El. apply lookup_existing_set in El as (q & -> & Hf).
  destruct f as [[e'|]|m].
  - intros [= <- <-]. exists q. left. split; [done|]. right. split; [done|]. exists e'. split; [|done]. by destruct Hf as [[= <-]|].
  - change (next_id db) with (next_id (set_plan q db)).
    change (next_sequence (ev_ScopeID e) db) with (next_sequence (ev_ScopeID e) (set_plan q db)).
    intros [p [[-> Hr]|Hi]]%append_loop_cases; exists p.
    + left. split; [done|]. destruct Hr as [Hr|(e' & Hl' & _)]; [by left|].
      change (loadExistingEvent (with_uid e) (set_plan q db)) with (loadExistingEvent (with_uid e) db) in Hl'.
      destruct Hf as [[= Hf]|]; [congruence|done].
    + right. rewrite with_uid_scope in Hi. destruct Hi as (Hv & -> & Hr). by split_and!.
  - intros [= <- <-]. exists q. left. split; [done|by left].
Qed.

(** Steps of the log: appends under any outcome of the database, checkpoint
    writes, compactions, and changes of the environment. *)
Inductive step : EventRepository -> EventRepository -> Prop :=
| step_append e db : step db (Append e db).1
| step_save now c db : step db (SaveCheckpoint now c db).1
| step_delete scope name seq db : step db (DeleteCheckpoint scope name seq db).1
| step_compact scope name through db : step db (CompactRawArchive scope name through db).1
| step_plan p db : step db (set_plan p db).

Lemma seqZ_1 b : seqZ b 1 = [b].
Proof. by rewrite seqZ_cons, seqZ_nil by lia. Qed.

Lemma filter_seqZ t b n :
  0 <= n ->
  List.filter (fun x => t <? x) (seqZ b n) = seqZ (Z.max b (t + 1)) (b + n - Z.max b (t + 1)).
Proof.
  intros Hn. pattern n. apply natlike_ind; [..|done]; clear n Hn.
  { by rewrite !seqZ_nil by lia. }
  intros n Hn IH. rewrite <- Z.add_1_r, seqZ_app, List.filter_app, IH, seqZ_1 by lia. cbn.
  destruct (Z.ltb_spec t (b + n)).
  - replace (b + (n + 1) - Z.max b (t + 1)) with (b + n - Z.max b (t + 1) + 1) by lia.
    rewrite seqZ_app, <- seqZ_1 by lia. do 2 f_equal. lia.
  - by rewrite !seqZ_nil by lia.
Qed.

Lemma fmap_filter {A B} (f : A -> B) (p : A -> bool) (q : B -> bool) l :
  (forall x, x ∈ l -> p x = q (f x)) -> f <$> List.filter p l = List.filter q (f <$> l).
Proof.
  induction l as [|x l IH]; intros Hpq; cbn; [done|].
  rewrite (Hpq x) by set_solver. case_match; cbn; rewrite IH by set_solver; done.
Qed.

Lemma filter_comm {A} (p q : A -> bool) l :
  List.filter p (List.filter q l) = List.filter q (List.filter p l).
Proof.
  induction l as [|x l IH]; cbn; [done|].
  destruct (p x) eqn:Hp, (q x) eqn:Hq; cbn; rewrite ?Hp, ?Hq, IH; done.
Qed.

Lemma StronglySorted_fmap_filter {A B} (R : relation B) (f : A -> B) (p : A -> bool) l :
  StronglySorted R (f <$> l) -> StronglySorted R (f <$> List.filter p l).
Proof.
  induction l as [|x l IH]; cbn; [done|]. inv 1 as [|? ? Hs Hf].
  case_match; cbn; [|by apply IH]. constructor; [by apply IH|].
  apply Forall_forall. intros y (z & -> & [Hz _]%elem_of_lfilter)%list_elem_of_fmap.
  rewrite Forall_forall in Hf. by apply Hf, list_elem_of_fmap_2.
Qed.

Lemma purge_ok scope through db :
  log_ok db ->
  log_ok (set_rows (List.filter (fun e => negb (bool_decide (ev_ScopeID e = scope) &&
                                           (ev_Sequence e <=? through))) (rows db)) db).
Proof.
  intros [Hc Hu Hi Hn]. split; cbn [rows next_id set_rows].
  - intros s. destruct (Hc s) as (b & n & Hb & Hn0 & Hnx & Hseq).
    unfold contiguous, in_scope. cbn [rows set_rows]. rewrite filter_comm.
    change (next_sequence s (set_rows _ db)) with (next_sequence s db).
    fold (in_scope s db). destruct (decide (s = scope)) as [->|Hne].
    + rewrite (fmap_filter ev_Sequence _ (fun x => through <? x)), Hseq, filter_seqZ by
        (done || (intros e [_ He]%elem_of_lfilter; rewrite He; cbn; lia)).
      exists (Z.min (b + n) (Z.max b (through + 1))), (Z.max 0 (b + n - Z.max b (through + 1))).
      split_and!; [lia..|]. destruct (decide (Z.max b (through + 1) <= b + n)).
      * f_equal; lia.
      * by rewrite !seqZ_nil by lia.
    + exists b, n. split_and!; [done..|]. rewrite <- Hseq. f_equal.
      apply List.forallb_filter_id, List.forallb_forall. intros e He.
      apply list_elem_of_In, elem_of_lfilter in He as [_ He]. bool_simpl.
      by rewrite bool_decide_false by congruence.
  - unfold uid_keys. rewrite filter_comm. by apply NoDup_fmap_filter.
  - by apply StronglySorted_fmap_filter.
  - apply Forall_forall. intros e [He _]%elem_of_lfilter. rewrite Forall_forall in Hn. by apply Hn.
Qed.

#[export] Hint Resolve set_plan_ok insert_event_ok purge_ok : secauto.

Lemma step_ok db db' : step db db' -> log_ok db -> log_ok db'.
Proof.
  destruct 1 as [e db|now c db|scope name seq db|scope name through db|p db]; intros Hok.
  - destruct (Append e db) as [db' r] eqn:Ha.
    apply Append_cases in Ha as [p [[-> _]|(_ & Hv & -> & _)]]; [eauto with secauto|].
    apply insert_event_ok; [eauto with secauto|done| |done].
    cbn. by rewrite with_uid_scope.
  - unfold SaveCheckpoint. repeat case_match; cbn; by destruct Hok.
  - unfold DeleteCheckpoint. repeat case_match; cbn; by destruct Hok.
  - unfold CompactRawArchive. repeat case_match; cbn [fst]; eauto with secauto.
  - eauto with secauto.
Qed.

Lemma NewEventRepository_ok : log_ok NewEventRepository.
Proof.
  split; [|constructor..]. intros scope. exists 1, 0. repeat split; lia.
Qed.

(** C13: Whatever transactions succeed, stay busy, fail, or end with an ambiguous
    commit, and whatever is compacted, the rows of a scope carry consecutive
    sequence numbers up to its counter, and no digest occurs twice in it. *)
Theorem log_invariant db : rtc step NewEventRepository db -> log_ok db.
Proof.
  generalize NewEventRepository_ok. induction 2 as [|x y z Hxy _ IH]; [done|].
  by apply IH, (step_ok x y).
Qed.

(** ** Exactly once *)
Definition copies (scope uid : string) (db : EventRepository) : list Event :=
  List.filter (same_uid scope uid) (rows db).

Lemma copies_unique db r :
  log_ok db -> r ∈ rows db -> ev_UID r <> "" -> copies (ev_ScopeID r) (ev_UID r) db = [r].
Proof.
  intros Hok Hr Hu. pose proof (log_uids _ Hok) as Hnd.
  assert (Hin : r ∈ copies (ev_ScopeID r) (ev_UID r) db).
  { apply elem_of_lfilter. split; [done|]. unfold same_uid. by rewrite !bool_decide_true. }
  assert (forall x, x ∈ copies (ev_ScopeID r) (ev_UID r) db ->
            ev_ScopeID x = ev_ScopeID r /\ ev_UID x = ev_UID r) as Hall.
  { intros x [_ Hx]%elem_of_lfilter. unfold same_uid in Hx. by bool_simpl. }
  assert (NoDup ((fun e => (ev_ScopeID e, ev_UID e)) <$> copies (ev_ScopeID r) (ev_UID r) db)) as Hc.
  { unfold copies. apply (NoDup_fmap_filter _ (same_uid (ev_ScopeID r) (ev_UID r))) in Hnd.
    rewrite filter_comm in Hnd. rewrite (List.forallb_filter_id _ (List.filter _ (rows db))) in Hnd;
      [done|].
    apply List.forallb_forall. intros x Hx%list_elem_of_In. apply Hall in Hx as [_ ->].
    by rewrite bool_decide_false. }
  destruct (copies _ _ db) as [|x [|y l]]; [set_solver|f_equal; set_solver|exfalso].
  destruct (Hall x) as [H1 H2]; [set_solver|]. destruct (Hall y) as [H3 H4]; [set_solver|].
  cbn in Hc. rewrite H1, H2, H3, H4 in Hc. by apply NoDup_cons in Hc as [[]%not_elem_of_cons _].
Qed.

Lemma loadExistingEvent_some e db e' :
  loadExistingEvent e db = Some e' ->
  exists r, r ∈ rows db /\ ev_ScopeID r = ev_ScopeID e /\ ev_UID r = ev_UID e /\
            e' = set_ids (ev_ID r) (ev_Sequence r) e.
Proof.
  unfold loadExistingEvent. case_match; [done|]. case_match eqn:Hf; [|done]. intros [= <-].
  apply find_some_in in Hf as [Hr Hs]. unfold same_uid in Hs. bool_simpl. eauto.
Qed.

Lemma loadExistingEvent_set_ids i q e db :
  loadExistingEvent (set_ids i q e) db = loadExistingEvent e db.
Proof. unfold loadExistingEvent. cbn. by repeat case_match. Qed.

(** C14: For an event of a scope.  An append that reports success has left
    exactly one row for the event, with the reported id and sequence.  One
    that reports an error has written nothing, unless it reports that it does
    not know whether its commit took effect: then, when the look-up after the
    commit failed as well, the row may be there, exactly once.  In either case
    the caller may retry: where the row is there, publishing the same event
    again reports it and changes nothing, as soon as the look-up works. *)
Theorem Append_exactly_once e db db' r :
  log_ok db -> ev_ScopeID e <> "" -> Append e db = (db', r) ->
  let stored e' := exists row, copies (ev_ScopeID e) (ev_UID e') db' = [row] /\
    ev_ID row = ev_ID e' /\ ev_Sequence row = ev_Sequence e' /\
    forall p, lookups p = [] -> Append e (set_plan p db') = (set_plan p db', Ok e') in
  match r with
  | Ok e' => stored e'
  | Err _ => (rows db' = rows db /\ sequences db' = sequences db) \/ (ambiguous r /\ exists e', stored e')
  end.
Proof.
  intros Hok Hs Ha. cbn zeta. pose proof (step_append e db) as Hst. rewrite Ha in Hst.
  apply step_ok in Hst; [|done]. cbn [fst] in Hst.
  assert (forall p db e', readOnly db = false -> loadExistingEvent (with_uid e) db = Some e' -> lookups p = [] ->
            Append e (set_plan p db) = (set_plan p db, Ok e')) as Hre.
  { intros p db0 e' Hro Hl Hp. unfold Append, ensureWritable, lookup_existing. cbn. rewrite Hro, Hp.
    change (loadExistingEvent (with_uid e) (set_plan p db0))
      with (loadExistingEvent (with_uid e) db0). by rewrite Hl. }
  apply Append_cases in Ha as [p [[-> [Hr|(Hro & e' & Hl & ->)]]|(Hro & Hv & -> & Hr)]]; [destruct r; [done|by left]| |].
  - pose proof Hl as Hl'. apply loadExistingEvent_some in Hl' as (row & Hrow & Hrs & Hru & ->).
    exists row. cbn. rewrite with_uid_scope in Hrs. rewrite <- Hrs, <- Hru. split_and!; [|done..|].
    + apply copies_unique; [done..|]. rewrite Hru. apply with_uid_nonempty.
    + intros q Hq. by rewrite (Hre q (set_plan p db) _ Hro Hl Hq).
  - set (e1 := set_ids _ _ _) in *.
    assert (exists row, copies (ev_ScopeID e) (ev_UID e1) (insert_event e1 (set_plan p db)) = [row] /\
      ev_ID row = ev_ID e1 /\ ev_Sequence row = ev_Sequence e1 /\
      forall p0, lookups p0 = [] -> Append e (set_plan p0 (insert_event e1 (set_plan p db))) =
        (set_plan p0 (insert_event e1 (set_plan p db)), Ok e1)) as Hstored.
    { exists e1. split_and!; [|done..|].
      - replace (ev_ScopeID e) with (ev_ScopeID e1) by (cbn; apply with_uid_scope).
        apply copies_unique; [done| |cbn; apply with_uid_nonempty]. cbn. set_solver.
      - intros q Hq. apply Hre; [done| |done].
        rewrite <- (loadExistingEvent_set_ids (next_id db) (next_sequence (ev_ScopeID e) db)).
        apply (load_inserted e1); [done|apply with_uid_nonempty|]. cbn. by rewrite with_uid_scope. }
    destruct Hr as [-> |[m ->]]; [done|]. right. split; [by eexists|by exists e1].
Qed.

(** Two events of a scope, the first written in spite of a busy database and an
    ambiguous commit. *)
Definition sample_event (uid : string) (t : Z) : Event :=
  {| ev_ID := 0; ev_Sequence := 0; ev_UID := uid; ev_Timestamp := t;
     ev_Category := CategoryLifecycle; ev_Type := TypeSchedulerTick; ev_CorrelationID := "run";
     ev_CausalID := ""; ev_Actor := "system"; ev_ScopeID := "scope";
     ev_Payload := Some (JObject []); ev_Metadata := None |}.

Definition sample_start : EventRepository :=
  set_plan {| transactions := [TxBusy "database is locked"; TxCommitFails true "disk I/O error"]; lookups := [] |} NewEventRepository.
Definition sample_log : EventRepository :=
  (Append (sample_event "b" 20) (Append (sample_event "a" 10) sample_start).1).1.

Lemma sample_log_reached : rtc step NewEventRepository sample_log.
Proof. eapply rtc_l; [apply step_plan|]. do 2 (eapply rtc_l; [apply step_append|]). constructor. Qed.

Lemma sample_log_ok : log_ok sample_log.
Proof.
  do 2 (eapply step_ok; [apply step_append|]). eauto using NewEventRepository_ok with secauto.
Qed.

Lemma log_invariant_witness :
  log_ok sample_log /\ ev_Sequence <$> rows sample_log = [1; 2].
Proof. split; [apply log_invariant, sample_log_reached|by vm_compute]. Defined.

Lemma Append_exactly_once_witness :
  exists row, copies "scope" "a" (Append (sample_event "a" 10) sample_start).1 = [row] /\
    ev_ID row = 1 /\ ev_Sequence row = 1.
Proof.
  destruct (Append_exactly_once (sample_event "a" 10) sample_start
              (Append (sample_event "a" 10) sample_start).1
              (Ok (set_ids 1 1 (sample_event "a" 10))))
    as (row & H1 & H2 & H3 & _).
  - apply set_plan_ok, NewEventRepository_ok.
  - done.
  - by vm_compute.
  - by exists row.
Defined.

End EventRepository.

(** ** Bus ([bus.go]) *)
Module Bus.
Import Json Events EventRepository.

(** [EventStore], as the bus uses it. *)
Class EventStore (S : Type) := {
  es_append : Event -> S -> S * result Event;
}.

#[export] Instance EventRepository_store : EventStore EventRepository := {|
  es_append := Append;
|}.

(** Subscribers act on a world [W] of their own. *)
Record Bus (S W : Type) := {
  store : S;
  subscribers : gmap string (list (Event -> W -> W * result unit));
}.
Arguments store {S W} _.
Arguments subscribers {S W} _.

Definition NewBus {S W} (s : S) : Bus S W := {| store := s; subscribers := ∅ |}.

Definition Subscribe {S W} (category : string) (sub : Event -> W -> W * result unit) (b : Bus S W)
  : Bus S W :=
  {| store := store b;
     subscribers := <[category := default [] (subscribers b !! category) ++ [sub]]> (subscribers b) |}.

Definition cloneMetadata : Metadata -> Metadata := cloneMap.

Definition op_publish : string := "runtime.events.Bus.PublishEvent".

Definition event_of (now : Z) (req : PublishRequest) : Event :=
  {| ev_ID := 0; ev_Sequence := 0; ev_UID := r_UID req;
     ev_Timestamp := if is_zero_time (r_Timestamp req) then now else r_Timestamp req;
     ev_Category := r_Category req; ev_Type := r_Type req;
     ev_CorrelationID := r_CorrelationID req; ev_CausalID := r_CausalID req;
     ev_Actor := if bool_decide (r_Actor req = "") then "system" else r_Actor req;
     ev_ScopeID := r_ScopeID req; ev_Payload := Some (marshal_payload (r_Payload req));
     ev_Metadata := cloneMetadata (r_Metadata req) |}.

Fixpoint notify {W} (subs : list (Event -> W -> W * result unit)) (e : Event) (w : W)
  : W * result unit :=
  match subs with
  | [] => (w, Ok tt)
  | sub :: subs' =>
      let '(w, r) := sub e w in
      match r with Ok _ => notify subs' e w | Err m => (w, Err m) end
  end.

Definition PublishEvent {S W} `{!EventStore S} (now : Z) (req : PublishRequest) (b : Bus S W) (w : W)
  : Bus S W * W * result Event :=
  let '(s, r) := es_append (event_of now req) (store b) in
  let b := {| store := s; subscribers := subscribers b |} in
  match r with
  | Err m => (b, w, Err (wrap_msg op_publish m))
  | Ok e =>
      let '(w, r) := notify (default [] (subscribers b !! ev_Category e)) e w in
      match r with
      | Err m => (b, w, Err (wrap_msg op_publish m))
      | Ok _ => (b, w, Ok e)
      end
  end.

Definition Publish {S W} `{!EventStore S} (now : Z) (category eventType scopeID correlationID : string)
  (p : Payload) (b : Bus S W) (w : W) : Bus S W * W * result unit :=
  let '(b, w, r) :=
    PublishEvent now
      {| r_UID := ""; r_Timestamp := 0; r_Category := category; r_Type := eventType;
         r_CorrelationID := correlationID; r_CausalID := ""; r_Actor := "";
         r_ScopeID := scopeID; r_Payload := p; r_Metadata := None |} b w in
  (b, w, match r with Ok _ => Ok tt | Err m => Err m end).

End Bus.

(** ** Replay ([replay.go]) *)
Module Replay.
Import Json Events EventRepository.

(** [StateReplayer], and [CheckpointReplayer] when [sr_restore] is there. *)
Class StateReplayer (R : Type) := {
  sr_apply : Event -> R -> R * result unit;
  sr_restore : option (Checkpoint -> R -> R * result unit);
}.

(** [EventStore], and [CheckpointStore] when [rs_checkpoints] is there: the
    latest checkpoint and the list of them, newest first. *)
Class ReplayStore (S : Type) := {
  rs_list : string -> Z -> S -> list Event;
  rs_checkpoints : option ((string -> string -> S -> option Checkpoint) *
                           (string -> string -> Z -> S -> list Checkpoint));
}.

#[export] Instance EventRepository_replay : ReplayStore EventRepository := {|
  rs_list := List_;
  rs_checkpoints := Some (LatestCheckpoint, ListCheckpoints);
|}.

Record ReplayOptions := {
  CheckpointName : string;
  AllowGenesisReplayWithoutCheckpoint : bool;
  UntilSequence : Z;
  UntilTime : Z;
}.

Record ReplayResult := {
  EventsApplied : Z;
  StartedAfterSequence : Z;
  FinalSequence : Z;
  UsedCheckpoint : bool;
}.

Definition checkpointReplayChecksum (c : Checkpoint) : string :=
  Sha256.hex_digest
    match cp_State c with
    | None => ""
    | Some st =>
        text (JObject ([jfield "name" (cp_Name c); jfield "scope_id" (cp_ScopeID c);
                        ("sequence", JInt (cp_Sequence c)); ("event_id", JInt (cp_EventID c));
                        ("state", st)] ++ metadata_field (cp_Metadata c) ++
                       [("schema_version", JInt (cp_SchemaVersion c));
                        ("created_at", JTime (cp_CreatedAt c))]))
    end.

Definition op_replay : string := "events.Replay".
Definition replay_err (m : string) : result unit := Err (wrap_msg op_replay m).

Definition validateReplayCheckpoint (scopeID name : string) (c : Checkpoint) : result unit :=
  if negb (bool_decide (cp_ScopeID c = scopeID)) then
    replay_err ("checkpoint scope mismatch: expected " +:+ scopeID +:+ " got " +:+ cp_ScopeID c)
  else if negb (bool_decide (cp_Name c = name)) then
    replay_err ("checkpoint name mismatch: expected " +:+ name +:+ " got " +:+ cp_Name c)
  else if cp_Sequence c =? 0 then replay_err "checkpoint sequence must be positive"
  else if cp_EventID c <=? 0 then replay_err "checkpoint event_id must be positive"
  else if is_zero_time (cp_CreatedAt c) then replay_err "checkpoint created_at must be set"
  else match cp_State c with
       | None => replay_err "checkpoint state must be valid json"
       | Some _ =>
           if negb (cp_Compact c) then replay_err "checkpoint state must be canonical json"
           else if negb (bool_decide (cp_Checksum c = checkpointReplayChecksum c)) then
             replay_err ("checkpoint checksum mismatch for " +:+ cp_ScopeID c +:+ "/" +:+
                         cp_Name c +:+ " at sequence " +:+ GoFmt.fmt_d (cp_Sequence c))
           else Ok tt
       end.

Inductive checkpoint_error := ErrCheckpointNotFound | ErrInvalidCheckpoint.

Definition checkpoint_error_msg (e : checkpoint_error) : string :=
  match e with
  | ErrCheckpointNotFound => "runtime checkpoint not found"
  | ErrInvalidCheckpoint => wrap_msg op_replay "runtime checkpoint invalid"
  end.

(** The latest checkpoint when it is valid, else the newest valid one. *)
Definition loadValidCheckpoint {S} (ops : (string -> string -> S -> option Checkpoint) *
                                          (string -> string -> Z -> S -> list Checkpoint))
  (scopeID name : string) (s : S) : Checkpoint + checkpoint_error :=
  let valid c := is_ok (validateReplayCheckpoint scopeID name c) in
  let latest := ops.1 scopeID name s in
  match latest with
  | Some c => if valid c then inl c
              else match List.find valid (ops.2 scopeID name 0 s) with
                   | Some c => inl c
                   | None => inr ErrInvalidCheckpoint
                   end
  | None =>
      let l := ops.2 scopeID name 0 s in
      match List.find valid l with
      | Some c => inl c
      | None => inr (match l with [] => ErrCheckpointNotFound | _ => ErrInvalidCheckpoint end)
      end
  end.

Inductive batch_end := Drained | Stopped | Failed (msg : string).

Section replayer.
Context {R : Type} `{!StateReplayer R}.

(** The inner loop over one page of events. *)
Fixpoint replay_batch (opts : ReplayOptions) (evs : list Event) (seq applied : Z) (r : R)
  : Z * Z * R * batch_end :=
  match evs with
  | [] => (seq, applied, r, Drained)
  | ev :: evs' =>
      if (0 <? UntilSequence opts) && (UntilSequence opts <? ev_Sequence ev) then
        (seq, applied, r, Stopped)
      else if negb (is_zero_time (UntilTime opts)) && t_after (ev_Timestamp ev) (UntilTime opts) then
        (seq, applied, r, Stopped)
      else if (0 <? seq) && negb (ev_Sequence ev =? seq + 1) then
        (seq, applied, r,
         Failed (wrap_msg op_replay
           ((if ev_Sequence ev <=? seq then "duplicate or backward sequence detected: current="
             else "sequence gap detected: current=") +:+ GoFmt.fmt_d seq +:+ " next=" +:+
            GoFmt.fmt_d (ev_Sequence ev))))
      else
        let '(r, res) := sr_apply ev r in
        match res with
        | Err m => (seq, applied, r, Failed m)
        | Ok _ => replay_batch opts evs' (ev_Sequence ev) (applied + 1) r
        end
  end.

(** The outer loop; [None] when [fuel] pages were not enough. *)
Fixpoint replay_loop {S} `{!ReplayStore S} (fuel : nat) (scopeID : string) (opts : ReplayOptions)
  (s : S) (start : Z) (used : bool) (seq applied : Z) (r : R)
  : option (R * ReplayResult * result unit) :=
  match fuel with
  | O => None
  | S f =>
      let res a q := {| EventsApplied := a; StartedAfterSequence := start; FinalSequence := q;
                        UsedCheckpoint := used |} in
      match rs_list scopeID seq s with
      | [] => Some (r, res applied seq, Ok tt)
      | evs =>
          let '(seq', applied', r', e) := replay_batch opts evs seq applied r in
          match e with
          | Drained => replay_loop f scopeID opts s start used seq' applied' r'
          | Stopped => Some (r', res applied' seq', Ok tt)
          | Failed m => Some (r', res applied' 0, Err m)
          end
      end
  end.

Definition zero_result : ReplayResult :=
  {| EventsApplied := 0; StartedAfterSequence := 0; FinalSequence := 0; UsedCheckpoint := false |}.

Definition ReplayWithOptions {S} `{!ReplayStore S} (fuel : nat) (s : S) (scopeID : string) (r : R)
  (opts : ReplayOptions) : option (R * ReplayResult * result unit) :=
  let genesis := replay_loop fuel scopeID opts s 0 false 0 0 r in
  if bool_decide (CheckpointName opts = "") then genesis
  else match rs_checkpoints with
       | None => genesis
       | Some ops =>
           match loadValidCheckpoint ops scopeID (CheckpointName opts) s with
           | inl c =>
               match sr_restore with
               | None => Some (r, zero_result, Err (wrap_msg op_replay
                   "checkpoint replay requested but replayer cannot restore checkpoints"))
               | Some restore =>
                   let '(r, res) := restore c r in
                   match res with
                   | Err m => Some (r, zero_result, Err m)
                   | Ok _ =>
                       replay_loop fuel scopeID opts s (cp_Sequence c) true (cp_Sequence c) 0 r
                   end
               end
           | inr e =>
               if AllowGenesisReplayWithoutCheckpoint opts then genesis
               else Some (r, zero_result, Err (checkpoint_error_msg e))
           end
       end.

Definition no_options : ReplayOptions :=
  {| CheckpointName := ""; AllowGenesisReplayWithoutCheckpoint := false; UntilSequence := 0;
     UntilTime := 0 |}.

Definition Replay {S} `{!ReplayStore S} (fuel : nat) (s : S) (scopeID : string) (r : R)
  : option (R * result unit) :=
  '(r, _, res) ← ReplayWithOptions fuel s scopeID r no_options; Some (r, res).

(** ** What a replay computes *)
Definition until_ok (opts : ReplayOptions) (e : Event) : bool :=
  ((UntilSequence opts <=? 0) || (ev_Sequence e <=? UntilSequence opts)) &&
  (is_zero_time (UntilTime opts) || (ev_Timestamp e <=? UntilTime opts)).

(** The events a replay takes: up to the first one past the target. *)
Fixpoint upto (opts : ReplayOptions) (evs : list Event) : list Event :=
  match evs with
  | [] => []
  | e :: evs' => if until_ok opts e then e :: upto opts evs' else []
  end.

Definition apply_all (evs : list Event) (r : R) : R :=
  foldl (fun r e => (sr_apply e r).1) r evs.

Lemma replay_batch_cons opts e evs seq applied r :
  0 <= seq -> ev_Sequence e = seq + 1 -> (sr_apply e r).2 = Ok tt ->
  replay_batch opts (e :: evs) seq applied r =
    if until_ok opts e then replay_batch opts evs (seq + 1) (applied + 1) (sr_apply e r).1
    else (seq, applied, r, Stopped).
Proof.
  intros Hseq He Hok. cbn. unfold until_ok, t_after. rewrite !Z.ltb_antisym, <- !negb_orb.
  rewrite He, (Z.eqb_refl (seq + 1)). destruct (sr_apply e r) as [r' res]. cbn in Hok. subst res.
  destruct (UntilSequence opts <=? 0), (seq + 1 <=? UntilSequence opts),
    (is_zero_time (UntilTime opts)), (ev_Timestamp e <=? UntilTime opts), (seq <=? 0); done.
Qed.

Lemma replay_batch_spec opts evs seq applied r n :
  0 <= seq -> ev_Sequence <$> evs = seqZ (seq + 1) n ->
  (forall e r, e ∈ evs -> (sr_apply e r).2 = Ok tt) ->
  let t := upto opts evs in
  replay_batch opts evs seq applied r =
    (seq + Z.of_nat (length t), applied + Z.of_nat (length t), apply_all t r,
     if (length t =? length evs)%nat then Drained else Stopped).
Proof.
  revert seq applied r n. induction evs as [|e evs IH]; intros seq applied r n Hseq Hs Hok.
  { cbn -[Z.add]. by rewrite !Z.add_0_r. }
  destruct (decide (0 < n)) as [Hn|]; [|by rewrite seqZ_nil in Hs by lia].
  rewrite seqZ_cons in Hs by lia. injection Hs as He Hs.
  rewrite replay_batch_cons by (done || (apply Hok; set_solver)). cbn [upto].
  destruct (until_ok opts e).
  - rewrite (IH (seq + 1) _ _ (n - 1)); [|lia|done|intros; apply Hok; set_solver].
    cbn [length apply_all foldl]. rewrite Nat2Z.inj_succ.
    by rewrite !Z.add_succ_r, <- !Z.add_succ_l.
  - cbn -[Z.add]. by rewrite !Z.add_0_r.
Qed.

(** *** The repository as a replay source *)
Lemma seqZ_sorted b n : StronglySorted Z.lt (seqZ b n).
Proof.
  destruct (decide (0 <= n)) as [Hn|]; [|by rewrite seqZ_nil by lia; constructor].
  revert b. pattern n. apply natlike_ind; [by constructor|..|done]. clear n Hn.
  intros n Hn IH b. rewrite seqZ_cons, Z.pred_succ by lia. constructor; [apply IH|].
  apply Forall_forall. intros x Hx%elem_of_seqZ. lia.
Qed.

Lemma StronglySorted_fmap {A B} (R1 : relation B) (R2 : relation A) (f : A -> B) l :
  (forall x y, R1 (f x) (f y) -> R2 x y) -> StronglySorted R1 (f <$> l) -> StronglySorted R2 l.
Proof.
  intros Hf. induction l as [|x l IH]; cbn; [constructor|]. inv 1 as [|? ? Hs Hx].
  constructor; [by apply IH|]. rewrite Forall_fmap in Hx. eapply Forall_impl; [done|].
  intros y. apply Hf.
Qed.

Lemma List_rows scope seq db :
  log_ok db ->
  List_ scope seq db =
    scan <$> List.filter (fun e => seq <? ev_Sequence e) (in_scope scope db).
Proof.
  intros Hok. unfold List_. f_equal. apply isort_id.
  apply (StronglySorted_fmap Z.lt _ ev_Sequence); [intros x y; lia|].
  apply StronglySorted_fmap_filter.
  destruct (log_contiguous _ Hok scope) as (b & n & _ & _ & _ & ->). apply seqZ_sorted.
Qed.

Lemma fmap_scan_sequence (l : list Event) : ev_Sequence <$> (scan <$> l) = ev_Sequence <$> l.
Proof. by rewrite <- list_fmap_compose. Qed.

(** Nothing is missing right after sequence number [seq]. *)
Definition complete_from (scope : string) (seq : Z) (db : EventRepository) : Prop :=
  seq + 1 = next_sequence scope db \/
  exists e, e ∈ in_scope scope db /\ ev_Sequence e = seq + 1.

Lemma List_sequences scope seq db :
  log_ok db -> complete_from scope seq db ->
  ev_Sequence <$> List_ scope seq db = seqZ (seq + 1) (next_sequence scope db - (seq + 1)).
Proof.
  intros Hok Hc. rewrite List_rows, fmap_scan_sequence by done.
  rewrite (fmap_filter _ _ (fun x => seq <? x)) by done.
  destruct (log_contiguous _ Hok scope) as (b & n & Hb & Hn & Hnx & Hseq).
  rewrite Hseq, filter_seqZ, <- Hnx by done. unfold complete_from in Hc. rewrite <- Hnx in Hc.
  destruct Hc as [Hc|(e & He & Hs)].
  - by rewrite !seqZ_nil by lia.
  - apply (list_elem_of_fmap_2 ev_Sequence) in He. rewrite Hseq, elem_of_seqZ in He.
    f_equal; lia.
Qed.

Lemma List_end scope db : log_ok db -> List_ scope (next_sequence scope db - 1) db = [].
Proof.
  intros Hok. apply (fmap_nil_inv ev_Sequence).
  rewrite List_sequences; [by rewrite seqZ_nil by lia|done|left; lia].
Qed.

Lemma upto_length opts evs : (length (upto opts evs) <= length evs)%nat.
Proof. induction evs as [|e evs IH]; cbn; [done|]. case_match; cbn; lia. Qed.

Lemma replay_loop_repository fuel scope opts db start used seq applied r :
  log_ok db -> 0 <= seq -> complete_from scope seq db -> (2 <= fuel)%nat ->
  (forall e r, e ∈ List_ scope seq db -> (sr_apply e r).2 = Ok tt) ->
  let t := upto opts (List_ scope seq db) in
  replay_loop fuel scope opts db start used seq applied r =
    Some (apply_all t r,
          {| EventsApplied := applied + Z.of_nat (length t); StartedAfterSequence := start;
             FinalSequence := seq + Z.of_nat (length t); UsedCheckpoint := used |}, Ok tt).
Proof.
  intros Hok Hseq Hc Hf Hap t. destruct fuel as [|[|f]]; [lia..|].
  pose proof (List_sequences _ _ _ Hok Hc) as Hs.
  cbn [replay_loop]. change (rs_list scope seq db) with (List_ scope seq db).
  pose proof (replay_batch_spec opts _ seq applied r _ Hseq Hs Hap) as Hb. cbn zeta in Hb. fold t in Hb.
  destruct (List_ scope seq db) as [|e evs] eqn:Hl.
  { cbn -[Z.add]. by rewrite !Z.add_0_r. }
  rewrite <- Hl in *. rewrite Hb. destruct (Nat.eqb_spec (length t) (length (List_ scope seq db))) as [Hle|];
    [|done].
  apply (f_equal length) in Hs. rewrite length_fmap, length_seqZ in Hs.
  assert (0 < length (List_ scope seq db))%nat by (rewrite Hl; cbn; lia).
  replace (seq + Z.of_nat (length t)) with (next_sequence scope db - 1) by lia.
  change (rs_list scope (next_sequence scope db - 1) db)
    with (List_ scope (next_sequence scope db - 1) db).
  by rewrite List_end.
Qed.

Lemma genesis_run fuel scope opts db r :
  log_ok db -> complete_from scope 0 db -> (2 <= fuel)%nat -> CheckpointName opts = "" ->
  (forall e r, e ∈ List_ scope 0 db -> (sr_apply e r).2 = Ok tt) ->
  let t := upto opts (List_ scope 0 db) in
  ReplayWithOptions fuel db scope r opts =
    Some (apply_all t r,
          {| EventsApplied := Z.of_nat (length t); StartedAfterSequence := 0;
             FinalSequence := Z.of_nat (length t); UsedCheckpoint := false |}, Ok tt).
Proof.
  intros Hok Hc Hf Hn Hap t. unfold ReplayWithOptions. rewrite bool_decide_true by done.
  by rewrite replay_loop_repository by (done || lia).
Qed.

(** C16: Replaying a log from its first event terminates after two pages, applies the
    events in sequence order, each once and none skipped, up to the requested
    sequence number or time, and reports how far it went. *)
Theorem replay_genesis fuel scope opts db r :
  log_ok db -> complete_from scope 0 db -> (2 <= fuel)%nat -> CheckpointName opts = "" ->
  (forall e r, e ∈ List_ scope 0 db -> (sr_apply e r).2 = Ok tt) ->
  let t := upto opts (List_ scope 0 db) in
  ev_Sequence <$> List_ scope 0 db = seqZ 1 (next_sequence scope db - 1) /\
  ReplayWithOptions fuel db scope r opts =
    Some (apply_all t r,
          {| EventsApplied := Z.of_nat (length t); StartedAfterSequence := 0;
             FinalSequence := Z.of_nat (length t); UsedCheckpoint := false |}, Ok tt).
Proof.
  intros Hok Hc Hf Hn Hap t. split; [by rewrite List_sequences|by apply genesis_run].
Qed.

Lemma upto_no_limit opts evs :
  UntilSequence opts = 0 -> UntilTime opts = 0 -> upto opts evs = evs.
Proof.
  intros H1 H2. induction evs as [|e evs IH]; cbn; [done|].
  unfold until_ok. rewrite H1, H2. cbn. by rewrite IH.
Qed.

Definition checkpoint_options (name : string) : ReplayOptions :=
  {| CheckpointName := name; AllowGenesisReplayWithoutCheckpoint := false; UntilSequence := 0;
     UntilTime := 0 |}.

(** Compaction below [seq] does not touch what is listed after [seq]. *)
Lemma List_compacted scope name through seq db :
  log_ok db -> through <= seq ->
  List_ scope seq (CompactRawArchive scope name through db).1 = List_ scope seq db.
Proof.
  intros Hok Hle. rewrite !List_rows by (done || by eapply step_ok; [constructor|]). f_equal.
  unfold CompactRawArchive. repeat case_match; cbn [fst]; try done; unfold in_scope; cbn [rows set_rows];
    rewrite (filter_comm _ _ (rows db)), (filter_comm (fun e => seq <? _) _ (List.filter _ (rows db)));
    apply List.forallb_filter_id, List.forallb_forall; intros e He;
    apply list_elem_of_In, elem_of_lfilter in He as [_ He];
    rewrite (proj2 (Z.leb_gt _ _)) by lia; by rewrite andb_false_r.
Qed.

Lemma next_sequence_compacted scope name through s db :
  next_sequence s (CompactRawArchive scope name through db).1 = next_sequence s db.
Proof. unfold CompactRawArchive. by repeat case_match. Qed.

Lemma sorted_split (l : list Event) k :
  StronglySorted Z.lt (ev_Sequence <$> l) ->
  l = List.filter (fun e => ev_Sequence e <=? k) l ++ List.filter (fun e => k <? ev_Sequence e) l.
Proof.
  induction l as [|e l IH]; cbn; [done|]. inv 1 as [|? ? Hs Hall].
  rewrite Forall_fmap, Forall_forall in Hall.
  destruct (Z.leb_spec (ev_Sequence e) k), (Z.ltb_spec k (ev_Sequence e)); try lia.
  - cbn. f_equal. by apply IH.
  - rewrite filter_none, filter_all; [done|..]; intros x Hx%Hall; cbn in Hx; lia.
Qed.

(** The part of a scope's log up to [k]. *)
Definition prefix_through (scope : string) (k : Z) (db : EventRepository) : list Event :=
  List.filter (fun e => ev_Sequence e <=? k) (List_ scope 0 db).

Lemma List_split scope k db :
  log_ok db -> complete_from scope 0 db -> 0 <= k ->
  List_ scope 0 db = prefix_through scope k db ++ List_ scope k db.
Proof.
  intros Hok Hc Hk. unfold prefix_through. rewrite (sorted_split (List_ scope 0 db) k) at 1.
  2: { rewrite List_sequences by done. apply seqZ_sorted. }
  f_equal. rewrite !List_rows by done. generalize (in_scope scope db). intros l.
  induction l as [|e l IH]; cbn; [done|].
  destruct (Z.ltb_spec 0 (ev_Sequence e)), (Z.ltb_spec k (ev_Sequence e)); try lia; cbn;
    [rewrite (proj2 (Z.ltb_lt _ _)) by done|rewrite (proj2 (Z.ltb_ge _ _)) by done|];
    cbn; by rewrite ?IH.
Qed.

Lemma complete_from_later scope k db :
  log_ok db -> complete_from scope 0 db -> 0 <= k < next_sequence scope db ->
  complete_from scope k db.
Proof.
  intros Hok Hc Hk. destruct (decide (k + 1 = next_sequence scope db)) as [|Hne]; [by left|right].
  assert (k + 1 ∈ ev_Sequence <$> List_ scope 0 db) as Hin.
  { rewrite List_sequences by done. apply elem_of_seqZ. lia. }
  rewrite List_rows, fmap_scan_sequence in Hin by done.
  apply list_elem_of_fmap in Hin as (e & He & [Hin _]%elem_of_lfilter). eauto.
Qed.

Lemma complete_from_compacted scope name through k db :
  log_ok db -> complete_from scope k db -> through <= k ->
  complete_from scope k (CompactRawArchive scope name through db).1.
Proof.
  intros Hok [Hc|(e & He & Hs)] Hle; [left; by rewrite next_sequence_compacted|right].
  exists e. split; [|done]. unfold CompactRawArchive.
  repeat case_match; cbn [fst]; try done; unfold in_scope in *; cbn [rows set_rows];
    apply elem_of_lfilter in He as [He Hsc]; apply elem_of_lfilter; (split; [|done]);
    apply elem_of_lfilter; (split; [done|]); rewrite (proj2 (Z.leb_gt _ _)) by lia;
    by rewrite andb_false_r.
Qed.

(** C15: Restoring a checkpoint that holds the state after event [k], and replaying
    what is left of the log after it was compacted up to at most [k], gives the
    state and the position of a replay of the whole log. *)
Theorem checkpoint_replay_equals_genesis fuel scope name through db c restore r r0 :
  log_ok db -> complete_from scope 0 db -> (2 <= fuel)%nat -> name <> "" ->
  let db' := (CompactRawArchive scope name through db).1 in
  loadValidCheckpoint (LatestCheckpoint, ListCheckpoints) scope name db' = inl c ->
  through <= cp_Sequence c -> 0 <= cp_Sequence c < next_sequence scope db ->
  sr_restore = Some restore ->
  restore c r = (apply_all (prefix_through scope (cp_Sequence c) db) r0, Ok tt) ->
  (forall e r, e ∈ List_ scope 0 db -> (sr_apply e r).2 = Ok tt) ->
  exists st res1 res2,
    ReplayWithOptions fuel db' scope r (checkpoint_options name) = Some (st, res1, Ok tt) /\
    ReplayWithOptions fuel db scope r0 no_options = Some (st, res2, Ok tt) /\
    UsedCheckpoint res1 = true /\ FinalSequence res1 = FinalSequence res2.
Proof.
  intros Hok Hc Hf Hn db' Hload Hth Hk Hre Hrest Hap.
  assert (Hsplit := List_split scope (cp_Sequence c) db Hok Hc (proj1 Hk)).
  assert (Hgen := genesis_run fuel scope no_options db r0 Hok Hc Hf eq_refl Hap).
  assert (Hseqs := List_sequences _ _ _ Hok Hc). cbn zeta in Hgen.
  rewrite upto_no_limit in Hgen by done.
  assert (log_ok db') as Hok' by (eapply step_ok; [apply step_compact|done]).
  assert (Hl : List_ scope (cp_Sequence c) db' = List_ scope (cp_Sequence c) db)
    by (by apply List_compacted).
  eexists _, _, _. split; [|split; [exact Hgen|split]].
  - unfold ReplayWithOptions. rewrite bool_decide_false by done.
    change rs_checkpoints with (Some (LatestCheckpoint, ListCheckpoints)). cbn iota.
    change (CheckpointName (checkpoint_options name)) with name.
    rewrite Hload, Hre, Hrest. rewrite replay_loop_repository; [|done|lia| |done|].
    + rewrite upto_no_limit, Hl by done. rewrite Hsplit. unfold apply_all.
      by rewrite foldl_app.
    + apply complete_from_compacted; [done| |done]. by apply complete_from_later.
    + rewrite Hl. intros e r' He. apply Hap. rewrite Hsplit. set_solver.
  - done.
  - cbn. apply (f_equal length) in Hseqs. rewrite length_fmap, length_seqZ in Hseqs.
    assert (Hs := List_sequences _ _ _ Hok (complete_from_later _ _ _ Hok Hc Hk)).
    apply (f_equal length) in Hs. rewrite length_fmap, length_seqZ in Hs. lia.
Qed.

End replayer.

(** A replayer that lists the sequence numbers it applied. *)
#[local] Instance trace_replayer : StateReplayer (list Z) := {|
  sr_apply e r := (r ++ [ev_Sequence e], Ok tt);
  sr_restore := Some (fun c _ => (seqZ 1 (cp_Sequence c), Ok tt));
|}.

Lemma sample_log_complete : complete_from "scope" 0 sample_log.
Proof. right. exists (set_ids 1 1 (sample_event "a" 10)). split; [by vm_compute; constructor|done]. Qed.

Lemma replay_genesis_witness :
  (ReplayWithOptions 2 sample_log "scope" [] 
    {| CheckpointName := ""; AllowGenesisReplayWithoutCheckpoint := false; UntilSequence := 1;
       UntilTime := 0 |}) =
  Some ([1], {| EventsApplied := 1; StartedAfterSequence := 0; FinalSequence := 1;
                UsedCheckpoint := false |}, Ok tt).
Proof.
  destruct (replay_genesis 2 "scope"
    {| CheckpointName := ""; AllowGenesisReplayWithoutCheckpoint := false; UntilSequence := 1;
       UntilTime := 0 |} sample_log []) as [_ H].
  - apply sample_log_ok.
  - apply sample_log_complete.
  - lia.
  - done.
  - done.
  - rewrite H. by vm_compute.
Defined.

Definition sample_checkpoint (sum : string) : Checkpoint :=
  {| cp_Name := "runtime-state"; cp_ScopeID := "scope"; cp_Sequence := 1; cp_EventID := 1;
     cp_Checksum := sum; cp_State := Some (JObject []); cp_Compact := true; cp_Metadata := None;
     cp_SchemaVersion := 1; cp_CreatedAt := 10 |}.
Definition sample_checkpointed : EventRepository :=
  (SaveCheckpoint 15 (sample_checkpoint (checkpointReplayChecksum (sample_checkpoint ""))) sample_log).1.

Lemma checkpoint_replay_equals_genesis_witness :
  exists st res1 res2,
    ReplayWithOptions 2 (CompactRawArchive "scope" "runtime-state" 1 sample_checkpointed).1 "scope" [7]
      (checkpoint_options "runtime-state") = Some (st, res1, Ok tt) /\
    ReplayWithOptions 2 sample_checkpointed "scope" [] no_options = Some (st, res2, Ok tt) /\
    UsedCheckpoint res1 = true /\ FinalSequence res1 = FinalSequence res2.
Proof.
  apply (checkpoint_replay_equals_genesis 2 "scope" "runtime-state" 1 sample_checkpointed
           (sample_checkpoint (checkpointReplayChecksum (sample_checkpoint "")))
           (fun c _ => (seqZ 1 (cp_Sequence c), Ok tt)) [7] []).
  - apply (step_ok sample_log); [apply step_save|apply sample_log_ok].
  - destruct sample_log_complete as [H|H]; [by vm_compute in H|right]. exact H.
  - lia.
  - done.
  - by vm_compute.
  - cbn. lia.
  - vm_compute. split; congruence.
  - done.
  - by vm_compute.
  - done.
Defined.

End Replay.
