(* ===== verification/Lifecycle.v ===== *)
(** * Runtime lifecycle

    [internal/runtime/scope], [reducer], [engine/state_machine.go], [cooldown],
    [breaker] and [scheduler/stateful/scheduler.go].  The state machine writes
    the runtime state, then publishes the transition and saves checkpoints;
    the bus and the checkpoint manager are interfaces, as in the source. *)

From S2P Require Import Prelude GoFmt Sha256 RuntimeModels Events EventLog.

Local Open Scope Z_scope.

(** ** Scopes ([scope.go]) *)
Module Scope.

Record RuntimeScope := {
  Tenant : string;
  AccountID : string;
  ZoneID : string;
  Environment : string;
}.

Definition zero_scope : RuntimeScope :=
  {| Tenant := ""; AccountID := ""; ZoneID := ""; Environment := "" |}.

(** The first sixteen characters of the digest. *)
Definition ID (s : RuntimeScope) : string :=
  String.substring 0 16
    (Sha256.hex_digest (Tenant s +:+ "|" +:+ AccountID s +:+ "|" +:+ ZoneID s +:+ "|" +:+
                        Environment s)).

Definition scope_String (s : RuntimeScope) : string :=
  Tenant s +:+ "/" +:+ Environment s +:+ "/" +:+ AccountID s +:+ "/" +:+ ZoneID s.

Definition ScopeDir (baseDir : string) (s : RuntimeScope) : string := baseDir +:+ "/" +:+ ID s.

Lemma substring_length n (s : string) :
  (n <= String.length s)%nat -> String.length (String.substring 0 n s) = n.
Proof.
  revert s. induction n as [|n IH]; intros [|a s] Hl; cbn in *; [done|done|lia|].
  f_equal. apply IH. lia.
Qed.

Lemma ID_length s : String.length (ID s) = 16%nat.
Proof. unfold ID. apply substring_length. rewrite Sha256.hex_digest_length. lia. Qed.

End Scope.

(** ** Reducer ([reducer.go]) *)
Module Reducer.
Import Json Events Models.

Record TransitionInput := {
  ti_From : string;
  ti_To : string;
  ti_At : Z;
  ti_EpochID : string;
  ti_FencingToken : Z;
  ti_LeaseID : string;
}.

Definition set_rollback_id (id : string) (s : RuntimeState) : RuntimeState :=
  {| LastRunID := LastRunID s; LastAppliedSnapshot := LastAppliedSnapshot s;
     LastPlanID := LastPlanID s; LastSuccessAt := LastSuccessAt s;
     IncompleteBatchID := IncompleteBatchID s; ActiveRollbackID := id;
     CurrentEpoch := CurrentEpoch s; ActiveLease := ActiveLease s;
     ActiveRollbackLease := ActiveRollbackLease s; LastSafeCheckpoint := LastSafeCheckpoint s;
     Lifecycle := Lifecycle s; Cooldowns := Cooldowns s |}.

Definition set_status (status : string) (started updated : Z) (l : LifecycleState) : LifecycleState :=
  {| lc_Status := status; lc_EpochID := lc_EpochID l; lc_RunID := lc_RunID l;
     lc_BatchID := lc_BatchID l; lc_PlanID := lc_PlanID l; lc_StartedAt := started;
     lc_LastUpdatedAt := updated; lc_Error := lc_Error l; lc_RetryCount := lc_RetryCount l |}.

(** The epoch's id and generation; its creation time is set once. *)
Definition enter_epoch (id : string) (gen at_ : Z) (e : Epoch) : Epoch :=
  {| e_ID := id; e_ParentID := e_ParentID e; e_Generation := gen;
     e_SchedulerRunID := e_SchedulerRunID e;
     e_CreatedAt := if is_zero_time (e_CreatedAt e) then at_ else e_CreatedAt e |}.

Definition ApplyLifecycleTransition (s : RuntimeState) (i : TransitionInput) : RuntimeState :=
  let now := ti_At i in
  let started := lc_StartedAt (Lifecycle s) in
  let started := if bool_decide (ti_From i = StatusIdle) && is_zero_time started then now else started in
  let s := set_lifecycle (set_status (ti_To i) started now (Lifecycle s)) s in
  let s := if bool_decide (ti_EpochID i = "") then s
           else set_epoch (enter_epoch (ti_EpochID i) (ti_FencingToken i) now (CurrentEpoch s)) s in
  let lease action :=
    {| l_ID := ti_LeaseID i; l_Owner := ""; l_Action := action; l_EpochID := ti_EpochID i;
       l_ExpiresAt := 0; l_CreatedAt := now; l_FencingToken := ti_FencingToken i |} in
  let s := if bool_decide (ti_LeaseID i = "") then s
           else if bool_decide (ti_To i = StatusRollingBack)
                then set_leases (ActiveLease s) (Some (lease "rollback")) s
                else set_leases (Some (lease "reconcile")) (ActiveRollbackLease s) s in
  if bool_decide (ti_To i ∈ [StatusIdle; StatusConverged; StatusFailed]) then
    set_rollback_id "" (set_leases None None s)
  else if bool_decide (ti_To i = StatusRollingBack) && negb (bool_decide (ti_EpochID i = "")) then
    set_rollback_id (ti_EpochID i) s
  else s.

Definition metadataString (m : Metadata) (key : string) : string :=
  match m with
  | None => ""
  | Some g => match g !! key with Some (AString s) => s | _ => "" end
  end.

Definition metadataInt64 (m : Metadata) (key : string) : Z :=
  match m with
  | None => 0
  | Some g => match g !! key with
              | Some (AInt64 z) | Some (AInt z) => z
              | Some (AFloat64 z) => wrap64 z
              | _ => 0
              end
  end.

Definition ApplyEvent (s : RuntimeState) (e : Event) : result RuntimeState :=
  if bool_decide (ev_Type e = TypeLifecycleTransition) then
    rbind (fields_of (ev_Payload e)) (fun fs =>
    rbind (get_string "from" fs) (fun from =>
    rbind (get_string "to" fs) (fun to =>
    rbind (get_string "reason" fs) (fun _ =>
    Ok (ApplyLifecycleTransition s
          {| ti_From := from; ti_To := to; ti_At := ev_Timestamp e;
             ti_EpochID := metadataString (ev_Metadata e) "epoch_id";
             ti_FencingToken := metadataInt64 (ev_Metadata e) "fencing_token";
             ti_LeaseID := metadataString (ev_Metadata e) "lease_id" |})))))
  else if bool_decide (ev_Type e = TypeLeaseAcquired) then
    rbind (fields_of (ev_Payload e)) (fun fs =>
    rbind (get_string "lease_id" fs) (fun id =>
    rbind (get_string "action" fs) (fun action =>
    rbind (get_string "epoch_id" fs) (fun epoch =>
    rbind (get_string "owner" fs) (fun owner =>
    rbind (get_int64 "fencing_token" fs) (fun tok =>
    rbind (get_time "expires_at" fs) (fun expires =>
    let lease := {| l_ID := id; l_Owner := owner; l_Action := action; l_EpochID := epoch;
                    l_ExpiresAt := expires; l_CreatedAt := ev_Timestamp e; l_FencingToken := tok |} in
    Ok (if bool_decide (action = "rollback") then
          let s := set_leases (ActiveLease s) (Some lease) s in
          if bool_decide (epoch = "") then s else set_rollback_id epoch s
        else set_leases (Some lease) (ActiveRollbackLease s) s))))))))
  else if bool_decide (ev_Type e = TypeFencingTokenIssued) then
    rbind (fields_of (ev_Payload e)) (fun fs =>
    rbind (get_string "epoch_id" fs) (fun epoch =>
    rbind (get_int64 "fencing_token" fs) (fun tok =>
    rbind (get_string "reason" fs) (fun _ =>
    Ok (set_epoch (enter_epoch epoch tok (ev_Timestamp e) (CurrentEpoch s)) s)))))
  else if bool_decide (ev_Type e = TypeRollbackStarted) then
    rbind (fields_of (ev_Payload e)) (fun fs =>
    rbind (get_string "rollback_id" fs) (fun id =>
    rbind (get_string "reason" fs) (fun _ =>
    rbind (get_string "lineage_id" fs) (fun _ => Ok (set_rollback_id id s)))))
  else if bool_decide (ev_Type e ∈ [TypeRollbackCompleted; TypeRollbackFailed]) then
    Ok (set_leases (ActiveLease s) None (set_rollback_id "" s))
  else Ok s.

(** A replayer that keeps the runtime state. *)
#[export] Instance reducer_replayer : Replay.StateReplayer RuntimeState := {|
  Replay.sr_apply e s :=
    match ApplyEvent s e with Ok s' => (s', Ok tt) | Err m => (s, Err m) end;
  Replay.sr_restore := None;
|}.

End Reducer.

(** ** State machine ([state_machine.go]) *)
Module StateMachine.
Import Json Events Models StateStore Scope Reducer.

(** [RuntimeContext]: what a caller passes along; a plain context is the zero
    value.  [Budget] and [StartedAt], which no transition reads, are left out. *)
Record RuntimeContext := {
  rt_Scope : RuntimeScope;
  rt_LeaseID : string;
  rt_EpochID : string;
  rt_FencingToken : Z;
  rt_TraceID : string;
}.

Definition plain_context : RuntimeContext :=
  {| rt_Scope := zero_scope; rt_LeaseID := ""; rt_EpochID := ""; rt_FencingToken := 0;
     rt_TraceID := "" |}.

Class EventBus (B : Type) := {
  eb_publish : Z -> PublishRequest -> B -> B * result Event;
}.

Class CheckpointManager (C : Type) := {
  cm_save : string -> string -> Event -> RuntimeState -> C -> C * result unit;
  cm_save_named : string -> string -> string -> Event -> RuntimeState -> C -> C * result unit;
}.

Definition allowed : list (string * list string) := [
  (StatusIdle, [StatusDiscovering; StatusQuarantined]);
  (StatusDiscovering, [StatusPlanning; StatusQuarantined; StatusFailed]);
  (StatusPlanning, [StatusAwaitingApproval; StatusExecuting; StatusQuarantined; StatusFailed]);
  (StatusAwaitingApproval, [StatusExecuting; StatusIdle; StatusQuarantined; StatusFailed]);
  (StatusExecuting, [StatusValidating; StatusRollbackRequired; StatusQuarantined; StatusFailed]);
  (StatusValidating, [StatusConverged; StatusRollbackRequired; StatusQuarantined; StatusFailed]);
  (StatusConverged, [StatusIdle; StatusDiscovering; StatusQuarantined]);
  (StatusRollbackRequired, [StatusRollingBack; StatusFailed]);
  (StatusRollingBack, [StatusIdle; StatusQuarantined; StatusFailed]);
  (StatusFailed, [StatusIdle; StatusDiscovering; StatusQuarantined]);
  (StatusQuarantined, [StatusIdle; StatusDiscovering]);
  (StatusPaused, [StatusIdle; StatusDiscovering; StatusQuarantined])
].

Definition targets_of (from : string) : option (list string) :=
  snd <$> List.find (fun p => bool_decide (p.1 = from)) allowed.

Definition isTransitionAllowed (from to : string) : bool :=
  match targets_of from with
  | None => false
  | Some targets =>
      if bool_decide (to = StatusPaused) then
        bool_decide (from = StatusIdle) || bool_decide (from = StatusConverged) ||
        bool_decide (from = StatusFailed)
      else existsb (fun t => bool_decide (t = to)) targets
  end.

Section machine.
Context {B C : Type} `{!EventBus B} `{!CheckpointManager C}.

Record StateMachine := {
  sm_store : StateStore;
  sm_eventBus : option B;
  sm_checkpoints : option C;
}.

Definition NewStateMachine (s : StateStore) : StateMachine :=
  {| sm_store := s; sm_eventBus := None; sm_checkpoints := None |}.
Definition SetEventBus (b : B) (m : StateMachine) : StateMachine :=
  {| sm_store := sm_store m; sm_eventBus := Some b; sm_checkpoints := sm_checkpoints m |}.
Definition SetCheckpointManager (c : C) (m : StateMachine) : StateMachine :=
  {| sm_store := sm_store m; sm_eventBus := sm_eventBus m; sm_checkpoints := Some c |}.

Definition op_transition : string := "runtime.engine.Transition".

Definition current_status (s : RuntimeState) : string :=
  if bool_decide (lc_Status (Lifecycle s) = "") then StatusIdle else lc_Status (Lifecycle s).

Definition transition_input (now : Z) (from to : string) (ctx : RuntimeContext) : TransitionInput :=
  {| ti_From := from; ti_To := to; ti_At := now; ti_EpochID := rt_EpochID ctx;
     ti_FencingToken := rt_FencingToken ctx; ti_LeaseID := rt_LeaseID ctx |}.

Definition transition_scope (ctx : RuntimeContext) : string :=
  if bool_decide (ID (rt_Scope ctx) = "") then "default" else ID (rt_Scope ctx).

Definition transition_metadata (ctx : RuntimeContext) (reason : string) : gmap string any :=
  {[ "reason" := AString reason; "epoch_id" := AString (rt_EpochID ctx);
     "fencing_token" := AInt64 (rt_FencingToken ctx); "lease_id" := AString (rt_LeaseID ctx);
     "trace_id" := AString (rt_TraceID ctx) ]}.

Definition transition_request (ctx : RuntimeContext) (from to reason : string) (s : RuntimeState)
  : PublishRequest :=
  NewLifecycleTransition
    {| c_ScopeID := transition_scope ctx;
       c_CorrelationID := if bool_decide (rt_TraceID ctx = "") then LastRunID s else rt_TraceID ctx;
       c_CausalID := ""; c_Actor := "runtime-state-machine";
       c_Metadata := Some (transition_metadata ctx reason) |}
    from to reason.

(** The saves that follow a published transition; the first error ends them. *)
Definition save_checkpoints (from to scopeID : string) (e : Event) (s : RuntimeState) (c : C)
  : C * result unit :=
  let trigger := "transition:" +:+ to in
  let '(c, r) := cm_save scopeID trigger e s c in
  match r with
  | Err m => (c, Err (wrap_msg op_transition m))
  | Ok _ =>
      let '(c, r) :=
        if bool_decide (to = StatusRollingBack) then
          cm_save_named "rollback-before" scopeID trigger e s c
        else if bool_decide (to = StatusConverged) then
          cm_save_named "post-convergence" scopeID trigger e s c
        else (c, Ok tt) in
      match r with
      | Err m => (c, Err (wrap_msg op_transition m))
      | Ok _ =>
          if bool_decide (from = StatusRollingBack) && bool_decide (to = StatusIdle) then
            let '(c, r) := cm_save_named "rollback-after" scopeID "transition:rollback_after" e s c in
            (c, match r with Err m => Err (wrap_msg op_transition m) | Ok _ => Ok tt end)
          else (c, Ok tt)
      end
  end.

(** [now] is the time of the transition, [pub] that of its publication. *)
Definition Transition (now pub : Z) (ctx : RuntimeContext) (to reason : string) (m : StateMachine)
  : StateMachine * result unit :=
  let cur := Load (sm_store m) in
  let from := current_status cur in
  if negb (isTransitionAllowed from to) then
    (m, Err (wrap_msg op_transition ("invalid transition from " +:+ from +:+ " to " +:+ to)))
  else
    let cur := ApplyLifecycleTransition cur (transition_input now from to ctx) in
    let '(st, r) := Save cur (sm_store m) in
    let m := {| sm_store := st; sm_eventBus := sm_eventBus m; sm_checkpoints := sm_checkpoints m |} in
    match r with
    | Err e => (m, Err (wrap_msg op_transition e))
    | Ok _ =>
        match sm_eventBus m with
        | None => (m, Ok tt)
        | Some b =>
            let '(b, r) := eb_publish pub (transition_request ctx from to reason cur) b in
            let m := {| sm_store := st; sm_eventBus := Some b; sm_checkpoints := sm_checkpoints m |} in
            match r with
            | Err e => (m, Err (wrap_msg op_transition e))
            | Ok ev =>
                match sm_checkpoints m with
                | None => (m, Ok tt)
                | Some c =>
                    let '(c, r) := save_checkpoints from to (transition_scope ctx) ev cur c in
                    ({| sm_store := st; sm_eventBus := Some b; sm_checkpoints := Some c |}, r)
                end
            end
        end
    end.

(** ** What a transition does *)

(** A transition that is not allowed, or whose state cannot be saved, changes
    nothing and is an error; any other moves the stored state by the reducer,
    whatever the bus and the checkpoint manager answer. *)
Lemma Transition_store now pub ctx to reason m :
  let from := current_status (Load (sm_store m)) in
  let '(m', r) := Transition now pub ctx to reason m in
  (sm_store m' = sm_store m /\ is_ok r = false /\
   (isTransitionAllowed from to = false \/ disk_error (sm_store m) <> None)) \/
  (isTransitionAllowed from to = true /\ disk_error (sm_store m) = None /\
   sm_store m' = {| global_doc := Some (ApplyLifecycleTransition (Load (sm_store m))
                                          (transition_input now from to ctx));
                    scoped_docs := scoped_docs (sm_store m); disk_error := None |}).
Proof.
  unfold Transition, Save. destruct (isTransitionAllowed _ to) eqn:Ha; cbn; [|by left; auto].
  destruct (disk_error (sm_store m)) eqn:Hd; [left; naive_solver|].
  destruct (sm_eventBus m) as [b|]; [|by right].
  destruct (eb_publish _ _ b) as [b' [ev|e]]; [|by right]. cbn.
  destruct (sm_checkpoints m) as [c|]; [|by right].
  destruct (save_checkpoints _ _ _ _ _ c). by right.
Qed.

Lemma isTransitionAllowed_nonempty from : isTransitionAllowed from "" = false.
Proof.
  unfold isTransitionAllowed, targets_of. destruct (List.find _ allowed) as [[f l]|] eqn:Hf; [|done].
  apply find_some_in in Hf as [Hin _]. cbn.
  unfold allowed in Hin. repeat (apply elem_of_cons in Hin as [[= -> ->]|Hin]; [done|]).
  by apply elem_of_nil in Hin.
Qed.

Lemma ApplyLifecycleTransition_status s i :
  lc_Status (Lifecycle (ApplyLifecycleTransition s i)) = ti_To i.
Proof. unfold ApplyLifecycleTransition. by repeat case_match. Qed.

(** The edges of the table. *)
Definition edges : list (string * string) :=
  (p ← allowed; t ← p.2; [(p.1, t)]) ++
  [(StatusIdle, StatusPaused); (StatusConverged, StatusPaused); (StatusFailed, StatusPaused)].

Lemma isTransitionAllowed_edges a b : isTransitionAllowed a b = true -> (a, b) ∈ edges.
Proof.
  unfold isTransitionAllowed, targets_of, edges. rewrite elem_of_app.
  destruct (List.find _ allowed) as [[f l]|] eqn:Hf; [|done].
  apply find_some_in in Hf as [Hin Hfa]. cbn [fst] in Hfa. bool_simpl. subst f. cbn [fmap option_fmap option_map snd].
  case_bool_decide as Hb; intros Ha.
  - right. subst b. repeat (case_bool_decide; [subst; set_solver|]). done.
  - left. apply existsb_exists in Ha as (t & Ht & ->%bool_decide_eq_true).
    apply list_elem_of_bind. exists (a, l). split; [|done]. cbn.
    apply list_elem_of_bind. exists b. split; [set_solver|]. by apply list_elem_of_In.
Qed.

(** *** Runs of the machine *)
Record call := {
  call_now : Z; call_pub : Z; call_ctx : RuntimeContext; call_to : string; call_reason : string;
  call_disk : option string;   (** whether the disk refuses writes at that time *)
}.

Definition set_disk (e : option string) (m : StateMachine) : StateMachine :=
  {| sm_store := {| global_doc := global_doc (sm_store m); scoped_docs := scoped_docs (sm_store m);
                    disk_error := e |};
     sm_eventBus := sm_eventBus m; sm_checkpoints := sm_checkpoints m |}.

Definition do_call (m : StateMachine) (c : call) : StateMachine * result unit :=
  Transition (call_now c) (call_pub c) (call_ctx c) (call_to c) (call_reason c)
    (set_disk (call_disk c) m).

Definition status_of (m : StateMachine) : string := current_status (Load (sm_store m)).

(** The statuses the store goes through, the initial one first. *)
Fixpoint history (m : StateMachine) (cs : list call) : list string :=
  status_of m :: match cs with [] => [] | c :: cs' => history (do_call m c).1 cs' end.

Lemma do_call_status m c :
  let '(m', r) := do_call m c in
  (status_of m' = status_of m /\ sm_store m' = sm_store (set_disk (call_disk c) m) /\ is_ok r = false) \/
  (isTransitionAllowed (status_of m) (call_to c) = true /\ status_of m' = call_to c).
Proof.
  unfold do_call.
  pose proof (Transition_store (call_now c) (call_pub c) (call_ctx c) (call_to c) (call_reason c)
                (set_disk (call_disk c) m)) as Ht.
  change (Load (sm_store (set_disk (call_disk c) m))) with (Load (sm_store m)) in Ht.
  fold (status_of m) in Ht. destruct (Transition _ _ _ _ _ _) as [m' r].
  destruct Ht as [(Hs & Hr & _)|(Ha & _ & Hs)].
  - left. unfold status_of. rewrite Hs. done.
  - right. split; [done|]. unfold status_of, current_status. rewrite Hs. cbn.
    rewrite ApplyLifecycleTransition_status. cbn.
    case_bool_decide as He; [|done]. rewrite He in Ha. by rewrite isTransitionAllowed_nonempty in Ha.
Qed.

Definition edge_rules (a b : string) : Prop :=
  (b = StatusExecuting -> a = StatusPlanning \/ a = StatusAwaitingApproval) /\
  (b = StatusAwaitingApproval -> a = StatusPlanning) /\
  (b = StatusPlanning -> a = StatusDiscovering) /\
  (b = StatusValidating -> a = StatusExecuting) /\
  (b = StatusConverged -> a = StatusValidating) /\
  (b = StatusRollingBack -> a = StatusRollbackRequired) /\
  (a = StatusQuarantined -> b = StatusIdle \/ b = StatusDiscovering).

#[export] Instance edge_rules_dec a b : Decision (edge_rules a b).
Proof. unfold edge_rules. apply _. Defined.

(** C12: Whatever calls are made, with whatever contexts, times and failures of the
    disk, the bus and the checkpoints, the stored status only ever stays or
    moves along an edge of the table.  In particular execution follows planning
    or an approval, validation follows execution, convergence follows
    validation, and a rollback follows the demand for it. *)
Theorem lifecycle_follows_table m cs i a b :
  history m cs !! i = Some a -> history m cs !! S i = Some b ->
  (a = b \/ isTransitionAllowed a b = true) /\
  (a <> b -> edge_rules a b).
Proof.
  intros Ha Hb.
  assert (a = b \/ isTransitionAllowed a b = true) as Hab.
  { revert m i Ha Hb. induction cs as [|c cs IH]; intros m i Ha Hb.
    - destruct i; by cbn in Hb.
    - pose proof (do_call_status m c) as Hc. cbn [history] in Ha, Hb.
      destruct (do_call m c) as [m' r]. cbn [fst] in *. destruct i as [|i]; [|by eapply IH].
      cbn in Ha. injection Ha as <-. assert (b = status_of m') as ->.
      { destruct cs; cbn in Hb; congruence. }
      destruct Hc as [(-> & _)|[? ->]]; auto. }
  split; [done|]. intros Hne. destruct Hab as [|Hab%isTransitionAllowed_edges]; [done|].
  assert (Forall (fun p => edge_rules p.1 p.2) edges) as Hall
    by (apply (bool_decide_unpack _); by vm_compute).
  rewrite Forall_forall in Hall. exact (Hall _ Hab).
Qed.

(** Entering a status of rest drops both leases and the rollback in progress. *)
Lemma rest_clears s i :
  ti_To i ∈ [StatusIdle; StatusConverged; StatusFailed] ->
  let s' := ApplyLifecycleTransition s i in
  ActiveLease s' = None /\ ActiveRollbackLease s' = None /\ ActiveRollbackID s' = "".
Proof.
  intros Hin. unfold ApplyLifecycleTransition. rewrite (bool_decide_true (_ ∈ _)) by done. done.
Qed.

End machine.
Arguments StateMachine : clear implicits.

(** *** The machine over the event log *)
Import EventRepository Bus Replay.

#[export] Instance Bus_EventBus {S W} `{!EventStore S} : EventBus (Bus S W * W) := {|
  eb_publish now req bw :=
    let '(b, w, r) := PublishEvent now req bw.1 bw.2 in ((b, w), r);
|}.

Section logged.
Context {W C : Type} `{!CheckpointManager C}.

Definition transition_event (pub : Z) (ctx : RuntimeContext) (from to reason : string)
  (s : RuntimeState) : Event :=
  with_uid (event_of pub (transition_request ctx from to reason s)).

Lemma transition_metadata_clone ctx reason :
  cloneMap (Some (transition_metadata ctx reason)) = Some (transition_metadata ctx reason).
Proof.
  unfold cloneMap. case_bool_decide as Hm; [|done].
  apply (f_equal (.!! "reason")) in Hm. unfold transition_metadata in Hm.
  by rewrite lookup_empty, lookup_insert_eq in Hm.
Qed.

(** Reading a logged transition back and reducing it. *)
Lemma ApplyEvent_transition i q pub ctx from to reason s0 s :
  Z.abs (rt_FencingToken ctx) <= 2 ^ 53 ->
  ApplyEvent s (scan (set_ids i q (transition_event pub ctx from to reason s0))) =
  Ok (ApplyLifecycleTransition s (transition_input pub from to ctx)).
Proof.
  intros Htok. unfold transition_event.
  destruct (with_uid_set (event_of pub (transition_request ctx from to reason s0))) as [u ->].
  unfold transition_request, transition_scope. generalize (ID (rt_Scope ctx)). intros scope.
  generalize (if bool_decide (rt_TraceID ctx = "") then LastRunID s0 else rt_TraceID ctx). intros corr.
  set (e := scan _).
  assert (ev_Metadata e = reread (Some (transition_metadata ctx reason))) as Hm.
  { unfold e. cbn -[reread cloneMap transition_metadata]. unfold cloneMetadata.
    by rewrite !transition_metadata_clone. }
  assert (ev_Type e = TypeLifecycleTransition /\ ev_Timestamp e = pub /\
          ev_Payload e = Some (marshal_payload (LifecycleTransitionPayload from to reason)))
    as (Hty & Hts & Hp) by done.
  clearbody e. clear u scope corr.
  assert (forall k, metadataString (ev_Metadata e) k =
            match transition_metadata ctx reason !! k with Some (AString v) => v | _ => "" end) as Hstr.
  { intros k. rewrite Hm. unfold reread, metadataString. cbn -[transition_metadata].
    rewrite lookup_fmap. by destruct (_ !! k) as [[]|]. }
  assert (metadataInt64 (ev_Metadata e) "fencing_token" = rt_FencingToken ctx) as Hint.
  { rewrite Hm. unfold reread, metadataInt64. cbn -[transition_metadata].
    rewrite lookup_fmap. unfold transition_metadata.
    rewrite lookup_insert_ne, lookup_insert_ne, lookup_insert_eq by done. cbn.
    rewrite to_float_exact by done. apply wrap64_small. unfold int64_min, int64_max. lia. }
  unfold ApplyEvent. rewrite Hty, Hp, Hts, Hint, !Hstr.
  rewrite bool_decide_true by done. unfold transition_input.
  assert (forall ctx, transition_metadata ctx reason !! "epoch_id" = Some (AString (rt_EpochID ctx))
          /\ transition_metadata ctx reason !! "lease_id" = Some (AString (rt_LeaseID ctx))) as Hk.
  { intros c. unfold transition_metadata. split; by simplify_map_eq. }
  destruct (Hk ctx) as [-> ->]. done.
Qed.

(** A state without the stamps that a transition sets: the start and the last
    update of the lifecycle, and the creation of the epoch and of the leases. *)
Definition untimed_lease (l : Lease) : Lease :=
  {| l_ID := l_ID l; l_Owner := l_Owner l; l_Action := l_Action l; l_EpochID := l_EpochID l;
     l_ExpiresAt := l_ExpiresAt l; l_CreatedAt := 0; l_FencingToken := l_FencingToken l |}.
Definition untimed (s : RuntimeState) : RuntimeState :=
  set_leases (untimed_lease <$> ActiveLease s) (untimed_lease <$> ActiveRollbackLease s)
    (set_epoch {| e_ID := e_ID (CurrentEpoch s); e_ParentID := e_ParentID (CurrentEpoch s);
                  e_Generation := e_Generation (CurrentEpoch s);
                  e_SchedulerRunID := e_SchedulerRunID (CurrentEpoch s); e_CreatedAt := 0 |}
      (set_lifecycle (set_status (lc_Status (Lifecycle s)) 0 0 (Lifecycle s)) s)).

Lemma transition_untimed s from to ctx t1 t2 :
  untimed (ApplyLifecycleTransition s (transition_input t1 from to ctx)) =
  untimed (ApplyLifecycleTransition s (transition_input t2 from to ctx)).
Proof.
  unfold ApplyLifecycleTransition, enter_epoch. cbn.
  repeat (case_bool_decide; cbn); done.
Qed.

(** C19: Let the event bus be the log, the fencing token fit a float64 exactly
    (at most 2^53) and the content of the transition not be in the log yet.
    A transition that succeeds saves the reduced state and appends one event;
    reducing that event, as it is read back from the log, on the state before
    the transition gives the state of the transition at the time of
    publication, which is the saved state up to the stamps that the transition
    sets, and is the saved state when both times agree. *)
Theorem transition_replays now pub ctx to reason (m m' : StateMachine (Bus EventRepository W * W) C) b w :
  sm_eventBus m = Some (b, w) ->
  Z.abs (rt_FencingToken ctx) <= 2 ^ 53 ->
  let s := Load (sm_store m) in
  let from := current_status s in
  loadExistingEvent (transition_event pub ctx from to reason
    (ApplyLifecycleTransition s (transition_input now from to ctx))) (store b) = None ->
  Transition now pub ctx to reason m = (m', Ok tt) ->
  Load (sm_store m') = ApplyLifecycleTransition s (transition_input now from to ctx) /\
  exists row b' w' replayed, sm_eventBus m' = Some (b', w') /\
    rows (store b') = rows (store b) ++ [row] /\
    ApplyEvent s (scan row) = Ok replayed /\
    replayed = ApplyLifecycleTransition s (transition_input pub from to ctx) /\
    untimed replayed = untimed (Load (sm_store m')) /\ (pub = now -> replayed = Load (sm_store m')).
Proof.
  intros Hb Htok s from Hnew Ht.
  pose proof (Transition_store now pub ctx to reason m) as Hs. rewrite Ht in Hs.
  destruct Hs as [(_ & Hf & _)|(Ha & Hd & Hs)]; [done|].
  assert (Hload : Load (sm_store m') = ApplyLifecycleTransition s (transition_input now from to ctx)) by (by rewrite Hs).
  split; [done|]. rewrite Hload. clear Hs Hload.
  revert Ht. unfold Transition, Save. fold s from in Ha |- *. rewrite Ha, Hd, Hb.
  cbn -[PublishEvent transition_request ApplyLifecycleTransition save_checkpoints].
  unfold PublishEvent.
  change (es_append ?e (store b)) with (Append e (store b)).
  destruct (Append _ (store b)) as [db' [ev|e]] eqn:Hap; [|done].
  apply Append_cases in Hap as (p & [[_ [Hf|(_ & e' & He & _)]]|(_ & _ & Hdb & Hev)]);
    [done|by unfold transition_event in Hnew; congruence|].
  set (row := set_ids _ _ _) in Hdb. subst db'.
  intros Hrun.
  assert (exists w', sm_eventBus m' = Some ({| store := insert_event row (set_plan p (store b));
                                               subscribers := subscribers b |}, w')) as [w' Hb'].
  { revert Hrun. cbn -[row save_checkpoints].
    destruct (notify _ _ _) as [w' [[]|e]]; cbn -[row save_checkpoints]; [|done].
    destruct (sm_checkpoints m) as [c|]; [|intros [= <-]; eauto].
    destruct (save_checkpoints _ _ _ _ _ c) as [c' r]. intros [= <- ->]. eauto. }
  eexists row, _, w', _. split_and!; [exact Hb'|done|by apply ApplyEvent_transition|done|apply transition_untimed|by intros ->].
Qed.

(** A transition whose content is already in the log succeeds and moves the
    stored state, and the log does not record it. *)
Theorem repeated_transition_unlogged now pub ctx to reason
  (m : StateMachine (Bus EventRepository W * W) C) b w e :
  let s := Load (sm_store m) in
  let from := current_status s in
  sm_eventBus m = Some (b, w) -> sm_checkpoints m = None -> subscribers b = ∅ ->
  isTransitionAllowed from to = true -> disk_error (sm_store m) = None ->
  readOnly (store b) = false -> lookups (EventRepository.plan (store b)) = [] ->
  loadExistingEvent (transition_event pub ctx from to reason
    (ApplyLifecycleTransition s (transition_input now from to ctx))) (store b) = Some e ->
  let '(m', r) := Transition now pub ctx to reason m in
  r = Ok tt /\ lc_Status (Lifecycle (Load (sm_store m'))) = to /\ sm_eventBus m' = Some (b, w).
Proof.
  intros s from Hb Hc Hsub Ha Hd Hro Hlk He. unfold Transition, Save.
  fold s from. rewrite Ha, Hd, Hb, Hc.
  cbn -[PublishEvent transition_request ApplyLifecycleTransition].
  unfold PublishEvent. change (es_append ?e (store b)) with (Append e (store b)).
  unfold Append, ensureWritable, lookup_existing. rewrite Hro, Hlk. unfold transition_event in He. rewrite He.
  cbn -[ApplyLifecycleTransition]. rewrite Hsub, lookup_empty. cbn -[ApplyLifecycleTransition].
  rewrite ApplyLifecycleTransition_status. split_and!; [done..|]. by destruct b; cbn in *; subst.
Qed.

End logged.

(** *** A machine over an empty log, and an operator's pause and resume *)
#[export] Instance no_checkpoints : CheckpointManager Empty_set := {|
  cm_save _ _ _ _ c := (c, Ok tt);
  cm_save_named _ _ _ _ _ c := (c, Ok tt);
|}.

Definition LoggedMachine : Type := StateMachine (Bus EventRepository unit * unit) Empty_set.

Definition fresh_machine : LoggedMachine :=
  SetEventBus (NewBus NewEventRepository, tt) (NewStateMachine NewStateStore).

Definition bus_of (m : LoggedMachine) : Bus EventRepository unit * unit :=
  default (NewBus NewEventRepository, tt) (sm_eventBus m).

Definition api_pause (t : Z) (m : LoggedMachine) : LoggedMachine * result unit :=
  Transition t t plain_context StatusPaused "manual pause via API" m.
Definition api_resume (t : Z) (m : LoggedMachine) : LoggedMachine * result unit :=
  Transition t t plain_context StatusIdle "manual resume via API" m.

Definition resumed : LoggedMachine := (api_resume 2 (api_pause 1 fresh_machine).1).1.

Lemma lifecycle_follows_table_witness :
  let call to := {| call_now := 1; call_pub := 1; call_ctx := plain_context; call_to := to;
                    call_reason := ""; call_disk := None |} in
  let h := history fresh_machine (call <$> [StatusDiscovering; StatusExecuting; StatusPlanning]) in
  h = [StatusIdle; StatusDiscovering; StatusDiscovering; StatusPlanning] /\
  isTransitionAllowed StatusDiscovering StatusPlanning = true.
Proof.
  intros call h. split; [by vm_compute|].
  destruct (lifecycle_follows_table fresh_machine
              (call <$> [StatusDiscovering; StatusExecuting; StatusPlanning]) 2
              StatusDiscovering StatusPlanning) as [[H|H] _]; [by vm_compute..|done|done].
Defined.

Lemma transition_replays_witness :
  exists row b w replayed, sm_eventBus (api_pause 1 fresh_machine).1 = Some (b, w) /\
    rows (store b) = [row] /\ ApplyEvent zero_state (scan row) = Ok replayed /\
    replayed = Load (sm_store (api_pause 1 fresh_machine).1) /\ lc_Status (Lifecycle replayed) = StatusPaused.
Proof.
  destruct (transition_replays 1 1 plain_context StatusPaused "manual pause via API" fresh_machine
           (api_pause 1 fresh_machine).1 (NewBus NewEventRepository) tt) as (_ & row & b & w & replayed & Hb & Hr & Ha & _ & _ & He).
  - done.
  - cbn. lia.
  - by vm_compute.
  - by vm_compute.
  - specialize (He eq_refl). exists row, b, w, replayed. split_and!; [exact Hb|exact Hr|exact Ha|exact He|].
    rewrite He. by vm_compute.
Defined.

Lemma repeated_transition_unlogged_witness :
  let '(m', r) := Transition 3 3 plain_context StatusPaused "manual pause via API" resumed in
  r = Ok tt /\ lc_Status (Lifecycle (Load (sm_store m'))) = StatusPaused /\
  sm_eventBus m' = Some ((bus_of resumed).1, tt).
Proof.
  apply (repeated_transition_unlogged 3 3 plain_context StatusPaused "manual pause via API" resumed
           (bus_of resumed).1 tt
           (set_ids 1 1 (transition_event 3 plain_context (current_status (Load (sm_store resumed)))
              StatusPaused "manual pause via API"
              (ApplyLifecycleTransition (Load (sm_store resumed))
                 (transition_input 3 (current_status (Load (sm_store resumed))) StatusPaused
                    plain_context))))); by vm_compute.
Defined.

(** After pause, resume and pause the store says paused; the log has the first
    two transitions, and its replay says idle. *)
Example replay_after_second_pause :
  let m := (api_pause 3 resumed).1 in
  lc_Status (Lifecycle (Load (sm_store m))) = StatusPaused /\
  (fun '(s, res, r) => (lc_Status (Lifecycle s), Replay.EventsApplied res, r)) <$>
    Replay.ReplayWithOptions 2 (store (bus_of m).1) (transition_scope plain_context) zero_state
      Replay.no_options
  = Some (StatusIdle, 2, Ok tt).
Proof. by vm_compute. Qed.

End StateMachine.
