(* ===== verification/Scheduler.v ===== *)
(** * Scheduler

    [internal/runtime/cooldown], [breaker], [scheduler/budget],
    [scheduler/pool] and [scheduler/stateful/scheduler.go].  The worker pool is
    a transition system: submissions, and workers that take and finish tasks. *)

From S2P Require Import Prelude RuntimeModels Events EventLog Lifecycle.

Local Open Scope Z_scope.

(** ** Cooldowns ([manager.go]) *)
Module Cooldown.
Import Models StateStore.

Definition Start (now duration : Z) (reason : string) (s : StateStore) : StateStore * result unit :=
  let cur := Load s in
  Save (set_cooldowns (<[reason := t_add now duration]> (Cooldowns cur)) cur) s.

Definition IsActive (now : Z) (reason : string) (s : StateStore) : bool :=
  match Cooldowns (Load s) !! reason with
  | None => false
  | Some expiry => t_before now expiry
  end.

(** The longest time left; the loop over the map is a maximum, in any order. *)
Definition longer (now expiry max : Z) : Z :=
  let rem := t_sub expiry now in if max <? rem then rem else max.
Definition Remaining (now : Z) (s : StateStore) : Z :=
  map_fold (fun _ => longer now) 0 (Cooldowns (Load s)).

Lemma longer_max now e m : longer now e m = Z.max m (t_sub e now).
Proof. unfold longer. destruct (Z.ltb_spec m (t_sub e now)); lia. Qed.

Lemma t_sub_pos a b : 0 < t_sub a b <-> b < a.
Proof. unfold t_sub, sat64, int64_min, int64_max. lia. Qed.

(** The scheduler is held back exactly while some cooldown is active. *)
Theorem Remaining_pos_iff now s :
  0 < Remaining now s <-> exists reason, IsActive now reason s = true.
Proof.
  unfold Remaining, IsActive, t_before. generalize (Cooldowns (Load s)). clear s. intros m.
  induction m as [|k x m Hk IH] using map_ind.
  { rewrite map_fold_empty. split; [lia|]. intros [reason Hr]. by rewrite lookup_empty in Hr. }
  rewrite map_fold_insert_L by (done || (intros; rewrite !longer_max; lia)).
  rewrite longer_max, Z.max_lt_iff, IH, t_sub_pos. split.
  - intros [[reason Hr]|Hx].
    + exists reason. rewrite lookup_insert_ne; [done|]. intros <-. by rewrite Hk in Hr.
    + exists k. rewrite lookup_insert_eq. lia.
  - intros [reason Hr]. destruct (decide (k = reason)) as [<-|Hne].
    + rewrite lookup_insert_eq in Hr. right. lia.
    + rewrite lookup_insert_ne in Hr by done. eauto.
Qed.

End Cooldown.

(** ** Circuit breaker ([breaker.go]) *)
Module Breaker.

Inductive State := StateClosed | StateOpen | StateHalfOpen.

Record CircuitBreaker := {
  failureCount : Z;
  threshold : Z;
  window : Z;
  resetTimeout : Z;
  lastFailure : Z;
  state : State;
}.

Definition NewBreaker (threshold window resetTimeout : Z) : CircuitBreaker :=
  {| failureCount := 0; threshold := threshold; window := window; resetTimeout := resetTimeout;
     lastFailure := 0; state := StateClosed |}.

Definition set_state (n last : Z) (st : State) (cb : CircuitBreaker) : CircuitBreaker :=
  {| failureCount := n; threshold := threshold cb; window := window cb;
     resetTimeout := resetTimeout cb; lastFailure := last; state := st |}.

Definition Allow (now : Z) (cb : CircuitBreaker) : CircuitBreaker * bool :=
  match state cb with
  | StateOpen =>
      if resetTimeout cb <? t_sub now (lastFailure cb)
      then (set_state (failureCount cb) (lastFailure cb) StateHalfOpen cb, true)
      else (cb, false)
  | _ => (cb, true)
  end.

Definition RecordSuccess (cb : CircuitBreaker) : CircuitBreaker :=
  set_state 0 (lastFailure cb) StateClosed cb.

Definition RecordFailure (now : Z) (cb : CircuitBreaker) : CircuitBreaker :=
  let n := if window cb <? t_sub now (lastFailure cb) then 1 else failureCount cb + 1 in
  set_state n now (if threshold cb <=? n then StateOpen else state cb) cb.

Definition GetState (cb : CircuitBreaker) : State := state cb.

(** Failures at the given times. *)
Definition failures (ts : list Z) (cb : CircuitBreaker) : CircuitBreaker :=
  foldl (fun cb t => RecordFailure t cb) cb ts.

(** Times in order, each within the window of the one before. *)
Fixpoint burst (w last : Z) (ts : list Z) : Prop :=
  match ts with [] => True | t :: ts' => 0 <= t - last <= w /\ burst w t ts' end.

Lemma failures_count cb ts :
  0 <= window cb < int64_max -> burst (window cb) (lastFailure cb) ts ->
  failureCount (failures ts cb) = failureCount cb + Z.of_nat (length ts) /\
  (state (failures ts cb) = StateOpen <->
   state cb = StateOpen \/
   ts <> [] /\ threshold cb <= failureCount cb + Z.of_nat (length ts)).
Proof.
  intros Hw. revert cb Hw. induction ts as [|t ts IH]; intros cb Hw Hb.
  { cbn. split; [lia|]. naive_solver. }
  destruct Hb as [Ht Hb].
  assert ((window cb <? t_sub t (lastFailure cb)) = false) as Hn.
  { unfold t_sub, sat64, int64_min, int64_max in *. lia. }
  assert (RecordFailure t cb = set_state (failureCount cb + 1) t
            (if threshold cb <=? failureCount cb + 1 then StateOpen else state cb) cb) as Hr
    by (unfold RecordFailure; by rewrite Hn).
  cbn [failures foldl]. fold (failures ts (RecordFailure t cb)). rewrite Hr.
  destruct (IH (set_state (failureCount cb + 1) t
                  (if threshold cb <=? failureCount cb + 1 then StateOpen else state cb) cb) Hw Hb)
    as [Hc Hs].
  rewrite Hc, Hs. cbn -[Z.add Z.of_nat]. split; [lia|].
  destruct (Z.leb_spec (threshold cb) (failureCount cb + 1)).
  - split; [|naive_solver]. intros _. right. split; [done|]. lia.
  - destruct ts as [|t' ts]; cbn; split; naive_solver lia.
Qed.

Lemma last_indep (x : Z) l d d' : List.last (x :: l) d = List.last (x :: l) d'.
Proof. revert x. induction l as [|y l IH]; intros x; [done|]. apply IH. Qed.

Lemma failures_params ts cb :
  threshold (failures ts cb) = threshold cb /\ window (failures ts cb) = window cb /\
  resetTimeout (failures ts cb) = resetTimeout cb /\
  lastFailure (failures ts cb) = List.last ts (lastFailure cb).
Proof.
  revert cb. induction ts as [|t ts IH]; intros cb; [done|].
  cbn [failures foldl]. fold (failures ts (RecordFailure t cb)).
  destruct (IH (RecordFailure t cb)) as (-> & -> & -> & ->). split_and!; [done..|].
  change (lastFailure (RecordFailure t cb)) with t. destruct ts as [|t' ts]; [done|].
  change (List.last (t :: t' :: ts) (lastFailure cb)) with (List.last (t' :: ts) (lastFailure cb)).
  apply last_indep.
Qed.

(** A closed breaker opens at the failure that makes [threshold] of them in a
    row, each within the window of the one before, and not sooner; once open it
    refuses everything until [resetTimeout] has passed since the last failure,
    then lets a probe through, and a failed probe within the window opens it
    again. *)
Theorem breaker_opens_and_recovers th w rt ts t0 now :
  0 < th -> 0 <= w < int64_max -> 0 <= rt < int64_max -> burst w t0 ts ->
  let last := List.last ts t0 in
  let cb := failures (t0 :: ts) (NewBreaker th w rt) in
  (state cb = StateOpen <-> th <= 1 + Z.of_nat (length ts)) /\
  (state cb = StateOpen ->
   (now - last <= rt -> Allow now cb = (cb, false)) /\
   (rt < now - last ->
    let '(cb', ok) := Allow now cb in
    ok = true /\ state cb' = StateHalfOpen /\ state (RecordSuccess cb') = StateClosed /\
    (now - last <= w -> state (RecordFailure now cb') = StateOpen))).
Proof.
  intros Hth Hw Hrt Hb last cb.
  set (cb1 := set_state 1 t0 (if th <=? 1 then StateOpen else StateClosed) (NewBreaker th w rt)).
  assert (cb = failures ts cb1) as Hcb.
  { unfold cb. cbn [failures foldl]. fold (failures ts (RecordFailure t0 (NewBreaker th w rt))). f_equal.
    unfold RecordFailure, cb1. cbn. by case_match. }
  clearbody cb.
  destruct (failures_count cb1 ts Hw Hb) as [Hc Hs].
  destruct (failures_params ts cb1) as (Hpt & Hpw & Hpr & Hpl).
  rewrite <- Hcb in Hc, Hs, Hpt, Hpw, Hpr, Hpl. cbn in Hc, Hs, Hpt, Hpw, Hpr, Hpl.
  fold last in Hpl. clearbody last.
  assert (state cb = StateOpen <-> th <= 1 + Z.of_nat (length ts)) as Hopen.
  { rewrite Hs. destruct (Z.leb_spec th 1); [split; [lia|auto]|].
    destruct ts; cbn; [|naive_solver lia]. split; [naive_solver|lia]. }
  split; [done|]. intros Ho. unfold Allow. rewrite Ho, Hpr, Hpl.
  assert (forall d, 0 <= d < int64_max -> (d <? t_sub now last) = (d <? now - last)) as Hsub.
  { intros d Hd. unfold t_sub, sat64, int64_min, int64_max in *. lia. }
  rewrite Hsub by done. split.
  - intros Hle. by rewrite (proj2 (Z.ltb_ge _ _)) by lia.
  - intros Hgt. rewrite (proj2 (Z.ltb_lt _ _)) by lia. split_and!; [done..|].
    intros Hle. unfold RecordFailure. cbn. rewrite Hpw, Hsub, (proj2 (Z.ltb_ge _ _)) by (done || lia).
    rewrite Hpt, (proj2 (Z.leb_le _ _)); [done|]. apply Hopen in Ho. lia.
Qed.

Lemma breaker_opens_and_recovers_witness :
  let cb := failures [100; 101; 103] (NewBreaker 3 5 10) in
  state cb = StateOpen /\ Allow 112 cb = (cb, false) /\ (Allow 114 cb).2 = true.
Proof.
  intros cb.
  assert (forall now, (state cb = StateOpen <-> 3 <= 1 + Z.of_nat 2) /\
    (state cb = StateOpen ->
     (now - 103 <= 10 -> Allow now cb = (cb, false)) /\
     (10 < now - 103 -> let '(cb', ok) := Allow now cb in
      ok = true /\ state cb' = StateHalfOpen /\ state (RecordSuccess cb') = StateClosed /\
      (now - 103 <= 5 -> state (RecordFailure now cb') = StateOpen)))) as H.
  { intros now. apply (breaker_opens_and_recovers 3 5 10 [101; 103] 100 now);
      unfold int64_max; cbn; lia. }
  destruct (H 112) as [Ho H1]. specialize (H1 (proj2 Ho ltac:(lia))). destruct (H 114) as [_ H2].
  specialize (H2 (proj2 Ho ltac:(lia))). split_and!; [apply Ho; lia|apply H1; lia|].
  destruct H2 as [_ H2]. specialize (H2 ltac:(lia)). by destruct (Allow 114 cb) as [? []]; destruct H2.
Defined.

End Breaker.

(** ** Tenant budgets ([budget/manager.go]) *)
Module Budget.

(** [BurstAllowance], a float nothing reads, is left out. *)
Record TenantBudget := {
  TenantID : string;
  MaxConcurrentWorkers : Z;
  MaxMutationsPerRun : Z;
  MaxRollbacksPerHour : Z;
}.

Record Manager := {
  budgets : gmap string TenantBudget;
  active : gmap string Z;
}.

Definition NewManager : Manager := {| budgets := ∅; active := ∅ |}.

Definition RegisterTenant (b : TenantBudget) (m : Manager) : Manager :=
  {| budgets := <[TenantID b := b]> (budgets m); active := active m |}.

Definition active_of (t : string) (m : Manager) : Z := default 0 (active m !! t).
Definition set_active (t : string) (n : Z) (m : Manager) : Manager :=
  {| budgets := budgets m; active := <[t := n]> (active m) |}.

Definition GetBudget (tenantID : string) (m : Manager) : TenantBudget :=
  default {| TenantID := tenantID; MaxConcurrentWorkers := 1; MaxMutationsPerRun := 0;
             MaxRollbacksPerHour := 0 |} (budgets m !! tenantID).

Definition Acquire (tenantID : string) (m : Manager) : Manager * bool :=
  if MaxConcurrentWorkers (GetBudget tenantID m) <=? active_of tenantID m then (m, false)
  else (set_active tenantID (active_of tenantID m + 1) m, true).

Definition Release (tenantID : string) (m : Manager) : Manager :=
  set_active tenantID (active_of tenantID m - 1) m.

Definition GetActiveCounts (m : Manager) : gmap string Z := active m.

Lemma active_of_set t n t' m :
  active_of t' (set_active t n m) = if bool_decide (t = t') then n else active_of t' m.
Proof.
  unfold active_of, set_active. cbn. case_bool_decide as Ht.
  - subst. by rewrite lookup_insert_eq.
  - by rewrite lookup_insert_ne.
Qed.

End Budget.

(** ** Worker pool ([pool.go]) *)
Module Pool.
Import Scope StateMachine Budget.

(** What a worker goroutine is doing, between the statements of its loop that
    other goroutines see: it waits for a task; it received one; it is counted
    as active and runs it; the task has returned and its error was sent; it is
    no longer counted; the channel was closed and it returned. *)
Inductive goroutine :=
| Receiving
| Received (c : RuntimeContext)
| Running (c : RuntimeContext)
| Returned (c : RuntimeContext)
| Releasing (c : RuntimeContext)
| Exited.

(** [submitting] are the callers of [Submit] in its select: they hold a slot
    and block as long as the channel is full. *)
Record Pool := {
  workers : nat;
  p_active : Z;
  budget : Manager;
  submitting : list RuntimeContext;
  queued : list RuntimeContext;
  closed : bool;
  goroutines : list goroutine;
}.

(** [New] and [start]. *)
Definition NewPool (n : nat) (b : Manager) : Pool :=
  {| workers := n; p_active := 0; budget := b; submitting := []; queued := []; closed := false;
     goroutines := replicate n Receiving |}.

Definition tenant (c : RuntimeContext) : string := Tenant (rt_Scope c).

Definition set_submit (b : Manager) (ws qs : list RuntimeContext) (p : Pool) : Pool :=
  {| workers := workers p; p_active := p_active p; budget := b; submitting := ws; queued := qs;
     closed := closed p; goroutines := goroutines p |}.
Definition set_worker (i : nat) (w : goroutine) (n : Z) (b : Manager) (qs : list RuntimeContext) (p : Pool) : Pool :=
  {| workers := workers p; p_active := n; budget := b; submitting := submitting p; queued := qs;
     closed := closed p; goroutines := <[i := w]> (goroutines p) |}.

(** [Submit] up to its select; without a slot it returns at once. *)
Definition Submit (c : RuntimeContext) (p : Pool) : Pool :=
  let '(b, ok) := Acquire (tenant c) (budget p) in
  set_submit b (if ok then submitting p ++ [c] else submitting p) (queued p) p.

(** The select of the [i]-th caller takes its cancelled context. *)
Definition submit_cancelled (i : nat) (p : Pool) : option Pool :=
  c ← submitting p !! i;
  Some (set_submit (Release (tenant c) (budget p)) (delete i (submitting p)) (queued p) p).

(** The select of the [i]-th caller sends; the channel has room for [workers]
    tasks.  A send on the closed channel panics, which ends the process. *)
Definition submit_sent (i : nat) (p : Pool) : option Pool :=
  c ← submitting p !! i;
  if negb (closed p) && (length (queued p) <? workers p)%nat
  then Some (set_submit (budget p) (delete i (submitting p)) (queued p ++ [c]) p) else None.

(** The [i]-th worker: [range p.tasks]; [p.active++]; [t.fn(t.ctx)] and
    [t.done <- err], whose buffer has room; [p.active--]; the release. *)
Definition worker_take (i : nat) (p : Pool) : option Pool :=
  match goroutines p !! i, queued p with
  | Some Receiving, c :: q => Some (set_worker i (Received c) (p_active p) (budget p) q p)
  | _, _ => None
  end.
Definition worker_start (i : nat) (p : Pool) : option Pool :=
  match goroutines p !! i with
  | Some (Received c) => Some (set_worker i (Running c) (p_active p + 1) (budget p) (queued p) p)
  | _ => None
  end.
Definition worker_return (i : nat) (p : Pool) : option Pool :=
  match goroutines p !! i with
  | Some (Running c) => Some (set_worker i (Returned c) (p_active p) (budget p) (queued p) p)
  | _ => None
  end.
Definition worker_stop (i : nat) (p : Pool) : option Pool :=
  match goroutines p !! i with
  | Some (Returned c) => Some (set_worker i (Releasing c) (p_active p - 1) (budget p) (queued p) p)
  | _ => None
  end.
Definition worker_release (i : nat) (p : Pool) : option Pool :=
  match goroutines p !! i with
  | Some (Releasing c) =>
      Some (set_worker i Receiving (p_active p) (Release (tenant c) (budget p)) (queued p) p)
  | _ => None
  end.
Definition worker_exit (i : nat) (p : Pool) : option Pool :=
  match goroutines p !! i, queued p, closed p with
  | Some Receiving, [], true => Some (set_worker i Exited (p_active p) (budget p) [] p)
  | _, _, _ => None
  end.

(** [Close], which then waits until every worker has returned. *)
Definition Close (p : Pool) : Pool :=
  {| workers := workers p; p_active := p_active p; budget := budget p; submitting := submitting p;
     queued := queued p; closed := true; goroutines := goroutines p |}.

Record PoolStatus := { TotalWorkers : Z; ActiveWorkers : Z }.
Definition Status (p : Pool) : PoolStatus :=
  {| TotalWorkers := Z.of_nat (workers p); ActiveWorkers := p_active p |}.

(** Goroutines interleave in any order. *)
Inductive pool_step : Pool -> Pool -> Prop :=
| step_submit c p : pool_step p (Submit c p)
| step_cancelled i p p' : submit_cancelled i p = Some p' -> pool_step p p'
| step_sent i p p' : submit_sent i p = Some p' -> pool_step p p'
| step_take i p p' : worker_take i p = Some p' -> pool_step p p'
| step_start i p p' : worker_start i p = Some p' -> pool_step p p'
| step_return i p p' : worker_return i p = Some p' -> pool_step p p'
| step_stop i p p' : worker_stop i p = Some p' -> pool_step p p'
| step_release i p p' : worker_release i p = Some p' -> pool_step p p'
| step_exit i p p' : worker_exit i p = Some p' -> pool_step p p'
| step_close p : pool_step p (Close p).

(** ** Who holds a slot, and who is counted as active *)
Definition of_tenant (t : string) (c : RuntimeContext) : Z := if bool_decide (tenant c = t) then 1 else 0.
Definition slot (t : string) (w : goroutine) : Z :=
  match w with
  | Received c | Running c | Returned c | Releasing c => of_tenant t c
  | Receiving | Exited => 0
  end.
Definition counted (w : goroutine) : Z :=
  match w with Running _ | Returned _ => 1 | _ => 0 end.

Fixpoint zsum {A} (f : A -> Z) (l : list A) : Z :=
  match l with [] => 0 | x :: l => f x + zsum f l end.

(** The slots of a tenant that are in use: by callers that wait for the
    channel, by tasks in it, and by workers until they have released them. *)
Definition slots (t : string) (p : Pool) : Z :=
  zsum (of_tenant t) (submitting p) + zsum (of_tenant t) (queued p) + zsum (slot t) (goroutines p).

Lemma zsum_app {A} (f : A -> Z) l1 l2 : zsum f (l1 ++ l2) = zsum f l1 + zsum f l2.
Proof. induction l1; cbn in *; lia. Qed.

Lemma zsum_delete {A} (f : A -> Z) l i x : l !! i = Some x -> zsum f (delete i l) = zsum f l - f x.
Proof.
  revert i. induction l as [|y l IH]; intros [|i] Hi; cbn in Hi; simplify_eq; [cbn; lia|].
  change (delete (S i) (y :: l)) with (y :: delete i l). cbn. rewrite (IH i Hi). lia.
Qed.

Lemma zsum_insert {A} (f : A -> Z) l i x y : l !! i = Some x ->
  zsum f (<[i := y]> l) = zsum f l - f x + f y.
Proof.
  revert i. induction l as [|z l IH]; intros [|i] Hi; cbn in Hi; simplify_eq; [cbn; lia|].
  change (<[S i := y]> (z :: l)) with (z :: <[i := y]> l). cbn. rewrite (IH i Hi). lia.
Qed.

Lemma zsum_replicate {A} (f : A -> Z) n x : f x = 0 -> zsum f (replicate n x) = 0.
Proof. intros Hx. induction n; cbn in *; lia. Qed.

Lemma counted_bounds l : 0 <= zsum counted l <= Z.of_nat (length l).
Proof.
  induction l as [|w l IH]; cbn [zsum length]; [done|].
  assert (0 <= counted w <= 1) by (destruct w; cbn; lia). lia.
Qed.

Record pool_ok (n : nat) (b0 : gmap string TenantBudget) (p : Pool) : Prop := {
  pool_budgets : budgets (budget p) = b0;
  pool_slots : forall t, active_of t (budget p) = slots t p;
  pool_max : forall t, slots t p <= Z.max 0 (MaxConcurrentWorkers (GetBudget t (budget p)));
  pool_active : p_active p = zsum counted (goroutines p);
  pool_size : length (goroutines p) = n /\ workers p = n;
}.

Lemma GetBudget_ext t m m' : budgets m = budgets m' -> GetBudget t m = GetBudget t m'.
Proof. unfold GetBudget. by intros ->. Qed.

Lemma of_tenant_nonneg t c : 0 <= of_tenant t c.
Proof. unfold of_tenant. case_bool_decide; lia. Qed.

Lemma active_of_Release t c m : active_of t (Release (tenant c) m) = active_of t m - of_tenant t c.
Proof. unfold Release, of_tenant. rewrite active_of_set. case_bool_decide; subst; lia. Qed.

Lemma Acquire_slot_cases c m m' ok : Acquire (tenant c) m = (m', ok) ->
  (ok = false /\ m' = m) \/
  (ok = true /\ budgets m' = budgets m /\ active_of (tenant c) m < MaxConcurrentWorkers (GetBudget (tenant c) m) /\
   forall t, active_of t m' = active_of t m + of_tenant t c).
Proof.
  unfold Acquire. destruct (Z.leb_spec (MaxConcurrentWorkers (GetBudget (tenant c) m)) (active_of (tenant c) m));
    intros [= <- <-]; [by left|right]. split_and!; [done..|]. intros t. rewrite active_of_set. unfold of_tenant.
  case_bool_decide; subst; lia.
Qed.

(** A step keeps the invariant when the counter and the slots change by the
    same amount, downwards. *)
Lemma pool_ok_change n b0 p p' (d : string -> Z) :
  pool_ok n b0 p -> budgets (budget p') = budgets (budget p) -> (forall t, 0 <= d t) ->
  (forall t, active_of t (budget p') = active_of t (budget p) - d t) ->
  (forall t, slots t p' = slots t p - d t) ->
  p_active p' - p_active p = zsum counted (goroutines p') - zsum counted (goroutines p) ->
  length (goroutines p') = length (goroutines p) -> workers p' = workers p -> pool_ok n b0 p'.
Proof.
  intros [Hb Hs Hm Ha [Hl Hw]] Eb Hd Ed Es Ea El Ew. split; [congruence|..|lia|split; congruence].
  - intros t. rewrite Ed, Es, Hs. done.
  - intros t. rewrite (GetBudget_ext t _ (budget p)) by done. specialize (Hm t). specialize (Hd t). rewrite Es. lia.
Qed.

(** A step of a worker: the task it holds and whether it is counted. *)
Lemma worker_step_ok n b0 p i w w' k b qs (d : string -> Z) :
  pool_ok n b0 p -> goroutines p !! i = Some w -> budgets b = budgets (budget p) -> (forall t, 0 <= d t) ->
  (forall t, active_of t b = active_of t (budget p) - d t) ->
  (forall t, zsum (of_tenant t) qs + slot t w' = zsum (of_tenant t) (queued p) + slot t w - d t) ->
  k - p_active p = counted w' - counted w -> pool_ok n b0 (set_worker i w' k b qs p).
Proof.
  intros Hp Hi Hb Hd Ha Hq Hk. apply (pool_ok_change n b0 p _ d); cbn; auto.
  - intros t. unfold slots. cbn. rewrite (zsum_insert _ _ _ _ _ Hi). specialize (Hq t). lia.
  - rewrite (zsum_insert _ _ _ _ _ Hi). lia.
  - apply length_insert.
Qed.

Lemma submit_ok n b0 c p : pool_ok n b0 p -> pool_ok n b0 (Submit c p).
Proof.
  intros Hp. unfold Submit. destruct (Acquire _ _) as [b ok] eqn:Ea.
  apply Acquire_slot_cases in Ea as [[-> ->]|(-> & Hb & Hlt & Ha)].
  { apply (pool_ok_change n b0 p _ (fun _ => 0)); cbn; auto with lia. intros t. unfold slots. cbn. lia. }
  destruct Hp as [Hb0 Hs Hm Hact Hl].
  assert (Es : forall t, slots t (set_submit b (submitting p ++ [c]) (queued p) p) = slots t p + of_tenant t c).
  { intros t. unfold slots. cbn [set_submit submitting queued goroutines]. rewrite zsum_app. cbn. lia. }
  split; cbn; [congruence|..|done|done]; intros t; rewrite Es; [rewrite Ha, Hs; done|].
  rewrite (GetBudget_ext t _ (budget p)) by done. specialize (Hm t). rewrite Hs in Hlt.
  unfold of_tenant. case_bool_decide; subst; lia.
Qed.

Lemma pool_step_ok n b0 p p' : pool_step p p' -> pool_ok n b0 p -> pool_ok n b0 p'.
Proof.
  intros Hst Hp. destruct Hst as [c p|i p p' Hs|i p p' Hs|i p p' Hs|i p p' Hs|i p p' Hs|i p p' Hs|i p p' Hs|i p p' Hs|p].
  - by apply submit_ok.
  - unfold submit_cancelled in Hs. destruct (submitting p !! i) as [c|] eqn:Ei; [|done]. injection Hs as <-.
    apply (pool_ok_change n b0 p _ (fun t => of_tenant t c)); cbn; auto using of_tenant_nonneg, active_of_Release with lia.
    intros t. unfold slots. cbn. rewrite (zsum_delete _ _ _ _ Ei). lia.
  - unfold submit_sent in Hs. destruct (submitting p !! i) as [c|] eqn:Ei; [|done]. cbn in Hs. case_match; [|done].
    injection Hs as <-. apply (pool_ok_change n b0 p _ (fun _ => 0)); cbn; auto with lia.
    intros t. unfold slots. cbn. rewrite (zsum_delete _ _ _ _ Ei), zsum_app. cbn. lia.
  - unfold worker_take in Hs. destruct (goroutines p !! i) as [[|?|?|?|?|]|] eqn:Ei, (queued p) as [|c' q] eqn:Eq; try done. injection Hs as <-.
    eapply (worker_step_ok n b0 p i _ _ _ _ _ (fun _ => 0)); eauto with lia; cbn; [|lia].
    intros t. rewrite Eq. cbn. lia.
  - unfold worker_start in Hs. destruct (goroutines p !! i) as [[|c|c|c|c|]|] eqn:Ei; try done. injection Hs as <-.
    eapply (worker_step_ok n b0 p i _ _ _ _ _ (fun _ => 0)); eauto with lia; cbn; lia.
  - unfold worker_return in Hs. destruct (goroutines p !! i) as [[|c|c|c|c|]|] eqn:Ei; try done. injection Hs as <-.
    eapply (worker_step_ok n b0 p i _ _ _ _ _ (fun _ => 0)); eauto with lia; cbn; lia.
  - unfold worker_stop in Hs. destruct (goroutines p !! i) as [[|c|c|c|c|]|] eqn:Ei; try done. injection Hs as <-.
    eapply (worker_step_ok n b0 p i _ _ _ _ _ (fun _ => 0)); eauto with lia; cbn; lia.
  - unfold worker_release in Hs. destruct (goroutines p !! i) as [[|c|c|c|c|]|] eqn:Ei; try done. injection Hs as <-.
    eapply (worker_step_ok n b0 p i _ _ _ _ _ (fun t => of_tenant t c)); eauto using of_tenant_nonneg, active_of_Release;
      cbn; lia.
  - unfold worker_exit in Hs. destruct (goroutines p !! i) as [[|?|?|?|?|]|] eqn:Ei, (queued p) as [|c' q] eqn:Eq, (closed p); try done. injection Hs as <-.
    eapply (worker_step_ok n b0 p i _ _ _ _ _ (fun _ => 0)); eauto with lia; cbn; [|lia].
    intros t. rewrite Eq. cbn. lia.
  - apply (pool_ok_change n b0 p _ (fun _ => 0)); cbn; auto with lia. intros t. unfold slots. cbn. lia.
Qed.

Lemma NewPool_ok n b : active b = ∅ -> pool_ok n (budgets b) (NewPool n b).
Proof.
  intros Ha. assert (Hs : forall t, slots t (NewPool n b) = 0).
  { intros t. unfold slots. cbn. by rewrite zsum_replicate. }
  split; cbn; [done|..|by rewrite zsum_replicate|by rewrite length_replicate]; intros t; rewrite Hs; [|lia].
  unfold active_of. by rewrite Ha, lookup_empty.
Qed.

(** C38: From a new pool whose manager has its tenants registered and no slot in
    use, however the callers of [Submit], their cancellations, the workers and
    [Close] interleave: the counter of a tenant is the number of slots in use,
    by callers that wait for room in the channel, by tasks in it and by workers
    that have not yet released theirs, so that no slot is lost or given back
    twice; it never exceeds the budget of the tenant (one without a budget);
    and the [ActiveWorkers] of the status are the workers between their two
    updates of the counter, never more than the workers. *)
Theorem pool_within_budget n b p t :
  active b = ∅ -> rtc pool_step (NewPool n b) p ->
  active_of t (budget p) = slots t p /\
  slots t p <= Z.max 0 (MaxConcurrentWorkers (GetBudget t b)) /\
  ActiveWorkers (Status p) = zsum counted (goroutines p) /\
  0 <= ActiveWorkers (Status p) <= TotalWorkers (Status p) /\ TotalWorkers (Status p) = Z.of_nat n.
Proof.
  intros Ha Hrt. assert (Hok : pool_ok n (budgets b) p).
  { revert Hrt. apply (rtc_ind_r (pool_ok n (budgets b))); [by apply NewPool_ok|]. eauto using pool_step_ok. }
  destruct Hok as [Hb Hs Hm Hact [Hl Hw]]. pose proof (counted_bounds (goroutines p)). cbn.
  rewrite (GetBudget_ext t b (budget p)) by done. rewrite Hact. split_and!; auto; lia.
Qed.

(** One worker and a tenant with three slots: the worker runs a task, the next
    is in the channel, and the caller of the third blocks with its slot taken,
    so that a fourth call is refused. *)
Definition three_slots : Manager :=
  RegisterTenant {| TenantID := ""; MaxConcurrentWorkers := 3; MaxMutationsPerRun := 0; MaxRollbacksPerHour := 0 |}
    NewManager.
Definition blocked_pool : option Pool :=
  let c := plain_context in
  p ← submit_sent 0 (Submit c (NewPool 1 three_slots)); p ← worker_take 0 p; p ← worker_start 0 p;
  p ← submit_sent 0 (Submit c p); Some (Submit c p).

Lemma pool_within_budget_witness : exists p, blocked_pool = Some p /\
  slots "" p = 3 /\ submit_sent 0 p = None /\ Submit plain_context p = p /\
  slots "" p <= 3 /\ ActiveWorkers (Status p) = 1.
Proof.
  destruct blocked_pool as [p|] eqn:E; [|by vm_compute in E]. exists p.
  destruct (pool_within_budget 1 three_slots p "") as (_ & H & Ha & _).
  - done.
  - eapply rtc_l; [apply (step_submit plain_context)|]. eapply rtc_l; [by apply (step_sent 0)|].
    eapply rtc_l; [by apply (step_take 0)|]. eapply rtc_l; [by apply (step_start 0)|].
    eapply rtc_l; [apply (step_submit plain_context)|]. eapply rtc_l; [by apply (step_sent 0)|].
    eapply rtc_l; [apply (step_submit plain_context)|]. vm_compute in E. injection E as <-. apply rtc_refl.
  - rewrite Ha. vm_compute in E. injection E as <-. by vm_compute.
Defined.

End Pool.

(** ** Scheduler ([scheduler.go]) *)
Module Scheduler.
Import Models StateStore Scope StateMachine.

Record WorkItem := {
  wi_Scope : RuntimeScope;
  wi_Priority : Z;
  wi_Type : string;
}.

Definition PriorityNormal : Z := 0.

Definition scopeForID (zoneID scopeID : string) : RuntimeScope :=
  if bool_decide (scopeID = "") then
    {| Tenant := "default"; AccountID := ""; ZoneID := zoneID; Environment := "prod" |}
  else
    {| Tenant := "default"; AccountID := scopeID; ZoneID := zoneID; Environment := "prod" |}.

(** The items one beat of the ticker pushes. *)
Definition beat (zoneID : string) (s : StateStore) : list WorkItem :=
  let scopes := match ListScopes s with [] => [zoneID] | l => l end in
  (fun id => {| wi_Scope := scopeForID zoneID id; wi_Priority := PriorityNormal;
                wi_Type := "reconcile" |}) <$> scopes.

Section scheduler.
Context {B C : Type} `{!EventBus B} `{!CheckpointManager C}.
Abbreviation Machine := (StateMachine B C).

(** The context [tick] submits to the pool, if it submits one. *)
Definition tick (now : Z) (item : WorkItem) (m : Machine) : option RuntimeContext :=
  let cur := LoadForScope (ID (wi_Scope item)) (sm_store m) in
  let status := current_status cur in
  if negb (bool_decide (status ∈ [StatusIdle; StatusConverged; StatusFailed])) then None
  else if 0 <? Cooldown.Remaining now (sm_store m) then None
  else Some {| rt_Scope := wi_Scope item; rt_LeaseID := ""; rt_EpochID := "";
               rt_FencingToken := e_Generation (CurrentEpoch cur); rt_TraceID := "" |}.

(** The task a worker runs; [t1], [t2] are the times of the two transitions. *)
Definition executeRun (t1 t2 : Z) (ctx : RuntimeContext) (m : Machine) : Machine * result unit :=
  let '(m, r) := Transition t1 t1 ctx StatusDiscovering "autonomous run" m in
  match r with
  | Err e => (m, Err e)
  | Ok _ => let '(m, _) := Transition t2 t2 ctx StatusIdle "run completed" m in (m, Ok tt)
  end.

Definition recoverStaleState (now : Z) (ctx : RuntimeContext) (m : Machine) : Machine * result unit :=
  let status := lc_Status (Lifecycle (Load (sm_store m))) in
  if bool_decide (status ∈ [""; StatusIdle; StatusConverged; StatusFailed; StatusPaused;
                            StatusQuarantined])
  then (m, Ok tt)
  else Transition now now ctx StatusFailed "startup: stale state recovery" m.

(** The declared statuses. *)
Definition statuses : list string :=
  [StatusIdle; StatusDiscovering; StatusPlanning; StatusAwaitingApproval; StatusExecuting;
   StatusValidating; StatusConverged; StatusRollbackRequired; StatusRollingBack;
   StatusQuarantined; StatusFailed; StatusPaused].

(** A tick submits a run exactly when the scope is at rest and no cooldown is
    active. *)
Lemma tick_submits_iff now item m :
  is_Some (tick now item m) <->
  current_status (LoadForScope (ID (wi_Scope item)) (sm_store m)) ∈
    [StatusIdle; StatusConverged; StatusFailed] /\
  forall reason, Cooldown.IsActive now reason (sm_store m) = false.
Proof.
  unfold tick. case_bool_decide as Hs; cbn; [|split; [by intros []|naive_solver]].
  pose proof (Cooldown.Remaining_pos_iff now (sm_store m)) as Hr.
  destruct (Z.ltb_spec 0 (Cooldown.Remaining now (sm_store m))) as [Hp|Hp].
  - apply Hr in Hp as [reason Hp]. split; [by intros []|]. intros [_ Hn]. by rewrite Hn in Hp.
  - split; [|by eexists]. intros _. split; [done|]. intros reason.
    apply not_true_iff_false. intros Ht. apply Z.le_ngt in Hp. apply Hp, Hr. eauto.
Qed.

Lemma LoadForScope_none id s : scoped_docs s !! id = None -> LoadForScope id s = Load s.
Proof. intros Hn. unfold LoadForScope. rewrite Hn. by case_bool_decide. Qed.

Lemma ApplyLifecycleTransition_cooldowns s i :
  Cooldowns (Reducer.ApplyLifecycleTransition s i) = Cooldowns s.
Proof. unfold Reducer.ApplyLifecycleTransition. by repeat case_match. Qed.

(** An allowed transition on a working disk. *)
Lemma Transition_moves now pub ctx to reason (m : Machine) :
  isTransitionAllowed (status_of m) to = true -> disk_error (sm_store m) = None -> to <> "" ->
  let m' := (Transition now pub ctx to reason m).1 in
  status_of m' = to /\ disk_error (sm_store m') = None /\ scoped_docs (sm_store m') = scoped_docs (sm_store m) /\ 
  Cooldowns (Load (sm_store m')) = Cooldowns (Load (sm_store m)).
Proof.
  intros Ha Hd Hto. pose proof (Transition_store now pub ctx to reason m) as Ht.
  fold (status_of m) in Ht. destruct (Transition now pub ctx to reason m) as [m' r]. cbn [fst].
  destruct Ht as [(_ & _ & [Hf|Hf])|(_ & _ & Hs)]; [congruence..|].
  unfold status_of, current_status. rewrite Hs. cbn -[Reducer.ApplyLifecycleTransition].
  rewrite ApplyLifecycleTransition_status, ApplyLifecycleTransition_cooldowns. cbn.
  by rewrite bool_decide_false.
Qed.

(** At startup, a store left in any declared status by a crash is brought to a
    status from which ticks run again, or stays in a status an operator chose;
    this needs only a disk that takes the write. *)
Theorem recovery_unblocks now ctx (m : Machine) :
  status_of m ∈ statuses -> disk_error (sm_store m) = None ->
  let m' := (recoverStaleState now ctx m).1 in
  (status_of m' ∈ [StatusIdle; StatusConverged; StatusFailed] /\
   forall t item, scoped_docs (sm_store m) !! ID (wi_Scope item) = None ->
     (forall reason, Cooldown.IsActive t reason (sm_store m) = false) ->
     is_Some (tick t item m')) \/
  (status_of m ∈ [StatusPaused; StatusQuarantined] /\ m' = m).
Proof.
  intros Hst Hd m'.
  destruct (decide (status_of m ∈ [StatusPaused; StatusQuarantined])) as [Hop|Hop].
  { right. split; [done|]. unfold m', recoverStaleState. rewrite bool_decide_true; [done|].
    unfold status_of, current_status in Hop. case_bool_decide as He; [rewrite He; constructor|set_solver]. }
  left.
  assert (status_of m' ∈ [StatusIdle; StatusConverged; StatusFailed] /\
          scoped_docs (sm_store m') = scoped_docs (sm_store m) /\
          Cooldowns (Load (sm_store m')) = Cooldowns (Load (sm_store m))) as (Hs & Hdocs & Hcool).
  { unfold m', recoverStaleState. case_bool_decide as Hr; cbn [fst].
    - split; [|done]. unfold status_of, current_status in *. case_bool_decide; set_solver.
    - destruct (Transition_moves now now ctx StatusFailed "startup: stale state recovery" m)
        as (-> & _ & ? & ?); [|done..|split; [set_solver|done]].
      unfold status_of, current_status in *. revert Hst Hr. generalize (lc_Status (Lifecycle (Load (sm_store m)))).
      intros st Hst Hr. case_bool_decide as He; [set_solver|].
      assert (Forall (fun st => st ∈ [""; StatusIdle; StatusConverged; StatusFailed; StatusPaused;
                StatusQuarantined] \/ isTransitionAllowed st StatusFailed = true) statuses) as Hall
        by (apply (bool_decide_unpack _); by vm_compute).
      rewrite Forall_forall in Hall. by destruct (Hall st Hst). }
  split; [done|]. intros t item Hn Hact. apply tick_submits_iff. split.
  - rewrite LoadForScope_none by (by rewrite Hdocs). exact Hs.
  - intros reason. unfold Cooldown.IsActive. rewrite Hcool. apply Hact.
Qed.

(** Once a run has been executed, the stored status is [discovering]: the
    transition back to idle is not in the table and its error is dropped.  No
    later tick of a scope without a document of its own submits anything. *)
Theorem run_blocks_scheduler t1 t2 ctx (m : Machine) :
  status_of m ∈ [StatusIdle; StatusConverged; StatusFailed] ->
  disk_error (sm_store m) = None ->
  let m' := (executeRun t1 t2 ctx m).1 in
  status_of m' = StatusDiscovering /\
  forall now item, scoped_docs (sm_store m) !! ID (wi_Scope item) = None -> tick now item m' = None.
Proof.
  intros Hst Hd m'.
  assert (isTransitionAllowed (status_of m) StatusDiscovering = true) as Ha.
  { assert (Forall (fun st => isTransitionAllowed st StatusDiscovering = true)
              [StatusIdle; StatusConverged; StatusFailed]) as Hall
      by (apply (bool_decide_unpack _); by vm_compute).
    rewrite Forall_forall in Hall. by apply Hall. }
  destruct (Transition_moves t1 t1 ctx StatusDiscovering "autonomous run" m) as (Hs & _ & Hdocs & _);
    [done..|].
  assert (status_of m' = StatusDiscovering /\ scoped_docs (sm_store m') = scoped_docs (sm_store m))
    as [Hs' Hdocs'].
  { unfold m', executeRun.
    destruct (Transition t1 t1 ctx StatusDiscovering "autonomous run" m) as [m1 [[]|e]]; [|done].
    cbn [fst] in Hs, Hdocs.
    assert (Transition t2 t2 ctx StatusIdle "run completed" m1 =
            (m1, (Transition t2 t2 ctx StatusIdle "run completed" m1).2)) as ->; [|done].
    unfold Transition. fold (status_of m1). by rewrite Hs. }
  split; [done|]. intros now item Hn. unfold tick.
  rewrite LoadForScope_none by (by rewrite Hdocs'). fold (status_of m'). by rewrite Hs'.
Qed.

End scheduler.

Import EventLog.Bus.

Definition crashed : LoggedMachine :=
  (Transition 1 1 plain_context StatusDiscovering "starting dry-run" fresh_machine).1.

Lemma recovery_unblocks_witness :
  status_of crashed = StatusDiscovering /\
  status_of (recoverStaleState 2 plain_context crashed).1 ∈ [StatusIdle; StatusConverged; StatusFailed].
Proof.
  split; [by vm_compute|].
  destruct (recovery_unblocks 2 plain_context crashed) as [[H _]|[H _]].
  - apply (bool_decide_unpack _). by vm_compute.
  - by vm_compute.
  - exact H.
  - apply (bool_decide_pack _) in H. by vm_compute in H.
Defined.

Lemma run_blocks_scheduler_witness :
  let item := {| wi_Scope := scopeForID "zone" ""; wi_Priority := 0; wi_Type := "reconcile" |} in
  is_Some (tick 1 item fresh_machine) /\
  forall ctx now, tick now item (executeRun 1 2 ctx fresh_machine).1 = None.
Proof.
  intros item. split; [by vm_compute; eexists|]. intros ctx now.
  destruct (run_blocks_scheduler 1 2 ctx fresh_machine) as [_ H].
  - apply (bool_decide_unpack _). by vm_compute.
  - done.
  - apply H. apply lookup_empty.
Defined.

End Scheduler.
