(* ===== verification/GoHeap.v ===== *)
(** * Go's [container/heap]

    What the program uses of the package: [Push], [Pop], [Fix] and the loops
    [up] and [down], over any implementation of [heap.Interface].  The
    interface is a class of operations; its laws say that the operations act
    on an array whose elements [Less] compares by a weak order.  The fuel of
    the loops is the length of the array: [up] goes to a smaller index and
    [down] to a larger one in each round. *)

From S2P Require Import Prelude.

Local Open Scope nat_scope.

(** ** The interface *)
Class HeapInterface (S X : Type) := {
  h_Len : S -> nat;
  h_Less : nat -> nat -> S -> bool;
  h_Swap : nat -> nat -> S -> S;
  h_Push : X -> S -> S;
  h_Pop : S -> S * option X;
}.

Definition parent (j : nat) : nat := (j - 1) / 2.

Lemma parent_le j : parent j <= j.
Proof. unfold parent. pose proof (Nat.div_mod_eq (j - 1) 2). lia. Qed.

Section heap.
Context {S X : Type} `{!HeapInterface S X}.

Fixpoint up_loop (fuel j : nat) (s : S) : S :=
  match fuel with
  | O => s
  | Datatypes.S f =>
      let i := parent j in
      if bool_decide (i = j) || negb (h_Less j i s) then s
      else up_loop f i (h_Swap i j s)
  end.

Definition up (j : nat) (s : S) : S := up_loop (h_Len s) j s.

(** The child of [i] to compare with, among the first [n] elements. *)
Definition down_child (i n : nat) (s : S) : nat :=
  let j1 := 2 * i + 1 in
  if (j1 + 1 <? n) && h_Less (j1 + 1) j1 s then j1 + 1 else j1.

Fixpoint down_loop (fuel i n : nat) (s : S) : S * nat :=
  match fuel with
  | O => (s, i)
  | Datatypes.S f =>
      if n <=? 2 * i + 1 then (s, i)
      else
        let j := down_child i n s in
        if negb (h_Less j i s) then (s, i)
        else down_loop f j n (h_Swap i j s)
  end.

Definition down (i0 n : nat) (s : S) : S * bool :=
  let '(s, i) := down_loop n i0 n s in (s, i0 <? i).

Definition heap_Push (x : X) (s : S) : S :=
  let s := h_Push x s in up (h_Len s - 1) s.

Definition heap_Pop (s : S) : S * option X :=
  let n := h_Len s - 1 in
  let s := h_Swap 0 n s in
  let '(s, _) := down 0 n s in
  h_Pop s.

Definition heap_Fix (i : nat) (s : S) : S :=
  let '(s, moved) := down i (h_Len s) s in
  if moved then s else up i s.

(** What every exchange keeps, the loops keep. *)
Section preserved.
Context (I : S -> Prop) (n : nat).
Context (HI : forall i j s, I s -> i < n -> j < n -> I (h_Swap i j s)).

Lemma up_loop_keeps fuel j s : I s -> j < n -> I (up_loop fuel j s).
Proof.
  revert j s. induction fuel as [|f IH]; intros j s Hs Hj; cbn [up_loop]; [done|].
  destruct (_ || _); [done|].
  pose proof (parent_le j).
  apply IH; [apply HI|]; try done; lia.
Qed.

Lemma down_loop_keeps m fuel i s : I s -> i < n -> m <= n -> I (down_loop fuel i m s).1.
Proof.
  revert i s. induction fuel as [|f IH]; intros i s Hs Hi Hm; cbn [down_loop]; [done|].
  destruct (Nat.leb_spec m (2 * i + 1)); [done|]. destruct (negb _); [done|].
  assert (down_child i m s < n).
  { unfold down_child. destruct (Nat.ltb_spec (2 * i + 1 + 1) m); cbn [andb]; [|lia].
    destruct (h_Less _ _ _); lia. }
  apply IH; auto.
Qed.
End preserved.
End heap.

(** ** Laws and heap order *)
Class HeapLaws (S X A : Type) `{!Inhabited A} `{!HeapInterface S X} (le : relation A) := {
  h_view : S -> list A;
  h_ok : S -> Prop;
  h_le_trans : Transitive le;
  h_le_total : forall x y, le x y \/ le y x;
  h_len_view : forall s, h_Len s = length (h_view s);
  h_swap_ok : forall i j s, h_ok s -> i < h_Len s -> j < h_Len s -> h_ok (h_Swap i j s);
  h_swap_view : forall i j s, h_ok s -> i < h_Len s -> j < h_Len s ->
    h_view (h_Swap i j s) = <[i := h_view s !!! j]> (<[j := h_view s !!! i]> (h_view s));
  h_less_le : forall i j s, h_ok s -> i < h_Len s -> j < h_Len s ->
    (h_Less i j s = false <-> le (h_view s !!! j) (h_view s !!! i));
}.

Section order.
Context {A : Type} `{!Inhabited A} (le : relation A) `{!Transitive le}.

(** No child is before its parent, among the first [n] elements. *)
Definition heap_ordered (a : list A) (n : nat) : Prop :=
  forall c, 0 < c < n -> le (a !!! parent c) (a !!! c).

(** The edges that do not touch [i] are in order, and so are the children of
    [i] with its parent. *)
Definition weak_at (a : list A) (n i : nat) : Prop :=
  (forall c, 0 < c < n -> c <> i -> parent c <> i -> le (a !!! parent c) (a !!! c)) /\
  (forall c, 0 < c < n -> parent c = i -> 0 < i -> le (a !!! parent i) (a !!! c)).

Definition below_ok (a : list A) (n i : nat) : Prop :=
  forall c, 0 < c < n -> parent c = i -> le (a !!! i) (a !!! c).

Definition above_ok (a : list A) (i : nat) : Prop := 0 < i -> le (a !!! parent i) (a !!! i).

Lemma weak_ordered a n i :
  weak_at a n i -> below_ok a n i -> above_ok a i -> heap_ordered a n.
Proof.
  intros [H1 _] H2 H3 c Hc. destruct (decide (c = i)) as [->|]; [apply H3; lia|].
  destruct (decide (parent c = i)) as [<-|]; auto.
Qed.

Lemma ordered_weak a n i : heap_ordered a n -> i < n -> weak_at a n i.
Proof.
  intros H Hi. split; [auto|]. intros c Hc <- Hp.
  etransitivity; [apply H; lia|apply H; lia].
Qed.

Lemma parent_lt j : 0 < j -> parent j < j.
Proof. intros. pose proof (parent_le j). unfold parent in *. pose proof (Nat.div_mod_eq (j - 1) 2). lia. Qed.

Lemma parent_spec c i : 0 < c -> (parent c = i <-> c = 2 * i + 1 \/ c = 2 * i + 2).
Proof.
  intros Hc. unfold parent. pose proof (Nat.div_mod_eq (c - 1) 2).
  pose proof (Nat.mod_upper_bound (c - 1) 2). lia.
Qed.

(** The first element of a heap is before all the others. *)
Lemma heap_root a n c : Reflexive le -> heap_ordered a n -> c < n -> le (a !!! 0) (a !!! c).
Proof.
  intros Hr Ha. induction c as [c IH] using lt_wf_ind. intros Hc.
  destruct (decide (c = 0)) as [->|]; [done|].
  pose proof (parent_lt c ltac:(lia)). transitivity (a !!! parent c); [apply IH; lia|apply Ha; lia].
Qed.
End order.

(** ** The loops restore the order *)
Section correct.
Context {S X A : Type} `{!Inhabited A} `{!HeapInterface S X} {le : relation A} `{!HeapLaws S X A le}.

#[local] Instance le_trans_inst : Transitive le := h_le_trans.
Abbreviation view := (h_view (le := le)).
Abbreviation ok := (h_ok (le := le)).

#[local] Instance le_refl : Reflexive le.
Proof. intros x. by destruct (h_le_total x x). Qed.

Lemma less_before i j s : ok s -> i < h_Len s -> j < h_Len s ->
  h_Less i j s = true -> le (view s !!! i) (view s !!! j).
Proof.
  intros Hs Hi Hj H. destruct (h_le_total (view s !!! i) (view s !!! j)) as [?|Hle]; [done|].
  apply (h_less_le i j s) in Hle; congruence.
Qed.

Lemma swap_len i j s : ok s -> i < h_Len s -> j < h_Len s -> h_Len (h_Swap i j s) = h_Len s.
Proof. intros. by rewrite !(h_len_view (le := le)), h_swap_view, !length_insert. Qed.

(** An element after an exchange. *)
Lemma swap_at i j s k : ok s -> i < h_Len s -> j < h_Len s ->
  view (h_Swap i j s) !!! k =
  view s !!! (if decide (k = i) then j else if decide (k = j) then i else k).
Proof.
  intros Hs Hi Hj. rewrite h_swap_view by done. rewrite (h_len_view (le := le)) in Hi, Hj.
  destruct (decide (k = i)) as [->|].
  { by rewrite list_lookup_total_insert_eq by (rewrite length_insert; lia). }
  rewrite list_lookup_total_insert_ne by done.
  destruct (decide (k = j)) as [->|].
  - by rewrite list_lookup_total_insert_eq by lia.
  - by rewrite list_lookup_total_insert_ne.
Qed.

(** One round of [up]. *)
Lemma up_step n j s : ok s -> n <= h_Len s -> 0 < j < n ->
  weak_at le (view s) n j -> below_ok le (view s) n j ->
  le (view s !!! j) (view s !!! parent j) ->
  let s' := h_Swap (parent j) j s in
  weak_at le (view s') n (parent j) /\ below_ok le (view s') n (parent j).
Proof.
  intros Hs Hn Hj [W1 W2] B Hlt s'. pose proof (parent_lt j ltac:(lia)) as Hp.
  assert (Hat : forall k, view s' !!! k =
    view s !!! (if decide (k = parent j) then j else if decide (k = j) then parent j else k)).
  { intros k. apply swap_at; [done|lia|lia]. }
  repeat split.
  - intros c Hc Hne Hpc. pose proof (parent_lt c ltac:(lia)). rewrite !Hat.
    rewrite (decide_False (P := parent c = parent j)) by done.
    rewrite (decide_False (P := c = parent j)) by done.
    destruct (decide (c = j)) as [->|Hcj]; [done|].
    destruct (decide (parent c = j)) as [Hpj|].
    + apply W2; [lia|done|lia].
    + by apply W1.
  - intros c Hc Hpc Hpos. pose proof (parent_lt c ltac:(lia)).
    pose proof (parent_lt (parent j) ltac:(lia)). rewrite !Hat.
    rewrite (decide_False (P := parent (parent j) = parent j)) by lia.
    rewrite (decide_False (P := parent (parent j) = j)) by lia.
    rewrite (decide_False (P := c = parent j)) by lia.
    assert (le (view s !!! parent (parent j)) (view s !!! parent j)) by (apply W1; lia).
    destruct (decide (c = j)) as [->|]; [done|].
    etransitivity; [done|]. rewrite <- Hpc. apply W1; lia.
  - intros c Hc Hpc. pose proof (parent_lt c ltac:(lia)). rewrite !Hat.
    rewrite decide_True by done. rewrite (decide_False (P := c = parent j)) by lia.
    destruct (decide (c = j)) as [->|]; [done|].
    etransitivity; [done|]. rewrite <- Hpc. apply W1; lia.
Qed.

Lemma up_loop_ordered fuel n j s : ok s -> n <= h_Len s -> j < n -> j < fuel ->
  weak_at le (view s) n j -> below_ok le (view s) n j ->
  heap_ordered le (view (up_loop fuel j s)) n.
Proof.
  revert j s. induction fuel as [|f IH]; intros j s Hs Hn Hj Hf W B; [lia|]. cbn [up_loop].
  destruct (decide (j = 0)) as [->|Hj0].
  { rewrite bool_decide_true by done. apply (weak_ordered _ _ _ 0); [done..|]. intros ?. lia. }
  pose proof (parent_lt j ltac:(lia)). rewrite bool_decide_false by lia. cbn [orb].
  destruct (h_Less j (parent j) s) eqn:E; cbn [negb].
  - apply less_before in E; [|done|lia|lia].
    destruct (up_step n j s) as [W' B']; [done|lia|lia|done..|].
    apply IH; try done; try lia; [apply h_swap_ok; [done|lia|lia]|].
    rewrite swap_len by (done || lia). lia.
  - apply h_less_le in E; [|done|lia|lia]. apply (weak_ordered _ _ _ j); [done..|]. by intros _.
Qed.

(** One round of [down]. *)
Lemma down_child_spec i n s : ok s -> n <= h_Len s -> 2 * i + 1 < n ->
  let j := down_child i n s in
  j < n /\ parent j = i /\ 0 < j /\
  (forall c, 0 < c < n -> parent c = i -> le (view s !!! j) (view s !!! c)).
Proof.
  intros Hs Hn Hi. unfold down_child.
  assert (Hcase : forall c, 0 < c < n -> parent c = i -> c = 2 * i + 1 \/ c = 2 * i + 2).
  { intros c Hc. apply parent_spec. lia. }
  destruct (Nat.ltb_spec (2 * i + 1 + 1) n); cbn [andb].
  - destruct (h_Less (2 * i + 1 + 1) (2 * i + 1) s) eqn:E.
    + apply less_before in E; [|done|lia|lia]. rewrite parent_spec by lia.
      split_and!; [lia..|]. intros c Hc Hp. destruct (Hcase c Hc Hp) as [->| ->]; [done|].
      replace (2 * i + 1 + 1) with (2 * i + 2) by lia. done.
    + apply h_less_le in E; [|done|lia|lia]. rewrite parent_spec by lia.
      split_and!; [lia..|]. intros c Hc Hp. destruct (Hcase c Hc Hp) as [->| ->]; [done|].
      replace (2 * i + 2) with (2 * i + 1 + 1) by lia. done.
  - rewrite parent_spec by lia. split_and!; [lia..|].
    intros c Hc Hp. destruct (Hcase c Hc Hp) as [->| ->]; [done|lia].
Qed.

Lemma down_step n i s : ok s -> n <= h_Len s -> 2 * i + 1 < n -> weak_at le (view s) n i ->
  let j := down_child i n s in
  le (view s !!! j) (view s !!! i) ->
  weak_at le (view (h_Swap i j s)) n j /\ above_ok le (view (h_Swap i j s)) j.
Proof.
  intros Hs Hn Hi [W1 W2] j Hlt.
  destruct (down_child_spec i n s) as (Hj & Hpj & Hj0 & Hmin); [done|lia|lia|].
  fold j in Hj, Hpj, Hj0, Hmin. pose proof (parent_lt j ltac:(lia)).
  assert (Hat : forall k, view (h_Swap i j s) !!! k =
    view s !!! (if decide (k = i) then j else if decide (k = j) then i else k)).
  { intros k. apply swap_at; [done|lia|lia]. }
  split; [split|].
  - intros c Hc Hne Hpc. pose proof (parent_lt c ltac:(lia)). rewrite !Hat.
    rewrite (decide_False (P := c = j)), (decide_False (P := parent c = j)) by done.
    destruct (decide (parent c = i)) as [Hp|].
    + rewrite decide_False by lia. by apply Hmin.
    + destruct (decide (c = i)) as [->|]; [|by apply W1]. apply W2; [lia|done|lia].
  - intros c Hc Hpc _. pose proof (parent_lt c ltac:(lia)). rewrite !Hat, Hpj.
    rewrite decide_True by done. rewrite !decide_False by lia. rewrite <- Hpc. apply W1; lia.
  - intros _. rewrite !Hat, Hpj. rewrite decide_True by done.
    rewrite decide_False by lia. by rewrite decide_True.
Qed.

Lemma down_loop_spec fuel n i s : ok s -> n <= h_Len s -> i < n -> n - i <= fuel ->
  weak_at le (view s) n i -> above_ok le (view s) i ->
  i <= (down_loop fuel i n s).2 /\ heap_ordered le (view (down_loop fuel i n s).1) n.
Proof.
  revert i s. induction fuel as [|f IH]; intros i s Hs Hn Hi Hf W Ab; [lia|]. cbn [down_loop].
  destruct (Nat.leb_spec n (2 * i + 1)).
  { split; [done|]. apply (weak_ordered _ _ _ i); [done| |done].
    intros c Hc Hp. apply parent_spec in Hp; lia. }
  destruct (down_child_spec i n s) as (Hj & Hpj & Hj0 & Hmin); [done..|].
  pose proof (parent_lt (down_child i n s) ltac:(lia)).
  destruct (h_Less (down_child i n s) i s) eqn:E; cbn [negb].
  - apply less_before in E; [|done|lia|lia].
    destruct (down_step n i s) as [W' A']; [done..|].
    destruct (IH (down_child i n s) (h_Swap i (down_child i n s) s)) as [Hle Ho]; try done; try lia.
    + apply h_swap_ok; [done|lia|lia].
    + rewrite swap_len by (done || lia). lia.
    + split; [lia|done].
  - apply h_less_le in E; [|done|lia|lia]. split; [done|].
    apply (weak_ordered _ _ _ i); [done| |done].
    intros c Hc Hp. etransitivity; [done|]. by apply Hmin.
Qed.

(** [down] either leaves the array, whose element [i] is then before its
    children, or restores the order and reports that it moved. *)
Lemma down_spec n i s : ok s -> n <= h_Len s -> i < n -> weak_at le (view s) n i ->
  (down i n s = (s, false) /\ below_ok le (view s) n i) \/
  ((down i n s).2 = true /\ heap_ordered le (view (down i n s).1) n).
Proof.
  intros Hs Hn Hi W. unfold down. destruct n as [|n']; [lia|]. cbn [down_loop].
  set (n := Datatypes.S n') in *. destruct (Nat.leb_spec n (2 * i + 1)).
  { left. rewrite Nat.ltb_irrefl. split; [done|]. intros c Hc Hp. apply parent_spec in Hp; lia. }
  destruct (down_child_spec i n s) as (Hj & Hpj & Hj0 & Hmin); [done..|].
  pose proof (parent_lt (down_child i n s) ltac:(lia)).
  destruct (h_Less (down_child i n s) i s) eqn:E; cbn [negb].
  - right. apply less_before in E; [|done|lia|lia].
    destruct (down_step n i s) as [W' A']; [done..|].
    destruct (down_loop_spec n' n (down_child i n s) (h_Swap i (down_child i n s) s))
      as [Hle Ho]; try done; try lia.
    + apply h_swap_ok; [done|lia|lia].
    + rewrite swap_len by (done || lia). lia.
    + destruct (down_loop _ _ _ _) as [s2 i2]. cbn in *. split; [|done]. apply Nat.ltb_lt. lia.
  - left. rewrite Nat.ltb_irrefl. split; [done|]. apply h_less_le in E; [|done|lia|lia].
    intros c Hc Hp. etransitivity; [done|]. by apply Hmin.
Qed.

Lemma heap_Fix_ordered i s : ok s -> i < h_Len s -> weak_at le (view s) (h_Len s) i ->
  heap_ordered le (view (heap_Fix i s)) (h_Len s).
Proof.
  intros Hs Hi W. unfold heap_Fix.
  destruct (down_spec (h_Len s) i s) as [[-> B]|[Hm Ho]]; [done..| |].
  - by apply up_loop_ordered.
  - destruct (down _ _ _) as [s' moved]. cbn in *. by subst.
Qed.

(** After an element was appended. *)
Lemma up_last_ordered s : ok s -> 0 < h_Len s -> heap_ordered le (view s) (h_Len s - 1) ->
  heap_ordered le (view (up (h_Len s - 1) s)) (h_Len s).
Proof.
  intros Hs Hn Ho. set (n := h_Len s) in *.
  assert (Hp : forall c, 0 < c < n -> parent c < n - 1).
  { intros c Hc. pose proof (parent_lt c ltac:(lia)). lia. }
  apply up_loop_ordered; try done; try lia.
  - split.
    + intros c Hc Hne _. apply Ho. lia.
    + intros c Hc Hpc. specialize (Hp c Hc). lia.
  - intros c Hc Hpc. specialize (Hp c Hc). lia.
Qed.

(** After the first element was exchanged with the last. *)
Lemma pop_prefix_ordered s : ok s -> 0 < h_Len s -> heap_ordered le (view s) (h_Len s) ->
  let n := h_Len s - 1 in heap_ordered le (view (down 0 n (h_Swap 0 n s)).1) n.
Proof.
  intros Hs Hn Ho n. destruct (decide (n = 0)) as [E|Hn0].
  { rewrite E. intros c Hc. lia. }
  assert (W : weak_at le (view (h_Swap 0 n s)) n 0).
  { split; [|lia]. intros c Hc Hne Hpc. pose proof (parent_lt c ltac:(lia)).
    rewrite !swap_at by (done || lia). rewrite !decide_False by lia. apply Ho. lia. }
  destruct (down_spec n 0 (h_Swap 0 n s)) as [[-> B]|[_ ?]]; try done; try lia.
  - apply h_swap_ok; [done|lia|lia].
  - rewrite swap_len by (done || lia). lia.
  - apply (weak_ordered _ _ _ 0); [done..|]. intros ?. lia.
Qed.

Lemma heap_ordered_mono a b n :
  (forall k, k < n -> a !!! k = b !!! k) -> heap_ordered le a n -> heap_ordered le b n.
Proof.
  intros Hab Ha c Hc. pose proof (parent_lt c ltac:(lia)). rewrite <- !Hab by lia. by apply Ha.
Qed.
End correct.
