(* ===== verification/WorkQueue.v ===== *)
(** * The scheduler's work queue

    [internal/runtime/scheduler/queue/work_queue.go]: a bounded priority queue
    with one entry per scope and kind of work.  The entries are shared by the
    heap array and the map from keys, so they live in a store and both hold
    pointers; an entry knows its position in the array. *)

From S2P Require Import Prelude GoHeap RuntimeModels Lifecycle Scheduler.

Local Open Scope Z_scope.

Module WorkQueue.
Import Scope Scheduler.

Definition defaultMaxItems : Z := 1024.

Record workItemEntry := {
  we_key : string;
  we_item : WorkItem;
  we_index : nat;
}.

Definition zero_entry : workItemEntry :=
  {| we_key := ""; we_item := {| wi_Scope := zero_scope; wi_Priority := 0; wi_Type := "" |};
     we_index := 0 |}.

(** The entries in memory and the array of pointers to them. *)
Record workItemHeap := {
  cells : gmap nat workItemEntry;
  items : list nat;
}.

Definition deref (h : workItemHeap) (p : nat) : workItemEntry := default zero_entry (cells h !! p).

Definition at_ (h : workItemHeap) (i : nat) : workItemEntry := deref h (items h !!! i).

Definition set_index (i : nat) (e : workItemEntry) : workItemEntry :=
  {| we_key := we_key e; we_item := we_item e; we_index := i |}.

Definition Less (i j : nat) (h : workItemHeap) : bool :=
  if wi_Priority (we_item (at_ h i)) =? wi_Priority (we_item (at_ h j))
  then str_lt (we_key (at_ h i)) (we_key (at_ h j))
  else wi_Priority (we_item (at_ h j)) <? wi_Priority (we_item (at_ h i)).

Definition Swap (i j : nat) (h : workItemHeap) : workItemHeap :=
  let l := <[i := items h !!! j]> (<[j := items h !!! i]> (items h)) in
  {| items := l;
     cells := alter (set_index j) (l !!! j) (alter (set_index i) (l !!! i) (cells h)) |}.

Definition heapPush (p : nat) (h : workItemHeap) : workItemHeap :=
  {| items := items h ++ [p]; cells := alter (set_index (length (items h))) p (cells h) |}.

Definition heapPop (h : workItemHeap) : workItemHeap * option nat :=
  ({| items := take (length (items h) - 1) (items h); cells := cells h |},
   items h !! (length (items h) - 1)%nat).

#[export] Instance workItemHeap_interface : HeapInterface workItemHeap nat := {|
  h_Len h := length (items h);
  h_Less := Less;
  h_Swap := Swap;
  h_Push := heapPush;
  h_Pop := heapPop;
|}.

(** ** The queue *)
Record WorkQueue := {
  q_heap : workItemHeap;
  byKey : option (gmap string nat);
  maxItems : Z;
  next : nat;   (** the next address *)
}.

Definition NewWithCapacity (maxItems : Z) : WorkQueue :=
  {| q_heap := {| cells := ∅; items := [] |}; byKey := Some ∅;
     maxItems := if maxItems <=? 0 then defaultMaxItems else maxItems; next := 0 |}.

Definition New : WorkQueue := NewWithCapacity defaultMaxItems.

Definition workItemKey (i : WorkItem) : string := ID (wi_Scope i) +:+ "|" +:+ wi_Type i.

Definition keys (q : WorkQueue) : gmap string nat := default ∅ (byKey q).

(** The loop compares each entry with the lowest so far. *)
Definition lower_step (h : workItemHeap) (lowest p : nat) : nat :=
  let e := deref h p in let l := deref h lowest in
  if (wi_Priority (we_item e) <? wi_Priority (we_item l)) ||
     ((wi_Priority (we_item e) =? wi_Priority (we_item l)) && str_lt (we_key l) (we_key e))
  then p else lowest.

Definition lowestPriorityEntry (h : workItemHeap) : option nat :=
  match items h with
  | [] => None
  | p :: ps => Some (foldl (lower_step h) p ps)
  end.

Definition set_cell (p : nat) (e : workItemEntry) (h : workItemHeap) : workItemHeap :=
  {| cells := <[p := e]> (cells h); items := items h |}.

Definition Push (item : WorkItem) (q : WorkQueue) : WorkQueue :=
  let m := keys q in
  let key := workItemKey item in
  let h := q_heap q in
  match m !! key with
  | Some p =>
      let existing := deref h p in
      let h := if wi_Priority (we_item existing) <? wi_Priority item
               then heap_Fix (we_index existing)
                      (set_cell p {| we_key := we_key existing; we_item := item;
                                     we_index := we_index existing |} h)
               else h in
      {| q_heap := h; byKey := Some m; maxItems := maxItems q; next := next q |}
  | None =>
      if maxItems q <=? Z.of_nat (length (items h)) then
        match lowestPriorityEntry h with
        | None => {| q_heap := h; byKey := Some m; maxItems := maxItems q; next := next q |}
        | Some p =>
            let lowest := deref h p in
            if wi_Priority item <=? wi_Priority (we_item lowest)
            then {| q_heap := h; byKey := Some m; maxItems := maxItems q; next := next q |}
            else
              {| q_heap := heap_Fix (we_index lowest)
                   (set_cell p {| we_key := key; we_item := item; we_index := we_index lowest |} h);
                 byKey := Some (<[key := p]> (delete (we_key lowest) m));
                 maxItems := maxItems q; next := next q |}
        end
      else
        let p := next q in
        {| q_heap := heap_Push p (set_cell p {| we_key := key; we_item := item; we_index := 0 |} h);
           byKey := Some (<[key := p]> m); maxItems := maxItems q; next := S p |}
  end.

Definition Pop (q : WorkQueue) : WorkQueue * option WorkItem :=
  if bool_decide (length (items (q_heap q)) = 0%nat) then (q, None)
  else
    let '(h, p) := heap_Pop (q_heap q) in
    let entry := deref h (default 0%nat p) in
    ({| q_heap := h; byKey := delete (we_key entry) <$> byKey q;
        maxItems := maxItems q; next := next q |}, Some (we_item entry)).

Definition Len (q : WorkQueue) : nat := length (items (q_heap q)).

(** ** Order of service: higher priority first, then the smaller key *)
Definition rank : Type := Z * string.
Definition rank_lt (a b : rank) : bool := if a.1 =? b.1 then str_lt a.2 b.2 else b.1 <? a.1.
Definition rank_le (a b : rank) : Prop := rank_lt b a = false.
Definition rank_of (e : workItemEntry) : rank := (wi_Priority (we_item e), we_key e).

Lemma rank_le_total a b : rank_le a b \/ rank_le b a.
Proof.
  unfold rank_le, rank_lt. rewrite (Z.eqb_sym b.1).
  destruct (Z.eqb_spec a.1 b.1); [|lia].
  destruct (str_lt b.2 a.2) eqn:E; [right|by left].
  destruct (str_lt a.2 b.2) eqn:E'; [|done].
  pose proof (str_lt_trans _ _ _ E E') as H. by rewrite str_lt_irrefl in H.
Qed.

Lemma rank_le_antisym a b : rank_le a b -> rank_le b a -> a = b.
Proof.
  unfold rank_le, rank_lt. destruct a as [x s], b as [y t]. cbn. rewrite (Z.eqb_sym y).
  destruct (Z.eqb_spec x y) as [->|]; [|lia]. intros. f_equal. by apply str_lt_total.
Qed.

#[export] Instance rank_le_trans : Transitive rank_le.
Proof.
  unfold rank_le, rank_lt. intros [x s] [y t] [z u]. cbn.
  destruct (Z.eqb_spec y x), (Z.eqb_spec z y), (Z.eqb_spec z x); try lia.
  intros H1 H2. destruct (str_lt u s) eqn:E; [|done].
  destruct (str_lt s t) eqn:E1.
  - pose proof (str_lt_trans _ _ _ E E1). congruence.
  - assert (s = t) as -> by by apply str_lt_total. congruence.
Qed.

#[export] Instance rank_le_refl : Reflexive rank_le.
Proof. intros a. by destruct (rank_le_total a a). Qed.

Definition ranks (h : workItemHeap) : list rank := (fun p => rank_of (deref h p)) <$> items h.

Lemma ranks_at h i : (i < length (items h))%nat -> ranks h !!! i = rank_of (at_ h i).
Proof.
  intros. unfold ranks, at_. apply (list_lookup_total_fmap (fun p => rank_of (deref h p)) (items h) i).
  done.
Qed.

(** Positions do not matter to the rank, the key and the item. *)
Definition same_entry (e e' : workItemEntry) : Prop :=
  we_key e' = we_key e /\ we_item e' = we_item e.

Lemma deref_alter f h p p' l : (forall e, same_entry e (f e)) ->
  same_entry (deref h p') (deref {| cells := alter f p (cells h); items := l |} p').
Proof.
  intros Hf. unfold deref. cbn. destruct (decide (p = p')) as [->|].
  - rewrite lookup_alter. rewrite decide_True by done. destruct (cells h !! p'); cbn; [apply Hf|done].
  - by rewrite lookup_alter_ne.
Qed.

Lemma deref_swap i j h p : same_entry (deref h p) (deref (Swap i j h) p).
Proof.
  unfold Swap.
  set (h1 := {| cells := alter (set_index i) (<[i := items h !!! j]> (<[j := items h !!! i]> (items h)) !!! i)
                           (cells h); items := items h |}).
  assert (same_entry (deref h p) (deref h1 p)) as [E1 E2] by by apply deref_alter.
  assert (same_entry (deref h1 p) (deref (Swap i j h) p)) as [E3 E4] by by apply (deref_alter _ h1).
  split; [exact (eq_trans E3 E1)|exact (eq_trans E4 E2)].
Qed.

Lemma rank_same e e' : same_entry e e' -> rank_of e' = rank_of e.
Proof. intros [E1 E2]. unfold rank_of. by rewrite E1, E2. Qed.

#[export] Program Instance workItemHeap_laws : HeapLaws workItemHeap nat rank rank_le := {|
  h_view := ranks;
  h_ok _ := True;
|}.
Next Obligation. apply rank_le_total. Qed.
Next Obligation. intros h. unfold ranks. by rewrite length_fmap. Qed.
Next Obligation. done. Qed.
Next Obligation.
  intros i j h _ Hi Hj. cbn in *. rewrite !ranks_at by done.
  transitivity ((fun p => rank_of (deref h p)) <$> items (Swap i j h)).
  - apply list_fmap_ext. intros k p _. by apply rank_same, deref_swap.
  - cbn. by rewrite !list_fmap_insert.
Qed.
Next Obligation.
  intros i j h _ Hi Hj. cbn in *. rewrite !ranks_at by done. done.
Qed.

(** ** Well-formed queues *)

(** Every pointer of the array is there once and knows its position. *)
Definition indexed (h : workItemHeap) : Prop :=
  NoDup (items h) /\
  forall i p, items h !! i = Some p -> exists e, cells h !! p = Some e /\ we_index e = i.

(** The map and the array hold the same entries. *)
Definition linked (h : workItemHeap) (m : gmap string nat) : Prop :=
  (forall p, p ∈ items h ->
     we_key (deref h p) = workItemKey (we_item (deref h p)) /\ m !! we_key (deref h p) = Some p) /\
  (forall k p, m !! k = Some p -> p ∈ items h /\ we_key (deref h p) = k).

Definition wf (q : WorkQueue) : Prop :=
  indexed (q_heap q) /\ linked (q_heap q) (keys q) /\
  heap_ordered rank_le (ranks (q_heap q)) (length (items (q_heap q))) /\
  Z.of_nat (length (items (q_heap q))) <= maxItems q /\ 0 < maxItems q /\
  (forall p, is_Some (cells (q_heap q) !! p) -> (p < next q)%nat).

(** Two heaps with the same entries, up to their order. *)
Definition same_content (h h' : workItemHeap) : Prop :=
  items h' ≡ₚ items h /\ (forall p, same_entry (deref h p) (deref h' p)) /\
  (forall p, is_Some (cells h' !! p) <-> is_Some (cells h !! p)).

Lemma same_content_refl h : same_content h h.
Proof. done. Qed.

Lemma same_entry_trans e1 e2 e3 : same_entry e1 e2 -> same_entry e2 e3 -> same_entry e1 e3.
Proof. intros [? ?] [? ?]. split; congruence. Qed.

Lemma swap_items_perm i j (l : list nat) : (i < length l)%nat -> (j < length l)%nat ->
  <[i := l !!! j]> (<[j := l !!! i]> l) ≡ₚ l.
Proof.
  intros Hi Hj. destruct (lookup_lt_is_Some_2 _ _ Hi) as [x Hx], (lookup_lt_is_Some_2 _ _ Hj) as [y Hy].
  rewrite (list_lookup_total_correct _ _ _ Hx), (list_lookup_total_correct _ _ _ Hy).
  by apply Permutation_insert_swap.
Qed.

Lemma Swap_indexed i j h : (i < length (items h))%nat -> (j < length (items h))%nat ->
  indexed h -> indexed (Swap i j h).
Proof.
  intros Hi Hj [Hnd Hix]. pose proof (swap_items_perm i j (items h) Hi Hj) as Hp.
  unfold Swap. set (l := <[i := _]> _) in *.
  assert (Hl : NoDup l) by by rewrite Hp.
  assert (Hin : forall k p, l !! k = Some p -> exists e, cells h !! p = Some e).
  { intros k p Hk. apply list_elem_of_lookup_2 in Hk. rewrite Hp in Hk.
    apply list_elem_of_lookup_1 in Hk as [k' Hk']. destruct (Hix _ _ Hk') as (e & ? & _). eauto. }
  assert (Hlen : length l = length (items h)) by (unfold l; by rewrite !length_insert).
  destruct (lookup_lt_is_Some_2 l i) as [x Hx]; [lia|].
  destruct (lookup_lt_is_Some_2 l j) as [y Hy]; [lia|].
  rewrite (list_lookup_total_correct _ _ _ Hx), (list_lookup_total_correct _ _ _ Hy).
  split; [done|]. cbn. intros k p Hk. destruct (Hin k p Hk) as [e He].
  destruct (decide (k = j)) as [->|Hkj].
  { rewrite Hk in Hy. simplify_eq. rewrite lookup_alter, decide_True by done.
    rewrite lookup_alter. case_decide; simplify_eq; rewrite He; eexists; by split. }
  rewrite lookup_alter_ne by (intros ->; apply Hkj; by eapply NoDup_lookup).
  destruct (decide (k = i)) as [->|Hki].
  { rewrite Hk in Hx. simplify_eq. rewrite lookup_alter, decide_True, He by done.
    eexists; by split. }
  rewrite lookup_alter_ne by (intros ->; apply Hki; by eapply NoDup_lookup).
  apply Hix. unfold l in Hk. by rewrite !list_lookup_insert_ne in Hk by done.
Qed.

Lemma Swap_content i j h : (i < length (items h))%nat -> (j < length (items h))%nat ->
  same_content h (Swap i j h).
Proof.
  intros Hi Hj. split; [by apply swap_items_perm|]. split; [by apply deref_swap|].
  intros p. cbn. rewrite !lookup_alter_is_Some. done.
Qed.

Lemma same_content_trans h1 h2 h3 :
  same_content h1 h2 -> same_content h2 h3 -> same_content h1 h3.
Proof.
  intros (P1 & E1 & D1) (P2 & E2 & D2). split; [by rewrite P2|]. split.
  - intros p. by eapply same_entry_trans.
  - intros p. by rewrite D2, D1.
Qed.

Definition settled (h0 h : workItemHeap) : Prop := indexed h /\ same_content h0 h.

Lemma Swap_settled h0 i j h :
  settled h0 h -> (i < length (items h0))%nat -> (j < length (items h0))%nat ->
  settled h0 (Swap i j h).
Proof.
  intros [Hi Hc] Hn Hm. pose proof (Permutation_length (proj1 Hc)) as Hl. split.
  - by apply Swap_indexed; [lia..|].
  - eapply same_content_trans; [done|]. apply Swap_content; lia.
Qed.

Lemma heap_Fix_settled i h : indexed h -> (i < length (items h))%nat -> settled h (heap_Fix i h).
Proof.
  intros Hx Hi. unfold heap_Fix, down.
  pose proof (down_loop_keeps (settled h) (length (items h)) (Swap_settled h)
                (length (items h)) (length (items h)) i h) as Hd.
  change (h_Len h) with (length (items h)). destruct (down_loop _ _ _ _) as [h' i'] eqn:E.
  assert (Hh' : settled h h') by (apply Hd; [by split|done|done]).
  destruct (i <? i')%nat; [done|].
  apply (up_loop_keeps (settled h) (length (items h))); [apply Swap_settled|done|done].
Qed.

Lemma up_settled h0 i h : settled h0 h -> (i < length (items h0))%nat -> settled h0 (up i h).
Proof.
  intros Hs Hi. apply (up_loop_keeps (settled h0) (length (items h0))); [apply Swap_settled|done|done].
Qed.

(** The contents of the queue as a map from keys to items. *)
Definition table_of (h : workItemHeap) (m : gmap string nat) : gmap string WorkItem :=
  (fun p => we_item (deref h p)) <$> m.

Definition table (q : WorkQueue) : gmap string WorkItem := table_of (q_heap q) (keys q).

Lemma linked_same h h' m : same_content h h' -> linked h m -> linked h' m.
Proof.
  intros (Hp & He & _) [H1 H2]. split.
  - intros p. rewrite Hp. destruct (He p) as [-> ->]. apply H1.
  - intros k p. rewrite Hp. destruct (He p) as [-> _]. apply H2.
Qed.

Lemma table_same h h' m : same_content h h' -> table_of h' m = table_of h m.
Proof. intros (_ & He & _). apply map_fmap_ext. intros k p _. by destruct (He p) as [_ ->]. Qed.

Lemma lookup_index h i p : indexed h -> items h !! i = Some p ->
  cells h !! p = Some (deref h p) /\ we_index (deref h p) = i.
Proof. intros [_ H] Hi. unfold deref. by destruct (H i p Hi) as (e & -> & ?). Qed.

Lemma index_lookup h p : indexed h -> p ∈ items h -> items h !! we_index (deref h p) = Some p.
Proof.
  intros H [i Hi]%list_elem_of_lookup_1. by destruct (lookup_index h i p H Hi) as [_ ->].
Qed.

Lemma deref_set_cell p e h p' : deref (set_cell p e h) p' = if decide (p = p') then e else deref h p'.
Proof.
  unfold deref, set_cell. cbn. case_decide as E; [subst; by rewrite lookup_insert, decide_True|].
  by rewrite lookup_insert_ne.
Qed.

(** An entry rewritten in place and moved to where it belongs. *)
Lemma set_cell_fix h p e : indexed h -> p ∈ items h -> we_index e = we_index (deref h p) ->
  heap_ordered rank_le (ranks h) (length (items h)) ->
  let h' := heap_Fix (we_index e) (set_cell p e h) in
  settled (set_cell p e h) h' /\ heap_ordered rank_le (ranks h') (length (items h)).
Proof.
  intros Hx Hp He Ho h'. pose proof (index_lookup h p Hx Hp) as Hi. rewrite <- He in Hi.
  pose proof (lookup_lt_Some _ _ _ Hi) as Hlt. destruct Hx as [Hnd Hix]. split.
  - apply heap_Fix_settled; [|done]. split; [done|]. cbn. intros k p' Hk.
    destruct (decide (p = p')) as [->|].
    + rewrite lookup_insert, decide_True by done. exists e. split; [done|]. by eapply NoDup_lookup.
    + rewrite lookup_insert_ne by done. by apply Hix.
  - enough (W : weak_at rank_le (ranks (set_cell p e h)) (length (items h)) (we_index e))
      by exact (heap_Fix_ordered (we_index e) (set_cell p e h) I Hlt W).
    apply (ordered_weak _ _ _ (we_index e)) in Ho as W; [|done].
    assert (Heq : forall k, k <> we_index e -> (k < length (items h))%nat ->
      ranks (set_cell p e h) !!! k = ranks h !!! k).
    { intros k Hk Hl. rewrite !ranks_at by done. unfold at_. cbn. rewrite deref_set_cell.
      case_decide as E; [|done]. exfalso. apply Hk. eapply NoDup_lookup; [done| |done].
      rewrite E. by apply list_lookup_lookup_total_lt. }
    destruct W as [W1 W2]. cbn. split; intros c Hc; intros; pose proof (parent_lt c ltac:(lia)).
    + rewrite !Heq by (done || lia). by apply W1.
    + pose proof (parent_lt (we_index e)). rewrite !Heq by lia. by apply W2.
Qed.

Lemma lower_step_spec h l p : let r := lower_step h l p in
  (r = l \/ r = p) /\ rank_le (rank_of (deref h l)) (rank_of (deref h r)) /\
  rank_le (rank_of (deref h p)) (rank_of (deref h r)).
Proof.
  unfold lower_step.
  assert (E : (wi_Priority (we_item (deref h p)) <? wi_Priority (we_item (deref h l)))
    || ((wi_Priority (we_item (deref h p)) =? wi_Priority (we_item (deref h l))) &&
        str_lt (we_key (deref h l)) (we_key (deref h p)))
    = rank_lt (rank_of (deref h l)) (rank_of (deref h p))).
  { unfold rank_lt. cbn. rewrite (Z.eqb_sym (wi_Priority (we_item (deref h l)))).
    destruct (Z.eqb_spec (wi_Priority (we_item (deref h p))) (wi_Priority (we_item (deref h l)))) as [->|].
    - by rewrite Z.ltb_irrefl.
    - by rewrite orb_false_r. }
  cbn zeta. rewrite E. destruct (rank_lt _ _) eqn:Hlt; split_and!; auto; try reflexivity.
  destruct (rank_le_total (rank_of (deref h l)) (rank_of (deref h p))) as [|Hle]; [done|].
  unfold rank_le in Hle. congruence.
Qed.

Lemma lowest_spec h p : lowestPriorityEntry h = Some p ->
  p ∈ items h /\ forall p', p' ∈ items h -> rank_le (rank_of (deref h p')) (rank_of (deref h p)).
Proof.
  unfold lowestPriorityEntry. destruct (items h) as [|p0 ps]; [done|]. intros [= <-].
  induction ps as [|x ps [IH1 IH2]] using rev_ind.
  { cbn. split; [by apply list_elem_of_singleton|]. intros p' ->%list_elem_of_singleton. reflexivity. }
  rewrite foldl_app. cbn [foldl].
  destruct (lower_step_spec h (foldl (lower_step h) p0 ps) x) as (Hr & H1 & H2).
  change (p0 :: ps ++ [x]) with ((p0 :: ps) ++ [x]).
  generalize dependent (lower_step h (foldl (lower_step h) p0 ps) x). intros r Hr H1 H2.
  split; [rewrite elem_of_app, list_elem_of_singleton; destruct Hr as [->| ->]; auto|].
  intros p'. rewrite elem_of_app, list_elem_of_singleton. intros [Hin| ->]; [|done].
  etransitivity; [by apply IH2|done].
Qed.

Lemma lowest_some h : items h <> [] -> is_Some (lowestPriorityEntry h).
Proof. unfold lowestPriorityEntry. by destruct (items h). Qed.

(** There are as many keys as entries. *)
Lemma linked_size h m : NoDup (items h) -> linked h m -> size m = length (items h).
Proof.
  intros Hnd [H1 H2]. rewrite <- length_map_to_list, <- (length_fmap snd).
  apply Permutation_length, NoDup_Permutation; [|done|].
  - apply NoDup_fmap_2_strong; [|apply NoDup_map_to_list]. intros [k p] [k' p'].
    rewrite !elem_of_map_to_list. cbn. intros Hk Hk' <-.
    apply H2 in Hk as [_ <-], Hk' as [_ <-]. done.
  - intros p. rewrite list_elem_of_fmap. split.
    + intros ([k p'] & -> & Hk). rewrite elem_of_map_to_list in Hk. by apply H2 in Hk as [? _].
    + intros Hp. exists (we_key (deref h p), p). split; [done|]. rewrite elem_of_map_to_list. by apply H1.
Qed.

(** ** Specification: a map from keys to items with an order of service *)
Definition item_rank (k : string) (x : WorkItem) : rank := (wi_Priority x, k).

Definition first_of (m : gmap string WorkItem) (k : string) (x : WorkItem) : Prop :=
  m !! k = Some x /\ forall k' x', m !! k' = Some x' -> rank_le (item_rank k x) (item_rank k' x').

Definition last_of (m : gmap string WorkItem) (k : string) (x : WorkItem) : Prop :=
  m !! k = Some x /\ forall k' x', m !! k' = Some x' -> rank_le (item_rank k' x') (item_rank k x).

Inductive spec_push (max : Z) (i : WorkItem) (m : gmap string WorkItem) : gmap string WorkItem -> Prop :=
| push_raise x : m !! workItemKey i = Some x -> wi_Priority x < wi_Priority i ->
    spec_push max i m (<[workItemKey i := i]> m)
| push_keep x : m !! workItemKey i = Some x -> wi_Priority i <= wi_Priority x -> spec_push max i m m
| push_new : m !! workItemKey i = None -> Z.of_nat (size m) < max ->
    spec_push max i m (<[workItemKey i := i]> m)
| push_drop k x : m !! workItemKey i = None -> max <= Z.of_nat (size m) -> last_of m k x ->
    wi_Priority i <= wi_Priority x -> spec_push max i m m
| push_evict k x : m !! workItemKey i = None -> max <= Z.of_nat (size m) -> last_of m k x ->
    wi_Priority x < wi_Priority i -> spec_push max i m (<[workItemKey i := i]> (delete k m)).

Inductive spec_pop (m : gmap string WorkItem) : gmap string WorkItem -> option WorkItem -> Prop :=
| pop_none : m = ∅ -> spec_pop m m None
| pop_some k x : first_of m k x -> spec_pop m (delete k m) (Some x).

Lemma table_lookup h m k : table_of h m !! k = (fun p => we_item (deref h p)) <$> m !! k.
Proof. apply lookup_fmap. Qed.

Lemma lowest_last h m p : linked h m -> lowestPriorityEntry h = Some p ->
  last_of (table_of h m) (we_key (deref h p)) (we_item (deref h p)).
Proof.
  intros [H1 H2] [Hp Hl]%lowest_spec. split.
  - rewrite table_lookup. by destruct (H1 p Hp) as [_ ->].
  - intros k x. rewrite table_lookup. destruct (m !! k) as [p'|] eqn:E; [|done]. intros [= <-].
    destruct (H2 _ _ E) as [Hin <-]. exact (Hl p' Hin).
Qed.

(** An entry rewritten in place, with the map following it. *)
Section rewrite_entry.
Context (h : workItemHeap) (m : gmap string nat) (p : nat) (e : workItemEntry).
Context (Hl : linked h m) (Hp : p ∈ items h) (Hk : we_key e = workItemKey (we_item e)).
Context (Hfresh : m !! we_key e = None \/ we_key e = we_key (deref h p)).
Local Definition m' : gmap string nat := <[we_key e := p]> (delete (we_key (deref h p)) m).

Lemma linked_set_cell : linked (set_cell p e h) m'.
Proof.
  destruct Hl as [H1 H2]. unfold m'. split.
  - intros p' Hin. rewrite deref_set_cell. case_decide as E.
    + subst. by rewrite lookup_insert, decide_True.
    + destruct (H1 p' Hin) as [? Hm]. split; [done|].
      destruct (H1 p Hp) as [_ Hmp].
      rewrite lookup_insert_ne, lookup_delete_ne; [done|congruence|].
      intros Heq. rewrite <- Heq in Hm. destruct Hfresh; congruence.
  - intros k p'. rewrite lookup_insert_Some, lookup_delete_Some, deref_set_cell.
    intros [[<- <-]|(Hne & Hne' & Hm)]; [by rewrite decide_True|].
    destruct (H2 _ _ Hm) as [Hin <-]. split; [done|]. rewrite decide_False; [done|]. by intros ->.
Qed.

Lemma table_set_cell : table_of (set_cell p e h) m' =
  <[we_key e := we_item e]> (delete (we_key (deref h p)) (table_of h m)).
Proof.
  destruct Hl as [H1 H2]. unfold m', table_of. rewrite fmap_insert, fmap_delete.
  rewrite deref_set_cell, decide_True by done. f_equal. apply map_eq. intros k.
  destruct (decide (k = we_key (deref h p))) as [->|Hne]; [by rewrite !lookup_delete_eq|].
  rewrite !lookup_delete_ne, !lookup_fmap by done. destruct (m !! k) as [p'|] eqn:E; [|done].
  cbn. rewrite deref_set_cell, decide_False; [done|]. intros <-. apply Hne. by destruct (H2 _ _ E) as [_ <-].
Qed.
End rewrite_entry.

(** A queue whose entry [p] was rewritten and moved. *)
Lemma wf_rewrite q p e h' : wf q -> p ∈ items (q_heap q) ->
  we_key e = workItemKey (we_item e) -> we_index e = we_index (deref (q_heap q) p) ->
  keys q !! we_key e = None \/ we_key e = we_key (deref (q_heap q) p) ->
  h' = heap_Fix (we_index e) (set_cell p e (q_heap q)) ->
  let q' := {| q_heap := h'; byKey := Some (m' (q_heap q) (keys q) p e);
               maxItems := maxItems q; next := next q |} in
  wf q' /\ table q' = <[we_key e := we_item e]> (delete (we_key (deref (q_heap q) p)) (table q)).
Proof.
  intros (Hx & Hl & Ho & Hm & Hpos & Hn) Hp Hk Hi Hf ->.
  destruct (set_cell_fix (q_heap q) p e Hx Hp Hi Ho) as [[Hx' Hc] Ho']. cbn zeta.
  set (h' := heap_Fix _ _) in *. pose proof (Permutation_length (proj1 Hc)) as Hlen. cbn in Hlen.
  split.
  - split_and!; cbn; [done| |by rewrite Hlen|by rewrite Hlen|done|].
    + eapply linked_same; [done|]. by apply linked_set_cell.
    + intros p' Hp'. apply Hc in Hp'. cbn in Hp'. apply Hn. apply lookup_insert_is_Some in Hp'.
      destruct Hp' as [<-|[_ ?]]; [|done].
      pose proof (index_lookup _ _ Hx Hp) as Hil. destruct (lookup_index _ _ _ Hx Hil) as [-> _]. eauto.
  - transitivity (table_of (set_cell p e (q_heap q)) (m' (q_heap q) (keys q) p e)).
    + by apply table_same.
    + by apply table_set_cell.
Qed.

(** A new entry at the end of the array. *)
Section append_entry.
Context (h : workItemHeap) (m : gmap string nat) (p : nat) (i : WorkItem).
Context (Hx : indexed h) (Hl : linked h m) (Hp : cells h !! p = None) (Hk : m !! workItemKey i = None).
Local Definition e0 : workItemEntry := {| we_key := workItemKey i; we_item := i; we_index := 0 |}.
Local Definition h1 : workItemHeap := h_Push p (set_cell p e0 h).

Lemma append_fresh p' : p' ∈ items h -> p <> p'.
Proof.
  intros Hin <-. pose proof (index_lookup _ _ Hx Hin) as Hil.
  destruct (lookup_index _ _ _ Hx Hil) as [He _]. congruence.
Qed.

Lemma append_deref p' :
  deref h1 p' = if decide (p = p') then set_index (length (items h)) e0 else deref h p'.
Proof.
  unfold deref, h1. cbn. case_decide as E.
  - subst. by rewrite lookup_alter, decide_True, lookup_insert, decide_True by done.
  - by rewrite lookup_alter_ne, lookup_insert_ne by done.
Qed.

Lemma append_indexed : indexed h1.
Proof.
  destruct Hx as [Hnd Hix]. split; cbn.
  - apply NoDup_app. split_and!; [done| |apply NoDup_singleton].
    intros p' Hin ->%list_elem_of_singleton. by apply (append_fresh p).
  - intros k p' Hk'. apply lookup_app_Some in Hk' as [Hk'|[Hle Hk']].
    + rewrite lookup_alter_ne, lookup_insert_ne; [by apply Hix| |];
        apply append_fresh; by eapply list_elem_of_lookup_2.
    + apply list_lookup_singleton_Some in Hk' as [Hz <-].
      rewrite lookup_alter, decide_True, lookup_insert, decide_True by done.
      eexists. split; [done|]. cbn. lia.
Qed.

Lemma append_length : length (items h1) = S (length (items h)).
Proof. cbn. rewrite length_app. cbn. lia. Qed.

Lemma append_ordered : heap_ordered rank_le (ranks h) (length (items h)) ->
  heap_ordered rank_le (ranks (heap_Push p (set_cell p e0 h))) (S (length (items h))).
Proof.
  intros Ho. rewrite <- append_length.
  refine (up_last_ordered h1 I _ _); change (h_Len h1) with (length (items h1)); rewrite append_length; [lia|].
  rewrite Nat.sub_succ, Nat.sub_0_r. refine (heap_ordered_mono _ _ _ _ Ho). intros k Hk'.
  rewrite !ranks_at by (rewrite ?append_length; lia). unfold at_. rewrite append_deref.
  change (items h1) with (items h ++ [p]). rewrite lookup_total_app_l by done.
  rewrite decide_False; [done|]. apply append_fresh. by apply list_elem_of_lookup_total_2.
Qed.

Lemma append_linked : linked h1 (<[workItemKey i := p]> m).
Proof.
  destruct Hl as [H1 H2]. split.
  - intros p' Hin. rewrite append_deref. change (items h1) with (items h ++ [p]) in Hin.
    apply elem_of_app in Hin as [Hin| ->%list_elem_of_singleton].
    + rewrite decide_False by by apply append_fresh. destruct (H1 p' Hin) as [? Hm].
      split; [done|]. rewrite lookup_insert_ne by congruence. done.
    + rewrite decide_True by done. by rewrite lookup_insert, decide_True.
  - intros k p'. rewrite lookup_insert_Some, append_deref. change (items h1) with (items h ++ [p]).
    rewrite elem_of_app, list_elem_of_singleton. intros [[<- <-]|[Hne Hm]].
    + rewrite decide_True by done. auto.
    + destruct (H2 _ _ Hm) as [Hin <-]. rewrite decide_False by by apply append_fresh. auto.
Qed.

Lemma append_table : table_of h1 (<[workItemKey i := p]> m) = <[workItemKey i := i]> (table_of h m).
Proof.
  unfold table_of. rewrite fmap_insert. rewrite append_deref, decide_True by done. f_equal.
  apply map_fmap_ext. intros k p' Hm. destruct Hl as [_ H2]. destruct (H2 _ _ Hm) as [Hin _].
  rewrite append_deref, decide_False; [done|]. by apply append_fresh.
Qed.
End append_entry.

Lemma wf_append q i : wf q -> keys q !! workItemKey i = None ->
  Z.of_nat (length (items (q_heap q))) < maxItems q ->
  let q' := {| q_heap := heap_Push (next q) (set_cell (next q) (e0 i) (q_heap q));
               byKey := Some (<[workItemKey i := next q]> (keys q));
               maxItems := maxItems q; next := S (next q) |} in
  wf q' /\ table q' = <[workItemKey i := i]> (table q).
Proof.
  intros (Hx & Hl & Ho & Hm & Hpos & Hn) Hk Hlt q'. set (h := q_heap q) in *. set (p := next q) in *.
  assert (Hp : cells h !! p = None).
  { apply eq_None_not_Some. intros Hs. specialize (Hn p Hs). unfold p in Hn. lia. }
  pose proof (append_length h p i) as Hlen. set (hp := h1 h p i) in *.
  assert (Hs : settled hp (q_heap q')).
  { apply up_settled; [split; [by apply append_indexed|apply same_content_refl]|].
    change (h_Len _) with (length (items hp)). lia. }
  destruct Hs as [Hx' Hc]. pose proof (Permutation_length (proj1 Hc)) as Hlen'. split.
  - split_and!; [done| | | |done|].
    + eapply linked_same; [done|]. by apply append_linked.
    + rewrite Hlen', Hlen. by apply append_ordered.
    + rewrite Hlen', Hlen. cbn. lia.
    + intros p' Hp'. apply Hc in Hp'. cbn in Hp'. apply lookup_alter_is_Some in Hp'.
      apply lookup_insert_is_Some in Hp' as [<-|[_ Hs]]; cbn; [lia|]. specialize (Hn p' Hs). lia.
  - transitivity (table_of hp (<[workItemKey i := p]> (keys q))); [by apply table_same|].
    by apply append_table.
Qed.

(** Removing the first entry of the order. *)
Section pop_entry.
Context (h : workItemHeap) (m : gmap string nat) (p : nat).
Context (Hx : indexed h) (Hl : linked h m) (Hp : items h !! 0%nat = Some p).
Context (Ho : heap_ordered rank_le (ranks h) (length (items h))).
Local Definition n : nat := length (items h) - 1.
Local Definition h3 : workItemHeap := (down 0 n (h_Swap 0 n h)).1.

Lemma pop_settled : settled h h3 /\ items h3 !! n = Some p.
Proof.
  pose proof (lookup_lt_Some _ _ _ Hp) as Hlen.
  set (inv h' := settled h h' /\ items h' !! n = Some p).
  assert (Hinv : forall i j h', inv h' -> (i < n)%nat -> (j < n)%nat -> inv (h_Swap i j h')).
  { intros i j h' [Hs Hn] Hi Hj. split; [apply Swap_settled; [done|unfold n in *; lia..]|].
    cbn. by rewrite !list_lookup_insert_ne by lia. }
  assert (H0 : inv (h_Swap 0 n h)).
  { split; [apply Swap_settled; [split; [done|apply same_content_refl]|unfold n; lia..]|].
    cbn. rewrite (list_lookup_total_correct _ _ _ Hp). destruct (decide (n = 0)%nat) as [E|E].
    - assert (length (items h) = 1%nat) as Hone by (unfold n in E; lia). rewrite E.
      rewrite list_lookup_insert_eq by (rewrite length_insert; lia).
      f_equal. by apply list_lookup_total_correct.
    - rewrite list_lookup_insert_ne by lia. apply list_lookup_insert_eq. unfold n. lia. }
  unfold h3, down. destruct (decide (n = 0)%nat) as [E|E].
  - assert (down_loop n 0 n (h_Swap 0 n h) = (h_Swap 0 n h, 0%nat)) as -> by by rewrite E. exact H0.
  - pose proof (down_loop_keeps inv n Hinv n n 0 _ H0) as Hd.
    destruct (down_loop n 0 n (h_Swap 0 n h)). apply Hd; lia.
Qed.

Lemma pop_items : items h3 = take n (items h3) ++ [p].
Proof.
  destruct pop_settled as [[_ (Hperm & _)] Hn]. pose proof (lookup_lt_Some _ _ _ Hp).
  apply Permutation_length in Hperm. rewrite <- (take_drop n (items h3)) at 1. f_equal.
  rewrite (drop_S _ _ _ Hn). f_equal. apply drop_ge. unfold n in *. lia.
Qed.

Lemma heap_Pop_eq : heap_Pop h = ({| items := take n (items h3); cells := cells h3 |}, Some p).
Proof.
  destruct pop_settled as [[_ (Hperm & _)] Hn]. apply Permutation_length in Hperm.
  transitivity (heapPop h3).
  - unfold heap_Pop, h3. change (h_Len h - 1)%nat with n. by destruct (down 0 n (h_Swap 0 n h)).
  - unfold heapPop. rewrite Hperm. change (length (items h) - 1)%nat with n. by rewrite Hn.
Qed.

Lemma pop_indexed : indexed {| items := take n (items h3); cells := cells h3 |}.
Proof.
  destruct pop_settled as [[[Hnd Hix] _] _]. rewrite pop_items in Hnd. apply NoDup_app in Hnd as (? & _ & _).
  split; [done|]. cbn. intros i p' Hi. apply Hix. apply lookup_take_Some in Hi as [? _]. done.
Qed.

Lemma pop_not_in p' : p' ∈ take n (items h3) <-> p' ∈ items h /\ p' <> p.
Proof.
  destruct pop_settled as [[[Hnd _] (Hperm & _)] _]. rewrite <- Hperm.
  pose proof pop_items as Heq. set (l := take n (items h3)) in *. rewrite Heq in Hnd |- *.
  apply NoDup_app in Hnd as (_ & Hd & _). rewrite elem_of_app, list_elem_of_singleton. split.
  - intros Hin. split; [auto|]. intros ->. apply (Hd p Hin). by apply list_elem_of_singleton.
  - intros [[Hin| ->] Hne]; done.
Qed.

Lemma pop_linked : linked {| items := take n (items h3); cells := cells h3 |}
                     (delete (we_key (deref h p)) m).
Proof.
  destruct pop_settled as [[_ (_ & He & _)] _]. destruct Hl as [H1 H2].
  assert (Hin : p ∈ items h) by by eapply list_elem_of_lookup_2.
  destruct (H1 p Hin) as [_ Hmp]. split; cbn.
  - intros p' [Hp' Hne]%pop_not_in. change (deref _ p') with (deref h3 p').
    destruct (He p') as [-> ->]. destruct (H1 p' Hp') as [? Hm]. split; [done|].
    rewrite lookup_delete_ne by congruence. done.
  - intros k p' [Hne Hm]%lookup_delete_Some. rewrite pop_not_in.
    change (deref _ p') with (deref h3 p'). destruct (He p') as [-> _].
    destruct (H2 _ _ Hm) as [? <-]. split; [|done]. split; [done|]. by intros ->.
Qed.

Lemma pop_ordered : heap_ordered rank_le (ranks {| items := take n (items h3); cells := cells h3 |}) n.
Proof.
  pose proof (lookup_lt_Some _ _ _ Hp) as Hlen. destruct pop_settled as [[_ (Hperm & _)] _].
  apply Permutation_length in Hperm.
  refine (heap_ordered_mono _ _ _ _ (pop_prefix_ordered h I Hlen Ho)). intros k Hk.
  change (h_view _) with (ranks h3). rewrite !ranks_at by (cbn; rewrite ?length_take; unfold n in *; cbn in Hk; lia).
  unfold at_. cbn. by rewrite lookup_total_take_lt by exact Hk.
Qed.

Lemma pop_first : first_of (table_of h m) (we_key (deref h p)) (we_item (deref h p)).
Proof.
  destruct Hl as [H1 H2]. assert (Hin : p ∈ items h) by by eapply list_elem_of_lookup_2. split.
  - rewrite table_lookup. by destruct (H1 p Hin) as [_ ->].
  - intros k x. rewrite table_lookup. destruct (m !! k) as [p'|] eqn:E; [|done]. intros [= <-].
    destruct (H2 _ _ E) as [[j Hj]%list_elem_of_lookup_1 <-].
    pose proof (lookup_lt_Some _ _ _ Hj) as Hjl. pose proof (lookup_lt_Some _ _ _ Hp) as Hl0.
    pose proof (heap_root rank_le (ranks h) _ j _ Ho Hjl) as Hr. rewrite !ranks_at in Hr by done.
    unfold at_ in Hr. rewrite (list_lookup_total_correct _ _ _ Hj), (list_lookup_total_correct _ _ _ Hp) in Hr.
    exact Hr.
Qed.

Lemma pop_table : table_of {| items := take n (items h3); cells := cells h3 |} (delete (we_key (deref h p)) m)
                  = delete (we_key (deref h p)) (table_of h m).
Proof.
  destruct pop_settled as [[_ Hc] _]. rewrite <- (table_same _ _ _ Hc). unfold table_of at 2.
  by rewrite <- fmap_delete.
Qed.
End pop_entry.

(** ** Refinement *)
Lemma New_wf max : wf (NewWithCapacity max) /\ table (NewWithCapacity max) = ∅.
Proof.
  split; [|done]. split; [|split; [|split; [|split; [|split]]]]; cbn.
  - split; [constructor|done].
  - split; [intros p Hp; by apply not_elem_of_nil in Hp|]. intros k p Hk. by rewrite lookup_empty in Hk.
  - intros c Hc. lia.
  - destruct (Z.leb_spec max 0); unfold defaultMaxItems; lia.
  - destruct (Z.leb_spec max 0); unfold defaultMaxItems; lia.
  - intros p [e He]. by rewrite lookup_empty in He.
Qed.

Lemma wf_size q : wf q -> size (table q) = Len q.
Proof.
  intros ([Hnd _] & Hl & _). unfold table, table_of. rewrite map_size_fmap. by apply linked_size.
Qed.

Lemma Push_refines q i : wf q ->
  wf (Push i q) /\ spec_push (maxItems q) i (table q) (table (Push i q)).
Proof.
  intros Hw. pose proof Hw as (Hx & Hl & Ho & Hm & Hpos & Hn). pose proof (wf_size q Hw) as Hsz.
  unfold Push. destruct (keys q !! workItemKey i) as [p|] eqn:Ek.
  - destruct (proj2 Hl _ _ Ek) as [Hp Hkey].
    assert (Ht : table q !! workItemKey i = Some (we_item (deref (q_heap q) p)))
      by (unfold table; by rewrite table_lookup, Ek).
    destruct (Z.ltb_spec (wi_Priority (we_item (deref (q_heap q) p))) (wi_Priority i)).
    + set (e := {| we_key := we_key (deref (q_heap q) p); we_item := i;
                   we_index := we_index (deref (q_heap q) p) |}).
      destruct (wf_rewrite q p e (heap_Fix (we_index e) (set_cell p e (q_heap q)))) as [Hw' Htab];
        [done|done|exact Hkey|done|by right|done|].
      assert (Em : m' (q_heap q) (keys q) p e = keys q)
        by (unfold m'; cbn [e we_key]; rewrite Hkey; by apply insert_delete_id).
      rewrite Em in Hw', Htab. split; [exact Hw'|]. refine (eq_ind_r (spec_push _ _ _) _ Htab).
      cbn [e we_key we_item]. rewrite Hkey, insert_delete_eq. by eapply push_raise.
    + split; [done|]. by eapply push_keep.
  - assert (Ht : table q !! workItemKey i = None) by (unfold table; by rewrite table_lookup, Ek).
    destruct (Z.leb_spec (maxItems q) (Z.of_nat (length (items (q_heap q))))).
    + destruct (lowestPriorityEntry (q_heap q)) as [p|] eqn:Elow.
      2:{ destruct (lowest_some (q_heap q)) as [p Hp]; [|congruence].
          intros Ei. rewrite Ei in *. cbn in *. lia. }
      pose proof (lowest_last _ _ _ Hl Elow) as Hlast. destruct (lowest_spec _ _ Elow) as [Hp _].
      destruct (Z.leb_spec (wi_Priority i) (wi_Priority (we_item (deref (q_heap q) p)))).
      * split; [done|]. refine (push_drop _ _ (table q) _ _ Ht _ Hlast _); [by rewrite Hsz|done].
      * set (e := {| we_key := workItemKey i; we_item := i; we_index := we_index (deref (q_heap q) p) |}).
        destruct (wf_rewrite q p e (heap_Fix (we_index e) (set_cell p e (q_heap q)))) as [Hw' Htab];
          [done|done|done|done|by left|done|].
        split; [done|]. refine (eq_ind_r (spec_push _ _ _) _ Htab).
        refine (push_evict _ _ (table q) _ _ Ht _ Hlast _); [by rewrite Hsz|done].
    + destruct (wf_append q i Hw Ek) as [Hw' Htab]; [done|]. split; [done|].
      refine (eq_ind_r (spec_push _ _ _) _ Htab). apply push_new; [done|by rewrite Hsz].
Qed.

Lemma Pop_refines q : wf q -> wf (Pop q).1 /\ spec_pop (table q) (table (Pop q).1) (Pop q).2.
Proof.
  intros Hw. pose proof Hw as (Hx & Hl & Ho & Hm & Hpos & Hn). unfold Pop.
  case_bool_decide as Hz; cbn [fst snd].
  { split; [done|]. apply pop_none. apply map_size_empty_iff. by rewrite wf_size. }
  destruct (lookup_lt_is_Some_2 (items (q_heap q)) 0) as [p Hp]; [lia|].
  rewrite (heap_Pop_eq _ _ Hx Hp). cbn [fst snd]. change (default 0%nat (Some p)) with p.
  destruct (pop_settled _ _ Hx Hp) as [[_ (Hperm & He & Hcells)] _].
  change (deref {| cells := _; items := _ |} p) with (deref (h3 (q_heap q)) p).
  destruct (He p) as [-> ->]. set (q' := {| q_heap := _ |}).
  assert (Hkeys : keys q' = delete (we_key (deref (q_heap q) p)) (keys q)).
  { unfold keys, q'. cbn. destruct (byKey q); cbn; [done|]. by rewrite delete_empty. }
  split.
  - split_and!; [by apply (pop_indexed _ _ Hx Hp)| | | |done|].
    + rewrite Hkeys. by apply pop_linked.
    + cbn [q' q_heap items]. rewrite length_take, (Permutation_length Hperm), Nat.min_l by (unfold n; lia).
      by apply (pop_ordered _ p).
    + cbn. rewrite length_take, (Permutation_length Hperm). lia.
    + intros p' Hp'. apply Hn. by apply Hcells.
  - unfold table. rewrite Hkeys. change (q_heap q') with {| items := take (n (q_heap q)) (items (h3 (q_heap q))); cells := cells (h3 (q_heap q)) |}.
    rewrite pop_table by done. apply pop_some. by apply pop_first.
Qed.

(** ** Sequences of operations *)
Inductive op := OPush (i : WorkItem) | OPop.

Definition step (q : WorkQueue) (o : op) : WorkQueue * list (option WorkItem) :=
  match o with
  | OPush i => (Push i q, [])
  | OPop => let '(q, x) := Pop q in (q, [x])
  end.

(** The final queue and what the pops returned. *)
Fixpoint run (ops : list op) (q : WorkQueue) : WorkQueue * list (option WorkItem) :=
  match ops with
  | [] => (q, [])
  | o :: ops => let '(q, out) := step q o in let '(q, outs) := run ops q in (q, out ++ outs)
  end.

Inductive spec_run (max : Z) : gmap string WorkItem -> list op -> gmap string WorkItem ->
                               list (option WorkItem) -> Prop :=
| spec_nil m : spec_run max m [] m []
| spec_opush m i m1 ops m2 outs : spec_push max i m m1 -> spec_run max m1 ops m2 outs ->
    spec_run max m (OPush i :: ops) m2 outs
| spec_opop m m1 x ops m2 outs : spec_pop m m1 x -> spec_run max m1 ops m2 outs ->
    spec_run max m (OPop :: ops) m2 (x :: outs).

Definition capacity (max : Z) : Z := if max <=? 0 then defaultMaxItems else max.

Lemma Push_max i q : maxItems (Push i q) = maxItems q.
Proof. unfold Push. by repeat case_match. Qed.

Lemma Pop_max q : maxItems (Pop q).1 = maxItems q.
Proof. unfold Pop. case_bool_decide; [done|]. by destruct (heap_Pop (q_heap q)). Qed.

Lemma run_refines ops q : wf q ->
  wf (run ops q).1 /\ maxItems (run ops q).1 = maxItems q /\
  spec_run (maxItems q) (table q) ops (table (run ops q).1) (run ops q).2.
Proof.
  revert q. induction ops as [|[i|] ops IH]; intros q Hw; cbn [run step].
  - split; [done|split; [done|constructor]].
  - destruct (Push_refines q i Hw) as [Hw' Hs]. destruct (IH _ Hw') as (Hw2 & Hm & Hr).
    rewrite Push_max in Hm, Hr. destruct (run ops (Push i q)) as [q2 outs].
    split_and!; [done|done|]. by econstructor.
  - destruct (Pop_refines q Hw) as [Hw' Hs]. pose proof (Pop_max q) as Hpm.
    destruct (Pop q) as [q1 x]. cbn [fst snd] in *.
    destruct (IH _ Hw') as (Hw2 & Hm & Hr). rewrite Hpm in Hm, Hr. destruct (run ops q1) as [q2 outs].
    split_and!; [done|done|]. by econstructor.
Qed.

(** ** The specification leaves no choice *)
Lemma first_of_unique m k x k' x' : first_of m k x -> first_of m k' x' -> k = k' /\ x = x'.
Proof.
  intros [E1 H1] [E2 H2]. pose proof (rank_le_antisym _ _ (H1 _ _ E2) (H2 _ _ E1)) as E.
  unfold item_rank in E. simplify_eq. done.
Qed.

Lemma last_of_unique m k x k' x' : last_of m k x -> last_of m k' x' -> k = k' /\ x = x'.
Proof.
  intros [E1 H1] [E2 H2]. pose proof (rank_le_antisym _ _ (H1 _ _ E2) (H2 _ _ E1)) as E.
  unfold item_rank in E. simplify_eq. done.
Qed.

Lemma spec_push_det max i m m1 m2 : spec_push max i m m1 -> spec_push max i m m2 -> m1 = m2.
Proof.
  intros H1 H2. destruct H1, H2; simplify_eq; try done; try lia;
    match goal with
    | A : last_of m ?k ?x, B : last_of m ?k' ?x' |- _ =>
        destruct (last_of_unique m k x k' x' A B); subst
    end; (done || lia).
Qed.

Lemma spec_pop_det m m1 x1 m2 x2 : spec_pop m m1 x1 -> spec_pop m m2 x2 -> m1 = m2 /\ x1 = x2.
Proof.
  intros [Hm|k x Hf] [Hm'|k' x' Hf']; [done| | |].
  - subst. destruct Hf' as [E _]. by rewrite lookup_empty in E.
  - subst. destruct Hf as [E _]. by rewrite lookup_empty in E.
  - by destruct (first_of_unique m k x k' x' Hf Hf') as [-> ->].
Qed.

Lemma spec_run_det max m ops m1 o1 m2 o2 :
  spec_run max m ops m1 o1 -> spec_run max m ops m2 o2 -> m1 = m2 /\ o1 = o2.
Proof.
  intros H. revert m2 o2. induction H as [|m i m' ops m1 o1 Hp Hr IH|m m' x ops m1 o1 Hp Hr IH];
    intros m2 o2 H2; inv H2.
  - done.
  - match goal with H : spec_push _ _ _ ?m3 |- _ => pose proof (spec_push_det _ _ _ _ _ Hp H); subst end.
    by apply IH.
  - match goal with H : spec_pop _ _ _ |- _ => destruct (spec_pop_det _ _ _ _ _ Hp H); subst end.
    match goal with H : spec_run _ _ ops _ _ |- _ => by destruct (IH _ _ H) as [-> ->] end.
Qed.

(** C21: The work queue behaves as a map from keys to items: over every sequence
    of pushes and pops from a new queue, its contents and the items it hands
    out are those of the specification, which allows only one outcome, and it
    never holds more than its capacity. *)
Theorem queue_refines_table max ops :
  let '(q, outs) := run ops (NewWithCapacity max) in
  (forall m' outs', spec_run (capacity max) ∅ ops m' outs' <-> m' = table q /\ outs' = outs) /\
  Z.of_nat (Len q) <= capacity max.
Proof.
  destruct (New_wf max) as [Hw Ht].
  destruct (run_refines ops _ Hw) as (Hw' & Hm & Hr). rewrite Ht in Hr.
  destruct (run ops (NewWithCapacity max)) as [q outs]. cbn [fst snd] in *. split.
  - intros m' outs'. split.
    + intros H. by apply (spec_run_det _ _ _ _ _ _ _ H Hr).
    + by intros [-> ->].
  - destruct Hw' as (_ & _ & _ & Hlen & _). change (capacity max) with (maxItems (NewWithCapacity max)).
    rewrite <- Hm. exact Hlen.
Qed.

(** The items that [n] pops return. *)
Fixpoint drain (n : nat) (q : WorkQueue) : WorkQueue * list WorkItem :=
  match n with
  | O => (q, [])
  | S n => let '(q, x) := Pop q in
           let '(q, xs) := drain n q in (q, option_list x ++ xs)
  end.

(** Order of service of two items. *)
Definition served_before (x y : WorkItem) : Prop :=
  rank_le (item_rank (workItemKey x) x) (item_rank (workItemKey y) y).

Lemma wf_table_key q k x : wf q -> table q !! k = Some x -> k = workItemKey x.
Proof.
  intros (_ & [H1 H2] & _). unfold table. rewrite table_lookup.
  destruct (keys q !! k) as [p|] eqn:E; [|done]. intros [= <-].
  destruct (H2 _ _ E) as [Hin <-]. by apply H1.
Qed.

Lemma drain_spec n q : wf q -> Len q = n ->
  StronglySorted served_before (drain n q).2 /\
  (drain n q).2 ≡ₚ (map_to_list (table q)).*2 /\ Len (drain n q).1 = 0%nat.
Proof.
  revert q. induction n as [|n IH]; intros q Hw Hn; cbn [drain].
  - pose proof (wf_size q Hw) as Hsz. rewrite Hn in Hsz. apply map_size_empty_inv in Hsz.
    cbn [fst snd]. rewrite Hsz, map_to_list_empty. split_and!; [constructor|done|done].
  - pose proof (wf_size q Hw) as Hsz. destruct (Pop_refines q Hw) as [Hw' Hs].
    destruct (Pop q) as [q1 x]. cbn [fst snd] in *.
    inversion Hs as [Hm|k y Hf Hm Hy]; subst x.
    { exfalso. apply (f_equal size) in Hm. rewrite map_size_empty in Hm. lia. }
    pose proof (wf_size q1 Hw') as Hsz1. destruct Hf as [Hk Hf].
    assert (Hn1 : Len q1 = n) by (rewrite <- Hsz1, <- Hm, map_size_delete_Some, Hsz, Hn by eauto; lia).
    destruct (IH q1 Hw' Hn1) as (Hsort & Hperm & H0). destruct (drain n q1) as [q2 xs].
    cbn [fst snd option_list app] in *. rewrite <- Hm in Hperm.
    rewrite <- (map_to_list_delete _ _ _ Hk). cbn [fmap list_fmap snd]. split_and!; [|by rewrite Hperm|done].
    constructor; [done|]. rewrite Hperm. apply Forall_forall. intros z Hz.
    apply list_elem_of_fmap in Hz as ([k' z'] & -> & [Hne Hz]%elem_of_map_to_list%lookup_delete_Some).
    unfold served_before. cbn [snd]. rewrite <- (wf_table_key q k y Hw Hk), <- (wf_table_key q k' z' Hw Hz). by apply Hf.
Qed.

(** Emptying a queue hands out everything it holds, each item once, in the
    order of service: higher priority first, and equal priorities by key. *)
Theorem drain_in_order max ops :
  let q := (run ops (NewWithCapacity max)).1 in
  StronglySorted served_before (drain (Len q) q).2 /\
  (drain (Len q) q).2 ≡ₚ (map_to_list (table q)).*2 /\
  (Pop (drain (Len q) q).1).2 = None.
Proof.
  intros q. destruct (New_wf max) as [Hw _]. destruct (run_refines ops _ Hw) as (Hw' & _).
  fold q in Hw'. destruct (drain_spec _ q Hw' eq_refl) as (H1 & H2 & H3). split_and!; [done..|].
  unfold Pop. rewrite bool_decide_true; [done|exact H3].
Qed.

(** ** Repeated pushes

    An item is absorbed by a table that has its key with at least its
    priority, or that is full of items of at least its priority. *)
Definition absorbs (max : Z) (m : gmap string WorkItem) (i : WorkItem) : Prop :=
  match m !! workItemKey i with
  | Some x => wi_Priority i <= wi_Priority x
  | None => max <= Z.of_nat (size m) /\ forall k x, m !! k = Some x -> wi_Priority i <= wi_Priority x
  end.

Lemma last_priority m k x k' x' : last_of m k x -> m !! k' = Some x' -> wi_Priority x <= wi_Priority x'.
Proof.
  intros [_ Hl] Hx. specialize (Hl _ _ Hx). unfold rank_le, rank_lt, item_rank in Hl. cbn in Hl.
  destruct (Z.eqb_spec (wi_Priority x) (wi_Priority x')); lia.
Qed.

Lemma push_absorbs max i m m' : spec_push max i m m' -> absorbs max m' i.
Proof.
  intros H. unfold absorbs. destruct H as [x E|x E|E|k x E Hm Hl Hp|k x E Hm Hl Hp].
  - rewrite lookup_insert, decide_True by done. lia.
  - by rewrite E.
  - rewrite lookup_insert, decide_True by done. lia.
  - rewrite E. split; [done|]. intros k' x' Hx. pose proof (last_priority _ _ _ _ _ Hl Hx). lia.
  - rewrite lookup_insert, decide_True by done. lia.
Qed.

Lemma push_keeps_absorbed max i j m m' : wi_Priority i = wi_Priority j ->
  absorbs max m i -> spec_push max j m m' -> absorbs max m' i.
Proof.
  unfold absorbs. intros Hp Ha H. destruct H as [x E Hlt|x E|E Hlt|k x E Hm Hl Hlt|k x E Hm Hl Hlt]; [|done| |done|].
  - destruct (decide (workItemKey j = workItemKey i)) as [Eq|Ne].
    { rewrite Eq, lookup_insert, decide_True by done. lia. }
    rewrite lookup_insert_ne by done. destruct (m !! workItemKey i); [done|].
    destruct Ha as [Hm Hall]. split; [rewrite map_size_insert_Some by eauto; done|].
    intros k' x' [[<- <-]|[_ Hx]]%lookup_insert_Some; [lia|eauto].
  - destruct (decide (workItemKey j = workItemKey i)) as [Eq|Ne].
    { rewrite Eq, lookup_insert, decide_True by done. lia. }
    rewrite lookup_insert_ne by done. destruct (m !! workItemKey i); [done|]. destruct Ha. lia.
  - destruct (decide (workItemKey j = workItemKey i)) as [Eq|Ne].
    { rewrite Eq, lookup_insert, decide_True by done. lia. }
    rewrite lookup_insert_ne by done. destruct (decide (k = workItemKey i)) as [->|Hk].
    + destruct Hl as [Hx _]. rewrite Hx in Ha. lia.
    + rewrite lookup_delete_ne by done. destruct (m !! workItemKey i); [done|].
      destruct Ha as [_ Hall]. destruct Hl as [Hx _]. specialize (Hall _ _ Hx). lia.
Qed.

Lemma Push_absorbed i q : byKey q <> None -> wf q -> absorbs (maxItems q) (table q) i -> Push i q = q.
Proof.
  intros Hb Hw Ha. pose proof (wf_size q Hw) as Hsz. unfold absorbs in Ha. unfold Push, table in *.
  rewrite table_lookup in Ha. destruct q as [h [m|] mx nx]; [|done]. cbn in *.
  destruct (m !! workItemKey i) as [p|] eqn:E.
  - cbn in Ha. by destruct (Z.ltb_spec (wi_Priority (we_item (deref h p))) (wi_Priority i)); [lia|].
  - destruct Ha as [Hm Hall]. rewrite Hsz in Hm. unfold Len in Hm. cbn in Hm.
    rewrite (proj2 (Z.leb_le _ _)) by done. destruct (lowestPriorityEntry h) as [p|] eqn:El; [|done].
    destruct Hw as (_ & Hl & _). destruct (lowest_last _ _ _ Hl El) as [Hx _].
    rewrite (proj2 (Z.leb_le _ _)) by eauto. done.
Qed.

Definition push_all (l : list WorkItem) (q : WorkQueue) : WorkQueue := foldl (flip Push) q l.

Lemma push_all_spec l q : wf q -> (forall i j, i ∈ l -> j ∈ l -> wi_Priority i = wi_Priority j) ->
  let q' := push_all l q in
  wf q' /\ maxItems q' = maxItems q /\ (byKey q <> None -> byKey q' <> None) /\
  (forall i, i ∈ l -> absorbs (maxItems q) (table q') i) /\
  (forall i, (forall j, j ∈ l -> wi_Priority i = wi_Priority j) ->
     absorbs (maxItems q) (table q) i -> absorbs (maxItems q) (table q') i).
Proof.
  unfold push_all. revert q. induction l as [|x l IH]; intros q Hw Hsame; cbn [foldl].
  { split_and!; try done. intros i Hi. by apply not_elem_of_nil in Hi. }
  unfold flip at 2. destruct (Push_refines q x Hw) as [Hw1 Hs].
  destruct (IH (Push x q) Hw1) as (Hw2 & Hm & Hb & Hin & Hkeep).
  { intros i j Hi Hj. apply Hsame; by right. }
  rewrite Push_max in Hm, Hin, Hkeep. split; [done|]. split; [done|]. split.
  { intros _. apply Hb. unfold Push. by repeat case_match. }
  split.
  - intros i [->|Hi]%elem_of_cons; [|by apply Hin].
    apply Hkeep; [intros j Hj; apply Hsame; [by left|by right]|]. by eapply push_absorbs.
  - intros i Hi Ha. apply Hkeep; [intros j Hj; apply Hi; by right|].
    eapply push_keeps_absorbed; [|exact Ha|exact Hs]. apply Hi. by left.
Qed.

Lemma push_absorbed_all l q : byKey q <> None -> wf q ->
  (forall i, i ∈ l -> absorbs (maxItems q) (table q) i) -> push_all l q = q.
Proof.
  intros Hb Hw. unfold push_all. induction l as [|x l IH]; intros Ha; [done|]. cbn [foldl].
  unfold flip at 2. rewrite Push_absorbed; [|done|done|apply Ha; by left].
  apply IH. intros i Hi. apply Ha. by right.
Qed.

Lemma run_keys ops q : byKey q <> None -> byKey (run ops q).1 <> None.
Proof.
  revert q. induction ops as [|[i|] ops IH]; intros q Hq; cbn [run step]; [done| |].
  - specialize (IH (Push i q)). destruct (run ops (Push i q)). apply IH. unfold Push. by repeat case_match.
  - specialize (IH (Pop q).1). destruct (Pop q) as [q1 x] eqn:E. cbn [fst] in *.
    destruct (run ops q1). apply IH. unfold Pop in E. case_bool_decide; [by simplify_eq|].
    destruct (heap_Pop (q_heap q)). simplify_eq/=. by destruct (byKey q).
Qed.

(** The beats of the scheduler do not pile up: whatever was queued before, a
    second beat with no pop in between leaves the queue as the first left it. *)
Theorem beats_coalesce max ops zoneID store :
  let q := (run ops (NewWithCapacity max)).1 in
  let items := beat zoneID store in
  push_all items (push_all items q) = push_all items q.
Proof.
  intros q items. destruct (New_wf max) as [Hw _]. destruct (run_refines ops _ Hw) as (Hw' & _ & _).
  fold q in Hw'.
  assert (Hsame : forall i, i ∈ items -> wi_Priority i = PriorityNormal).
  { intros i Hi. unfold items, beat in Hi. by apply list_elem_of_fmap in Hi as (? & -> & _). }
  destruct (push_all_spec items q Hw') as (Hw2 & Hm & Hb & Hin & _).
  { intros i j Hi Hj. by rewrite (Hsame i), (Hsame j). }
  apply push_absorbed_all; [|done|intros i Hi; rewrite Hm; by apply Hin].
  apply Hb. by apply run_keys.
Qed.

End WorkQueue.
