(* ===== verification/Snapshot.v ===== *)
(** * Snapshots

    [internal/snapshot] (builder and canonical JSON) and
    [internal/snapshot/builder] (assembler): the normalized picture of a
    provider's resources that planning compares with the target.

    A decoded JSON document is a [value]; a [map[string]any] is the list of its
    entries in key order, so that equal maps are equal lists.  Numbers are the
    literals that [json.Decoder.UseNumber] keeps. *)

From S2P Require Import Prelude GoFmt Sha256 Events.

Local Open Scope Z_scope.

(** ** Decoded JSON and its canonical text *)
Module Canonical.
Import Json.

Inductive value :=
| VNull
| VBool (b : bool)
| VNumber (literal : string)
| VString (s : string)
| VArray (l : list value)
| VMap (m : list (string * value)).

(** [writeCanonicalJSON] on decoded documents: [json.Decoder] yields no
    [time.Time], and the structs of the default case have their own texts
    ([object_text], [snapshot_text]).  Decoded strings are valid UTF-8, which
    [json.Marshal] keeps. *)
Fixpoint writeCanonicalJSON (v : value) : string :=
  match v with
  | VNull => "null"
  | VString s => text_string s
  | VBool b => if b then "true" else "false"
  | VNumber lit => lit
  | VMap m =>
      let fields := isort (fun x y => str_lt x.1 y.1)
        ((fix go m := match m with
                      | [] => []
                      | (k, v) :: m' => (k, writeCanonicalJSON v) :: go m'
                      end) m) in
      "{" +:+ str_join "," ((fun kv => text_string kv.1 +:+ ":" +:+ kv.2) <$> fields) +:+ "}"
  | VArray l =>
      "[" +:+ str_join "," ((fix go l := match l with
                                         | [] => []
                                         | v :: l' => writeCanonicalJSON v :: go l'
                                         end) l) +:+ "]"
  end.

Definition CanonicalJSON (v : value) : string := writeCanonicalJSON v.

(** A map: [None] is the nil map, which is written as an empty object. *)
Definition attrs : Type := list (string * value).

Fixpoint lookup_key (k : string) (m : attrs) : option value :=
  match m with
  | [] => None
  | (k', v) :: m' => if bool_decide (k = k') then Some v else lookup_key k m'
  end.

(** [dst[k] = v], keeping the entries in key order. *)
Fixpoint insert_key (k : string) (v : value) (m : attrs) : attrs :=
  match m with
  | [] => [(k, v)]
  | (k', v') :: m' =>
      if bool_decide (k = k') then (k, v) :: m'
      else if str_lt k k' then (k, v) :: m
      else (k', v') :: insert_key k v m'
  end.

(** ** Well-formed documents *)
Definition number_chars : list Ascii.ascii := String.list_ascii_of_string "0123456789+-.eE".

Definition number_literal (s : string) : Prop :=
  s <> "" /\ Forall (fun a => a ∈ number_chars) (String.list_ascii_of_string s).

Definition key_lt (x y : string * value) : Prop := str_lt x.1 y.1 = true.

Inductive wf_value : value -> Prop :=
| wf_null : wf_value VNull
| wf_bool b : wf_value (VBool b)
| wf_number lit : number_literal lit -> wf_value (VNumber lit)
| wf_string s : wf_value (VString s)
| wf_array l : Forall wf_value l -> wf_value (VArray l)
| wf_map m : Forall (fun kv => wf_value kv.2) m -> StronglySorted key_lt m -> wf_value (VMap m).

(** Induction through the lists of a document. *)
Lemma value_ind' (P : value -> Prop) :
  P VNull -> (forall b, P (VBool b)) -> (forall s, P (VNumber s)) -> (forall s, P (VString s)) ->
  (forall l, Forall P l -> P (VArray l)) ->
  (forall m, Forall (fun kv => P kv.2) m -> P (VMap m)) -> forall v, P v.
Proof.
  intros H1 H2 H3 H4 H5 H6. fix IH 1. intros [| | | |l|m]; [done|done|done|done| |].
  - apply H5. induction l as [|v l IHl]; constructor; [apply IH|exact IHl].
  - apply H6. induction m as [|[k v] m IHm]; constructor; [apply IH|exact IHm].
Qed.

(** ** Texts that can be told apart *)
Lemma app_prefix s t x y : s +:+ x = t +:+ y -> has_prefix s t = true \/ has_prefix t s = true.
Proof.
  revert t. induction s as [|a s IH]; intros t H; [by left|].
  destruct t as [|b t]; [by right|]. rewrite !str_cons_app in H. injection H as -> H.
  cbn. rewrite bool_decide_true by done. by apply IH.
Qed.

Definition all_ascii : list Ascii.ascii := Ascii.ascii_of_nat <$> seq 0 256.

Lemma all_ascii_spec a : a ∈ all_ascii.
Proof.
  apply list_elem_of_fmap. exists (Ascii.nat_of_ascii a). split.
  - symmetry. apply Ascii.ascii_nat_embedding.
  - apply elem_of_seq. pose proof (Ascii.nat_ascii_bounded a). lia.
Qed.

(** No escape is a prefix of another one, or of a closing quote. *)
Lemma esc_free : forallb (fun a => negb (has_prefix (esc a) dquote) && negb (has_prefix dquote (esc a)) &&
    forallb (fun b => bool_decide (a = b) || negb (has_prefix (esc a) (esc b))) all_ascii) all_ascii = true.
Proof. by vm_compute. Qed.

Lemma esc_free_at a b : has_prefix (esc a) dquote = false /\ has_prefix dquote (esc a) = false /\
  (has_prefix (esc a) (esc b) = true -> a = b).
Proof.
  pose proof esc_free as H. rewrite forallb_forall in H.
  specialize (H a). rewrite <- list_elem_of_In in H. specialize (H (all_ascii_spec a)).
  bool_simpl. match goal with H : forallb _ _ = true |- _ => rewrite forallb_forall in H; specialize (H b) end.
  rewrite <- list_elem_of_In in *. split_and!; [done..|]. intros Hp.
  match goal with H : _ ∈ _ -> _ |- _ => specialize (H (all_ascii_spec b)) end.
  rewrite Hp, orb_false_r in *. by bool_simpl.
Qed.

Lemma esc_string_inj s t x y :
  esc_string s +:+ dquote +:+ x = esc_string t +:+ dquote +:+ y -> s = t /\ x = y.
Proof.
  revert t. induction s as [|a s IH]; intros [|b t]; cbn [esc_string];
    rewrite ?str_app_assoc, ?str_nil_app; intros H.
  - split; [done|]. exact (str_app_inv dquote _ _ H).
  - destruct (app_prefix _ _ _ _ H) as [E|E]; destruct (esc_free_at b b) as (? & ? & _); congruence.
  - destruct (app_prefix _ _ _ _ H) as [E|E]; destruct (esc_free_at a a) as (? & ? & _); congruence.
  - assert (a = b) as ->.
    { destruct (app_prefix _ _ _ _ H) as [E|E]; [by apply esc_free_at|symmetry; by apply esc_free_at]. }
    apply str_app_inv in H. by destruct (IH t H) as [-> ->].
Qed.

Lemma text_string_inj s t x y : text_string s +:+ x = text_string t +:+ y -> s = t /\ x = y.
Proof. unfold text_string. rewrite !str_app_assoc. intros H%str_app_inv. by apply esc_string_inj. Qed.

Lemma canon_array l :
  writeCanonicalJSON (VArray l) = "[" +:+ str_join "," (writeCanonicalJSON <$> l) +:+ "]".
Proof. done. Qed.

Definition field_text (kv : string * value) : string :=
  text_string kv.1 +:+ ":" +:+ writeCanonicalJSON kv.2.

Lemma str_lt_asym s t : str_lt s t = true -> str_lt t s = false.
Proof.
  intros H. destruct (str_lt t s) eqn:E; [|done].
  pose proof (str_lt_trans _ _ _ H E) as H'. by rewrite str_lt_irrefl in H'.
Qed.

(** A map in key order is written in that order. *)
Lemma canon_map m : StronglySorted key_lt m ->
  writeCanonicalJSON (VMap m) = "{" +:+ str_join "," (field_text <$> m) +:+ "}".
Proof.
  intros Hs. cbn [writeCanonicalJSON]. f_equal. f_equal. f_equal.
  set (go := fix go m := match m with [] => [] | (k, v) :: m' => (k, writeCanonicalJSON v) :: go m' end).
  assert (Hgo : go m = prod_map id writeCanonicalJSON <$> m).
  { clear Hs. induction m as [|[k v] m IH]; [done|]. cbn. by rewrite IH. }
  fold go. rewrite Hgo, isort_id.
  - rewrite <- list_fmap_compose. done.
  - clear Hgo. induction Hs as [|x m Hs IH Hall]; cbn; constructor; [done|].
    apply Forall_fmap. eapply Forall_impl; [exact Hall|]. intros y Hy. cbn. by apply str_lt_asym.
Qed.

(** The first character tells the kind of a value. *)
Definition tag (v : value) : nat :=
  match v with VNull => 0 | VBool _ => 1 | VNumber _ => 2 | VString _ => 3 | VArray _ => 4 | VMap _ => 5 end.

Definition kind (a : Ascii.ascii) : nat :=
  if bool_decide (a = "n"%char) then 0
  else if bool_decide (a = "t"%char \/ a = "f"%char) then 1
  else if bool_decide (a ∈ number_chars) then 2
  else if bool_decide (a = Ascii.ascii_of_N 34) then 3
  else if bool_decide (a = "["%char) then 4
  else if bool_decide (a = "{"%char) then 5 else 6.

Lemma canon_first v : wf_value v -> exists a s, writeCanonicalJSON v = String a s /\ kind a = tag v.
Proof.
  intros Hv. destruct v as [|[]|lit|s|l|m]; try (eexists _, _; by split).
  - inv Hv as [|?|? [Hne Hall]|?|?|?]. destruct lit as [|a lit]; [done|]. inv Hall as [|? ? Ha _].
    exists a, lit. split; [done|]. cbn.
    assert (Hc : Forall (fun a => kind a = 2%nat) number_chars) by (repeat (constructor; [by vm_compute|]); constructor).
    rewrite Forall_forall in Hc. by apply Hc.
Qed.

Definition closing : list Ascii.ascii := [","%char; "]"%char; "}"%char].

Definition delim (r : string) : Prop :=
  match r with "" => True | String a _ => a ∈ closing end.

Lemma number_inj s t x y : Forall (fun a => a ∈ number_chars) (String.list_ascii_of_string s) ->
  Forall (fun a => a ∈ number_chars) (String.list_ascii_of_string t) ->
  delim x -> delim y -> s +:+ x = t +:+ y -> s = t /\ x = y.
Proof.
  assert (Hd : forall a, a ∈ number_chars -> a ∈ closing -> False).
  { intros a Ha Hc. assert (H : Forall (fun a => a ∉ closing) number_chars) by (apply (bool_decide_unpack _); by vm_compute).
    rewrite Forall_forall in H. by apply (H a). }
  revert t. induction s as [|a s IH]; intros [|b t] Hs Ht Hx Hy; rewrite ?str_cons_app, ?str_nil_app; intros H.
  - done.
  - subst x. inv Ht. exfalso. by eapply Hd.
  - subst y. inv Hs. exfalso. by eapply Hd.
  - injection H as -> H. inv Hs. inv Ht. by destruct (IH t) as [-> ->].
Qed.

Definition join_tail (l : list string) : string :=
  match l with [] => "" | _ => "," +:+ str_join "," l end.

Lemma join_cons x l : str_join "," (x :: l) = x +:+ join_tail l.
Proof.
  destruct l as [|y l]; [|done]. cbn. clear. induction x as [|a x IH]; [done|].
  rewrite str_cons_app. by f_equal.
Qed.

Lemma tail_delim l (c : Ascii.ascii) r : c ∈ closing -> delim (join_tail l +:+ String c r).
Proof. intros Hc. destruct l; [exact Hc|]. unfold join_tail. rewrite str_app_assoc. by left. Qed.

(** Lists of texts that can be told apart, up to a closing bracket. *)
Section items_inj.
Context {A : Type} (f : A -> string) (c : Ascii.ascii).
Context (Hc : c ∈ ["]"%char; "}"%char]).

Lemma items_inj l1 l2 r1 r2 :
  Forall (fun x => forall y, y ∈ l2 -> forall r1 r2, delim r1 -> delim r2 ->
                   f x +:+ r1 = f y +:+ r2 -> x = y /\ r1 = r2) l1 ->
  (forall x, x ∈ l1 ++ l2 -> match f x with "" => False | String a _ => a ∉ closing end) ->
  str_join "," (f <$> l1) +:+ String c r1 = str_join "," (f <$> l2) +:+ String c r2 ->
  l1 = l2 /\ r1 = r2.
Proof.
  assert (Hcl : c ∈ closing) by (unfold closing; set_solver).
  revert l2. induction l1 as [|x l1 IH]; intros [|y l2] Hinj Hf; cbn [fmap list_fmap]; rewrite ?join_cons, ?str_app_assoc.
  - intros H. rewrite !str_nil_app in H. by injection H as ->.
  - intros H. exfalso. specialize (Hf y ltac:(set_solver)). rewrite str_nil_app in H.
    destruct (f y) as [|a s]; [done|]. rewrite str_cons_app in H. injection H as <- _. by apply Hf.
  - intros H. exfalso. specialize (Hf x ltac:(set_solver)). rewrite str_nil_app in H.
    destruct (f x) as [|a s]; [done|]. rewrite str_cons_app in H. injection H as -> _. by apply Hf.
  - intros H. inv Hinj as [|? ? Hx Hrest].
    destruct (Hx y ltac:(left) _ _ (tail_delim _ c r1 Hcl) (tail_delim _ c r2 Hcl) H) as [<- Ht].
    destruct (IH l2) as [-> ->]; [| | |done].
    + eapply Forall_impl; [exact Hrest|]. intros z Hz w Hw. apply Hz. by right.
    + intros z Hz. apply Hf. set_solver.
    + destruct l1 as [|x1 l1], l2 as [|y1 l2]; cbn [fmap list_fmap join_tail] in Ht |- *;
        rewrite ?str_app_assoc, ?str_nil_app in Ht; [done| | |].
      * exfalso. rewrite str_cons_app in Ht. injection Ht as -> _. set_solver.
      * exfalso. rewrite str_cons_app in Ht. injection Ht as <- _. set_solver.
      * exact (str_app_inv "," _ _ Ht).
Qed.
End items_inj.

Lemma kind_not_closing a : (kind a < 6)%nat -> a ∉ closing.
Proof. intros Ha Hc. unfold closing in Hc. rewrite !elem_of_cons, elem_of_nil in Hc. destruct Hc as [->|[->|[->|[]]]]; vm_compute in Ha; lia. Qed.

Lemma first_not_closing v : wf_value v ->
  match writeCanonicalJSON v with "" => False | String a _ => a ∉ closing end.
Proof.
  intros Hv. destruct (canon_first v Hv) as (a & s & -> & Hk). apply kind_not_closing.
  rewrite Hk. destruct v; cbn; lia.
Qed.

Lemma canon_tag v w x y : wf_value v -> wf_value w ->
  writeCanonicalJSON v +:+ x = writeCanonicalJSON w +:+ y -> tag v = tag w.
Proof.
  intros Hv Hw H. destruct (canon_first v Hv) as (a & s & E1 & <-), (canon_first w Hw) as (b & t & E2 & <-).
  rewrite E1, E2, !str_cons_app in H. by injection H as ->.
Qed.

Lemma canon_inj v : wf_value v -> forall w r1 r2, wf_value w -> delim r1 -> delim r2 ->
  writeCanonicalJSON v +:+ r1 = writeCanonicalJSON w +:+ r2 -> v = w /\ r1 = r2.
Proof.
  induction v as [|b|lit|s|l IH|m IH] using value_ind'; intros Hv w r1 r2 Hw Hr1 Hr2 H;
    pose proof (canon_tag _ _ _ _ Hv Hw H) as Htag; destruct w as [|b'|lit'|s'|l'|m']; try done; clear Htag.
  - split; [done|]. exact (str_app_inv "null" _ _ H).
  - destruct b, b'; try done; (split; [done|]).
    + exact (str_app_inv "true" _ _ H).
    + exact (str_app_inv "false" _ _ H).
  - inv Hv as [|?|? [_ H1]|?|?|?]. inv Hw as [|?|? [_ H2]|?|?|?].
    by destruct (number_inj _ _ _ _ H1 H2 Hr1 Hr2 H) as [-> ->].
  - by destruct (text_string_inj _ _ _ _ H) as [-> ->].
  - rewrite !canon_array, !str_app_assoc in H. apply (str_app_inv "[") in H.
    inv Hv as [|?|?|?|? Hl|?]. inv Hw as [|?|?|?|? Hl'|?].
    destruct (items_inj writeCanonicalJSON "]"%char ltac:(set_solver) l l' r1 r2) as [-> ->]; [| |exact H|done].
    + rewrite Forall_forall in IH, Hl, Hl' |- *. intros x Hx y Hy. intros. eapply IH; eauto.
    + rewrite Forall_forall in Hl, Hl'. intros x [Hx|Hx]%elem_of_app; by apply first_not_closing; auto.
  - inversion Hv as [| | | | |? Hm Hsort]; subst. inversion Hw as [| | | | |? Hm' Hsort']; subst.
    rewrite !canon_map, !str_app_assoc in H by done. apply (str_app_inv "{") in H.
    destruct (items_inj field_text "}"%char ltac:(set_solver) m m' r1 r2) as [-> ->]; [| |exact H|done].
    + rewrite Forall_forall in IH, Hm, Hm' |- *. intros [k x] Hx [k' y] Hy s1 s2 Hs1 Hs2 E.
      unfold field_text in E. cbn in E. rewrite !str_app_assoc in E.
      destruct (text_string_inj _ _ _ _ E) as [-> E']. apply (str_app_inv ":") in E'.
      destruct (IH _ Hx (Hm _ Hx) y s1 s2 (Hm' _ Hy) Hs1 Hs2 E') as [E1 ->]. cbn in E1. by rewrite E1.
    + intros [k x] _. cbn. intros Hin. unfold closing in Hin. by vm_compute in Hin; set_solver.
Qed.

Lemma CanonicalJSON_inj v w : wf_value v -> wf_value w -> CanonicalJSON v = CanonicalJSON w -> v = w.
Proof.
  intros Hv Hw H. destruct (canon_inj v Hv w "" "" Hw I I) as [E _]; [|exact E].
  unfold CanonicalJSON in H. by rewrite H.
Qed.

(** C36: The canonical text identifies a document: two well-formed documents with
    the same canonical JSON are equal. *)
Theorem CanonicalJSON_injective v w : wf_value v -> wf_value w ->
  CanonicalJSON v = CanonicalJSON w <-> v = w.
Proof. intros Hv Hw. split; [by apply CanonicalJSON_inj|by intros ->]. Qed.

Lemma CanonicalJSON_injective_witness :
  CanonicalJSON (VMap [("a", VString "1"); ("b", VNumber "1")]) <>
  CanonicalJSON (VMap [("a", VNumber "1"); ("b", VString "1")]).
Proof.
  intros H. apply CanonicalJSON_injective in H; [done|..];
    repeat constructor; try (by vm_compute); cbn; apply (bool_decide_unpack _); by vm_compute.
Defined.

End Canonical.

(** ** Snapshots ([snapshot.go]) *)
Module Snapshot.
Import Json Canonical.

Definition SnapshotVersion : Z := 1.

Definition ResourceIPAccessRules : string := "ip_access_rules".
Definition ResourceLists : string := "lists".
Definition ResourceListItems : string := "list_items".
Definition ResourceFilters : string := "filters".
Definition ResourceRulesets : string := "rulesets".
Definition ResourceRulesetRules : string := "ruleset_rules".

Record ObjectMetadata := { om_SourcePage : Z; om_CapturedAt : Z; om_SchemaVersion : Z }.

Record NormalizedObject := {
  ObjectID : string;
  ObjectType : string;
  StableIdentityKey : string;
  Attributes : attrs;
  no_Metadata : ObjectMetadata;
}.

Record SnapshotSource := { src_Provider : string; src_Endpoint : string; src_APIVersion : string; src_CaptureMode : string }.
Record ScopeMetadata := { AccountIDHash : string; ZoneIDHash : string; ScopeType : string }.
Record PaginationMetadata := {
  Paginated : bool; PageCount : Z; TotalExpected : Z; TotalObserved : Z;
  SequenceComplete : bool; CursorChain : list string;
}.
Record IntegrityMetadata := { SnapshotChecksum : string; CanonicalHash : string; ObjectHashes : list string }.
Record ProvenanceMetadata := { FixtureID : string; ReplayID : string; GeneratedBy : string; GeneratedAt : Z }.

(** [Collection] is the list of objects; [ObjectCount] is kept beside it. *)
Record Snapshot := {
  SnapshotID : string;
  sn_Version : Z;
  sn_CreatedAt : Z;
  sn_Source : SnapshotSource;
  sn_ResourceType : string;
  sn_Scope : ScopeMetadata;
  sn_Pagination : PaginationMetadata;
  ObjectCount : Z;
  Objects : list NormalizedObject;
  sn_Integrity : IntegrityMetadata;
  sn_Provenance : ProvenanceMetadata;
}.

Definition set_id (id : string) (s : Snapshot) : Snapshot :=
  {| SnapshotID := id; sn_Version := sn_Version s; sn_CreatedAt := sn_CreatedAt s;
     sn_Source := sn_Source s; sn_ResourceType := sn_ResourceType s; sn_Scope := sn_Scope s;
     sn_Pagination := sn_Pagination s; ObjectCount := ObjectCount s; Objects := Objects s;
     sn_Integrity := sn_Integrity s; sn_Provenance := sn_Provenance s |}.

Definition set_integrity (i : IntegrityMetadata) (s : Snapshot) : Snapshot :=
  {| SnapshotID := SnapshotID s; sn_Version := sn_Version s; sn_CreatedAt := sn_CreatedAt s;
     sn_Source := sn_Source s; sn_ResourceType := sn_ResourceType s; sn_Scope := sn_Scope s;
     sn_Pagination := sn_Pagination s; ObjectCount := ObjectCount s; Objects := Objects s;
     sn_Integrity := i; sn_Provenance := sn_Provenance s |}.

(** *** JSON of the structs, which [CanonicalJSON] leaves to [encoding/json] *)
Definition struct_text (fs : list (string * string)) : string :=
  "{" +:+ str_join "," ((fun kv => text_string kv.1 +:+ ":" +:+ kv.2) <$> fs) +:+ "}".
Definition array_text (l : list string) : string := "[" +:+ str_join "," l +:+ "]".
Definition bool_text (b : bool) : string := if b then "true" else "false".
Definition time_text (t : Z) : string := dquote +:+ text_time t +:+ dquote.
Definition omit_empty (k s : string) : list (string * string) :=
  if bool_decide (s = "") then [] else [(k, text_string s)].

Definition object_text (o : NormalizedObject) : string :=
  struct_text [("object_id", text_string (ObjectID o)); ("object_type", text_string (ObjectType o));
    ("stable_identity_key", text_string (StableIdentityKey o));
    ("attributes", writeCanonicalJSON (VMap (Attributes o)));
    ("metadata", struct_text [("source_page", GoFmt.fmt_d (om_SourcePage (no_Metadata o)));
       ("captured_at", time_text (om_CapturedAt (no_Metadata o)));
       ("schema_version", GoFmt.fmt_d (om_SchemaVersion (no_Metadata o)))])].

Definition objects_text (l : list NormalizedObject) : string := array_text (object_text <$> l).

Definition snapshot_text (s : Snapshot) : string :=
  struct_text [("snapshot_id", text_string (SnapshotID s)); ("snapshot_version", GoFmt.fmt_d (sn_Version s));
    ("created_at", time_text (sn_CreatedAt s));
    ("source", struct_text [("provider", text_string (src_Provider (sn_Source s)));
       ("endpoint", text_string (src_Endpoint (sn_Source s)));
       ("api_version", text_string (src_APIVersion (sn_Source s)));
       ("capture_mode", text_string (src_CaptureMode (sn_Source s)))]);
    ("resource_type", text_string (sn_ResourceType s));
    ("scope", struct_text [("account_id_hash", text_string (AccountIDHash (sn_Scope s)));
       ("zone_id_hash", text_string (ZoneIDHash (sn_Scope s)));
       ("scope_type", text_string (ScopeType (sn_Scope s)))]);
    ("pagination", let p := sn_Pagination s in
       struct_text ([("paginated", bool_text (Paginated p)); ("page_count", GoFmt.fmt_d (PageCount p));
         ("total_expected", GoFmt.fmt_d (TotalExpected p)); ("total_observed", GoFmt.fmt_d (TotalObserved p));
         ("sequence_complete", bool_text (SequenceComplete p))] ++
         match CursorChain p with [] => [] | l => [("cursor_chain", array_text (text_string <$> l))] end));
    ("collection", struct_text [("object_count", GoFmt.fmt_d (ObjectCount s)); ("objects", objects_text (Objects s))]);
    ("integrity", struct_text [("snapshot_checksum", text_string (SnapshotChecksum (sn_Integrity s)));
       ("canonical_hash", text_string (CanonicalHash (sn_Integrity s)));
       ("object_hashes", match ObjectHashes (sn_Integrity s) with
                         | [] => "null" | l => array_text (text_string <$> l) end)]);
    ("provenance", let p := sn_Provenance s in
       struct_text (omit_empty "fixture_id" (FixtureID p) ++ omit_empty "replay_id" (ReplayID p) ++
         [("generated_by", text_string (GeneratedBy p)); ("generated_at", time_text (GeneratedAt p))]))].

Definition calculateIntegrity (s : Snapshot) : IntegrityMetadata :=
  {| ObjectHashes := (fun o => Sha256.hex_digest (CanonicalJSON (VMap (Attributes o)) +:+ StableIdentityKey o))
                       <$> Objects s;
     CanonicalHash := Sha256.hex_digest
       (struct_text [("resource_type", text_string (sn_ResourceType s)); ("objects", objects_text (Objects s))]);
     SnapshotChecksum := Sha256.hex_digest (snapshot_text s) |}.

Definition zero_integrity : IntegrityMetadata := {| SnapshotChecksum := ""; CanonicalHash := ""; ObjectHashes := [] |}.

(** The checksum is taken before the integrity block is filled in, and names
    the snapshot when it has no id. *)
Definition finish (integrity : Snapshot -> IntegrityMetadata) (s : Snapshot) : Snapshot :=
  let s := set_integrity (integrity s) s in
  if bool_decide (SnapshotID s = "")
  then set_id ("snap-" +:+ String.substring 0 16 (SnapshotChecksum (sn_Integrity s))) s else s.

End Snapshot.

(** ** Builder ([builder.go]): from raw JSON *)
Module Builder.
Import Json Canonical Snapshot.

Record RawScope := { rs_AccountID : string; rs_ZoneID : string; rs_ScopeType : string }.

(** [in_RawJSON] is the document in the raw bytes: [None] when they are empty,
    an error when they are not one JSON document ([decodeStrict]). *)
Record BuilderInput := {
  in_SnapshotID : string;
  in_CreatedAt : Z;
  in_Source : SnapshotSource;
  in_ResourceType : string;
  in_Scope : RawScope;
  in_Pagination : PaginationMetadata;
  in_Provenance : ProvenanceMetadata;
  in_RawJSON : option (result value);
  in_ObjectsPath : list string;
  in_CapturedAt : Z;
  in_SourcePage : Z;
  in_SchemaVersion : Z;
}.

Local Open Scope go_scope.

(** Keys in messages are quoted; they are taken to need no escapes. *)
Fixpoint walk_path (current : value) (path : list string) : result value :=
  match path with
  | [] => Ok current
  | key :: path =>
      match current with
      | VMap m => match lookup_key key m with
                  | Some next => walk_path next path
                  | None => Err ("snapshot.extractObjects: key " +:+ dquote +:+ key +:+ dquote +:+ " not found in path")
                  end
      | _ => Err ("snapshot.extractObjects: path traversal failed at " +:+ dquote +:+ key +:+ dquote)
      end
  end.

Definition extractObjects (root : value) (path : list string) : result (list value) :=
  current <-? walk_path root path;
  match current with
  | VArray l => Ok l
  | VMap m => Ok [VMap m]
  | VNull => Ok []
  | _ => Err "snapshot.extractObjects: extracted objects must be an array or a single object"
  end.

(** [cloneMap], [cloneSlice] and [cloneValue] rebuild a value entry by entry. *)
Fixpoint cloneValue (v : value) : value :=
  match v with
  | VMap m => VMap ((fix go m := match m with
                                 | [] => []
                                 | (k, v) :: m' => (k, cloneValue v) :: go m'
                                 end) m)
  | VArray l => VArray ((fix go l := match l with [] => [] | v :: l' => cloneValue v :: go l' end) l)
  | _ => v
  end.

Definition normalizeValue (v : value) : value :=
  match v with
  | VString s => VString (trim_space s)
  | VMap _ | VArray _ => cloneValue v
  | _ => v
  end.

Definition copy_step (src : attrs) (dst : attrs) (k : string) : attrs :=
  match lookup_key k src with
  | Some v => insert_key k (normalizeValue v) dst
  | None => dst
  end.

Definition copyKeys (dst src : attrs) (keys : list string) : attrs := foldl (copy_step src) dst keys.

Definition volatile_key (k : string) : bool :=
  let kl := to_lower k in
  str_contains kl "time" || str_contains kl "date" || bool_decide (kl = "id") ||
  bool_decide (kl = "modified_on") || bool_decide (kl = "created_on").

Definition filterAttributes (rt : string) (raw : attrs) : attrs :=
  if bool_decide (rt = ResourceIPAccessRules) then
    let out := copyKeys [] raw ["mode"; "notes"] in
    match lookup_key "configuration" raw with
    | Some (VMap config) => insert_key "configuration" (VMap (copyKeys [] config ["target"; "value"])) out
    | _ => out
    end
  else if bool_decide (rt = ResourceListItems) then copyKeys [] raw ["ip"; "comment"]
  else if bool_decide (rt = ResourceLists) then copyKeys [] raw ["name"; "description"; "kind"]
  else List.filter (fun kv => negb (volatile_key kv.1)) raw.

(** A type assertion to string with its zero value. *)
Definition string_at (k : string) (m : attrs) : string :=
  match lookup_key k m with Some (VString s) => s | _ => "" end.

Definition derivedSIK (rt : string) (a : attrs) : string :=
  "derived:" +:+ String.substring 0 32 (Sha256.hex_digest (rt +:+ ":" +:+ CanonicalJSON (VMap a))).

Definition generateSIK (rt : string) (a : attrs) : string :=
  if bool_decide (rt = ResourceIPAccessRules) then
    match lookup_key "configuration" a with
    | Some (VMap config) =>
        "ip:" +:+ string_at "target" config +:+ ":" +:+ string_at "value" config +:+ ":" +:+ string_at "mode" a
    | _ => derivedSIK rt a
    end
  else if bool_decide (rt = ResourceListItems) then
    match lookup_key "ip" a with Some (VString ip) => "list_item:" +:+ ip | _ => derivedSIK rt a end
  else if bool_decide (rt = ResourceLists) then
    match lookup_key "name" a with Some (VString name) => "list:" +:+ name | _ => derivedSIK rt a end
  else derivedSIK rt a.

Definition hashID (id : string) : string :=
  if bool_decide (id = "") then "" else String.substring 0 32 (Sha256.hex_digest id).

Definition normalizeObject (i : BuilderInput) (capturedAt : Z) (rawAttrs : attrs) : NormalizedObject :=
  let a := filterAttributes (in_ResourceType i) rawAttrs in
  {| ObjectID := string_at "id" rawAttrs; ObjectType := in_ResourceType i;
     StableIdentityKey := generateSIK (in_ResourceType i) a; Attributes := a;
     no_Metadata := {| om_SourcePage := in_SourcePage i; om_CapturedAt := capturedAt;
                       om_SchemaVersion := in_SchemaVersion i |} |}.

Fixpoint normalizeObjects (i : BuilderInput) (capturedAt : Z) (n : nat) (items : list value) : result (list NormalizedObject) :=
  match items with
  | [] => Ok []
  | VMap rawAttrs :: items =>
      rest <-? normalizeObjects i capturedAt (S n) items;
      Ok (normalizeObject i capturedAt rawAttrs :: rest)
  | _ :: _ => Err ("snapshot.normalizeObjects: item " +:+ GoFmt.fmt_d (Z.of_nat n) +:+ " is not an object")
  end.

Definition object_lt (a b : NormalizedObject) : bool :=
  if negb (bool_decide (StableIdentityKey a = StableIdentityKey b))
  then str_lt (StableIdentityKey a) (StableIdentityKey b)
  else str_lt (CanonicalJSON (VMap (Attributes a))) (CanonicalJSON (VMap (Attributes b))).

Definition op_build : string := "snapshot.Builder.Build".
Definition wrap_result {A} (op : string) (r : result A) : result A :=
  match r with Ok a => Ok a | Err m => Err (wrap_msg op m) end.

Definition set_generated (t : Z) (p : ProvenanceMetadata) : ProvenanceMetadata :=
  {| FixtureID := FixtureID p; ReplayID := ReplayID p; GeneratedBy := GeneratedBy p; GeneratedAt := t |}.

Definition Build (now : Z) (i : BuilderInput) : result Snapshot :=
  match in_RawJSON i with
  | None => Err (wrap_msg op_build "raw JSON is required")
  | Some root =>
      if bool_decide (trim_space (src_Provider (in_Source i)) = "")
      then Err (wrap_msg op_build "source provider is required")
      else
        let createdAt := if is_zero_time (in_CreatedAt i) then now else in_CreatedAt i in
        let capturedAt := if is_zero_time (in_CapturedAt i) then createdAt else in_CapturedAt i in
        root <-? wrap_result op_build root;
        items <-? wrap_result op_build (extractObjects root (in_ObjectsPath i));
        objects <-? wrap_result op_build (normalizeObjects i capturedAt 0 items);
        let objects := isort object_lt objects in
        let prov := in_Provenance i in
        let prov := if is_zero_time (GeneratedAt prov) then set_generated createdAt prov else prov in
        Ok (finish calculateIntegrity {| SnapshotID := in_SnapshotID i; sn_Version := SnapshotVersion; sn_CreatedAt := createdAt;
             sn_Source := in_Source i; sn_ResourceType := in_ResourceType i;
             sn_Scope := {| AccountIDHash := hashID (rs_AccountID (in_Scope i));
                            ZoneIDHash := hashID (rs_ZoneID (in_Scope i));
                            ScopeType := rs_ScopeType (in_Scope i) |};
             sn_Pagination := in_Pagination i; ObjectCount := Z.of_nat (length objects);
             Objects := objects; sn_Integrity := zero_integrity; sn_Provenance := prov |})
  end.

(** *** Maps in key order *)
Lemma lookup_key_Forall (P : value -> Prop) k m v :
  Forall (fun kv => P kv.2) m -> lookup_key k m = Some v -> P v.
Proof.
  induction 1 as [|[k' v'] m Hv Hm IH]; cbn; [done|]. case_bool_decide; [by intros [= <-]|auto].
Qed.

Lemma insert_key_Forall (P : string * value -> Prop) k v m :
  P (k, v) -> Forall P m -> Forall P (insert_key k v m).
Proof.
  intros Hv. induction 1 as [|[k' v'] m Hx Hm IH]; cbn; [by constructor|].
  repeat case_match; repeat constructor; auto.
Qed.

Lemma insert_key_sorted k v m : StronglySorted key_lt m -> StronglySorted key_lt (insert_key k v m).
Proof.
  induction 1 as [|[k' v'] m Hs IH Hall]; cbn; [repeat constructor|].
  case_bool_decide as Hk; [subst; by constructor|]. destruct (str_lt k k') eqn:Hlt.
  - constructor; [by constructor|]. constructor; [done|]. eapply Forall_impl; [exact Hall|].
    intros [k2 v2] Hy. eapply str_lt_trans; [exact Hlt|exact Hy].
  - constructor; [done|]. apply insert_key_Forall; [|done]. unfold key_lt. cbn.
    destruct (str_lt k' k) eqn:E; [done|]. exfalso. apply Hk. by apply str_lt_total.
Qed.

Lemma lookup_insert_key k k' v m :
  lookup_key k (insert_key k' v m) = if bool_decide (k = k') then Some v else lookup_key k m.
Proof.
  induction m as [|[k1 v1] m IH]; cbn; [done|].
  destruct (decide (k' = k1)) as [->|Hne].
  { rewrite (bool_decide_true (k1 = k1)) by done. cbn. by destruct (bool_decide (k = k1)). }
  rewrite (bool_decide_false (k' = k1)) by done.
  destruct (str_lt k' k1); cbn; [done|]. rewrite IH.
  repeat case_bool_decide; subst; done.
Qed.

Lemma cloneValue_id v : cloneValue v = v.
Proof.
  induction v as [| | | |l IH|m IH] using value_ind'; try done; cbn; f_equal.
  - induction IH as [|x l Hx Hl IH']; [done|]. by rewrite Hx, IH'.
  - induction IH as [|[k x] l Hx Hl IH']; [done|]. cbn in Hx. by rewrite Hx, IH'.
Qed.

Lemma normalizeValue_wf v : wf_value v -> wf_value (normalizeValue v).
Proof. intros Hv. destruct v; cbn [normalizeValue]; rewrite ?cloneValue_id; try done. constructor. Qed.

Lemma wf_map_iff m : wf_value (VMap m) <-> Forall (fun kv => wf_value kv.2) m /\ StronglySorted key_lt m.
Proof. split; [by inversion 1|]. intros [? ?]. by constructor. Qed.

Lemma insert_key_wf k v m : wf_value v -> wf_value (VMap m) -> wf_value (VMap (insert_key k v m)).
Proof.
  rewrite !wf_map_iff. intros Hv [H1 H2]. split; [|by apply insert_key_sorted].
  by apply (insert_key_Forall (fun kv => wf_value kv.2)).
Qed.

Lemma copyKeys_wf dst src keys : wf_value (VMap src) -> wf_value (VMap dst) ->
  wf_value (VMap (copyKeys dst src keys)).
Proof.
  intros Hs. unfold copyKeys. revert dst. induction keys as [|k keys IH]; intros dst Hd; cbn; [done|].
  apply IH. unfold copy_step. destruct (lookup_key k src) as [v|] eqn:E; [|done].
  apply insert_key_wf; [|done]. apply normalizeValue_wf.
  apply wf_map_iff in Hs as [Hs _]. by eapply lookup_key_Forall.
Qed.

Lemma empty_map_wf : wf_value (VMap []).
Proof. constructor; constructor. Qed.
#[local] Hint Resolve empty_map_wf copyKeys_wf : secauto.

Lemma filterAttributes_wf rt raw : wf_value (VMap raw) -> wf_value (VMap (filterAttributes rt raw)).
Proof.
  intros Hr. unfold filterAttributes. repeat case_bool_decide; eauto with secauto.
  - destruct (lookup_key "configuration" raw) as [[| | | | |config]|] eqn:E; eauto with secauto.
    apply insert_key_wf; [|eauto with secauto]. apply copyKeys_wf; [|eauto with secauto].
    apply wf_map_iff in Hr as [Hr _]. by eapply (lookup_key_Forall wf_value).
  - apply wf_map_iff in Hr as [Hv Hsort]. apply wf_map_iff. split.
    + rewrite Forall_forall in Hv |- *. intros x [Hx _]%elem_of_lfilter. auto.
    + clear Hv. induction Hsort as [|x m Hs IH Hall]; cbn; [constructor|].
      destruct (negb _); [|done]. constructor; [done|].
      rewrite Forall_forall in Hall |- *. intros y [Hy _]%elem_of_lfilter. auto.
Qed.

Lemma normalizeObjects_spec i t n items objs : normalizeObjects i t n items = Ok objs ->
  exists raws, items = VMap <$> raws /\ objs = normalizeObject i t <$> raws.
Proof.
  revert n objs. induction items as [|v items IH]; intros n objs; cbn.
  - intros [= <-]. by exists [].
  - destruct v as [| | | | |raw]; try done.
    destruct (normalizeObjects i t (S n) items) as [rest|] eqn:E; [|done]. cbn. intros [= <-].
    destruct (IH _ _ E) as (raws & -> & ->). by exists (raw :: raws).
Qed.

(** *** Order of the objects *)
Definition sort_key (o : NormalizedObject) : string * string :=
  (StableIdentityKey o, CanonicalJSON (VMap (Attributes o))).

Definition sort_key_le (x y : string * string) : Prop :=
  if decide (y.1 = x.1) then str_lt y.2 x.2 = false else str_lt y.1 x.1 = false.

#[local] Instance sort_key_le_trans : Transitive sort_key_le.
Proof.
  unfold sort_key_le. intros [a x] [b y] [c z]. cbn. intros H1 H2.
  destruct (decide (b = a)) as [->|Hba], (decide (c = a)) as [->|Hca]; repeat case_decide; subst; try done.
  - by eapply str_le_trans.
  - exfalso. apply Hba. apply str_lt_total; done.
  - by eapply str_le_trans.
Qed.

#[local] Instance sort_key_le_antisym : AntiSymm (=) sort_key_le.
Proof.
  unfold sort_key_le. intros [a x] [b y]. cbn. intros H1 H2.
  destruct (decide (b = a)) as [->|Hba].
  - rewrite decide_True in H2 by done. f_equal. by apply str_lt_total.
  - rewrite decide_False in H2 by done. exfalso. apply Hba. by apply str_lt_total.
Qed.

Lemma object_lt_key a b : object_lt a b = false <-> sort_key_le (sort_key b) (sort_key a).
Proof.
  unfold object_lt, sort_key_le, sort_key. cbn. repeat case_match; bool_simpl; try done.
Qed.

Lemma objects_sorted l : StronglySorted (fun a b => sort_key_le (sort_key a) (sort_key b)) (isort object_lt l).
Proof.
  apply isort_sorted.
  - intros x y H. apply object_lt_key. unfold object_lt in *.
    destruct (decide (StableIdentityKey y = StableIdentityKey x)) as [E|E].
    + rewrite E, bool_decide_true in H |- * by done. cbn in *. by apply str_lt_asym.
    + rewrite bool_decide_false in H |- * by congruence. cbn in *. by apply str_lt_asym.
  - intros x y H. by apply object_lt_key.
  - intros a b c. by transitivity (sort_key b).
Qed.

(** Objects that differ only in the order in which they were listed are sorted
    into the same keys and attribute texts. *)
Lemma sort_keys_perm l1 l2 : sort_key <$> l1 ≡ₚ sort_key <$> l2 ->
  sort_key <$> isort object_lt l1 = sort_key <$> isort object_lt l2.
Proof.
  intros Hp. apply (StronglySorted_unique sort_key_le).
  - eapply StronglySorted_fmap; [|apply objects_sorted]. done.
  - eapply StronglySorted_fmap; [|apply objects_sorted]. done.
  - by rewrite !isort_perm, Hp.
Qed.

(** *** What [Build] returns *)
Lemma StronglySorted_weaken {A} (R R' : relation A) l :
  (forall x y, R x y -> R' x y) -> StronglySorted R l -> StronglySorted R' l.
Proof.
  intros Himp. induction 1 as [|x l Hs IH Hall]; [constructor|]. constructor; [done|].
  eapply Forall_impl; [exact Hall|]. auto.
Qed.

Lemma walk_path_wf v path w : wf_value v -> walk_path v path = Ok w -> wf_value w.
Proof.
  revert v. induction path as [|k path IH]; intros v Hv; cbn; [by intros [= <-]|].
  destruct v as [| | | | |m]; try done. destruct (lookup_key k m) as [next|] eqn:E; [|done].
  apply IH. apply wf_map_iff in Hv as [Hv _]. by eapply lookup_key_Forall.
Qed.

Lemma extractObjects_wf v path l : wf_value v -> extractObjects v path = Ok l -> Forall wf_value l.
Proof.
  intros Hv. unfold extractObjects. destruct (walk_path v path) as [w|] eqn:E; [|done]. cbn.
  apply walk_path_wf in E; [|done]. destruct w as [| | | |l'|m]; intros H; simplify_eq.
  - apply Forall_nil_2.
  - by inversion E.
  - by apply Forall_singleton.
Qed.

Lemma Build_inv now i s : Build now i = Ok s ->
  exists root items t raws,
    in_RawJSON i = Some (Ok root) /\ extractObjects root (in_ObjectsPath i) = Ok items /\
    items = VMap <$> raws /\
    Objects s = isort object_lt (normalizeObject i t <$> raws) /\
    ObjectCount s = Z.of_nat (length (Objects s)) /\
    ObjectHashes (sn_Integrity s) =
      (fun x => Sha256.hex_digest (x.2 +:+ x.1)) <$> (sort_key <$> Objects s).
Proof.
  unfold Build. destruct (in_RawJSON i) as [[root|]|]; [| |done]; case_bool_decide; try done. cbn.
  destruct (extractObjects root (in_ObjectsPath i)) as [items|] eqn:Ei; [|done]. cbn.
  set (t := if is_zero_time (in_CapturedAt i) then _ else _).
  destruct (normalizeObjects i t 0 items) as [objs|] eqn:En; [|done]. cbn. intros [= <-].
  destruct (normalizeObjects_spec _ _ _ _ _ En) as (raws & Hr & ->).
  exists root, items, t, raws. split_and!; try done; unfold finish; case_bool_decide; cbn; try done;
    by rewrite <- list_fmap_compose.
Qed.

Lemma Build_wf now i s root : in_RawJSON i = Some (Ok root) -> wf_value root -> Build now i = Ok s ->
  Forall (fun o => wf_value (VMap (Attributes o)) /\ ObjectType o = in_ResourceType i /\
                   StableIdentityKey o = generateSIK (in_ResourceType i) (Attributes o)) (Objects s).
Proof.
  intros Hroot Hwf HB. destruct (Build_inv _ _ _ HB) as (root' & items & t & raws & H1 & H2 & -> & Hobj & _).
  rewrite Hroot in H1. simplify_eq. rewrite Hobj. apply Forall_forall. intros o Ho.
  rewrite elem_of_isort in Ho. apply list_elem_of_fmap in Ho as (raw & -> & Hraw). split_and!; [|done|done].
  apply filterAttributes_wf. pose proof (extractObjects_wf _ _ _ Hwf H2) as Hall.
  rewrite Forall_fmap, Forall_forall in Hall. by apply Hall.
Qed.

Lemma Build_sorted now i s : Build now i = Ok s ->
  StronglySorted (fun a b => str_lt (StableIdentityKey b) (StableIdentityKey a) = false) (Objects s).
Proof.
  intros HB. destruct (Build_inv _ _ _ HB) as (root' & items & t & raws & _ & _ & _ & -> & _).
  eapply StronglySorted_weaken; [|apply objects_sorted].
  intros x y Hy. unfold sort_key_le in Hy. cbn in Hy. case_decide as E; [|done].
  rewrite E. apply str_lt_irrefl.
Qed.

(** *** What a snapshot keeps of an item

    The entry of the attributes under a key, and the identity of the object,
    as functions of the item the provider listed. *)
Definition kept (keys : list string) (raw : attrs) (k : string) : option value :=
  if bool_decide (k ∈ keys) then normalizeValue <$> lookup_key k raw else None.

Definition stable_entry (rt : string) (raw : attrs) (k : string) : option value :=
  if bool_decide (rt = ResourceIPAccessRules) then
    match bool_decide (k = "configuration"), lookup_key "configuration" raw with
    | true, Some (VMap config) =>
        Some (VMap (omap (fun k => pair k <$> (normalizeValue <$> lookup_key k config)) ["target"; "value"]))
    | _, _ => kept ["mode"; "notes"] raw k
    end
  else if bool_decide (rt = ResourceListItems) then kept ["ip"; "comment"] raw k
  else if bool_decide (rt = ResourceLists) then kept ["name"; "description"; "kind"] raw k
  else if volatile_key k then None else lookup_key k raw.

Definition trimmed_at (k : string) (m : attrs) : string := trim_space (string_at k m).

Definition identity (rt : string) (raw : attrs) (derived : string) : string :=
  if bool_decide (rt = ResourceIPAccessRules) then
    match lookup_key "configuration" raw with
    | Some (VMap config) =>
        "ip:" +:+ trimmed_at "target" config +:+ ":" +:+ trimmed_at "value" config +:+ ":" +:+ trimmed_at "mode" raw
    | _ => derived
    end
  else if bool_decide (rt = ResourceListItems) then
    match lookup_key "ip" raw with Some (VString ip) => "list_item:" +:+ trim_space ip | _ => derived end
  else if bool_decide (rt = ResourceLists) then
    match lookup_key "name" raw with Some (VString name) => "list:" +:+ trim_space name | _ => derived end
  else derived.

Record records (i : BuilderInput) (raw : attrs) (o : NormalizedObject) : Prop := mk_records {
  rec_wf : wf_value (VMap (Attributes o));
  rec_entries : forall k, lookup_key k (Attributes o) = stable_entry (in_ResourceType i) raw k;
  rec_key : StableIdentityKey o = identity (in_ResourceType i) raw (derivedSIK (in_ResourceType i) (Attributes o));
  rec_id : ObjectID o = string_at "id" raw;
  rec_type : ObjectType o = in_ResourceType i;
}.

Lemma lookup_copyKeys k dst src keys : lookup_key k (copyKeys dst src keys) =
  match kept keys src k with Some v => Some v | None => lookup_key k dst end.
Proof.
  unfold copyKeys. revert dst. induction keys as [|k' keys IH]; intros dst; cbn [foldl].
  { unfold kept. by rewrite bool_decide_false by apply not_elem_of_nil. }
  rewrite IH. unfold kept, copy_step. destruct (decide (k = k')) as [->|Hne].
  - rewrite (bool_decide_true (k' ∈ k' :: keys)) by left. destruct (lookup_key k' src) as [v|]; cbn.
    + rewrite lookup_insert_key, (bool_decide_true (k' = k')) by done. by case_bool_decide.
    + by case_bool_decide.
  - rewrite (bool_decide_ext (k ∈ k' :: keys) (k ∈ keys)) by (rewrite elem_of_cons; naive_solver).
    destruct (lookup_key k' src) as [v|]; [|done]. rewrite lookup_insert_key, (bool_decide_false (k = k')) by done. done.
Qed.

Lemma lookup_copied k src keys : lookup_key k (copyKeys [] src keys) = kept keys src k.
Proof. rewrite lookup_copyKeys. by destruct (kept keys src k). Qed.

Lemma lookup_filter (P : string -> bool) k m :
  lookup_key k (List.filter (fun kv => P kv.1) m) = if P k then lookup_key k m else None.
Proof.
  induction m as [|[k' v] m IH]; cbn; [by destruct (P k)|]. destruct (decide (k = k')) as [->|Hne].
  - rewrite bool_decide_true by done. destruct (P k') eqn:E; cbn; [by rewrite bool_decide_true|]. by rewrite IH.
  - rewrite bool_decide_false by done. destruct (P k'); cbn; [|done]. by rewrite bool_decide_false.
Qed.

Lemma config_copied config : copyKeys [] config ["target"; "value"] =
  omap (fun k => pair k <$> (normalizeValue <$> lookup_key k config)) ["target"; "value"].
Proof.
  unfold copyKeys, copy_step. cbn. destruct (lookup_key "target" config), (lookup_key "value" config); by vm_compute.
Qed.

Lemma lookup_filterAttributes rt raw k : lookup_key k (filterAttributes rt raw) = stable_entry rt raw k.
Proof.
  unfold filterAttributes, stable_entry.
  destruct (bool_decide (rt = ResourceIPAccessRules)).
  { destruct (lookup_key "configuration" raw) as [[| | | | |config]|], (decide (k = "configuration")) as [->|Hk];
      rewrite ?(bool_decide_true ("configuration" = "configuration")), ?(bool_decide_false (k = "configuration")) by done;
      rewrite ?lookup_copied; try done.
    - by rewrite lookup_insert_key, bool_decide_true, config_copied.
    - by rewrite lookup_insert_key, bool_decide_false, lookup_copied. }
  destruct (bool_decide (rt = ResourceListItems)); [apply lookup_copied|].
  destruct (bool_decide (rt = ResourceLists)); [apply lookup_copied|].
  rewrite (lookup_filter (fun k => negb (volatile_key k))). by destruct (volatile_key k).
Qed.

(** Maps in key order with the same entries are the same. *)
Lemma attrs_ext m1 m2 : StronglySorted key_lt m1 -> StronglySorted key_lt m2 ->
  (forall k, lookup_key k m1 = lookup_key k m2) -> m1 = m2.
Proof.
  assert (Hout : forall k m, Forall (key_lt k) m -> lookup_key k.1 m = None).
  { intros [k v] m. induction 1 as [|[k' v'] m Hk Hm IH]; cbn; [done|]. unfold key_lt in Hk. cbn in *.
    case_bool_decide; [subst; by rewrite str_lt_irrefl in Hk|done]. }
  intros H1. revert m2. induction H1 as [|[k1 v1] m1 Hs1 IH Ha1]; intros [|[k2 v2] m2] H2 E; [done|..].
  { specialize (E k2). cbn in E. by rewrite bool_decide_true in E. }
  { specialize (E k1). cbn in E. by rewrite bool_decide_true in E. }
  apply StronglySorted_inv in H2 as [Hs2 Ha2]. pose proof (Hout _ _ Ha1) as N1. pose proof (Hout _ _ Ha2) as N2. cbn in N1, N2.
  assert (k1 = k2) as ->.
  { destruct (decide (k1 = k2)) as [|Hne]; [done|exfalso].
    pose proof (E k1) as E1. pose proof (E k2) as E2. cbn in E1, E2.
    rewrite (bool_decide_true (k1 = k1)), (bool_decide_false (k1 = k2)) in E1 by done.
    rewrite (bool_decide_false (k2 = k1)), (bool_decide_true (k2 = k2)) in E2 by done. rewrite Forall_forall in Ha1, Ha2.
    assert (Hin : forall k v m, lookup_key k m = Some v -> (k, v) ∈ m).
    { intros k v m. induction m as [|[k' v'] m IHm]; cbn; [done|]. case_bool_decide; subst;
        [intros [= ->]; left|right; auto]. }
    symmetry in E1. apply Hin in E1. apply Ha2 in E1.
    apply Hin, Ha1 in E2. unfold key_lt in *. cbn in *. by rewrite (str_lt_asym _ _ E1) in E2. }
  pose proof (E k2) as Ek. cbn in Ek. rewrite !bool_decide_true in Ek by done. injection Ek as ->. f_equal.
  apply IH; [done|]. intros k. destruct (decide (k = k2)) as [->|Hne]; [by rewrite N1, N2|].
  specialize (E k). cbn in E. by rewrite !bool_decide_false in E by done.
Qed.

Lemma string_at_normalized k m raw : lookup_key k m = normalizeValue <$> lookup_key k raw ->
  string_at k m = trimmed_at k raw.
Proof. unfold string_at, trimmed_at, string_at. intros ->. by destruct (lookup_key k raw) as [[]|]. Qed.

Lemma generateSIK_identity rt raw : generateSIK rt (filterAttributes rt raw) =
  identity rt raw (derivedSIK rt (filterAttributes rt raw)).
Proof.
  unfold generateSIK, identity. rewrite !lookup_filterAttributes. unfold stable_entry.
  destruct (bool_decide (rt = ResourceIPAccessRules)) eqn:E1.
  { apply bool_decide_eq_true in E1. subst rt. rewrite (bool_decide_true ("configuration" = "configuration")) by done.
    destruct (lookup_key "configuration" raw) as [[| | | | |config]|]; try done. rewrite <- config_copied.
    rewrite (string_at_normalized "target" _ config), (string_at_normalized "value" _ config),
      (string_at_normalized "mode" _ raw); [done|by rewrite lookup_filterAttributes|by rewrite lookup_copied..]. }
  destruct (bool_decide (rt = ResourceListItems)); [unfold kept; cbn; by destruct (lookup_key "ip" raw) as [[]|]|].
  destruct (bool_decide (rt = ResourceLists)); [unfold kept; cbn; by destruct (lookup_key "name" raw) as [[]|]|done].
Qed.

Lemma normalizeObject_records i t raw : wf_value (VMap raw) -> records i raw (normalizeObject i t raw).
Proof.
  intros Hraw. split; cbn; [by apply filterAttributes_wf|apply lookup_filterAttributes|apply generateSIK_identity|done|done].
Qed.

Lemma normalizeObjects_fails i t n items m : normalizeObjects i t n items = Err m ->
  exists v, v ∈ items /\ forall raw, v <> VMap raw.
Proof.
  revert n. induction items as [|v items IH]; intros n; cbn; [done|].
  destruct v as [| | | | |raw]; try (intros _; eexists; split; [left|done]).
  destruct (normalizeObjects i t (S n) items) as [rest|] eqn:E; [done|]. intros [= ->].
  destruct (IH _ E) as (v & Hv & ?). exists v. split; [by right|done].
Qed.

Lemma extracted_wf root path raws : wf_value root -> extractObjects root path = Ok (VMap <$> raws) ->
  Forall (fun raw => wf_value (VMap raw)) raws.
Proof. intros Hwf Hx. apply extractObjects_wf in Hx; [|done]. by rewrite Forall_fmap in Hx. Qed.

(** C37: On a decoded document, [Build] loses and adds nothing: when it succeeds,
    the items at the path are all objects of the document and the objects of
    the snapshot are theirs, one for one, in key order.  Each has the entries
    of its item that its resource type keeps (trimmed texts under the listed
    keys, or everything but the volatile keys), and no other; the key made of
    the address and mode, of the list item or of the name, or derived from the
    entries; and the provider's id.  It fails only for a blank provider, a path
    that leads to no array, object or null, or an item that is no object. *)
Theorem Build_records now i root : in_RawJSON i = Some (Ok root) -> wf_value root ->
  match Build now i with
  | Ok s => exists raws objs,
      extractObjects root (in_ObjectsPath i) = Ok (VMap <$> raws) /\
      Forall2 (records i) raws objs /\ Objects s ≡ₚ objs /\ ObjectCount s = Z.of_nat (length raws) /\
      StronglySorted (fun a b => str_lt (StableIdentityKey b) (StableIdentityKey a) = false) (Objects s)
  | Err _ => trim_space (src_Provider (in_Source i)) = "" \/
             is_ok (extractObjects root (in_ObjectsPath i)) = false \/
             exists items v, extractObjects root (in_ObjectsPath i) = Ok items /\ v ∈ items /\ forall raw, v <> VMap raw
  end.
Proof.
  intros Hroot Hwf. destruct (Build now i) as [s|m] eqn:HB.
  - destruct (Build_inv _ _ _ HB) as (root' & items & t & raws & H1 & H2 & -> & Hobj & Hn & _).
    rewrite Hroot in H1. simplify_eq. exists raws, (normalizeObject i t <$> raws).
    split_and!; [done| |by rewrite Hobj, isort_perm| |by eapply Build_sorted].
    + pose proof (extracted_wf _ _ _ Hwf H2) as Hall. clear -Hall.
      induction Hall; constructor; auto using normalizeObject_records.
    + rewrite Hn, Hobj. by rewrite isort_perm, length_fmap.
  - unfold Build in HB. rewrite Hroot in HB. case_bool_decide; [by left|right]. cbn in HB.
    destruct (extractObjects root (in_ObjectsPath i)) as [items|]; [right|by left]. cbn in HB.
    destruct (normalizeObjects _ _ _ _) as [objs|] eqn:En; [done|].
    destruct (normalizeObjects_fails _ _ _ _ _ En) as (v & ? & ?). by exists items, v.
Qed.

(** *** When two snapshots record the same state *)
Definition same_entries (rt : string) (raw1 raw2 : attrs) : Prop :=
  forall k, stable_entry rt raw1 k = stable_entry rt raw2 k.

Lemma same_entries_filter rt raw1 raw2 : wf_value (VMap raw1) -> wf_value (VMap raw2) ->
  same_entries rt raw1 raw2 <-> filterAttributes rt raw1 = filterAttributes rt raw2.
Proof.
  intros H1%(filterAttributes_wf rt)%wf_map_iff H2%(filterAttributes_wf rt)%wf_map_iff. split.
  - intros Hs. apply attrs_ext; [apply H1|apply H2|]. intros k. by rewrite !lookup_filterAttributes.
  - intros E k. by rewrite <- !lookup_filterAttributes, E.
Qed.

Lemma same_entries_perm rt raws1 raws2 : Forall (fun r => wf_value (VMap r)) raws1 -> Forall (fun r => wf_value (VMap r)) raws2 ->
  (exists raws, raws ≡ₚ raws2 /\ Forall2 (same_entries rt) raws1 raws) <->
  filterAttributes rt <$> raws1 ≡ₚ filterAttributes rt <$> raws2.
Proof.
  intros W1 W2. split.
  - intros (raws & Hp & HF). rewrite <- Hp. rewrite <- Hp in W2. apply Permutation_refl'. clear Hp.
    induction HF as [|a b l1 l2 Hab HF IH]; [done|]. apply Forall_cons in W1 as [Wa W1]. apply Forall_cons in W2 as [Wb W2].
    cbn. f_equal; [by apply same_entries_filter|by apply IH].
  - intros Hp. apply Permutation_map_inv in Hp as (raws & E & Hp). exists raws. split; [by symmetry|].
    rewrite Hp in W2. clear Hp. revert raws E W2. induction W1 as [|a l1 Wa W1 IH]; intros [|b raws] E W2; try done.
    apply Forall_cons in W2 as [Wb W2]. injection E as Ea El. constructor; [|by apply IH].
    by apply same_entries_filter.
Qed.

(** Equal keys and texts are equal keys and attributes. *)
Lemma sort_keys_attributes l1 l2 :
  Forall (fun o => wf_value (VMap (Attributes o))) l1 ->
  Forall (fun o => wf_value (VMap (Attributes o))) l2 ->
  sort_key <$> l1 = sort_key <$> l2 ->
  StableIdentityKey <$> l1 = StableIdentityKey <$> l2 /\ Attributes <$> l1 = Attributes <$> l2.
Proof.
  intros H1. revert l2. induction H1 as [|a l1 Ha H1 IH]; intros [|b l2] H2 E; try done.
  assert (E1 : StableIdentityKey a = StableIdentityKey b) by exact (f_equal (fun l => (hd ("", "") l).1) E).
  assert (E2 : CanonicalJSON (VMap (Attributes a)) = CanonicalJSON (VMap (Attributes b)))
    by exact (f_equal (fun l => (hd ("", "") l).2) E).
  assert (E3 : sort_key <$> l1 = sort_key <$> l2) by exact (f_equal (@tl _) E). apply Forall_cons in H2 as [Hb H2'].
  rewrite !fmap_cons. destruct (IH l2 H2' E3) as [-> ->].
  pose proof (CanonicalJSON_inj _ _ Ha Hb E2) as Heq. injection Heq as Heq. by rewrite E1, Heq.
Qed.

(** Keys are functions of the attributes, and attributes of the items. *)
Lemma built_attributes i t (raws : list attrs) : Attributes <$> (normalizeObject i t <$> raws) = filterAttributes (in_ResourceType i) <$> raws.
Proof. by rewrite <- list_fmap_compose. Qed.

Lemma built_sort_keys i t (raws : list attrs) : sort_key <$> (normalizeObject i t <$> raws) =
  (fun a => (generateSIK (in_ResourceType i) a, CanonicalJSON (VMap a))) <$> (filterAttributes (in_ResourceType i) <$> raws).
Proof. by rewrite <- !list_fmap_compose. Qed.

(** C39: Two snapshots of one resource type hold the same attributes, in order,
    exactly when the items they were built from agree, up to their order, on
    every entry that the type keeps; their keys and object hashes are then the
    same too.  The order of the listing, ids, time stamps and the white space
    around kept texts make no difference, and every other change does. *)
Theorem Build_equal_iff now1 now2 i1 i2 root1 root2 raws1 raws2 s1 s2 :
  in_RawJSON i1 = Some (Ok root1) -> wf_value root1 -> extractObjects root1 (in_ObjectsPath i1) = Ok (VMap <$> raws1) ->
  in_RawJSON i2 = Some (Ok root2) -> wf_value root2 -> extractObjects root2 (in_ObjectsPath i2) = Ok (VMap <$> raws2) ->
  in_ResourceType i1 = in_ResourceType i2 -> Build now1 i1 = Ok s1 -> Build now2 i2 = Ok s2 ->
  (Attributes <$> Objects s1 = Attributes <$> Objects s2 <->
   exists raws, raws ≡ₚ raws2 /\ Forall2 (same_entries (in_ResourceType i1)) raws1 raws) /\
  (Attributes <$> Objects s1 = Attributes <$> Objects s2 ->
   StableIdentityKey <$> Objects s1 = StableIdentityKey <$> Objects s2 /\
   ObjectHashes (sn_Integrity s1) = ObjectHashes (sn_Integrity s2)).
Proof.
  intros R1 W1 X1 R2 W2 X2 Hrt B1 B2.
  destruct (Build_inv _ _ _ B1) as (r1 & it1 & t1 & rs1 & E1 & Y1 & -> & O1 & _ & H1).
  destruct (Build_inv _ _ _ B2) as (r2 & it2 & t2 & rs2 & E2 & Y2 & -> & O2 & _ & H2).
  assert (Hinj : forall l l' : list attrs, VMap <$> l = VMap <$> l' -> l = l')
    by (intros l l'; apply list_fmap_eq_inj; by intros ? ? [= ->]).
  rewrite R1 in E1. rewrite R2 in E2. simplify_eq. rewrite X1 in Y1. rewrite X2 in Y2.
  injection Y1 as <-%Hinj. injection Y2 as <-%Hinj.
  rewrite (same_entries_perm _ _ _ (extracted_wf _ _ _ W1 X1) (extracted_wf _ _ _ W2 X2)).
  assert (Hkeys : filterAttributes (in_ResourceType i1) <$> raws1 ≡ₚ filterAttributes (in_ResourceType i1) <$> raws2 ->
                  sort_key <$> Objects s1 = sort_key <$> Objects s2).
  { intros Hp. rewrite O1, O2. apply sort_keys_perm. rewrite !built_sort_keys, <- Hrt. by apply fmap_Permutation. }
  assert (Hiff : Attributes <$> Objects s1 = Attributes <$> Objects s2 <->
    filterAttributes (in_ResourceType i1) <$> raws1 ≡ₚ filterAttributes (in_ResourceType i1) <$> raws2).
  { split.
    - intros E. rewrite O1, O2 in E. apply Permutation_refl' in E.
      rewrite !isort_perm, !built_attributes in E. by rewrite Hrt in *.
    - intros Hp%Hkeys. apply sort_keys_attributes in Hp; [apply Hp|..].
      + eapply Forall_impl; [exact (Build_wf _ _ _ _ R1 W1 B1)|]. by intros o [? _].
      + eapply Forall_impl; [exact (Build_wf _ _ _ _ R2 W2 B2)|]. by intros o [? _]. }
  split; [done|]. intros Hp%Hiff%Hkeys. split; [|by rewrite H1, H2, Hp].
  apply (f_equal (fmap fst)) in Hp. by rewrite <- !list_fmap_compose in Hp.
Qed.

(** Three rules listed in two orders, with fields that come and go. *)
Definition rule_json (ip id : string) : value :=
  VMap [("configuration", VMap [("target", VString "ip"); ("value", VString ip)]);
        ("id", VString id); ("mode", VString "block")].

Definition rules_input (l : list value) : BuilderInput :=
  {| in_SnapshotID := ""; in_CreatedAt := 1;
     in_Source := {| src_Provider := "cloudflare"; src_Endpoint := ""; src_APIVersion := ""; src_CaptureMode := "live" |};
     in_ResourceType := ResourceIPAccessRules;
     in_Scope := {| rs_AccountID := ""; rs_ZoneID := "z"; rs_ScopeType := "zone" |};
     in_Pagination := {| Paginated := false; PageCount := 1; TotalExpected := 2; TotalObserved := 2;
                         SequenceComplete := true; CursorChain := [] |};
     in_Provenance := {| FixtureID := ""; ReplayID := ""; GeneratedBy := "t"; GeneratedAt := 0 |};
     in_RawJSON := Some (Ok (VArray l)); in_ObjectsPath := []; in_CapturedAt := 0;
     in_SourcePage := 1; in_SchemaVersion := 1 |}.

Definition two_rules : list value := [rule_json "198.51.100.7" "b"; rule_json "192.0.2.1" "a"].

Lemma two_rules_wf : wf_value (VArray two_rules).
Proof.
  constructor. repeat constructor.
Qed.

Lemma Build_records_witness : exists s raws objs,
  Build 5 (rules_input two_rules) = Ok s /\ VMap <$> raws = two_rules /\ Forall2 (records (rules_input two_rules)) raws objs /\
  Objects s ≡ₚ objs /\ StableIdentityKey <$> Objects s = ["ip:ip:192.0.2.1:block"; "ip:ip:198.51.100.7:block"].
Proof.
  pose proof (Build_records 5 (rules_input two_rules) (VArray two_rules) eq_refl two_rules_wf) as H.
  destruct (Build 5 (rules_input two_rules)) as [s|] eqn:E; [|by vm_compute in E].
  destruct H as (raws & objs & Hx & HF & Hp & _). exists s, raws, objs. split_and!; try done.
  - injection Hx as Hx. by rewrite Hx.
  - apply (f_equal (fun r => match r with Ok s => StableIdentityKey <$> Objects s | Err _ => [] end)) in E.
    rewrite <- E. by vm_compute.
Defined.

(** The same rules listed in the other order with other ids and a time stamp. *)
Definition later_attrs : list attrs :=
  [ [("configuration", VMap [("target", VString "ip"); ("value", VString "192.0.2.1 ")]);
     ("created_on", VString "2024-01-01"); ("id", VString "x"); ("mode", VString "block")];
    [("configuration", VMap [("target", VString "ip"); ("value", VString "198.51.100.7")]);
     ("id", VString "y"); ("mode", VString "block")] ].
Definition two_attrs : list attrs :=
  [ [("configuration", VMap [("target", VString "ip"); ("value", VString "198.51.100.7")]);
     ("id", VString "b"); ("mode", VString "block")];
    [("configuration", VMap [("target", VString "ip"); ("value", VString "192.0.2.1")]);
     ("id", VString "a"); ("mode", VString "block")] ].

Lemma later_wf : wf_value (VArray (VMap <$> later_attrs)).
Proof. constructor. repeat constructor. Qed.

Lemma Build_equal_iff_witness : exists s1 s2,
  Build 5 (rules_input two_rules) = Ok s1 /\ Build 9 (rules_input (VMap <$> later_attrs)) = Ok s2 /\
  ObjectHashes (sn_Integrity s1) = ObjectHashes (sn_Integrity s2) /\
  exists raws, raws ≡ₚ later_attrs /\ Forall2 (same_entries ResourceIPAccessRules) two_attrs raws.
Proof.
  destruct (Build 5 (rules_input two_rules)) as [s1|] eqn:E1; [|by vm_compute in E1].
  destruct (Build 9 (rules_input (VMap <$> later_attrs))) as [s2|] eqn:E2; [|by vm_compute in E2].
  destruct (Build_equal_iff 5 9 (rules_input two_rules) (rules_input (VMap <$> later_attrs)) (VArray two_rules)
    (VArray (VMap <$> later_attrs)) two_attrs later_attrs s1 s2 eq_refl two_rules_wf eq_refl eq_refl later_wf eq_refl
    eq_refl E1 E2) as [Hiff Hh].
  assert (Ha : Attributes <$> Objects s1 = Attributes <$> Objects s2).
  { apply (f_equal (fun r => match r with Ok s => Attributes <$> Objects s | Err _ => [] end)) in E1, E2.
    rewrite <- E1, <- E2. by vm_compute. }
  exists s1, s2. split_and!; [done|done|by apply Hh|by apply Hiff].
Defined.

End Builder.

(** ** Assembler ([builder/assembler.go]): from normalized objects *)
Module Assembler.
Import Json Canonical Snapshot.

Record Assembler := {
  a_snapshotID : string;
  a_resourceType : string;
  a_source : SnapshotSource;
  a_scope : ScopeMetadata;
  a_pagination : PaginationMetadata;
  a_provenance : ProvenanceMetadata;
  a_objects : gmap string NormalizedObject;
  a_createdAt : Z;
}.

Definition NewAssembler (now : Z) (rt : string) : Assembler :=
  {| a_snapshotID := ""; a_resourceType := rt;
     a_source := {| src_Provider := ""; src_Endpoint := ""; src_APIVersion := ""; src_CaptureMode := "" |};
     a_scope := {| AccountIDHash := ""; ZoneIDHash := ""; ScopeType := "" |};
     a_pagination := {| Paginated := false; PageCount := 0; TotalExpected := 0; TotalObserved := 0;
                        SequenceComplete := false; CursorChain := [] |};
     a_provenance := {| FixtureID := ""; ReplayID := ""; GeneratedBy := ""; GeneratedAt := 0 |};
     a_objects := ∅; a_createdAt := now |}.

Definition SetMetadata (id : string) (source : SnapshotSource) (scope : ScopeMetadata)
    (pagination : PaginationMetadata) (provenance : ProvenanceMetadata) (a : Assembler) : Assembler :=
  {| a_snapshotID := id; a_resourceType := a_resourceType a; a_source := source; a_scope := scope;
     a_pagination := pagination; a_provenance := provenance; a_objects := a_objects a;
     a_createdAt := a_createdAt a |}.

Definition SetCreatedAt (t : Z) (a : Assembler) : Assembler :=
  {| a_snapshotID := a_snapshotID a; a_resourceType := a_resourceType a; a_source := a_source a;
     a_scope := a_scope a; a_pagination := a_pagination a; a_provenance := a_provenance a;
     a_objects := a_objects a; a_createdAt := t |}.

Definition set_objects (m : gmap string NormalizedObject) (a : Assembler) : Assembler :=
  {| a_snapshotID := a_snapshotID a; a_resourceType := a_resourceType a; a_source := a_source a;
     a_scope := a_scope a; a_pagination := a_pagination a; a_provenance := a_provenance a;
     a_objects := m; a_createdAt := a_createdAt a |}.

Definition op_add : string := "snapshot.builder.Assembler.Add".

(** The objects before the one in error stay in the assembly. *)
Fixpoint Add (objects : list NormalizedObject) (a : Assembler) : Assembler * result unit :=
  match objects with
  | [] => (a, Ok tt)
  | obj :: objects =>
      let k := StableIdentityKey obj in
      if bool_decide (k = "") then (a, Err (wrap_msg op_add "object missing StableIdentityKey"))
      else match a_objects a !! k with
           | Some _ => (a, Err (wrap_msg op_add ("duplicate StableIdentityKey detected: " +:+ k)))
           | None => Add objects (set_objects (<[k := obj]> (a_objects a)) a)
           end
  end.

Definition asm_calculateIntegrity (s : Snapshot) : IntegrityMetadata :=
  {| ObjectHashes := (fun o => Sha256.hex_digest (CanonicalJSON (VMap (Attributes o)) +:+ StableIdentityKey o))
                       <$> Objects s;
     CanonicalHash := Sha256.hex_digest
       (struct_text [("resource_type", text_string (sn_ResourceType s)); ("objects", objects_text (Objects s))]);
     SnapshotChecksum := Sha256.hex_digest (snapshot_text s) |}.

Definition sorted_objects (m : gmap string NormalizedObject) : list NormalizedObject :=
  omap (fun k => m !! k) (isort str_lt (map_to_list m).*1).

Definition asm_Build (a : Assembler) : Snapshot :=
  let objects := sorted_objects (a_objects a) in
  finish asm_calculateIntegrity
    {| SnapshotID := a_snapshotID a; sn_Version := SnapshotVersion; sn_CreatedAt := a_createdAt a;
       sn_Source := a_source a; sn_ResourceType := a_resourceType a; sn_Scope := a_scope a;
       sn_Pagination := a_pagination a; ObjectCount := Z.of_nat (length objects); Objects := objects;
       sn_Integrity := zero_integrity; sn_Provenance := a_provenance a |}.

(** [Add] succeeds exactly on objects with distinct keys that are not empty
    and not in the assembly yet. *)
Definition addable (m : gmap string NormalizedObject) (l : list NormalizedObject) : Prop :=
  NoDup (StableIdentityKey <$> l) /\
  Forall (fun o => StableIdentityKey o <> "" /\ m !! StableIdentityKey o = None) l.

Definition add_all (m : gmap string NormalizedObject) (l : list NormalizedObject) : gmap string NormalizedObject :=
  list_to_map ((fun o => (StableIdentityKey o, o)) <$> l) ∪ m.

Lemma Add_ok l a : is_ok (Add l a).2 = true <-> addable (a_objects a) l.
Proof.
  revert a. induction l as [|o l IH]; intros a; cbn [Add].
  { split; [|done]. intros _. split; [constructor|by apply Forall_nil_2]. }
  unfold addable. rewrite fmap_cons, NoDup_cons, Forall_cons. case_bool_decide as E.
  { split; [done|]. intros (_ & [? _] & _). done. }
  destruct (a_objects a !! StableIdentityKey o) as [o'|] eqn:El.
  { split; [done|]. intros (_ & [_ ?] & _). done. }
  rewrite IH. unfold addable. cbn. rewrite !Forall_forall. split.
  - intros [Hn Hall]. split_and!; [|done|done|done|].
    + intros (o' & Ho & Hin)%list_elem_of_fmap. destruct (Hall o' Hin) as [_ Hl].
      rewrite Ho, lookup_insert, decide_True in Hl; done.
    + intros o' Hin. destruct (Hall o' Hin) as [? [Hl _]%lookup_insert_None]. done.
  - intros ([Hni Hn] & _ & Hall). split; [done|]. intros o' Hin. destruct (Hall o' Hin) as [? Hl].
    split; [done|]. rewrite lookup_insert_ne; [done|]. intros Heq. apply Hni. rewrite Heq.
    apply list_elem_of_fmap. eauto.
Qed.

Lemma Add_objects l a : addable (a_objects a) l -> (Add l a).1 = set_objects (add_all (a_objects a) l) a.
Proof.
  revert a. induction l as [|o l IH]; intros a Ha; cbn [Add].
  { unfold add_all. cbn. rewrite map_empty_union. by destruct a. }
  destruct Ha as [Hn Hall]. rewrite fmap_cons, NoDup_cons in Hn. rewrite Forall_cons in Hall.
  destruct Hn as [Hni Hn], Hall as [[Hk Hl] Hall]. rewrite bool_decide_false, Hl by done. rewrite IH.
  - unfold set_objects. cbn. f_equal. unfold add_all. cbn.
    rewrite <- insert_union_l, insert_union_r; [done|]. apply not_elem_of_list_to_map_1.
    by rewrite <- list_fmap_compose.
  - split; [done|]. cbn. rewrite Forall_forall in Hall |- *. intros o' Hin. destruct (Hall o' Hin) as [? Hl'].
    split; [done|]. rewrite lookup_insert_ne; [done|]. intros Heq. apply Hni. rewrite Heq.
    apply list_elem_of_fmap. eauto.
Qed.

Lemma sorted_objects_perm m : sorted_objects m ≡ₚ (map_to_list m).*2.
Proof.
  unfold sorted_objects. rewrite isort_perm.
  assert (H : Forall (fun kv => m !! kv.1 = Some kv.2) (map_to_list m)).
  { apply Forall_forall. intros [k o] Hin. by apply elem_of_map_to_list in Hin. }
  induction H as [|[k o] l Hk Hl IH]; [done|]. cbn in *. rewrite Hk. cbn. by rewrite IH.
Qed.

Lemma isort_str_sorted l : NoDup l -> StronglySorted (fun x y => str_lt x y = true) (isort str_lt l).
Proof.
  intros Hn. rewrite <- (isort_perm str_lt) in Hn.
  assert (Hs : StronglySorted (fun x y => str_lt y x = false) (isort str_lt l)).
  { apply isort_sorted; [|done|].
    - intros x y. apply str_lt_asym.
    - intros x y z. apply str_le_trans. }
  induction Hs as [|x l' Hs IH Hall]; [constructor|]. apply NoDup_cons in Hn as [Hni Hn].
  constructor; [by apply IH|]. rewrite Forall_forall in Hall |- *. intros y Hy. specialize (Hall y Hy).
  destruct (str_lt x y) eqn:E; [done|]. exfalso. apply Hni. by rewrite (str_lt_total x y).
Qed.

Lemma sorted_objects_sorted m :
  (forall k o, m !! k = Some o -> k = StableIdentityKey o) ->
  StronglySorted (fun a b => str_lt (StableIdentityKey a) (StableIdentityKey b) = true) (sorted_objects m).
Proof.
  intros Hk. unfold sorted_objects. pose proof (isort_str_sorted _ (NoDup_fst_map_to_list m)) as Hs.
  induction Hs as [|k l Hs IH Hall]; [constructor|]. cbn.
  destruct (m !! k) as [o|] eqn:E; [|done]. constructor; [done|].
  apply Forall_forall. intros o' (k' & Hin & E')%list_elem_of_omap.
  rewrite Forall_forall in Hall. rewrite <- (Hk _ _ E), <- (Hk _ _ E'). by apply Hall.
Qed.

(** What is assembled from nothing. *)
Lemma assembled_objects a l : a_objects a = ∅ -> addable ∅ l ->
  Objects (asm_Build (Add l a).1) = sorted_objects (add_all ∅ l) /\ Objects (asm_Build (Add l a).1) ≡ₚ l.
Proof.
  intros Ha Hadd. rewrite Add_objects by by rewrite Ha. rewrite Ha.
  assert (Objects (asm_Build (set_objects (add_all ∅ l) a)) = sorted_objects (add_all ∅ l)) as HO.
  { unfold asm_Build, finish. by case_bool_decide. }
  split; [done|]. rewrite HO. unfold add_all. rewrite map_union_empty, sorted_objects_perm.
  rewrite map_to_list_to_map by (rewrite <- list_fmap_compose; exact (proj1 Hadd)).
  rewrite <- list_fmap_compose. cbn. by rewrite list_fmap_id.
Qed.

(** The assembler accepts exactly the objects with distinct, non-empty keys;
    the snapshot it builds then holds these objects and no others in strict
    key order, and is the same whatever the order in which they were added. *)
Theorem assemble_spec now rt l :
  let '(a, r) := Add l (NewAssembler now rt) in
  (is_ok r = true <-> NoDup (StableIdentityKey <$> l) /\ Forall (fun o => StableIdentityKey o <> "") l) /\
  (is_ok r = true ->
   Objects (asm_Build a) ≡ₚ l /\
   StronglySorted (fun x y => str_lt (StableIdentityKey x) (StableIdentityKey y) = true) (Objects (asm_Build a)) /\
   forall l', l' ≡ₚ l -> asm_Build (Add l' (NewAssembler now rt)).1 = asm_Build a).
Proof.
  pose proof (Add_ok l (NewAssembler now rt)) as Hok. pose proof (Add_objects l (NewAssembler now rt)) as Hobj.
  destruct (Add l (NewAssembler now rt)) as [a r]. cbn [fst snd] in *. cbn [NewAssembler a_objects] in *.
  split.
  { rewrite Hok. unfold addable. rewrite !Forall_forall. split; intros [Hn Hall]; (split; [done|]).
    - intros o Ho. by apply Hall.
    - intros o Ho. by split; [apply Hall|]. }
  intros Hr. apply Hok in Hr. specialize (Hobj Hr).
  destruct (assembled_objects (NewAssembler now rt) l eq_refl Hr) as [HO Hp].
  rewrite (Add_objects l (NewAssembler now rt) Hr) in HO, Hp. cbn [NewAssembler a_objects] in HO, Hp.
  rewrite <- Hobj in HO, Hp. destruct Hr as [Hn Hall].
  unfold add_all in *. rewrite map_union_empty in *. rewrite HO in Hp |- *. split_and!.
  - exact Hp.
  - apply sorted_objects_sorted. intros k o Hk.
    apply elem_of_list_to_map_2, list_elem_of_fmap in Hk as (o' & [= -> ->] & _). done.
  - clear Hp. intros l' Hp'. rewrite Add_objects.
    + cbn [NewAssembler a_objects]. rewrite Hobj. f_equal. f_equal. unfold add_all. rewrite map_union_empty.
      apply list_to_map_proper; [|by rewrite Hp']. by rewrite <- list_fmap_compose, Hp'.
    + split; by rewrite Hp'.
Qed.

End Assembler.
