(* ===== verification/ResourceGraph.v ===== *)
(** * Resource types and their dependencies

    [internal/cloudflare/resources] (registry), [internal/snapshot/graph]
    (dependency order) and [internal/snapshot/builder/multi] (assembly of one
    snapshot per resource type in that order).  Go iterates over maps in any
    order: the order is an argument of the definitions, and the theorems hold
    for every one. *)

From S2P Require Import Prelude Sha256 Events Snapshot.

Local Open Scope Z_scope.

(** ** Registry ([registry.go]) *)
Module Resources.
Import Snapshot.

Inductive Capability := CapRead | CapCreate | CapUpdate | CapDelete.

Definition OwnershipFullyManaged : string := "fully_managed".
Definition OwnershipPartiallyManaged : string := "partially_managed".
Definition OwnershipExternallyOwned : string := "externally_owned".

Record Descriptor := {
  d_Type : string;
  d_Dependencies : list string;
  d_Capabilities : list Capability;
  d_DefaultOwner : string;
}.

Abbreviation Registry := (gmap string Descriptor).

Definition Register (d : Descriptor) (r : Registry) : Registry := <[d_Type d := d]> r.

Definition registered : list Descriptor :=
  [ {| d_Type := ResourceIPAccessRules; d_Dependencies := [];
       d_Capabilities := [CapRead; CapCreate; CapDelete]; d_DefaultOwner := OwnershipFullyManaged |};
    {| d_Type := ResourceLists; d_Dependencies := [];
       d_Capabilities := [CapRead; CapCreate; CapDelete]; d_DefaultOwner := OwnershipFullyManaged |};
    {| d_Type := ResourceListItems; d_Dependencies := [ResourceLists];
       d_Capabilities := [CapRead; CapCreate; CapDelete]; d_DefaultOwner := OwnershipPartiallyManaged |};
    {| d_Type := ResourceRulesets; d_Dependencies := [];
       d_Capabilities := [CapRead; CapUpdate]; d_DefaultOwner := OwnershipPartiallyManaged |};
    {| d_Type := ResourceRulesetRules; d_Dependencies := [ResourceRulesets];
       d_Capabilities := [CapRead; CapCreate; CapUpdate; CapDelete]; d_DefaultOwner := OwnershipFullyManaged |} ].

Definition NewRegistry : Registry := foldl (flip Register) ∅ registered.

Definition Get (rt : string) (r : Registry) : option Descriptor := r !! rt.

(** In any order. *)
Definition All (r : Registry) : list Descriptor := (map_to_list r).*2.

End Resources.

(** ** Dependency order ([graph.go]) *)
Module Graph.

Abbreviation DependencyGraph := (gmap string (list string)).

Definition deps (g : DependencyGraph) (n : string) : list string := default [] (g !! n).

(** [from] depends on [to]. *)
Definition AddLink (from to : string) (g : DependencyGraph) : DependencyGraph :=
  <[from := deps g from ++ [to]]> g.

(** The nodes that occur in a link. *)
Definition allTypes (g : DependencyGraph) : gset string :=
  dom g ∪ list_to_set (mjoin (map_to_list g).*2).

Record search := { found : list string; visited : gset string; temp : gset string }.

Definition op_resolve : string := "snapshot.graph.ResolveOrder".

Fixpoint each {S A} (f : A -> S -> S * result unit) (l : list A) (s : S) : S * result unit :=
  match l with
  | [] => (s, Ok tt)
  | x :: l => let '(s, r) := f x s in
              match r with Err m => (s, Err m) | Ok _ => each f l s end
  end.

(** The recursion goes down along unfinished nodes, so that the number of
    nodes bounds its depth. *)
Fixpoint visit (fuel : nat) (g : DependencyGraph) (n : string) (s : search) : search * result unit :=
  match fuel with
  | O => (s, Err "out of fuel")
  | S fuel =>
      if bool_decide (n ∈ temp s) then
        (s, Err (wrap_msg op_resolve ("cycle detected involving " +:+ n)))
      else if bool_decide (n ∈ visited s) then (s, Ok tt)
      else
        let s := {| found := found s; visited := visited s; temp := {[n]} ∪ temp s |} in
        let '(s, r) := each (visit fuel g) (deps g n) s in
        match r with
        | Err m => (s, Err m)
        | Ok _ => ({| found := found s ++ [n]; visited := {[n]} ∪ visited s; temp := temp s ∖ {[n]} |}, Ok tt)
        end
  end.

Definition visit_new (fuel : nat) (g : DependencyGraph) (n : string) (s : search) : search * result unit :=
  if bool_decide (n ∈ visited s) then (s, Ok tt) else visit fuel g n s.

(** [order] is the order in which the map of all types is walked. *)
Definition ResolveOrder (order : list string) (g : DependencyGraph) : result (list string) :=
  let '(s, r) := each (visit_new (S (size (allTypes g))) g) order {| found := []; visited := ∅; temp := ∅ |} in
  match r with Err m => Err m | Ok _ => Ok (found s) end.

(** ** What the search keeps *)
Definition edge (g : DependencyGraph) (n d : string) : Prop := d ∈ deps g n.

(** Dependencies come first. *)
Definition deps_first (g : DependencyGraph) (l : list string) : Prop :=
  forall i n, l !! i = Some n -> forall d, edge g n d -> exists j, (j < i)%nat /\ l !! j = Some d.

Definition acyclic (g : DependencyGraph) : Prop := forall n, ~ tc (edge g) n n.

Lemma edge_nodes g n d : edge g n d -> n ∈ allTypes g /\ d ∈ allTypes g.
Proof.
  unfold edge, deps, allTypes. destruct (g !! n) as [l|] eqn:E; cbn; [|by rewrite elem_of_nil].
  intros Hd. split; [apply elem_of_union_l, elem_of_dom; eauto|]. apply elem_of_union_r, elem_of_list_to_set.
  apply list_elem_of_join. exists l. split; [done|]. apply list_elem_of_fmap. exists (n, l).
  split; [done|]. by apply elem_of_map_to_list.
Qed.

Lemma allTypes_spec g n : n ∈ allTypes g <-> n ∈ dom g \/ exists m, edge g m n.
Proof.
  unfold allTypes. rewrite elem_of_union, elem_of_list_to_set, list_elem_of_join. split.
  - intros [?|(l & Hn & ([m l'] & -> & Hm)%list_elem_of_fmap)]; [by left|right]. exists m.
    apply elem_of_map_to_list in Hm. unfold edge, deps. by replace (g !! m) with (Some l').
  - intros [?|[m Hm]]; [by left|]. apply edge_nodes in Hm as [_ Hm]. unfold allTypes in Hm.
    by rewrite elem_of_union, elem_of_list_to_set, list_elem_of_join in Hm.
Qed.

Lemma AddLink_types from to g n : n ∈ allTypes (AddLink from to g) -> n = from \/ n = to \/ n ∈ allTypes g.
Proof.
  rewrite !allTypes_spec. unfold AddLink, edge, deps. rewrite dom_insert, elem_of_union, elem_of_singleton.
  intros [[?|?]|[m Hm]]; [auto|auto|]. destruct (decide (m = from)) as [->|Hne].
  - rewrite lookup_insert, decide_True in Hm by done. cbn in Hm.
    apply elem_of_app in Hm as [Hm|Hm%list_elem_of_singleton]; eauto.
  - rewrite lookup_insert_ne in Hm by done. eauto.
Qed.

Record ok_search (g : DependencyGraph) (s : search) : Prop := {
  os_nodup : NoDup (found s);
  os_visited : forall n, n ∈ visited s <-> n ∈ found s;
  os_first : deps_first g (found s);
  os_nodes : forall n, n ∈ found s -> n ∈ allTypes g;
  os_disj : forall n, n ∈ temp s -> n ∉ visited s;
}.

(** [s'] continues [s]: more nodes found, the same nodes open. *)
Definition extends (s s' : search) : Prop :=
  (exists l, found s' = found s ++ l) /\ temp s' = temp s.

Lemma extends_refl s : extends s s.
Proof. split; [exists []; by rewrite app_nil_r|done]. Qed.

Lemma extends_trans s1 s2 s3 : extends s1 s2 -> extends s2 s3 -> extends s1 s3.
Proof.
  intros [[l1 E1] T1] [[l2 E2] T2]. split; [|congruence]. exists (l1 ++ l2). by rewrite E2, E1, app_assoc.
Qed.

Lemma extends_found s s' n : extends s s' -> n ∈ found s -> n ∈ found s'.
Proof. intros [[l ->] _] Hn. apply elem_of_app. by left. Qed.

(** The error of a cycle names a node that depends on itself. *)
Definition cycle_error (g : DependencyGraph) (m : string) : Prop :=
  exists n, tc (edge g) n n /\ m = wrap_msg op_resolve ("cycle detected involving " +:+ n).

(** The outcome of a visit: success with the node found, or the error of a
    cycle; never the end of the fuel. *)
Definition visited_ok (g : DependencyGraph) (n : string) (s : search) (o : search * result unit) : Prop :=
  match o.2 with
  | Ok _ => ok_search g o.1 /\ extends s o.1 /\ n ∈ found o.1
  | Err m => cycle_error g m
  end.

Lemma each_spec (f : string -> search -> search * result unit) g (P : string -> search -> Prop) l s :
  (forall x s, x ∈ l -> ok_search g s -> P x s -> visited_ok g x s (f x s)) ->
  (forall x s s', extends s s' -> P x s -> P x s') ->
  ok_search g s -> Forall (fun x => P x s) l ->
  match (each f l s).2 with
  | Ok _ => ok_search g (each f l s).1 /\ extends s (each f l s).1 /\
            forall x, x ∈ l -> x ∈ found (each f l s).1
  | Err m => cycle_error g m
  end.
Proof.
  intros Hf HP. revert s. induction l as [|x l IH]; intros s Hs Hall; cbn [each].
  { split_and!; [done|apply extends_refl|]. intros x Hx. by apply not_elem_of_nil in Hx. }
  apply Forall_cons in Hall as [Hx Hall]. pose proof (Hf x s ltac:(left) Hs Hx) as Hfx.
  unfold visited_ok in Hfx. destruct (f x s) as [s1 [[]|m]]; cbn [fst snd] in Hfx; [|done].
  destruct Hfx as (Hs1 & He & Hin).
  assert (Hall1 : Forall (fun x => P x s1) l) by (eapply Forall_impl; [exact Hall|]; cbn; eauto).
  specialize (IH ltac:(intros; apply Hf; [by right|done|done]) s1 Hs1 Hall1).
  destruct (each f l s1) as [s2 [[]|m]]; cbn [fst snd] in *; [|done].
  destruct IH as (Hs2 & He2 & Hl). split_and!; [done|by eapply extends_trans|].
  intros y [->|Hy]%elem_of_cons; [by eapply extends_found|auto].
Qed.

(** What holds when a node is visited: enough fuel for the nodes that are not
    open, and every open node leads to it. *)
Definition ready (fuel : nat) (g : DependencyGraph) (n : string) (s : search) : Prop :=
  (size (allTypes g ∖ temp s) < fuel)%nat /\ n ∈ allTypes g /\
  (forall t, t ∈ temp s -> tc (edge g) t n).

Lemma open_ok g n s : ok_search g s -> n ∉ visited s ->
  ok_search g {| found := found s; visited := visited s; temp := {[n]} ∪ temp s |}.
Proof.
  intros Hs Hn. destruct Hs. constructor; try done. cbn. set_solver.
Qed.

Lemma close_ok g n s s' : ok_search g s' -> n ∈ allTypes g -> n ∈ temp s' ->
  temp s' = {[n]} ∪ temp s -> n ∉ temp s -> (exists l, found s' = found s ++ l) ->
  (forall d, edge g n d -> d ∈ found s') ->
  let s2 := {| found := found s' ++ [n]; visited := {[n]} ∪ visited s'; temp := temp s' ∖ {[n]} |} in
  ok_search g s2 /\ extends s s2 /\ n ∈ found s2.
Proof.
  intros [Hnd Hv Hf Hnodes Hdis] Hn Hnt Ht Hns [l El] Hd s2.
  assert (Hni : n ∉ found s') by (rewrite <- Hv; by apply Hdis).
  split; [|split].
  - constructor; cbn.
    + apply NoDup_app. split_and!; [done| |apply NoDup_singleton].
      intros x Hx ->%list_elem_of_singleton. done.
    + intros x. rewrite elem_of_app, list_elem_of_singleton, elem_of_union, elem_of_singleton, Hv. tauto.
    + intros i x Hx d Hed. apply lookup_app_Some in Hx as [Hx|[Hle Hx]].
      * destruct (Hf i x Hx d Hed) as (j & Hj & Hjd). exists j. split; [done|]. by apply lookup_app_l_Some.
      * apply list_lookup_singleton_Some in Hx as [Hi <-].
        destruct (list_elem_of_lookup_1 _ _ (Hd d Hed)) as [j Hj]. exists j.
        pose proof (lookup_lt_Some _ _ _ Hj). split; [lia|]. by apply lookup_app_l_Some.
    + intros x [Hx| ->%list_elem_of_singleton]%elem_of_app; auto.
    + intros x. rewrite elem_of_difference, elem_of_union, elem_of_singleton. intros [Hx Hne] [?|?]; [done|].
      by apply (Hdis x Hx).
  - split; cbn; [exists (l ++ [n]); by rewrite El, app_assoc|]. rewrite Ht. set_solver.
  - cbn. apply elem_of_app. right. by apply list_elem_of_singleton.
Qed.

Lemma visit_spec fuel g n s : ok_search g s -> ready fuel g n s -> visited_ok g n s (visit fuel g n s).
Proof.
  revert n s. induction fuel as [|fuel IH]; intros n s Hs (Hfuel & Hn & Hreach); [lia|]. cbn [visit].
  case_bool_decide as Ht.
  { unfold visited_ok. cbn. exists n. split; [by apply Hreach|done]. }
  case_bool_decide as Hv.
  { unfold visited_ok. cbn. split_and!; [done|apply extends_refl|]. by apply (os_visited g s Hs). }
  set (s1 := {| found := found s; visited := visited s; temp := {[n]} ∪ temp s |}).
  assert (Heach : match (each (visit fuel g) (deps g n) s1).2 with
    | Ok _ => ok_search g (each (visit fuel g) (deps g n) s1).1 /\ extends s1 (each (visit fuel g) (deps g n) s1).1 /\
              forall d, d ∈ deps g n -> d ∈ found (each (visit fuel g) (deps g n) s1).1
    | Err m => cycle_error g m
    end).
  { apply (each_spec (visit fuel g) g (ready fuel g)).
    - intros d s' _ Hs' Hr. by apply IH.
    - intros d s' s'' [_ Et] (Hf & Hd & Hr). unfold ready. by rewrite Et.
    - by apply open_ok.
    - apply Forall_forall. intros d Hd. split_and!; cbn.
      + assert (size (allTypes g ∖ ({[n]} ∪ temp s)) < size (allTypes g ∖ temp s))%nat; [|lia].
        apply subset_size. set_solver.
      + by apply (edge_nodes g n d).
      + intros t [->%elem_of_singleton|Htt]%elem_of_union; [by apply tc_once|].
        eapply tc_r; [by apply Hreach|done]. }
  destruct (each (visit fuel g) (deps g n) s1) as [s2 [[]|m]]; cbn [fst snd] in Heach;
    unfold visited_ok; cbn [fst snd]; [|done].
  destruct Heach as (Hs2 & [[l El] Et] & Hall).
  apply close_ok; [done|done|rewrite Et; set_solver|done|done|by exists l|]. intros d Hd. by apply Hall.
Qed.

Lemma visit_new_spec fuel g n s : ok_search g s -> ready fuel g n s -> visited_ok g n s (visit_new fuel g n s).
Proof.
  intros Hs Hr. unfold visit_new. case_bool_decide as Hv; [|by apply visit_spec].
  unfold visited_ok. cbn. split_and!; [done|apply extends_refl|]. by apply (os_visited g s Hs).
Qed.

(** A list with dependencies first leaves no room for a cycle. *)
Lemma deps_first_acyclic g l : deps_first g l -> (forall n, n ∈ allTypes g -> n ∈ l) -> acyclic g.
Proof.
  intros Hf Hall n Hc.
  assert (Hpos : forall x y, tc (edge g) x y -> forall i, l !! i = Some x -> exists j, (j < i)%nat /\ l !! j = Some y).
  { intros x y. induction 1 as [x y He|x y z He Hy IH]; intros i Hi.
    - by apply (Hf i x).
    - destruct (Hf i x Hi y He) as (j & Hj & Hjy). destruct (IH j Hjy) as (k & Hk & ?). exists k. split; [lia|done]. }
  assert (Hn : n ∈ allTypes g).
  { inversion Hc as [? ? He|? y ? He _]; subst; by destruct (edge_nodes _ _ _ He). }
  destruct (list_elem_of_lookup_1 _ _ (Hall n Hn)) as [i Hi]. clear Hn. revert Hi.
  induction i as [i IH] using lt_wf_ind. intros Hi. destruct (Hpos n n Hc i Hi) as (j & Hj & Hjn). by apply (IH j).
Qed.

Lemma ResolveOrder_ok g order : order ≡ₚ elements (allTypes g) ->
  match ResolveOrder order g with
  | Ok l => l ≡ₚ elements (allTypes g) /\ deps_first g l /\ acyclic g
  | Err m => cycle_error g m
  end.
Proof.
  intros Hord. unfold ResolveOrder. set (s0 := {| found := []; visited := ∅; temp := ∅ |}).
  assert (Hin : forall n, n ∈ order <-> n ∈ allTypes g) by (intros n; by rewrite Hord, elem_of_elements).
  set (f := visit_new (S (size (allTypes g))) g).
  assert (H : match (each f order s0).2 with
    | Ok _ => ok_search g (each f order s0).1 /\ extends s0 (each f order s0).1 /\
              forall n, n ∈ order -> n ∈ found (each f order s0).1
    | Err m => cycle_error g m
    end).
  { apply (each_spec f g (ready (S (size (allTypes g))) g)).
    - intros n s' _ Hs Hr. by apply visit_new_spec.
    - intros n s' s'' [_ Et] (Hfu & Hn & Hr). unfold ready. by rewrite Et.
    - constructor; cbn; [constructor|set_solver| |set_solver..]. intros i n Hi. by rewrite lookup_nil in Hi.
    - apply Forall_forall. intros n Hn. split_and!; cbn; [|by apply Hin|set_solver].
      rewrite difference_empty_L. lia. }
  destruct (each f order s0) as [s [[]|m]]; cbn [fst snd] in H; [|done].
  destruct H as ([Hnd Hv Hf Hnodes _] & _ & Hall).
  assert (Hel : forall n, n ∈ allTypes g -> n ∈ found s) by (intros n ?; by apply Hall, Hin).
  split_and!; [|done|by eapply deps_first_acyclic]. apply NoDup_Permutation; [done|apply NoDup_elements|].
  intros n. rewrite elem_of_elements. split; auto.
Qed.

(** C35: Whatever the order in which the types are walked, the search of
    [ResolveOrder] ends within its fuel: it returns every type that occurs in a
    link exactly once, each after the types it depends on, and then the links
    have no cycle; or it fails with the error of a cycle, never with the end
    of the fuel, and the type the error names does depend on itself. *)
Theorem ResolveOrder_spec g order : order ≡ₚ elements (allTypes g) ->
  match ResolveOrder order g with
  | Ok l => l ≡ₚ elements (allTypes g) /\ deps_first g l /\ acyclic g
  | Err m => cycle_error g m
  end.
Proof. apply ResolveOrder_ok. Qed.

Definition list_links : DependencyGraph := AddLink "list_items" "lists" (AddLink "ruleset_rules" "rulesets" ∅).

Lemma ResolveOrder_spec_witness :
  match ResolveOrder ["ruleset_rules"; "list_items"; "lists"; "rulesets"] list_links with
  | Ok l => deps_first list_links l /\ l = ["rulesets"; "ruleset_rules"; "lists"; "list_items"]
  | Err _ => False
  end.
Proof.
  pose proof (ResolveOrder_spec list_links ["ruleset_rules"; "list_items"; "lists"; "rulesets"]) as H.
  destruct (ResolveOrder _ list_links) as [l|m] eqn:E; [|by vm_compute in E].
  split; [apply H; apply (bool_decide_unpack _); by vm_compute|]. vm_compute in E. congruence.
Defined.

End Graph.

(** ** Assembly per resource type ([multi/assembler.go]) *)
Module GraphAssembler.
Import Resources Graph Snapshot Assembler.

Record GraphAssembler := {
  ga_builders : gmap string Assembler;
  ga_order : list string;
  ga_provenance : ProvenanceMetadata;
  ga_createdAt : Z;
}.

Definition zero_provenance : ProvenanceMetadata :=
  {| FixtureID := ""; ReplayID := ""; GeneratedBy := ""; GeneratedAt := 0 |}.

Definition links (ds : list Descriptor) : DependencyGraph :=
  foldl (fun g d => foldl (fun g dep => AddLink (d_Type d) dep g) g (d_Dependencies d)) ∅ ds.

(** [ds] lists the registry in some order, [order] the types of its links. *)
Definition NewGraphAssembler (now : Z) (ds : list Descriptor) (order : list string) : result GraphAssembler :=
  match ResolveOrder order (links ds) with
  | Err m => Err (wrap_msg "snapshot.builder.multi.NewGraphAssembler" m)
  | Ok order => Ok {| ga_builders := foldl (fun m rt => <[rt := NewAssembler now rt]> m) ∅ order;
                      ga_order := order; ga_provenance := zero_provenance; ga_createdAt := now |}
  end.

Definition ga_SetMetadata (p : ProvenanceMetadata) (a : GraphAssembler) : GraphAssembler :=
  {| ga_builders := ga_builders a; ga_order := ga_order a; ga_provenance := p; ga_createdAt := ga_createdAt a |}.

Definition ga_SetCreatedAt (t : Z) (a : GraphAssembler) : GraphAssembler :=
  {| ga_builders := SetCreatedAt t <$> ga_builders a; ga_order := ga_order a;
     ga_provenance := ga_provenance a; ga_createdAt := t |}.

Definition ga_Add (rt : string) (objects : list NormalizedObject) (a : GraphAssembler) : GraphAssembler * result unit :=
  match ga_builders a !! rt with
  | None => (a, Err (wrap_msg "snapshot.builder.multi.GraphAssembler.Add" ("unsupported resource type: " +:+ rt)))
  | Some b => let '(b, r) := Add objects b in
              ({| ga_builders := <[rt := b]> (ga_builders a); ga_order := ga_order a;
                  ga_provenance := ga_provenance a; ga_createdAt := ga_createdAt a |}, r)
  end.

(** One snapshot per type, in dependency order. *)
Definition BuildAll (a : GraphAssembler) : list Snapshot :=
  omap (fun rt => asm_Build <$> ga_builders a !! rt) (ga_order a).

Lemma foldl_insert_lookup {A} (f : string -> A) l (m : gmap string A) rt :
  foldl (fun m rt => <[rt := f rt]> m) m l !! rt =
  if bool_decide (rt ∈ l) then Some (f rt) else m !! rt.
Proof.
  revert m. induction l as [|x l IH]; intros m; cbn [foldl].
  { by rewrite bool_decide_false by (intros H; by apply not_elem_of_nil in H). }
  rewrite IH. destruct (decide (rt ∈ l)) as [Hl|Hl].
  { rewrite !bool_decide_true by (try done; by right). done. }
  rewrite (bool_decide_false _ Hl). destruct (decide (rt = x)) as [->|Hne].
  - rewrite lookup_insert, decide_True by done. by rewrite bool_decide_true by by left.
  - rewrite lookup_insert_ne by done. rewrite bool_decide_false; [done|].
    by intros [?|?]%elem_of_cons.
Qed.

(** The types of a new graph assembler are those that occur in a dependency. *)
Lemma NewGraphAssembler_types now ds order a rt : order ≡ₚ elements (allTypes (links ds)) ->
  NewGraphAssembler now ds order = Ok a -> is_Some (ga_builders a !! rt) <-> rt ∈ allTypes (links ds).
Proof.
  intros Hord. unfold NewGraphAssembler. pose proof (ResolveOrder_ok (links ds) order Hord) as H.
  destruct (ResolveOrder order (links ds)) as [l|m]; [|done]. intros [= <-]. cbn.
  destruct H as [Hl _]. rewrite foldl_insert_lookup, <- elem_of_elements, <- Hl, lookup_empty.
  case_bool_decide; [by split; eauto|]. split; [by intros [? ?]|done].
Qed.

Lemma links_types ds n : n ∈ allTypes (links ds) ->
  exists d dep, d ∈ ds /\ dep ∈ d_Dependencies d /\ (n = d_Type d \/ n = dep).
Proof.
  unfold links. induction ds as [|d ds IH] using rev_ind.
  { cbn. intros [H|[m H]]%allTypes_spec; [set_solver|].
    unfold edge, deps in H. rewrite lookup_empty in H. by apply not_elem_of_nil in H. }
  rewrite foldl_app. cbn [foldl].
  set (g := foldl _ ∅ ds) in *.
  assert (Hg : forall l, n ∈ allTypes (foldl (fun g dep => AddLink (d_Type d) dep g) g l) ->
    (exists dep, dep ∈ l /\ (n = d_Type d \/ n = dep)) \/ n ∈ allTypes g).
  { intros l. induction l as [|dep l IHd] using rev_ind; [by right|]. rewrite foldl_app. cbn [foldl].
    intros [?|[?|?]]%AddLink_types.
    - left. exists dep. split; [apply elem_of_app; right; by apply list_elem_of_singleton|auto].
    - left. exists dep. split; [apply elem_of_app; right; by apply list_elem_of_singleton|auto].
    - destruct IHd as [(dep' & ? & ?)|?]; [done| |by right]. left. exists dep'. split; [|done]. apply elem_of_app. by left. }
  intros [(dep & ? & ?)|?]%Hg.
  - exists d, dep. split; [apply elem_of_app; right; by apply list_elem_of_singleton|done].
  - destruct IH as (d' & dep & ? & ?); [done|]. exists d', dep. split; [|done]. apply elem_of_app. by left.
Qed.

(** No dependency of the registry names the access rules. *)
Lemma access_rules_unlinked : Forall (fun d => Forall (fun dep =>
  d_Type d <> ResourceIPAccessRules /\ dep <> ResourceIPAccessRules) (d_Dependencies d)) (All NewRegistry).
Proof. apply (bool_decide_unpack _). by vm_compute. Qed.

(** The registry's first resource type, the access rules that hold the bans,
    is in no dependency, so that the assembler over the whole registry has no
    builder for it and refuses its objects. *)
Theorem access_rules_unsupported now ds order a objects :
  ds ≡ₚ All NewRegistry -> order ≡ₚ elements (allTypes (links ds)) ->
  NewGraphAssembler now ds order = Ok a ->
  Get ResourceIPAccessRules NewRegistry <> None /\
  ga_Add ResourceIPAccessRules objects a =
    (a, Err (wrap_msg "snapshot.builder.multi.GraphAssembler.Add" "unsupported resource type: ip_access_rules")).
Proof.
  intros Hds Hord Ha. split; [by vm_compute|].
  pose proof (NewGraphAssembler_types now ds order a ResourceIPAccessRules Hord Ha) as H. unfold ga_Add.
  destruct (ga_builders a !! ResourceIPAccessRules) as [b|]; [|done]. exfalso.
  destruct H as [H _]. specialize (H ltac:(eauto)). apply links_types in H as (d & dep & Hd & Hdep & Hor).
  rewrite Hds in Hd. pose proof access_rules_unlinked as Hall. rewrite Forall_forall in Hall.
  specialize (Hall d Hd). rewrite Forall_forall in Hall. destruct (Hall dep Hdep), Hor; congruence.
Qed.

Lemma access_rules_unsupported_witness :
  exists a, NewGraphAssembler 0 (All NewRegistry) (elements (allTypes (links (All NewRegistry)))) = Ok a /\
    is_ok (ga_Add ResourceIPAccessRules [] a).2 = false /\ is_ok (ga_Add ResourceLists [] a).2 = true.
Proof.
  destruct (NewGraphAssembler 0 (All NewRegistry) (elements (allTypes (links (All NewRegistry))))) as [a|m] eqn:E;
    [|by vm_compute in E].
  exists a. split; [done|].
  destruct (access_rules_unsupported 0 _ _ a [] (Permutation_refl _) (Permutation_refl _) E) as [_ ->].
  split; [done|]. vm_compute in E. injection E as <-. by vm_compute.
Defined.

End GraphAssembler.
