(* ===== verification/Planner.v ===== *)
(** * Reconciliation planner

    [internal/reconciliation]: the operations that turn the current snapshot
    into the target state.  The theorems relate a plan to the map from keys to
    attributes that a snapshot describes. *)

From S2P Require Import Prelude GoFmt Sha256 Events Snapshot.

Local Open Scope Z_scope.

Module Planner.
Import Json Canonical Snapshot.

Definition OpCreate : string := "create".
Definition OpDelete : string := "delete".
Definition OpUpdate : string := "update".
Definition StatePlanned : string := "planned".

Record Operation := {
  OperationID : string;
  op_Type : string;
  TargetID : string;
  ResourceType : string;
  op_Reason : string;
  IdempotencyKey : string;
  op_State : string;
  op_Payload : option attrs;
  Preconditions : option attrs;
}.

Record Plan := {
  PlanID : string;
  pl_SnapshotID : string;
  pl_CreatedAt : Z;
  Operations : list Operation;
  DryRunSummary : string;
  pl_Status : string;
}.

Definition attributesEqual (a b : attrs) : bool :=
  bool_decide (CanonicalJSON (VMap a) = CanonicalJSON (VMap b)).

Definition deriveOpID (now : Z) (t targetID : string) : string :=
  "op-" +:+ String.substring 0 16 (Sha256.hex_digest (t +:+ ":" +:+ targetID +:+ ":" +:+ text_time now)).

Definition deriveIdempotencyKey (t targetID : string) (payload : option attrs) : string :=
  let payloadStr := match payload with Some a => CanonicalJSON (VMap a) | None => "" end in
  Sha256.hex_digest (t +:+ ":" +:+ targetID +:+ ":" +:+ payloadStr).

Definition typePriority (t : string) : Z :=
  if bool_decide (t = OpDelete) then 1
  else if bool_decide (t = OpUpdate) then 2
  else if bool_decide (t = OpCreate) then 3 else 4.

Definition countType (ops : list Operation) (t : string) : Z :=
  Z.of_nat (length (List.filter (fun o => bool_decide (op_Type o = t)) ops)).

(** The objects by key; the last of two with the same key stays. *)
Definition by_key (l : list NormalizedObject) : gmap string NormalizedObject :=
  foldl (fun m o => <[StableIdentityKey o := o]> m) ∅ l.

Definition delete_op (now : Z) (o : NormalizedObject) : Operation :=
  let k := StableIdentityKey o in
  {| OperationID := deriveOpID now OpDelete k; op_Type := OpDelete; TargetID := k;
     ResourceType := ObjectType o; op_Reason := "not present in target state";
     IdempotencyKey := deriveIdempotencyKey OpDelete k None; op_State := StatePlanned;
     op_Payload := None; Preconditions := None |}.

Definition create_op (now : Z) (o : NormalizedObject) : Operation :=
  let k := StableIdentityKey o in
  {| OperationID := deriveOpID now OpCreate k; op_Type := OpCreate; TargetID := k;
     ResourceType := ObjectType o; op_Reason := "present in target but not in current state";
     IdempotencyKey := deriveIdempotencyKey OpCreate k (Some (Attributes o)); op_State := StatePlanned;
     op_Payload := Some (Attributes o); Preconditions := None |}.

Definition update_op (now : Z) (curr o : NormalizedObject) : Operation :=
  let k := StableIdentityKey o in
  {| OperationID := deriveOpID now OpUpdate k; op_Type := OpUpdate; TargetID := k;
     ResourceType := ObjectType o; op_Reason := "attributes differ between current and target state";
     IdempotencyKey := deriveIdempotencyKey OpUpdate k (Some (Attributes o)); op_State := StatePlanned;
     op_Payload := Some (Attributes o); Preconditions := Some (Attributes curr) |}.

(** Deletions: in the current state, not in the target. *)
Definition deletions (now : Z) (current target : list NormalizedObject) : list Operation :=
  omap (fun o => match by_key target !! StableIdentityKey o with
                 | Some _ => None
                 | None => Some (delete_op now o)
                 end) current.

(** Additions and updates. *)
Definition changes (now : Z) (current target : list NormalizedObject) : list Operation :=
  omap (fun o => match by_key current !! StableIdentityKey o with
                 | None => Some (create_op now o)
                 | Some curr => if attributesEqual (Attributes curr) (Attributes o) then None
                                else Some (update_op now curr o)
                 end) target.

Definition op_lt (a b : Operation) : bool :=
  if negb (bool_decide (op_Type a = op_Type b))
  then typePriority (op_Type a) <? typePriority (op_Type b)
  else str_lt (TargetID a) (TargetID b).

Definition current_objects (current : option Snapshot) : list NormalizedObject :=
  match current with Some s => Objects s | None => [] end.

Definition GenericPlan (now : Z) (current : option Snapshot) (target : list NormalizedObject) : Plan :=
  let cur := current_objects current in
  let ops := isort op_lt (deletions now cur target ++ changes now cur target) in
  {| PlanID := "plan-" +:+ GoFmt.fmt_d (unix_nano now);
     pl_SnapshotID := match current with Some s => SnapshotID s | None => "" end;
     pl_CreatedAt := now; Operations := ops;
     DryRunSummary := "Planned " +:+ GoFmt.fmt_d (Z.of_nat (length ops)) +:+ " operations: " +:+
       GoFmt.fmt_d (countType ops OpCreate) +:+ " creations, " +:+
       GoFmt.fmt_d (countType ops OpUpdate) +:+ " updates, " +:+
       GoFmt.fmt_d (countType ops OpDelete) +:+ " deletions";
     pl_Status := "draft" |}.

(** ** The state a list of objects describes, and what operations do to it *)
Definition state_of (l : list NormalizedObject) : gmap string attrs := Attributes <$> by_key l.

(** What an operation leaves at its target. *)
Definition outcome (o : Operation) : option attrs :=
  if bool_decide (op_Type o = OpDelete) then None else op_Payload o.

Definition apply_op (m : gmap string attrs) (o : Operation) : gmap string attrs :=
  match outcome o with
  | None => delete (TargetID o) m
  | Some a => <[TargetID o := a]> m
  end.

Definition apply_ops (ops : list Operation) (m : gmap string attrs) : gmap string attrs :=
  foldl apply_op m ops.

(** Operations that agree on a key leave there what they agree on, in any
    order. *)
Lemma apply_ops_lookup ops m k v :
  (forall o, o ∈ ops -> TargetID o = k -> outcome o = v) ->
  apply_ops ops m !! k = if bool_decide (k ∈ TargetID <$> ops) then v else m !! k.
Proof.
  unfold apply_ops. induction ops as [|o ops IH] using rev_ind; intros Hv.
  { by rewrite bool_decide_false by (intros H; by apply not_elem_of_nil in H). }
  rewrite foldl_app. cbn [foldl].
  assert (Hmem : k ∈ TargetID <$> ops ++ [o] <-> k ∈ TargetID <$> ops \/ k = TargetID o).
  { rewrite fmap_app, elem_of_app. cbn. by rewrite list_elem_of_singleton. }
  destruct (decide (TargetID o = k)) as [Hk|Hk].
  - rewrite bool_decide_true by (apply Hmem; by right).
    unfold apply_op. rewrite (Hv o) by (done || (apply elem_of_app; right; by apply list_elem_of_singleton)).
    destruct v; subst k; [by rewrite lookup_insert, decide_True|by rewrite lookup_delete_eq].
  - transitivity (foldl apply_op m ops !! k).
    { unfold apply_op. destruct (outcome o); [by rewrite lookup_insert_ne|by rewrite lookup_delete_ne]. }
    rewrite IH by (intros o' Ho'; apply Hv; apply elem_of_app; by left).
    apply (f_equal (fun b : bool => if b then v else m !! k)), bool_decide_ext. rewrite Hmem. intuition congruence.
Qed.

Lemma by_key_spec l k o : by_key l !! k = Some o -> o ∈ l /\ StableIdentityKey o = k.
Proof.
  unfold by_key. induction l as [|x l IH] using rev_ind; [by cbn; rewrite lookup_empty|].
  rewrite foldl_app. cbn [foldl]. intros [[? ?]|[? H]]%lookup_insert_Some.
  - subst. split; [|done]. apply elem_of_app. right. by apply list_elem_of_singleton.
  - destruct (IH H). split; [|done]. apply elem_of_app. by left.
Qed.

Lemma by_key_none l k : by_key l !! k = None <-> k ∉ StableIdentityKey <$> l.
Proof.
  unfold by_key. induction l as [|x l IH] using rev_ind.
  { cbn. rewrite lookup_empty. split; [|done]. intros _ H. by apply not_elem_of_nil in H. }
  rewrite foldl_app, fmap_app, elem_of_app. cbn [foldl fmap list_fmap]. rewrite lookup_insert_None, IH, list_elem_of_singleton.
  intuition congruence.
Qed.

Lemma by_key_nodup l o : NoDup (StableIdentityKey <$> l) -> o ∈ l -> by_key l !! StableIdentityKey o = Some o.
Proof.
  intros Hn Ho. destruct (by_key l !! StableIdentityKey o) as [o'|] eqn:E.
  - apply by_key_spec in E as [Ho' Hk]. f_equal.
    apply list_elem_of_lookup_1 in Ho as [i Hi], Ho' as [j Hj].
    assert (i = j); [|congruence]. eapply (NoDup_lookup _ _ _ (StableIdentityKey o) Hn);
      rewrite list_lookup_fmap, ?Hi, ?Hj; cbn; congruence.
  - apply by_key_none in E. exfalso. apply E. apply list_elem_of_fmap. eauto.
Qed.

(** ** Correctness of plans *)
Section plan.
Context (now : Z) (cur target : list NormalizedObject).
Context (Hn : NoDup (StableIdentityKey <$> target)).
Context (Hwc : Forall (fun o => wf_value (VMap (Attributes o))) cur).
Context (Hwt : Forall (fun o => wf_value (VMap (Attributes o))) target).
Abbreviation ops := (deletions now cur target ++ changes now cur target).

Lemma attributesEqual_iff a b : wf_value (VMap a) -> wf_value (VMap b) -> attributesEqual a b = true <-> a = b.
Proof.
  intros Ha Hb. unfold attributesEqual. rewrite bool_decide_eq_true. split; [|by intros ->].
  intros H. apply CanonicalJSON_inj in H; [|done|done]. congruence.
Qed.

Lemma wf_by_key l k o : Forall (fun o => wf_value (VMap (Attributes o))) l ->
  by_key l !! k = Some o -> wf_value (VMap (Attributes o)).
Proof. intros H [Ho _]%by_key_spec. rewrite Forall_forall in H. by apply H. Qed.

(** Every operation is for a key where the two states differ, and leaves there
    what the target has. *)
Lemma ops_agree o : o ∈ ops ->
  outcome o = state_of target !! TargetID o /\
  state_of cur !! TargetID o <> state_of target !! TargetID o.
Proof.
  unfold state_of. rewrite !lookup_fmap, elem_of_app. unfold deletions, changes. rewrite !list_elem_of_omap.
  intros [(x & Hx & E)|(x & Hx & E)].
  - destruct (by_key target !! StableIdentityKey x) eqn:Et; [done|]. simplify_eq. cbn. rewrite Et. cbn.
    split; [done|]. destruct (by_key cur !! StableIdentityKey x) eqn:Ec; [done|].
    apply by_key_none in Ec. exfalso. apply Ec. apply list_elem_of_fmap. eauto.
  - pose proof (by_key_nodup target x Hn Hx) as Et.
    destruct (by_key cur !! StableIdentityKey x) as [c|] eqn:Ec.
    + destruct (attributesEqual (Attributes c) (Attributes x)) eqn:Ea; [done|]. simplify_eq. cbn.
      rewrite Et, Ec. cbn. split; [done|]. intros [= Heq]. rewrite Heq in Ea. unfold attributesEqual in Ea.
      by bool_simpl.
    + simplify_eq. cbn. rewrite Et, Ec. done.
Qed.

(** Where there is no operation the states agree. *)
Lemma ops_complete k : k ∉ TargetID <$> ops -> state_of cur !! k = state_of target !! k.
Proof.
  unfold state_of. rewrite !lookup_fmap. intros Hno.
  assert (Hno' : forall o, o ∈ ops -> TargetID o <> k) by (intros o Ho <-; apply Hno, list_elem_of_fmap; eauto).
  destruct (by_key target !! k) as [t|] eqn:Et, (by_key cur !! k) as [c|] eqn:Ec; try done; cbn.
  - destruct (by_key_spec _ _ _ Et) as [Ht Hk]. destruct (attributesEqual (Attributes c) (Attributes t)) eqn:E.
    + f_equal. exact (proj1 (attributesEqual_iff _ _ (wf_by_key _ _ _ Hwc Ec) (wf_by_key _ _ _ Hwt Et)) E).
    + exfalso. apply (Hno' (update_op now c t)); [|done]. apply elem_of_app. right. apply list_elem_of_omap.
      exists t. split; [done|]. by rewrite Hk, Ec, E.
  - exfalso. destruct (by_key_spec _ _ _ Et) as [Ht Hk]. apply (Hno' (create_op now t)); [|done].
    apply elem_of_app. right. apply list_elem_of_omap. exists t. split; [done|]. by rewrite Hk, Ec.
  - exfalso. destruct (by_key_spec _ _ _ Ec) as [Hc Hk]. apply (Hno' (delete_op now c)); [|done].
    apply elem_of_app. left. apply list_elem_of_omap. exists c. split; [done|]. by rewrite Hk, Et.
Qed.

Lemma apply_perm ops' : ops' ≡ₚ ops -> apply_ops ops' (state_of cur) = state_of target.
Proof.
  intros Hp. apply map_eq. intros k. rewrite (apply_ops_lookup _ _ k (state_of target !! k)).
  - case_bool_decide as Hk; [done|]. rewrite Hp in Hk. by apply ops_complete.
  - intros o Ho <-. rewrite Hp in Ho. by apply ops_agree.
Qed.
End plan.

(** C24: A plan leads from the current state to the target: applying its operations
    to the map of current attributes gives the map of target attributes, and
    each operation is for a key where the two differ. *)
Theorem plan_reaches_target now current target :
  NoDup (StableIdentityKey <$> target) ->
  Forall (fun o => wf_value (VMap (Attributes o))) (current_objects current) ->
  Forall (fun o => wf_value (VMap (Attributes o))) target ->
  let p := GenericPlan now current target in
  apply_ops (Operations p) (state_of (current_objects current)) = state_of target /\
  Forall (fun o => state_of (current_objects current) !! TargetID o <> state_of target !! TargetID o) (Operations p).
Proof.
  intros Hn Hwc Hwt p. cbn. split.
  - apply (apply_perm now _ _ Hn Hwc Hwt), isort_perm.
  - apply Forall_forall. intros o Ho. rewrite elem_of_isort in Ho. by apply (ops_agree now _ _ Hn) in Ho as [_ ?].
Qed.

(** Nothing is planned when the current state is the target. *)
Lemma plan_same now current target :
  NoDup (StableIdentityKey <$> target) ->
  Forall (fun o => wf_value (VMap (Attributes o))) (current_objects current) ->
  Forall (fun o => wf_value (VMap (Attributes o))) target ->
  state_of (current_objects current) = state_of target ->
  Operations (GenericPlan now current target) = [].
Proof.
  intros Hn Hwc Hwt He. cbn. apply isort_nil_iff. destruct (_ ++ _) as [|o l] eqn:E; [done|].
  destruct (ops_agree now (current_objects current) target Hn o) as [_ Hne]; [rewrite E; by left|].
  by rewrite He in Hne.
Qed.

(** Deletions come before updates and updates before creations. *)
Theorem plan_order now current target :
  StronglySorted (fun a b => typePriority (op_Type a) <= typePriority (op_Type b))
    (Operations (GenericPlan now current target)).
Proof.
  apply isort_sorted.
  - intros x y. unfold op_lt. case_bool_decide as E; cbn; [rewrite E; lia|lia].
  - intros x y. unfold op_lt. case_bool_decide as E; cbn; [rewrite E; lia|lia].
  - intros x y z. lia.
Qed.

Definition obj (k a : string) : NormalizedObject :=
  {| ObjectID := ""; ObjectType := ResourceLists; StableIdentityKey := k; Attributes := [("a", VString a)];
     no_Metadata := {| om_SourcePage := 0; om_CapturedAt := 0; om_SchemaVersion := 0 |} |}.

Lemma plan_reaches_target_witness :
  let p := GenericPlan 7 None [obj "k1" "x"; obj "k2" "y"] in
  op_Type <$> Operations p = [OpCreate; OpCreate] /\
  apply_ops (Operations p) (state_of []) = state_of [obj "k1" "x"; obj "k2" "y"].
Proof.
  intros p. split; [by vm_compute|].
  apply (plan_reaches_target 7 None [obj "k1" "x"; obj "k2" "y"]).
  - apply (bool_decide_unpack _). by vm_compute.
  - by apply Forall_nil_2.
  - repeat constructor.
Defined.

End Planner.
