(* ===== verification/Execution.v ===== *)
(** * Governed execution

    [internal/execution]: mutation batches, approvals, validators and the
    executor that takes a batch to a provider.  A provider, the security guard
    and the fencing validator are interfaces of the source: a provider is the
    class [ProviderMutator], the other two are functions of the time, which the
    executor holds when they are configured.  The clock moves while a provider
    works; the context of a batch is the function of the time that tells
    whether it was cancelled, and why.  Metadata of audit records is left out. *)

From S2P Require Import Prelude GoFmt Sha256 RuntimeModels Lease Events Lifecycle Scheduler Snapshot ResourceGraph Planner.

Local Open Scope Z_scope.

(** ** Batches and operations ([models.go]) *)
Module Mutations.
Import Canonical.

Definition StatePlanned : string := "planned".
Definition StateValidating : string := "validating".
Definition StateExecuting : string := "executing".
Definition StateCompleted : string := "completed".
Definition StateFailed : string := "failed".
Definition StateRolledBack : string := "rolled_back".
Definition StateQuarantined : string := "quarantined".
Definition StateAwaitingApproval : string := "awaiting_approval".

Definition ApprovalPending : string := "pending".
Definition ApprovalApproved : string := "approved".
Definition ApprovalRejected : string := "rejected".
Definition ApprovalExpired : string := "expired".

Record MutationOperation := {
  mo_OperationID : string;
  mo_ScopeID : string;
  mo_Type : string;
  mo_ResourceType : string;
  mo_StableIdentityKey : string;
  mo_State : string;
  mo_ProviderObjectID : string;
  mo_ExpectedETag : string;
  mo_Payload : option value;
  mo_ResultID : string;
  mo_StartedAt : Z;
  mo_FinishedAt : Z;
  mo_Error : string;
  mo_ApprovalRequired : bool;
  mo_ApprovalID : string;
  mo_ApprovalStatus : string;
  mo_ApprovalExpiresAt : Z;
  mo_ApprovedBy : string;
  mo_ApprovalReason : string;
  mo_LeaseID : string;
  mo_FencingToken : Z;
  mo_LeaseAction : string;
}.

Record MutationBatch := {
  mb_ID : string;
  mb_ScopeID : string;
  mb_PlanID : string;
  mb_SnapshotChecksum : string;
  mb_Operations : list MutationOperation;
  mb_CreatedAt : Z;
  mb_Status : string;
  mb_EpochID : string;
  mb_Generation : Z;
  mb_LeaseID : string;
  mb_FencingToken : Z;
  mb_LeaseAction : string;
  mb_DestructiveCount : Z;
  mb_ApprovalRequired : bool;
  mb_ApprovalID : string;
  mb_ApprovalStatus : string;
  mb_ApprovalExpiresAt : Z;
  mb_ApprovedBy : string;
  mb_ApprovalReason : string;
}.

Definition batch_RequiresApprovedExecution (now : Z) (b : MutationBatch) : bool :=
  if negb (mb_ApprovalRequired b) then false
  else if negb (bool_decide (mb_ApprovalStatus b = ApprovalApproved)) then true
  else negb (is_zero_time (mb_ApprovalExpiresAt b)) && t_after now (mb_ApprovalExpiresAt b).

Definition op_RequiresApprovedExecution (now : Z) (op : MutationOperation) : bool :=
  if negb (mo_ApprovalRequired op) then false
  else if negb (bool_decide (mo_ApprovalStatus op = ApprovalApproved)) then true
  else negb (is_zero_time (mo_ApprovalExpiresAt op)) && t_after now (mo_ApprovalExpiresAt op).

(** State, result, times and error of an operation. *)
Definition set_progress (state result : string) (started finished : Z) (err : string)
    (op : MutationOperation) : MutationOperation :=
  {| mo_OperationID := mo_OperationID op; mo_ScopeID := mo_ScopeID op; mo_Type := mo_Type op;
     mo_ResourceType := mo_ResourceType op; mo_StableIdentityKey := mo_StableIdentityKey op;
     mo_State := state; mo_ProviderObjectID := mo_ProviderObjectID op; mo_ExpectedETag := mo_ExpectedETag op;
     mo_Payload := mo_Payload op; mo_ResultID := result; mo_StartedAt := started; mo_FinishedAt := finished;
     mo_Error := err; mo_ApprovalRequired := mo_ApprovalRequired op; mo_ApprovalID := mo_ApprovalID op;
     mo_ApprovalStatus := mo_ApprovalStatus op; mo_ApprovalExpiresAt := mo_ApprovalExpiresAt op;
     mo_ApprovedBy := mo_ApprovedBy op; mo_ApprovalReason := mo_ApprovalReason op;
     mo_LeaseID := mo_LeaseID op; mo_FencingToken := mo_FencingToken op; mo_LeaseAction := mo_LeaseAction op |}.

Definition set_state (state : string) (op : MutationOperation) : MutationOperation :=
  set_progress state (mo_ResultID op) (mo_StartedAt op) (mo_FinishedAt op) (mo_Error op) op.
Definition set_error (state err : string) (op : MutationOperation) : MutationOperation :=
  set_progress state (mo_ResultID op) (mo_StartedAt op) (mo_FinishedAt op) err op.

(** The coordination fields, for the fencing validator. *)
Definition coordination (op : MutationOperation) : Fencing.MutationOperation :=
  {| Fencing.ScopeID := mo_ScopeID op; Fencing.LeaseID := mo_LeaseID op;
     Fencing.FencingToken := mo_FencingToken op; Fencing.LeaseAction := mo_LeaseAction op |}.

(** Two operations with the same request, whatever their progress. *)
Definition same_request (a b : MutationOperation) : Prop :=
  set_progress "" "" 0 0 "" a = set_progress "" "" 0 0 "" b.

End Mutations.

(** ** Approvals ([approval.go] and the checks of [executor.go]) *)
Module Approval.
Import Json Mutations.

Record ApprovalEvidence := {
  ae_EvidenceID : string;
  ae_Timestamp : Z;
  ae_Event : string;
  ae_ScopeID : string;
  ae_BatchID : string;
  ae_OperationID : string;
  ae_PlanID : string;
  ae_ApprovalID : string;
  ae_Status : string;
  ae_Reason : string;
  ae_ApprovedBy : string;
  ae_RequestedAt : Z;
  ae_DecidedAt : Z;
  ae_ExpiresAt : Z;
  ae_ApprovalReason : string;
  ae_MutationType : string;
  ae_RiskLevel : string;
  ae_ParentEvidenceID : string;
  ae_LineageID : string;
  ae_DecisionHash : string;
  ae_Metadata : list (string * any);
}.

Definition approvalLineageID (b : MutationBatch) (op : option MutationOperation) : string :=
  let target := mb_ID b +:+ "|" +:+ mb_PlanID b +:+ "|" +:+ mb_ApprovalID b in
  let target := match op with
                | Some o => target +:+ "|" +:+ mo_OperationID o +:+ "|" +:+ mo_ApprovalID o
                | None => target
                end in
  String.substring 0 32 (Sha256.hex_digest target).

Definition decisionTargetID (op : option MutationOperation) : string :=
  match op with Some o => mo_OperationID o | None => "" end.

Definition approvalEvidenceID (b : MutationBatch) (op : option MutationOperation) (at_ : Z) : string :=
  let target := approvalLineageID b op +:+ "|" +:+ decisionTargetID op +:+ "|" +:+ GoFmt.fmt_d (unix_nano at_) in
  "approval-" +:+ String.substring 0 24 (Sha256.hex_digest target).

(** A field of the operation when it is set, of the batch otherwise. *)
Definition approvalID (b : MutationBatch) (op : option MutationOperation) : string :=
  match op with
  | Some o => if bool_decide (mo_ApprovalID o = "") then mb_ApprovalID b else mo_ApprovalID o
  | None => mb_ApprovalID b
  end.

Definition approvalStatus (b : MutationBatch) (op : option MutationOperation) : string :=
  match op with
  | Some o => if mo_ApprovalRequired o then mo_ApprovalStatus o else mb_ApprovalStatus b
  | None => mb_ApprovalStatus b
  end.

Definition approvalRequired (b : MutationBatch) (op : option MutationOperation) : bool :=
  match op with
  | Some o => if mo_ApprovalRequired o then true else mb_ApprovalRequired b
  | None => mb_ApprovalRequired b
  end.

Definition approvalExpiresAt (b : MutationBatch) (op : option MutationOperation) : Z :=
  match op with
  | Some o => if is_zero_time (mo_ApprovalExpiresAt o) then mb_ApprovalExpiresAt b else mo_ApprovalExpiresAt o
  | None => mb_ApprovalExpiresAt b
  end.

Definition approvedBy (b : MutationBatch) (op : option MutationOperation) : string :=
  match op with
  | Some o => if bool_decide (mo_ApprovedBy o = "") then mb_ApprovedBy b else mo_ApprovedBy o
  | None => mb_ApprovedBy b
  end.

Definition approvalReason (b : MutationBatch) (op : option MutationOperation) : string :=
  match op with
  | Some o => if bool_decide (mo_ApprovalReason o = "") then mb_ApprovalReason b else mo_ApprovalReason o
  | None => mb_ApprovalReason b
  end.

Definition approvalScope (b : MutationBatch) (op : option MutationOperation) : string :=
  match op with
  | Some o => if bool_decide (mo_ScopeID o = "") then mb_ScopeID b else mo_ScopeID o
  | None => mb_ScopeID b
  end.

Definition mutationType (op : option MutationOperation) : string :=
  match op with Some o => mo_Type o | None => "" end.

Definition riskLevel (b : MutationBatch) (op : option MutationOperation) : string :=
  match op with
  | Some o => if bool_decide (mo_Type o = "delete") then "high"
              else if bool_decide (mo_Type o = "update") then "medium" else "low"
  | None => if 0 <? mb_DestructiveCount b then "high" else "low"
  end.

Definition operationState (op : option MutationOperation) : string :=
  match op with Some o => mo_State o | None => "" end.

(** Fields tagged [omitempty] are left out when empty; a time never is. *)
Definition omit_empty (k s : string) : list (string * json) :=
  if bool_decide (s = "") then [] else [(k, JString s)].

Definition approvalDecisionHash (b : MutationBatch) (op : option MutationOperation) (event reason : string) : string :=
  Sha256.hex_digest (text (JObject (
    [("event", JString event)] ++ omit_empty "batch_id" (mb_ID b) ++
    omit_empty "operation_id" (decisionTargetID op) ++ omit_empty "approval_id" (approvalID b op) ++
    [("approval_status", JString (approvalStatus b op)); ("approval_required", JBool (approvalRequired b op));
     ("approval_expires_at", JTime (approvalExpiresAt b op))] ++
    omit_empty "approved_by" (approvedBy b op) ++ omit_empty "approval_reason" (approvalReason b op) ++
    omit_empty "reason" reason))).

(** [batchApprovalBlock] and [operationApprovalBlock]: the event and the reason
    that stop an execution, if any. *)
Definition batchApprovalBlock (b : MutationBatch) (now : Z) : option (string * string) :=
  if negb (mb_ApprovalRequired b) then None
  else if bool_decide (mb_ApprovalStatus b = ApprovalRejected) then
    Some ("approval_denied", "batch approval denied before execution")
  else if bool_decide (mb_ApprovalStatus b = ApprovalApproved) then
    if negb (is_zero_time (mb_ApprovalExpiresAt b)) && t_after now (mb_ApprovalExpiresAt b)
    then Some ("approval_expired", "batch approval expired before execution") else None
  else Some ("awaiting_approval", "batch requires approval before execution").

Definition operationApprovalBlock (op : MutationOperation) (now : Z) : option (string * string) :=
  if negb (mo_ApprovalRequired op) then None
  else if bool_decide (mo_ApprovalStatus op = ApprovalRejected) then
    Some ("approval_denied", "operation approval denied before execution")
  else if bool_decide (mo_ApprovalStatus op = ApprovalApproved) then
    if negb (is_zero_time (mo_ApprovalExpiresAt op)) && t_after now (mo_ApprovalExpiresAt op)
    then Some ("approval_expired", "operation approval expired before execution") else None
  else Some ("awaiting_approval", "approval required before execution").

Lemma approval_gate (req expired : bool) (status : string) (a b c : string * string) :
  (if negb req then None
   else if bool_decide (status = ApprovalRejected) then Some a
   else if bool_decide (status = ApprovalApproved) then if expired then Some b else None
   else Some c) = None <->
  (if negb req then false else if negb (bool_decide (status = ApprovalApproved)) then true else expired) = false.
Proof.
  destruct req; cbn [negb]; [|done]. destruct (decide (status = ApprovalRejected)) as [->|]; [done|].
  rewrite (bool_decide_false (status = ApprovalRejected)) by done.
  case_bool_decide; cbn [negb]; [|done]. by destruct expired.
Qed.

(** The checks of the executor agree with the predicates of the models. *)
Lemma batch_block_iff b now :
  batchApprovalBlock b now = None <-> batch_RequiresApprovedExecution now b = false.
Proof. apply approval_gate. Qed.

Lemma op_block_iff op now :
  operationApprovalBlock op now = None <-> op_RequiresApprovedExecution now op = false.
Proof. apply approval_gate. Qed.

Lemma op_approved op now : op_RequiresApprovedExecution now op = false <->
  mo_ApprovalRequired op = false \/
  mo_ApprovalStatus op = ApprovalApproved /\ (mo_ApprovalExpiresAt op = 0 \/ now <= mo_ApprovalExpiresAt op).
Proof.
  unfold op_RequiresApprovedExecution, is_zero_time, t_after. destruct (mo_ApprovalRequired op); cbn [negb]; [|naive_solver].
  case_bool_decide; cbn [negb]; [|naive_solver]. split; [|naive_solver lia].
  intros Hf. right. split; [done|]. destruct (Z.eqb_spec (mo_ApprovalExpiresAt op) 0); [auto|]. right. cbn in Hf. lia.
Qed.

End Approval.

(** ** Validators ([validators.go]) *)
Module Validators.
Import Mutations Snapshot Resources.

Definition find_object (key : string) (s : Snapshot) : option NormalizedObject :=
  List.find (fun o => bool_decide (StableIdentityKey o = key)) (Objects s).

Definition drift_op : string := "execution.DriftValidator.Validate".

(** A created resource must not exist yet, a changed or deleted one must. *)
Definition DriftValidate (op : MutationOperation) (current : option Snapshot) : result unit :=
  match current with
  | None => Err (wrap_msg drift_op "current snapshot is required for drift validation")
  | Some s =>
      let found := find_object (mo_StableIdentityKey op) s in
      if bool_decide (mo_Type op = "create") then
        match found with
        | Some _ => Err (wrap_msg drift_op ("drift detected: resource " +:+ mo_StableIdentityKey op +:+ " already exists"))
        | None => Ok tt
        end
      else if bool_decide (mo_Type op = "update" \/ mo_Type op = "delete") then
        match found with
        | None => Err (wrap_msg drift_op ("drift detected: resource " +:+ mo_StableIdentityKey op +:+ " no longer exists"))
        | Some _ => Ok tt
        end
      else Ok tt
  end.

Definition owner_op : string := "execution.OwnershipValidator.Validate".

Definition OwnershipValidate (reg : Registry) (op : MutationOperation) : result unit :=
  match Get (mo_ResourceType op) reg with
  | None => Err (wrap_msg owner_op ("unrecognized resource type: " +:+ mo_ResourceType op))
  | Some d =>
      if bool_decide (d_DefaultOwner d = OwnershipExternallyOwned)
      then Err (wrap_msg owner_op ("permission denied: resource " +:+ mo_StableIdentityKey op +:+ " is externally owned"))
      else Ok tt
  end.

Lemma OwnershipValidate_ok reg op : OwnershipValidate reg op = Ok tt <->
  exists d, Get (mo_ResourceType op) reg = Some d /\ d_DefaultOwner d <> OwnershipExternallyOwned.
Proof.
  unfold OwnershipValidate. destruct (Get (mo_ResourceType op) reg) as [d|]; [|naive_solver].
  case_bool_decide; naive_solver.
Qed.

End Validators.

(** ** Executor ([executor.go]) *)
Module Executor.
Import Breaker Resources Validators Approval Mutations.

Record GuardDecision := {
  gd_Allowed : bool;
  gd_Reason : string;
  gd_TargetIP : string;
  gd_Source : string;
  gd_RuleID : string;
  gd_RiskScore : Z;
  gd_EnforcementStage : string;
}.

Record AuditEvent := {
  au_Timestamp : Z;
  au_RunID : string;
  au_BatchID : string;
  au_OpID : string;
  au_Status : string;
  au_Action : string;
  au_Target : string;
  au_Duration : Z;
  au_Error : string;
}.

Definition audit (t : Z) (batch opID status err : string) : AuditEvent :=
  {| au_Timestamp := t; au_RunID := ""; au_BatchID := batch; au_OpID := opID; au_Status := status;
     au_Action := ""; au_Target := ""; au_Duration := 0; au_Error := err |}.

Record SecurityEvent := {
  se_Timestamp : Z;
  se_Source : string;
  se_IP : string;
  se_RuleID : string;
  se_AbuseType : string;
  se_RiskScore : Z;
  se_EnforcementStage : string;
  se_SuppressionReason : string;
  se_Severity : string;
}.

(** A provider: a call made at a time takes some time, changes the provider
    and returns the id of the object or an error. *)
Class ProviderMutator (P : Type) := Execute : Z -> MutationOperation -> P -> N * P * result string.

(** Why a context was cancelled: its error and its cause. *)
Record cancellation := { c_err : string; c_cause : string }.

(** The guard and the fencing validator, asked at a time, take some time to
    answer (the guard asks a reputation service, the validator the database);
    so does writing a record to the journal, the sink or the evidence table. *)
Record GovernedExecutor := {
  mutators : list string;   (** the resource types with a mutator *)
  ownerReg : Registry;
  guard : option (Z -> MutationOperation -> N * result GuardDecision);
  fencing : option (Z -> MutationOperation -> N * result unit);
  hasSink : bool;
  hasEvidence : bool;
  recordTime : Z -> N;
}.

Section executor.
Context {P : Type} `{!ProviderMutator P} (e : GovernedExecutor) (ctx : Z -> option cancellation).

(** Time, breaker, journal, telemetry, approval evidence and provider; and the
    calls that reached the provider, with their times. *)
Record World := {
  w_now : Z;
  w_breaker : CircuitBreaker;
  w_journal : list AuditEvent;
  w_sink : list SecurityEvent;
  w_evidence : list ApprovalEvidence;
  w_prov : P;
  w_calls : list (Z * MutationOperation);
}.

(** Time passes. *)
Definition elapse (d : N) (w : World) : World :=
  {| w_now := w_now w + Z.of_N d; w_breaker := w_breaker w; w_journal := w_journal w; w_sink := w_sink w;
     w_evidence := w_evidence w; w_prov := w_prov w; w_calls := w_calls w |}.

Definition record_elapse (w : World) : World := elapse (recordTime e (w_now w)) w.

Definition set_breaker (cb : CircuitBreaker) (w : World) : World :=
  {| w_now := w_now w; w_breaker := cb; w_journal := w_journal w; w_sink := w_sink w;
     w_evidence := w_evidence w; w_prov := w_prov w; w_calls := w_calls w |}.

Definition append_entry (a : AuditEvent) (w : World) : World :=
  {| w_now := w_now w; w_breaker := w_breaker w; w_journal := w_journal w ++ [a]; w_sink := w_sink w;
     w_evidence := w_evidence w; w_prov := w_prov w; w_calls := w_calls w |}.

Definition journal (a : AuditEvent) (w : World) : World := record_elapse (append_entry a w).

Definition publish (s : SecurityEvent) (w : World) : World :=
  if hasSink e then
    record_elapse
      {| w_now := w_now w; w_breaker := w_breaker w; w_journal := w_journal w; w_sink := w_sink w ++ [s];
         w_evidence := w_evidence w; w_prov := w_prov w; w_calls := w_calls w |}
  else w.

Definition recordApprovalEvidence (b : MutationBatch) (op : option MutationOperation)
    (event reason parentEvidenceID : string) (w : World) : World * string :=
  if negb (hasEvidence e) then (w, "")
  else
    let now := w_now w in
    let ev :=
      {| ae_EvidenceID := approvalEvidenceID b op now; ae_Timestamp := now; ae_Event := event;
         ae_ScopeID := approvalScope b op; ae_BatchID := mb_ID b; ae_OperationID := decisionTargetID op;
         ae_PlanID := mb_PlanID b; ae_ApprovalID := approvalID b op; ae_Status := approvalStatus b op;
         ae_Reason := reason; ae_ApprovedBy := approvedBy b op; ae_RequestedAt := now; ae_DecidedAt := now;
         ae_ExpiresAt := approvalExpiresAt b op; ae_ApprovalReason := approvalReason b op;
         ae_MutationType := mutationType op; ae_RiskLevel := riskLevel b op;
         ae_ParentEvidenceID := parentEvidenceID; ae_LineageID := approvalLineageID b op;
         ae_DecisionHash := approvalDecisionHash b op event reason;
         ae_Metadata := [("approval_required", Json.ABool (approvalRequired b op));
                         ("operation_state", Json.AString (operationState op))] |} in
    (record_elapse
       {| w_now := w_now w; w_breaker := w_breaker w; w_journal := w_journal w; w_sink := w_sink w;
          w_evidence := w_evidence w ++ [ev]; w_prov := w_prov w; w_calls := w_calls w |}, ae_EvidenceID ev).

Definition recordFencingRefusal (batchID : string) (op : MutationOperation) (err : string) (w : World) : World :=
  let now := w_now w in
  publish {| se_Timestamp := now; se_Source := "execution"; se_IP := ""; se_RuleID := "";
             se_AbuseType := "stale_fencing_token_mutation_refused"; se_RiskScore := 0;
             se_EnforcementStage := "refused"; se_SuppressionReason := "stale_fencing_token";
             se_Severity := "critical" |}
    (journal (audit now batchID (mo_OperationID op) "stale_fencing_token_mutation_refused" err) w).

Definition isLostLeaseCause (c : option cancellation) : bool :=
  match c with Some c => str_contains (to_lower (c_cause c)) "lost lease" | None => false end.

Definition recordLostLeaseAbort (batchID operationID err : string) (w : World) : World :=
  let reason := if isLostLeaseCause (ctx (w_now w)) then "lost_lease" else "context_cancelled" in
  let now := w_now w in
  publish {| se_Timestamp := now; se_Source := "execution"; se_IP := ""; se_RuleID := "";
             se_AbuseType := "lost_lease_mutation_aborted"; se_RiskScore := 0;
             se_EnforcementStage := "aborted"; se_SuppressionReason := reason; se_Severity := "critical" |}
    (journal (audit now batchID operationID "lost_lease_mutation_aborted" err) w).

(** The batch that stands for the approval of one operation. *)
Definition approvalBatch (batchID : string) (op : MutationOperation) : MutationBatch :=
  {| mb_ID := batchID; mb_ScopeID := mo_ScopeID op; mb_PlanID := ""; mb_SnapshotChecksum := "";
     mb_Operations := []; mb_CreatedAt := 0; mb_Status := ""; mb_EpochID := ""; mb_Generation := 0;
     mb_LeaseID := ""; mb_FencingToken := 0; mb_LeaseAction := ""; mb_DestructiveCount := 0;
     mb_ApprovalRequired := mo_ApprovalRequired op; mb_ApprovalID := mo_ApprovalID op;
     mb_ApprovalStatus := mo_ApprovalStatus op; mb_ApprovalExpiresAt := mo_ApprovalExpiresAt op;
     mb_ApprovedBy := mo_ApprovedBy op; mb_ApprovalReason := mo_ApprovalReason op |}.

Definition fn : string := "execution.GovernedExecutor.executeSingle".
Definition Outcome : Type := World * MutationOperation * result unit.

(** The provider call and what follows it. *)
Definition mutate (op : MutationOperation) (batchID : string) (w : World) : Outcome :=
  let op := set_progress StateExecuting (mo_ResultID op) (w_now w) (mo_FinishedAt op) (mo_Error op) op in
  let w := journal {| au_Timestamp := mo_StartedAt op; au_RunID := ""; au_BatchID := batchID;
             au_OpID := mo_OperationID op; au_Status := "executing"; au_Action := "mutation";
             au_Target := mo_StableIdentityKey op; au_Duration := 0; au_Error := "" |} w in
  match ctx (w_now w) with
  | Some c =>
      (recordLostLeaseAbort batchID (mo_OperationID op) (c_err c) w, set_error StateFailed (c_err c) op,
       Err (wrap_msg fn (c_err c)))
  | None =>
      let '(d, p, r) := Execute (w_now w) op (w_prov w) in
      let t := w_now w + Z.of_N d in
      let w := {| w_now := t; w_breaker := w_breaker w; w_journal := w_journal w; w_sink := w_sink w;
                  w_evidence := w_evidence w; w_prov := p; w_calls := w_calls w ++ [(w_now w, op)] |} in
      let duration := Z.quot (t_sub t (mo_StartedAt op)) 1000000 in
      let done status err := journal {| au_Timestamp := t; au_RunID := ""; au_BatchID := batchID;
             au_OpID := mo_OperationID op; au_Status := status; au_Action := ""; au_Target := "";
             au_Duration := duration; au_Error := err |} in
      match r with
      | Err m =>
          let cancelled := match ctx t with Some _ => true | None => isLostLeaseCause (ctx t) end in
          let w := if cancelled then recordLostLeaseAbort batchID (mo_OperationID op) m w else w in
          (done "failed" m w, set_progress StateFailed (mo_ResultID op) (mo_StartedAt op) t m op, Err m)
      | Ok resultID =>
          (done "completed" "" w, set_progress StateCompleted resultID (mo_StartedAt op) t (mo_Error op) op, Ok tt)
      end
  end.

(** Ownership and fencing. *)
Definition validate_and_mutate (op : MutationOperation) (batchID : string) (w : World) : Outcome :=
  match OwnershipValidate (ownerReg e) op with
  | Err m => (w, set_state StateQuarantined op, Err (wrap_msg fn m))
  | Ok _ =>
      match fencing e with
      | Some f =>
          let '(d, r) := f (w_now w) op in
          let w := elapse d w in
          match r with
          | Err m => let op := set_error StateQuarantined m op in
                     (recordFencingRefusal batchID op m w, op, Err (wrap_msg fn m))
          | Ok _ => mutate op batchID w
          end
      | None => mutate op batchID w
      end
  end.

(** The security guard. *)
Definition guarded (op : MutationOperation) (batchID : string) (w : World) : Outcome :=
  match guard e with
  | None => validate_and_mutate op batchID w
  | Some g =>
      let '(n, r) := g (w_now w) op in
      let w := elapse n w in
      match r with
      | Err m => (w, op, Err (wrap_msg fn m))
      | Ok d =>
          if gd_Allowed d then validate_and_mutate op batchID w
          else
            let now := w_now w in
            let w := journal (audit now batchID (mo_OperationID op) "quarantined" (gd_Reason d)) w in
            let w := publish {| se_Timestamp := now; se_Source := gd_Source d; se_IP := gd_TargetIP d;
                       se_RuleID := gd_RuleID d; se_AbuseType := "suppressed_propagation";
                       se_RiskScore := gd_RiskScore d; se_EnforcementStage := gd_EnforcementStage d;
                       se_SuppressionReason := gd_Reason d; se_Severity := "warning" |} w in
            (w, set_error StateQuarantined (gd_Reason d) op,
             Err (wrap_msg fn ("guard suppressed mutation: " +:+ gd_Reason d)))
      end
  end.

Definition executeSingle (op : MutationOperation) (batchID : string) (w : World) : Outcome :=
  if negb (bool_decide (mo_ResourceType op ∈ mutators e)) then
    (w, op, Err (wrap_msg fn ("no mutator registered for resource type: " +:+ mo_ResourceType op)))
  else
    match operationApprovalBlock op (w_now w) with
    | Some (status, reason) =>
        let op := set_error StateAwaitingApproval reason op in
        let b := approvalBatch batchID op in
        let '(w, parentID) := recordApprovalEvidence b (Some op) "approval_required" reason "" w in
        let '(w, _) := recordApprovalEvidence b (Some op) status reason parentID w in
        (journal (audit (w_now w) batchID (mo_OperationID op) StateAwaitingApproval (mo_Error op)) w, op,
         Err (wrap_msg fn reason))
    | None =>
        let w := if mo_ApprovalRequired op
                 then (recordApprovalEvidence (approvalBatch batchID op) (Some op) "approval_granted"
                         "operation approval satisfied" "" w).1
                 else w in
        guarded (set_state StateValidating op) batchID w
    end.

Definition op_batch : string := "execution.GovernedExecutor.ExecuteBatch".

Definition record_failure (w : World) : World := set_breaker (RecordFailure (w_now w) (w_breaker w)) w.

(** The loop over the operations: the operations as they are left, and the
    status of the batch. *)
Fixpoint execute_loop (batchID : string) (ops : list MutationOperation) (w : World)
  : World * list MutationOperation * result unit :=
  match ops with
  | [] => (set_breaker (RecordSuccess (w_breaker w)) w, [], Ok tt)
  | op :: ops =>
      match ctx (w_now w) with
      | Some c =>
          let w := record_failure w in
          (recordLostLeaseAbort batchID "" (c_err c) w, op :: ops, Err (wrap_msg op_batch (c_err c)))
      | None =>
          let '(w, op, r) := executeSingle op batchID w in
          match r with
          | Err m => (record_failure w, op :: ops,
                      Err (wrap_msg op_batch ("batch failed at operation " +:+ mo_OperationID op +:+ ": " +:+ m)))
          | Ok _ => let '(w, ops, r) := execute_loop batchID ops w in (w, op :: ops, r)
          end
      end
  end.

(** The caller sees the operations it passed change, and the error. *)
Definition ExecuteBatch (b : MutationBatch) (w : World) : World * list MutationOperation * result unit :=
  let '(cb, allowed) := Allow (w_now w) (w_breaker w) in
  let w := set_breaker cb w in
  if negb allowed then
    (w, mb_Operations b, Err (wrap_msg op_batch "circuit breaker is open, refusing execution"))
  else
    match batchApprovalBlock b (w_now w) with
    | Some (status, reason) =>
        let '(w, parentID) := recordApprovalEvidence b None "approval_required" reason "" w in
        let '(w, _) := recordApprovalEvidence b None status reason parentID w in
        (w, mb_Operations b, Err (wrap_msg op_batch reason))
    | None =>
        let w := if mb_ApprovalRequired b
                 then (recordApprovalEvidence b None "approval_granted" "batch approval satisfied" "" w).1 else w in
        execute_loop (mb_ID b) (mb_Operations b) w
    end.

(** *** Records do not touch the provider *)
Definition quiet (w w' : World) : Prop :=
  w_now w <= w_now w' /\ w_breaker w' = w_breaker w /\ w_prov w' = w_prov w /\ w_calls w' = w_calls w.

Lemma quiet_refl w : quiet w w.
Proof. by split; [lia|]. Qed.

Lemma quiet_trans w1 w2 w3 : quiet w1 w2 -> quiet w2 w3 -> quiet w1 w3.
Proof. intros (? & ? & ? & ?) (? & ? & ? & ?). split_and!; [lia|congruence..]. Qed.

Lemma elapse_quiet d w : quiet w (elapse d w).
Proof. split; [cbn; lia|done]. Qed.

Lemma record_quiet w w1 : quiet w w1 -> quiet w (record_elapse w1).
Proof. intros H. eapply quiet_trans; [exact H|apply elapse_quiet]. Qed.

Lemma journal_quiet a w : quiet w (journal a w).
Proof. apply record_quiet. by split; [cbn; lia|]. Qed.

Lemma publish_quiet s w : quiet w (publish s w).
Proof. unfold publish. destruct (hasSink e); [|apply quiet_refl]. apply record_quiet. by split; [cbn; lia|]. Qed.

Lemma evidence_quiet b op ev reason parent w : quiet w (recordApprovalEvidence b op ev reason parent w).1.
Proof.
  unfold recordApprovalEvidence. destruct (hasEvidence e); [|apply quiet_refl].
  apply record_quiet. by split; [cbn; lia|].
Qed.

Lemma refusal_quiet b op m w : quiet w (recordFencingRefusal b op m w).
Proof. unfold recordFencingRefusal. eapply quiet_trans; [apply journal_quiet|apply publish_quiet]. Qed.

Lemma abort_quiet b o m w : quiet w (recordLostLeaseAbort b o m w).
Proof. unfold recordLostLeaseAbort. eapply quiet_trans; [apply journal_quiet|apply publish_quiet]. Qed.

#[local] Hint Resolve quiet_refl elapse_quiet journal_quiet publish_quiet evidence_quiet refusal_quiet abort_quiet : secauto.

(** *** What a call to the provider needs *)
(** The fencing validator was asked about the request at [t2] and its consent
    was there by [t]. *)
Definition fencing_consent (op : MutationOperation) (t2 t : Z) : Prop :=
  t2 <= t /\
  forall f, fencing e = Some f ->
    exists o n, same_request o op /\ f t2 o = (n, Ok tt) /\ t2 + Z.of_N n <= t.

(** So was the guard. *)
Definition guard_consent (op : MutationOperation) (t1 t : Z) : Prop :=
  t1 <= t /\
  forall g, guard e = Some g ->
    exists o n d, same_request o op /\ g t1 o = (n, Ok d) /\ gd_Allowed d = true /\ t1 + Z.of_N n <= t.

(** A call with its checks, in their order and each at its own time: the
    approval is read at [t0], the guard asked at [t1], the fencing validator
    at [t2], and the context is live at the call. *)
Definition gated (start : Z) (call : Z * MutationOperation) : Prop :=
  let '(t, op) := call in
  mo_ResourceType op ∈ mutators e /\ OwnershipValidate (ownerReg e) op = Ok tt /\ ctx t = None /\
  exists t0 t1 t2, start <= t0 /\ t0 <= t1 /\
    op_RequiresApprovedExecution t0 op = false /\ guard_consent op t1 t2 /\ fencing_consent op t2 t.

(** The checks of a call come after the call before it. *)
Fixpoint gated_from (start : Z) (calls : list (Z * MutationOperation)) : Prop :=
  match calls with
  | [] => True
  | call :: calls => gated start call /\ gated_from call.1 calls
  end.

(** The outcome of one operation: no call, or one call, at a time and with a
    request of which [Q] holds; the request is left as it was. *)
Definition single_ok (Q : Z -> Prop) (op : MutationOperation) (w : World) (o : Outcome) : Prop :=
  let '(w', op', r) := o in
  same_request op' op /\ w_breaker w' = w_breaker w /\ w_now w <= w_now w' /\
  ((is_ok r = false /\ quiet w w') \/
   exists t oc, w_now w <= t <= w_now w' /\ same_request oc op /\ w_calls w' = w_calls w ++ [(t, oc)] /\ Q t /\
              (is_ok r = true -> mo_State op' = StateCompleted)).

Lemma same_request_refl op : same_request op op.
Proof. done. Qed.

Lemma same_request_sym a b : same_request a b -> same_request b a.
Proof. unfold same_request. congruence. Qed.

Lemma same_request_trans a b c : same_request a b -> same_request b c -> same_request a c.
Proof. unfold same_request. congruence. Qed.

Lemma set_progress_request s r t1 t2 m op : same_request (set_progress s r t1 t2 m op) op.
Proof. done. Qed.

(** The checks read only the request. *)
Lemma same_request_fields a b : same_request a b ->
  mo_ResourceType a = mo_ResourceType b /\ mo_StableIdentityKey a = mo_StableIdentityKey b /\
  (forall t, op_RequiresApprovedExecution t a = op_RequiresApprovedExecution t b) /\
  OwnershipValidate (ownerReg e) a = OwnershipValidate (ownerReg e) b /\ coordination a = coordination b.
Proof.
  unfold same_request. destruct a, b. intros [= ]. subst. done.
Qed.

Lemma mutate_spec op bid w : single_ok (fun t => w_now w <= t /\ ctx t = None) op w (mutate op bid w).
Proof.
  unfold mutate. set (op1 := set_progress StateExecuting _ _ _ _ op).
  match goal with |- context [journal ?a w] => set (w1 := journal a w); pose proof (journal_quiet a w) as Hq1; fold w1 in Hq1 end.
  clearbody w1. pose proof Hq1 as (Hn1 & Hb1 & _ & Hc1).
  destruct (ctx (w_now w1)) as [c|] eqn:Ec.
  - unfold single_ok. pose proof (quiet_trans _ _ _ Hq1 (abort_quiet bid (mo_OperationID op1) (c_err c) w1)) as Hq.
    split; [done|]. split; [apply Hq|]. split; [apply Hq|]. by left.
  - destruct (Execute (w_now w1) op1 (w_prov w1)) as [[d p] r]. cbn zeta.
    match goal with |- context [{| w_now := ?n; w_breaker := _; w_journal := _; w_sink := _; w_evidence := _;
       w_prov := _; w_calls := ?l |}] => set (w2 := {| w_now := n; w_breaker := _; w_calls := l |}) end.
    assert (Hend : forall w3, quiet w2 w3 -> w_breaker w3 = w_breaker w /\ w_now w <= w_now w3 /\
              w_now w1 <= w_now w3 /\ w_calls w3 = w_calls w ++ [(w_now w1, op1)]).
    { intros w3 (Hn & Hb & _ & Hc). cbn in Hn, Hb, Hc. split_and!; [congruence|lia|lia|]. by rewrite Hc, Hc1. }
    clearbody w2. destruct r as [rid|m]; unfold single_ok.
    + match goal with |- context [journal ?a w2] => destruct (Hend _ (journal_quiet a w2)) as (? & ? & ? & ?) end.
      split_and!; try done. right. exists (w_now w1), op1. by split_and!.
    + match goal with |- context [journal ?a ?w'] => assert (Hq : quiet w2 (journal a w')) end.
      { eapply quiet_trans; [|apply journal_quiet]. case_match; eauto with secauto. }
      destruct (Hend _ Hq) as (? & ? & ? & ?). split_and!; try done. right. exists (w_now w1), op1. by split_and!.
Qed.

Lemma single_quiet Q op w w1 o : quiet w w1 -> single_ok Q op w1 o -> single_ok Q op w o.
Proof.
  intros Hq. pose proof Hq as (Hn & Hb & Hp & Hc). destruct o as [[w' op'] r]. unfold single_ok.
  intros (Hs & Hb' & Hn' & H). split; [done|]. split; [congruence|]. split; [lia|].
  destruct H as [[Hr Hq']|(t & oc & H1 & H2 & H3 & H4 & H5)].
  - left. split; [done|]. by eapply quiet_trans.
  - right. exists t, oc. rewrite <- Hc. split_and!; try done; lia.
Qed.

Lemma single_refused Q op op' w w' m : same_request op' op -> quiet w w' -> single_ok Q op w (w', op', Err m).
Proof. intros Hs Hq. split; [done|]. split; [apply Hq|]. split; [apply Hq|]. by left. Qed.

Lemma single_request Q op op' w o : same_request op' op -> single_ok Q op' w o -> single_ok Q op w o.
Proof.
  destruct o as [[w' o'] r]. intros Hs (H1 & H2 & H3 & H4). split; [by eapply same_request_trans|]. split; [done|].
  split; [done|]. destruct H4 as [?|(t & oc & ? & ? & ?)]; [by left|]. right. exists t, oc.
  split; [done|]. split; [by eapply same_request_trans|done].
Qed.

Lemma single_mono Q Q' op w o : (forall t, Q t -> Q' t) -> single_ok Q op w o -> single_ok Q' op w o.
Proof.
  destruct o as [[w' o'] r]. intros Hm (H1 & H2 & H3 & H4). split_and!; try done.
  destruct H4 as [?|(t & oc & ? & ? & ? & ? & ?)]; [by left|]. right. exists t, oc. split_and!; try done; naive_solver.
Qed.

Lemma validate_spec op bid w :
  single_ok (fun t => OwnershipValidate (ownerReg e) op = Ok tt /\ ctx t = None /\
               exists t2, w_now w <= t2 /\ fencing_consent op t2 t) op w (validate_and_mutate op bid w).
Proof.
  unfold validate_and_mutate. destruct (OwnershipValidate (ownerReg e) op) as [[]|m].
  2:{ apply single_refused; eauto with secauto. done. }
  destruct (fencing e) as [f|] eqn:Ef.
  2:{ eapply single_mono; [|apply mutate_spec]. intros t [Hn Hc]. split_and!; [done..|]. exists (w_now w).
      split; [lia|]. split; [done|]. by rewrite Ef. }
  destruct (f (w_now w) op) as [n [[]|m]] eqn:Er.
  - eapply single_quiet; [apply (elapse_quiet n)|]. eapply single_mono; [|apply mutate_spec]. cbn.
    intros t [Hn Hc]. split_and!; [done..|]. exists (w_now w). split; [lia|]. split; [lia|].
    rewrite Ef. intros ? [= <-]. by exists op, n.
  - apply single_refused; [done|]. eapply quiet_trans; [apply (elapse_quiet n)|apply refusal_quiet].
Qed.

Lemma guarded_spec op bid w :
  single_ok (fun t => OwnershipValidate (ownerReg e) op = Ok tt /\ ctx t = None /\
               exists t2, guard_consent op (w_now w) t2 /\ fencing_consent op t2 t) op w (guarded op bid w).
Proof.
  unfold guarded. destruct (guard e) as [g|] eqn:Eg.
  2:{ eapply single_mono; [|apply validate_spec]. intros t (Ho & Hc & t2 & H2 & Hf). split_and!; [done..|].
      exists t2. split; [|done]. split; [done|]. by rewrite Eg. }
  destruct (g (w_now w) op) as [n [d|m]] eqn:Er; cbn zeta.
  2:{ apply single_refused; [done|apply elapse_quiet]. }
  destruct (gd_Allowed d) eqn:Ea.
  - eapply single_quiet; [apply (elapse_quiet n)|]. eapply single_mono; [|apply validate_spec]. cbn.
    intros t (Ho & Hc & t2 & H2 & Hf). split_and!; [done..|]. exists t2. split; [|done]. split; [lia|].
    rewrite Eg. intros ? [= <-]. by exists op, n, d.
  - apply single_refused; [done|]. eapply quiet_trans; [apply (elapse_quiet n)|].
    eapply quiet_trans; [apply journal_quiet|apply publish_quiet].
Qed.

(** Two evidence records in a row leave the provider alone. *)
Lemma evidence_pair_quiet b o ev1 r1 p1 ev2 r2 w :
  let x := recordApprovalEvidence b o ev1 r1 p1 w in
  quiet w (recordApprovalEvidence b o ev2 r2 x.2 x.1).1.
Proof. cbn zeta. eapply quiet_trans; apply evidence_quiet. Qed.

Lemma gated_request start t a b : same_request a b -> gated start (t, b) -> gated start (t, a).
Proof.
  intros Hs (H1 & H2 & H3 & t0 & t1 & t2 & H4 & H5 & H6 & [H7 Hg] & [H8 Hf]).
  destruct (same_request_fields a b Hs) as (E1 & _ & E2 & E3 & _). apply same_request_sym in Hs as Hs'.
  unfold gated. rewrite E1, E3. split_and!; try done. exists t0, t1, t2. rewrite E2. split_and!; try done.
  - split; [done|]. intros g Eg. destruct (Hg g Eg) as (o & n & d & Ho & ?). exists o, n, d. split; [|done].
    by eapply same_request_trans.
  - split; [done|]. intros f Ef. destruct (Hf f Ef) as (o & n & Ho & ?). exists o, n. split; [|done].
    by eapply same_request_trans.
Qed.

Lemma gated_mono start start' call : start' <= start -> gated start call -> gated start' call.
Proof.
  destruct call as [t op]. intros Hle (H1 & H2 & H3 & t0 & t1 & t2 & H4 & H5). split_and!; try done.
  exists t0, t1, t2. split; [lia|done].
Qed.

Lemma gated_after start call : gated start call -> start <= call.1.
Proof. destruct call as [t op]. intros (_ & _ & _ & t0 & t1 & t2 & ? & ? & _ & [? _] & [? _]). cbn. lia. Qed.

Lemma gated_from_mono start start' calls : start' <= start -> gated_from start calls -> gated_from start' calls.
Proof. destruct calls as [|c calls]; [done|]. intros Hle [Hc Hr]. split; [by eapply gated_mono|done]. Qed.

Lemma gated_from_Forall start calls : gated_from start calls -> Forall (gated start) calls.
Proof.
  revert start. induction calls as [|c calls IH]; intros start; [constructor|]. intros [Hc Hr].
  constructor; [done|]. apply IH. eapply gated_from_mono; [|done]. by apply gated_after.
Qed.

Lemma executeSingle_spec op bid w :
  single_ok (fun t => gated (w_now w) (t, op)) op w (executeSingle op bid w).
Proof.
  unfold executeSingle. case_bool_decide as Hm; cbn [negb].
  2:{ apply single_refused; eauto with secauto. done. }
  destruct (operationApprovalBlock op (w_now w)) as [[status reason]|] eqn:Eb; cbn zeta.
  - match goal with |- context [recordApprovalEvidence ?b ?o ?ev ?r ?p w] =>
      pose proof (evidence_pair_quiet b o ev r p status reason w) as Hq; cbn zeta in Hq;
      destruct (recordApprovalEvidence b o ev r p w) as [w1 pid] end. cbn [fst snd] in Hq.
    destruct (recordApprovalEvidence _ _ status _ _ w1) as [w2 pid2]. cbn [fst] in Hq.
    apply single_refused; [done|]. eapply quiet_trans; [exact Hq|apply journal_quiet].
  - set (w1 := if mo_ApprovalRequired op then _ else w).
    assert (Hq : quiet w w1) by (unfold w1; destruct (mo_ApprovalRequired op); eauto with secauto).
    eapply single_quiet; [exact Hq|]. eapply (single_request _ _ (set_state StateValidating op)); [done|].
    eapply single_mono; [|apply guarded_spec]. intros t (Ho & Hc & t2 & Hg & Hf).
    apply (gated_request _ t op (set_state StateValidating op)); [done|].
    split_and!; [done..|]. exists (w_now w), (w_now w1), t2.
    split_and!; [lia|apply Hq|by apply op_block_iff|done|done].
Qed.

(** *** Batches *)
Lemma execute_loop_spec bid ops w :
  let '(w', ops', r) := execute_loop bid ops w in
  Forall2 same_request ops' ops /\
  exists calls, w_calls w' = w_calls w ++ calls /\ gated_from (w_now w) calls /\
    (exists k, Forall2 same_request calls.*2 (take k ops)) /\
    (is_ok r = true -> length calls = length ops /\ Forall (fun o => mo_State o = StateCompleted) ops').
Proof.
  revert w. induction ops as [|op ops IH]; intros w; cbn [execute_loop].
  { split; [constructor|]. exists []. rewrite app_nil_r. split_and!; [done|done|exists 0%nat; constructor|done]. }
  destruct (ctx (w_now w)) as [c|] eqn:Ec.
  { split; [by apply Forall2_cons; split; [|apply Forall_Forall2_diag, Forall_forall]|]. exists [].
    pose proof (abort_quiet bid "" (c_err c) (record_failure w)) as (_ & _ & _ & ->). rewrite app_nil_r.
    split_and!; [done|done|exists 0%nat; constructor|done]. }
  pose proof (executeSingle_spec op bid w) as Hs.
  destruct (executeSingle op bid w) as [[w1 op1] [[]|m]]; destruct Hs as (Hreq & _ & Hn & Hs).
  - destruct Hs as [[? _]|(t & oc & Ht & Hoc & Hcalls & Hg & Hst)]; [done|].
    specialize (IH w1). destruct (execute_loop bid ops w1) as [[w2 ops2] r].
    destruct IH as (Hreqs & calls & Hc & Hall & [k Hk] & Hok). split; [by constructor|].
    exists ((t, oc) :: calls). split_and!.
    + by rewrite Hc, Hcalls, <- app_assoc.
    + split; [by eapply gated_request|]. eapply gated_from_mono; [|done]. cbn. lia.
    + exists (S k). cbn. by constructor.
    + intros Hr. destruct (Hok Hr) as [Hl Hsts]. cbn. split; [lia|]. constructor; [by apply Hst|done].
  - split; [apply Forall2_cons; split; [done|]; apply Forall_Forall2_diag, Forall_forall; done|].
    destruct Hs as [[_ (_ & _ & _ & Hq)]|(t & oc & _ & Hoc & Hcalls & Hg & _)].
    + exists []. cbn. rewrite Hq, app_nil_r. split_and!; [done|done|exists 0%nat; constructor|done].
    + exists [(t, oc)]. cbn -[gated]. split_and!; [done| |done|exists 1%nat; cbn; by repeat constructor|done].
      by eapply gated_request.
Qed.

Lemma ExecuteBatch_spec b w :
  let '(w', ops', r) := ExecuteBatch b w in
  exists calls, w_calls w' = w_calls w ++ calls /\ gated_from (w_now w) calls /\
    (exists k, Forall2 same_request calls.*2 (take k (mb_Operations b))) /\
    (calls <> [] -> (Allow (w_now w) (w_breaker w)).2 = true /\ batch_RequiresApprovedExecution (w_now w) b = false) /\
    (is_ok r = true -> length calls = length (mb_Operations b) /\
                       Forall (fun o => mo_State o = StateCompleted) ops').
Proof.
  unfold ExecuteBatch. destruct (Allow (w_now w) (w_breaker w)) as [cb [|]]; cbn [negb snd].
  2:{ exists []. cbn. rewrite app_nil_r. split_and!; [done|done|exists 0%nat; constructor|done|done]. }
  set (w0 := set_breaker cb w). change (w_now w) with (w_now w0). change (w_calls w) with (w_calls w0).
  destruct (batchApprovalBlock b (w_now w0)) as [[status reason]|] eqn:Eb.
  - match goal with |- context [recordApprovalEvidence ?b ?o ?ev ?r ?p w0] =>
      pose proof (evidence_pair_quiet b o ev r p status reason w0) as Hq; cbn zeta in Hq;
      destruct (recordApprovalEvidence b o ev r p w0) as [w1 pid] end. cbn [fst snd] in Hq.
    destruct (recordApprovalEvidence _ _ status _ _ w1) as [w2 pid2]. cbn [fst] in Hq.
    destruct Hq as (_ & _ & _ & Hc). exists []. rewrite Hc, app_nil_r.
    split_and!; [done|done|exists 0%nat; constructor|done|done].
  - set (w1 := if mb_ApprovalRequired b then _ else w0).
    assert (Hq : quiet w0 w1) by (unfold w1; destruct (mb_ApprovalRequired b); eauto with secauto).
    pose proof (execute_loop_spec (mb_ID b) (mb_Operations b) w1) as H.
    destruct (execute_loop (mb_ID b) (mb_Operations b) w1) as [[w2 ops2] r].
    destruct H as (_ & calls & Hc & Hg & Hk & Hok). exists calls.
    destruct Hq as (Hn & _ & _ & Hcw). rewrite Hc, Hcw. split_and!; try done.
    + by eapply gated_from_mono.
    + intros _. split; [done|]. by apply batch_block_iff.
Qed.

Lemma gated_fencing start t op f calls : gated_from start ((t, op) :: calls) -> fencing e = Some f ->
  exists t2 o n, same_request o op /\ f t2 o = (n, Ok tt).
Proof.
  intros [(_ & _ & _ & t0 & t1 & t2 & _ & _ & _ & _ & [_ Hf]) _] Ef.
  destruct (Hf f Ef) as (o & n & ? & ? & _). by exists t2, o, n.
Qed.
End executor.

(** C20: No mutation reaches a provider unchecked.  Whatever a batch does, the calls
    it makes are requests of the batch, in order and without gaps.  Before each
    of them, and after the call before it, the executor found a registered
    mutator and read a valid approval, then got the guard's consent, found the
    resource owned, then got the fencing validator's consent, and the context
    was live when the call was made.  Each check holds at its own time: the
    guard and the validator take time, so an approval or a lease may run out
    between its check and the call ([late_approval] below).  There are no calls
    when the breaker is open or the batch is not approved at the start, and a
    batch that succeeds made all of them. *)
Theorem execution_gated {P : Type} `{!ProviderMutator P} e ctx b (w : World (P := P)) :
  let '(w', ops', r) := ExecuteBatch e ctx b w in
  exists calls, w_calls w' = w_calls w ++ calls /\ gated_from e ctx (w_now w) calls /\
    (exists k, Forall2 same_request calls.*2 (take k (mb_Operations b))) /\
    (calls <> [] -> (Allow (w_now w) (w_breaker w)).2 = true /\ batch_RequiresApprovedExecution (w_now w) b = false) /\
    (is_ok r = true -> length calls = length (mb_Operations b) /\
                       Forall (fun o => mo_State o = StateCompleted) ops').
Proof. apply ExecuteBatch_spec. Qed.

(** A batch whose lease was taken over makes no call: when the fencing
    validator reads a lease table in which another lease of the scope and
    action has been acquired since, no operation that carries an old lease id
    reaches the provider, whatever happens to the table meanwhile short of
    acquiring with that id again. *)
Theorem superseded_batch_inert {P : Type} `{!ProviderMutator P} e ctx b (w : World (P := P))
    past now scope l r1 (table : Z -> LeaseTable.LeaseRepository) (latency : Z -> N) :
  AcquireLease now scope l (foldl LeaseTable.lstep LeaseTable.NewLeaseRepository past) = Ok r1 ->
  (forall t, exists ops, table t = foldl LeaseTable.lstep r1 ops /\
     Forall (fun o => match o with
                      | LeaseTable.OAcquire _ _ l' => Forall (fun op => Models.l_ID l' <> mo_LeaseID op) (mb_Operations b)
                      | _ => True end) ops) ->
  fencing e = Some (fun t op => (latency t, Fencing.ValidateMutation t (coordination op)
                      {| Fencing.leases := Some (table t); Fencing.requireFencing := true |})) ->
  Forall (fun op => mo_LeaseID op <> Models.l_ID l /\ mo_ScopeID op = scope /\
            (if bool_decide (mo_LeaseAction op = "") then "reconcile" else mo_LeaseAction op) = Models.l_Action l)
    (mb_Operations b) ->
  w_calls (ExecuteBatch e ctx b w).1.1 = w_calls w.
Proof.
  intros Hacq Htab Hf Hops. pose proof (ExecuteBatch_spec e ctx b w) as H.
  destruct (ExecuteBatch e ctx b w) as [[w' ops'] r]. destruct H as (calls & Hc & Hg & [k Hk] & _). cbn.
  destruct calls as [|[t oc] calls]; [by rewrite app_nil_r in Hc|]. exfalso.
  destruct (gated_fencing _ _ _ _ _ _ _ Hg Hf) as (t2 & o & n & Ho & Hv).
  apply (f_equal snd) in Hv. cbn [snd] in Hv. cbn in Hk.
  destruct (take k (mb_Operations b)) as [|op rest] eqn:Et; [by inversion Hk|].
  apply Forall2_cons in Hk as [Hop _].
  assert (Hin : op ∈ mb_Operations b) 
    by (assert (Hin : op ∈ take k (mb_Operations b)) by (rewrite Et; by left);
        apply elem_of_take in Hin as (i & Hi & _); by eapply list_elem_of_lookup_2).
  pose proof (same_request_trans _ _ _ Ho Hop) as Hreq.
  destruct (same_request_fields e o op Hreq) as (_ & _ & _ & _ & Hco).
  rewrite Forall_forall in Hops. destruct (Hops op Hin) as (Hid & Hsc & Hact).
  destruct (Htab t2) as (tops & Ht & Hall).
  pose proof (Fencing.stale_lease_refused past now scope l r1 tops t2 (coordination op) Hacq Hid Hsc Hact) as Href.
  rewrite Hco, Ht in Hv. cbn in Href, Hv. rewrite Hv in Href. enough (is_ok (Ok tt) = false) by done. apply Href.
  eapply Forall_impl; [exact Hall|]. intros []; [|done..]. intros Hall'. rewrite Forall_forall in Hall'. by apply Hall'.
Qed.

(** A provider that accepts everything, and a batch of one operation. *)
Definition log_provider : ProviderMutator (list string) :=
  fun now op p => (1%N, p ++ [mo_StableIdentityKey op], Ok ("id-" +:+ mo_StableIdentityKey op)).

Definition plain_op (lease : string) : MutationOperation :=
  {| mo_OperationID := "op-1"; mo_ScopeID := "scope"; mo_Type := "create";
     mo_ResourceType := "lists"; mo_StableIdentityKey := "list:a"; mo_State := "planned";
     mo_ProviderObjectID := ""; mo_ExpectedETag := ""; mo_Payload := None; mo_ResultID := "";
     mo_StartedAt := 0; mo_FinishedAt := 0; mo_Error := ""; mo_ApprovalRequired := false;
     mo_ApprovalID := ""; mo_ApprovalStatus := ""; mo_ApprovalExpiresAt := 0; mo_ApprovedBy := "";
     mo_ApprovalReason := ""; mo_LeaseID := lease; mo_FencingToken := 3; mo_LeaseAction := "" |}.

Definition plain_batch (lease : string) : MutationBatch :=
  {| mb_ID := "b-1"; mb_ScopeID := "scope"; mb_PlanID := "p-1"; mb_SnapshotChecksum := "";
     mb_Operations := [plain_op lease]; mb_CreatedAt := 0; mb_Status := "pending"; mb_EpochID := "";
     mb_Generation := 0; mb_LeaseID := ""; mb_FencingToken := 0; mb_LeaseAction := "";
     mb_DestructiveCount := 0; mb_ApprovalRequired := false; mb_ApprovalID := ""; mb_ApprovalStatus := "";
     mb_ApprovalExpiresAt := 0; mb_ApprovedBy := ""; mb_ApprovalReason := "" |}.

Definition new_lease : Models.Lease :=
  {| Models.l_ID := "new"; Models.l_Owner := "w2"; Models.l_Action := "reconcile"; Models.l_EpochID := "";
     Models.l_ExpiresAt := 100; Models.l_CreatedAt := 0; Models.l_FencingToken := 3 |}.

Definition fenced_table : LeaseTable.LeaseRepository :=
  match AcquireLease 10 "scope" new_lease LeaseTable.NewLeaseRepository with
  | Ok r => r | Err _ => LeaseTable.NewLeaseRepository end.

Definition fenced_executor : GovernedExecutor :=
  {| mutators := ["lists"]; ownerReg := NewRegistry; guard := None;
     fencing := Some (fun t op => (5%N, Fencing.ValidateMutation t (coordination op)
                  {| Fencing.leases := Some fenced_table; Fencing.requireFencing := true |}));
     hasSink := true; hasEvidence := true; recordTime := fun _ => 1%N |}.

Definition quiet_world : World (P := list string) :=
  {| w_now := 20; w_breaker := NewBreaker 3 minute minute; w_journal := []; w_sink := []; w_evidence := [];
     w_prov := []; w_calls := [] |}.

(** The batch of the lease holder is executed, the one of its predecessor is
    not. *)
Lemma superseded_batch_inert_witness :
  w_prov (ExecuteBatch (ProviderMutator0 := log_provider) fenced_executor (fun _ => None) (plain_batch "new") quiet_world).1.1
    = ["list:a"] /\
  w_calls (ExecuteBatch (ProviderMutator0 := log_provider) fenced_executor (fun _ => None) (plain_batch "old") quiet_world).1.1 = [].
Proof.
  split; [by vm_compute|].
  apply (superseded_batch_inert (ProviderMutator0 := log_provider) fenced_executor (fun _ => None) (plain_batch "old") quiet_world
           [] 10 "scope" new_lease fenced_table (fun _ => fenced_table) (fun _ => 5%N)); [by vm_compute| |done|].
  - intros t. exists []. split; [done|constructor].
  - repeat constructor; try done; by vm_compute.
Defined.

(** A guard that needs a second, and an approval that runs out meanwhile. *)
Definition slow_executor : GovernedExecutor :=
  {| mutators := ["lists"]; ownerReg := NewRegistry;
     guard := Some (fun t op => (1000000000%N,
       Ok {| gd_Allowed := true; gd_Reason := ""; gd_TargetIP := ""; gd_Source := ""; gd_RuleID := "";
             gd_RiskScore := 0; gd_EnforcementStage := "" |}));
     fencing := None; hasSink := true; hasEvidence := true; recordTime := fun _ => 1%N |}.

Definition expiring_op : MutationOperation :=
  {| mo_OperationID := "op-1"; mo_ScopeID := "scope"; mo_Type := "create";
     mo_ResourceType := "lists"; mo_StableIdentityKey := "list:a"; mo_State := "planned";
     mo_ProviderObjectID := ""; mo_ExpectedETag := ""; mo_Payload := None; mo_ResultID := "";
     mo_StartedAt := 0; mo_FinishedAt := 0; mo_Error := ""; mo_ApprovalRequired := true;
     mo_ApprovalID := "a-1"; mo_ApprovalStatus := ApprovalApproved; mo_ApprovalExpiresAt := 1000;
     mo_ApprovedBy := "admin"; mo_ApprovalReason := ""; mo_LeaseID := ""; mo_FencingToken := 0; mo_LeaseAction := "" |}.

(** The approval is not read again after the guard: the call is made although
    the approval has run out by then. *)
Example late_approval :
  let out := executeSingle (ProviderMutator0 := log_provider) slow_executor (fun _ => None) expiring_op "b-1" quiet_world in
  out.2 = Ok tt /\ w_prov out.1.1 = ["list:a"] /\
  Forall (fun c => op_RequiresApprovedExecution c.1 expiring_op = true) (w_calls out.1.1).
Proof. vm_compute. split; [done|]. split; [done|]. by repeat constructor. Qed.

End Executor.
