(* ===== verification/Rollback.v ===== *)
(** * Rollback

    [internal/rollback]: the planner of compensations, the validator, the
    executor that resumes from checkpoints, and the checkpoint table
    ([internal/storage/sqlite/rollback_checkpoint.go]).  The checkpoint store
    is an interface of the source and a class here, which the table
    implements. *)

From S2P Require Import Prelude GoFmt Sha256 Lease Events Scheduler Snapshot ResourceGraph Planner Execution.

Local Open Scope Z_scope.

(** ** Models ([models.go]) *)
Module RollbackModels.
Import Canonical Json Snapshot.

Definition StatePlanned : string := "planned".
Definition StateValidating : string := "validating".
Definition StateExecuting : string := "executing".
Definition StateCompleted : string := "completed".
Definition StateFailed : string := "failed".
Definition StateQuarantined : string := "quarantined".

Record CompensationOperation := {
  co_OperationID : string;
  co_OriginatingOpID : string;
  co_Type : string;
  co_ResourceType : string;
  co_StableIdentityKey : string;
  co_State : string;
  co_ProviderObjectID : string;
  co_Payload : option value;
  co_ExpectedPrecondition : option value;
  co_ExpectedETag : string;
  co_ResultID : string;
  co_StartedAt : Z;
  co_FinishedAt : Z;
  co_Error : string;
  co_ScopeID : string;
  co_LeaseID : string;
  co_FencingToken : Z;
  co_LeaseAction : string;
}.

Record RollbackBatch := {
  rb_ID : string;
  rb_OriginatingBatchID : string;
  rb_Operations : list CompensationOperation;
  rb_CreatedAt : Z;
  rb_Status : string;
  rb_Reason : string;
  rb_PlanHash : string;
  rb_OperationIDs : list string;
  rb_OperationCount : Z;
  rb_LastCompletedOpIdx : Z;
  rb_StartedAt : Z;
  rb_FinishedAt : Z;
}.

Definition set_comp (state result : string) (started finished : Z) (err : string)
    (op : CompensationOperation) : CompensationOperation :=
  {| co_OperationID := co_OperationID op; co_OriginatingOpID := co_OriginatingOpID op; co_Type := co_Type op;
     co_ResourceType := co_ResourceType op; co_StableIdentityKey := co_StableIdentityKey op; co_State := state;
     co_ProviderObjectID := co_ProviderObjectID op; co_Payload := co_Payload op;
     co_ExpectedPrecondition := co_ExpectedPrecondition op; co_ExpectedETag := co_ExpectedETag op;
     co_ResultID := result; co_StartedAt := started; co_FinishedAt := finished; co_Error := err;
     co_ScopeID := co_ScopeID op; co_LeaseID := co_LeaseID op; co_FencingToken := co_FencingToken op;
     co_LeaseAction := co_LeaseAction op |}.

(** Operations, identity and progress of a batch. *)
Definition set_batch (ops : list CompensationOperation) (status hash : string) (ids : list string) (count idx started finished : Z)
    (b : RollbackBatch) : RollbackBatch :=
  {| rb_ID := rb_ID b; rb_OriginatingBatchID := rb_OriginatingBatchID b; rb_Operations := ops;
     rb_CreatedAt := rb_CreatedAt b; rb_Status := status; rb_Reason := rb_Reason b; rb_PlanHash := hash;
     rb_OperationIDs := ids; rb_OperationCount := count; rb_LastCompletedOpIdx := idx;
     rb_StartedAt := started; rb_FinishedAt := finished |}.

Definition set_progress (ops : list CompensationOperation) (status : string) (idx started finished : Z) (b : RollbackBatch) : RollbackBatch :=
  set_batch ops status (rb_PlanHash b) (rb_OperationIDs b) (rb_OperationCount b) idx started finished b.

End RollbackModels.

(** ** Planner ([planner.go]) *)
Module RollbackPlanner.
Import Mutations RollbackModels.
Import Planner (OpCreate, OpDelete, OpUpdate).

Definition op_comp : string := "rollback.planner.generateCompensation".

Definition compensation (f : MutationOperation) (type : string) (payload precondition : option Canonical.value)
  : CompensationOperation :=
  {| co_OperationID := "comp-" +:+ mo_OperationID f; co_OriginatingOpID := mo_OperationID f; co_Type := type;
     co_ResourceType := mo_ResourceType f; co_StableIdentityKey := mo_StableIdentityKey f;
     co_State := RollbackModels.StatePlanned;
     co_ProviderObjectID := if bool_decide (mo_ProviderObjectID f = "") then mo_ResultID f else mo_ProviderObjectID f;
     co_Payload := payload; co_ExpectedPrecondition := precondition; co_ExpectedETag := "";
     co_ResultID := ""; co_StartedAt := 0; co_FinishedAt := 0; co_Error := ""; co_ScopeID := mo_ScopeID f;
     co_LeaseID := mo_LeaseID f; co_FencingToken := mo_FencingToken f; co_LeaseAction := mo_LeaseAction f |}.

Definition generateCompensation (f : MutationOperation) : result CompensationOperation :=
  if bool_decide (mo_Type f = OpCreate) then Ok (compensation f OpDelete None (mo_Payload f))
  else if bool_decide (mo_Type f = OpDelete) then Ok (compensation f OpCreate (mo_Payload f) None)
  else if bool_decide (mo_Type f = OpUpdate) then
    Err (wrap_msg op_comp "rollback for OpUpdate requires PreviousPayload which is not yet supported")
  else Err (wrap_msg op_comp ("unsupported forward operation type for rollback: " +:+ mo_Type f)).

Definition op_gen : string := "rollback.planner.GenerateRollbackBatch".

(** The loop runs over the operations from the last to the first. *)
Fixpoint compensate (ops : list MutationOperation) : result (list CompensationOperation) :=
  match ops with
  | [] => Ok []
  | f :: ops =>
      match generateCompensation f with
      | Err m => Err (wrap_msg op_gen ("failed to generate compensation for " +:+ mo_OperationID f +:+ ": " +:+ m))
      | Ok c => match compensate ops with Err m => Err m | Ok cs => Ok (c :: cs) end
      end
  end.

Definition rollback_id (now : Z) (forwardID : string) : string :=
  "rb-" +:+ forwardID +:+ "-" +:+ GoFmt.fmt_d (unix_seconds now).

Definition GenerateRollbackBatch (now : Z) (forward : MutationBatch) (reason : string) : result RollbackBatch :=
  match compensate (rev (mb_Operations forward)) with
  | Err m => Err m
  | Ok ops =>
      Ok {| rb_ID := rollback_id now (mb_ID forward); rb_OriginatingBatchID := mb_ID forward;
            rb_Operations := ops; rb_CreatedAt := now; rb_Status := RollbackModels.StatePlanned; rb_Reason := reason;
            rb_PlanHash := ""; rb_OperationIDs := []; rb_OperationCount := 0; rb_LastCompletedOpIdx := 0;
            rb_StartedAt := 0; rb_FinishedAt := 0 |}
  end.

(** *** A rollback undoes its batch *)

(** What creations and deletions do to the objects of a provider. *)
Definition effect (type key : string) (payload : option Canonical.value) (m : gmap string Canonical.value)
  : gmap string Canonical.value :=
  if bool_decide (type = OpDelete) then delete key m
  else match payload with Some v => <[key := v]> m | None => m end.

Definition forward_effect (m : gmap string Canonical.value) (f : MutationOperation) : gmap string Canonical.value :=
  effect (mo_Type f) (mo_StableIdentityKey f) (mo_Payload f) m.
Definition comp_effect (m : gmap string Canonical.value) (c : CompensationOperation) : gmap string Canonical.value :=
  effect (co_Type c) (co_StableIdentityKey c) (co_Payload c) m.

(** A creation finds nothing at its key and has a payload; a deletion carries
    what it removes. *)
Definition undoable (m : gmap string Canonical.value) (f : MutationOperation) : Prop :=
  mo_Type f = OpCreate /\ m !! mo_StableIdentityKey f = None /\ mo_Payload f <> None \/
  mo_Type f = OpDelete /\ m !! mo_StableIdentityKey f = mo_Payload f.

Fixpoint undoable_all (m : gmap string Canonical.value) (ops : list MutationOperation) : Prop :=
  match ops with
  | [] => True
  | f :: ops => undoable m f /\ undoable_all (forward_effect m f) ops
  end.

Lemma compensate_app l1 l2 cs : compensate (l1 ++ l2) = Ok cs ->
  exists c1 c2, compensate l1 = Ok c1 /\ compensate l2 = Ok c2 /\ cs = c1 ++ c2.
Proof.
  revert cs. induction l1 as [|f l1 IH]; intros cs H; cbn in *; [by exists [], cs|].
  destruct (generateCompensation f) as [c|]; [|done].
  destruct (compensate (l1 ++ l2)) as [cs'|]; [|done]. simplify_eq.
  destruct (IH cs' eq_refl) as (c1 & c2 & -> & ? & ->). by exists (c :: c1), c2.
Qed.

Lemma effect_create k p m : effect OpCreate k p m = match p with Some v => <[k := v]> m | None => m end.
Proof. done. Qed.

Lemma effect_delete k p m : effect OpDelete k p m = delete k m.
Proof. done. Qed.

Lemma undo_one m f c : undoable m f -> generateCompensation f = Ok c -> comp_effect (forward_effect m f) c = m.
Proof.
  intros Hu Hc. unfold generateCompensation in Hc. unfold comp_effect, forward_effect.
  destruct Hu as [(Ht & Hk & Hp)|(Ht & Hk)]; rewrite Ht in Hc |- *.
  - assert (c = compensation f OpDelete None (mo_Payload f)) as -> by (vm_compute in Hc |- *; congruence).
    cbn [compensation co_Type co_StableIdentityKey co_Payload].
    rewrite effect_delete, effect_create. destruct (mo_Payload f); [|done]. by rewrite delete_insert_id.
  - assert (c = compensation f OpCreate (mo_Payload f) None) as -> by (vm_compute in Hc |- *; congruence).
    cbn [compensation co_Type co_StableIdentityKey co_Payload].
    rewrite effect_delete, effect_create. destruct (mo_Payload f); [by rewrite insert_delete_id|by rewrite delete_id].
Qed.

(** Executing the compensations of a batch after the batch restores the
    objects the provider had, when every creation made something new and every
    deletion carries what it removed. *)
Theorem rollback_undoes now forward reason rb m :
  GenerateRollbackBatch now forward reason = Ok rb -> undoable_all m (mb_Operations forward) ->
  foldl comp_effect (foldl forward_effect m (mb_Operations forward)) (rb_Operations rb) = m.
Proof.
  unfold GenerateRollbackBatch. destruct (compensate _) as [cs|] eqn:E; [|done]. intros [= <-]. cbn.
  revert cs E m. induction (mb_Operations forward) as [|f ops IH]; intros cs E m.
  { cbn in E. by simplify_eq. }
  cbn [rev] in E. apply compensate_app in E as (c1 & c2 & E1 & E2 & ->). cbn in E2.
  destruct (generateCompensation f) as [c|] eqn:Ef; [|done]. simplify_eq. cbn [undoable_all foldl].
  intros [Hu Hr]. rewrite foldl_app, (IH c1 E1) by done. cbn. by apply undo_one.
Qed.

(** A batch with anything but creations and deletions cannot be rolled back. *)
Theorem rollback_exists_iff now forward reason :
  is_ok (GenerateRollbackBatch now forward reason) = true <->
  Forall (fun f => mo_Type f = OpCreate \/ mo_Type f = OpDelete) (mb_Operations forward).
Proof.
  unfold GenerateRollbackBatch. rewrite <- Forall_reverse.
  change (reverse (mb_Operations forward)) with (rev_append (mb_Operations forward) []). rewrite <- rev_alt.
  transitivity (is_ok (compensate (rev (mb_Operations forward))) = true); [by destruct (compensate _)|].
  induction (rev (mb_Operations forward)) as [|f l IH]; cbn; [by rewrite Forall_nil|].
  rewrite Forall_cons, <- IH. unfold generateCompensation.
  destruct (decide (mo_Type f = OpCreate)) as [E|E];
    [rewrite bool_decide_true by done; destruct (compensate l); naive_solver|].
  rewrite bool_decide_false by done. destruct (decide (mo_Type f = OpDelete)) as [E'|E'];
    [rewrite bool_decide_true by done; destruct (compensate l); naive_solver|].
  rewrite bool_decide_false by done. case_bool_decide; cbn; naive_solver.
Qed.

End RollbackPlanner.

(** ** Validator ([validator.go]) *)
Module RollbackValidator.
Import RollbackModels Snapshot.
Import Planner (OpCreate, OpDelete).

Definition op_vop : string := "rollback.validator.ValidateOperation".

Definition ValidateOperation (op : CompensationOperation) (current : option Snapshot) : result unit :=
  if bool_decide (co_StableIdentityKey op = "") then Err (wrap_msg op_vop "missing StableIdentityKey")
  else
    match current with
    | None => Ok tt
    | Some s =>
        let found := existsb (fun o => bool_decide (StableIdentityKey o = co_StableIdentityKey op)) (Objects s) in
        if bool_decide (co_Type op = OpDelete) then
          if found then Ok tt
          else Err (wrap_msg op_vop ("rollback target " +:+ co_StableIdentityKey op +:+ " missing on remote"))
        else if bool_decide (co_Type op = OpCreate) then
          if found then Err (wrap_msg op_vop ("rollback target " +:+ co_StableIdentityKey op +:+ " unexpectedly present on remote"))
          else Ok tt
        else Ok tt
    end.

Fixpoint validate_all (ops : list CompensationOperation) (current : option Snapshot) : result unit :=
  match ops with
  | [] => Ok tt
  | op :: ops =>
      match ValidateOperation op current with
      | Err m => Err (wrap_msg "rollback.validator.ValidateBatch"
                        ("validation failed for compensation " +:+ co_OperationID op +:+ ": " +:+ m))
      | Ok _ => validate_all ops current
      end
  end.

Definition ValidateBatch (b : RollbackBatch) (current : option Snapshot) : result unit :=
  if bool_decide (rb_Status b = StateQuarantined)
  then Err (wrap_msg "rollback.validator.ValidateBatch" "batch is quarantined")
  else validate_all (rb_Operations b) current.

End RollbackValidator.

(** ** Checkpoints ([rollback_checkpoint.go]) *)
Class RollbackCheckpointStore (C : Type) := {
  SaveRollbackCheckpoint : RollbackModels.RollbackBatch -> C -> C * result unit;
  LoadRollbackCheckpoint : string -> C -> result (option RollbackModels.RollbackBatch);
}.

Module RollbackCheckpoints.
Import RollbackModels.

Record checkpoint_row := {
  cr_scope_id : string;
  cr_status : string;
  cr_idx : Z;
  cr_data : RollbackBatch;
}.

(** What becomes of a write: the row is written, or the statement fails and
    the row is not there, or it is there although the caller gets an error (a
    context that is cancelled while the statement runs). *)
Inductive write_outcome := Written | NotWritten (m : string) | WrittenWithError (m : string).

(** The table by batch id; [data] is the batch that its JSON text holds.
    [ct_writes] are the outcomes of the writes to come, and those after them
    succeed; queries fail while the table is unreadable. *)
Record CheckpointTable := {
  ct_readOnly : bool;
  ct_unreadable : bool;
  ct_writes : list write_outcome;
  ct_rows : gmap string checkpoint_row;
}.

Definition rollbackScopeID (b : RollbackBatch) : string :=
  match List.find (fun op => negb (bool_decide (co_ScopeID op = ""))) (rb_Operations b) with
  | Some op => co_ScopeID op
  | None => ""
  end.

Definition op_save : string := "storage.sqlite.RollbackCheckpointStore.SaveRollbackCheckpoint".

Definition set_rows (rows : gmap string checkpoint_row) (c : CheckpointTable) : CheckpointTable :=
  {| ct_readOnly := ct_readOnly c; ct_unreadable := ct_unreadable c; ct_writes := tail (ct_writes c); ct_rows := rows |}.

Definition ct_save (b : RollbackBatch) (c : CheckpointTable) : CheckpointTable * result unit :=
  match ensureWritable op_save (ct_readOnly c) with
  | Err m => (c, Err m)
  | Ok _ =>
      let rows := <[rb_ID b := {| cr_scope_id := rollbackScopeID b; cr_status := rb_Status b;
                                  cr_idx := rb_LastCompletedOpIdx b; cr_data := b |}]> (ct_rows c) in
      match ct_writes c with
      | NotWritten m :: _ => (set_rows (ct_rows c) c, Err (wrap_msg op_save m))
      | WrittenWithError m :: _ => (set_rows rows c, Err (wrap_msg op_save m))
      | _ => (set_rows rows c, Ok tt)
      end
  end.

Definition ct_load (id : string) (c : CheckpointTable) : result (option RollbackBatch) :=
  if ct_unreadable c
  then Err (wrap_msg "storage.sqlite.RollbackCheckpointStore.LoadRollbackCheckpoint" "query failed")
  else Ok (cr_data <$> ct_rows c !! id).

#[global] Instance checkpoint_table : RollbackCheckpointStore CheckpointTable :=
  {| SaveRollbackCheckpoint := ct_save; LoadRollbackCheckpoint := ct_load |}.

(** Every write to come succeeds. *)
Definition writable (c : CheckpointTable) : Prop := ct_readOnly c = false /\ ct_writes c = [].

(** A save that succeeds leaves its row, one that fails leaves its row or the
    one before it, and other rows are left alone. *)
Lemma ct_save_rows b c : exists row, cr_data row = b /\
  let '(c', r) := ct_save b c in
  (ct_rows c' = <[rb_ID b := row]> (ct_rows c) \/ is_ok r = false /\ ct_rows c' = ct_rows c) /\
  (writable c -> r = Ok tt /\ writable c').
Proof.
  eexists {| cr_data := b |}. split; [done|]. unfold ct_save, ensureWritable, writable.
  destruct (ct_readOnly c) eqn:E; [by split; [right|intros [? _]]|].
  destruct (ct_writes c) as [|[|m|m] ws] eqn:Ew; (split; [first [by left|by right]|intros [_ ?]]; try done).
  split; [done|]. cbn. by rewrite E, Ew.
Qed.

End RollbackCheckpoints.

(** ** Executor ([executor.go]) *)
Module RollbackExecutor.
Import Snapshot Breaker Validators Executor Mutations RollbackModels.
Import Json (text_string).

(** [canonicalRollbackOperations]: the operations without their progress. *)
Definition canonicalRollbackOperations (ops : list CompensationOperation) : list CompensationOperation :=
  set_comp "" "" 0 0 "" <$> ops.

Definition operationIDs (ops : list CompensationOperation) : list string := co_OperationID <$> ops.

Definition omit_payload (k : string) (p : option Canonical.value) : list (string * string) :=
  match p with Some v => [(k, Canonical.writeCanonicalJSON v)] | None => [] end.
Definition omit_int (k : string) (z : Z) : list (string * string) :=
  if z =? 0 then [] else [(k, GoFmt.fmt_d z)].

Definition comp_text (op : CompensationOperation) : string :=
  struct_text (
    [("operation_id", text_string (co_OperationID op)); ("originating_op_id", text_string (co_OriginatingOpID op));
     ("type", text_string (co_Type op)); ("resource_type", text_string (co_ResourceType op));
     ("stable_identity_key", text_string (co_StableIdentityKey op)); ("state", text_string (co_State op))] ++
    omit_empty "provider_object_id" (co_ProviderObjectID op) ++ omit_payload "payload" (co_Payload op) ++
    omit_payload "expected_precondition" (co_ExpectedPrecondition op) ++
    omit_empty "expected_etag" (co_ExpectedETag op) ++ omit_empty "result_id" (co_ResultID op) ++
    [("started_at", time_text (co_StartedAt op)); ("finished_at", time_text (co_FinishedAt op))] ++
    omit_empty "error" (co_Error op) ++ omit_empty "scope_id" (co_ScopeID op) ++
    omit_empty "lease_id" (co_LeaseID op) ++ omit_int "fencing_token" (co_FencingToken op) ++
    omit_empty "lease_action" (co_LeaseAction op)).

Definition rollbackPlanHash (b : RollbackBatch) : string :=
  Sha256.hex_digest (struct_text
    [("id", text_string (rb_ID b)); ("originating_batch_id", text_string (rb_OriginatingBatchID b));
     ("operation_count", GoFmt.fmt_d (Z.of_nat (length (rb_Operations b))));
     ("operation_ids", array_text (text_string <$> operationIDs (rb_Operations b)));
     ("operations", array_text (comp_text <$> canonicalRollbackOperations (rb_Operations b)))]).

Definition ensureRollbackPlanIdentity (b : RollbackBatch) : RollbackBatch :=
  set_batch (rb_Operations b) (rb_Status b) (rollbackPlanHash b) (operationIDs (rb_Operations b))
    (Z.of_nat (length (rb_Operations b))) (rb_LastCompletedOpIdx b) (rb_StartedAt b) (rb_FinishedAt b) b.

Definition op_exec : string := "rollback.executor.ExecuteRollback".

Definition validateRollbackPlanIdentity (current persisted : RollbackBatch) : result unit :=
  if negb (bool_decide (rb_ID current = rb_ID persisted)) then Err (wrap_msg op_exec "rollback batch id mismatch")
  else if negb (bool_decide (rb_PlanHash current = rb_PlanHash persisted)) then Err (wrap_msg op_exec "rollback plan hash mismatch")
  else if negb (rb_OperationCount current =? rb_OperationCount persisted) then Err (wrap_msg op_exec "rollback operation count mismatch")
  else if negb (bool_decide (rb_OperationIDs current = rb_OperationIDs persisted)) then Err (wrap_msg op_exec "rollback operation ids mismatch")
  else Ok tt.

(** The operation handed to the provider. *)
Definition exec_op (op : CompensationOperation) : MutationOperation :=
  {| mo_OperationID := co_OperationID op; mo_ScopeID := co_ScopeID op; mo_Type := co_Type op;
     mo_ResourceType := co_ResourceType op; mo_StableIdentityKey := co_StableIdentityKey op; mo_State := "";
     mo_ProviderObjectID := co_ProviderObjectID op; mo_ExpectedETag := co_ExpectedETag op;
     mo_Payload := co_Payload op; mo_ResultID := ""; mo_StartedAt := 0; mo_FinishedAt := 0; mo_Error := "";
     mo_ApprovalRequired := false; mo_ApprovalID := ""; mo_ApprovalStatus := ""; mo_ApprovalExpiresAt := 0;
     mo_ApprovedBy := ""; mo_ApprovalReason := ""; mo_LeaseID := co_LeaseID op;
     mo_FencingToken := co_FencingToken op; mo_LeaseAction := co_LeaseAction op |}.

Section executor.
Context {P : Type} `{!ProviderMutator P} {C : Type} `{!RollbackCheckpointStore C}.

(** Mutators, ownership and fencing are as in the forward executor. *)
Context (e : GovernedExecutor).

(** The world of the forward executor and the checkpoint store, if any. *)
Definition RWorld : Type := World (P := P) * option C.

Definition fnr : string := "rollback.executor.executeSingle".

(** The record before the call. *)
Definition begin_compensation (op : CompensationOperation) (batchID : string) (w : World (P := P)) : World (P := P) :=
  journal e {| au_Timestamp := w_now w; au_RunID := ""; au_BatchID := batchID;
             au_OpID := co_OperationID op; au_Status := "executing_compensation"; au_Action := "rollback";
             au_Target := co_StableIdentityKey op; au_Duration := 0; au_Error := "" |} w.

(** The call. *)
Definition call_compensation (execOp : MutationOperation) (w : World (P := P)) : World (P := P) * result string :=
  let '(d, p, r) := Execute (w_now w) execOp (w_prov w) in
  ({| w_now := w_now w + Z.of_N d; w_breaker := w_breaker w; w_journal := w_journal w; w_sink := w_sink w;
      w_evidence := w_evidence w; w_prov := p; w_calls := w_calls w ++ [(w_now w, execOp)] |}, r).

(** The fencing validator's answer. *)
Definition fence_compensation (execOp : MutationOperation) (w : World (P := P)) : World (P := P) * result unit :=
  match fencing e with
  | Some f => let '(d, r) := f (w_now w) execOp in (elapse d w, r)
  | None => (w, Ok tt)
  end.

Definition rexecuteSingle (op : CompensationOperation) (batchID : string) (w : World (P := P))
  : World (P := P) * CompensationOperation * result unit :=
  if negb (bool_decide (co_ResourceType op ∈ mutators e)) then
    (w, op, Err (wrap_msg fnr ("no mutator registered for resource type: " +:+ co_ResourceType op)))
  else
    let op := set_comp RollbackModels.StateValidating (co_ResultID op) (co_StartedAt op) (co_FinishedAt op) (co_Error op) op in
    let execOp := exec_op op in
    let quarantined err := set_comp RollbackModels.StateQuarantined (co_ResultID op) (co_StartedAt op) (co_FinishedAt op) err op in
    match OwnershipValidate (ownerReg e) execOp with
    | Err m => (w, quarantined (co_Error op), Err (wrap_msg fnr m))
    | Ok _ =>
        let '(w, fenced) := fence_compensation execOp w in
        match fenced with
        | Err m =>
            (journal e (audit (w_now w) batchID (co_OperationID op) "stale_fencing_token_mutation_refused" m) w,
             quarantined m, Err (wrap_msg fnr m))
        | Ok _ =>
            let started := w_now w in
            let '(w, r) := call_compensation execOp (begin_compensation op batchID w) in
            let t := w_now w in
            let finish status err := journal e {| au_Timestamp := t; au_RunID := ""; au_BatchID := batchID;
                  au_OpID := co_OperationID op; au_Status := status; au_Action := ""; au_Target := "";
                  au_Duration := Z.quot (t_sub t started) 1000000; au_Error := err |} in
            match r with
            | Err m => (finish "compensation_failed" m w,
                        set_comp RollbackModels.StateFailed (co_ResultID op) started t m op, Err m)
            | Ok rid => (finish "compensation_completed" "" w,
                         set_comp RollbackModels.StateCompleted rid started t (co_Error op) op, Ok tt)
            end
        end
    end.

(** What a crash within [rexecuteSingle] can leave: the first record written,
    or the call made as well but not recorded. *)
Definition single_states (op : CompensationOperation) (batchID : string) (w : World (P := P)) : list (World (P := P)) :=
  let execOp := exec_op op in
  if negb (bool_decide (co_ResourceType op ∈ mutators e)) then []
  else
    match OwnershipValidate (ownerReg e) execOp with
    | Err _ => []
    | Ok _ =>
        let '(w, fenced) := fence_compensation execOp w in
        match fenced with
        | Err _ => []
        | Ok _ => let w := begin_compensation op batchID w in [w; (call_compensation execOp w).1]
        end
    end.

Definition save (b : RollbackBatch) (c : option C) : option C * result unit :=
  match c with
  | None => (None, Ok tt)
  | Some c => let '(c, r) := SaveRollbackCheckpoint b c in (Some c, r)
  end.

Definition run_audit (t : Z) (id status err : string) : AuditEvent :=
  {| au_Timestamp := t; au_RunID := id; au_BatchID := ""; au_OpID := ""; au_Status := status;
     au_Action := ""; au_Target := ""; au_Duration := 0; au_Error := err |}.

(** The loop from operation [i]; [todo] are the operations left. *)
Fixpoint rollback_loop (todo : list CompensationOperation) (i : nat) (b : RollbackBatch) (w : World (P := P)) (c : option C)
  : RWorld * result unit :=
  match todo with
  | [] =>
      let w := set_breaker (RecordSuccess (w_breaker w)) w in
      let b := RollbackModels.set_progress (rb_Operations b) RollbackModels.StateCompleted (rb_LastCompletedOpIdx b)
                 (rb_StartedAt b) (w_now w) b in
      let '(c, r) := save b c in
      match r with
      | Err m => ((w, c), Err (wrap_msg op_exec m))
      | Ok _ => ((journal e (run_audit (rb_FinishedAt b) (rb_ID b) "rollback_completed" "") w, c), Ok tt)
      end
  | op :: todo =>
      let '(w, op', r) := rexecuteSingle op (rb_ID b) w in
      let ops := <[i := op']> (rb_Operations b) in
      match r with
      | Err m =>
          let w := record_failure w in
          let b := RollbackModels.set_progress ops RollbackModels.StateFailed (rb_LastCompletedOpIdx b) (rb_StartedAt b) (w_now w) b in
          let '(c, _) := save b c in
          ((journal e (run_audit (rb_FinishedAt b) (rb_ID b) "rollback_failed" m) w, c),
           Err (wrap_msg op_exec ("rollback batch failed at operation " +:+ co_OperationID op +:+ ": " +:+ m)))
      | Ok _ =>
          let b := RollbackModels.set_progress ops (rb_Status b) (Z.of_nat i + 1) (rb_StartedAt b) (rb_FinishedAt b) b in
          let '(c, r) := save b c in
          match r with
          | Err m => ((w, c), Err (wrap_msg op_exec m))
          | Ok _ => rollback_loop todo (S i) b w c
          end
      end
  end.

(** What a crash within the loop can leave of the world and the table: the
    states between any two of its effects. *)
Fixpoint loop_states (todo : list CompensationOperation) (i : nat) (b : RollbackBatch) (w : World (P := P)) (c : option C)
  : list RWorld :=
  (w, c) ::
  match todo with
  | [] =>
      let w := set_breaker (RecordSuccess (w_breaker w)) w in
      let b := RollbackModels.set_progress (rb_Operations b) RollbackModels.StateCompleted (rb_LastCompletedOpIdx b)
                 (rb_StartedAt b) (w_now w) b in
      [(w, (save b c).1)]
  | op :: todo =>
      let before := (fun w => (w, c)) <$> single_states op (rb_ID b) w in
      let '(w, op', r) := rexecuteSingle op (rb_ID b) w in
      let ops := <[i := op']> (rb_Operations b) in
      before ++ (w, c) ::
      match r with
      | Err m =>
          let w := record_failure w in
          let b := RollbackModels.set_progress ops RollbackModels.StateFailed (rb_LastCompletedOpIdx b) (rb_StartedAt b) (w_now w) b in
          [(w, (save b c).1)]
      | Ok _ =>
          let b := RollbackModels.set_progress ops (rb_Status b) (Z.of_nat i + 1) (rb_StartedAt b) (rb_FinishedAt b) b in
          let '(c, r) := save b c in
          match r with
          | Err _ => [(w, c)]
          | Ok _ => loop_states todo (S i) b w c
          end
      end
  end.

(** The batch is started and its checkpoint saved, then the loop runs. *)
Definition start_rollback (b : RollbackBatch) (w : World (P := P)) (c : option C) : RWorld * result unit :=
  let b := RollbackModels.set_progress (rb_Operations b) RollbackModels.StateExecuting (rb_LastCompletedOpIdx b)
             (if is_zero_time (rb_StartedAt b) then w_now w else rb_StartedAt b) (rb_FinishedAt b) b in
  let '(c, r) := save b c in
  match r with
  | Err m => ((w, c), Err (wrap_msg op_exec m))
  | Ok _ =>
      let w := journal e (run_audit (rb_StartedAt b) (rb_ID b) "rollback_started" "") w in
      let i := Z.to_nat (rb_LastCompletedOpIdx b) in
      rollback_loop (drop i (rb_Operations b)) i b w c
  end.

Definition start_states (b : RollbackBatch) (w : World (P := P)) (c : option C) : list RWorld :=
  let b := RollbackModels.set_progress (rb_Operations b) RollbackModels.StateExecuting (rb_LastCompletedOpIdx b)
             (if is_zero_time (rb_StartedAt b) then w_now w else rb_StartedAt b) (rb_FinishedAt b) b in
  (w, c) ::
  let '(c, r) := save b c in
  match r with
  | Err _ => []
  | Ok _ =>
      let w' := journal e (run_audit (rb_StartedAt b) (rb_ID b) "rollback_started" "") w in
      let i := Z.to_nat (rb_LastCompletedOpIdx b) in
      (w, c) :: loop_states (drop i (rb_Operations b)) i b w' c
  end.

(** The batch with which the rollback starts, when it does: the plan, resumed
    at the checkpoint of the table. *)
Definition resume (b persisted : RollbackBatch) : RollbackBatch :=
  let started := if is_zero_time (rb_StartedAt persisted) then rb_StartedAt b else rb_StartedAt persisted in
  RollbackModels.set_progress (rb_Operations b) (rb_Status b)
    (Z.max (rb_LastCompletedOpIdx b) (rb_LastCompletedOpIdx persisted)) started (rb_FinishedAt b) b.

Definition already_done (b persisted : RollbackBatch) : bool :=
  bool_decide (rb_Status persisted = RollbackModels.StateCompleted) &&
  (Z.of_nat (length (rb_Operations b)) <=? rb_LastCompletedOpIdx persisted).

Definition ExecuteRollback (b : RollbackBatch) (wc : RWorld) : RWorld * result unit :=
  let '(w, c) := wc in
  let '(cb, allowed) := Allow (w_now w) (w_breaker w) in
  let w := set_breaker cb w in
  if negb allowed then ((w, c), Err (wrap_msg op_exec "circuit breaker is open, refusing rollback"))
  else
    let b := ensureRollbackPlanIdentity b in
    match c with
    | None => start_rollback b w None
    | Some cs =>
        match LoadRollbackCheckpoint (rb_ID b) cs with
        | Err m => ((w, c), Err (wrap_msg op_exec m))
        | Ok None => start_rollback b w c
        | Ok (Some persisted) =>
            match validateRollbackPlanIdentity b persisted with
            | Err m => ((journal e (run_audit (w_now w) (rb_ID b) "rollback_plan_mismatch" m) w, c), Err (wrap_msg op_exec m))
            | Ok _ =>
                if already_done b persisted then ((w, c), Ok tt) else start_rollback (resume b persisted) w c
            end
        end
    end.

(** What a crash within [ExecuteRollback] can leave. *)
Definition run_states (b : RollbackBatch) (wc : RWorld) : list RWorld :=
  let '(w, c) := wc in
  let '(cb, allowed) := Allow (w_now w) (w_breaker w) in
  let w := set_breaker cb w in
  if negb allowed then [(w, c)]
  else
    let b := ensureRollbackPlanIdentity b in
    match c with
    | None => start_states b w None
    | Some cs =>
        match LoadRollbackCheckpoint (rb_ID b) cs with
        | Err _ => [(w, c)]
        | Ok None => start_states b w c
        | Ok (Some persisted) =>
            match validateRollbackPlanIdentity b persisted with
            | Err _ => [(w, c)]
            | Ok _ => if already_done b persisted then [(w, c)] else start_states (resume b persisted) w c
            end
        end
    end.
End executor.

(** *** Attempts at one rollback

    An attempt may end with an error at any operation, with a checkpoint that
    was not saved, or with the death of the process between any two effects;
    before the next one the clock, the breaker, the provider, the rest of the
    table and its health may have changed. *)
Section attempts.
Context {P : Type} `{!ProviderMutator P} (e : GovernedExecutor).
Import RollbackCheckpoints.
Abbreviation W := (World (P := P)).

(** The compensations that the journal records as completed. *)
Definition completed (id : string) (w : W) : list string :=
  au_OpID <$> List.filter (fun a => bool_decide (au_Status a = "compensation_completed") &&
                                    bool_decide (au_BatchID a = id)) (w_journal w).

Definition call_ids (calls : list (Z * MutationOperation)) : list string := (mo_OperationID ∘ snd) <$> calls.

(** A walk through the operations of a plan that has reached the first [p] of
    them: the next step is the next operation or the last one again.  The
    result is how many operations have been reached at the end. *)
Fixpoint climbs (p : nat) (js : list nat) : option nat :=
  match js with
  | [] => Some p
  | j :: js => if (j =? p)%nat then climbs (S p) js else if (S j =? p)%nat then climbs p js else None
  end.

(** The log [l] is such a walk through the plan and has reached [q]
    operations: each of them is in the log, in the order of the plan, and only
    the last one reached is ever repeated. *)
Definition reaches (plan l : list string) (q : nat) : Prop :=
  exists js, climbs 0 js = Some q /\ Forall2 (fun x j => plan !! j = Some x) l js.

Lemma climbs_snoc p js j q : climbs p js = Some q ->
  climbs p (js ++ [j]) = if (j =? q)%nat then Some (S q) else if (S j =? q)%nat then Some q else None.
Proof.
  revert p. induction js as [|i js IH]; intros p; cbn [app climbs].
  - by intros [= ->].
  - destruct (i =? p)%nat; [apply IH|]. destruct (S i =? p)%nat; [apply IH|done].
Qed.

Lemma reaches_nil plan : reaches plan [] 0.
Proof. exists []. split; [done|constructor]. Qed.

Lemma reaches_snoc plan l q s x : reaches plan l q -> plan !! s = Some x -> (s <= q <= S s)%nat ->
  reaches plan (l ++ [x]) (S s).
Proof.
  intros (js & Hc & Hf) Hx Hq. exists (js ++ [s]). split.
  - rewrite (climbs_snoc _ _ _ _ Hc). destruct (Nat.eqb_spec s q) as [->|Hne]; [done|].
    assert (q = S s) as -> by lia. by rewrite Nat.eqb_refl.
  - apply Forall2_app; [done|]. by repeat constructor.
Qed.

Lemma climbs_le p js q : climbs p js = Some q -> (p <= q)%nat.
Proof.
  revert p. induction js as [|i js IH]; intros p; cbn [climbs]; [intros [= ->]; lia|].
  destruct (i =? p)%nat; [intros H%IH; lia|]. destruct (S i =? p)%nat; [apply IH|done].
Qed.

(** A walk that is no longer than what it has reached repeats nothing. *)
Lemma climbs_exact p js q : climbs p js = Some q -> (q - p <= length js)%nat /\
  ((length js <= q - p)%nat -> js = seq p (q - p)).
Proof.
  revert p. induction js as [|i js IH]; intros p Hc; cbn [climbs length] in *.
  - injection Hc as ->. by rewrite Nat.sub_diag.
  - destruct (Nat.eqb_spec i p) as [->|Hne].
    + pose proof (climbs_le _ _ _ Hc). destruct (IH _ Hc) as [Hl Hs]. split; [lia|]. intros Hle.
      replace (q - p)%nat with (S (q - S p)) in * by lia. cbn. f_equal. apply Hs. lia.
    + destruct (S i =? p)%nat; [|done]. destruct (IH _ Hc) as [Hl _]. split; [lia|]. intros ?. lia.
Qed.

Lemma reaches_exact plan l q : reaches plan l q -> (length l <= q)%nat -> l = take q plan.
Proof.
  intros (js & Hc & Hf) Hl. destruct (climbs_exact _ _ _ Hc) as [_ Hs]. rewrite Nat.sub_0_r in Hs.
  rewrite (Forall2_length _ _ _ Hf) in Hl. rewrite (Hs Hl) in Hf. clear Hc Hs Hl.
  apply list_eq. intros i. destruct (decide (i < q)%nat) as [Hi|Hi].
  - rewrite lookup_take_lt by done. rewrite Forall2_lookup in Hf. specialize (Hf i).
    rewrite lookup_seq_lt in Hf by done. inversion Hf; congruence.
  - rewrite lookup_take_ge by lia. apply lookup_ge_None. rewrite (Forall2_length _ _ _ Hf), length_seq. lia.
Qed.

Lemma climbs_bound js p q (n : nat) : climbs p js = Some q -> Forall (fun j => (j < n)%nat) js -> (p <= n)%nat -> (q <= n)%nat.
Proof.
  revert p. induction js as [|i js IH]; intros p Hc Hf Hp; cbn [climbs] in Hc; [by injection Hc as ->|].
  apply Forall_cons in Hf as [Hi Hf]. destruct (Nat.eqb_spec i p) as [->|_]; [by apply (IH (S p))|].
  destruct (S i =? p)%nat; [by apply (IH p)|done].
Qed.

Lemma reaches_le plan l q : reaches plan l q -> (q <= length plan)%nat.
Proof.
  intros (js & Hc & Hf). eapply climbs_bound; [exact Hc| |lia]. clear Hc.
  induction Hf as [|x j l js Hx _ IH]; constructor; [by eapply lookup_lt_Some|done].
Qed.

Definition identity (b : RollbackBatch) : string * string * Z * list string :=
  (rb_ID b, rb_PlanHash b, rb_OperationCount b, rb_OperationIDs b).

(** The table has the rollback [b] at [s] operations. *)
Definition saved_at (b : RollbackBatch) (s : nat) (c : CheckpointTable) : Prop :=
  match ct_rows c !! rb_ID b with
  | None => s = 0%nat
  | Some row => identity (cr_data row) = identity b /\ rb_LastCompletedOpIdx (cr_data row) = Z.of_nat s /\
                (rb_Status (cr_data row) = RollbackModels.StateCompleted -> s = length (rb_OperationIDs b))
  end.

(** The calls since [base] and the completions of the journal have come as far
    as the table says, or one operation further, and at most [n] completions
    are there twice. *)
Definition progress (b : RollbackBatch) (base : list (Z * MutationOperation)) (n s : nat) (w : W) : Prop :=
  (s <= length (rb_OperationIDs b))%nat /\
  (exists calls q, w_calls w = base ++ calls /\ reaches (rb_OperationIDs b) (call_ids calls) q /\ (s <= q <= S s)%nat) /\
  (exists q, reaches (rb_OperationIDs b) (completed (rb_ID b) w) q /\ (s <= q <= S s)%nat) /\
  (length (completed (rb_ID b) w) <= n + s)%nat.

Lemma progress_mono b base n n' s w : (n <= n')%nat -> progress b base n s w -> progress b base n' s w.
Proof. intros Hn (H1 & H2 & H3 & H4). split_and!; try done. lia. Qed.

(** Only the calls and the completions count. *)
Definition same_log (id : string) (w w' : W) : Prop := w_calls w' = w_calls w /\ completed id w' = completed id w.

Lemma progress_log b base n s w w' : same_log (rb_ID b) w w' -> progress b base n s w -> progress b base n s w'.
Proof. intros [Hc Hd] H. unfold progress. rewrite Hc, Hd. exact H. Qed.

Lemma completed_journal id a w : completed id (journal e a w) =
  completed id w ++ (if bool_decide (au_Status a = "compensation_completed") && bool_decide (au_BatchID a = id)
                     then [au_OpID a] else []).
Proof.
  unfold completed. cbn [journal record_elapse elapse append_entry w_journal].
  rewrite List.filter_app, fmap_app. f_equal. cbn. by case_match.
Qed.

Lemma journal_log id a w : au_Status a <> "compensation_completed" -> same_log id w (journal e a w).
Proof. intros Ha. split; [done|]. rewrite completed_journal, bool_decide_false by done. by rewrite app_nil_r. Qed.

Lemma journal_after id a w w1 : same_log id w w1 -> au_Status a <> "compensation_completed" -> same_log id w (journal e a w1).
Proof. intros [H1 H2] Ha. destruct (journal_log id a w1 Ha). split; congruence. Qed.

Lemma fence_log id x w w' r : fence_compensation e x w = (w', r) -> same_log id w w'.
Proof. unfold fence_compensation. destruct (fencing e) as [f|]; [destruct (f _ _)|]; by intros [= <- _]. Qed.

(** One operation: at most one call, exactly one when it succeeds, which is
    also when its completion is recorded. *)
Lemma rexecuteSingle_log op id w :
  let '(w', op', r) := rexecuteSingle e op id w in
  (exists calls, w_calls w' = w_calls w ++ calls /\
     (call_ids calls = [co_OperationID op] \/ is_ok r = false /\ calls = [])) /\
  completed id w' = completed id w ++ (if is_ok r then [co_OperationID op] else []).
Proof.
  unfold rexecuteSingle. destruct (negb _).
  { split; [exists []; rewrite app_nil_r; by split; [|right]|by rewrite app_nil_r]. }
  set (op1 := set_comp _ _ _ _ _ op). destruct (OwnershipValidate _ _) as [u|m].
  2:{ split; [exists []; rewrite app_nil_r; by split; [|right]|by rewrite app_nil_r]. }
  destruct (fence_compensation e (exec_op op1) w) as [w1 [[]|m]] eqn:Ef; apply (fence_log id) in Ef as [Hc1 Hd1].
  2:{ match goal with |- context [journal e ?a w1] => destruct (journal_log id a w1) as [Hc2 Hd2]; [done|] end.
      split; [exists []; rewrite app_nil_r; split; [congruence|by right]|]. cbn [is_ok]. rewrite app_nil_r. congruence. }
  assert (Hb : same_log id w1 (begin_compensation e op1 id w1)) by (by apply journal_log). destruct Hb as [Hc2 Hd2].
  unfold call_compensation. destruct (Execute _ _ _) as [[d p] r].
  match goal with |- context [w_calls _ ++ [?x]] => set (call := x) end.
  assert (Hid : call_ids [call] = [co_OperationID op]) by done.
  destruct r as [rid|m]; (split; [exists [call]; split; [by rewrite <- Hc1, <- Hc2|by left]|]);
    rewrite completed_journal; cbn [au_Status au_BatchID au_OpID is_ok].
  - rewrite !bool_decide_true by done. cbn [andb]. rewrite <- Hd1, <- Hd2. done.
  - rewrite bool_decide_false by done. cbn [andb]. rewrite <- Hd1, <- Hd2. done.
Qed.

Section plan.
Context (b0 : RollbackBatch) (base : list (Z * MutationOperation)).
Abbreviation plan := (rb_OperationIDs b0).

(** A call to the operation at [s] keeps the progress, and its completion moves
    it on once the checkpoint is saved. *)
Lemma progress_called n s x w w' calls : plan !! s = Some x -> progress b0 base n s w ->
  w_calls w' = w_calls w ++ calls -> call_ids calls = [x] \/ calls = [] ->
  completed (rb_ID b0) w' = completed (rb_ID b0) w -> progress b0 base n s w'.
Proof.
  intros Hx (H1 & (cs & q & H2 & H3 & H4) & H5 & H6) Hc Hcalls Hd. unfold progress. rewrite Hd. split_and!; try done.
  destruct Hcalls as [Hid| ->]; [|exists cs, q; by rewrite Hc, app_nil_r].
  exists (cs ++ calls), (S s). split; [by rewrite Hc, H2, <- app_assoc|]. split; [|lia].
  unfold call_ids in *. rewrite fmap_app, Hid. by eapply reaches_snoc.
Qed.

Lemma progress_completed n s x w w' calls : plan !! s = Some x -> progress b0 base n s w ->
  w_calls w' = w_calls w ++ calls -> call_ids calls = [x] ->
  completed (rb_ID b0) w' = completed (rb_ID b0) w ++ [x] ->
  progress b0 base (S n) s w' /\ progress b0 base n (S s) w'.
Proof.
  intros Hx (H1 & (cs & q & H2 & H3 & H4) & (q' & H5 & H6) & H7) Hc Hid Hd.
  pose proof (lookup_lt_Some _ _ _ Hx) as Hlt.
  assert (Hcs : w_calls w' = base ++ (cs ++ calls)) by (by rewrite Hc, H2, <- app_assoc).
  assert (Hr : reaches plan (call_ids (cs ++ calls)) (S s))
    by (unfold call_ids in *; rewrite fmap_app, Hid; by eapply reaches_snoc).
  assert (Hr' : reaches plan (completed (rb_ID b0) w') (S s)) by (rewrite Hd; by eapply reaches_snoc).
  assert (Hl : (length (completed (rb_ID b0) w') <= n + S s)%nat) by (rewrite Hd, length_app; cbn; lia).
  split; (split; [lia|]; split; [exists (cs ++ calls), (S s); split_and!; [done|done|lia..]|];
          split; [exists (S s); split; [done|lia]|lia]).
Qed.

(** Saving a batch of the same identity: the table has its progress, or is
    left as it was by a save that failed. *)
Lemma save_at b k s c : identity b = identity b0 -> rb_LastCompletedOpIdx b = Z.of_nat k -> saved_at b0 s c ->
  (rb_Status b = RollbackModels.StateCompleted -> k = length plan) ->
  exists c' r, save b (Some c) = (Some c', r) /\ (saved_at b0 k c' \/ is_ok r = false /\ saved_at b0 s c') /\
    (writable c -> r = Ok tt /\ writable c').
Proof.
  intros Hid Hk Hs Hst. unfold save. cbn. destruct (ct_save_rows b c) as (row & Hrow & H).
  destruct (ct_save b c) as [c' r]. exists c', r. split; [done|]. split; [|by apply H].
  assert (rb_ID b = rb_ID b0) as Hi by (unfold identity in Hid; congruence).
  destruct H as [[Hr|[Hr Hc]] _]; [left|right; split; [done|]]; unfold saved_at in *.
  - rewrite Hr, Hi, lookup_insert, decide_True by done. by rewrite Hrow.
  - by rewrite Hc.
Qed.

(** How an attempt ends: with one more interruption than before only when a
    save failed, and at the end of the plan when it succeeds. *)
Definition ended (n : nat) (c : CheckpointTable) (x : RWorld (C := CheckpointTable) * result unit) : Prop :=
  exists w' c' n' s', x.1 = (w', Some c') /\ progress b0 base n' s' w' /\ saved_at b0 s' c' /\ (n' <= S n)%nat /\
    (writable c \/ is_ok x.2 = true -> n' = n) /\ (is_ok x.2 = true -> s' = length plan).

(** What a crash can leave. *)
Definition crashed (n : nat) (x : RWorld (P := P) (C := CheckpointTable)) : Prop :=
  exists w' c' s', x = (w', Some c') /\ progress b0 base (S n) s' w' /\ saved_at b0 s' c'.

Lemma crashed_at n s w c : progress b0 base n s w -> saved_at b0 s c -> crashed n (w, Some c).
Proof. intros Hp Hs. exists w, c, s. split; [done|]. split; [|done]. eapply progress_mono; [|done]. lia. Qed.

Lemma single_states_crashed op n s w c : plan !! s = Some (co_OperationID op) -> progress b0 base n s w ->
  saved_at b0 s c -> Forall (crashed n) ((fun w => (w, Some c)) <$> single_states e op (rb_ID b0) w).
Proof.
  intros Hx Hp Hs. unfold single_states. destruct (negb _); [constructor|].
  destruct (OwnershipValidate _ _) as [u|m]; [|constructor].
  destruct (fence_compensation e (exec_op op) w) as [w1 [[]|m]] eqn:Ef; [|constructor].
  apply (fence_log (rb_ID b0)) in Ef. cbn.
  assert (Hb : same_log (rb_ID b0) w1 (begin_compensation e op (rb_ID b0) w1)) by (by apply journal_log).
  pose proof (progress_log _ _ _ _ _ _ Hb (progress_log _ _ _ _ _ _ Ef Hp)) as Hp1.
  constructor; [by eapply crashed_at|]. constructor; [|constructor]. eapply crashed_at; [|done].
  unfold call_compensation. destruct (Execute _ _ _) as [[d p] r]. cbn.
  eapply progress_called; [exact Hx|exact Hp1|done|by left|done].
Qed.

(** The end of the loop and the failure of an operation are records after a
    save at the same progress. *)
Lemma ended_at n s w c c' x w' r : progress b0 base n s w -> same_log (rb_ID b0) w w' -> saved_at b0 s c' ->
  x = ((w', Some c'), r) -> (is_ok r = true -> s = length plan) -> ended n c x.
Proof.
  intros Hp Hl Hs -> Hok. exists w', c', n, s. split; [done|]. split; [by eapply progress_log|].
  by split_and!; [done|lia|..].
Qed.

Lemma rollback_loop_progress todo i b n w c :
  identity b = identity b0 -> rb_LastCompletedOpIdx b = Z.of_nat i -> rb_Status b = RollbackModels.StateExecuting ->
  drop i plan = co_OperationID <$> todo -> progress b0 base n i w -> saved_at b0 i c ->
  ended n c (rollback_loop e todo i b w (Some c)) /\ Forall (crashed n) (loop_states e todo i b w (Some c)).
Proof.
  revert i b w c. induction todo as [|op todo IH]; intros i b w c Hid Hidx Hst Hd Hp Hs; cbn [rollback_loop loop_states].
  - assert (Hlen : i = length plan).
    { apply (f_equal length) in Hd. rewrite length_drop in Hd. destruct Hp. cbn in Hd. lia. }
    match goal with |- context [save ?x (Some c)] =>
      destruct (save_at x i i c) as (c' & r & -> & Hs' & Hw); [done|done|done|done|] end.
    assert (Hs1 : saved_at b0 i c') by (destruct Hs' as [?|[_ ?]]; done). split.
    + destruct r as [[]|m]; (eapply ended_at; [exact Hp| |exact Hs1|reflexivity|done]); [|done].
      by apply journal_after.
    + constructor; [by eapply crashed_at|]. constructor; [|constructor].
      by apply (crashed_at n i (set_breaker (RecordSuccess (w_breaker w)) w)).
  - assert (Hop : plan !! i = Some (co_OperationID op)).
    { pose proof (f_equal (fun l => l !! 0%nat) Hd) as Hl. cbn in Hl. rewrite lookup_drop, Nat.add_0_r in Hl. done. }
    assert (HidID : rb_ID b = rb_ID b0) by (unfold identity in Hid; congruence).
    pose proof (rexecuteSingle_log op (rb_ID b) w) as Hx. pose proof (single_states_crashed op n i w c Hop Hp Hs) as Hcr.
    rewrite <- HidID in Hcr.
    destruct (rexecuteSingle e op (rb_ID b) w) as [[w1 op1] [[]|m]]; rewrite HidID in Hx;
      destruct Hx as [(calls & Hc & Hcalls) Hdn]; cbn [is_ok] in *.
    + destruct Hcalls as [Hcalls|[? _]]; [|done].
      destruct (progress_completed n i _ w w1 calls Hop Hp Hc Hcalls Hdn) as [Hp1 Hp2].
      match goal with |- context [save ?x (Some c)] =>
        set (b1 := x); destruct (save_at b1 (S i) i c) as (c' & r & Hsv & Hs' & Hw); [done|cbn; lia|done| |] end.
      { cbn. rewrite Hst. intros Hne. by vm_compute in Hne. }
      rewrite Hsv. destruct r as [[]|m].
      * destruct Hs' as [Hs'|[? _]]; [|done].
        destruct (IH (S i) b1 w1 c') as [(w2 & c2 & n2 & s2 & He & Hp3 & Hs3 & Hn3 & Hw3 & Hok3) Hall]; try done.
        { cbn. lia. } { rewrite (drop_S _ _ _ Hop) in Hd. exact (f_equal (@tl _) Hd). }
        split.
        -- exists w2, c2, n2, s2. split_and!; try done. intros [Hw'|?]; apply Hw3; [left; by apply Hw|by right].
        -- constructor; [by eapply crashed_at|]. apply Forall_app. split; [exact Hcr|].
           constructor; [|exact Hall]. by exists w1, c, i.
      * assert (Hcr1 : crashed n (w1, Some c')) by (destruct Hs' as [?|[_ ?]];
          [eapply (crashed_at n (S i)); [exact Hp2|done]|by exists w1, c', i]).
        split.
        -- destruct Hcr1 as (w2 & c2 & s2 & [= <- <-] & Hp3 & Hs3). exists w1, c', (S n), s2.
           split_and!; try done. intros [Hw'|?]; [|done]. by destruct (Hw Hw').
        -- constructor; [by eapply crashed_at|]. apply Forall_app. split; [exact Hcr|].
           constructor; [by exists w1, c, i|]. by constructor.
    + rewrite app_nil_r in Hdn.
      assert (Hp1 : progress b0 base n i w1) by (eapply progress_called; [exact Hop|exact Hp|exact Hc| |exact Hdn]; naive_solver).
      match goal with |- context [save ?x (Some c)] =>
        set (b1 := x); destruct (save_at b1 i i c) as (c' & r & Hsv & Hs' & Hw);
          [done|done|done|cbn; intros Hne; by vm_compute in Hne|] end.
      assert (Hs1 : saved_at b0 i c') by (destruct Hs' as [?|[_ ?]]; done). rewrite Hsv. split.
      * eapply ended_at; [exact Hp1| |exact Hs1|reflexivity|done].
        by apply journal_after.
      * constructor; [by eapply crashed_at|]. apply Forall_app. split; [exact Hcr|].
        constructor; [by eapply crashed_at|]. constructor; [|constructor]. by apply (crashed_at n i (record_failure w1)).
Qed.

Lemma start_progress n s b w c : identity b = identity b0 -> rb_LastCompletedOpIdx b = Z.of_nat s ->
  operationIDs (rb_Operations b) = plan -> progress b0 base n s w -> saved_at b0 s c ->
  ended n c (start_rollback e b w (Some c)) /\ Forall (crashed n) (start_states e b w (Some c)).
Proof.
  intros Hid Hidx Hops Hp Hs. unfold start_rollback, start_states.
  match goal with |- context [save ?x (Some c)] =>
    set (b1 := x); destruct (save_at b1 s s c) as (c' & r & Hsv & Hs' & Hw);
      [done|done|done|cbn; intros Hne; by vm_compute in Hne|] end.
  assert (Hs1 : saved_at b0 s c') by (destruct Hs' as [?|[_ ?]]; done). rewrite Hsv. destruct r as [[]|m].
  2:{ split; [by eapply ended_at|]. constructor; [by eapply crashed_at|constructor]. }
  change (rb_LastCompletedOpIdx b1) with (rb_LastCompletedOpIdx b). rewrite Hidx, Nat2Z.id.
  match goal with |- context [journal e ?a w] => set (w1 := journal e a w) end.
  assert (Hp1 : progress b0 base n s w1) by (eapply progress_log; [by apply journal_log|exact Hp]).
  destruct (rollback_loop_progress (drop s (rb_Operations b1)) s b1 n w1 c')
    as [(w2 & c2 & n2 & s2 & He & Hp3 & Hs3 & Hn3 & Hw3 & Hok3) Hall]; try done.
  { rewrite <- Hops. unfold operationIDs. by rewrite fmap_drop. }
  split.
  - exists w2, c2, n2, s2. split_and!; try done. intros [Hw'|?]; apply Hw3; [left; by apply Hw|by right].
  - constructor; [by eapply crashed_at|]. constructor; [by eapply crashed_at|exact Hall].
Qed.
End plan.

Lemma ExecuteRollback_progress b base n s w c : rb_LastCompletedOpIdx b = 0 ->
  progress (ensureRollbackPlanIdentity b) base n s w -> saved_at (ensureRollbackPlanIdentity b) s c ->
  ended (ensureRollbackPlanIdentity b) base n c (ExecuteRollback e b (w, Some c)) /\
  Forall (crashed (ensureRollbackPlanIdentity b) base n) (run_states e b (w, Some c)).
Proof.
  intros Hb Hp Hs. unfold ExecuteRollback, run_states. destruct (Allow (w_now w) (w_breaker w)) as [cb allowed].
  set (w0 := set_breaker cb w). set (b1 := ensureRollbackPlanIdentity b) in *.
  assert (Hp0 : progress b1 base n s w0) by exact Hp.
  assert (Hstay : forall m, ended b1 base n c ((w0, Some c), Err m) /\ Forall (crashed b1 base n) [(w0, Some c)])
    by (intros m; split; [by eapply ended_at|]; constructor; [by eapply crashed_at|constructor]).
  clearbody w0. clear Hp. destruct allowed; cbn [negb]; [|apply Hstay].
  cbn [LoadRollbackCheckpoint checkpoint_table]. unfold ct_load. destruct (ct_unreadable c); [apply Hstay|].
  pose proof Hs as Hrow. unfold saved_at in Hrow.
  destruct (ct_rows c !! rb_ID b1) as [row|]; cbn [fmap option_fmap option_map].
  2:{ apply (start_progress b1 base n s b1); try done. by rewrite Hrow. }
  destruct Hrow as (Hid & Hidx & Hdone). set (p := cr_data row) in *.
  assert (validateRollbackPlanIdentity b1 p = Ok tt) as ->.
  { unfold validateRollbackPlanIdentity. unfold identity in Hid. injection Hid as -> -> -> ->.
    rewrite !bool_decide_true, Z.eqb_refl by done. done. }
  destruct (already_done b1 p) eqn:Hd.
  - apply andb_true_iff in Hd as [Hst%bool_decide_eq_true _].
    split; [|apply (Hstay "")]. eapply ended_at; [exact Hp0|done|exact Hs|reflexivity|]. intros _. by apply Hdone.
  - apply (start_progress b1 base n s (resume b1 p)); try done. cbn. rewrite Hidx. lia.
Qed.

(** What may happen between two attempts: anything but further calls and
    completions of this rollback, or changes to its row. *)
Definition meanwhile (id : string) (x y : W * CheckpointTable) : Prop :=
  same_log id x.1 y.1 /\ ct_rows y.2 !! id = ct_rows x.2 !! id.

(** A history of attempts, with the number of those that were interrupted: a
    save may have failed in them, or they ended in a crash. *)
Inductive attempts (b : RollbackBatch) : nat -> W * CheckpointTable -> W * CheckpointTable -> Prop :=
| attempts_none x : attempts b 0 x x
| attempts_run n x y w c w' c' r : attempts b n x y -> meanwhile (rb_ID b) y (w, c) -> writable c ->
    ExecuteRollback e b (w, Some c) = ((w', Some c'), r) -> attempts b n x (w', c')
| attempts_unsaved n x y w c w' c' r : attempts b n x y -> meanwhile (rb_ID b) y (w, c) ->
    ExecuteRollback e b (w, Some c) = ((w', Some c'), r) -> attempts b (S n) x (w', c')
| attempts_crash n x y w c w' c' : attempts b n x y -> meanwhile (rb_ID b) y (w, c) ->
    (w', Some c') ∈ run_states e b (w, Some c) -> attempts b (S n) x (w', c').

(** How far a history has come. *)
Definition at_progress (b : RollbackBatch) (base : list (Z * MutationOperation)) (n : nat) (x : W * CheckpointTable) : Prop :=
  exists n' s, (n' <= n)%nat /\ progress (ensureRollbackPlanIdentity b) base n' s x.1 /\
             saved_at (ensureRollbackPlanIdentity b) s x.2.

Lemma at_progress_meanwhile b base n x y : meanwhile (rb_ID b) x y -> at_progress b base n x -> at_progress b base n y.
Proof.
  intros [Hl Hr] (n' & s & Hn & Hp & Hs). exists n', s. split; [done|]. split; [by eapply progress_log|].
  unfold saved_at in *. change (rb_ID (ensureRollbackPlanIdentity b)) with (rb_ID b) in *. by rewrite Hr.
Qed.

Lemma attempts_progress b base n x y : rb_LastCompletedOpIdx b = 0 -> at_progress b base 0 x -> attempts b n x y ->
  at_progress b base n y.
Proof.
  intros Hb Hx H. induction H as [x|n x y w c w' c' r _ IH Hm Hw Hex|n x y w c w' c' r _ IH Hm Hex|n x y w c w' c' _ IH Hm Hin];
    [done|..]; destruct (at_progress_meanwhile _ _ _ _ _ Hm (IH Hx)) as (n' & s & Hn & Hp & Hs);
    destruct (ExecuteRollback_progress b base n' s w c Hb Hp Hs) as [(w1 & c1 & n1 & s1 & He & Hp1 & Hs1 & Hn1 & Hw1 & _) Hcr].
  - rewrite Hex in He. cbn in He. simplify_eq. exists n1, s1. split; [|done]. rewrite Hw1 by (by left). done.
  - rewrite Hex in He. cbn in He. simplify_eq. exists n1, s1. split; [lia|done].
  - rewrite Forall_forall in Hcr. destruct (Hcr _ Hin) as (w2 & c2 & s2 & [= <- <-] & Hp2 & Hs2).
    exists (S n'), s2. split; [lia|done].
Qed.

(** *** The table keeps the checkpoints of other batches *)
Lemma save_other b c c' r id : id <> rb_ID b -> save b (Some c) = (Some c', r) -> ct_rows c' !! id = ct_rows c !! id.
Proof.
  intros Hne. unfold save. cbn. destruct (ct_save_rows b c) as (row & _ & H). destruct (ct_save b c) as [c1 r1].
  intros [= -> ->]. destruct H as [[->|[_ ->]] _]; [|done]. by rewrite lookup_insert_ne.
Qed.

Lemma save_some b c : exists c' r, save b (Some c) = (Some c', r).
Proof. unfold save. destruct (SaveRollbackCheckpoint b c) as [c' r]. eauto. Qed.

Lemma rollback_loop_other todo i b w c id : id <> rb_ID b ->
  exists w' c' r, rollback_loop e todo i b w (Some c) = ((w', Some c'), r) /\ ct_rows c' !! id = ct_rows c !! id.
Proof.
  intros Hne. revert i b w c Hne. induction todo as [|op todo IH]; intros i b w c Hne; cbn [rollback_loop].
  - match goal with |- context [save ?x (Some c)] => destruct (save_some x c) as (c' & r & Hs) end.
    rewrite Hs. apply (save_other _ _ _ _ id) in Hs; [|done]. destruct r; eauto.
  - destruct (rexecuteSingle e op (rb_ID b) w) as [[w1 op1] [[]|m]].
    + match goal with |- context [save ?x (Some c)] => set (b1 := x); destruct (save_some b1 c) as (c' & r & Hs) end.
      rewrite Hs. apply (save_other _ _ _ _ id) in Hs; [|done]. destruct r as [[]|m]; [|eauto].
      destruct (IH (S i) b1 w1 c') as (w' & c2 & r & -> & Hc); [done|]. exists w', c2, r. split; [done|]. congruence.
    + match goal with |- context [save ?x (Some c)] => destruct (save_some x c) as (c' & r & Hs) end.
      rewrite Hs. apply (save_other _ _ _ _ id) in Hs; [|done]. eauto.
Qed.

Lemma start_other b w c id : id <> rb_ID b ->
  exists w' c' r, start_rollback e b w (Some c) = ((w', Some c'), r) /\ ct_rows c' !! id = ct_rows c !! id.
Proof.
  intros Hne. unfold start_rollback.
  match goal with |- context [save ?x (Some c)] => set (b1 := x); destruct (save_some b1 c) as (c' & r & Hs) end.
  rewrite Hs. apply (save_other _ _ _ _ id) in Hs; [|done]. destruct r as [[]|m]; [|eauto].
  match goal with |- context [rollback_loop e ?t ?i b1 ?w ?c] =>
    destruct (rollback_loop_other t i b1 w c' id) as (w' & c2 & r & -> & Hc) end; [done|].
  exists w', c2, r. split; [done|]. congruence.
Qed.

Lemma ExecuteRollback_other b w c id : id <> rb_ID b ->
  exists w' c' r, ExecuteRollback e b (w, Some c) = ((w', Some c'), r) /\ ct_rows c' !! id = ct_rows c !! id.
Proof.
  intros Hne. unfold ExecuteRollback. destruct (Allow (w_now w) (w_breaker w)) as [cb [|]]; cbn [negb]; [|eauto].
  destruct (LoadRollbackCheckpoint _ c) as [[p|]|m]; [| |eauto].
  - destruct (validateRollbackPlanIdentity _ p) as [[]|m]; [|eauto]. case_match; [eauto|]. by apply start_other.
  - by apply start_other.
Qed.
End attempts.

(** C22: Compensations are not repeated, save for the one whose checkpoint
    was lost.  Over any number of attempts at one rollback plan, with failures
    at any operation, checkpoints that are not saved (or saved although the
    save reports an error), crashes between any two effects, and anything
    happening to the clock, the breaker and the provider in between: the calls
    to the provider go through the plan in its order, and only the operation
    reached last is ever called again; the completions in the journal do so
    too, with at most one repetition per interrupted attempt, that is per
    attempt with a failing save or a crash; and an attempt that succeeds has
    completed the whole plan.  Without interruptions every completion is there
    once. *)
Theorem rollback_exactly_once {P : Type} `{!ProviderMutator P} e b n w c w' c' :
  rb_LastCompletedOpIdx b = 0 -> RollbackCheckpoints.ct_rows c !! rb_ID b = None -> completed (P := P) (rb_ID b) w = [] ->
  attempts e b n (w, c) (w', c') ->
  let plan := operationIDs (rb_Operations b) in
  (exists calls q, w_calls w' = w_calls w ++ calls /\ reaches plan (call_ids calls) q) /\
  (exists q, reaches plan (completed (rb_ID b) w') q /\ (length (completed (rb_ID b) w') <= n + q)%nat /\
     (n = 0%nat -> completed (rb_ID b) w' = take q plan)) /\
  (forall w0 c0 w2 c2, meanwhile (rb_ID b) (w', c') (w0, c0) -> ExecuteRollback e b (w0, Some c0) = ((w2, c2), Ok tt) ->
     reaches plan (completed (rb_ID b) w2) (length plan) /\
     (length (completed (rb_ID b) w2) <= n + length plan)%nat /\
     (n = 0%nat -> completed (rb_ID b) w2 = plan)).
Proof.
  intros Hb Hrow Hc Hr plan.
  assert (Hx : at_progress b (w_calls w) 0 (w, c)).
  { exists 0%nat, 0%nat. split; [done|]. split.
    - split; [lia|]. split.
      { exists [], 0%nat. rewrite app_nil_r. split_and!; [done|apply reaches_nil|lia..]. }
      change (rb_ID (ensureRollbackPlanIdentity b)) with (rb_ID b). cbn [fst]. rewrite Hc.
      split; [exists 0%nat; split; [apply reaches_nil|lia]|done].
    - unfold saved_at. change (rb_ID (ensureRollbackPlanIdentity b)) with (rb_ID b). cbn [snd]. by rewrite Hrow. }
  pose proof (attempts_progress e b _ n _ _ Hb Hx Hr) as Hy. split_and!.
  - destruct Hy as (n' & s & _ & (_ & (calls & q & ? & ? & _) & _) & _). by exists calls, q.
  - destruct Hy as (n' & s & Hn & (_ & _ & (q & Hq & Hsq) & Hl) & _). cbn [fst] in *.
    change (rb_ID (ensureRollbackPlanIdentity b)) with (rb_ID b) in *.
    exists q. split; [exact Hq|]. split; [lia|]. intros ->. apply (reaches_exact plan); [exact Hq|lia].
  - intros w0 c0 w2 c2 Hm Hex.
    destruct (at_progress_meanwhile _ _ _ _ _ Hm Hy) as (n' & s & Hn & Hp & Hs). cbn [fst snd] in *.
    destruct (ExecuteRollback_progress e b (w_calls w) n' s w0 c0 Hb Hp Hs)
      as [(w3 & c3 & n3 & s3 & He & Hp3 & _ & _ & Hw3 & Hok) _].
    rewrite Hex in He, Hw3, Hok. cbn in He, Hw3, Hok. simplify_eq. rewrite (Hok eq_refl), (Hw3 (or_intror eq_refl)) in Hp3.
    destruct Hp3 as (_ & _ & (q & Hq & Hsq) & Hl).
    change (rb_ID (ensureRollbackPlanIdentity b)) with (rb_ID b) in *.
    change (rb_OperationIDs (ensureRollbackPlanIdentity b)) with plan in *. fold plan in Hsq, Hl.
    assert (q = length plan) as -> by (pose proof (reaches_le _ _ _ Hq); lia).
    split; [exact Hq|]. split; [lia|]. intros ->. rewrite <- (firstn_all plan). apply reaches_exact; [exact Hq|lia].
Qed.

(** A provider that fails while its memory is empty of a key. *)
Definition flaky (bad : string) : ProviderMutator nat :=
  fun now op n => (1%N, S n,
    if bool_decide (mo_StableIdentityKey op = bad /\ n = 1%nat) then Err "timeout" else Ok "ok").

Definition created (id key : string) : MutationOperation :=
  {| mo_OperationID := id; mo_ScopeID := ""; mo_Type := "create"; mo_ResourceType := "lists";
     mo_StableIdentityKey := key; mo_State := "completed"; mo_ProviderObjectID := ""; mo_ExpectedETag := "";
     mo_Payload := Some (Canonical.VString key); mo_ResultID := "r"; mo_StartedAt := 0; mo_FinishedAt := 0; mo_Error := "";
     mo_ApprovalRequired := false; mo_ApprovalID := ""; mo_ApprovalStatus := ""; mo_ApprovalExpiresAt := 0;
     mo_ApprovedBy := ""; mo_ApprovalReason := ""; mo_LeaseID := ""; mo_FencingToken := 0; mo_LeaseAction := "" |}.

Definition forward_batch : MutationBatch :=
  {| mb_ID := "b"; mb_ScopeID := ""; mb_PlanID := ""; mb_SnapshotChecksum := "";
     mb_Operations := [created "1" "k1"; created "2" "k2"]; mb_CreatedAt := 0; mb_Status := ""; mb_EpochID := "";
     mb_Generation := 0; mb_LeaseID := ""; mb_FencingToken := 0; mb_LeaseAction := ""; mb_DestructiveCount := 0;
     mb_ApprovalRequired := false; mb_ApprovalID := ""; mb_ApprovalStatus := ""; mb_ApprovalExpiresAt := 0;
     mb_ApprovedBy := ""; mb_ApprovalReason := "" |}.

Definition rollback_of (now : Z) : RollbackBatch :=
  match RollbackPlanner.GenerateRollbackBatch now forward_batch "test" with
  | Ok b => b
  | Err _ => {| rb_ID := ""; rb_OriginatingBatchID := ""; rb_Operations := []; rb_CreatedAt := 0; rb_Status := "";
                rb_Reason := ""; rb_PlanHash := ""; rb_OperationIDs := []; rb_OperationCount := 0;
                rb_LastCompletedOpIdx := 0; rb_StartedAt := 0; rb_FinishedAt := 0 |}
  end.

Lemma rollback_undoes_witness :
  foldl RollbackPlanner.comp_effect (foldl RollbackPlanner.forward_effect ∅ (mb_Operations forward_batch))
    (rb_Operations (rollback_of 0)) = ∅.
Proof.
  apply (RollbackPlanner.rollback_undoes 0 forward_batch "test" (rollback_of 0) ∅); [by vm_compute|].
  cbn [forward_batch mb_Operations RollbackPlanner.undoable_all].
  split_and!; [left; by vm_compute|left; by vm_compute|done].
Defined.

Definition plain_executor : GovernedExecutor :=
  {| mutators := ["lists"]; ownerReg := Resources.NewRegistry; guard := None; fencing := None;
     hasSink := false; hasEvidence := false; recordTime := fun _ => 1%N |}.

Definition start_world (n : nat) : World (P := nat) :=
  {| w_now := 5 * second; w_breaker := NewBreaker 3 minute minute; w_journal := []; w_sink := []; w_evidence := [];
     w_prov := n; w_calls := [] |}.

Definition empty_table : RollbackCheckpoints.CheckpointTable :=
  {| RollbackCheckpoints.ct_readOnly := false; RollbackCheckpoints.ct_unreadable := false;
     RollbackCheckpoints.ct_writes := []; RollbackCheckpoints.ct_rows := ∅ |}.

Abbreviation Run := (ExecuteRollback (ProviderMutator0 := flaky "k1") plain_executor).

Definition first_run := Run (rollback_of 0) (start_world 0, Some empty_table).
Definition second_run := Run (rollback_of 0) first_run.1.
Definition replanned_run := Run (rollback_of second) first_run.1.

Definition table_after (x : RWorld (P := nat) * result unit) : RollbackCheckpoints.CheckpointTable := default empty_table x.1.2.

Lemma run_eq (x : RWorld (P := nat) (C := RollbackCheckpoints.CheckpointTable) * result unit) c : x.1.2 = Some c -> x = ((x.1.1, Some c), x.2).
Proof. destruct x as [[w c'] r]. cbn. by intros ->. Qed.

Lemma run_ok (x : RWorld (P := nat) (C := RollbackCheckpoints.CheckpointTable) * result unit) :
  x.2 = Ok tt -> x = ((x.1.1, x.1.2), Ok tt).
Proof. destruct x as [[w c'] r]. cbn. by intros ->. Qed.

Lemma run_world (x : RWorld (P := nat) (C := RollbackCheckpoints.CheckpointTable) * result unit) c :
  x.1.2 = Some c -> (x.1.1, Some c) = x.1.
Proof. destruct x as [[w c'] r]. cbn. by intros ->. Qed.

Lemma first_table : first_run.1.2 = Some (table_after first_run).
Proof. by vm_compute. Qed.

Lemma first_run_eq : first_run = ((first_run.1.1, Some (table_after first_run)), first_run.2).
Proof. exact (run_eq first_run _ first_table). Qed.

Lemma second_run_ok : second_run.2 = Ok tt.
Proof. by vm_compute. Qed.

Lemma second_run_eq :
  Run (rollback_of 0) (first_run.1.1, Some (table_after first_run)) = ((second_run.1.1, second_run.1.2), Ok tt).
Proof. rewrite (run_world first_run _ first_table). exact (run_ok second_run second_run_ok). Qed.

(** The first attempt fails at the second compensation; the second attempt of
    the same plan executes only that one. *)
Lemma rollback_exactly_once_witness :
  is_ok first_run.2 = false /\ (mo_OperationID ∘ snd) <$> w_calls second_run.1.1 = ["comp-2"; "comp-1"; "comp-1"] /\
  completed (rb_ID (rollback_of 0)) second_run.1.1 = ["comp-2"; "comp-1"].
Proof.
  split; [by vm_compute|]. split; [by vm_compute|].
  destruct (rollback_exactly_once (ProviderMutator0 := flaky "k1") plain_executor (rollback_of 0) 0 (start_world 0)
              empty_table first_run.1.1 (table_after first_run)) as (_ & _ & H); [done|done|done| |].
  - eapply attempts_run; [apply attempts_none| | |exact first_run_eq]; by split.
  - destruct (H first_run.1.1 (table_after first_run) second_run.1.1 second_run.1.2) as (_ & _ & H0);
      [by split|exact second_run_eq|].
    transitivity (operationIDs (rb_Operations (rollback_of 0))); [exact (H0 eq_refl)|by vm_compute].
Defined.

(** A table whose second write fails: the checkpoint after the first
    compensation. *)
Definition failing_table : RollbackCheckpoints.CheckpointTable :=
  {| RollbackCheckpoints.ct_readOnly := false; RollbackCheckpoints.ct_unreadable := false;
     RollbackCheckpoints.ct_writes := [RollbackCheckpoints.Written; RollbackCheckpoints.NotWritten "database is locked"];
     RollbackCheckpoints.ct_rows := ∅ |}.

Definition unsaved_run := Run (rollback_of 0) (start_world 2, Some failing_table).

(** The compensation that completed before the lost checkpoint is executed
    again. *)
Example unsaved_checkpoint_repeats :
  is_ok unsaved_run.2 = false /\
  let again := Run (rollback_of 0) unsaved_run.1 in
  again.2 = Ok tt /\ completed (rb_ID (rollback_of 0)) again.1.1 = ["comp-2"; "comp-2"; "comp-1"].
Proof. by vm_compute. Qed.

(** A rollback that is planned again gets another id, so that it never finds
    the checkpoint of the earlier attempt: plans made in different seconds have
    different ids, and executing the first leaves no checkpoint for the
    second. *)
Theorem replanned_rollback_restarts {P : Type} `{!ProviderMutator P} e t1 t2 forward reason rb1 rb2 w c w1 c1 r :
  unix_seconds t1 <> unix_seconds t2 ->
  RollbackPlanner.GenerateRollbackBatch t1 forward reason = Ok rb1 ->
  RollbackPlanner.GenerateRollbackBatch t2 forward reason = Ok rb2 ->
  RollbackCheckpoints.ct_rows c !! rb_ID rb2 = None ->
  ExecuteRollback (P := P) e rb1 (w, Some c) = ((w1, Some c1), r) ->
  rb_ID rb1 <> rb_ID rb2 /\ RollbackCheckpoints.ct_rows c1 !! rb_ID rb2 = None.
Proof.
  intros Ht H1 H2 Hc Hex.
  assert (Hid : forall t rb, RollbackPlanner.GenerateRollbackBatch t forward reason = Ok rb ->
                  rb_ID rb = RollbackPlanner.rollback_id t (mb_ID forward)).
  { intros t rb. unfold RollbackPlanner.GenerateRollbackBatch. destruct (RollbackPlanner.compensate _); [|done].
    by intros [= <-]. }
  assert (Hne : rb_ID rb2 <> rb_ID rb1).
  { rewrite (Hid _ _ H1), (Hid _ _ H2). unfold RollbackPlanner.rollback_id. intros H. apply Ht.
    apply str_app_inv, str_app_inv, str_app_inv in H. by apply (inj pretty) in H. }
  split; [by intros E; apply Hne|].
  destruct (ExecuteRollback_other e rb1 w c (rb_ID rb2) Hne) as (w2 & c2 & r2 & Hex2 & Hrow).
  rewrite Hex in Hex2. simplify_eq. by rewrite Hrow, Hc.
Qed.

(** The compensation that completed in the first attempt is executed again. *)
Lemma replanned_rollback_restarts_witness :
  RollbackCheckpoints.ct_rows (table_after first_run) !! rb_ID (rollback_of second) = None /\
  (mo_OperationID ∘ snd) <$> w_calls replanned_run.1.1 = ["comp-2"; "comp-1"; "comp-2"; "comp-1"].
Proof.
  split; [|by vm_compute].
  apply (replanned_rollback_restarts (ProviderMutator0 := flaky "k1") plain_executor 0 second forward_batch "test"
           (rollback_of 0) (rollback_of second) (start_world 0) empty_table first_run.1.1 (table_after first_run) first_run.2);
    [by vm_compute|done|done|done|exact first_run_eq].
Defined.

End RollbackExecutor.
