(* ===== verification/Ownership.v ===== *)
(** * Ownership of resources

    [internal/runtime/ownership] (domains, claims, the resolver and the lineage
    of its decisions) and [internal/storage/sqlite/ownership.go] (the claim and
    lineage tables).  The resolver is written against the claim store and the
    lineage recorder interfaces; the tables are their instances. *)

From S2P Require Import Prelude GoFmt Sha256.

Local Open Scope Z_scope.

Module Ownership.

Definition TrustImmutable : Z := 255.
Definition TrustAuthoritative : Z := 100.
Definition TrustManaged : Z := 80.
Definition TrustOpportunistic : Z := 40.
Definition TrustUnknown : Z := 0.

Definition RightCreate : string := "create".
Definition RightUpdate : string := "update".
Definition RightDelete : string := "delete".
Definition RightRollback : string := "rollback".
Definition RightOverride : string := "override".

Record OwnershipDomain := {
  d_ID : string;
  d_Type : string;
  d_Priority : Z;
  d_Trust : Z;
  d_Capabilities : list string;
}.

Definition zero_domain : OwnershipDomain :=
  {| d_ID := ""; d_Type := ""; d_Priority := 0; d_Trust := 0; d_Capabilities := [] |}.

Record OwnershipClaim := {
  oc_ScopeID : string;
  oc_ResourceID : string;
  oc_DomainID : string;
  oc_Epoch : Z;
  oc_Rights : list string;
  oc_Timestamp : Z;
}.

Definition zero_claim : OwnershipClaim :=
  {| oc_ScopeID := ""; oc_ResourceID := ""; oc_DomainID := ""; oc_Epoch := 0; oc_Rights := [];
     oc_Timestamp := 0 |}.

Record ResolutionOutcome := {
  ro_Allowed : bool;
  ro_Action : string;
  ro_Reason : string;
  ro_Owner : string;
}.

Definition LineageEventResolve : string := "resolve".
Definition LineageEventClaim : string := "claim".

Record LineageEvent := {
  le_ID : string;
  le_ParentID : string;
  le_ScopeID : string;
  le_ResourceID : string;
  le_DomainID : string;
  le_EventType : string;
  le_Decision : string;
  le_RequiredRight : string;
  le_OwnerDomain : string;
  le_Epoch : Z;
  le_FencingToken : Z;
  le_Reason : string;
  le_DecisionHash : string;
  le_CreatedAt : Z;
}.

(** ** Lineage ([lineage.go]) *)
Definition BuildDecisionHash (eventType scopeID resourceID domainID decision reason requiredRight owner : string)
    (epoch : Z) : string :=
  Sha256.hex_digest (str_join "|" [eventType; scopeID; resourceID; domainID; decision; reason;
                                   requiredRight; owner; GoFmt.fmt_d epoch]).

Definition NewLineageEventID (scopeID resourceID : string) (createdAt : Z) : string :=
  String.substring 0 32
    (Sha256.hex_digest (str_join "|" [scopeID; resourceID; GoFmt.fmt_d (unix_nano createdAt)])).

Definition claimKey (scopeID resourceID : string) : string := scopeID +:+ "|" +:+ resourceID.

Definition lineage_lt (a b : LineageEvent) : bool :=
  if le_CreatedAt a =? le_CreatedAt b then str_lt (le_ID a) (le_ID b)
  else t_before (le_CreatedAt a) (le_CreatedAt b).

Definition rebuilt_claim (e : LineageEvent) : OwnershipClaim :=
  {| oc_ScopeID := le_ScopeID e; oc_ResourceID := le_ResourceID e; oc_DomainID := le_DomainID e;
     oc_Epoch := le_Epoch e; oc_Rights := []; oc_Timestamp := le_CreatedAt e |}.

Definition rebuild_step (out : gmap string OwnershipClaim) (e : LineageEvent) : gmap string OwnershipClaim :=
  if negb (bool_decide (le_EventType e = LineageEventClaim)) then out
  else <[claimKey (le_ScopeID e) (le_ResourceID e) := rebuilt_claim e]> out.

Definition RebuildClaimsFromLineage (events : list LineageEvent) : gmap string OwnershipClaim :=
  foldl rebuild_step ∅ (isort lineage_lt events).

Record LineageExplanation := { lx_Event : LineageEvent; lx_HumanReason : string }.

Definition ExplainLineageEvent (e : LineageEvent) : LineageExplanation :=
  {| lx_Event := e;
     lx_HumanReason :=
       if bool_decide (le_EventType e = LineageEventClaim) then "ownership claim asserted"
       else if bool_decide (le_EventType e = LineageEventResolve) then
         if bool_decide (le_Decision e = "allow") || bool_decide (le_Decision e = "override")
         then "ownership resolution granted mutation rights"
         else "ownership resolution denied or restricted mutation rights"
       else "ownership lineage event recorded" |}.

(** ** Interfaces *)
Class ClaimStore (S : Type) := {
  cs_get : string -> S -> result OwnershipClaim;
  cs_set : Z -> OwnershipClaim -> S -> S * result unit;
  cs_list : S -> result (list OwnershipClaim);
}.

Class LineageRecorder (R : Type) := lr_append : Z -> LineageEvent -> R -> R * result unit.

(** ** The resolver ([resolver.go]) *)
Section resolver.
Context {S R : Type} `{!ClaimStore S} `{!LineageRecorder R}.

Record Resolver := {
  domains : gmap string OwnershipDomain;
  claims : gmap string OwnershipClaim;   (** by resource *)
  lineage : option R;
  store : option S;
}.

Definition NewResolver : Resolver := {| domains := ∅; claims := ∅; lineage := None; store := None |}.

Definition RegisterDomain (d : OwnershipDomain) (r : Resolver) : Resolver :=
  {| domains := <[d_ID d := d]> (domains r); claims := claims r; lineage := lineage r; store := store r |}.
Definition SetLineageRecorder (l : R) (r : Resolver) : Resolver :=
  {| domains := domains r; claims := claims r; lineage := Some l; store := store r |}.
Definition SetClaimStore (s : S) (r : Resolver) : Resolver :=
  {| domains := domains r; claims := claims r; lineage := lineage r; store := Some s |}.

Definition set_claims (c : gmap string OwnershipClaim) (r : Resolver) : Resolver :=
  {| domains := domains r; claims := c; lineage := lineage r; store := store r |}.
Definition set_store (s : option S) (r : Resolver) : Resolver :=
  {| domains := domains r; claims := claims r; lineage := lineage r; store := s |}.

Definition append_lineage (now : Z) (e : LineageEvent) (r : Resolver) : Resolver :=
  {| domains := domains r; claims := claims r; store := store r;
     lineage := match lineage r with Some l => Some (lr_append now e l).1 | None => None end |}.

Definition hasCapability (d : OwnershipDomain) (right : string) : bool :=
  existsb (fun cap => bool_decide (cap = right)) (d_Capabilities d).

(** The claim in force: with a store, what the store says, copied in memory. *)
Definition getClaim (resourceID : string) (r : Resolver) : Resolver * result (option OwnershipClaim) :=
  match store r with
  | Some s =>
      match cs_get resourceID s with
      | Err m => (r, Err m)
      | Ok c => if bool_decide (oc_ResourceID c = "") then (r, Ok None)
                else (set_claims (<[resourceID := c]> (claims r)) r, Ok (Some c))
      end
  | None => (r, Ok (claims r !! resourceID))
  end.

Definition op_resolve : string := "runtime.ownership.Resolve".

(** The decision, from the domains and the claim in force; with it, the owner
    and the epoch that are recorded. *)
Definition adjudicate (doms : gmap string OwnershipDomain) (req : OwnershipDomain) (resourceID requiredRight : string)
    (claim : option OwnershipClaim) : ResolutionOutcome * string * Z :=
  match claim with
  | None =>
      if hasCapability req requiredRight
      then ({| ro_Allowed := true; ro_Action := "allow"; ro_Reason := ""; ro_Owner := "" |}, "", 0)
      else ({| ro_Allowed := false; ro_Action := "deny"; ro_Reason := "domain lacks capability";
               ro_Owner := "" |}, "", 0)
  | Some c =>
      let owner := default zero_domain (doms !! oc_DomainID c) in
      let out (allowed : bool) (action reason : string) :=
        ({| ro_Allowed := allowed; ro_Action := action; ro_Reason := reason; ro_Owner := d_ID owner |},
         d_ID owner, oc_Epoch c) in
      if d_Trust owner =? TrustImmutable then
        out false "readonly" ("resource " +:+ resourceID +:+ " is immutable (owned by " +:+ d_ID owner +:+ ")")
      else if (d_Priority owner <? d_Priority req) && hasCapability req RightOverride then
        out true "override" ""
      else if d_Priority req <? d_Priority owner then
        out false "deny" ("resource " +:+ resourceID +:+ " is owned by higher priority domain: " +:+ d_ID owner)
      else if hasCapability req requiredRight then out true "allow" ""
      else out false "deny" "insufficient rights"
  end.

Definition resolve_event (now : Z) (domainID resourceID requiredRight owner : string) (epoch : Z)
    (out : ResolutionOutcome) : LineageEvent :=
  {| le_ID := NewLineageEventID "global" resourceID now; le_ParentID := ""; le_ScopeID := "global";
     le_ResourceID := resourceID; le_DomainID := domainID; le_EventType := LineageEventResolve;
     le_Decision := ro_Action out; le_RequiredRight := requiredRight; le_OwnerDomain := owner;
     le_Epoch := epoch; le_FencingToken := 0; le_Reason := ro_Reason out;
     le_DecisionHash := BuildDecisionHash LineageEventResolve "global" resourceID domainID (ro_Action out)
                          (ro_Reason out) requiredRight owner epoch;
     le_CreatedAt := now |}.

Definition Resolve (now : Z) (requestingDomainID resourceID requiredRight : string) (r : Resolver)
  : Resolver * result ResolutionOutcome :=
  match domains r !! requestingDomainID with
  | None => (r, Err (wrap_msg op_resolve ("unrecognized domain: " +:+ requestingDomainID)))
  | Some req =>
      let '(r, c) := getClaim resourceID r in
      match c with
      | Err m => (r, Err (wrap_msg op_resolve m))
      | Ok claim =>
          let '(out, owner, epoch) := adjudicate (domains r) req resourceID requiredRight claim in
          (append_lineage now (resolve_event now requestingDomainID resourceID requiredRight owner epoch out) r,
           Ok out)
      end
  end.

Definition claim_event (now : Z) (c : OwnershipClaim) : LineageEvent :=
  {| le_ID := NewLineageEventID (oc_ScopeID c) (oc_ResourceID c) now; le_ParentID := "";
     le_ScopeID := oc_ScopeID c; le_ResourceID := oc_ResourceID c; le_DomainID := oc_DomainID c;
     le_EventType := LineageEventClaim; le_Decision := "claim_set"; le_RequiredRight := "";
     le_OwnerDomain := ""; le_Epoch := oc_Epoch c; le_FencingToken := 0; le_Reason := "";
     le_DecisionHash := BuildDecisionHash LineageEventClaim (oc_ScopeID c) (oc_ResourceID c) (oc_DomainID c)
                          "claim_set" "" "" "" (oc_Epoch c);
     le_CreatedAt := now |}.

Definition Claim (now : Z) (c : OwnershipClaim) (r : Resolver) : Resolver * result unit :=
  let '(st, res) := match store r with
                    | Some s => let '(s, res) := cs_set now c s in (Some s, res)
                    | None => (None, Ok tt)
                    end in
  let r := set_store st r in
  match res with
  | Err m => (r, Err m)
  | Ok _ => (append_lineage now (claim_event now c) (set_claims (<[oc_ResourceID c := c]> (claims r)) r), Ok tt)
  end.

(** The order in which Go ranges over the claims is not specified; the model
    lists them in the order of the map. *)
Definition ListClaims (r : Resolver) : Resolver * list OwnershipClaim :=
  let mem := (map_to_list (claims r)).*2 in
  match store r with
  | Some s =>
      match cs_list s with
      | Ok l => (set_claims (foldl (fun m c => <[oc_ResourceID c := c]> m) ∅ l) r, l)
      | Err _ => (r, mem)
      end
  | None => (r, mem)
  end.

(** ** Decisions *)

Definition right_of (d : OwnershipDomain) (right : string) : Prop := right ∈ d_Capabilities d.

Lemma hasCapability_spec d right : hasCapability d right = true <-> right_of d right.
Proof.
  unfold hasCapability, right_of. rewrite existsb_exists. setoid_rewrite bool_decide_eq_true.
  setoid_rewrite <- list_elem_of_In. naive_solver.
Qed.

(** The rule the resolver implements: without a claim, the capability; with
    one, the owner must not be immutable nor of a higher priority, and the
    requester needs the capability or, over a lower priority, the override. *)
Definition may_mutate (doms : gmap string OwnershipDomain) (req : OwnershipDomain) (right : string)
    (claim : option OwnershipClaim) : Prop :=
  match claim with
  | None => right_of req right
  | Some c =>
      let owner := default zero_domain (doms !! oc_DomainID c) in
      d_Trust owner <> TrustImmutable /\ d_Priority owner <= d_Priority req /\
      (right_of req right \/ (d_Priority owner < d_Priority req /\ right_of req RightOverride))
  end.

Lemma adjudicate_spec doms req res right claim :
  ro_Allowed (adjudicate doms req res right claim).1.1 = true <-> may_mutate doms req right claim.
Proof.
  destruct claim as [c|]; cbn.
  - rewrite <- !hasCapability_spec. generalize (default zero_domain (doms !! oc_DomainID c)) as ow. intros ow.
    destruct (Z.eqb_spec (d_Trust ow) TrustImmutable); [naive_solver|].
    destruct (Z.ltb_spec (d_Priority ow) (d_Priority req)), (Z.ltb_spec (d_Priority req) (d_Priority ow)),
      (hasCapability req RightOverride), (hasCapability req right); cbn;
      (split; [intros H'; first [discriminate H'|(split; [done|split; [lia|auto]])]
             |intros (_ & ? & [?|[? ?]]); try done; lia]).
  - rewrite <- hasCapability_spec. by destruct (hasCapability req right).
Qed.

(** The claim in force, seen from outside. *)
Definition claim_in_force (resourceID : string) (r : Resolver) : result (option OwnershipClaim) :=
  (getClaim resourceID r).2.

Lemma getClaim_frame res r r' c : getClaim res r = (r', c) ->
  domains r' = domains r /\ store r' = store r /\ lineage r' = lineage r /\ claim_in_force res r' = c.
Proof.
  unfold claim_in_force, getClaim. destruct (store r) as [s|] eqn:Hs; [|by intros [= <- <-]; rewrite Hs].
  destruct (cs_get res s) as [cl|m] eqn:Hg; [case_bool_decide as Hz|]; intros [= <- <-]; cbn;
    by rewrite Hs, Hg, ?bool_decide_true, ?bool_decide_false by done.
Qed.

End resolver.

Arguments Resolver : clear implicits.

Lemma Resolve_outcome {S R} `{!ClaimStore S} `{!LineageRecorder R} now dom res right (r : Resolver S R) :
  let '(r', o) := Resolve now dom res right r in
  store r' = store r /\ domains r' = domains r /\ claim_in_force res r' = claim_in_force res r /\
  match o with
  | Err _ => lineage r' = lineage r /\
             (domains r !! dom = None \/ exists m, claim_in_force res r = Err m)
  | Ok out => exists req claim, domains r !! dom = Some req /\ claim_in_force res r = Ok claim /\
      (ro_Allowed out = true <-> may_mutate (domains r) req right claim) /\
      (forall l, lineage r = Some l -> exists e, lineage r' = Some (lr_append now e l).1 /\
         le_EventType e = LineageEventResolve /\ le_ResourceID e = res /\ le_DomainID e = dom /\
         le_Decision e = ro_Action out /\ le_Reason e = ro_Reason out)
  end.
Proof.
  unfold Resolve. destruct (domains r !! dom) as [req|] eqn:Hd; [|naive_solver].
  destruct (getClaim res r) as [r1 c] eqn:Hg. pose proof (getClaim_frame _ _ _ _ Hg) as (Hdo & Hst & Hli & Hcf).
  assert (claim_in_force res r = c) as Hc by (unfold claim_in_force; by rewrite Hg).
  destruct c as [claim|m]; [|rewrite Hc; naive_solver].
  destruct (adjudicate _ req res right claim) as [[out ow] ep] eqn:Ha.
  split; [done|]. split; [done|]. split.
  { rewrite Hc, <- Hcf. unfold claim_in_force, getClaim. cbn. repeat case_match; done. }
  exists req, claim. split; [done|]. split; [done|]. split.
  - rewrite <- Hdo, <- (adjudicate_spec _ _ res), Ha. done.
  - intros l Hl. exists (resolve_event now dom res right ow ep out). cbn. by rewrite Hli, Hl.
Qed.

(** A resolution changes nothing that another reads. *)
Lemma Resolve_frame {S R} `{!ClaimStore S} `{!LineageRecorder R} now dom res right (r : Resolver S R) :
  let r' := (Resolve now dom res right r).1 in
  domains r' = domains r /\ store r' = store r /\ forall x, claim_in_force x r' = claim_in_force x r.
Proof.
  unfold Resolve. destruct (domains r !! dom) as [req|]; [|done].
  destruct (getClaim res r) as [r1 c] eqn:Hg. pose proof (getClaim_frame _ _ _ _ Hg) as (Hd & Hs & _ & _).
  assert (forall x, claim_in_force x r1 = claim_in_force x r) as Hcf.
  { intros x. revert Hg. unfold claim_in_force, getClaim. rewrite Hs.
    destruct (store r) as [s|] eqn:Hst; [intros _; by repeat case_match|by intros [= <- _]]. }
  destruct c as [claim|m]; [|done]. destruct (adjudicate _ req res right claim) as [[out ow] ep].
  cbn. split; [done|]. split; [done|]. intros x. rewrite <- Hcf. unfold claim_in_force, getClaim. cbn.
  by repeat case_match.
Qed.

(** A mutation of a resource is granted to a registered domain exactly by the
    rule [may_mutate], applied to the claim in force at that moment; the store
    is not changed, and the outcome is what the lineage records.  An owner
    whose trust is immutable is never overridden. *)
Theorem Resolve_spec {S R} `{!ClaimStore S} `{!LineageRecorder R} now dom res right (r : Resolver S R) :
  let '(r', o) := Resolve now dom res right r in
  store r' = store r /\ domains r' = domains r /\ claim_in_force res r' = claim_in_force res r /\
  match o with
  | Err _ => lineage r' = lineage r /\
             (domains r !! dom = None \/ exists m, claim_in_force res r = Err m)
  | Ok out => exists req claim, domains r !! dom = Some req /\ claim_in_force res r = Ok claim /\
      (ro_Allowed out = true <-> may_mutate (domains r) req right claim) /\
      (forall l, lineage r = Some l -> exists e, lineage r' = Some (lr_append now e l).1 /\
         le_EventType e = LineageEventResolve /\ le_ResourceID e = res /\ le_DomainID e = dom /\
         le_Decision e = ro_Action out /\ le_Reason e = ro_Reason out)
  end.
Proof. apply Resolve_outcome. Qed.

End Ownership.

(** ** The tables ([storage/sqlite/ownership.go]) *)
Module OwnershipTables.
Import Ownership.

Record claim_row := { cr_domain_id : string; cr_rights : string; cr_epoch : Z; cr_timestamp : Z }.

(** [ownership_claims], by its primary key. *)
Record ClaimTable := { ct_readOnly : bool; ct_rows : gmap string claim_row }.

Definition row_claim (resourceID : string) (x : claim_row) : OwnershipClaim :=
  {| oc_ScopeID := ""; oc_ResourceID := resourceID; oc_DomainID := cr_domain_id x; oc_Epoch := cr_epoch x;
     oc_Rights := str_split "," (cr_rights x); oc_Timestamp := cr_timestamp x |}.

Definition ct_get (resourceID : string) (t : ClaimTable) : result OwnershipClaim :=
  Ok (match ct_rows t !! resourceID with Some x => row_claim resourceID x | None => zero_claim end).

Definition ct_set (now : Z) (c : OwnershipClaim) (t : ClaimTable) : ClaimTable * result unit :=
  match ensureWritable "storage.sqlite.OwnershipRepository.SetClaim" (ct_readOnly t) with
  | Err m => (t, Err m)
  | Ok _ =>
      ({| ct_readOnly := ct_readOnly t;
          ct_rows := <[oc_ResourceID c := {| cr_domain_id := oc_DomainID c;
                        cr_rights := str_join "," (oc_Rights c); cr_epoch := oc_Epoch c;
                        cr_timestamp := sql_now now |}]> (ct_rows t) |}, Ok tt)
  end.

Definition ct_list (t : ClaimTable) : result (list OwnershipClaim) :=
  Ok ((fun p => row_claim p.1 p.2) <$> map_to_list (ct_rows t)).

#[global] Instance claim_table : ClaimStore ClaimTable :=
  {| cs_get := ct_get; cs_set := ct_set; cs_list := ct_list |}.

(** [ownership_lineage]; the JSON payload of a row is the event itself.
    [lt_fails] says of the insertions to come which ones fail; those after them
    succeed. *)
Record LineageTable := { lt_readOnly : bool; lt_fails : list bool; lt_rows : list LineageEvent }.

Definition stamp (now : Z) (e : LineageEvent) : LineageEvent :=
  if is_zero_time (le_CreatedAt e) then
    {| le_ID := le_ID e; le_ParentID := le_ParentID e; le_ScopeID := le_ScopeID e;
       le_ResourceID := le_ResourceID e; le_DomainID := le_DomainID e; le_EventType := le_EventType e;
       le_Decision := le_Decision e; le_RequiredRight := le_RequiredRight e;
       le_OwnerDomain := le_OwnerDomain e; le_Epoch := le_Epoch e; le_FencingToken := le_FencingToken e;
       le_Reason := le_Reason e; le_DecisionHash := le_DecisionHash e; le_CreatedAt := now |}
  else e.

Definition AppendLineage (now : Z) (e : LineageEvent) (t : LineageTable) : LineageTable * result unit :=
  let op := "storage.sqlite.OwnershipRepository.AppendLineage" in
  match ensureWritable op (lt_readOnly t) with
  | Err m => (t, Err m)
  | Ok _ =>
      let e := stamp now e in
      let after rows := {| lt_readOnly := lt_readOnly t; lt_fails := tail (lt_fails t); lt_rows := rows |} in
      if default false (head (lt_fails t)) then (after (lt_rows t), Err (wrap_msg op "insert failed"))
      else if existsb (fun x => bool_decide (le_ID x = le_ID e)) (lt_rows t)
      then (after (lt_rows t), Err (wrap_msg op "UNIQUE constraint failed: ownership_lineage.id"))
      else (after (lt_rows t ++ [e]), Ok tt)
  end.

#[global] Instance lineage_table : LineageRecorder LineageTable := AppendLineage.

Definition GetLineage (eventID : string) (t : LineageTable) : option LineageEvent :=
  List.find (fun e => bool_decide (le_ID e = eventID)) (lt_rows t).

(** Rows before the cursor, newest first. *)
Definition ListLineageCursor (scopeID resourceID : string) (beforeCreatedAt : Z) (beforeID : string) (limit : Z)
    (t : LineageTable) : list LineageEvent :=
  let limit := if limit <=? 0 then 100 else limit in
  let sel e :=
    (bool_decide (scopeID = "") || bool_decide (le_ScopeID e = scopeID)) &&
    (bool_decide (resourceID = "") || bool_decide (le_ResourceID e = resourceID)) &&
    (is_zero_time beforeCreatedAt || t_before (le_CreatedAt e) beforeCreatedAt ||
     ((le_CreatedAt e =? beforeCreatedAt) && str_lt (le_ID e) beforeID)) in
  take (Z.to_nat limit) (isort (fun a b => lineage_lt b a) (List.filter sel (lt_rows t))).

Definition ListLineage (scopeID resourceID : string) (limit : Z) (t : LineageTable) : list LineageEvent :=
  ListLineageCursor scopeID resourceID 0 "" limit t.

(** [LineageQueryService.Search]: its own default limit. *)
Definition Search (scopeID resourceID : string) (beforeCreatedAt : Z) (beforeID : string) (limit : Z)
    (t : LineageTable) : list LineageEvent :=
  ListLineageCursor scopeID resourceID beforeCreatedAt beforeID (if limit <=? 0 then 20 else limit) t.

(** ** Paging through the lineage *)

Lemma lineage_lt_trans a b c : lineage_lt a b = true -> lineage_lt b c = true -> lineage_lt a c = true.
Proof.
  unfold lineage_lt, t_before.
  destruct (Z.eqb_spec (le_CreatedAt a) (le_CreatedAt b)), (Z.eqb_spec (le_CreatedAt b) (le_CreatedAt c)),
    (Z.eqb_spec (le_CreatedAt a) (le_CreatedAt c)); rewrite ?Z.ltb_lt; try lia; try by eauto using str_lt_trans.
Qed.

Lemma lineage_lt_total a b : le_ID a <> le_ID b -> lineage_lt a b = false -> lineage_lt b a = true.
Proof.
  intros Hne. unfold lineage_lt, t_before. rewrite (Z.eqb_sym (le_CreatedAt b)).
  destruct (Z.eqb_spec (le_CreatedAt a) (le_CreatedAt b)); rewrite ?Z.ltb_ge, ?Z.ltb_lt; [|lia].
  intros Hab. destruct (str_lt (le_ID b) (le_ID a)) eqn:Hba; [done|]. by destruct Hne; apply str_lt_total.
Qed.

Definition newer (a b : LineageEvent) : bool := lineage_lt b a.

Lemma lineage_lt_irrefl a : lineage_lt a a = false.
Proof. unfold lineage_lt. by rewrite Z.eqb_refl, str_lt_irrefl. Qed.

(** What a query selects, without its cursor. *)
Definition selects (scopeID resourceID : string) (e : LineageEvent) : bool :=
  (bool_decide (scopeID = "") || bool_decide (le_ScopeID e = scopeID)) &&
  (bool_decide (resourceID = "") || bool_decide (le_ResourceID e = resourceID)).

Definition listing (scopeID resourceID : string) (t : LineageTable) : list LineageEvent :=
  isort newer (List.filter (selects scopeID resourceID) (lt_rows t)).

Lemma newest_first l : NoDup (le_ID <$> l) ->
  StronglySorted (fun a b => lineage_lt b a = true) (isort newer l).
Proof.
  intros Hnd. assert (NoDup (le_ID <$> isort newer l)) as Hnd' by by rewrite (isort_perm newer l).
  assert (StronglySorted (fun a b => lineage_lt a b = false) (isort newer l)) as Hs.
  { apply (isort_sorted newer (fun a b => lineage_lt a b = false)); unfold newer.
    - intros a b Hab. destruct (lineage_lt b a) eqn:Hba; [|done].
      pose proof (lineage_lt_trans _ _ _ Hab Hba) as Hf. by rewrite lineage_lt_irrefl in Hf.
    - done.
    - intros a b c. unfold lineage_lt, t_before.
      destruct (Z.eqb_spec (le_CreatedAt a) (le_CreatedAt b)), (Z.eqb_spec (le_CreatedAt b) (le_CreatedAt c)),
        (Z.eqb_spec (le_CreatedAt a) (le_CreatedAt c)); rewrite ?Z.ltb_ge; try lia.
      intros Hab Hbc. by eapply str_le_trans. }
  revert Hs Hnd'. generalize (isort newer l). intros l' Hs Hnd'. induction Hs as [|x l' Hs IH Hx]; [constructor|].
  rewrite fmap_cons, NoDup_cons in Hnd'. destruct Hnd' as [Hni Hnd']. constructor; [auto|].
  rewrite Forall_forall in *. intros y Hy. apply lineage_lt_total; [|by apply Hx].
  intros He. apply Hni. rewrite He. by apply list_elem_of_fmap_2.
Qed.

(** Reading page after page, the last event of a page being the cursor of the
    next. *)
Fixpoint pages (n : nat) (scopeID resourceID : string) (limit at_ : Z) (id : string) (t : LineageTable)
  : list LineageEvent :=
  match n with
  | O => []
  | S n =>
      let page := ListLineageCursor scopeID resourceID at_ id limit t in
      match last page with
      | None => []
      | Some e => page ++ pages n scopeID resourceID limit (le_CreatedAt e) (le_ID e) t
      end
  end.

#[local] Instance newer_trans : Transitive (fun a b => lineage_lt b a = true).
Proof. intros a b c Hab Hbc. eauto using lineage_lt_trans. Qed.
#[local] Instance newer_antisym : AntiSymm (=) (fun a b => lineage_lt b a = true).
Proof.
  intros a b Hab Hba. pose proof (lineage_lt_trans _ _ _ Hab Hba) as Hf. by rewrite lineage_lt_irrefl in Hf.
Qed.

(** A page is the beginning of what the listing holds after the cursor. *)
Lemma page_after sc res limit e t :
  NoDup (le_ID <$> lt_rows t) -> le_CreatedAt e <> 0 ->
  ListLineageCursor sc res (le_CreatedAt e) (le_ID e) limit t =
  take (Z.to_nat (if limit <=? 0 then 100 else limit))
    (List.filter (fun x => lineage_lt x e) (listing sc res t)).
Proof.
  intros Hnd He. unfold ListLineageCursor, is_zero_time. rewrite (proj2 (Z.eqb_neq _ _) He). f_equal.
  apply (StronglySorted_unique (fun a b => lineage_lt b a = true)).
  - apply newest_first. by apply NoDup_fmap_filter.
  - apply StronglySorted_lfilter, newest_first. by apply NoDup_fmap_filter.
  - change (fun a b => lineage_lt b a) with newer. unfold listing.
    rewrite (isort_perm newer), (lfilter_perm _ _ _ (isort_perm newer _)), lfilter_lfilter.
    apply reflexive_eq. apply List.filter_ext. intros x. unfold selects, lineage_lt, t_before.
    destruct (Z.eqb_spec (le_CreatedAt x) (le_CreatedAt e)) as [->|]; rewrite ?Z.ltb_irrefl; cbn;
      rewrite ?andb_false_l, ?orb_false_r; apply andb_comm.
Qed.

Lemma filter_after l1 e l2 :
  StronglySorted (fun a b => lineage_lt b a = true) (l1 ++ e :: l2) ->
  List.filter (fun x => lineage_lt x e) (l1 ++ e :: l2) = l2.
Proof.
  intros Hs. assert (Forall (fun x => lineage_lt x e = false) (l1 ++ [e])) as Hf.
  { apply Forall_app. split; [|by repeat constructor; apply lineage_lt_irrefl].
    apply Forall_forall. intros x Hx. destruct (lineage_lt x e) eqn:Hxe; [|done].
    assert (lineage_lt e x = true) as Hex.
    { apply (StronglySorted_app_1_elem_of (fun a b => lineage_lt b a = true) _ _ _ _ Hs Hx). constructor. }
    pose proof (lineage_lt_trans _ _ _ Hxe Hex) as Hc. by rewrite lineage_lt_irrefl in Hc. }
  assert (Forall (fun x => lineage_lt x e = true) l2) as Ht.
  { apply StronglySorted_app_1_r in Hs. by inversion Hs. }
  rewrite cons_middle, app_assoc, List.filter_app.
  rewrite Forall_forall in Hf, Ht. by rewrite (filter_none _ _ Hf), (filter_all _ _ Ht).
Qed.

Lemma pages_listing n sc res limit at_ id t l1 l2 :
  1 <= limit -> NoDup (le_ID <$> lt_rows t) -> Forall (fun e => le_CreatedAt e <> 0) (lt_rows t) ->
  listing sc res t = l1 ++ l2 -> (length l2 <= n)%nat ->
  ListLineageCursor sc res at_ id limit t = take (Z.to_nat limit) l2 ->
  pages (S n) sc res limit at_ id t = l2.
Proof.
  intros Hlim Hnd Hnz. revert at_ id l1 l2. induction n as [|n IH]; intros at_ id l1 l2 Hl Hn Hp.
  { destruct l2; [|cbn in Hn; lia]. cbn [pages]. by rewrite Hp, take_nil. }
  change (pages (S (S n)) sc res limit at_ id t) with
    (let page := ListLineageCursor sc res at_ id limit t in
     match last page with None => [] | Some e => page ++ pages (S n) sc res limit (le_CreatedAt e) (le_ID e) t end).
  rewrite Hp. cbv zeta. destruct (last (take (Z.to_nat limit) l2)) as [e|] eqn:He.
  - apply last_Some in He as [p He]. pose proof (take_drop (Z.to_nat limit) l2) as Htd. rewrite He in Htd |- *.
    set (rest := drop (Z.to_nat limit) l2) in *. rewrite <- Htd. f_equal.
    assert (listing sc res t = (l1 ++ p ++ [e]) ++ rest) as Hl' by (rewrite Hl, <- Htd, !app_assoc; done).
    apply (IH _ _ (l1 ++ p ++ [e])); [done| |].
    + apply (f_equal length) in Htd. rewrite !length_app in Htd. cbn in Htd. lia.
    + assert (le_CreatedAt e <> 0).
      { rewrite Forall_forall in Hnz. apply Hnz. assert (e ∈ listing sc res t) as Hin by (rewrite Hl'; set_solver).
        apply elem_of_isort, elem_of_lfilter in Hin. tauto. }
      rewrite page_after by done. assert ((limit <=? 0) = false) as -> by lia. f_equal.
      assert (StronglySorted (fun a b => lineage_lt b a = true) (listing sc res t)) as Hs
        by (apply newest_first; by apply NoDup_fmap_filter).
      rewrite Hl' in Hs |- *. rewrite <- !app_assoc in Hs |- *. cbn in Hs |- *.
      rewrite app_assoc in Hs |- *. by apply filter_after.
  - apply last_None in He. destruct l2; [done|]. destruct (Z.to_nat limit) eqn:Hz; [lia|done].
Qed.

(** Reading the lineage of a scope and a resource page by page, with any page
    size, gives every selected event exactly once, newest first, and stops; one
    page more than there are rows is enough. *)
Theorem paging_complete n sc res limit t :
  1 <= limit -> NoDup (le_ID <$> lt_rows t) -> Forall (fun e => le_CreatedAt e <> 0) (lt_rows t) ->
  (length (lt_rows t) <= n)%nat ->
  pages (S n) sc res limit 0 "" t = listing sc res t.
Proof.
  intros Hlim Hnd Hnz Hn. apply (pages_listing n sc res limit 0 "" t []); try done.
  - unfold listing. rewrite isort_length. etransitivity; [apply List.filter_length_le|done].
  - unfold ListLineageCursor, is_zero_time. rewrite Z.eqb_refl. assert ((limit <=? 0) = false) as -> by lia.
    f_equal. unfold listing, newer. f_equal. apply List.filter_ext. intros e. unfold selects. by rewrite !andb_true_r.
Qed.

(** ** Memory, claims and lineage agree *)
Definition Res : Type := Resolver ClaimTable LineageTable.

Inductive call :=
| CallClaim (at_ : Z) (c : OwnershipClaim)
| CallResolve (at_ : Z) (dom res right : string).

Definition call_time (c : call) : Z := match c with CallClaim t _ | CallResolve t _ _ _ => t end.
Definition call_id (c : call) : string :=
  match c with
  | CallClaim t c => NewLineageEventID (oc_ScopeID c) (oc_ResourceID c) t
  | CallResolve t _ res _ => NewLineageEventID "global" res t
  end.
Definition do_call (r : Res) (c : call) : Res :=
  match c with
  | CallClaim t c => (Claim t c r).1
  | CallResolve t dom res rt => (Resolve t dom res rt r).1
  end.

Definition start_resolver (doms : gmap string OwnershipDomain) (fails : list bool) : Res :=
  {| domains := doms; claims := ∅; lineage := Some {| lt_readOnly := false; lt_fails := fails; lt_rows := [] |};
     store := Some {| ct_readOnly := false; ct_rows := ∅ |} |}.

Definition holder (c : OwnershipClaim) : string * Z := (oc_DomainID c, oc_Epoch c).
Definition row_holder (x : claim_row) : string * Z := (cr_domain_id x, cr_epoch x).

Definition rows_of (r : Res) : list LineageEvent :=
  match lineage r with Some l => lt_rows l | None => [] end.
Definition claims_of (r : Res) : gmap string claim_row :=
  match store r with Some s => ct_rows s | None => ∅ end.

(** The claim that a call makes in [scope] is about a named resource. *)
Definition claim_in (scope : string) (c : call) : Prop :=
  match c with CallClaim _ c => oc_ScopeID c = scope /\ oc_ResourceID c <> "" | _ => True end.

(** Whether the line of a call is in the lineage. *)
Definition kept (rows : list LineageEvent) (c : call) : bool := bool_decide (call_id c ∈ le_ID <$> rows).

(** Who made the last claim of a resource, among the calls for which [ok]
    holds, and in which epoch. *)
Definition last_claim (ok : call -> bool) (res : string) (calls : list call) : option (string * Z) :=
  foldl (fun h c => match c with
                    | CallClaim _ cl => if bool_decide (oc_ResourceID cl = res) && ok c then Some (holder cl) else h
                    | CallResolve _ _ _ _ => h
                    end) None calls.

Lemma last_claim_ext ok ok' res calls : (forall c, c ∈ calls -> ok c = ok' c) -> last_claim ok res calls = last_claim ok' res calls.
Proof.
  unfold last_claim. generalize (@None (string * Z)). induction calls as [|c calls IH]; intros h H; [done|]. cbn [foldl].
  rewrite IH by (intros; apply H; by right). destruct c as [t cl|]; [|done]. rewrite (H (CallClaim t cl)) by by left. done.
Qed.

Lemma last_claim_snoc ok res calls c : last_claim ok res (calls ++ [c]) =
  match c with
  | CallClaim _ cl => if bool_decide (oc_ResourceID cl = res) && ok c then Some (holder cl) else last_claim ok res calls
  | CallResolve _ _ _ _ => last_claim ok res calls
  end.
Proof. unfold last_claim. rewrite foldl_app. by destruct c. Qed.

Record agree (scope : string) (fails : list bool) (past : list call) (r : Res) : Prop := {
  ag_store : exists m, store r = Some {| ct_readOnly := false; ct_rows := m |};
  ag_lineage : exists fs l, lineage r = Some {| lt_readOnly := false; lt_fails := fs; lt_rows := l |} /\
    (fails = [] -> fs = [] /\ forall t cl, CallClaim t cl ∈ past -> kept l (CallClaim t cl) = true);
  ag_ids : forall e, e ∈ rows_of r -> le_ID e ∈ call_id <$> past;
  ag_times : forall e, e ∈ rows_of r -> exists c, c ∈ past /\ le_CreatedAt e = call_time c;
  ag_sorted : StronglySorted (fun x y => lineage_lt y x = false) (rows_of r);
  ag_memory : forall res, res <> "" -> holder <$> claims r !! res = row_holder <$> claims_of r !! res;
  ag_held : forall res, res <> "" -> row_holder <$> claims_of r !! res = last_claim (fun _ => true) res past;
  ag_rebuilt : forall res, res <> "" ->
    holder <$> RebuildClaimsFromLineage (rows_of r) !! claimKey scope res = last_claim (kept (rows_of r)) res past;
}.

Lemma claimKey_inj scope a b : claimKey scope a = claimKey scope b -> a = b.
Proof.
  unfold claimKey. intros H%str_app_inv. by apply (str_app_inv "|") in H.
Qed.

Lemma stamp_id now e : le_CreatedAt e = now -> stamp now e = e.
Proof. intros <-. unfold stamp. destruct e. by case_match. Qed.

(** An event later than all others goes to the end of the rebuilding. *)
Lemma rebuild_snoc l e : StronglySorted (fun x y => lineage_lt y x = false) (l ++ [e]) ->
  RebuildClaimsFromLineage (l ++ [e]) = rebuild_step (RebuildClaimsFromLineage l) e.
Proof.
  intros Hs. unfold RebuildClaimsFromLineage. rewrite (isort_id lineage_lt _ Hs).
  apply StronglySorted_app_1_l in Hs. rewrite (isort_id lineage_lt _ Hs). by rewrite foldl_app.
Qed.

(** A call later than all others, with an identifier of its own. *)
Definition next_call (past : list call) (c : call) : Prop :=
  (forall c', c' ∈ past -> call_time c' < call_time c) /\ call_id c ∉ call_id <$> past.

(** The line of lineage of the next call, unless its insertion fails. *)
Lemma append_at scope fails past r c e r1 : agree scope fails past r -> next_call past c ->
  le_ID e = call_id c -> le_CreatedAt e = call_time c -> lineage r1 = lineage r ->
  let r' := append_lineage (call_time c) e r1 in
  (exists fs l, lineage r' = Some {| lt_readOnly := false; lt_fails := fs; lt_rows := l |} /\
     (fails = [] -> fs = [] /\ (forall t cl, CallClaim t cl ∈ past ++ [c] -> kept l (CallClaim t cl) = true))) /\
  (forall x, x ∈ rows_of r' -> le_ID x ∈ call_id <$> (past ++ [c])) /\
  (forall x, x ∈ rows_of r' -> exists c', c' ∈ past ++ [c] /\ le_CreatedAt x = call_time c') /\
  StronglySorted (fun x y => lineage_lt y x = false) (rows_of r') /\
  (forall c', c' ∈ past -> kept (rows_of r') c' = kept (rows_of r) c') /\
  RebuildClaimsFromLineage (rows_of r') =
    if kept (rows_of r') c then rebuild_step (RebuildClaimsFromLineage (rows_of r)) e else RebuildClaimsFromLineage (rows_of r).
Proof.
  intros [_ (fs & l & Hl & Hk) Hids Htimes Hsort _ _ _] [Hlate Hfresh] Hid Hat Hr1 r'.
  assert (rows_of r = l) as Hrl by (unfold rows_of; by rewrite Hl). rewrite Hrl in *.
  assert (Hnew : call_id c ∉ le_ID <$> l).
  { intros (x & Hx & Hxl)%list_elem_of_fmap. apply Hfresh. rewrite Hx. by apply Hids. }
  assert (exists b, (b = true -> fails <> []) /\
    lineage r' = Some {| lt_readOnly := false; lt_fails := tail fs; lt_rows := if b : bool then l else l ++ [e] |}) as (b & Hb & Hl').
  { exists (default false (head fs)). split.
    { intros Hb Hf. destruct (Hk Hf) as [-> _]. done. }
    unfold r', append_lineage, lr_append, lineage_table, AppendLineage. cbn -[default]. rewrite Hr1, Hl. cbn -[default].
    rewrite stamp_id by done. destruct (default false (head fs)); [done|]. destruct (existsb _ l) eqn:Hex; [|done].
    apply existsb_exists in Hex as (x & Hx%list_elem_of_In & Hb%bool_decide_eq_true).
    destruct Hnew. rewrite <- Hid, <- Hb. by apply list_elem_of_fmap_2. }
  assert (rows_of r' = if b then l else l ++ [e]) as -> by (unfold rows_of; by rewrite Hl').
  assert (forall x, x ∈ (if b then l else l ++ [e]) -> x ∈ l \/ x = e) as Hsub by (destruct b; set_solver).
  split; [|split; [|split; [|split; [|split]]]].
  - eexists _, _. split; [exact Hl'|]. intros Hf. destruct (Hk Hf) as [-> Hkept]. split; [done|].
    destruct b; [by destruct (Hb eq_refl)|]. intros t cl [Hin|Heq%list_elem_of_singleton]%elem_of_app; unfold kept in *.
    + specialize (Hkept _ _ Hin). apply bool_decide_eq_true in Hkept. rewrite fmap_app. apply bool_decide_true. set_solver.
    + rewrite Heq, fmap_app. apply bool_decide_true, elem_of_app. right. cbn -[call_id]. rewrite Hid. by left.
  - intros x Hx. rewrite fmap_app, elem_of_app. destruct (Hsub x Hx) as [Hx'| ->]; [left; by apply Hids|right].
    rewrite Hid. by left.
  - intros x Hx. destruct (Hsub x Hx) as [Hx'| ->]; [|exists c; set_solver].
    destruct (Htimes x Hx') as (c' & ? & ?). exists c'. set_solver.
  - destruct b; [done|]. apply StronglySorted_app. split; [|split; [done|repeat constructor]].
    intros x y Hx ->%list_elem_of_singleton. destruct (Htimes x Hx) as (c' & Hc' & Hx').
    specialize (Hlate c' Hc'). unfold lineage_lt, t_before. rewrite Hat, Hx'.
    destruct (Z.eqb_spec (call_time c) (call_time c')); [lia|]. apply Z.ltb_ge. lia.
  - intros c' Hc'. destruct b; [done|]. unfold kept. apply bool_decide_ext. rewrite fmap_app, elem_of_app. cbn.
    rewrite list_elem_of_singleton, Hid. split; [|by left]. intros [?|Heq]; [done|]. destruct Hfresh.
    rewrite <- Heq. by apply list_elem_of_fmap_2.
  - unfold kept. destruct b; [by rewrite bool_decide_false|].
    rewrite bool_decide_true by (rewrite fmap_app, elem_of_app; right; cbn; rewrite Hid; by left).
    apply rebuild_snoc. apply StronglySorted_app. split; [|split; [done|repeat constructor]].
    intros x y Hx ->%list_elem_of_singleton. destruct (Htimes x Hx) as (c' & Hc' & Hx').
    specialize (Hlate c' Hc'). unfold lineage_lt, t_before. rewrite Hat, Hx'.
    destruct (Z.eqb_spec (call_time c) (call_time c')); [lia|]. apply Z.ltb_ge. lia.
Qed.

Lemma claims_of_store r m : store r = Some {| ct_readOnly := false; ct_rows := m |} -> claims_of r = m.
Proof. unfold claims_of. by intros ->. Qed.

Lemma agree_claim scope fails past r t cl (c := CallClaim t cl) : agree scope fails past r -> next_call past c ->
  claim_in scope c -> agree scope fails (past ++ [c]) (do_call r c).
Proof.
  intros Ha Hnext [Hsc Hne]. pose proof (fun r1 => append_at _ _ _ _ c (claim_event t cl) r1 Ha Hnext) as Happ.
  destruct Ha as [[m Hst] _ _ _ _ Hmem Hheld Hreb]. cbn [do_call c]. unfold Claim. rewrite Hst. cbn -[append_lineage].
  lazymatch goal with |- context [append_lineage t _ ?r1] =>
    destruct (Happ r1 eq_refl eq_refl eq_refl) as (Hl & Hi & Ht & Hs & Hk & Hr) end. change (call_time c) with t in *.
  rewrite (claims_of_store _ _ Hst) in Hmem, Hheld.
  split; [by eexists|exact Hl|done|done|done| | |].
  - intros res Hres. specialize (Hmem res Hres). cbn.
    destruct (decide (oc_ResourceID cl = res)) as [<-|]; [by rewrite !lookup_insert_eq|by rewrite !lookup_insert_ne].
  - intros res Hres. rewrite last_claim_snoc. cbn [c]. rewrite andb_true_r. cbn. case_bool_decide as E; [subst res; by rewrite lookup_insert_eq|].
    rewrite lookup_insert_ne by done. by apply Hheld.
  - intros res Hres. rewrite last_claim_snoc, (last_claim_ext _ _ res past Hk), <- (Hreb res Hres), Hr.
    cbn beta iota delta [c]. fold c. destruct (kept _ c); [rewrite andb_true_r|by rewrite andb_false_r].
    unfold rebuild_step. cbn [le_EventType claim_event]. rewrite bool_decide_true by done. cbn. rewrite Hsc.
    case_bool_decide as E; [subst res; by rewrite lookup_insert_eq|].
    rewrite !lookup_insert_ne; [done|]. by intros ?%claimKey_inj.
Qed.

(** A resolution leaves the holders alone. *)
Lemma agree_resolve scope fails past r t dom res rt (c := CallResolve t dom res rt) : agree scope fails past r ->
  next_call past c -> agree scope fails (past ++ [c]) (do_call r c).
Proof.
  intros Ha Hnext. cbn [do_call c]. unfold Resolve.
  assert (Hstay : forall r1, store r1 = store r -> lineage r1 = lineage r ->
     (forall x, x <> "" -> holder <$> claims r1 !! x = row_holder <$> claims_of r !! x) -> agree scope fails (past ++ [c]) r1).
  { intros r1 H1 H2 H3. destruct Ha as [[m Hst] (fs & l & Hl & Hk) Hids Htimes Hsort _ Hheld Hreb].
    assert (rows_of r1 = rows_of r) as Hrows by (unfold rows_of; by rewrite H2).
    assert (claims_of r1 = claims_of r) as Hcl by (unfold claims_of; by rewrite H1).
    split; rewrite ?Hrows, ?Hcl, ?H1, ?H2; [by eexists| | | |done|done| |].
    - exists fs, l. split; [done|]. intros Hf. destruct (Hk Hf) as [? Hkept]. split; [done|].
      intros t' cl' [Hin|[=]%list_elem_of_singleton]%elem_of_app. by apply Hkept.
    - intros e He. rewrite fmap_app. apply elem_of_app. auto.
    - intros e He. destruct (Htimes e He) as (c' & ? & ?). exists c'. set_solver.
    - intros x Hx. rewrite last_claim_snoc. by apply Hheld.
    - intros x Hx. rewrite last_claim_snoc. by apply Hreb. }
  destruct (domains r !! dom) as [req|]; [|apply Hstay; [done|done|apply Ha]].
  destruct (getClaim res r) as [r1 cl] eqn:Hg. pose proof (getClaim_frame _ _ _ _ Hg) as (_ & Hst1 & Hli1 & _).
  assert (forall x, x <> "" -> holder <$> claims r1 !! x = row_holder <$> claims_of r !! x) as Hmem1.
  { destruct Ha as [[m Hst] _ _ _ _ Hmem _ _]. intros x Hx. specialize (Hmem x Hx).
    rewrite (claims_of_store _ _ Hst) in *. rewrite <- Hmem.
    revert Hg. unfold getClaim. rewrite Hst. cbn. case_bool_decide as Hz; intros [= <- _]; [done|]. cbn.
    destruct (decide (res = x)) as [->|]; [|by rewrite lookup_insert_ne].
    rewrite lookup_insert_eq, Hmem. destruct (m !! x); [done|]. by destruct Hz. }
  destruct cl as [claim|e]; cbn [fst]; [|by apply Hstay].
  destruct (adjudicate _ req res rt claim) as [[out ow] ep]. cbn [fst].
  destruct (append_at _ _ _ _ c (resolve_event t dom res rt ow ep out) r1 Ha Hnext eq_refl eq_refl Hli1)
    as (Hl & Hi & Ht & Hs & Hk & Hr). change (call_time c) with t in *.
  destruct Ha as [[m Hst] _ _ _ _ _ Hheld Hreb].
  split; [cbn; rewrite Hst1; by eexists|exact Hl|done|done|done| | |].
  - intros x Hx. cbn. rewrite (Hmem1 x Hx). unfold claims_of. cbn. by rewrite Hst1.
  - intros x Hx. rewrite last_claim_snoc, <- (Hheld x Hx). unfold claims_of. cbn. by rewrite Hst1.
  - intros x Hx. rewrite last_claim_snoc, (last_claim_ext _ _ x past Hk), <- (Hreb x Hx), Hr.
    change (rebuild_step ?a _) with a. by destruct (kept _ _).
Qed.

Definition later (a b : call) : Prop := call_time a < call_time b.

Lemma run_agree scope doms fails calls :
  StronglySorted later calls -> NoDup (call_id <$> calls) -> Forall (claim_in scope) calls ->
  agree scope fails calls (foldl do_call (start_resolver doms fails) calls).
Proof.
  induction calls as [|c calls IH] using rev_ind; intros Hs Hnd Hin.
  { split; cbn; try done; [by eexists| |set_solver|set_solver|constructor].
    exists fails, []. split; [done|]. intros ->. split; [done|]. by intros t cl ?%elem_of_nil. }
  rewrite foldl_app. cbn. apply Forall_app in Hin as [Hin Hc]. rewrite fmap_app in Hnd.
  apply NoDup_app in Hnd as (Hnd & Hdis & _).
  assert (next_call calls c) as Hnext.
  { split; [|by intros Hf%Hdis; apply Hf; left].
    intros c' Hc'. apply (StronglySorted_app_1_elem_of later _ _ _ _ Hs Hc'). by left. }
  apply StronglySorted_app_1_l in Hs. specialize (IH Hs Hnd Hin). inversion Hc as [|? ? Hc1 _]; subst.
  destruct c; [by apply agree_claim|by apply agree_resolve].
Qed.

(** C34: Three views of who holds a resource.  Claims of one scope and resolutions
    are made at increasing times, starting with empty tables; the claim table
    takes its writes, and any insertions into the lineage table may fail, whose
    errors the resolver drops.  Then the resolver's memory and the claim that
    is in force have the domain and the epoch of the last claim of the
    resource; the claims rebuilt from the lineage have those of the last claim
    whose line is in the lineage, and so the same ones when no insertion
    failed.  (The rights and the times of a claim are not in its line and do
    not come back.) *)
Theorem lineage_rebuilds_claims scope doms fails calls res :
  StronglySorted later calls -> NoDup (call_id <$> calls) -> Forall (claim_in scope) calls -> res <> "" ->
  let r := foldl do_call (start_resolver doms fails) calls in
  let held := last_claim (fun _ => true) res calls in
  let rebuilt := holder <$> RebuildClaimsFromLineage (rows_of r) !! claimKey scope res in
  holder <$> claims r !! res = held /\
  (exists c, claim_in_force res r = Ok c /\ holder <$> c = held) /\
  rebuilt = last_claim (kept (rows_of r)) res calls /\
  (fails = [] -> rebuilt = held).
Proof.
  intros Hs Hnd Hin Hres r held rebuilt.
  destruct (run_agree scope doms fails calls Hs Hnd Hin) as [[m Hst] (fs & l & Hl & Hk) _ _ _ Hmem Hheld Hreb].
  fold r in Hst, Hl, Hmem, Hheld, Hreb. specialize (Hheld res Hres). fold held in Hheld.
  split; [by rewrite (Hmem res Hres)|]. split; [|split; [by apply Hreb|]].
  - rewrite <- Hheld, (claims_of_store _ _ Hst). unfold claim_in_force, getClaim. rewrite Hst. cbn. unfold ct_get. cbn.
    destruct (m !! res) as [x|]; cbn; [rewrite bool_decide_false by done|]; by eexists.
  - intros Hf. destruct (Hk Hf) as [_ Hkept]. unfold rebuilt. rewrite (Hreb res Hres). unfold held.
    assert (rows_of r = l) as -> by (unfold rows_of; by rewrite Hl). clear -Hkept.
    induction calls as [|c calls IH] using rev_ind; [done|]. rewrite !last_claim_snoc, IH.
    + destruct c as [t cl|]; [|done]. by rewrite Hkept by (apply elem_of_app; right; by left).
    + intros t cl Hc. apply Hkept. apply elem_of_app. by left.
Qed.

(** A claim is never refused for the sake of the present owner.  Over a
    database that takes writes, whoever held the resource, a domain that is
    not immutable gets every right it is capable of by claiming it. *)
Theorem claim_takes_over now later_ c req rt (r : Res) m :
  store r = Some {| ct_readOnly := false; ct_rows := m |} ->
  domains r !! oc_DomainID c = Some req -> d_Trust req <> TrustImmutable -> rt ∈ d_Capabilities req ->
  oc_ResourceID c <> "" ->
  let '(r', o) := Claim now c r in
  o = Ok tt /\
  exists out, (Resolve later_ (oc_DomainID c) (oc_ResourceID c) rt r').2 = Ok out /\ ro_Allowed out = true.
Proof.
  intros Hst Hd Htr Hrt Hne. unfold Claim. rewrite Hst. cbn -[append_lineage]. split; [done|].
  unfold Resolve. cbn. rewrite Hd. unfold getClaim. cbn. unfold ct_get. cbn. rewrite lookup_insert_eq. cbn.
  rewrite bool_decide_false by done.
  lazymatch goal with |- context [adjudicate ?d ?q ?x ?y ?cl] =>
    pose proof (adjudicate_spec d q x y cl) as Ha; destruct (adjudicate d q x y cl) as [[out ow] ep] end.
  eexists. split; [done|]. apply Ha. cbn. rewrite Hd. cbn. split; [done|]. split; [lia|]. by left.
Qed.

(** The claim table can always be read. *)
Lemma claims_readable k (r : Res) s : store r = Some s -> is_ok (claim_in_force k r) = true.
Proof. intros Hs. unfold claim_in_force, getClaim. rewrite Hs. cbn. by case_bool_decide. Qed.

(** *** Concrete runs *)
Definition terraform : OwnershipDomain :=
  {| d_ID := "terraform"; d_Type := "terraform"; d_Priority := 100; d_Trust := TrustAuthoritative;
     d_Capabilities := [RightCreate; RightUpdate; RightDelete; RightRollback; RightOverride] |}.
Definition cf_sync : OwnershipDomain :=
  {| d_ID := "cf-sync"; d_Type := "cf-sync"; d_Priority := 80; d_Trust := TrustManaged;
     d_Capabilities := [RightCreate; RightUpdate; RightDelete; RightRollback] |}.
Definition managed : OwnershipDomain :=
  {| d_ID := "cloudflare"; d_Type := "cloudflare_managed"; d_Priority := 200; d_Trust := TrustImmutable;
     d_Capabilities := [] |}.

Definition three_domains : gmap string OwnershipDomain :=
  domains (RegisterDomain managed (RegisterDomain cf_sync (RegisterDomain terraform (start_resolver ∅ [])))).

Definition claim_of (dom res : string) : OwnershipClaim :=
  {| oc_ScopeID := "zone-1"; oc_ResourceID := res; oc_DomainID := dom; oc_Epoch := 3; oc_Rights := [];
     oc_Timestamp := 0 |}.

Definition four_calls : list call :=
  [CallClaim 1 (claim_of "cloudflare" "rule-1"); CallResolve 2 "cf-sync" "rule-1" RightUpdate;
   CallClaim 3 (claim_of "cf-sync" "rule-1"); CallResolve 4 "cf-sync" "rule-1" RightUpdate].

Definition after_calls (n : nat) : Res := foldl do_call (start_resolver three_domains []) (take n four_calls).
Definition outcome (o : result ResolutionOutcome) : string :=
  match o with Ok out => ro_Action out | Err m => m end.

(** The line of the second claim is lost: the rebuilding still has the first
    claim. *)
Lemma lineage_rebuilds_claims_witness :
  holder <$> RebuildClaimsFromLineage (rows_of (after_calls 4)) !! claimKey "zone-1" "rule-1" = Some ("cf-sync", 3) /\
  holder <$> RebuildClaimsFromLineage (rows_of (foldl do_call (start_resolver three_domains [false; false; true]) four_calls))
    !! claimKey "zone-1" "rule-1" = Some ("cloudflare", 3).
Proof.
  assert (StronglySorted later four_calls) as Hs by (repeat constructor; done).
  assert (NoDup (call_id <$> four_calls)) as Hnd by (apply (bool_decide_unpack _); by vm_compute).
  assert (Forall (claim_in "zone-1") four_calls) as Hin by (repeat constructor; done).
  destruct (lineage_rebuilds_claims "zone-1" three_domains [] four_calls "rule-1" Hs Hnd Hin ltac:(done)) as (_ & _ & _ & H1).
  destruct (lineage_rebuilds_claims "zone-1" three_domains [false; false; true] four_calls "rule-1" Hs Hnd Hin ltac:(done))
    as (_ & _ & H2 & _).
  split.
  - etransitivity; [exact (H1 eq_refl)|]. by vm_compute.
  - etransitivity; [exact H2|]. by vm_compute.
Defined.

Lemma claim_takes_over_witness :
  outcome (Resolve 2 "cf-sync" "rule-1" RightUpdate (after_calls 1)).2 = "readonly" /\
  exists out, (Resolve 4 "cf-sync" "rule-1" RightUpdate (Claim 3 (claim_of "cf-sync" "rule-1") (after_calls 1)).1).2 = Ok out /\
    ro_Allowed out = true.
Proof.
  split; [by vm_compute|].
  pose proof (claim_takes_over 3 4 (claim_of "cf-sync" "rule-1") cf_sync RightUpdate (after_calls 1)
    {["rule-1" := {| cr_domain_id := "cloudflare"; cr_rights := ""; cr_epoch := 3; cr_timestamp := 0 |}]}) as H.
  destruct (Claim 3 (claim_of "cf-sync" "rule-1") (after_calls 1)) as [r' o].
  apply H; [by vm_compute|by vm_compute|done|repeat constructor|done].
Defined.

Lemma paging_complete_witness :
  length (pages 5 "" "rule-1" 3 0 "" {| lt_readOnly := false; lt_fails := []; lt_rows := rows_of (after_calls 4) |}) = 4%nat.
Proof.
  rewrite paging_complete; [by vm_compute|lia| | |by vm_compute; lia].
  - apply (bool_decide_unpack _). by vm_compute.
  - apply (bool_decide_unpack _). by vm_compute.
Defined.

End OwnershipTables.
