(* ===== verification/Policy.v ===== *)
(** * Policies and admission

    [internal/policy]: the rule engine, the merging of federated decisions, the
    admission controller over the ownership resolver, and the signed policy
    bundles.  Rego evaluation is a third-party engine that only
    [AuthorizeFederated], which nothing calls, would use; it is not modelled. *)

From S2P Require Import Prelude GoFmt Reports Scheduler Ownership.

Local Open Scope Z_scope.

(** ** Rules ([policy/engine/engine.go], [policy/models/models.go]) *)
Module PolicyEngine.
Import Breaker.

Definition DecisionAllow : string := "allow".
Definition DecisionDeny : string := "deny".
Definition DecisionWarn : string := "warn".
Definition DecisionAuditOnly : string := "audit_only".
Definition DecisionQuarantine : string := "quarantine".
Definition DecisionRequireApproval : string := "require_approval".
Definition DecisionCooldown : string := "cooldown".

Record Rule := {
  ru_ID : string;
  ru_Description : string;
  ru_Target : string;
  ru_Condition : string;
  ru_Decision : string;
}.

Record Policy := {
  po_ID : string;
  po_Name : string;
  po_Description : string;
  po_Rules : list Rule;
  po_Enabled : bool;
}.

Record EvaluationContext := {
  ec_Timestamp : Z;
  ec_OperatorID : string;
  ec_TargetType : string;
  ec_MutationCount : Z;
  ec_Drift : F64.float64;
  ec_ResourceTypes : list string;
  ec_ResourceIDs : list string;
  ec_BreakerState : State;
  ec_InMaintenance : bool;
  ec_TraceID : string;
  ec_PlanID : string;
  ec_BatchID : string;
}.

Record PolicyViolation := { pv_PolicyID : string; pv_RuleID : string; pv_Description : string }.

Record AdmissionDecision := {
  ad_Allowed : bool;
  ad_Decision : string;
  ad_Reason : string;
  ad_Violations : list PolicyViolation;
  ad_TraceID : string;
}.

(** *** [fmt.Sscanf(condition, "mutation_count > %d", &limit)]

    A scan that fails leaves the limit at zero.  Spaces are the ASCII ones. *)
Definition is_blank (a : Ascii.ascii) : bool :=
  existsb (fun n => (Ascii.N_of_ascii a =? n)%N) [9; 11; 12; 13; 32]%N.
Definition is_newline (a : Ascii.ascii) : bool := (Ascii.N_of_ascii a =? 10)%N.

Fixpoint skip_blanks (s : string) : string :=
  match s with String a s' => if is_blank a then skip_blanks s' else s | EmptyString => s end.

(** A space of the format needs one in the input, unless the input is over. *)
Definition expect_space (s : string) : option string :=
  match s with
  | EmptyString => Some s
  | String a s' => if is_blank a then Some (skip_blanks s') else None
  end.

Fixpoint expect (lit s : string) : option string :=
  match lit, s with
  | EmptyString, _ => Some s
  | String a l, String b s' => if bool_decide (a = b) then expect l s' else None
  | String _ _, EmptyString => None
  end.

Definition digit (a : Ascii.ascii) : option Z :=
  let n := Z.of_N (Ascii.N_of_ascii a) in
  if (48 <=? n) && (n <=? 57) then Some (n - 48) else None.

(** The digits at the start, as a number, and whether there is one. *)
Fixpoint digits (acc : Z) (seen : bool) (s : string) : option Z :=
  match s with
  | String a s' => match digit a with Some d => digits (10 * acc + d) true s' | None => if seen then Some acc else None end
  | EmptyString => if seen then Some acc else None
  end.

Definition scan_int (s : string) : option Z :=
  let s := skip_blanks s in
  let '(neg, s) := match s with
                   | String a s' => if bool_decide (a = "-"%char) then (true, s')
                                    else if bool_decide (a = "+"%char) then (false, s') else (false, s)
                   | EmptyString => (false, s)
                   end in
  match digits 0 false s with
  | Some n => let n := if neg then - n else n in
              if (int64_min <=? n) && (n <=? int64_max) then Some n else None
  | None => None
  end.

Definition scan_limit (condition : string) : Z :=
  default 0 (s ← expect "mutation_count" condition; s ← expect_space s; s ← expect ">" s;
             s ← expect_space s; scan_int s).

(** *** Evaluation *)
Definition half : F64.float64 := F64.div (F64.of_int 1) (F64.of_int 2).

Definition matches (r : Rule) (ctx : EvaluationContext) : bool :=
  if bool_decide (ru_ID r = "deny-on-breaker-open") then
    match ec_BreakerState ctx with StateOpen => true | _ => false end
  else if bool_decide (ru_ID r = "quarantine-on-high-drift") then F64.gtb (ec_Drift ctx) half
  else if bool_decide (ru_ID r = "require-approval-on-large-mutation") then 100 <? ec_MutationCount ctx
  else if bool_decide (ru_ID r = "deny-outside-maintenance-window") then negb (ec_InMaintenance ctx)
  else if str_contains (ru_Condition r) "mutation_count >" then scan_limit (ru_Condition r) <? ec_MutationCount ctx
  else false.

(** A decision that is not in the table has the rank of [allow]. *)
Definition rank (d : string) : Z :=
  if bool_decide (d = DecisionDeny) then 4
  else if bool_decide (d = DecisionRequireApproval) then 3
  else if bool_decide (d = DecisionQuarantine) then 2
  else if bool_decide (d = DecisionWarn) then 1 else 0.

Definition isMoreRestrictive (new current : string) : bool := rank current <? rank new.

Definition applies (r : Rule) (ctx : EvaluationContext) : bool :=
  bool_decide (ru_Target r = ec_TargetType ctx) || bool_decide (ru_Target r = "*").

Definition violation (p : Policy) (r : Rule) : PolicyViolation :=
  {| pv_PolicyID := po_ID p; pv_RuleID := ru_ID r; pv_Description := ru_Description r |}.

Definition rule_step (p : Policy) (ctx : EvaluationContext) (d : AdmissionDecision) (r : Rule) : AdmissionDecision :=
  if negb (applies r ctx) then d
  else if matches r ctx then
    let vs := ad_Violations d ++ [violation p r] in
    if isMoreRestrictive (ru_Decision r) (ad_Decision d)
    then {| ad_Allowed := ad_Allowed d; ad_Decision := ru_Decision r; ad_Reason := ru_Description r;
            ad_Violations := vs; ad_TraceID := ad_TraceID d |}
    else {| ad_Allowed := ad_Allowed d; ad_Decision := ad_Decision d; ad_Reason := ad_Reason d;
            ad_Violations := vs; ad_TraceID := ad_TraceID d |}
  else d.

Definition policy_step (ctx : EvaluationContext) (d : AdmissionDecision) (p : Policy) : AdmissionDecision :=
  if negb (po_Enabled p) then d else foldl (rule_step p ctx) d (po_Rules p).

Definition Evaluate (policies : list Policy) (ctx : EvaluationContext) : AdmissionDecision :=
  let d := foldl (policy_step ctx)
    {| ad_Allowed := true; ad_Decision := DecisionAllow; ad_Reason := ""; ad_Violations := [];
       ad_TraceID := ec_TraceID ctx |} policies in
  if bool_decide (ad_Decision d = DecisionDeny)
  then {| ad_Allowed := false; ad_Decision := ad_Decision d; ad_Reason := ad_Reason d;
          ad_Violations := ad_Violations d; ad_TraceID := ad_TraceID d |}
  else d.

(** ** What a decision is *)

(** The rules that speak, in order. *)
Definition hits (ctx : EvaluationContext) (policies : list Policy) : list (Policy * Rule) :=
  p ← List.filter po_Enabled policies;
  (fun r => (p, r)) <$> List.filter (fun r => applies r ctx && matches r ctx) (po_Rules p).

Record decided (ctx : EvaluationContext) (hs : list (Policy * Rule)) (d : AdmissionDecision) : Prop := {
  de_violations : ad_Violations d = (fun pr => violation pr.1 pr.2) <$> hs;
  de_highest : forall pr, pr ∈ hs -> rank (ru_Decision pr.2) <= rank (ad_Decision d);
  de_chosen : (ad_Decision d = DecisionAllow /\ ad_Reason d = "") \/
    exists pr, pr ∈ hs /\ ad_Decision d = ru_Decision pr.2 /\ ad_Reason d = ru_Description pr.2 /\
      0 < rank (ad_Decision d);
  de_open : ad_Allowed d = true /\ ad_TraceID d = ec_TraceID ctx;
}.

Lemma rank_nonneg d : 0 <= rank d.
Proof. unfold rank. repeat case_match; lia. Qed.

Lemma rule_step_spec p ctx hs d r : decided ctx hs d ->
  decided ctx (hs ++ (if applies r ctx && matches r ctx then [(p, r)] else [])) (rule_step p ctx d r).
Proof.
  intros [Hv Hh Hc Ho]. unfold rule_step.
  destruct (applies r ctx), (matches r ctx); cbn; rewrite ?app_nil_r; try done.
  unfold isMoreRestrictive. pose proof (rank_nonneg (ad_Decision d)).
  destruct (Z.ltb_spec (rank (ad_Decision d)) (rank (ru_Decision r))); split; cbn;
    rewrite ?fmap_app; cbn; rewrite ?Hv; try done.
  - intros pr [Hpr| ->%list_elem_of_singleton]%elem_of_app; [|done]. specialize (Hh pr Hpr). lia.
  - right. exists (p, r). cbn. rewrite elem_of_app, list_elem_of_singleton. repeat split; auto. lia.
  - intros pr [Hpr| ->%list_elem_of_singleton]%elem_of_app; auto.
  - destruct Hc as [Hc|(pr & Hpr & Hc)]; [by left|right; exists pr]. rewrite elem_of_app. auto.
Qed.

Lemma rules_spec p ctx rs hs d : decided ctx hs d ->
  decided ctx (hs ++ ((fun r => (p, r)) <$> List.filter (fun r => applies r ctx && matches r ctx) rs))
    (foldl (rule_step p ctx) d rs).
Proof.
  revert hs d. induction rs as [|r rs IH]; intros hs d Hd; [by rewrite app_nil_r|].
  pose proof (rule_step_spec p ctx hs d r Hd) as Hs. cbn [foldl List.filter].
  specialize (IH _ _ Hs). destruct (applies r ctx && matches r ctx).
  - rewrite fmap_cons. by rewrite <- app_assoc in IH.
  - by rewrite app_nil_r in IH.
Qed.

Lemma policies_spec ctx ps hs d : decided ctx hs d ->
  decided ctx (hs ++ hits ctx ps) (foldl (policy_step ctx) d ps).
Proof.
  revert hs d. induction ps as [|p ps IH]; intros hs d Hd; [by rewrite app_nil_r|].
  cbn [foldl]. unfold hits, policy_step at 2. cbn [List.filter]. destruct (po_Enabled p); cbn [negb]; [|by apply IH].
  rewrite bind_cons, app_assoc. apply IH. by apply rules_spec.
Qed.

Lemma rank_deny d : rank d = 4 <-> d = DecisionDeny.
Proof. unfold rank. split; [repeat case_bool_decide; lia || done|by intros ->]. Qed.

Lemma Evaluate_decided ps ctx : let d := Evaluate ps ctx in
  ad_Violations d = (fun pr => violation pr.1 pr.2) <$> hits ctx ps /\
  (forall pr, pr ∈ hits ctx ps -> rank (ru_Decision pr.2) <= rank (ad_Decision d)) /\
  ((ad_Decision d = DecisionAllow /\ ad_Reason d = "") \/
   exists pr, pr ∈ hits ctx ps /\ ad_Decision d = ru_Decision pr.2 /\ ad_Reason d = ru_Description pr.2 /\
     0 < rank (ad_Decision d)) /\
  ad_TraceID d = ec_TraceID ctx /\
  (ad_Allowed d = false <-> exists pr, pr ∈ hits ctx ps /\ ru_Decision pr.2 = DecisionDeny).
Proof.
  unfold Evaluate.
  set (d0 := {| ad_Allowed := true; ad_Decision := DecisionAllow; ad_Reason := "";
    ad_Violations := []; ad_TraceID := ec_TraceID ctx |}).
  assert (decided ctx [] d0) as H0 by (split; cbn; [done|set_solver|by left|done]).
  destruct (policies_spec ctx ps [] d0 H0) as [Hv Hh Hc [Ho Ht]]. revert Hv Hh Hc Ho Ht. cbn [app].
  generalize (foldl (policy_step ctx) d0 ps). intros d Hv Hh Hc Ho Ht. cbv zeta.
  destruct (decide (ad_Decision d = DecisionDeny)) as [He|He].
  - rewrite bool_decide_true by done. cbn. do 4 (split; [done|]). split; [intros _|done].
    destruct Hc as [[Hf _]|(pr & ? & Hc & _)]; [by rewrite He in Hf|]. exists pr. by rewrite <- Hc.
  - rewrite bool_decide_false by done. do 4 (split; [done|]). split; [by rewrite Ho|].
    intros (pr & Hpr & Hd). specialize (Hh pr Hpr). rewrite Hd in Hh. change (rank DecisionDeny) with 4 in Hh.
    destruct He. apply rank_deny. unfold rank in *. repeat case_bool_decide; lia.
Qed.

(** The rules that speak depend on these fields of the context alone. *)
Lemma hits_ext c c' ps : ec_TargetType c = ec_TargetType c' -> ec_BreakerState c = ec_BreakerState c' ->
  ec_Drift c = ec_Drift c' -> ec_MutationCount c = ec_MutationCount c' -> ec_InMaintenance c = ec_InMaintenance c' ->
  hits c ps = hits c' ps.
Proof. intros H1 H2 H3 H4 H5. unfold hits, applies, matches. by rewrite H1, H2, H3, H4, H5. Qed.

(** A decision lists every enabled rule that applies and matches, in order;
    it is the most restrictive of theirs, with that rule's description, or
    [allow].  It forbids exactly when one of these rules denies: no other
    decision, an approval or a quarantine included, does, and [cooldown] and
    [audit_only] rules never become the decision. *)
Theorem Evaluate_spec ps ctx : let d := Evaluate ps ctx in
  ad_Violations d = (fun pr => violation pr.1 pr.2) <$> hits ctx ps /\
  (forall pr, pr ∈ hits ctx ps -> rank (ru_Decision pr.2) <= rank (ad_Decision d)) /\
  (ad_Decision d = DecisionAllow \/
   exists pr, pr ∈ hits ctx ps /\ ad_Decision d = ru_Decision pr.2 /\ ad_Reason d = ru_Description pr.2) /\
  (ad_Allowed d = false <-> exists pr, pr ∈ hits ctx ps /\ ru_Decision pr.2 = DecisionDeny) /\
  ad_Decision d <> DecisionCooldown /\ ad_Decision d <> DecisionAuditOnly.
Proof.
  intros d. destruct (Evaluate_decided ps ctx) as (Hv & Hh & Hc & _ & Ha). fold d in Hv, Hh, Hc, Ha.
  split; [done|]. split; [done|]. split; [naive_solver|]. split; [done|].
  destruct Hc as [[-> _]|(pr & _ & _ & _ & Hr)]; [done|]. split; intros He; by rewrite He in Hr.
Qed.

End PolicyEngine.

(** ** Federated decisions ([policy/federation/resolver.go]) *)
Module Federation.
Import PolicyEngine.

Definition ScopeGlobal : string := "global".
Definition ScopeTenant : string := "tenant".
Definition ScopeZone : string := "zone".

Record FederatedBundle := {
  fb_BundleID : string;
  fb_Scope : string;
  fb_ScopeID : string;
  fb_ParentBundleID : string;
  fb_Priority : Z;
  fb_ActivatedAt : Z;
}.

Record ScopedDecision := {
  sd_Scope : string;
  sd_ScopeID : string;
  sd_BundleID : string;
  sd_Decision : string;
  sd_Reason : string;
  sd_RuleID : string;
}.

Record FederatedDecision := {
  fd_FinalDecision : string;
  fd_Contributors : list ScopedDecision;
  fd_Reason : string;
  fd_TraceID : string;
}.

Definition severity (d : string) : Z :=
  if bool_decide (d = DecisionDeny) then 100
  else if bool_decide (d = DecisionQuarantine) then 80
  else if bool_decide (d = DecisionRequireApproval) then 60
  else if bool_decide (d = DecisionCooldown) then 40
  else if bool_decide (d = DecisionWarn) then 20
  else if bool_decide (d = DecisionAuditOnly) then 10 else 0.

(** Equal severities keep their order here; [sort.Slice] leaves it open. *)
Definition MergeDecisions (ds : list ScopedDecision) : FederatedDecision :=
  let sorted := isort (fun a b => severity (sd_Decision b) <? severity (sd_Decision a)) ds in
  match sorted with
  | [] => {| fd_FinalDecision := DecisionAllow; fd_Contributors := [];
             fd_Reason := "no decisions to merge, default allow"; fd_TraceID := "" |}
  | d :: _ => {| fd_FinalDecision := sd_Decision d; fd_Contributors := sorted;
                 fd_Reason := sd_Reason d; fd_TraceID := "" |}
  end.

Record Resolver := { bundles : gmap string FederatedBundle }.
Definition NewResolver : Resolver := {| bundles := ∅ |}.
Definition RegisterBundle (b : FederatedBundle) (r : Resolver) : Resolver :=
  {| bundles := <[fb_BundleID b := b]> (bundles r) |}.

(** Go ranges over the bundles in no given order; the model in the map's. *)
Definition ResolveScopeHierarchy (tenantID zoneID : string) (r : Resolver) : list FederatedBundle :=
  isort (fun a b => fb_Priority b <? fb_Priority a)
    (List.filter (fun b =>
       bool_decide (fb_Scope b = ScopeGlobal) ||
       (bool_decide (fb_Scope b = ScopeTenant) && bool_decide (fb_ScopeID b = tenantID)) ||
       (bool_decide (fb_Scope b = ScopeZone) && bool_decide (fb_ScopeID b = zoneID)))
      (map_to_list (bundles r)).*2).

(** Most restrictive wins: the merged decision is one of those merged, none is
    more severe, and all of them are kept as contributors.  So a single denial
    decides. *)
Lemma MergeDecisions_spec ds : ds <> [] ->
  let f := MergeDecisions ds in
  fd_Contributors f ≡ₚ ds /\
  (exists d, d ∈ ds /\ sd_Decision d = fd_FinalDecision f /\ sd_Reason d = fd_Reason f) /\
  (forall d, d ∈ ds -> severity (sd_Decision d) <= severity (fd_FinalDecision f)) /\
  ((exists d, d ∈ ds /\ sd_Decision d = DecisionDeny) -> fd_FinalDecision f = DecisionDeny).
Proof.
  intros Hne f. pose (lt := fun a b => severity (sd_Decision b) <? severity (sd_Decision a)).
  pose proof (isort_perm lt ds) as Hp.
  assert (StronglySorted (fun a b => severity (sd_Decision b) <= severity (sd_Decision a)) (isort lt ds)) as Hs.
  { apply (isort_sorted lt); unfold lt; [intros a b; lia|intros a b; lia|intros a b c; lia]. }
  unfold f, MergeDecisions. fold lt. destruct (isort lt ds) as [|d l]; [by apply Permutation_nil_l in Hp|].
  cbn [fd_Contributors fd_FinalDecision fd_Reason]. split; [done|].
  assert (forall x, x ∈ ds -> severity (sd_Decision x) <= severity (sd_Decision d)) as Hmax.
  { intros x. rewrite <- Hp, elem_of_cons. inversion Hs as [|? ? _ Hd]; subst. rewrite Forall_forall in Hd.
    intros [->|Hx]; [lia|by apply Hd]. }
  split; [exists d; rewrite <- Hp; split; [by left|done]|]. split; [done|].
  intros (x & Hx & Hd). specialize (Hmax x Hx). rewrite Hd in Hmax. revert Hmax.
  change (severity DecisionDeny) with 100. unfold severity. repeat case_bool_decide; by try lia.
Qed.

End Federation.

(** ** Admission ([policy/admission/controller.go]) *)
Module Admission.
Import PolicyEngine Ownership.

Section controller.
Context {S R : Type} `{!ClaimStore S} `{!LineageRecorder R}.

Definition denied (reason : string) : AdmissionDecision :=
  {| ad_Allowed := false; ad_Decision := DecisionDeny; ad_Reason := reason; ad_Violations := []; ad_TraceID := "" |}.

(** The ownership check; [Ok None] when no resource is refused.  [clk] gives
    the times of the successive resolutions. *)
Fixpoint check_owners (clk : nat -> Z) (ids : list string) (r : Resolver S R)
  : Resolver S R * result (option AdmissionDecision) :=
  match ids with
  | [] => (r, Ok None)
  | sik :: ids =>
      let '(r, o) := Resolve (clk O) "cf-sync" sik RightUpdate r in
      match o with
      | Err m => (r, Err m)
      | Ok out => if ro_Allowed out then check_owners (fun n => clk (Datatypes.S n)) ids r
                  else (r, Ok (Some (denied ("ownership violation on " +:+ sik +:+ ": " +:+ ro_Reason out))))
      end
  end.

Definition Authorize (clk : nat -> Z) (policies : list Policy) (ctx : EvaluationContext) (r : Resolver S R)
  : Resolver S R * result AdmissionDecision :=
  let '(r, o) := check_owners clk (ec_ResourceIDs ctx) r in
  (r, match o with
      | Err m => Err m
      | Ok (Some d) => Ok d
      | Ok None => Ok (Evaluate policies ctx)
      end).

(** Ownership grants the resource to the synchroniser. *)
Definition granted (r : Resolver S R) (res : string) : Prop :=
  exists req claim, domains r !! "cf-sync" = Some req /\ claim_in_force res r = Ok claim /\
    may_mutate (domains r) req RightUpdate claim.

Lemma granted_frame (r r' : Resolver S R) res : domains r' = domains r -> claim_in_force res r' = claim_in_force res r ->
  granted r' res <-> granted r res.
Proof. unfold granted. by intros -> ->. Qed.

Lemma check_owners_spec clk ids r : let '(r', o) := check_owners clk ids r in
  domains r' = domains r /\ store r' = store r /\
  match o with
  | Ok None => forall res, res ∈ ids -> granted r res
  | Ok (Some d) => ad_Allowed d = false /\ exists res, res ∈ ids /\ ~ granted r res
  | Err _ => domains r !! "cf-sync" = None \/ exists res m, res ∈ ids /\ claim_in_force res r = Err m
  end.
Proof.
  revert clk r. induction ids as [|sik ids IH]; intros clk r; cbn; [set_solver|].
  pose proof (Resolve_outcome (clk O) "cf-sync" sik RightUpdate r) as Hsp.
  pose proof (Resolve_frame (clk O) "cf-sync" sik RightUpdate r) as (Hd & Hs & Hcf).
  destruct (Resolve (clk O) "cf-sync" sik RightUpdate r) as [r1 o]. cbn [fst] in *.
  destruct Hsp as (_ & _ & _ & Ho). destruct o as [out|m].
  - destruct Ho as (req & claim & Hreq & Hcl & Hiff & _).
    assert (ro_Allowed out = true <-> granted r sik) as Hg.
    { rewrite Hiff. split; [intros; by exists req, claim|]. intros (q & cl & Hq & Hcl' & Hm).
      rewrite Hreq in Hq. rewrite Hcl in Hcl'. by injection Hq as <-; injection Hcl' as <-. }
    destruct (ro_Allowed out).
    + specialize (IH (fun n => clk (Datatypes.S n)) r1).
      destruct (check_owners _ ids r1) as [r2 o2]. destruct IH as (Hd2 & Hs2 & IH).
      split; [congruence|]. split; [congruence|]. destruct o2 as [[d|]|m].
      * destruct IH as (Hf & res & Hres & Hng). split; [done|]. exists res. split; [by right|].
        by rewrite <- (granted_frame r r1 res).
      * intros res [->|Hres]%elem_of_cons; [by apply Hg|]. rewrite <- (granted_frame r r1 res); auto.
      * destruct IH as [IH|(res & m' & Hres & IH)]; [left; congruence|right]. exists res, m'.
        split; [by right|]. by rewrite <- Hcf.
    + split; [done|]. split; [done|]. split; [done|]. exists sik. split; [by left|]. by intros ?%Hg.
  - split; [done|]. split; [done|]. destruct Ho as [_ [Ho|[m' Ho]]]; [by left|right].
    exists sik, m'. split; [by left|done].
Qed.

End controller.

Lemma Authorize_outcome {S R} `{!ClaimStore S} `{!LineageRecorder R} clk ps ctx (r : Resolver S R) :
  let '(r', o) := Authorize clk ps ctx r in
  domains r' = domains r /\ store r' = store r /\
  match o with
  | Ok d => ad_Allowed d = true <->
      (forall res, res ∈ ec_ResourceIDs ctx -> granted r res) /\
      ~ exists pr, pr ∈ hits ctx ps /\ ru_Decision pr.2 = DecisionDeny
  | Err _ => domains r !! "cf-sync" = None \/
      exists res m, res ∈ ec_ResourceIDs ctx /\ claim_in_force res r = Err m
  end.
Proof.
  unfold Authorize. pose proof (check_owners_spec clk (ec_ResourceIDs ctx) r) as Hc.
  destruct (check_owners clk _ r) as [r' o]. destruct Hc as (Hd & Hs & Hc). split; [done|]. split; [done|].
  destruct o as [[d|]|m]; [| |done].
  - destruct Hc as (-> & res & Hres & Hng). split; [done|]. intros [Hall _]. by destruct Hng; apply Hall.
  - destruct (Evaluate_decided ps ctx) as (_ & _ & _ & _ & Ha). rewrite <- Ha.
    destruct (ad_Allowed _); split; intros H; [split; done|done|done|]; by destruct H as [_ []].
Qed.

(** Ownership that grants everything, and no rule that denies. *)
Lemma Authorize_allowed {S R} `{!ClaimStore S} `{!LineageRecorder R} clk ps ctx (r : Resolver S R) :
  (forall res, res ∈ ec_ResourceIDs ctx -> granted r res) ->
  (~ exists pr, pr ∈ hits ctx ps /\ ru_Decision pr.2 = DecisionDeny) ->
  exists d, (Authorize clk ps ctx r).2 = Ok d /\ ad_Allowed d = true.
Proof.
  intros Hg Hno. pose proof (Authorize_outcome clk ps ctx r) as Ho. unfold Authorize in *.
  destruct (check_owners clk (ec_ResourceIDs ctx) r) as [r' o] eqn:Hc. destruct Ho as (_ & _ & Ho). cbn [snd].
  destruct o as [[d|]|m].
  - exists d. split; [done|]. by apply Ho.
  - eexists. split; [done|]. by apply Ho.
  - exfalso. destruct (ec_ResourceIDs ctx) as [|x l] eqn:Hids; [by injection Hc|].
    destruct Ho as [Hd|(res & m' & Hres & He)].
    + destruct (Hg x ltac:(by left)) as (req & cl & Hq & _). by rewrite Hd in Hq.
    + destruct (Hg res Hres) as (req & cl & _ & Hok & _). by rewrite He in Hok.
Qed.

(** An action is admitted exactly when ownership grants every resource it
    touches to the synchroniser and no enabled rule that applies and matches
    denies it; the claims and the domains are left as they were.  An error
    means that the synchroniser's domain is not registered or that a claim
    could not be read, and then nothing is admitted. *)
Theorem Authorize_spec {S R} `{!ClaimStore S} `{!LineageRecorder R} clk ps ctx (r : Resolver S R) :
  let '(r', o) := Authorize clk ps ctx r in
  domains r' = domains r /\ store r' = store r /\
  match o with
  | Ok d => ad_Allowed d = true <->
      (forall res, res ∈ ec_ResourceIDs ctx -> granted r res) /\
      ~ exists pr, pr ∈ hits ctx ps /\ ru_Decision pr.2 = DecisionDeny
  | Err _ => domains r !! "cf-sync" = None \/
      exists res m, res ∈ ec_ResourceIDs ctx /\ claim_in_force res r = Err m
  end.
Proof. apply Authorize_outcome. Qed.

End Admission.

(** ** Signed bundles ([policy/bundles]) *)
Module Bundles.

Record SignatureEnvelope := { KeyID : string; Algorithm : string; Signature : string; SignedAt : Z }.
Record ProvenanceMetadata := { SourceRepo : string; CommitSHA : string; BuildPipeline : string; Author : string }.
Record CompatibilityMatrix := { MinRuntimeVersion : string; MaxRuntimeVersion : string; RequiredInputs : list string }.
Record RegoFile := { rf_Path : string; rf_SHA256 : string }.

Record BundleManifest := {
  BundleID : string;
  Version : string;
  bm_CreatedAt : Z;
  bm_CreatedBy : string;
  SHA256 : string;
  Files : list RegoFile;
  bm_Signature : SignatureEnvelope;
  Provenance : ProvenanceMetadata;
  Compatibility : CompatibilityMatrix;
}.

Definition set_signature (s : SignatureEnvelope) (m : BundleManifest) : BundleManifest :=
  {| BundleID := BundleID m; Version := Version m; bm_CreatedAt := bm_CreatedAt m; bm_CreatedBy := bm_CreatedBy m;
     SHA256 := SHA256 m; Files := Files m; bm_Signature := s; Provenance := Provenance m;
     Compatibility := Compatibility m |}.

Definition payload (m : BundleManifest) : string :=
  BundleID m +:+ "|" +:+ Version m +:+ "|" +:+ SHA256 m.

(** The bundle registry and the store of trusted keys. *)
Record Registry := { reg_bundles : gmap string BundleManifest; reg_active : string }.
Definition NewRegistry : Registry := {| reg_bundles := ∅; reg_active := "" |}.
Definition Register_ (m : BundleManifest) (r : Registry) : Registry :=
  {| reg_bundles := <[SHA256 m := m]> (reg_bundles r); reg_active := reg_active r |}.
Definition registry_Activate (sha : string) (r : Registry) : Registry :=
  {| reg_bundles := reg_bundles r; reg_active := sha |}.
Definition GetActive (r : Registry) : option BundleManifest := reg_bundles r !! reg_active r.

(** Keys, by identifier, and the signature scheme of [crypto/ed25519]. *)
Section signing.
Context {PrivateKey PublicKey : Type}.
Variable ed_sign : PrivateKey -> string -> string.
Variable ed_verify : PublicKey -> string -> string -> bool.

Record Manager := { registry : Registry; trust : gmap string PublicKey }.
Definition NewManager (r : Registry) (t : gmap string PublicKey) : Manager := {| registry := r; trust := t |}.
Definition RegisterKey (id : string) (key : PublicKey) (m : Manager) : Manager :=
  {| registry := registry m; trust := <[id := key]> (trust m) |}.

Definition GetPublicKey (id : string) (m : Manager) : result PublicKey :=
  match trust m !! id with
  | Some k => Ok k
  | None => Err (wrap_msg "policy.bundles.trust.GetPublicKey" ("trusted key not found: " +:+ id))
  end.

Definition SignManifest (now : Z) (priv : PrivateKey) (keyID : string) (m : BundleManifest) : BundleManifest :=
  set_signature {| KeyID := keyID; Algorithm := "Ed25519"; Signature := ed_sign priv (payload m); SignedAt := now |} m.

Definition Verify (keys : gmap string PublicKey) (m : BundleManifest) : result unit :=
  let op := "policy.bundles.signing.Verifier.Verify" in
  match keys !! KeyID (bm_Signature m) with
  | None => Err (wrap_msg op ("unrecognized key ID: " +:+ KeyID (bm_Signature m)))
  | Some pub => if negb (ed_verify pub (payload m) (Signature (bm_Signature m)))
                then Err (wrap_msg op "invalid manifest signature") else Ok tt
  end.

Definition Activate (new : BundleManifest) (m : Manager) : Manager * result unit :=
  match Verify (trust m) new with
  | Err e => (m, Err (wrap_msg "policy.bundles.activation.Activate" e))
  | Ok _ => ({| registry := registry_Activate (SHA256 new) (Register_ new (registry m)); trust := trust m |}, Ok tt)
  end.

Definition Rollback (sha : string) (m : Manager) : Manager * result unit :=
  ({| registry := registry_Activate sha (registry m); trust := trust m |}, Ok tt).

(** *** Whatever is active was verified *)
Inductive command := CActivate (m : BundleManifest) | CRollback (sha : string) | CTrust (id : string) (key : PublicKey).

Definition command_step (m : Manager) (c : command) : Manager :=
  match c with
  | CActivate b => (Activate b m).1
  | CRollback sha => (Rollback sha m).1
  | CTrust id key => RegisterKey id key m
  end.

Definition run (cs : list command) : Manager := foldl command_step (NewManager NewRegistry ∅) cs.

(** The manifest was presented at some point and its signature held under the
    keys trusted then. *)
Definition verified_in (cs : list command) (b : BundleManifest) : Prop :=
  exists before after, cs = before ++ CActivate b :: after /\ Verify (trust (run before)) b = Ok tt.

Lemma verified_snoc cs c b : verified_in cs b -> verified_in (cs ++ [c]) b.
Proof. intros (l1 & l2 & -> & Hv). exists l1, (l2 ++ [c]). by rewrite <- app_assoc. Qed.

Lemma registry_verified cs sha b : reg_bundles (registry (run cs)) !! sha = Some b ->
  SHA256 b = sha /\ verified_in cs b.
Proof.
  induction cs as [|c cs IH] using rev_ind; [done|]. unfold run. rewrite foldl_app. cbn [foldl]. fold (run cs).
  destruct c as [new|sha'|id key]; cbn.
  - unfold Activate. destruct (Verify (trust (run cs)) new) as [[]|e] eqn:Hv; cbn.
    + rewrite lookup_insert_Some. intros [[<- <-]|[_ Hb]].
      * split; [done|]. by exists cs, [].
      * apply IH in Hb as [? ?]. split; [done|by apply verified_snoc].
    + intros [? ?]%IH. split; [done|by apply verified_snoc].
  - intros [? ?]%IH. split; [done|by apply verified_snoc].
  - intros [? ?]%IH. split; [done|by apply verified_snoc].
Qed.

End signing.

(** Whatever is activated, rolled back to or trusted, in any order, a bundle
    that is active carries the checksum it was activated under and was accepted
    earlier: its signature held, under a key trusted at that time. *)
Theorem active_was_verified {PublicKey : Type} (ed_verify : PublicKey -> string -> string -> bool) cs b :
  GetActive (registry (run ed_verify cs)) = Some b ->
  SHA256 b = reg_active (registry (run ed_verify cs)) /\ verified_in ed_verify cs b.
Proof. apply registry_verified. Qed.

(** What is signed does not determine the manifest.  A signature of one bundle
    also verifies for a bundle with another identifier and version, split at
    another bar, and for one with other Rego files. *)
Theorem signature_not_binding {PublicKey : Type} (ed_verify : PublicKey -> string -> string -> bool) keys
    id v w sha files1 files2 sig prov compat t by_ :
  let manifest id v files := {| BundleID := id; Version := v; bm_CreatedAt := t; bm_CreatedBy := by_; SHA256 := sha;
    Files := files; bm_Signature := sig; Provenance := prov; Compatibility := compat |} in
  Verify ed_verify keys (manifest (id +:+ "|" +:+ v) w files1) =
  Verify ed_verify keys (manifest id (v +:+ "|" +:+ w) files2).
Proof.
  cbv zeta. unfold Verify. cbn. assert (forall m m', payload m = payload m' ->
    forall k s, ed_verify k (payload m) s = ed_verify k (payload m') s) as Hp by (by intros ? ? ->).
  case_match; [|done]. erewrite Hp; [done|]. unfold payload. cbn. by rewrite !str_app_assoc.
Qed.

(** *** A toy signature scheme *)
Definition toy_sign (key msg : string) : string := key +:+ msg.
Definition toy_verify (key msg sig : string) : bool := bool_decide (sig = key +:+ msg).

Definition plain_manifest : BundleManifest :=
  {| BundleID := "core"; Version := "1"; bm_CreatedAt := 0; bm_CreatedBy := "ops"; SHA256 := "ab"; Files := [];
     bm_Signature := {| KeyID := ""; Algorithm := ""; Signature := ""; SignedAt := 0 |};
     Provenance := {| SourceRepo := ""; CommitSHA := ""; BuildPipeline := ""; Author := "" |};
     Compatibility := {| MinRuntimeVersion := ""; MaxRuntimeVersion := ""; RequiredInputs := [] |} |}.
Definition signed_manifest : BundleManifest := SignManifest toy_sign 1 "k" "k1" plain_manifest.
Definition three_commands : list command :=
  [CTrust "k1" "k"; CActivate signed_manifest; CRollback "gone"; CRollback "ab"].

Lemma active_was_verified_witness :
  SHA256 signed_manifest = "ab" /\ verified_in toy_verify three_commands signed_manifest.
Proof. apply (active_was_verified toy_verify three_commands signed_manifest). by vm_compute. Defined.

End Bundles.
