(* ===== verification/Cloudflare.v ===== *)
(** * Cloudflare resources

    [internal/cloudflare/pagination] (reading every page of a listing),
    [internal/cloudflare/models] and [internal/cloudflare/normalize] (turning
    provider resources into the objects of a snapshot).  The HTTP transport is
    the function that fetches a page. *)

From S2P Require Import Prelude GoFmt Sha256 Events Snapshot.

Local Open Scope Z_scope.

(** ** Pagination *)
Module Pagination.

Record ResultInfo := { ri_Page : Z; ri_PerPage : Z; ri_Count : Z; ri_TotalCount : Z; ri_TotalPages : Z }.

Definition op_all : string := "cloudflare.pagination.TraverseAll".

Section traverse.
Context {T : Type}.
(** A page: its items and what the API says about the listing. *)
Variable fetch : Z -> result (list T * option ResultInfo).

(** The loop, from a page on; [None] when [fuel] pages were not enough. *)
Fixpoint traverse (fuel : nat) (page : Z) (all : list T) : option (result (list T * option ResultInfo)) :=
  match fuel with
  | O => None
  | S fuel =>
      match fetch page with
      | Err m => Some (Err (wrap_msg op_all m))
      | Ok (items, info) =>
          let all := all ++ items in
          match info with
          | None => Some (Ok (all, info))
          | Some i =>
              if (ri_TotalPages i =? 0) || (ri_TotalPages i <=? page) then Some (Ok (all, info))
              else match items with
                   | [] => Some (Err (wrap_msg op_all "API reported more pages but returned empty result"))
                   | _ => traverse fuel (page + 1) all
                   end
          end
      end
  end.

Definition check_count (all : list T) (last : option ResultInfo) : result (list T) :=
  match last with
  | Some i => if (0 <? ri_TotalCount i) && (Z.of_nat (length all) <? ri_TotalCount i)
              then Err (wrap_msg op_all ("pagination incomplete: received " +:+ GoFmt.fmt_d (Z.of_nat (length all)) +:+
                          " items, API reported " +:+ GoFmt.fmt_d (ri_TotalCount i)))
              else Ok all
  | None => Ok all
  end.

Definition TraverseAll (fuel : nat) : option (result (list T)) :=
  match traverse fuel 1 [] with
  | None => None
  | Some (Err m) => Some (Err m)
  | Some (Ok (all, last)) => Some (check_count all last)
  end.

(** The items of the pages [from], [from + 1], ... *)
Fixpoint items_of (n : nat) (from : Z) : list T :=
  match n with
  | O => []
  | S n => match fetch from with Ok (items, _) => items ++ items_of n (from + 1) | Err _ => [] end
  end.

Lemma traverse_items fuel page all l last : traverse fuel page all = Some (Ok (l, last)) ->
  exists n items, l = all ++ items_of (S n) page /\
    fetch (page + Z.of_nat n) = Ok (items, last) /\
    match last with Some i => ri_TotalPages i = 0 \/ ri_TotalPages i <= page + Z.of_nat n | None => True end.
Proof.
  revert page all. induction fuel as [|fuel IH]; intros page all; [done|]. cbn.
  destruct (fetch page) as [[items info]|m] eqn:Hf; [|done].
  assert (forall j, info = j -> match j with Some i => ri_TotalPages i = 0 \/ ri_TotalPages i <= page | None => True end ->
    exists n items0, all ++ items = all ++ items ++ items_of n (page + 1) /\
      fetch (page + Z.of_nat n) = Ok (items0, j) /\
      match j with Some i => ri_TotalPages i = 0 \/ ri_TotalPages i <= page + Z.of_nat n | None => True end) as Hstop.
  { intros j Hj Hi. exists O, items. cbn. rewrite app_nil_r, Z.add_0_r, <- Hj. rewrite Hj. split; [done|]. split; [by rewrite Hf, Hj|done]. }
  destruct info as [i|]; [|intros [= <- <-]; by apply Hstop].
  destruct ((ri_TotalPages i =? 0) || (ri_TotalPages i <=? page)) eqn:Hs.
  { intros [= <- <-]. apply Hstop; [done|]. lia. }
  destruct items as [|x items]; [done|]. intros (n & it & -> & Hn & Hl)%IH. exists (S n), it.
  replace (page + Z.of_nat (S n)) with (page + 1 + Z.of_nat n) by lia. split; [|done].
  cbn. rewrite <- app_assoc. done.
Qed.

Lemma traverse_pages n k all i :
  (forall j, (j <= n)%nat -> exists items,
     fetch (Z.of_nat (k + j)) = Ok (items, Some i) /\ ((j < n)%nat -> items <> [])) ->
  ri_TotalPages i = Z.of_nat (k + n) -> (1 <= k)%nat ->
  traverse (S n) (Z.of_nat k) all = Some (Ok (all ++ items_of (S n) (Z.of_nat k), Some i)).
Proof.
  revert k all. induction n as [|n IH]; intros k all Hp Ht Hk.
  - destruct (Hp O (le_n _)) as (items & Hf & _). rewrite Nat.add_0_r in Hf, Ht. cbn. rewrite Hf.
    rewrite Ht. assert ((Z.of_nat k <=? Z.of_nat k) = true) as -> by lia. rewrite orb_true_r, app_nil_r. done.
  - destruct (Hp O ltac:(lia)) as (items & Hf & Hne). rewrite Nat.add_0_r in Hf.
    change (traverse (S (S n)) (Z.of_nat k) all) with
      (match fetch (Z.of_nat k) with
       | Err m => Some (Err (wrap_msg op_all m))
       | Ok (items, info) =>
          let all := all ++ items in
          match info with
          | None => Some (Ok (all, info))
          | Some i =>
              if (ri_TotalPages i =? 0) || (ri_TotalPages i <=? Z.of_nat k) then Some (Ok (all, info))
              else match items with
                   | [] => Some (Err (wrap_msg op_all "API reported more pages but returned empty result"))
                   | _ => traverse (S n) (Z.of_nat k + 1) all
                   end
          end
       end).
    rewrite Hf. cbv zeta. assert ((ri_TotalPages i =? 0) || (ri_TotalPages i <=? Z.of_nat k) = false) as -> by lia.
    destruct items as [|x items]; [by destruct (Hne ltac:(lia))|].
    replace (Z.of_nat k + 1) with (Z.of_nat (S k)) by lia. rewrite (IH (S k)); [|intros j Hj|lia|lia].
    + f_equal. f_equal. f_equal. rewrite <- app_assoc. f_equal.
      change (items_of (S (S n)) (Z.of_nat k)) with
        (match fetch (Z.of_nat k) with Ok (items, _) => items ++ items_of (S n) (Z.of_nat k + 1) | Err _ => [] end).
      rewrite Hf. by replace (Z.of_nat k + 1) with (Z.of_nat (S k)) by lia.
    + destruct (Hp (S j) ltac:(lia)) as (it & Hj' & Hn'). exists it.
      replace (S k + j)%nat with (k + S j)%nat by lia. split; [done|]. intros. apply Hn'. lia.
Qed.

End traverse.

(** When the API serves a listing in pages that are not empty (the last may
    be) and reports their number and the number of items, the whole listing is
    returned, after as many requests as there are pages.  Whatever the API
    does, a listing that is returned is the items of the pages from the first
    to the one the API called the last, and never fewer items than it then
    reported. *)
Theorem TraverseAll_spec {T} (fetch : Z -> result (list T * option ResultInfo)) :
  (forall n i,
     (forall j, (j <= n)%nat -> exists items,
        fetch (Z.of_nat (1 + j)) = Ok (items, Some i) /\ ((j < n)%nat -> items <> [])) ->
     ri_TotalPages i = Z.of_nat (1 + n) -> ri_TotalCount i = Z.of_nat (length (items_of fetch (S n) 1)) ->
     TraverseAll fetch (S n) = Some (Ok (items_of fetch (S n) 1))) /\
  (forall fuel l, TraverseAll fetch fuel = Some (Ok l) ->
     exists n items last, l = items_of fetch (S n) 1 /\ fetch (Z.of_nat (S n)) = Ok (items, last) /\
       match last with
       | Some i => (ri_TotalPages i = 0 \/ ri_TotalPages i <= Z.of_nat (S n)) /\ ri_TotalCount i <= Z.of_nat (length l)
       | None => True
       end).
Proof.
  split.
  - intros n i Hp Ht Hc. unfold TraverseAll. change 1 with (Z.of_nat 1).
    rewrite (traverse_pages fetch n 1 [] i Hp Ht) by lia. cbn [app]. unfold check_count. rewrite Hc.
    change (Z.of_nat 1) with 1. by rewrite Z.ltb_irrefl, andb_false_r.
  - intros fuel l. unfold TraverseAll. destruct (traverse fetch fuel 1 []) as [[[all last]|m]|] eqn:Ht; [|done|done].
    apply traverse_items in Ht as (n & items & -> & Hf & Hl). intros Hc.
    replace (1 + Z.of_nat n) with (Z.of_nat (S n)) in * by lia.
    exists n, items, last. unfold check_count in Hc. destruct last as [i|]; [|by injection Hc as <-].
    destruct ((0 <? ri_TotalCount i) && _) eqn:Hcmp; [done|]. injection Hc as <-. cbn [app] in *.
    split; [done|]. split; [done|]. split; [done|].
    apply andb_false_iff in Hcmp. rewrite !Z.ltb_ge in Hcmp. destruct Hcmp; [|done].
    etransitivity; [eassumption|apply Nat2Z.is_nonneg].
Qed.

Definition three_pages (p : Z) : result (list Z * option ResultInfo) :=
  let info := Some {| ri_Page := 0; ri_PerPage := 2; ri_Count := 2; ri_TotalCount := 5; ri_TotalPages := 3 |} in
  if p =? 1 then Ok ([10; 20], info) else if p =? 2 then Ok ([30; 40], info)
  else if p =? 3 then Ok ([50], info) else Err "no such page".

Lemma TraverseAll_spec_witness : TraverseAll three_pages 3 = Some (Ok [10; 20; 30; 40; 50]).
Proof.
  apply (proj1 (TraverseAll_spec three_pages) 2%nat
    {| ri_Page := 0; ri_PerPage := 2; ri_Count := 2; ri_TotalCount := 5; ri_TotalPages := 3 |}); [|done|done].
  intros j Hj. destruct j as [|[|[|j]]]; [by eexists..|lia].
Defined.

End Pagination.

(** ** Provider resources and their normal form *)
Module Normalize.
Import Canonical Snapshot.

Record RuleConfiguration := { rc_Target : string; rc_Value : string }.
Record RuleScope := { rsc_ID : string; rsc_Name : string; rsc_Type : string }.

Record IPAccessRule := {
  ar_ID : string;
  ar_Mode : string;
  ar_Notes : string;
  ar_AllowedModes : list string;
  ar_Configuration : RuleConfiguration;
  ar_Paused : bool;
  ar_CreatedOn : Z;
  ar_ModifiedOn : Z;
  ar_Scope : option RuleScope;
}.

Record FirewallList := {
  fl_ID : string; fl_Name : string; fl_Description : string; fl_Kind : string; fl_NumItems : Z;
  fl_CreatedOn : Z; fl_ModifiedOn : Z;
}.

Record FirewallListItem := {
  fi_ID : string; fi_IP : string; fi_Comment : string; fi_CreatedOn : Z; fi_ModifiedOn : Z;
}.

Definition no_metadata : ObjectMetadata := {| om_SourcePage := 0; om_CapturedAt := 0; om_SchemaVersion := 0 |}.

Definition access_rule_key (r : IPAccessRule) : string :=
  "ip:" +:+ rc_Target (ar_Configuration r) +:+ ":" +:+ rc_Value (ar_Configuration r) +:+ ":" +:+ ar_Mode r.

(** Maps are written with their keys in order. *)
Definition access_rule_object (r : IPAccessRule) : NormalizedObject :=
  {| ObjectID := ar_ID r; ObjectType := ResourceIPAccessRules; StableIdentityKey := access_rule_key r;
     Attributes := [("configuration", VMap [("target", VString (rc_Target (ar_Configuration r)));
                                            ("value", VString (rc_Value (ar_Configuration r)))]);
                    ("mode", VString (ar_Mode r)); ("notes", VString (ar_Notes r))];
     no_Metadata := no_metadata |}.

Definition IPAccessRules (rules : list IPAccessRule) : list NormalizedObject := access_rule_object <$> rules.

Definition FirewallLists (lists : list FirewallList) : list NormalizedObject :=
  (fun l => {| ObjectID := fl_ID l; ObjectType := ResourceLists; StableIdentityKey := "list:" +:+ fl_Name l;
               Attributes := [("description", VString (fl_Description l)); ("kind", VString (fl_Kind l));
                              ("name", VString (fl_Name l))];
               no_Metadata := no_metadata |}) <$> lists.

Definition FirewallListItems (items : list FirewallListItem) : list NormalizedObject :=
  (fun i => {| ObjectID := fi_ID i; ObjectType := ResourceListItems; StableIdentityKey := "list_item:" +:+ fi_IP i;
               Attributes := [("comment", VString (fi_Comment i)); ("ip", VString (fi_IP i))];
               no_Metadata := no_metadata |}) <$> items.

Record Ruleset := {
  rs_ID : string; rs_Name : string; rs_Description : string; rs_Kind : string; rs_Phase : string; rs_LastUpdated : Z;
}.

Record RulesetRule := {
  rr_ID : string; rr_Version : string; rr_Action : string; rr_ActionParameters : value; rr_Expression : string;
  rr_Description : string; rr_Enabled : bool; rr_LastUpdated : Z; rr_Ref : string; rr_Categories : list string;
}.

Definition Rulesets (rulesets : list Ruleset) : list NormalizedObject :=
  (fun r => {| ObjectID := rs_ID r; ObjectType := ResourceRulesets;
               StableIdentityKey := "ruleset:" +:+ rs_Phase r +:+ ":" +:+ rs_Name r;
               Attributes := [("description", VString (rs_Description r)); ("kind", VString (rs_Kind r));
                              ("name", VString (rs_Name r)); ("phase", VString (rs_Phase r))];
               no_Metadata := no_metadata |}) <$> rulesets.

Definition rule_key (rulesetID : string) (i : nat) (r : RulesetRule) : string :=
  if bool_decide (rr_Ref r = "")
  then "rule:" +:+ rulesetID +:+ ":" +:+ GoFmt.fmt_d (Z.of_nat i) +:+ ":" +:+ rr_Action r
  else "rule:" +:+ rulesetID +:+ ":" +:+ rr_Ref r.

Definition RulesetRules (rulesetID : string) (rules : list RulesetRule) : list NormalizedObject :=
  imap (fun i r => {| ObjectID := rr_ID r; ObjectType := ResourceRulesetRules; StableIdentityKey := rule_key rulesetID i r;
    Attributes := [("action", VString (rr_Action r)); ("action_parameters", rr_ActionParameters r);
                   ("description", VString (rr_Description r)); ("enabled", VBool (rr_Enabled r));
                   ("expression", VString (rr_Expression r)); ("ref", VString (rr_Ref r))];
    no_Metadata := no_metadata |}) rules.

(** *** Identity keys *)
Fixpoint no_colon (s : string) : Prop :=
  match s with EmptyString => True | String a s' => a <> ":"%char /\ no_colon s' end.

Lemma colon_split s t x y : no_colon s -> no_colon t -> s +:+ String ":" x = t +:+ String ":" y -> s = t /\ x = y.
Proof.
  revert t. induction s as [|a s IH]; intros [|b t] Hs Ht; rewrite ?str_cons_app, ?str_nil_app.
  - by intros [= ->].
  - intros [= <- _]. by destruct Ht.
  - intros [= -> _]. by destruct Hs.
  - intros [= -> H]. destruct Hs as [_ Hs], Ht as [_ Ht]. destruct (IH t Hs Ht H) as [-> ->]. done.
Qed.

Lemma colon_split_last s t x y : no_colon x -> no_colon y -> s +:+ String ":" x = t +:+ String ":" y -> s = t /\ x = y.
Proof.
  revert t. induction s as [|a s IH]; intros [|b t] Hx Hy; rewrite ?str_cons_app, ?str_nil_app.
  - by intros [= ->].
  - intros [= <- ->]. exfalso. revert Hx. clear. induction t as [|c t IH]; rewrite ?str_cons_app, ?str_nil_app; cbn; tauto.
  - intros [= -> <-]. exfalso. revert Hy. clear. induction s as [|c s IH]; rewrite ?str_cons_app, ?str_nil_app; cbn; tauto.
  - intros [= -> H]. destruct (IH t Hx Hy H) as [-> ->]. done.
Qed.

(** The key of an access rule identifies its target, value and mode, the value
    being free to hold colons as IPv6 addresses do. *)
Lemma access_rule_key_inj r1 r2 :
  no_colon (rc_Target (ar_Configuration r1)) -> no_colon (rc_Target (ar_Configuration r2)) ->
  no_colon (ar_Mode r1) -> no_colon (ar_Mode r2) ->
  access_rule_key r1 = access_rule_key r2 -> ar_Configuration r1 = ar_Configuration r2 /\ ar_Mode r1 = ar_Mode r2.
Proof.
  unfold access_rule_key. intros Ht1 Ht2 Hm1 Hm2 H%(str_app_inv "ip:").
  apply colon_split in H as [Ht H]; [|done|done]. apply colon_split_last in H as [Hv Hm]; [|done|done].
  split; [|done]. destruct (ar_Configuration r1), (ar_Configuration r2). cbn in *. congruence.
Qed.

End Normalize.
