(* ===== verification/Translation.v ===== *)
(** * Plans as provider actions

    [internal/crowdsec/translator], [internal/crowdsec/models],
    [internal/crowdsec/validation], [internal/crowdsec/dryrun] and
    [internal/abuseipdb/translator]: the operations of a plan as CrowdSec
    decisions and as AbuseIPDB reports. *)

From S2P Require Import Prelude GoFmt Sha256 Events Reports Snapshot Planner.

Local Open Scope Z_scope.

(** ** CrowdSec ([crowdsec/translator/translator.go]) *)
Module CrowdSec.
Import Canonical Snapshot Planner.

Definition ActionAddDecision : string := "add_decision".
Definition ActionDeleteDecision : string := "delete_decision".

Record ExecutableOperation := {
  ExecutionID : string;
  eo_Type : string;
  eo_StableIdentityKey : string;
  eo_Scope : string;
  eo_Value : string;
  eo_Duration : string;
  eo_Reason : string;
  eo_Scenario : string;
  OriginatingOpID : string;
  eo_Provenance : ProvenanceMetadata;
  eo_CreatedAt : Z;
}.

Definition deriveExecutionID (type key opID : string) : string :=
  "exec-" +:+ String.substring 0 16 (Sha256.hex_digest (type +:+ ":" +:+ key +:+ ":" +:+ opID)).

(** The string at a key of a map that is itself at a key, or empty. *)
Definition config_string (payload : attrs) (k : string) : string :=
  match lookup_key "configuration" payload with
  | Some (VMap config) => match lookup_key k config with Some (VString s) => s | _ => "" end
  | _ => ""
  end.

Definition op_map : string := "crowdsec.translator.mapPayload".
Definition op_op : string := "crowdsec.translator.translateOperation".
Definition op_translate : string := "crowdsec.translator.Translate".

Definition action (now : Z) (prov : ProvenanceMetadata) (o : Operation) (type scope value duration reason scenario : string)
  : ExecutableOperation :=
  {| ExecutionID := deriveExecutionID type (TargetID o) (OperationID o); eo_Type := type;
     eo_StableIdentityKey := TargetID o; eo_Scope := scope; eo_Value := value; eo_Duration := duration;
     eo_Reason := reason; eo_Scenario := scenario; OriginatingOpID := OperationID o; eo_Provenance := prov;
     eo_CreatedAt := now |}.

Definition translateOperation (now : Z) (prov : ProvenanceMetadata) (o : Operation) : result ExecutableOperation :=
  if bool_decide (op_Type o = OpCreate) then
    match op_Payload o with
    | None => Err (wrap_msg op_op (wrap_msg op_map "payload is not a map"))
    | Some payload =>
        if bool_decide (ResourceType o = ResourceIPAccessRules) then
          Ok (action now prov o ActionAddDecision (config_string payload "target") (config_string payload "value")
                "24h" "synchronized from Cloudflare access rule" "manual-sync")
        else Err (wrap_msg op_op (wrap_msg op_map ("unsupported resource type: " +:+ ResourceType o)))
    end
  else if bool_decide (op_Type o = OpDelete) then
    Ok (action now prov o ActionDeleteDecision "" (TargetID o) "" "" "")
  else if bool_decide (op_Type o = OpUpdate) then
    Err (wrap_msg op_op "update operations not yet supported for CrowdSec")
  else Err (wrap_msg op_op ("unsupported operation type: " +:+ op_Type o)).

Fixpoint translate_all (now : Z) (prov : ProvenanceMetadata) (ops : list Operation) : result (list ExecutableOperation) :=
  match ops with
  | [] => Ok []
  | o :: ops =>
      match translateOperation now prov o with
      | Err m => Err (wrap_msg op_translate ("failed to translate operation " +:+ OperationID o +:+ ": " +:+ m))
      | Ok a => rbind (translate_all now prov ops) (fun l => Ok (a :: l))
      end
  end.

Definition action_lt (a b : ExecutableOperation) : bool :=
  if negb (bool_decide (eo_Type a = eo_Type b)) then str_lt (eo_Type a) (eo_Type b)
  else str_lt (eo_StableIdentityKey a) (eo_StableIdentityKey b).

Definition Translate (now : Z) (plan : option Plan) (prov : ProvenanceMetadata) : result (list ExecutableOperation) :=
  match plan with
  | None => Err (wrap_msg op_translate "plan is required")
  | Some p => rbind (translate_all now prov (Operations p)) (fun l => Ok (isort action_lt l))
  end.

(** ** Validation ([crowdsec/validation/validation.go]) *)
Definition ValidateSingle (a : ExecutableOperation) : result unit :=
  let op := "crowdsec.validation.ValidateSingle" in
  if bool_decide (ExecutionID a = "") then Err (wrap_msg op "missing ExecutionID")
  else if bool_decide (eo_Type a = "") then Err (wrap_msg op "missing ActionType")
  else if bool_decide (eo_StableIdentityKey a = "") then Err (wrap_msg op "missing StableIdentityKey")
  else if bool_decide (eo_Value a = "") then Err (wrap_msg op "missing target Value (IP/CIDR)")
  else if bool_decide (eo_Type a = ActionAddDecision) && bool_decide (eo_Scope a = "") then
    Err (wrap_msg op "missing Scope for addition")
  else Ok tt.

Definition batch_key (a : ExecutableOperation) : string := eo_Type a +:+ ":" +:+ eo_StableIdentityKey a.

Fixpoint validate_loop (seen : gset string) (actions : list ExecutableOperation) : result unit :=
  let op := "crowdsec.validation.Validate" in
  match actions with
  | [] => Ok tt
  | a :: actions =>
      match ValidateSingle a with
      | Err m => Err (wrap_msg op ("validation failed for execution " +:+ ExecutionID a +:+ ": " +:+ m))
      | Ok _ =>
          if bool_decide (batch_key a ∈ seen)
          then Err (wrap_msg op ("duplicate action detected in batch: " +:+ batch_key a))
          else validate_loop ({[batch_key a]} ∪ seen) actions
      end
  end.

Definition Validate (actions : list ExecutableOperation) : result unit := validate_loop ∅ actions.

(** ** Summaries ([crowdsec/dryrun/render.go]) *)
Record ExecutionSummary := {
  TotalActions : Z; Additions : Z; Deletions : Z; es_Actions : list ExecutableOperation;
}.

Definition count_type (t : string) (l : list ExecutableOperation) : Z :=
  Z.of_nat (length (List.filter (fun a => bool_decide (eo_Type a = t)) l)).

(** What [RenderJSON] marshals. *)
Definition summary (actions : list ExecutableOperation) : ExecutionSummary :=
  {| TotalActions := Z.of_nat (length actions); Additions := count_type ActionAddDecision actions;
     Deletions := count_type ActionDeleteDecision actions; es_Actions := actions |}.

Definition nl : string := bytes_str [10]%N.

Fixpoint dashes (n : nat) : string := match n with O => "" | S n => "-" +:+ dashes n end.

Definition render_action (i : nat) (a : ExecutableOperation) : string :=
  GoFmt.fmt_d (Z.of_nat i + 1) +:+ ". [" +:+ eo_Type a +:+ "] " +:+ eo_StableIdentityKey a +:+ nl +:+
  (if bool_decide (eo_Scope a = "") then "   Target: " +:+ eo_Value a +:+ nl
   else "   Target: " +:+ eo_Value a +:+ " (" +:+ eo_Scope a +:+ ")" +:+ nl) +:+
  (if bool_decide (eo_Scenario a = "") then "" else "   Scenario: " +:+ eo_Scenario a +:+ nl) +:+
  (if bool_decide (eo_Reason a = "") then "" else "   Reason: " +:+ eo_Reason a +:+ nl) +:+
  "   Origin: " +:+ OriginatingOpID a +:+ nl +:+ nl.

Definition RenderText (actions : list ExecutableOperation) : string :=
  match actions with
  | [] => "No actions planned."
  | _ => "CrowdSec Dry-Run Execution Plan:" +:+ nl +:+ dashes 40 +:+ nl +:+ str_join "" (imap render_action actions)
  end.

(** ** What is proved about actions *)
Definition sound (a : ExecutableOperation) : Prop :=
  ExecutionID a <> "" /\ eo_Type a <> "" /\ eo_StableIdentityKey a <> "" /\ eo_Value a <> "" /\
  (eo_Type a = ActionAddDecision -> eo_Scope a <> "").

Lemma ValidateSingle_ok a : ValidateSingle a = Ok tt <-> sound a.
Proof.
  unfold ValidateSingle, sound.
  do 4 (case_bool_decide; cbn; [split; [done|by intros (? & ? & ? & ? & _)]|]).
  case_bool_decide as Ht; case_bool_decide as Hs; cbn;
    split; intros Hv; try done; try (by repeat split); destruct Hv as (_ & _ & _ & _ & Hv); by destruct Hv.
Qed.

Lemma validate_loop_ok seen l : validate_loop seen l = Ok tt <->
  Forall sound l /\ NoDup (batch_key <$> l) /\ forall a, a ∈ l -> batch_key a ∉ seen.
Proof.
  revert seen. induction l as [|a l IH]; intros seen; cbn.
  { split; [intros _|done]. split; [constructor|]. split; [constructor|]. set_solver. }
  rewrite Forall_cons, NoDup_cons. pose proof (ValidateSingle_ok a) as Hv.
  destruct (ValidateSingle a) as [[]|m]; [|split; [done|]; intros [[Ha _] _]; by apply Hv in Ha].
  case_bool_decide as Hin.
  - split; [done|]. intros (_ & _ & Hs). by destruct (Hs a ltac:(by left)).
  - rewrite IH. split.
    + intros (Hl & Hnd & Hs). split; [split; [by apply Hv|done]|]. split.
      * split; [|done]. intros (x & He & Hx)%list_elem_of_fmap. apply (Hs x Hx). rewrite He. set_solver.
      * intros x [->|Hx]%elem_of_cons; [done|]. specialize (Hs x Hx). set_solver.
    + intros ([_ Hl] & [Hni Hnd] & Hs). split; [done|]. split; [done|]. intros x Hx.
      assert (batch_key x <> batch_key a) by (intros He; apply Hni; rewrite <- He; by apply list_elem_of_fmap_2).
      specialize (Hs x (list_elem_of_further _ _ _ Hx)). set_solver.
Qed.

(** The validator passes a batch exactly when every action is complete and no
    two of the same kind are about the same object. *)
Lemma Validate_ok_iff l : Validate l = Ok tt <-> Forall sound l /\ NoDup (batch_key <$> l).
Proof. unfold Validate. rewrite validate_loop_ok. set_solver. Qed.

Lemma translate_all_ok now prov ops l : translate_all now prov ops = Ok l <->
  Forall2 (fun o a => translateOperation now prov o = Ok a) ops l.
Proof.
  revert l. induction ops as [|o ops IH]; intros l; cbn; [split; [by intros [= <-]|by inversion 1]|].
  destruct (translateOperation now prov o) as [a|m] eqn:Ho.
  - unfold rbind. destruct (translate_all now prov ops) as [l'|m'].
    + split; [intros [= <-]; constructor; [done|by apply IH]|]. inversion 1 as [|? a' ? l2 Ha Hl]; subst.
      assert (Ok l' = Ok l2) as [= ->] by (by apply IH). congruence.
    + split; [done|]. inversion 1 as [|? ? ? l2 ? Hl]; subst. by apply IH in Hl.
  - split; [done|]. inversion 1; congruence.
Qed.

(** The deletion of each object. *)
Lemma translate_deletes now prov ops : Forall (fun o => op_Type o = OpDelete) ops ->
  translate_all now prov ops =
  Ok ((fun o => action now prov o ActionDeleteDecision "" (TargetID o) "" "" "") <$> ops).
Proof.
  induction 1 as [|o ops Ho _ IH]; [done|]. cbn. unfold translateOperation. rewrite Ho. cbn. by rewrite IH.
Qed.

End CrowdSec.

(** ** AbuseIPDB ([abuseipdb/translator/translator.go]) *)
Module AbuseTranslator.
Import Canonical Snapshot Planner Reports AbuseFormat.

Definition mapCategories (notes : string) : string :=
  let n := to_lower notes in
  let cats := (if str_contains n "ssh" then ["22"] else []) ++
              (if str_contains n "http" || str_contains n "wordpress" then ["21"; "19"] else []) ++
              (if str_contains n "bruteforce" then ["18"] else []) in
  match cats with [] => "21" | _ => str_join "," cats end.

Definition derive_report_id (ip opID : string) : string :=
  "report-" +:+ String.substring 0 16 (Sha256.hex_digest ("abuseipdb:" +:+ ip +:+ ":" +:+ opID)).

Definition buildCanonicalComment (notes opID : string) : string :=
  let lower := to_lower notes in
  let source := if str_contains lower "openresty" then SourceOpenRestyWAF else SourceCrowdSecWAF in
  let wp := str_contains lower "wordpress" || str_contains lower "xmlrpc" || str_contains lower "wp-login" in
  Build {| Source := source; Hits := 1; WindowSec := 300; Action := "block";
           AbuseType := if wp then "wordpress_probe" else "suspicious_probe";
           Categories := if wp then ["Web App Attack"; "Bad Web Bot"] else ["Bad Web Bot"];
           RuleID := opID;
           URIs := if wp then if str_contains lower "xmlrpc" then ["/xmlrpc.php"] else ["/wp-login.php"] else ["/"];
           Confidence := F64.div (F64.of_int 7) (F64.of_int 10) |}.

Definition string_field (k : string) (m : attrs) : string :=
  match lookup_key k m with Some (VString s) => s | _ => "" end.

Definition translate_report (now : Z) (o : Operation) : option ExecutableReport :=
  match op_Payload o with
  | None => None
  | Some payload =>
      if negb (bool_decide (Planner.ResourceType o = ResourceIPAccessRules)) then None
      else if negb (bool_decide (CrowdSec.config_string payload "target" = "ip")) then None
      else
        let ip := CrowdSec.config_string payload "value" in
        let notes := string_field "notes" payload in
        Some {| ExecutionID := derive_report_id ip (OperationID o); StableIdentityKey := TargetID o; rp_IP := ip;
                rp_Source := ""; rp_AbuseType := ""; rp_Categories := mapCategories notes;
                Comment := buildCanonicalComment notes (OperationID o); rp_Action := "";
                OriginatingOpID := OperationID o; rp_CreatedAt := now; rp_Hits := 0; rp_WindowSec := 0;
                rp_URIs := []; RuleIDs := []; Sources := []; ConfidenceSum := F64.zero; ConfidenceCount := 0;
                ConfidenceMax := F64.zero |}
  end.

(** Creations only; the operations that cannot be reported are passed over. *)
Definition abuse_Translate (now : Z) (plan : option Plan) : result (list ExecutableReport) :=
  match plan with
  | None => Err (wrap_msg "abuseipdb.translator.Translate" "plan is required")
  | Some p => Ok (omap (fun o => if bool_decide (op_Type o = OpCreate) then translate_report now o else None)
                    (Operations p))
  end.

End AbuseTranslator.
