(* ===== verification/Governor.v ===== *)
(** * Resource governor

    [internal/runtime/limiter/bucket.go] and
    [internal/runtime/governor/governor.go]: token buckets counted in binary64
    as the code does, and the budgets of providers. *)

From Stdlib Require Import SpecFloat.
From S2P Require Import Prelude Reports Sha256 RuntimeModels Events EventLog Lifecycle.

Local Open Scope Z_scope.

(** ** Token buckets *)
Module Bucket.
Import F64.

(** [Duration.Seconds]: whole seconds plus the rest in nanoseconds. *)
Definition seconds (d : Z) : float64 :=
  add (of_int (Z.quot d second)) (div (of_int (Z.rem d second)) (of_int second)).

Record Bucket := { capacity : float64; tokens : float64; refillRate : float64; lastRefill : Z }.

Definition NewBucket (now capacity rate interval : Z) : Bucket :=
  {| capacity := of_int capacity; tokens := of_int capacity;
     refillRate := div (of_int rate) (seconds interval); lastRefill := now |}.

Definition refill (now : Z) (b : Bucket) : Bucket :=
  let t := add (tokens b) (mul (seconds (t_sub now (lastRefill b))) (refillRate b)) in
  {| capacity := capacity b; tokens := if gtb t (capacity b) then capacity b else t;
     refillRate := refillRate b; lastRefill := now |}.

Definition Allow (now n : Z) (b : Bucket) : Bucket * bool :=
  let b := refill now b in
  if SFleb (of_int n) (tokens b)
  then ({| capacity := capacity b; tokens := sub (tokens b) (of_int n); refillRate := refillRate b;
           lastRefill := lastRefill b |}, true)
  else (b, false).

Definition Saturation (now : Z) (b : Bucket) : Bucket * float64 :=
  let b := refill now b in (b, sub (of_int 1) (div (tokens b) (capacity b))).

Definition allow_opt (now n : Z) (b : option Bucket) : option Bucket * bool :=
  match b with
  | None => (None, true)
  | Some b => let '(b, ok) := Allow now n b in (Some b, ok)
  end.

Record HierarchicalLimiter := { Global : option Bucket; Tenant : option Bucket; Scope : option Bucket }.

(** One bucket after the other; what an earlier one gave is not returned. *)
Definition limiter_Allow (now n : Z) (h : HierarchicalLimiter) : HierarchicalLimiter * bool :=
  let '(g, ok) := allow_opt now n (Global h) in
  let h := {| Global := g; Tenant := Tenant h; Scope := Scope h |} in
  if negb ok then (h, false)
  else
    let '(t, ok) := allow_opt now n (Tenant h) in
    let h := {| Global := Global h; Tenant := t; Scope := Scope h |} in
    if negb ok then (h, false)
    else
      let '(s, ok) := allow_opt now n (Scope h) in
      ({| Global := Global h; Tenant := Tenant h; Scope := s |}, ok).

(** After a refill the bucket is not above its capacity. *)
Lemma refill_capped now b : SFltb (capacity b) (capacity b) = false ->
  SFltb (capacity (refill now b)) (tokens (refill now b)) = false.
Proof. intros Hirr. unfold refill, gtb. cbn. by case_match. Qed.

(** [n] requests of one token at one instant, and how many are granted. *)
Fixpoint burst (n : nat) (now : Z) (b : Bucket) : Bucket * Z :=
  match n with
  | O => (b, 0)
  | S n => let '(b, ok) := Allow now 1 b in
           let '(b, k) := burst n now b in (b, if ok then k + 1 else k)
  end.

End Bucket.

(** ** Provider budgets *)
Module Governor.
Import Bucket Scope.

Definition ResourceRequest : string := "request".
Definition ResourceMutation : string := "mutation".
Definition ResourceDestructive : string := "destructive".

Record Limit := { MaxBurst : Z; Rate : Z; Interval : Z }.

Abbreviation Buckets := (gmap string (gmap string Bucket)).

Record ResourceGovernor := {
  globalBuckets : Buckets;   (** provider, then resource *)
  tenantBuckets : Buckets;
  scopeBuckets : Buckets;
}.

Definition NewGovernor : ResourceGovernor := {| globalBuckets := ∅; tenantBuckets := ∅; scopeBuckets := ∅ |}.

Definition RegisterProvider (now : Z) (name : string) (limits : gmap string Limit) (g : ResourceGovernor)
  : ResourceGovernor :=
  {| globalBuckets := <[name := (fun l => NewBucket now (MaxBurst l) (Rate l) (Interval l)) <$> limits]> (globalBuckets g);
     tenantBuckets := tenantBuckets g; scopeBuckets := scopeBuckets g |}.

Definition getBucket (owner resource : string) (m : Buckets) : option Bucket :=
  match m !! owner with Some t => t !! resource | None => None end.

(** The buckets are shared: a change is seen by the next call. *)
Definition putBucket (owner resource : string) (b : option Bucket) (m : Buckets) : Buckets :=
  match m !! owner, b with
  | Some t, Some b => <[owner := <[resource := b]> t]> m
  | _, _ => m
  end.

Definition governor_Allow (now : Z) (s : RuntimeScope) (provider resource : string) (n : Z) (g : ResourceGovernor)
  : ResourceGovernor * bool :=
  let '(h, ok) := limiter_Allow now n
    {| Global := getBucket provider resource (globalBuckets g);
       Bucket.Tenant := getBucket (Scope.Tenant s) resource (tenantBuckets g);
       Bucket.Scope := getBucket (ID s) resource (scopeBuckets g) |} in
  ({| globalBuckets := putBucket provider resource (Global h) (globalBuckets g);
      tenantBuckets := putBucket (Scope.Tenant s) resource (Bucket.Tenant h) (tenantBuckets g);
      scopeBuckets := putBucket (ID s) resource (Bucket.Scope h) (scopeBuckets g) |}, ok).

(** The greatest saturation of the provider's buckets, which it refills. *)
Definition pressure_step (now : Z) (acc : gmap string Bucket * F64.float64) (kb : string * Bucket)
  : gmap string Bucket * F64.float64 :=
  let '(b, s) := Saturation now kb.2 in
  (<[kb.1 := b]> acc.1, if F64.gtb s acc.2 then s else acc.2).

Definition Pressure (now : Z) (provider : string) (g : ResourceGovernor) : ResourceGovernor * F64.float64 :=
  match globalBuckets g !! provider with
  | None => (g, F64.zero)
  | Some prov =>
      let '(prov', max) := foldl (pressure_step now) (prov, F64.zero) (map_to_list prov) in
      ({| globalBuckets := <[provider := prov']> (globalBuckets g); tenantBuckets := tenantBuckets g;
          scopeBuckets := scopeBuckets g |}, max)
  end.

(** *** What the governor enforces *)
Inductive governed : ResourceGovernor -> Prop :=
| governed_new : governed NewGovernor
| governed_register now name limits g : governed g -> governed (RegisterProvider now name limits g)
| governed_allow now s p r n g : governed g -> governed (governor_Allow now s p r n g).1
| governed_pressure now p g : governed g -> governed (Pressure now p g).1.

Lemma governed_no_tenants g : governed g -> tenantBuckets g = ∅ /\ scopeBuckets g = ∅.
Proof.
  induction 1 as [|now name limits g _ [Ht Hs]|now s p r n g _ [Ht Hs]|now p g _ [Ht Hs]]; [done|done| |].
  - unfold governor_Allow. destruct (limiter_Allow now n _) as [h ok]. cbn. by rewrite Ht, Hs.
  - unfold Pressure. destruct (globalBuckets g !! p) as [prov|]; [|done].
    destruct (foldl _ _ _) as [prov' m]. done.
Qed.

(** A governor never limits a tenant or a scope: in every state that its
    operations can reach, whether a request is admitted depends on the
    provider's bucket alone, and a provider without a bucket for the resource
    is not limited. *)
Theorem governor_is_global now s provider resource n g : governed g ->
  (governor_Allow now s provider resource n g).2 =
  match getBucket provider resource (globalBuckets g) with
  | None => true
  | Some b => (Allow now n b).2
  end.
Proof.
  intros [Ht Hs]%governed_no_tenants. unfold governor_Allow. rewrite Ht, Hs. unfold limiter_Allow. cbn.
  destruct (getBucket provider resource (globalBuckets g)) as [b|]; cbn; [|done].
  destruct (Allow now n b) as [b' []]; done.
Qed.

(** The limits that the daemon registers for Cloudflare. *)
Definition cloudflare_limits : gmap string Limit :=
  {[ ResourceRequest := {| MaxBurst := 50; Rate := 10; Interval := minute |};
     ResourceMutation := {| MaxBurst := 10; Rate := 5; Interval := minute |} ]}.

Definition daemon_governor : ResourceGovernor := RegisterProvider 0 "cloudflare" cloudflare_limits NewGovernor.

Fixpoint requests (n : nat) (now : Z) (resource : string) (g : ResourceGovernor) : ResourceGovernor * Z :=
  match n with
  | O => (g, 0)
  | S n => let '(g, ok) := governor_Allow now zero_scope "cloudflare" resource 1 g in
           let '(g, k) := requests n now resource g in (g, if ok then k + 1 else k)
  end.

(** With the daemon's limits, sixty requests at once are granted fifty times,
    and a minute later ten more are; the same instant grants ten mutations, and
    deletions, for which there is no limit, always. *)
Example daemon_budget :
  let '(g, first) := requests 60 0 ResourceRequest daemon_governor in
  first = 50 /\ (requests 60 minute ResourceRequest g).2 = 10 /\
  (requests 60 0 ResourceMutation g).2 = 10 /\ (requests 60 0 ResourceDestructive g).2 = 60.
Proof. by vm_compute. Qed.

Lemma governor_is_global_witness :
  (governor_Allow 0 zero_scope "cloudflare" ResourceRequest 51 daemon_governor).2 = false /\
  (governor_Allow 0 zero_scope "abuseipdb" ResourceRequest 51 daemon_governor).2 = true.
Proof.
  rewrite !governor_is_global by (apply governed_register, governed_new). split; by vm_compute.
Defined.

End Governor.
