(* ===== verification/Pipeline.v ===== *)
(** * Reconciliation pipeline

    [internal/orchestrator/pipeline]: the orchestrator that drives a dry run
    (discovery, snapshot, plan, admission, translation, validation) and a
    rollback, over the state machine, the governor, the breaker, the ownership
    and policy checks, the lease manager and the rollback executor.  The state
    store is one object that the state machine and the lease manager share,
    and so are the event bus and the breaker.  The listing of the provider's
    rules is a parameter.  Times are the successive readings of a clock; the
    heartbeat of a rollback's lease does not tick during it. *)

From S2P Require Import Prelude GoFmt Sha256 Reports RuntimeModels Lease Events EventLog Lifecycle Scheduler Snapshot.
From S2P Require Import Planner Execution Rollback Ownership Policy Cloudflare Translation Governor.
Import Models StateStore.

Local Open Scope Z_scope.

(** ** Health ([runtime/health/health.go]) *)
Module Health.
Import Breaker.

(** The breaker is the one the orchestrator uses. *)
Record HealthManager := { h_startTime : Z; h_lastSuccess : Z; h_lastFailure : Z; h_consecutiveFails : Z }.

Record HealthStatus := {
  hs_Status : string; hs_LastSuccess : Z; hs_LastFailure : Z; hs_ConsecutiveFails : Z; hs_BreakerState : State;
  hs_Uptime : Z;
}.

Definition NewHealth (now : Z) : HealthManager :=
  {| h_startTime := now; h_lastSuccess := 0; h_lastFailure := 0; h_consecutiveFails := 0 |}.

Definition health_RecordSuccess (now : Z) (h : HealthManager) (cb : CircuitBreaker) : HealthManager * CircuitBreaker :=
  ({| h_startTime := h_startTime h; h_lastSuccess := now; h_lastFailure := h_lastFailure h; h_consecutiveFails := 0 |},
   RecordSuccess cb).

Definition health_RecordFailure (now : Z) (h : HealthManager) (cb : CircuitBreaker) : HealthManager * CircuitBreaker :=
  ({| h_startTime := h_startTime h; h_lastSuccess := h_lastSuccess h; h_lastFailure := now;
      h_consecutiveFails := h_consecutiveFails h + 1 |}, RecordFailure now cb).

Definition GetStatus (now : Z) (h : HealthManager) (cb : CircuitBreaker) : HealthStatus :=
  {| hs_Status := match state cb with
                  | StateOpen => "failing"
                  | _ => if 0 <? h_consecutiveFails h then "degraded" else "healthy"
                  end;
     hs_LastSuccess := h_lastSuccess h; hs_LastFailure := h_lastFailure h;
     hs_ConsecutiveFails := h_consecutiveFails h; hs_BreakerState := state cb; hs_Uptime := t_sub now (h_startTime h) |}.

End Health.

(** ** The orchestrator *)
Module Pipeline.
Import Events Scope StateMachine Breaker Snapshot Planner Mutations Executor RollbackModels RollbackPlanner RollbackExecutor
  Ownership PolicyEngine Admission Normalize CrowdSec AbuseTranslator Governor Health.

Definition EventRunStarted : string := "run_started".
Definition EventRunCompleted : string := "run_completed".
Definition EventRunFailed : string := "run_failed".
Definition EventBreakerState : string := "breaker_state_changed".
Definition EventQuarantined : string := "item_quarantined".

Record PipelineResult := {
  pr_StartTime : Z;
  pr_Duration : Z;
  pr_Discovered : Z;
  pr_ObjectCount : Z;
  pr_Checksum : string;
  pr_OperationCount : Z;
  pr_ActionCount : Z;
  pr_Plan : option Plan;
  pr_Actions : list ExecutableOperation;
  pr_Provenance : ProvenanceMetadata;
  pr_Success : bool;
}.

Section orchestrator.
Context {B C : Type} `{!EventBus B} `{!CheckpointManager C}.
Context {CS LR : Type} `{!ClaimStore CS} `{!LineageRecorder LR}.
Context {P : Type} `{!ProviderMutator P} {K : Type} `{!RollbackCheckpointStore K}.
Context {L : Type} `{!LeaseStore L}.

(** What is fixed when the orchestrator is built; the executor's fencing reads
    the lease store. *)
Record Orchestrator := {
  o_policies : list Policy;
  o_hasAbuse : bool;
  o_executor : option L -> GovernedExecutor;
  o_expiry : Z;
  o_scopeID : string;
}.

Record PWorld := {
  p_store : StateStore;
  p_bus : option B;
  p_ckpt : option C;
  p_gov : ResourceGovernor;
  p_health : HealthManager;
  p_owner : Resolver CS LR;
  p_leases : option L;
  p_exec : World (P := P);
  p_rollbacks : option K;
}.

Context (o : Orchestrator) (ctx : RuntimeContext).

Definition set_machine (m : StateMachine B C) (w : PWorld) : PWorld :=
  {| p_store := sm_store m; p_bus := sm_eventBus m; p_ckpt := sm_checkpoints m; p_gov := p_gov w;
     p_health := p_health w; p_owner := p_owner w; p_leases := p_leases w; p_exec := p_exec w;
     p_rollbacks := p_rollbacks w |}.
Definition set_gov (g : ResourceGovernor) (w : PWorld) : PWorld :=
  {| p_store := p_store w; p_bus := p_bus w; p_ckpt := p_ckpt w; p_gov := g; p_health := p_health w;
     p_owner := p_owner w; p_leases := p_leases w; p_exec := p_exec w; p_rollbacks := p_rollbacks w |}.
Definition set_health (h : HealthManager) (cb : CircuitBreaker) (w : PWorld) : PWorld :=
  {| p_store := p_store w; p_bus := p_bus w; p_ckpt := p_ckpt w; p_gov := p_gov w; p_health := h;
     p_owner := p_owner w; p_leases := p_leases w; p_exec := set_breaker cb (p_exec w); p_rollbacks := p_rollbacks w |}.
Definition set_owner (r : Resolver CS LR) (w : PWorld) : PWorld :=
  {| p_store := p_store w; p_bus := p_bus w; p_ckpt := p_ckpt w; p_gov := p_gov w; p_health := p_health w;
     p_owner := r; p_leases := p_leases w; p_exec := p_exec w; p_rollbacks := p_rollbacks w |}.
Definition set_leases (lm : LeaseManager.LeaseManager (L := L)) (w : PWorld) : PWorld :=
  {| p_store := LeaseManager.store lm; p_bus := p_bus w; p_ckpt := p_ckpt w; p_gov := p_gov w; p_health := p_health w;
     p_owner := p_owner w; p_leases := LeaseManager.leases lm; p_exec := p_exec w; p_rollbacks := p_rollbacks w |}.
Definition set_run (wc : RWorld (P := P) (C := K)) (w : PWorld) : PWorld :=
  {| p_store := p_store w; p_bus := p_bus w; p_ckpt := p_ckpt w; p_gov := p_gov w; p_health := p_health w;
     p_owner := p_owner w; p_leases := p_leases w; p_exec := wc.1; p_rollbacks := wc.2 |}.
Definition append_journal (a : AuditEvent) (w : PWorld) : PWorld :=
  set_run (append_entry a (p_exec w), p_rollbacks w) w.

Definition machine (w : PWorld) : StateMachine B C :=
  {| sm_store := p_store w; sm_eventBus := p_bus w; sm_checkpoints := p_ckpt w |}.
Definition lease_manager (w : PWorld) : LeaseManager.LeaseManager (L := L) :=
  {| LeaseManager.store := p_store w; LeaseManager.expiry := o_expiry o; LeaseManager.scopeID := o_scopeID o;
     LeaseManager.leases := p_leases w |}.
Definition breaker (w : PWorld) : CircuitBreaker := w_breaker (p_exec w).

Definition transition (t : Z) (to reason : string) (w : PWorld) : PWorld * result unit :=
  let '(m, r) := Transition t t ctx to reason (machine w) in (set_machine m w, r).

(** [_ = o.sm.Transition(...)]. *)
Definition transition_ (t : Z) (to reason : string) (w : PWorld) : PWorld := (transition t to reason w).1.

(** [bus.EventBus.Emit]: a lifecycle event of the default scope. *)
Definition Emit (t : Z) (eventType runID : string) (fields : list (string * Json.json)) (w : PWorld) : PWorld :=
  match p_bus w with
  | None => w
  | Some b =>
      let '(b, _) := eb_publish t
        {| r_UID := ""; r_Timestamp := 0; r_Category := CategoryLifecycle; r_Type := eventType;
           r_CorrelationID := runID; r_CausalID := ""; r_Actor := ""; r_ScopeID := "default";
           r_Payload := MapPayload fields; r_Metadata := None |} b in
      set_machine {| sm_store := p_store w; sm_eventBus := Some b; sm_checkpoints := p_ckpt w |} w
  end.

Definition record_failure_health (t : Z) (w : PWorld) : PWorld :=
  let '(h, cb) := health_RecordFailure t (p_health w) (breaker w) in set_health h cb w.
Definition record_success_health (t : Z) (w : PWorld) : PWorld :=
  let '(h, cb) := health_RecordSuccess t (p_health w) (breaker w) in set_health h cb w.

Definition deriveScope (zoneID : string) : RuntimeScope :=
  {| Tenant := "default"; AccountID := ""; ZoneID := zoneID; Environment := "" |}.

(** *** Stages of a dry run; [clk n] is the [n]-th reading of the clock, and
    [aclk] those made while ownership is resolved *)
Section dryrun.
Context (clk aclk : nat -> Z) (list_rules : string -> result (list IPAccessRule)).

Definition op_discovery : string := "orchestrator.pipeline.runDiscoveryStage".

Definition runDiscoveryStage (zoneID : string) (w : PWorld) : PWorld * result (list IPAccessRule) :=
  let '(g, ok) := governor_Allow (clk 1%nat) (deriveScope zoneID) "cloudflare" ResourceRequest 1 (p_gov w) in
  let w := set_gov g w in
  if negb ok then (w, Err (wrap_msg op_discovery "global resource budget exceeded"))
  else
    let '(w, r) := transition (clk 2%nat) StatusDiscovering "starting dry-run" w in
    match r with
    | Err m => (w, Err m)
    | Ok _ =>
        let '(cb, allowed) := Allow (clk 3%nat) (breaker w) in
        let w := set_health (p_health w) cb w in
        if negb allowed then
          let w := Emit (clk 4%nat) EventBreakerState "" [("state", Json.JString "open")] w in
          (transition_ (clk 5%nat) StatusFailed "breaker open" w,
           Err (wrap_msg op_discovery "circuit breaker is open"))
        else
          match list_rules zoneID with
          | Err m =>
              let w := record_failure_health (clk 6%nat) w in
              (transition_ (clk 7%nat) StatusFailed "discovery failed" w, Err m)
          | Ok rules => (w, Ok rules)
          end
    end.

Definition runSnapshotStage (rt : string) (rules : list IPAccessRule) (prov : ProvenanceMetadata) : result Snapshot :=
  let t := clk 9%nat in
  let a := Assembler.SetMetadata ("run-" +:+ GoFmt.fmt_d (unix_seconds t))
    {| src_Provider := "cloudflare"; src_Endpoint := ""; src_APIVersion := ""; src_CaptureMode := "" |}
    {| AccountIDHash := ""; ZoneIDHash := ""; ScopeType := "" |}
    {| Paginated := false; PageCount := 0; TotalExpected := 0; TotalObserved := 0; SequenceComplete := false;
       CursorChain := [] |} prov (Assembler.NewAssembler t rt) in
  let '(a, r) := Assembler.Add (IPAccessRules rules) a in
  match r with Err m => Err m | Ok _ => Ok (Assembler.asm_Build a) end.

Definition runNormalizationStage (rt : string) (rules : list IPAccessRule) (prov : ProvenanceMetadata) (w : PWorld)
  : PWorld * result Snapshot :=
  match runSnapshotStage rt rules prov with
  | Err m => (transition_ (clk 10%nat) StatusFailed "assembly failed" w, Err m)
  | Ok s => (w, Ok s)
  end.

(** A dry run compares what is there with nothing; the planner has no errors. *)
Definition runPlanningStage (s : Snapshot) : Plan := GenericPlan (clk 11%nat) (Some s) [].

Definition admission_context (t : Z) (target trace plan : string) (n : Z) (ids : list string) (w : PWorld)
  : EvaluationContext :=
  {| ec_Timestamp := t; ec_OperatorID := ""; ec_TargetType := target; ec_MutationCount := n; ec_Drift := F64.zero;
     ec_ResourceTypes := []; ec_ResourceIDs := ids; ec_BreakerState := GetState (breaker w);
     ec_InMaintenance := false; ec_TraceID := trace; ec_PlanID := plan; ec_BatchID := "" |}.

Definition authorize (clk : nat -> Z) (c : EvaluationContext) (w : PWorld) : PWorld * result AdmissionDecision :=
  let '(r, d) := Authorize clk (o_policies o) c (p_owner w) in (set_owner r w, d).

Definition runAdmissionStage (plan : Plan) (trace : string) (w : PWorld) : PWorld * result AdmissionDecision :=
  authorize aclk
    (admission_context (clk 12%nat) "mutation" trace (PlanID plan) (Z.of_nat (length (Operations plan)))
       (TargetID <$> Operations plan) w) w.

Definition runReportingStage (plan : Plan) (snapshotID : string) (w : PWorld) : PWorld :=
  if negb (o_hasAbuse o) then w
  else match abuse_Translate (clk 15%nat) (Some plan) with
       | Err m => Emit (clk 15%nat) EventQuarantined snapshotID
                    [("reason", Json.JString "abuseipdb_translation_failed"); ("error", Json.JString m)] w
       | Ok _ => w
       end.

Definition runValidationStage (actions : list ExecutableOperation) (w : PWorld) : PWorld * result unit :=
  match Validate actions with
  | Err m =>
      let w := record_failure_health (clk 16%nat) w in
      (transition_ (clk 17%nat) StatusFailed "validation failed" w, Err m)
  | Ok _ => (w, Ok tt)
  end.

Definition runTelemetryStage (s : Snapshot) (plan : Plan) (trace span : string) (w : PWorld) : PWorld :=
  let w := append_journal (run_audit (clk 19%nat) (SnapshotID s) "dry_run_completed" "") w in
  Emit (clk 19%nat) EventRunCompleted (SnapshotID s)
    [("op_count", Json.JInt (Z.of_nat (length (Operations plan)))); ("trace_id", Json.JString trace);
     ("span_id", Json.JString span)] w.

Definition runCompletionStage (s : Snapshot) (plan : Plan) (trace span : string) (w : PWorld) : PWorld :=
  let w := record_success_health (clk 18%nat) w in
  let w := runTelemetryStage s plan trace span w in
  let w := transition_ (clk 20%nat) StatusValidating "verifying convergence" w in
  let w := transition_ (clk 21%nat) StatusConverged "convergence confirmed" w in
  transition_ (clk 22%nat) StatusIdle "run completed" w.

Definition op_dryrun : string := "orchestrator.pipeline.DryRun".

(** The steps after the plan has been admitted. *)
Definition run_admitted (s : Snapshot) (plan : Plan) (prov : ProvenanceMetadata) (trace span : string) (w : PWorld)
  : PWorld * result (list ExecutableOperation) :=
  let '(w, r) := transition (clk 13%nat) StatusExecuting "admission granted" w in
  match r with
  | Err m => (w, Err m)
  | Ok _ =>
      match Translate (clk 14%nat) (Some plan) prov with
      | Err m => (transition_ (clk 15%nat) StatusFailed "translation failed" w, Err (wrap_msg op_dryrun m))
      | Ok actions =>
          let w := runReportingStage plan (SnapshotID s) w in
          let '(w, r) := runValidationStage actions w in
          match r with
          | Err m => (w, Err (wrap_msg op_dryrun m))
          | Ok _ => (runCompletionStage s plan trace span w, Ok actions)
          end
      end
  end.

(** The steps from the discovered rules on. *)
Definition run_discovered (rt : string) (rules : list IPAccessRule) (prov : ProvenanceMetadata) (trace span : string)
    (w : PWorld) : PWorld * result (Snapshot * Plan * list ExecutableOperation) :=
  let '(w, r) := transition (clk 8%nat) StatusPlanning "discovery completed" w in
  match r with
  | Err m => (w, Err m)
  | Ok _ =>
      let '(w, r) := runNormalizationStage rt rules prov w in
      match r with
      | Err m => (w, Err (wrap_msg op_dryrun m))
      | Ok s =>
          let plan := runPlanningStage s in
          let '(w, r) := runAdmissionStage plan trace w in
          match r with
          | Err m => (transition_ (clk 13%nat) StatusFailed "admission check failed" w, Err (wrap_msg op_dryrun m))
          | Ok d =>
              if negb (ad_Allowed d) then
                (transition_ (clk 13%nat) StatusIdle "admission denied" w,
                 Err (wrap_msg op_dryrun ("admission denied: " +:+ ad_Reason d)))
              else
                let '(w, r) := run_admitted s plan prov trace span w in
                (w, match r with Err m => Err m | Ok actions => Ok (s, plan, actions) end)
          end
      end
  end.

Definition DryRun (zoneID rt : string) (prov : ProvenanceMetadata) (trace span : string) (w : PWorld)
  : PWorld * result PipelineResult :=
  let w := Emit (clk 0%nat) EventRunStarted ""
    [("zone", Json.JString zoneID); ("resource", Json.JString rt); ("mode", Json.JString "dry-run")] w in
  let '(w, r) := runDiscoveryStage zoneID w in
  match r with
  | Err m => (w, Err (wrap_msg op_dryrun m))
  | Ok rules =>
      let '(w, r) := run_discovered rt rules prov trace span w in
      (w, match r with
          | Err m => Err m
          | Ok (s, plan, actions) =>
              Ok {| pr_StartTime := clk 0%nat; pr_Duration := t_sub (clk 18%nat) (clk 0%nat);
                    pr_Discovered := Z.of_nat (length rules); pr_ObjectCount := ObjectCount s;
                    pr_Checksum := SnapshotChecksum (sn_Integrity s);
                    pr_OperationCount := Z.of_nat (length (Operations plan));
                    pr_ActionCount := Z.of_nat (length actions); pr_Plan := Some plan; pr_Actions := actions;
                    pr_Provenance := prov; pr_Success := true |}
          end)
  end.

End dryrun.

(** *** Rollback *)
Section rollback.
Context (clk aclk : nat -> Z).

Definition resource_id (op : CompensationOperation) : string :=
  if negb (bool_decide (co_StableIdentityKey op = "")) then co_StableIdentityKey op
  else if negb (bool_decide (co_ProviderObjectID op = "")) then co_ProviderObjectID op
  else co_OperationID op.

Definition runRollbackAdmissionStage (b : RollbackBatch) (w : PWorld) : PWorld * result AdmissionDecision :=
  authorize aclk
    (admission_context (clk 4%nat) "rollback_mutation" (rb_ID b) (rb_OriginatingBatchID b)
       (Z.of_nat (length (rb_Operations b)))
       (List.filter (fun id => negb (bool_decide (id = ""))) (resource_id <$> rb_Operations b)) w) w.

Definition lease_op (l : Lease) (op : CompensationOperation) : CompensationOperation :=
  {| co_OperationID := co_OperationID op; co_OriginatingOpID := co_OriginatingOpID op; co_Type := co_Type op;
     co_ResourceType := co_ResourceType op; co_StableIdentityKey := co_StableIdentityKey op; co_State := co_State op;
     co_ProviderObjectID := co_ProviderObjectID op; co_Payload := co_Payload op;
     co_ExpectedPrecondition := co_ExpectedPrecondition op; co_ExpectedETag := co_ExpectedETag op;
     co_ResultID := co_ResultID op; co_StartedAt := co_StartedAt op; co_FinishedAt := co_FinishedAt op;
     co_Error := co_Error op; co_ScopeID := co_ScopeID op; co_LeaseID := l_ID l;
     co_FencingToken := l_FencingToken l; co_LeaseAction := l_Action l |}.

(** The batch's own lease fields are not read again and are left out. *)
Definition lease_batch (l : Lease) (b : RollbackBatch) : RollbackBatch :=
  set_batch (lease_op l <$> rb_Operations b) (rb_Status b) (rb_PlanHash b) (rb_OperationIDs b) (rb_OperationCount b)
    (rb_LastCompletedOpIdx b) (rb_StartedAt b) (rb_FinishedAt b) b.

Definition runExecutionStage (b : RollbackBatch) (w : PWorld) : PWorld * result unit :=
  let x := p_exec w in
  let x := {| w_now := clk 6%nat; w_breaker := w_breaker x; w_journal := w_journal x; w_sink := w_sink x;
              w_evidence := w_evidence x; w_prov := w_prov x; w_calls := w_calls x |} in
  let '(wc, r) := ExecuteRollback (o_executor o (p_leases w)) b (x, p_rollbacks w) in
  let w := set_run wc w in
  match r with
  | Err m =>
      let w := Emit (clk 7%nat) EventRunFailed (rb_ID b) [("error", Json.JString m)] w in
      (transition_ (clk 7%nat) StatusQuarantined "rollback failed" w, Err m)
  | Ok _ => (w, Ok tt)
  end.

Definition op_rollback : string := "orchestrator.pipeline.Rollback".

(** The run under the lease. *)
Definition rollback_under (l : Lease) (ep : Epoch) (forward : MutationBatch) (reason : string) (w : PWorld)
  : PWorld * result unit :=
  let w := Emit (clk 1%nat) EventRunStarted ""
    [("batch", Json.JString (mb_ID forward)); ("mode", Json.JString "rollback"); ("reason", Json.JString reason);
     ("epoch", Json.JString (e_ID ep))] w in
  let w := transition_ (clk 2%nat) StatusRollbackRequired "triggering rollback" w in
  match GenerateRollbackBatch (clk 3%nat) forward reason with
  | Err m => (transition_ (clk 3%nat) StatusFailed "rollback planning failed" w, Err (wrap_msg op_rollback m))
  | Ok b =>
      let b := lease_batch l b in
      let '(w, r) := runRollbackAdmissionStage b w in
      match r with
      | Err m => (transition_ (clk 5%nat) StatusFailed "rollback admission failed" w, Err (wrap_msg op_rollback m))
      | Ok d =>
          if negb (ad_Allowed d) then
            (transition_ (clk 5%nat) StatusRollbackRequired "rollback admission denied" w,
             Err (wrap_msg op_rollback ("rollback admission denied: " +:+ ad_Reason d)))
          else
            let w := transition_ (clk 5%nat) StatusRollingBack "executing rollback" w in
            let '(w, r) := runExecutionStage b w in
            match r with
            | Err m => (w, Err (wrap_msg op_rollback m))
            | Ok _ =>
                let w := Emit (clk 8%nat) EventRunCompleted (rb_ID b) [("status", Json.JString "rolled_back")] w in
                (transition_ (clk 9%nat) StatusIdle "rollback completed" w, Ok tt)
            end
      end
  end.

Definition release (leaseID : string) (w : PWorld) : PWorld :=
  set_leases (LeaseManager.Release leaseID (lease_manager w)).1 w.

Definition Rollback (forward : MutationBatch) (reason : string) (w : PWorld) : PWorld * result unit :=
  let '(lm, r) := LeaseManager.Acquire (clk 0%nat) "orchestrator" "rollback" "" (lease_manager w) in
  let w := set_leases lm w in
  match r with
  | Err m => (w, Err (wrap_msg op_rollback m))
  | Ok (l, ep) =>
      let '(w, r) := rollback_under l ep forward reason w in
      (release (l_ID l) w, r)
  end.

End rollback.

(** ** What does not depend on the bus and the checkpoints *)
Definition status (w : PWorld) : string := status_of (machine w).
Definition disk_ok (w : PWorld) : Prop := disk_error (p_store w) = None.

(** What the outside sees of a world: the provider, the calls it got, the
    leases, the rollbacks and the claims in force. *)
Definition same_outside (w w' : PWorld) : Prop :=
  w_prov (p_exec w') = w_prov (p_exec w) /\ w_calls (p_exec w') = w_calls (p_exec w) /\
  p_leases w' = p_leases w /\ p_rollbacks w' = p_rollbacks w /\
  domains (p_owner w') = domains (p_owner w) /\ Ownership.store (p_owner w') = Ownership.store (p_owner w).

#[global] Instance same_outside_refl : Reflexive same_outside.
Proof. done. Qed.
#[global] Instance same_outside_trans : Transitive same_outside.
Proof. unfold same_outside. intros x y z. intuition congruence. Qed.

Lemma transition_outside t to reason w : same_outside w (transition t to reason w).1.
Proof. unfold transition. by destruct (Transition _ _ _ _ _ _). Qed.
Lemma transition__outside t to reason w : same_outside w (transition_ t to reason w).
Proof. apply transition_outside. Qed.
Lemma Emit_outside t ty id fs w : same_outside w (Emit t ty id fs w).
Proof. unfold Emit. destruct (p_bus w); [|done]. by destruct (eb_publish _ _ _). Qed.
Lemma authorize_outside clk c w : same_outside w (authorize clk c w).1.
Proof.
  unfold authorize. pose proof (check_owners_spec clk (ec_ResourceIDs c) (p_owner w)) as H. unfold Authorize.
  destruct (check_owners clk _ (p_owner w)) as [r' d]. destruct H as (? & ? & _). by repeat split.
Qed.
Lemma discovery_outside clk lr zone w : same_outside w (runDiscoveryStage clk lr zone w).1.
Proof.
  unfold runDiscoveryStage. destruct (governor_Allow _ _ _ _ _ _) as [g ok]. destruct ok; [|done]. cbn [negb].
  pose proof (transition_outside (clk 2%nat) StatusDiscovering "starting dry-run" (set_gov g w)) as Ht.
  destruct (transition (clk 2%nat) _ _ (set_gov g w)) as [w1 [[]|m]]; cbn [fst] in Ht; [|done].
  etransitivity; [exact Ht|]. destruct (Allow _ _) as [cb ok].
  destruct ok; cbn [negb]; [destruct (lr zone); [done|]|]; (etransitivity; [|apply transition__outside]); [done|].
  etransitivity; [|apply Emit_outside]. done.
Qed.

Lemma admitted_outside clk s plan prov trace span w : same_outside w (run_admitted clk s plan prov trace span w).1.
Proof.
  unfold run_admitted. pose proof (transition_outside (clk 13%nat) StatusExecuting "admission granted" w) as Ht.
  destruct (transition (clk 13%nat) _ _ w) as [w1 [[]|m]]; cbn [fst] in Ht; [|done]. etransitivity; [exact Ht|].
  destruct (Translate _ _ _) as [actions|m]; [|apply transition__outside].
  set (w2 := runReportingStage clk plan (SnapshotID s) w1). transitivity w2.
  { unfold w2, runReportingStage. by destruct (o_hasAbuse o). }
  unfold runValidationStage. destruct (Validate actions) as [[]|m]; cbn [fst].
  - unfold runCompletionStage, runTelemetryStage. do 3 (etransitivity; [|apply transition__outside]).
    etransitivity; [|apply Emit_outside]. done.
  - etransitivity; [|apply transition__outside]. done.
Qed.

Lemma discovered_outside clk aclk rt rules prov trace span w :
  same_outside w (run_discovered clk aclk rt rules prov trace span w).1.
Proof.
  unfold run_discovered. pose proof (transition_outside (clk 8%nat) StatusPlanning "discovery completed" w) as Ht.
  destruct (transition (clk 8%nat) _ _ w) as [w1 [[]|m]]; cbn [fst] in Ht; [|done]. etransitivity; [exact Ht|].
  unfold runNormalizationStage. destruct (runSnapshotStage clk rt rules prov) as [s|m]; [|apply transition__outside].
  pose proof (authorize_outside aclk) as Ha. unfold runAdmissionStage.
  lazymatch goal with |- context [authorize aclk ?c w1] => specialize (Ha c w1); destruct (authorize aclk c w1) as [w2 d] end.
  cbn [fst] in Ha. etransitivity; [exact Ha|]. destruct d as [d|m]; [|apply transition__outside].
  destruct (ad_Allowed d); cbn [negb]; [|apply transition__outside].
  pose proof (admitted_outside clk s (runPlanningStage clk s) prov trace span w2) as Hr.
  destruct (run_admitted _ _ _ _ _ _ _) as [w3 r]. exact Hr.
Qed.

(** ** Statuses *)

(** A bus and a checkpoint manager that do not fail. *)
Definition reliable : Prop :=
  (forall t q (b : B), is_ok (eb_publish t q b).2 = true) /\
  (forall s tr ev st (c : C), is_ok (cm_save s tr ev st c).2 = true) /\
  (forall n s tr ev st (c : C), is_ok (cm_save_named n s tr ev st c).2 = true).

(** The parts of a world that a transition and an emission leave alone. *)
Definition same_rest (w w' : PWorld) : Prop :=
  p_gov w' = p_gov w /\ p_health w' = p_health w /\ p_owner w' = p_owner w /\ p_leases w' = p_leases w /\
  p_exec w' = p_exec w /\ p_rollbacks w' = p_rollbacks w.

Lemma Transition_reliable t to reason (m : StateMachine B C) : reliable -> disk_error (sm_store m) = None ->
  isTransitionAllowed (status_of m) to = true -> (Transition t t ctx to reason m).2 = Ok tt.
Proof.
  intros (Hb & Hc & Hn) Hd Ha. unfold Transition. fold (status_of m). rewrite Ha. cbn [negb]. unfold Save. rewrite Hd.
  cbn. destruct (sm_eventBus m) as [b|]; [|done].
  lazymatch goal with |- context [eb_publish ?x ?q b] => specialize (Hb x q b); destruct (eb_publish x q b) as [b' [ev|e]] end;
    [|done]. cbn. destruct (sm_checkpoints m) as [c|]; [|done]. unfold save_checkpoints.
  assert (forall x : C * result unit, is_ok x.2 = true -> exists c', x = (c', Ok tt)) as Hok.
  { intros [c' [[]|e]]; [by eexists|done]. }
  lazymatch goal with |- context [cm_save ?s ?tr ?ev ?st c] =>
    destruct (Hok _ (Hc s tr ev st c)) as [c1 ->] end.
  lazymatch goal with |- context [if bool_decide (to = StatusRollingBack) then ?x else ?y] =>
    assert (exists c2, (if bool_decide (to = StatusRollingBack) then x else y) = (c2, Ok tt)) as [c2 ->] end.
  { repeat case_bool_decide; [apply Hok, Hn|apply Hok, Hn|by eexists]. }
  lazymatch goal with |- context [if ?x && ?y then _ else _] => destruct (x && y) end; [|done].
  lazymatch goal with |- context [cm_save_named ?n ?s ?tr ?ev ?st c2] =>
    destruct (Hok _ (Hn n s tr ev st c2)) as [c3 ->] end. done.
Qed.

Lemma transition_ok t to reason w : reliable -> disk_ok w -> isTransitionAllowed (status w) to = true ->
  exists w', transition t to reason w = (w', Ok tt) /\ status w' = to /\ disk_ok w' /\ same_rest w w'.
Proof.
  intros Hr Hd Ha. unfold transition. pose proof (Transition_reliable t to reason (machine w) Hr Hd Ha) as Hok.
  pose proof (Scheduler.Transition_moves t t ctx to reason (machine w) Ha Hd) as Hm.
  destruct (Transition t t ctx to reason (machine w)) as [m r]. cbn [snd fst] in *. subst r.
  exists (set_machine m w). destruct Hm as (Hs & Hd' & _).
  { intros ->. by rewrite isTransitionAllowed_nonempty in Ha. }
  split; [done|]. split; [by rewrite <- Hs; destruct m|]. by split.
Qed.

Lemma transition_refused t to reason w : isTransitionAllowed (status w) to = false ->
  transition t to reason w =
  (w, Err (wrap_msg op_transition ("invalid transition from " +:+ status w +:+ " to " +:+ to))).
Proof. intros Ha. unfold transition, Transition. fold (status_of (machine w)). fold (status w). rewrite Ha. by destruct w. Qed.

Lemma transition__cases t to reason w : reliable -> disk_ok w ->
  let w' := transition_ t to reason w in
  disk_ok w' /\ same_rest w w' /\ status w' = if isTransitionAllowed (status w) to then to else status w.
Proof.
  intros Hr Hd. unfold transition_. destruct (isTransitionAllowed (status w) to) eqn:Ha.
  - destruct (transition_ok t to reason w Hr Hd Ha) as (w' & -> & ? & ? & ?). done.
  - by rewrite transition_refused.
Qed.

Lemma Emit_cases t ty id fs w : let w' := Emit t ty id fs w in
  p_store w' = p_store w /\ same_rest w w'.
Proof. unfold Emit. destruct (p_bus w); [|done]. by destruct (eb_publish _ _ _). Qed.

Definition may_start (clk : nat -> Z) (zoneID : string) (w : PWorld) : Prop :=
  (governor_Allow (clk 1%nat) (deriveScope zoneID) "cloudflare" ResourceRequest 1 (p_gov w)).2 = true /\
  isTransitionAllowed (status w) StatusDiscovering = true /\ (Allow (clk 3%nat) (breaker w)).2 = true.

Lemma status_store w w' : p_store w' = p_store w -> status w' = status w /\ (disk_ok w -> disk_ok w').
Proof. unfold status, status_of, disk_ok. cbn. by intros ->. Qed.

Lemma discovery_status clk lr zone w : reliable -> disk_ok w ->
  let '(w', r) := runDiscoveryStage clk lr zone w in
  disk_ok w' /\ p_owner w' = p_owner w /\
  match r with
  | Ok rules => lr zone = Ok rules /\ status w' = StatusDiscovering /\ may_start clk zone w /\
                breaker w' = (Allow (clk 3%nat) (breaker w)).1
  | Err _ => (~ may_start clk zone w \/ exists m, lr zone = Err m) /\ status w' ∈ [status w; StatusFailed]
  end.
Proof.
  intros Hr Hd. unfold runDiscoveryStage, may_start. destruct (governor_Allow _ _ _ _ _ _) as [g ok]. cbn [snd].
  destruct ok; cbn [negb]; [|split; [done|]; split; [done|]; split; [naive_solver|by left]].
  destruct (isTransitionAllowed (status w) StatusDiscovering) eqn:Ha.
  - destruct (transition_ok (clk 2%nat) StatusDiscovering "starting dry-run" (set_gov g w) Hr Hd Ha)
      as (w1 & -> & Hs & Hd1 & (_ & Hh & Ho & _ & He & _)).
    assert (breaker w1 = breaker w) as Hb by (unfold breaker; by rewrite He).
    rewrite Hb. destruct (Allow _ (breaker w)) as [cb ok]. cbn [snd].
    destruct ok; cbn [negb]; [destruct (lr zone) as [rules|m]|].
    + done.
    + destruct (transition__cases (clk 7%nat) StatusFailed "discovery failed"
        (record_failure_health (clk 6%nat) (set_health (p_health w1) cb w1)) Hr Hd1) as (Hd2 & (_ & _ & Ho2 & _) & Hs2).
      split; [done|]. split; [by rewrite Ho2|]. split; [right; by eexists|].
      rewrite Hs2. change (status (record_failure_health _ _)) with (status w1). rewrite Hs. by right; left.
    + destruct (Emit_cases (clk 4%nat) EventBreakerState "" [("state", Json.JString "open")] (set_health (p_health w1) cb w1))
        as [Hst (_ & _ & Ho2 & _)]. set (w2 := Emit _ _ _ _ _) in *.
      destruct (status_store _ _ Hst) as [Hs2 Hd2].
      destruct (transition__cases (clk 5%nat) StatusFailed "breaker open" w2 Hr (Hd2 Hd1)) as (Hd3 & (_ & _ & Ho3 & _) & Hs3).
      split; [done|]. split; [by rewrite Ho3, Ho2|]. split; [left; naive_solver|].
      rewrite Hs3, Hs2. change (status (set_health _ _ _)) with (status w1). rewrite Hs. by right; left.
  - rewrite transition_refused by done. split; [done|]. split; [done|]. split; [naive_solver|by left].
Qed.

(** A snapshot of access rules exists when their keys are distinct. *)
Lemma snapshot_stage clk rt rules prov :
  match runSnapshotStage clk rt rules prov with
  | Ok s => NoDup (access_rule_key <$> rules) /\ Objects s ≡ₚ IPAccessRules rules
  | Err _ => ~ NoDup (access_rule_key <$> rules)
  end.
Proof.
  unfold runSnapshotStage. set (a := Assembler.SetMetadata _ _ _ _ _ _).
  pose proof (Assembler.Add_ok (IPAccessRules rules) a) as Hok. change (Assembler.a_objects a) with (∅ : gmap string NormalizedObject) in Hok.
  assert (Assembler.addable ∅ (IPAccessRules rules) <-> NoDup (access_rule_key <$> rules)) as Hadd.
  { unfold Assembler.addable, IPAccessRules. rewrite <- list_fmap_compose. split; [by intros [? _]|].
    intros Hn. split; [done|]. apply Forall_fmap, Forall_true. done. }
  pose proof (Assembler.assembled_objects a (IPAccessRules rules) eq_refl) as Hobj.
  destruct (Assembler.Add (IPAccessRules rules) a) as [a' [[]|m]]; cbn in Hok, Hobj.
  - assert (Assembler.addable ∅ (IPAccessRules rules)) as Ha by by apply Hok.
    split; [by apply Hadd|by apply Hobj].
  - intros Hn. by apply Hadd, Hok in Hn.
Qed.

(** The plan of a dry run deletes every object. *)
Lemma planning_stage clk s : let ops := Operations (runPlanningStage clk s) in
  Forall (fun op => op_Type op = OpDelete) ops /\ TargetID <$> ops ≡ₚ StableIdentityKey <$> Objects s.
Proof.
  cbv zeta. unfold runPlanningStage, GenericPlan. cbn [Operations].
  assert (deletions (clk 11%nat) (current_objects (Some s)) [] ++ changes (clk 11%nat) (current_objects (Some s)) [] =
          delete_op (clk 11%nat) <$> Objects s) as ->.
  { unfold deletions, changes. cbn. rewrite app_nil_r. induction (Objects s) as [|x l IH]; [done|]. cbn.
    rewrite lookup_empty. by rewrite IH. }
  split.
  - apply Forall_forall. intros op Hop. apply elem_of_isort, list_elem_of_fmap in Hop as (x & -> & _). done.
  - rewrite (isort_perm op_lt), <- list_fmap_compose. done.
Qed.

(** Deletions of distinct objects translate and validate. *)
Lemma actions_valid t prov plan : Forall (fun op => op_Type op = OpDelete) (Operations plan) ->
  NoDup (TargetID <$> Operations plan) -> Forall (fun op => TargetID op <> "") (Operations plan) ->
  exists actions, Translate t (Some plan) prov = Ok actions /\ Validate actions = Ok tt /\
    eo_StableIdentityKey <$> actions ≡ₚ TargetID <$> Operations plan /\
    Forall (fun a => eo_Type a = ActionDeleteDecision) actions.
Proof.
  intros Hdel Hnd Hne. cbn. rewrite translate_deletes by done. cbn. eexists. split; [done|].
  set (acts := (fun o0 : Operation => _) <$> Operations plan).
  assert (eo_StableIdentityKey <$> acts = TargetID <$> Operations plan) as Hk by (unfold acts; by rewrite <- list_fmap_compose).
  assert (forall a, a ∈ acts -> eo_Type a = ActionDeleteDecision /\ sound a) as Ha.
  { intros a (op & -> & Hop)%list_elem_of_fmap. rewrite Forall_forall in Hne. specialize (Hne op Hop).
    split; [done|]. by repeat split. }
  split; [|split; [by rewrite (isort_perm action_lt), Hk|apply Forall_forall; intros a ?%elem_of_isort; by apply Ha]].
  apply Validate_ok_iff. split; [apply Forall_forall; intros a ?%elem_of_isort; by apply Ha|].
  rewrite (isort_perm action_lt).
  assert (batch_key <$> acts = (fun k => ActionDeleteDecision +:+ ":" +:+ k) <$> (eo_StableIdentityKey <$> acts)) as ->.
  { rewrite <- list_fmap_compose. apply list_fmap_ext. intros i a Hi%list_elem_of_lookup_2. unfold batch_key, compose.
    by destruct (Ha a Hi) as [-> _]. }
  rewrite Hk. apply NoDup_fmap_2; [|done]. intros x y H%str_app_inv. by apply (str_app_inv ":") in H.
Qed.

Lemma admitted_status clk s plan prov trace span w : reliable -> disk_ok w -> status w = StatusPlanning ->
  Forall (fun op => op_Type op = OpDelete) (Operations plan) -> NoDup (TargetID <$> Operations plan) ->
  Forall (fun op => TargetID op <> "") (Operations plan) ->
  exists w' actions, run_admitted clk s plan prov trace span w = (w', Ok actions) /\
    status w' = StatusIdle /\ disk_ok w' /\ state (breaker w') = StateClosed /\ h_consecutiveFails (p_health w') = 0 /\
    eo_StableIdentityKey <$> actions ≡ₚ TargetID <$> Operations plan /\
    Forall (fun a => eo_Type a = ActionDeleteDecision) actions.
Proof.
  intros Hr Hd Hs Hdel Hnd Hne. unfold run_admitted.
  destruct (transition_ok (clk 13%nat) StatusExecuting "admission granted" w Hr Hd) as (w1 & -> & Hs1 & Hd1 & _);
    [by rewrite Hs|].
  destruct (actions_valid (clk 14%nat) prov plan Hdel Hnd Hne) as (actions & -> & Hv & Hkeys & Htypes).
  assert (runReportingStage clk plan (SnapshotID s) w1 = w1) as -> by (unfold runReportingStage; by destruct (o_hasAbuse o)).
  unfold runValidationStage. rewrite Hv. eexists _, actions. split; [done|].
  unfold runCompletionStage, runTelemetryStage.
  set (w2 := append_journal _ _).
  assert (status w2 = StatusExecuting) as Hs2 by exact Hs1. assert (disk_ok w2) as Hd2 by exact Hd1.
  assert (state (breaker w2) = StateClosed /\ h_consecutiveFails (p_health w2) = 0) as Hb2 by done.
  lazymatch goal with |- context [Emit ?x ?y ?z ?f w2] =>
    destruct (Emit_cases x y z f w2) as [Hst3 (_ & Hh3 & _ & _ & He3 & _)]; set (w3 := Emit x y z f w2) in * end.
  destruct (status_store _ _ Hst3) as [Hs3 Hd3]. specialize (Hd3 Hd2). rewrite Hs2 in Hs3.
  destruct (transition__cases (clk 20%nat) StatusValidating "verifying convergence" w3 Hr Hd3)
    as (Hd4 & (_ & Hh4 & _ & _ & He4 & _) & Hs4). set (w4 := transition_ _ _ _ w3) in *. rewrite Hs3 in Hs4.
  destruct (transition__cases (clk 21%nat) StatusConverged "convergence confirmed" w4 Hr Hd4)
    as (Hd5 & (_ & Hh5 & _ & _ & He5 & _) & Hs5). set (w5 := transition_ _ _ _ w4) in *. rewrite Hs4 in Hs5.
  destruct (transition__cases (clk 22%nat) StatusIdle "run completed" w5 Hr Hd5)
    as (Hd6 & (_ & Hh6 & _ & _ & He6 & _) & Hs6). rewrite Hs5 in Hs6. cbn in Hs6.
  split; [exact Hs6|]. split; [done|].
  unfold breaker. rewrite He6, He5, He4, He3, Hh6, Hh5, Hh4, Hh3. done.
Qed.

Definition deny_message (m : string) : Prop :=
  exists reason, m = wrap_msg op_dryrun ("admission denied: " +:+ reason).

(** What the policies see of a dry run of [n] deletions. *)
Definition dry_context (cb : CircuitBreaker) (n : nat) : EvaluationContext :=
  {| ec_Timestamp := 0; ec_OperatorID := ""; ec_TargetType := "mutation"; ec_MutationCount := Z.of_nat n;
     ec_Drift := F64.zero; ec_ResourceTypes := []; ec_ResourceIDs := []; ec_BreakerState := GetState cb;
     ec_InMaintenance := false; ec_TraceID := ""; ec_PlanID := ""; ec_BatchID := "" |}.

(** Distinct keys of the discovered rules, all granted to the synchroniser,
    and no enabled rule of the policies that applies, matches and denies. *)
Definition admits (rules : list IPAccessRule) (owner : Resolver CS LR) (cb : CircuitBreaker) : Prop :=
  NoDup (access_rule_key <$> rules) /\
  (forall k, k ∈ access_rule_key <$> rules -> granted owner k) /\
  ~ exists pr, pr ∈ hits (dry_context cb (length rules)) (o_policies o) /\ ru_Decision pr.2 = DecisionDeny.

Definition completed_run (rules : list IPAccessRule) (actions : list ExecutableOperation) (w : PWorld) : Prop :=
  status w = StatusIdle /\ state (breaker w) = StateClosed /\ h_consecutiveFails (p_health w) = 0 /\
  eo_StableIdentityKey <$> actions ≡ₚ access_rule_key <$> rules /\
  Forall (fun a => eo_Type a = ActionDeleteDecision) actions.

Lemma discovered_status clk aclk rt rules prov trace span w : reliable -> disk_ok w -> status w = StatusDiscovering ->
  let '(w', r) := run_discovered clk aclk rt rules prov trace span w in
  disk_ok w' /\
  match r with
  | Ok (_, actions) => admits rules (p_owner w) (breaker w) /\ completed_run rules actions w'
  | Err m => ~ admits rules (p_owner w) (breaker w) /\
      (status w' = StatusFailed \/ (status w' = StatusPlanning /\ deny_message m)) /\
      (NoDup (access_rule_key <$> rules) ->
       (forall k, k ∈ access_rule_key <$> rules -> is_ok (claim_in_force k (p_owner w)) = true) ->
       is_Some (domains (p_owner w) !! "cf-sync") -> status w' = StatusPlanning)
  end.
Proof.
  intros Hr Hd Hs. unfold run_discovered.
  destruct (transition_ok (clk 8%nat) StatusPlanning "discovery completed" w Hr Hd) as (w1 & -> & Hs1 & Hd1 & (_ & _ & Ho1 & _ & He1 & _));
    [by rewrite Hs|].
  assert (breaker w1 = breaker w) as Hb1 by (unfold breaker; by rewrite He1).
  unfold runNormalizationStage. pose proof (snapshot_stage clk rt rules prov) as Hsnap.
  destruct (runSnapshotStage clk rt rules prov) as [s|m].
  2:{ destruct (transition__cases (clk 10%nat) StatusFailed "assembly failed" w1 Hr Hd1) as (Hd2 & _ & Hs2).
      rewrite Hs1 in Hs2. split; [done|]. split; [by intros [? _]|]. split; [by left|done]. }
  destruct Hsnap as [Hnd Hobj]. destruct (planning_stage clk s) as [Hdel Hids]. set (plan := runPlanningStage clk s) in *.
  assert (TargetID <$> Operations plan ≡ₚ access_rule_key <$> rules) as Hkeys.
  { rewrite Hids, Hobj. unfold IPAccessRules. by rewrite <- list_fmap_compose. }
  unfold runAdmissionStage, authorize. set (c := admission_context _ _ _ _ _ _ _).
  assert (forall k, k ∈ ec_ResourceIDs c <-> k ∈ access_rule_key <$> rules) as Hin by (intros k; change (ec_ResourceIDs c) with (TargetID <$> Operations plan); by rewrite Hkeys).
  assert (hits c (o_policies o) = hits (dry_context (breaker w) (length rules)) (o_policies o)) as Hhits.
  { pose proof (Permutation_length Hkeys) as Hlen. rewrite !length_fmap in Hlen. apply hits_ext; try done.
    - cbn. by rewrite Hb1.
    - change (ec_MutationCount c) with (Z.of_nat (length (Operations plan))). by rewrite Hlen. }
  pose proof (Authorize_outcome aclk (o_policies o) c (p_owner w1)) as Hau.
  pose proof (Authorize_allowed aclk (o_policies o) c (p_owner w1)) as Hal.
  rewrite Ho1, Hhits in Hau, Hal.
  rewrite Ho1. destruct (Authorize aclk (o_policies o) c (p_owner w)) as [r' d]. cbn [snd] in Hal.
  destruct Hau as (_ & _ & Hau). set (w2 := set_owner r' w1).
  assert (status w2 = StatusPlanning) as Hs2 by exact Hs1. assert (disk_ok w2) as Hd2 by exact Hd1.
  assert (admits rules (p_owner w) (breaker w) -> exists d', d = Ok d' /\ ad_Allowed d' = true) as Hadm.
  { intros (_ & Hg & Hno). apply Hal; [|done]. intros k Hk%Hin. by apply Hg. }
  destruct d as [d|m].
  - destruct (ad_Allowed d) eqn:Had; cbn [negb].
    + destruct (admitted_status clk s plan prov trace span w2 Hr Hd2 Hs2 Hdel) as
        (w3 & actions & -> & Hs3 & Hd3 & Hb & Hh & Hk & Ht).
      * by rewrite Hkeys.
      * apply Forall_forall. intros op Hop He.
        assert (TargetID op ∈ access_rule_key <$> rules) as Hx by (rewrite <- Hkeys; by apply list_elem_of_fmap_2).
        apply list_elem_of_fmap in Hx as (x & Hx & _). by rewrite He in Hx.
      * split; [done|]. split.
        { destruct (proj1 Hau eq_refl) as [Hg Hno]. split; [done|]. split; [|done]. intros k Hk'%Hin. by apply Hg. }
        split; [done|]. split; [done|]. split; [done|]. split; [|done]. by rewrite Hk.
    + destruct (transition__cases (clk 13%nat) StatusIdle "admission denied" w2 Hr Hd2) as (Hd3 & _ & Hs3).
      rewrite Hs2 in Hs3. cbn in Hs3. split; [done|]. split.
      { intros Ha. destruct (Hadm Ha) as (d' & [= <-] & Ht). congruence. }
      split; [|done]. right. split; [done|]. by eexists.
  - destruct (transition__cases (clk 13%nat) StatusFailed "admission check failed" w2 Hr Hd2) as (Hd3 & _ & Hs3).
    rewrite Hs2 in Hs3. cbn in Hs3. split; [done|]. split.
    { intros Ha. by destruct (Hadm Ha) as (d' & ? & _). }
    split; [by left|]. intros _ Hrd [dom Hdom]. exfalso. destruct Hau as [Hn|(res & m' & Hres & He)]; [congruence|].
    apply Hin in Hres. specialize (Hrd _ Hres). by rewrite He in Hrd.
Qed.

Lemma start_same clk zone w0 w : p_store w0 = p_store w -> same_rest w w0 ->
  status w0 = status w /\ (may_start clk zone w0 <-> may_start clk zone w) /\ p_owner w0 = p_owner w /\
  breaker w0 = breaker w.
Proof.
  intros Hst (Hg & Hh & Ho & _ & He & _). destruct (status_store _ _ Hst) as [Hs _].
  unfold may_start, breaker. by rewrite Hs, Hg, He.
Qed.

Lemma DryRun_refused clk aclk lr zone rt prov trace span w :
  isTransitionAllowed (status w) StatusDiscovering = false ->
  let '(w', r) := DryRun clk aclk lr zone rt prov trace span w in status w' = status w /\ is_ok r = false.
Proof.
  intros Ha. unfold DryRun.
  lazymatch goal with |- context [Emit ?x ?y ?z ?f w] =>
    destruct (Emit_cases x y z f w) as [Hst Hrest]; set (w0 := Emit x y z f w) in * end.
  destruct (start_same clk zone w0 w Hst Hrest) as (Hs & _ & _). unfold runDiscoveryStage.
  destruct (governor_Allow _ _ _ _ _ _) as [g ok]. destruct ok; cbn [negb]; [|done].
  rewrite transition_refused by (change (status (set_gov g w0)) with (status w0); by rewrite Hs). done.
Qed.

(** When a dry run of these rules goes through. *)
Definition dry_run_ok (clk : nat -> Z) (lr : string -> result (list IPAccessRule)) (zone : string)
    (rules : list IPAccessRule) (w : PWorld) : Prop :=
  may_start clk zone w /\ lr zone = Ok rules /\ admits rules (p_owner w) (Allow (clk 3%nat) (breaker w)).1.

Lemma DryRun_status clk aclk lr zone rt prov trace span w : reliable -> disk_ok w ->
  let '(w', r) := DryRun clk aclk lr zone rt prov trace span w in
  disk_ok w' /\
  match r with
  | Ok res => exists rules, dry_run_ok clk lr zone rules w /\ completed_run rules (pr_Actions res) w'
  | Err m =>
      ~ (exists rules, dry_run_ok clk lr zone rules w) /\
      (status w' ∈ [status w; StatusFailed] \/ (status w' = StatusPlanning /\ deny_message m)) /\
      (forall rules, may_start clk zone w -> lr zone = Ok rules -> NoDup (access_rule_key <$> rules) ->
       (forall k, k ∈ access_rule_key <$> rules -> is_ok (claim_in_force k (p_owner w)) = true) ->
       is_Some (domains (p_owner w) !! "cf-sync") -> status w' = StatusPlanning)
  end.
Proof.
  intros Hr Hd. unfold DryRun.
  lazymatch goal with |- context [Emit ?x ?y ?z ?f w] =>
    destruct (Emit_cases x y z f w) as [Hst Hrest]; set (w0 := Emit x y z f w) in * end.
  destruct (start_same clk zone w0 w Hst Hrest) as (Hs & Hms & Ho & Hb).
  pose proof (discovery_status clk lr zone w0 Hr (proj2 (status_store _ _ Hst) Hd)) as Hdis.
  destruct (runDiscoveryStage clk lr zone w0) as [w1 [rules|m]]; destruct Hdis as (Hd1 & Ho1 & Hdis).
  - destruct Hdis as (Hl & Hs1 & Hstart & Hb1). rewrite Hb in Hb1. pose proof (discovered_status clk aclk rt rules prov trace span w1 Hr Hd1 Hs1) as Hrun.
    destruct (run_discovered clk aclk rt rules prov trace span w1) as [w2 [[[s plan] actions]|m]];
      destruct Hrun as [Hd2 Hrun]; (split; [done|]); rewrite Ho1, Ho, Hb1 in Hrun.
    + exists rules. destruct Hrun as [Ha Hc]. split; [|done]. split; [by apply Hms|by split].
    + destruct Hrun as (Hno & Hstat & Hread). split; [|split].
      * intros (rules' & _ & Hl' & Ha). rewrite Hl in Hl'. injection Hl' as <-. by apply Hno.
      * destruct Hstat as [->|?]; [left; by right; left|by right].
      * intros rules' _ Hl' Hnd Hrd Hdom. rewrite Hl in Hl'. injection Hl' as <-. by apply Hread.
  - destruct Hdis as [Hno Hstat]. rewrite Hs in Hstat. split; [done|]. split; [|split].
    + intros (rules & Hstart & Hl & _). destruct Hno as [Hno|[m' Hm]]; [by apply Hno, Hms|congruence].
    + by left.
    + intros rules Hstart Hl _ _ _. destruct Hno as [Hno|[m' Hm]]; [by destruct Hno; apply Hms|congruence].
Qed.

(** ** Rollbacks *)

(** Entering a status of rest clears the leases of the state. *)
Lemma transition_rest t to reason w : disk_ok w -> isTransitionAllowed (status w) to = true ->
  to ∈ [StatusIdle; StatusConverged; StatusFailed] ->
  let s := Load (p_store (transition_ t to reason w)) in ActiveLease s = None /\ ActiveRollbackLease s = None.
Proof.
  intros Hd Ha Hto. unfold transition_, transition. pose proof (Transition_store t t ctx to reason (machine w)) as Hs.
  fold (status_of (machine w)) in Hs. destruct (Transition t t ctx to reason (machine w)) as [m r].
  destruct Hs as [(_ & _ & [Hf|Hf])|(_ & _ & Hs)]; [unfold status in Ha; congruence|done|]. cbn. rewrite Hs. cbn -[Reducer.ApplyLifecycleTransition].
  by destruct (rest_clears (Load (p_store w)) (transition_input t (status_of (machine w)) to ctx) Hto) as (? & ? & _).
Qed.

Lemma acquire_frame t owner action run w lm r :
  LeaseManager.Acquire t owner action run (lease_manager w) = (lm, r) -> disk_ok w ->
  status (set_leases lm w) = status w /\ disk_ok (set_leases lm w) /\
  Lifecycle (Load (p_store (set_leases lm w))) = Lifecycle (Load (p_store w)) /\
  match r with
  | Ok (l, _) => forall ls, p_leases w = Some ls ->
      exists ls', AcquireLease t (o_scopeID o) l ls = Ok ls' /\ p_leases (set_leases lm w) = Some ls'
  | Err _ => True
  end.
Proof.
  unfold LeaseManager.Acquire, disk_ok. cbn.
  set (ep := LeaseManager.new_epoch _ _ _). set (l := LeaseManager.new_lease _ _ _ _ _).
  assert (Lifecycle (LeaseManager.put_lease action (Some l) (set_epoch ep (Load (p_store w)))) = Lifecycle (Load (p_store w))) as Hl
    by (unfold LeaseManager.put_lease; by case_bool_decide).
  destruct (p_leases w) as [ls|] eqn:Hls; [destruct (AcquireLease _ _ _ _) as [ls'|e] eqn:Ha|].
  - intros Heq Hd. unfold Save in Heq. rewrite Hd in Heq. injection Heq as <- <-. cbn.
    split; [unfold status, status_of, current_status; cbn; by rewrite Hl|]. split; [done|]. split; [done|].
    intros ? [= <-]. eauto.
  - intros [= <- <-] Hd. split; [by destruct w|]. done.
  - destruct (match LeaseManager.slot_lease action (Load (p_store w)) with Some _ => _ | None => _ end) as [x|e].
    + intros Heq Hd. unfold Save in Heq. rewrite Hd in Heq. injection Heq as <- <-. cbn.
      split; [unfold status, status_of, current_status; cbn; by rewrite Hl|]. done.
    + intros [= <- <-] Hd. done.
Qed.

Lemma release_frame id w : disk_ok w ->
  status (release id w) = status w /\ disk_ok (release id w) /\ p_exec (release id w) = p_exec w /\
  Lifecycle (Load (p_store (release id w))) = Lifecycle (Load (p_store w)).
Proof.
  intros Hd. unfold release, LeaseManager.Release. cbn.
  lazymatch goal with |- context [match ?f with Some _ => _ | None => (lease_manager w, Ok tt) end] =>
    assert (forall l s, f = Some (l, s) -> Lifecycle s = Lifecycle (Load (p_store w))) as Hf; [|destruct f as [[l s]|]] end.
  - intros l s. destruct (ActiveLease _) as [a|]; [case_bool_decide; [by intros [= <- <-]|]|];
      (destruct (ActiveRollbackLease _) as [b|]; [case_bool_decide; [by intros [= <- <-]|done]|done]).
  - specialize (Hf l s eq_refl). unfold disk_ok in Hd.
    destruct (p_leases w) as [ls|]; [destruct (ReleaseLease _ _ _ ls)|]; unfold Save; rewrite ?Hd; cbn;
      unfold status, status_of, current_status, disk_ok; cbn; rewrite ?Hf; done.
  - done.
Qed.

(** With no lease in the state there is nothing to release. *)
Lemma release_nothing id w : ActiveLease (Load (p_store w)) = None -> ActiveRollbackLease (Load (p_store w)) = None ->
  p_leases (release id w) = p_leases w.
Proof. intros Ha Hb. unfold release, LeaseManager.Release. cbn. by rewrite Ha, Hb. Qed.

(** What a run under the lease leaves of the leases and of the calls. *)
Definition same_calls (w w' : PWorld) : Prop :=
  p_leases w' = p_leases w /\ w_calls (p_exec w') = w_calls (p_exec w).

Lemma rest_calls w w' : same_rest w w' -> same_calls w w'.
Proof. intros (_ & _ & _ & Hl & He & _). split; [done|]. by rewrite He. Qed.

Lemma calls_trans w1 w2 w3 : same_calls w1 w2 -> same_calls w2 w3 -> same_calls w1 w3.
Proof. unfold same_calls. intuition congruence. Qed.

Lemma transition__calls t to reason w : same_calls w (transition_ t to reason w).
Proof. unfold transition_, transition. by destruct (Transition _ _ _ _ _ _). Qed.
Lemma Emit_calls t ty id fs w : same_calls w (Emit t ty id fs w).
Proof. apply rest_calls, Emit_cases. Qed.

Lemma execution_status clk b w : reliable -> disk_ok w -> status w = StatusRollingBack ->
  let '(w', r) := runExecutionStage clk b w in
  disk_ok w' /\ p_leases w' = p_leases w /\
  status w' = match r with Ok _ => StatusRollingBack | Err _ => StatusQuarantined end.
Proof.
  intros Hr Hd Hs. unfold runExecutionStage. destruct (ExecuteRollback _ _ _) as [wc [[]|m]]; [done|].
  lazymatch goal with |- context [Emit ?x ?y ?z ?f ?w0] =>
    destruct (Emit_cases x y z f w0) as [Hst (_ & _ & _ & Hl & _)]; set (w2 := Emit x y z f w0) in * end.
  destruct (status_store _ _ Hst) as [Hs2 Hd2].
  destruct (transition__cases (clk 7%nat) StatusQuarantined "rollback failed" w2 Hr (Hd2 Hd)) as (Hd3 & (_ & _ & _ & Hl3 & _) & Hs3).
  split; [done|]. split; [by rewrite Hl3, Hl|]. rewrite Hs3, Hs2. change (status (set_run wc w)) with (status w). by rewrite Hs.
Qed.

(** A dropped transition, seen from a world [w0] before it. *)
Lemma transition_from t to reason w0 w s : reliable -> disk_ok w -> status w = s -> same_calls w0 w ->
  let w' := transition_ t to reason w in
  disk_ok w' /\ status w' = (if isTransitionAllowed s to then to else s) /\ same_calls w0 w'.
Proof.
  intros Hr Hd <- Hc. destruct (transition__cases t to reason w Hr Hd) as (Hd' & Hrest & Hs').
  split; [done|]. split; [done|]. eapply calls_trans; [exact Hc|by apply rest_calls].
Qed.

Lemma emit_from t ty id fs w0 w s : disk_ok w -> status w = s -> same_calls w0 w ->
  let w' := Emit t ty id fs w in disk_ok w' /\ status w' = s /\ same_calls w0 w'.
Proof.
  intros Hd <- Hc. destruct (Emit_cases t ty id fs w) as [Hst Hrest]. destruct (status_store _ _ Hst) as [? Hd'].
  split; [auto|]. split; [done|]. eapply calls_trans; [exact Hc|by apply rest_calls].
Qed.

Lemma authorize_from clk c w0 w s : disk_ok w -> status w = s -> same_calls w0 w ->
  let w' := (authorize clk c w).1 in disk_ok w' /\ status w' = s /\ same_calls w0 w'.
Proof.
  intros Hd <- [Hl Hc]. pose proof (authorize_outside clk c w) as (_ & Hc' & Hl' & _). unfold authorize in *.
  destruct (Authorize clk (o_policies o) c (p_owner w)) as [r d]. split; [done|]. split; [done|]. split; [done|]. done.
Qed.

Lemma rollback_status clk aclk l ep forward reason w : reliable -> disk_ok w ->
  status w ∈ [StatusExecuting; StatusValidating] ->
  let '(w', r) := rollback_under clk aclk l ep forward reason w in
  disk_ok w' /\ p_leases w' = p_leases w /\
  match r with
  | Ok _ => status w' = StatusIdle /\ ActiveLease (Load (p_store w')) = None /\
            ActiveRollbackLease (Load (p_store w')) = None
  | Err _ => (status w' ∈ [StatusFailed; StatusRollbackRequired] /\ same_calls w w') \/ status w' = StatusQuarantined
  end.
Proof.
  intros Hr Hd Hs. unfold rollback_under.
  lazymatch goal with |- context [Emit ?x ?y ?z ?f w] =>
    destruct (emit_from x y z f w w _ Hd eq_refl (conj eq_refl eq_refl)) as (Hd0 & Hs0 & Hc0); set (w0 := Emit x y z f w) in * end.
  destruct (transition_from (clk 2%nat) StatusRollbackRequired "triggering rollback" w w0 _ Hr Hd0 Hs0 Hc0) as (Hd1 & Hs1 & Hc1).
  set (w1 := transition_ (clk 2%nat) _ _ w0) in *.
  assert (status w1 = StatusRollbackRequired) as Hs1'.
  { rewrite Hs1. apply elem_of_cons in Hs as [->|Hs]; [done|]. by apply list_elem_of_singleton in Hs as ->. }
  destruct (GenerateRollbackBatch _ _ _) as [b|m].
  2:{ destruct (transition_from (clk 3%nat) StatusFailed "rollback planning failed" w w1 _ Hr Hd1 Hs1' Hc1) as (Hd2 & Hs2 & Hc2).
      split; [done|]. split; [apply Hc2|]. left. split; [rewrite Hs2; by left|done]. }
  unfold runRollbackAdmissionStage.
  lazymatch goal with |- context [authorize aclk ?c w1] =>
    destruct (authorize_from aclk c w w1 _ Hd1 Hs1' Hc1) as (Hd2 & Hs2 & Hc2); destruct (authorize aclk c w1) as [w2 d] end.
  cbn [fst] in Hd2, Hs2, Hc2. destruct d as [d|m].
  2:{ destruct (transition_from (clk 5%nat) StatusFailed "rollback admission failed" w w2 _ Hr Hd2 Hs2 Hc2) as (Hd3 & Hs3 & Hc3).
      split; [done|]. split; [apply Hc3|]. left. split; [rewrite Hs3; by left|done]. }
  destruct (ad_Allowed d); cbn [negb].
  2:{ destruct (transition_from (clk 5%nat) StatusRollbackRequired "rollback admission denied" w w2 _ Hr Hd2 Hs2 Hc2)
        as (Hd3 & Hs3 & Hc3).
      split; [done|]. split; [apply Hc3|]. left. split; [rewrite Hs3; by right; left|done]. }
  destruct (transition_from (clk 5%nat) StatusRollingBack "executing rollback" w w2 _ Hr Hd2 Hs2 Hc2) as (Hd3 & Hs3 & Hc3).
  set (w3 := transition_ (clk 5%nat) _ _ w2) in *.
  pose proof (execution_status clk (lease_batch l b) w3 Hr Hd3 Hs3) as Hx.
  destruct (runExecutionStage clk (lease_batch l b) w3) as [w4 [[]|m]]; destruct Hx as (Hd4 & Hl4 & Hs4).
  2:{ split; [done|]. split; [rewrite Hl4; apply Hc3|by right]. }
  lazymatch goal with |- context [Emit ?x ?y ?z ?f w4] =>
    destruct (emit_from x y z f w4 w4 _ Hd4 Hs4 (conj eq_refl eq_refl)) as (Hd5 & Hs5 & Hc5); set (w5 := Emit x y z f w4) in * end.
  destruct (transition_from (clk 9%nat) StatusIdle "rollback completed" w4 w5 _ Hr Hd5 Hs5 Hc5) as (Hd6 & Hs6 & Hc6).
  split; [done|]. split; [rewrite (proj1 Hc6), Hl4; apply Hc3|]. split; [done|].
  apply transition_rest; [done|by rewrite Hs5|by left].
Qed.

(** From a status that leads nowhere a rollback goes, it runs all the same. *)
Lemma rollback_unseen clk aclk l ep forward reason w :
  isTransitionAllowed (status w) StatusRollbackRequired = false ->
  isTransitionAllowed (status w) StatusRollingBack = false -> isTransitionAllowed (status w) StatusIdle = false ->
  let '(w', r) := rollback_under clk aclk l ep forward reason w in r = Ok tt -> p_store w' = p_store w.
Proof.
  intros H1 H2 H3. unfold rollback_under.
  lazymatch goal with |- context [Emit ?x ?y ?z ?f w] =>
    destruct (Emit_cases x y z f w) as [Hst _]; set (w0 := Emit x y z f w) in * end.
  destruct (status_store _ _ Hst) as [Hs0 _]. unfold transition_ at 1 2 3 4.
  rewrite transition_refused by by rewrite Hs0. cbn [fst].
  destruct (GenerateRollbackBatch _ _ _) as [b|m]; [|done]. unfold runRollbackAdmissionStage.
  lazymatch goal with |- context [authorize aclk ?c w0] =>
    assert (p_store (authorize aclk c w0).1 = p_store w0) as Hst1 by (unfold authorize; by destruct (Authorize _ _ _ _));
    destruct (authorize aclk c w0) as [w1 [d|m]] end; [|done]. cbn [fst] in Hst1.
  destruct (status_store _ _ Hst1) as [Hs1 _]. destruct (ad_Allowed d); cbn [negb]; [|done].
  rewrite transition_refused by by rewrite Hs1, Hs0. cbn [fst].
  unfold runExecutionStage. destruct (ExecuteRollback _ _ _) as [wc [[]|m]]; [|done].
  lazymatch goal with |- context [Emit ?x ?y ?z ?f (set_run wc w1)] =>
    destruct (Emit_cases x y z f (set_run wc w1)) as [Hst2 _]; set (w2 := Emit x y z f (set_run wc w1)) in * end.
  destruct (status_store _ _ Hst2) as [Hs2 _]. rewrite transition_refused.
  - intros _. cbn [fst]. by rewrite Hst2, <- Hst, <- Hst1.
  - rewrite Hs2. change (status (set_run wc w1)) with (status w1). by rewrite Hs1, Hs0.
Qed.

End orchestrator.

(** Whatever it finds and however it ends, a dry run touches nothing outside:
    no call reaches a provider, and the leases, the rollback checkpoints, the
    ownership domains and claims are as before. *)
Theorem DryRun_inert {B C CS LR P K L : Type} `{!EventBus B} `{!CheckpointManager C} `{!ClaimStore CS}
    `{!LineageRecorder LR} o ctx clk aclk list_rules zoneID rt prov trace span
    (w : PWorld (B := B) (C := C) (CS := CS) (LR := LR) (P := P) (K := K) (L := L)) :
  same_outside w (DryRun o ctx clk aclk list_rules zoneID rt prov trace span w).1.
Proof.
  unfold DryRun. etransitivity; [apply Emit_outside|].
  lazymatch goal with |- context [runDiscoveryStage ctx clk list_rules zoneID ?w0] =>
    pose proof (discovery_outside ctx clk list_rules zoneID w0) as Hd;
    destruct (runDiscoveryStage ctx clk list_rules zoneID w0) as [w1 r] end.
  cbn [fst] in Hd. etransitivity; [exact Hd|]. destruct r as [rules|m]; [|done].
  pose proof (discovered_outside o ctx clk aclk rt rules prov trace span w1) as Hr.
  destruct (run_discovered _ _ _ _ _ _ _ _ _ _) as [w2 r]. exact Hr.
Qed.

Section dryrun_theorems.
Context {B C CS LR P K L : Type} `{!EventBus B} `{!CheckpointManager C} `{!ClaimStore CS} `{!LineageRecorder LR}.
Abbreviation W := (PWorld (B := B) (C := C) (CS := CS) (LR := LR) (P := P) (K := K) (L := L)).

(** C23: With a disk, a bus and checkpoints that work, a dry run succeeds exactly
    when the budget, the status and the breaker let it start, the rules are
    listed, their keys are distinct, ownership grants every one of them to the
    synchroniser, and no enabled policy rule that applies to a mutation and
    matches this run (its breaker state, its number of deletions, no drift,
    outside maintenance) denies it.  It then ends idle with the breaker closed,
    and its actions are one deletion per rule.  Otherwise it ends where it
    began, or failed, or, after a refused admission, still in planning.  The
    translation and the validation of the plan never fail it: a plan of
    deletions of distinct keys always translates and validates. *)
Theorem DryRun_outcome o ctx clk aclk lr zone rt prov trace span (w : W) :
  reliable (B := B) (C := C) -> disk_ok w ->
  let '(w', r) := DryRun o ctx clk aclk lr zone rt prov trace span w in
  (is_ok r = true <-> exists rules, dry_run_ok o clk lr zone rules w) /\
  match r with
  | Ok res => exists rules, dry_run_ok o clk lr zone rules w /\ completed_run rules (pr_Actions res) w'
  | Err m => status w' ∈ [status w; StatusFailed] \/ (status w' = StatusPlanning /\ deny_message m)
  end.
Proof.
  intros Hr Hd. pose proof (DryRun_status o ctx clk aclk lr zone rt prov trace span w Hr Hd) as H.
  destruct (DryRun _ _ _ _ _ _ _ _ _ _ w) as [w' [res|m]]; destruct H as [_ H].
  - split; [|done]. destruct H as (rules & ? & _). split; [by exists rules|done].
  - destruct H as (Hno & ? & _). split; [|done]. split; [done|by intros ?%Hno].
Qed.

(** A dry run whose admission is refused for the owner of a rule leaves the
    status at planning, since the table has no way from there back to idle and
    the error is dropped; every later dry run is then refused and leaves it
    there. *)
Theorem admission_denied_blocks o ctx clk aclk lr zone rt prov trace span (w : W) rules k :
  reliable (B := B) (C := C) -> disk_ok w -> may_start clk zone w -> lr zone = Ok rules ->
  NoDup (access_rule_key <$> rules) -> k ∈ access_rule_key <$> rules -> ~ granted (p_owner w) k ->
  (forall k', k' ∈ access_rule_key <$> rules -> is_ok (claim_in_force k' (p_owner w)) = true) ->
  is_Some (domains (p_owner w) !! "cf-sync") ->
  let '(w', r) := DryRun o ctx clk aclk lr zone rt prov trace span w in
  is_ok r = false /\ status w' = StatusPlanning /\
  forall ctx2 clk2 aclk2 lr2 zone2 rt2 prov2 trace2 span2,
    let '(w2, r2) := DryRun o ctx2 clk2 aclk2 lr2 zone2 rt2 prov2 trace2 span2 w' in
    is_ok r2 = false /\ status w2 = StatusPlanning.
Proof.
  intros Hr Hd Hst Hl Hnd Hk Hng Hrd Hdom.
  pose proof (DryRun_status o ctx clk aclk lr zone rt prov trace span w Hr Hd) as H.
  destruct (DryRun o ctx clk aclk lr zone rt prov trace span w) as [w' [res|m]]; destruct H as [Hd' H].
  { destruct H as (rules' & (_ & Hl' & _ & Hg & _) & _). rewrite Hl in Hl'. injection Hl' as <-. by destruct Hng; apply Hg. }
  destruct H as (_ & _ & Hpl). specialize (Hpl rules Hst Hl Hnd Hrd Hdom). split; [done|]. split; [done|].
  intros ctx2 clk2 aclk2 lr2 zone2 rt2 prov2 trace2 span2.
  pose proof (DryRun_refused o ctx2 clk2 aclk2 lr2 zone2 rt2 prov2 trace2 span2 w' ltac:(by rewrite Hpl)) as H2.
  destruct (DryRun _ _ _ _ _ _ _ _ _ _ w') as [w2 r2]. destruct H2 as [-> ->]. done.
Qed.

End dryrun_theorems.

Section rollback_theorems.
Context {B C CS LR P K L : Type} `{!EventBus B} `{!CheckpointManager C} `{!ClaimStore CS} `{!LineageRecorder LR}
  `{!ProviderMutator P} `{!RollbackCheckpointStore K} `{!LeaseStore L}.
Abbreviation W := (PWorld (B := B) (C := C) (CS := CS) (LR := LR) (P := P) (K := K) (L := L)).

(** A rollback of a run that was executing or validating ends idle when it
    succeeds and quarantined when a compensation fails; in every other case
    (lease refused, no plan, admission refused) no call reached the provider,
    and the status is as before, failed, or still demands the rollback. *)
Theorem Rollback_outcome o ctx clk aclk forward reason (w : W) :
  reliable (B := B) (C := C) -> disk_ok w -> status w ∈ [StatusExecuting; StatusValidating] ->
  let '(w', r) := Rollback o ctx clk aclk forward reason w in
  match r with
  | Ok _ => status w' = StatusIdle
  | Err _ => status w' = StatusQuarantined \/
             (status w' ∈ [status w; StatusFailed; StatusRollbackRequired] /\ w_calls (p_exec w') = w_calls (p_exec w))
  end.
Proof.
  intros Hr Hd Hs. unfold Rollback. destruct (LeaseManager.Acquire _ _ _ _ _) as [lm r] eqn:Ha.
  pose proof (acquire_frame o _ _ _ _ _ _ _ Ha Hd) as (Hs1 & Hd1 & _ & _).
  destruct r as [[l ep]|m]; [|right; split; [rewrite Hs1; by left|done]]. rewrite <- Hs1 in Hs.
  pose proof (rollback_status o ctx clk aclk l ep forward reason (set_leases lm w) Hr Hd1 Hs) as Hx.
  destruct (rollback_under _ _ _ _ _ _ _ _ _) as [w2 r]. destruct Hx as (Hd2 & _ & Hx).
  destruct (release_frame o (l_ID l) w2 Hd2) as (Hs3 & _ & He3 & _). rewrite Hs3, He3.
  destruct r as [[]|m]; [by destruct Hx|]. destruct Hx as [[Hx [_ Hc]]|Hx]; [|by left]. right.
  split; [by apply elem_of_cons; right|exact Hc].
Qed.

(** A completed rollback keeps its lease: the transition to idle has cleared
    it from the state, so the release at the end finds nothing, and the lease
    store is left exactly as the acquisition made it. *)
Theorem rollback_keeps_lease o ctx clk aclk forward reason (w : W) ls :
  reliable (B := B) (C := C) -> disk_ok w -> status w ∈ [StatusExecuting; StatusValidating] -> p_leases w = Some ls ->
  let '(w', r) := Rollback o ctx clk aclk forward reason w in
  r = Ok tt -> exists l ls', AcquireLease (clk 0%nat) (o_scopeID o) l ls = Ok ls' /\ p_leases w' = Some ls'.
Proof.
  intros Hr Hd Hs Hls. unfold Rollback. destruct (LeaseManager.Acquire _ _ _ _ _) as [lm r] eqn:Ha.
  pose proof (acquire_frame o _ _ _ _ _ _ _ Ha Hd) as (Hs1 & Hd1 & _ & Hl1).
  destruct r as [[l ep]|m]; [|done]. rewrite <- Hs1 in Hs. destruct (Hl1 ls Hls) as (ls' & Hacq & Hl2).
  pose proof (rollback_status o ctx clk aclk l ep forward reason (set_leases lm w) Hr Hd1 Hs) as Hx.
  destruct (rollback_under _ _ _ _ _ _ _ _ _) as [w2 r]. destruct Hx as (Hd2 & Hl & Hx). intros ->.
  destruct Hx as (_ & Hn1 & Hn2). exists l, ls'. split; [done|].
  by rewrite (release_nothing o (l_ID l) w2 Hn1 Hn2), Hl.
Qed.

(** A rollback asked for while the runtime is idle, discovering or planning
    runs and completes without a trace in the lifecycle: the three transitions
    it makes are refused, their errors dropped, and the lifecycle part of the
    state at the end is the one at the start. *)
Theorem rollback_unrecorded o ctx clk aclk forward reason (w : W) :
  disk_ok w -> status w ∈ [StatusIdle; StatusDiscovering; StatusPlanning] ->
  let '(w', r) := Rollback o ctx clk aclk forward reason w in
  r = Ok tt -> Lifecycle (Load (p_store w')) = Lifecycle (Load (p_store w)).
Proof.
  intros Hd Hs. unfold Rollback. destruct (LeaseManager.Acquire _ _ _ _ _) as [lm r] eqn:Ha.
  pose proof (acquire_frame o _ _ _ _ _ _ _ Ha Hd) as (Hs1 & Hd1 & Hl1 & _). destruct r as [[l ep]|m]; [|done].
  assert (Forall (fun s => isTransitionAllowed s StatusRollbackRequired = false /\
    isTransitionAllowed s StatusRollingBack = false /\ isTransitionAllowed s StatusIdle = false)
    [StatusIdle; StatusDiscovering; StatusPlanning]) as Hall by (apply (bool_decide_unpack _); by vm_compute).
  rewrite Forall_forall in Hall. specialize (Hall _ Hs). rewrite <- Hs1 in Hall. destruct Hall as (H1 & H2 & H3).
  pose proof (rollback_unseen o ctx clk aclk l ep forward reason (set_leases lm w) H1 H2 H3) as Hx.
  destruct (rollback_under _ _ _ _ _ _ _ _ _) as [w2 r]. intros ->. specialize (Hx eq_refl).
  destruct (release_frame o (l_ID l) w2) as (_ & _ & _ & ->); [unfold disk_ok; by rewrite Hx|]. by rewrite Hx.
Qed.

End rollback_theorems.

(** *** Concrete runs *)
Import OwnershipTables.

#[local] Instance no_bus : EventBus Empty_set := {| eb_publish := fun _ _ (b : Empty_set) => match b with end |}.
#[local] Instance steady : ProviderMutator nat := flaky "none".

Abbreviation Demo := (PWorld (B := Empty_set) (C := Empty_set) (CS := ClaimTable) (LR := LineageTable) (P := nat)
  (K := RollbackCheckpoints.CheckpointTable) (L := LeaseTable.LeaseRepository)).

Lemma demo_reliable : reliable (B := Empty_set) (C := Empty_set).
Proof. split; [by intros ? ? []|]. split; [by intros ? ? ? ? []|by intros ? ? ? ? ? []]. Qed.

Definition demo_orchestrator : Orchestrator (L := LeaseTable.LeaseRepository) :=
  {| o_policies := []; o_hasAbuse := true; o_executor := fun _ => plain_executor; o_expiry := 10 * minute;
     o_scopeID := "scope-1" |}.

Definition demo_world (st : string) (owner : Res) : Demo :=
  {| p_store := {| global_doc := Some (set_lifecycle (Reducer.set_status st 0 0 (Lifecycle zero_state)) zero_state);
                   scoped_docs := ∅; disk_error := None |};
     p_bus := None; p_ckpt := None; p_gov := daemon_governor; p_health := NewHealth 0; p_owner := owner;
     p_leases := Some LeaseTable.NewLeaseRepository; p_exec := start_world 0; p_rollbacks := Some empty_table |}.

Definition free_world (st : string) : Demo := demo_world st (start_resolver three_domains []).

Definition demo_rules (zone : string) : result (list IPAccessRule) :=
  Ok ((fun ip => {| ar_ID := ip; ar_Mode := "block"; ar_Notes := ""; ar_AllowedModes := [];
                    ar_Configuration := {| rc_Target := "ip"; rc_Value := ip |}; ar_Paused := false; ar_CreatedOn := 0;
                    ar_ModifiedOn := 0; ar_Scope := None |}) <$> ["192.0.2.1"; "2001:db8::1"]).

Definition no_provenance : ProvenanceMetadata := {| FixtureID := ""; ReplayID := ""; GeneratedBy := "test"; GeneratedAt := 0 |}.
Definition demo_clock (n : nat) : Z := (10 + Z.of_nat n) * second.

Definition demo_dryrun (w : Demo) : Demo * result PipelineResult :=
  DryRun demo_orchestrator plain_context demo_clock demo_clock demo_rules "zone-1" ResourceIPAccessRules no_provenance "" "" w.
Definition demo_rollback (w : Demo) : Demo * result unit :=
  Rollback demo_orchestrator plain_context demo_clock demo_clock forward_batch "test" w.

Lemma DryRun_outcome_witness : status (demo_dryrun (free_world StatusIdle)).1 = StatusIdle.
Proof.
  assert (is_ok (demo_dryrun (free_world StatusIdle)).2 = true) as Hok by by vm_compute. unfold demo_dryrun in *.
  pose proof (DryRun_outcome demo_orchestrator plain_context demo_clock demo_clock demo_rules "zone-1" ResourceIPAccessRules
    no_provenance "" "" (free_world StatusIdle) demo_reliable eq_refl) as H.
  destruct (DryRun _ _ _ _ _ _ _ _ _ _ _) as [w' [res|m]]; [|done]. by destruct H as (_ & rules & _ & H & _).
Defined.

(** Terraform holds one of the two rules. *)
Definition held_world : Demo :=
  demo_world StatusIdle (Claim 1 (claim_of "terraform" "ip:ip:192.0.2.1:block") (start_resolver three_domains [])).1.

Lemma admission_denied_blocks_witness :
  status (demo_dryrun (demo_dryrun held_world).1).1 = StatusPlanning.
Proof.
  pose proof (admission_denied_blocks demo_orchestrator plain_context demo_clock demo_clock demo_rules "zone-1"
    ResourceIPAccessRules no_provenance "" "" held_world
    match demo_rules "" with Ok l => l | Err _ => [] end "ip:ip:192.0.2.1:block" demo_reliable eq_refl) as H.
  unfold demo_dryrun at 2. destruct (DryRun _ _ _ _ _ _ _ _ _ _ held_world) as [w' r].
  destruct H as (_ & _ & H).
  - split; [by vm_compute|]. split; by vm_compute.
  - done.
  - apply (bool_decide_unpack _). by vm_compute.
  - apply (bool_decide_unpack _). by vm_compute.
  - intros (req & cl & Hq & Hcl & Hm). vm_compute in Hq, Hcl. injection Hq as <-. injection Hcl as <-.
    destruct Hm as (_ & Hp & _). vm_compute in Hp. by apply Hp.
  - intros k _. by eapply claims_readable.
  - by eexists.
  - specialize (H plain_context demo_clock demo_clock demo_rules "zone-1" ResourceIPAccessRules no_provenance "" "").
    unfold demo_dryrun. cbn [fst]. destruct (DryRun _ _ _ _ _ _ _ _ _ _ w') as [w2 r2]. apply H.
Defined.

Lemma Rollback_outcome_witness :
  status (demo_rollback (free_world StatusExecuting)).1 = StatusIdle /\
  length (w_calls (p_exec (demo_rollback (free_world StatusExecuting)).1)) = 2%nat.
Proof.
  assert (is_ok (demo_rollback (free_world StatusExecuting)).2 = true) as Hok by by vm_compute.
  split; [|by vm_compute]. unfold demo_rollback in *.
  pose proof (Rollback_outcome demo_orchestrator plain_context demo_clock demo_clock forward_batch "test"
    (free_world StatusExecuting) demo_reliable eq_refl ltac:(by left)) as H.
  destruct (Rollback _ _ _ _ _ _ _) as [w' [[]|m]]; done.
Defined.

(** The table still holds the lease. *)
Lemma rollback_keeps_lease_witness :
  exists l ls', AcquireLease (demo_clock 0) "scope-1" l LeaseTable.NewLeaseRepository = Ok ls' /\
    p_leases (demo_rollback (free_world StatusExecuting)).1 = Some ls'.
Proof.
  assert ((demo_rollback (free_world StatusExecuting)).2 = Ok tt) as Hok by by vm_compute. unfold demo_rollback in *.
  pose proof (rollback_keeps_lease demo_orchestrator plain_context demo_clock demo_clock forward_batch "test"
    (free_world StatusExecuting) LeaseTable.NewLeaseRepository demo_reliable eq_refl ltac:(by left) eq_refl) as H.
  destruct (Rollback _ _ _ _ _ _ _) as [w' r]. by apply H.
Defined.

Lemma rollback_unrecorded_witness :
  length (w_calls (p_exec (demo_rollback (free_world StatusIdle)).1)) = 2%nat /\
  Lifecycle (Load (p_store (demo_rollback (free_world StatusIdle)).1)) = Lifecycle (Load (p_store (free_world StatusIdle))).
Proof.
  split; [by vm_compute|].
  assert ((demo_rollback (free_world StatusIdle)).2 = Ok tt) as Hok by by vm_compute. unfold demo_rollback in *.
  pose proof (rollback_unrecorded demo_orchestrator plain_context demo_clock demo_clock forward_batch "test"
    (free_world StatusIdle) eq_refl ltac:(by left)) as H.
  destruct (Rollback _ _ _ _ _ _ _) as [w' r]. by apply H.
Defined.

End Pipeline.
