(* ===== verification/AutoDeban.v ===== *)
(** * Auto-deban

    [internal/security/autodeban/service.go]: the periodic scan that lifts a
    ban before it expires, when nothing speaks for it any more.  The ban store
    and the reputation gate are the interfaces of [BanLifecycle] and [AutoBan];
    CrowdSec and the evidence store are asked questions, so they are functions
    of the time of the question, and a nil interface is [None]. *)

From Stdlib Require Import SpecFloat.
From S2P Require Import Prelude Netip GoFmt Trust Reputation BanLifecycle BanStores Cleanup AutoBan Reports.
Import BanLifecycle.

Local Open Scope Z_scope.

Module AutoDeban.

Record EvidenceRecord := { er_Timestamp : Z; er_AbuseType : string }.

Class CloudflareDeleter (C : Type) := delete_rule : string -> string -> C -> C * result unit.

(** ip, rule, reason, note, time. *)
Class DebanEvidenceWriter (D : Type) :=
  WriteDebanEvidence : string -> string -> string -> string -> Z -> D -> D * result unit.

Record Config := {
  Enabled : bool;
  Mode : string;
  NoNewEventsWindow : Z;
  RecentWAFEventWindow : Z;
  ZoneID : string;
}.

(** [CrowdSecListActiveBans.ActiveDecision]: the list is asked for and searched;
    without a source, or when the listing fails, the answer is an error. *)
Definition list_ActiveDecision (source : option (Z -> result (list string))) (t : Z) (ip : string) : result bool :=
  match source with
  | None => Err "autodeban: no crowdsec active-ban source configured"
  | Some f =>
      match f t with
      | Err m => Err ("autodeban: crowdsec active-ban lookup failed: " +:+ m)
      | Ok ips => Ok (bool_decide (ip ∈ ips))
      end
  end.

Definition isBenignAbuseType (abuseType : string) : bool :=
  bool_decide (abuseType = "") || bool_decide (abuseType = "benign_bootstrap")
  || bool_decide (abuseType = "benign_probe").

(** [time.Duration(float64(d) * RecidiveActiveWindowFraction)]; the fraction is
    one half. *)
Definition recidive_window (d : Z) : Z := F64.trunc (F64.mul (F64.of_int d) (F64.div (F64.of_int 1) (F64.of_int 2))).

Definition actionFor (shadow : bool) : string :=
  if shadow then "autodeban.shadow_decision" else "autodeban.executed".

Record ScanResult := {
  Considered : Z;
  Debanned : list string;
  Excluded : gmap string string;
  Errors : gmap string string;
}.

Section service.
Context {T G C D : Type} `{BanStoreOps T} `{AutoBan.ReputationGate G} `{CloudflareDeleter C} `{DebanEvidenceWriter D}.

(** [deletes] is the trace of the deletions asked of Cloudflare: ip and rule. *)
Record Service := {
  store : option T;
  gate : option G;
  cf : option C;
  crowdsec : option (Z -> string -> result bool);
  evidence : option (Z -> string -> Z -> result (list EvidenceRecord));
  audit : option (list (string * gmap string string));
  debanEvi : option D;
  trustReg : option Trust.Registry;
  cfg : Config;
  deletes : list (string * string);
}.

Definition NewService (st : option T) (g : option G) (c : option C) (cs : option (Z -> string -> result bool))
    (ev : option (Z -> string -> Z -> result (list EvidenceRecord))) (a : option (list (string * gmap string string)))
    (d : option D) (reg : option Trust.Registry) (cf0 : Config) : Service :=
  {| store := st; gate := g; cf := c; crowdsec := cs; evidence := ev; audit := a; debanEvi := d; trustReg := reg;
     cfg := {| Enabled := Enabled cf0;
               Mode := if bool_decide (Mode cf0 = "") then Reputation.ModeShadow else Mode cf0;
               NoNewEventsWindow := if NoNewEventsWindow cf0 <=? 0 then 24 * hour else NoNewEventsWindow cf0;
               RecentWAFEventWindow := if RecentWAFEventWindow cf0 <=? 0 then 24 * hour else RecentWAFEventWindow cf0;
               ZoneID := ZoneID cf0 |};
     deletes := [] |}.

Definition set_gate (g : G) (s : Service) : Service :=
  {| store := store s; gate := Some g; cf := cf s; crowdsec := crowdsec s; evidence := evidence s; audit := audit s;
     debanEvi := debanEvi s; trustReg := trustReg s; cfg := cfg s; deletes := deletes s |}.
Definition set_store (t : T) (s : Service) : Service :=
  {| store := Some t; gate := gate s; cf := cf s; crowdsec := crowdsec s; evidence := evidence s; audit := audit s;
     debanEvi := debanEvi s; trustReg := trustReg s; cfg := cfg s; deletes := deletes s |}.
Definition set_cf (c : C) (call : string * string) (s : Service) : Service :=
  {| store := store s; gate := gate s; cf := Some c; crowdsec := crowdsec s; evidence := evidence s; audit := audit s;
     debanEvi := debanEvi s; trustReg := trustReg s; cfg := cfg s; deletes := deletes s ++ [call] |}.
Definition set_records (a : option (list (string * gmap string string))) (d : option D) (s : Service) : Service :=
  {| store := store s; gate := gate s; cf := cf s; crowdsec := crowdsec s; evidence := evidence s; audit := a;
     debanEvi := d; trustReg := trustReg s; cfg := cfg s; deletes := deletes s |}.

Definition crowdsecActive (t : Z) (ip : string) (s : Service) : result bool :=
  match crowdsec s with
  | None => Err "autodeban: no crowdsec checker configured"
  | Some f => f t ip
  end.

Definition no_evidence_store : string := "autodeban: no evidence store configured".

Definition hasRecentHostileEvent (t : Z) (ip : string) (now : Z) (s : Service) : result bool :=
  match evidence s with
  | None => Err no_evidence_store
  | Some f =>
      match f t ip (t_add now (- RecentWAFEventWindow (cfg s))) with
      | Err m => Err m
      | Ok rs => Ok (existsb (fun r => negb (isBenignAbuseType (er_AbuseType r))) rs)
      end
  end.

Definition later (latest : Z) (r : EvidenceRecord) : Z :=
  if t_after (er_Timestamp r) latest then er_Timestamp r else latest.

(** The zero [From] asks for the whole history. *)
Definition lastEventAt (t : Z) (ip : string) (s : Service) : result (option Z) :=
  match evidence s with
  | None => Err no_evidence_store
  | Some f =>
      match f t ip 0 with
      | Err m => Err m
      | Ok [] => Ok None
      | Ok (r :: rs) => Ok (Some (foldl later (er_Timestamp r) rs))
      end
  end.

Definition protected (ip : string) (s : Service) : bool :=
  match trustReg s with Some reg => negb (bool_decide (Trust.MatchIP reg ip = [])) | None => false end.

Definition untracked (ip : string) (s : Service) : bool :=
  match store s with
  | None => false
  | Some st => match Get ip st with Ok (Some e) => bool_decide (RuleID e = "") | _ => true end
  end.

Definition active_recidive (now : Z) (e : Entry) : bool :=
  (2 <=? RecidiveLevel e) && (0 <? Duration e) && (t_sub now (CreatedAt e) <? recidive_window (Duration e)).

(** The hard exclusions in their order; [clk] is the clock at the successive
    steps of one entry. *)
Definition exclusion (clk : nat -> Z) (e : Entry) (s : Service) : option string :=
  if protected (IP e) s then Some "protected_target"
  else if untracked (IP e) s then Some "unmanaged_rule"
  else if active_recidive (clk 0%nat) e then Some "active_recidive"
  else match hasRecentHostileEvent (clk 1%nat) (IP e) (clk 0%nat) s with
       | Err _ => Some "evidence_check_unavailable"
       | Ok true => Some "recent_waf_event"
       | Ok false =>
           match crowdsecActive (clk 2%nat) (IP e) s with
           | Ok false => None
           | _ => Some "crowdsec_active_or_unknown"
           end
       end.

Definition weak_local : Reputation.LocalSignal :=
  {| Reputation.Strength := Reputation.SignalWeak; Reputation.ls_AbuseType := "" |}.

(** The triggers after the question about the last event. *)
Definition reevaluate (clk : nat -> Z) (e : Entry) (s : Service) : Service * (string * bool) :=
  if Confidence e <=? 0 then (s, ("weak_signal_ban", true))
  else match gate s with
       | None => (s, ("still_warranted", false))
       | Some g =>
           let '(g, d) := AutoBan.gate_EvaluateBan (clk 4%nat) (IP e) weak_local g in
           let s := set_gate g s in
           if negb (Reputation.AllowBan d) then (s, ("reputation_dropped:" +:+ Reputation.Reason d, true))
           else (s, ("still_warranted", false))
       end.

Definition evaluateEntry (clk : nat -> Z) (e : Entry) (s : Service) : Service * (string * bool) :=
  match exclusion clk e s with
  | Some reason => (s, (reason, false))
  | None =>
      match lastEventAt (clk 3%nat) (IP e) s with
      | Ok (Some t) =>
          if NoNewEventsWindow (cfg s) <=? t_sub (clk 0%nat) t then (s, ("no_new_events", true))
          else reevaluate clk e s
      | Ok None => (s, ("no_local_evidence_ever", true))
      | Err _ => reevaluate clk e s
      end
  end.

Definition shadow (s : Service) : bool := negb (bool_decide (Mode (cfg s) = Reputation.ModeEnforce)).

(** The audit event and the evidence of a deban, written in both modes. *)
Definition record_deban (t : Z) (e : Entry) (reason note : string) (s : Service) : Service :=
  let fields : gmap string string :=
    {[ "ip" := IP e; "rule_id" := RuleID e; "reason" := reason;
       "shadow" := if shadow s then "true" else "false" ]} in
  set_records ((fun l => l ++ [(actionFor (shadow s), fields)]) <$> audit s)
    ((fun d => (WriteDebanEvidence (IP e) (RuleID e) reason note t d).1) <$> debanEvi s) s.

Definition deban (clk : nat -> Z) (e : Entry) (reason : string) (s : Service) : Service * result unit :=
  let note := "auto-deban: " +:+ reason +:+ " (ip=" +:+ IP e +:+ " rule=" +:+ RuleID e +:+ ")" in
  let s := record_deban (clk 5%nat) e reason note s in
  if shadow s then (s, Ok tt)
  else
    match cf s with
    | None => (s, Err ("autodeban: no cloudflare deleter configured, cannot enforce deban for " +:+ IP e))
    | Some c =>
        if bool_decide (RuleID e = "")
        then (s, Err ("autodeban: entry for " +:+ IP e +:+ " has no rule_id, refusing to delete"))
        else
          let '(c, r) := delete_rule (ZoneID (cfg s)) (RuleID e) c in
          let s := set_cf c (IP e, RuleID e) s in
          match r with
          | Err m => (s, Err ("autodeban: cloudflare delete failed for " +:+ IP e +:+ ": " +:+ m))
          | Ok _ =>
              match store s with
              | None => (s, Ok tt)
              | Some st =>
                  match MarkStatus (clk 6%nat) (IP e) StatusAutoDebanned note st with
                  | Err m => (s, Err ("autodeban: store.MarkStatus failed for " +:+ IP e +:+ ": " +:+ m))
                  | Ok st => (set_store st s, Ok tt)
                  end
              end
          end
    end.

Definition considered (r : ScanResult) : ScanResult :=
  {| Considered := Considered r + 1; Debanned := Debanned r; Excluded := Excluded r; Errors := Errors r |}.
Definition add_debanned (ip : string) (r : ScanResult) : ScanResult :=
  {| Considered := Considered r; Debanned := Debanned r ++ [ip]; Excluded := Excluded r; Errors := Errors r |}.
Definition add_excluded (ip reason : string) (r : ScanResult) : ScanResult :=
  {| Considered := Considered r; Debanned := Debanned r; Excluded := <[ip := reason]> (Excluded r); Errors := Errors r |}.
Definition add_error (ip err : string) (r : ScanResult) : ScanResult :=
  {| Considered := Considered r; Debanned := Debanned r; Excluded := Excluded r; Errors := <[ip := err]> (Errors r) |}.

Definition scan_step (clk : nat -> Z) (e : Entry) (s : Service) (r : ScanResult) : Service * ScanResult :=
  let r := considered r in
  let '(s, (reason, ok)) := evaluateEntry clk e s in
  if negb ok then (s, add_excluded (IP e) reason r)
  else
    let '(s, x) := deban clk e reason s in
    match x with
    | Err m => (s, add_error (IP e) m r)
    | Ok _ => (s, add_debanned (IP e) r)
    end.

Fixpoint scan_loop (clk : nat -> nat -> Z) (i : nat) (es : list Entry) (s : Service) (r : ScanResult)
  : Service * ScanResult :=
  match es with
  | [] => (s, r)
  | e :: es => let '(s, r) := scan_step (clk i) e s r in scan_loop clk (S i) es s r
  end.

Definition empty_result : ScanResult := {| Considered := 0; Debanned := []; Excluded := ∅; Errors := ∅ |}.

(** [clk i] is the clock while the [i]-th entry is looked at. *)
Definition Scan (clk : nat -> nat -> Z) (s : Service) : Service * ScanResult :=
  if negb (Enabled (cfg s)) then (s, empty_result)
  else match store s with
       | None => (s, empty_result)
       | Some st =>
           match Active st with
           | Err m => (s, add_error "*" ("store_active_error: " +:+ m) empty_result)
           | Ok es => scan_loop clk 0 es s empty_result
           end
       end.

(** ** What a lifted ban has in common *)

(** Nothing excludes it: it is not protected, not a recidivist in the first
    half of its ban, shows no hostile event in the window, and CrowdSec says
    that it holds no decision. *)
Record clear (clk : nat -> Z) (e : Entry) (s : Service) : Prop := {
  cl_trust : forall reg, trustReg s = Some reg -> Trust.MatchIP reg (IP e) = [];
  cl_recidive : RecidiveLevel e < 2 \/ Duration e <= 0 \/
    recidive_window (Duration e) <= t_sub (clk 0%nat) (CreatedAt e);
  cl_evidence : exists f rs, evidence s = Some f /\
    f (clk 1%nat) (IP e) (t_add (clk 0%nat) (- RecentWAFEventWindow (cfg s))) = Ok rs /\
    Forall (fun r => isBenignAbuseType (er_AbuseType r) = true) rs;
  cl_crowdsec : exists f, crowdsec s = Some f /\ f (clk 2%nat) (IP e) = Ok false;
}.

(** All its events, if it ever had any, are older than the window. *)
Definition idle (clk : nat -> Z) (e : Entry) (s : Service) : Prop :=
  exists f rs, evidence s = Some f /\ f (clk 3%nat) (IP e) 0 = Ok rs /\
    Forall (fun r => NoNewEventsWindow (cfg s) <= t_sub (clk 0%nat) (er_Timestamp r)) rs.

Definition trigger (clk : nat -> Z) (e : Entry) (s : Service) : Prop :=
  idle clk e s \/ Confidence e <= 0 \/
  exists g, Reputation.AllowBan (AutoBan.gate_EvaluateBan (clk 4%nat) (IP e) weak_local g).2 = false.

(** What the scan does not change. *)
Definition same_config (s s' : Service) : Prop :=
  crowdsec s' = crowdsec s /\ evidence s' = evidence s /\ trustReg s' = trustReg s /\ cfg s' = cfg s.

Lemma same_config_trans s1 s2 s3 : same_config s1 s2 -> same_config s2 s3 -> same_config s1 s3.
Proof. intros (? & ? & ? & ?) (? & ? & ? & ?). repeat split; congruence. Qed.

Lemma same_config_sym s s' : same_config s s' -> same_config s' s.
Proof. intros (? & ? & ? & ?). done. Qed.

Lemma clear_config clk e s s' : same_config s s' -> clear clk e s' -> clear clk e s.
Proof. intros (E1 & E2 & E3 & E4) [? ? ? ?]. constructor; rewrite <- ?E1, <- ?E2, <- ?E3, <- ?E4; done. Qed.

Lemma idle_config clk e s s' : same_config s s' -> idle clk e s' <-> idle clk e s.
Proof. intros (_ & E2 & _ & E4). unfold idle. by rewrite E2, E4. Qed.

Lemma trigger_config clk e s s' : same_config s s' -> trigger clk e s' -> trigger clk e s.
Proof. intros Hs. unfold trigger. by rewrite (idle_config clk e s s' Hs). Qed.

Lemma recidive_false now e : active_recidive now e = false <->
  RecidiveLevel e < 2 \/ Duration e <= 0 \/ recidive_window (Duration e) <= t_sub now (CreatedAt e).
Proof. unfold active_recidive. rewrite !andb_false_iff, Z.leb_gt, !Z.ltb_ge. tauto. Qed.

Lemma hostile_false rs :
  existsb (fun r => negb (isBenignAbuseType (er_AbuseType r))) rs = false <->
  Forall (fun r => isBenignAbuseType (er_AbuseType r) = true) rs.
Proof.
  induction rs as [|r rs IH]; cbn; [by split; constructor|].
  rewrite orb_false_iff, negb_false_iff, IH, Forall_cons. done.
Qed.

Lemma exclusion_none clk e s : exclusion clk e s = None <-> untracked (IP e) s = false /\ clear clk e s.
Proof.
  unfold exclusion. assert (protected (IP e) s = false <->
    forall reg, trustReg s = Some reg -> Trust.MatchIP reg (IP e) = []) as Hp.
  { unfold protected. destruct (trustReg s); [|done]. rewrite negb_false_iff, bool_decide_eq_true. naive_solver. }
  split.
  - destruct (protected (IP e) s) eqn:E1; [done|]. destruct (untracked (IP e) s); [done|].
    destruct (active_recidive (clk 0%nat) e) eqn:E2; [done|].
    unfold hasRecentHostileEvent. destruct (evidence s) as [f|] eqn:E3; [|done].
    destruct (f (clk 1%nat) _ _) as [rs|] eqn:E4; [|done]. destruct (existsb _ rs) eqn:E5; [done|].
    unfold crowdsecActive. destruct (crowdsec s) as [h|] eqn:E6; [|done].
    destruct (h (clk 2%nat) (IP e)) as [[]|] eqn:E7; try done. intros _. split; [done|].
    apply recidive_false in E2. apply hostile_false in E5. constructor; [by apply Hp|done|eauto|eauto].
  - intros [-> [Ht Hr (f & rs & Ef & Hrs & Hb) (h & Eh & Hh)]].
    rewrite (proj2 Hp Ht), (proj2 (recidive_false _ _) Hr).
    unfold hasRecentHostileEvent, crowdsecActive. by rewrite Ef, Hrs, (proj2 (hostile_false rs) Hb), Eh, Hh.
Qed.

(** The latest event is old enough exactly when all are. *)
Lemma later_old w now t rs :
  w <= t_sub now (foldl later t rs) <->
  w <= t_sub now t /\ Forall (fun r => w <= t_sub now (er_Timestamp r)) rs.
Proof.
  revert t. induction rs as [|r rs IH]; intros t; cbn; [by rewrite Forall_nil; tauto|].
  rewrite IH, Forall_cons.
  assert (w <= t_sub now (later t r) <-> w <= t_sub now t /\ w <= t_sub now (er_Timestamp r)) as ->.
  { unfold later, t_after, t_sub, sat64. destruct (Z.ltb_spec t (er_Timestamp r)); lia. }
  tauto.
Qed.

Lemma reevaluate_spec clk e s s' reason ok :
  reevaluate clk e s = (s', (reason, ok)) ->
  same_config s s' /\ store s' = store s /\ cf s' = cf s /\ deletes s' = deletes s /\
  (ok = true -> trigger clk e s).
Proof.
  unfold reevaluate, trigger. destruct (Z.leb_spec (Confidence e) 0); [by intros; simplify_eq; repeat split; auto|].
  destruct (gate s) as [g|]; [|by intros; simplify_eq].
  destruct (AutoBan.gate_EvaluateBan _ _ _ g) as [g' d] eqn:E.
  destruct (Reputation.AllowBan d) eqn:Ea; cbn; intros; simplify_eq; split_and!; try done.
  intros _. right; right. exists g. by rewrite E.
Qed.

Lemma evaluateEntry_spec clk e s s' reason ok :
  evaluateEntry clk e s = (s', (reason, ok)) ->
  same_config s s' /\ store s' = store s /\ cf s' = cf s /\ deletes s' = deletes s /\
  (ok = true -> untracked (IP e) s = false /\ clear clk e s /\ trigger clk e s) /\
  (ok = false -> ~ (untracked (IP e) s = false /\ clear clk e s /\ idle clk e s)).
Proof.
  unfold evaluateEntry. destruct (exclusion clk e s) as [x|] eqn:Ex.
  { intros; simplify_eq. split_and!; try done. intros _ (Hu & Hc & _). assert (exclusion clk e s' = None) by
      (by apply exclusion_none). congruence. }
  apply exclusion_none in Ex as [Hu Hc]. unfold lastEventAt, idle.
  destruct (evidence s) as [f|] eqn:Ef; [|destruct (cl_evidence _ _ _ Hc) as (? & ? & ? & _); congruence].
  destruct (f (clk 3%nat) (IP e) 0) as [[|r rs]|m] eqn:Er.
  - intros; simplify_eq. split_and!; try done. intros _. split_and!; [done..|]. left. exists f, []. auto.
  - destruct (Z.leb_spec (NoNewEventsWindow (cfg s)) (t_sub (clk 0%nat) (foldl later (er_Timestamp r) rs))) as [Hw|Hw].
    + intros; simplify_eq. split_and!; try done. intros _. split_and!; [done..|]. left. exists f, (r :: rs).
      split_and!; [done..|]. apply Forall_cons, later_old, Hw.
    + intros (? & ? & ? & ? & Ht)%reevaluate_spec. split_and!; [done..|auto|].
      intros _ (_ & _ & f' & rs' & [= <-] & Er' & Hold). assert (rs' = r :: rs) as -> by congruence.
      apply Forall_cons in Hold. rewrite <- later_old in Hold. lia.
  - intros (? & ? & ? & ? & Ht)%reevaluate_spec. split_and!; [done..|auto|].
    intros _ (_ & _ & f' & rs' & [= <-] & Er' & _). congruence.
Qed.

Lemma deban_spec clk e reason s s' r :
  deban clk e reason s = (s', r) ->
  same_config s s' /\
  (store s' = store s /\ (is_ok r = true -> shadow s = false -> store s = None) \/
   is_ok r = true /\ shadow s = false /\ exists st st' note, store s = Some st /\ store s' = Some st' /\
     MarkStatus (clk 6%nat) (IP e) StatusAutoDebanned note st = Ok st') /\
  (deletes s' = deletes s \/
   deletes s' = deletes s ++ [(IP e, RuleID e)] /\ RuleID e <> "" /\ shadow s = false) /\
  (shadow s = true -> r = Ok tt /\ cf s' = cf s).
Proof.
  unfold deban. assert (forall t n, shadow (record_deban t e reason n s) = shadow s) as Hsh by done. rewrite Hsh.
  destruct (shadow s); [intros; simplify_eq; repeat split; auto; try (by left; split); try (by right); done|].
  cbn [cf record_deban set_records]. destruct (cf s) as [c|]; [|intros; simplify_eq; repeat split; auto; try (by left; split); try (by right); done].
  case_bool_decide; [intros; simplify_eq; repeat split; auto; try (by left; split); try (by right); done|].
  destruct (delete_rule _ _ c) as [c' [[]|m]]; [|intros; simplify_eq; repeat split; auto; try (by left; split); try (by right); done].
  cbn [store set_cf record_deban set_records].
  destruct (store s) as [st|] eqn:Es; [|intros; simplify_eq; cbn; rewrite ?Es; repeat split; auto; try (by left; split); try (by right); done].
  destruct (MarkStatus _ _ _ _ st) as [st'|m] eqn:Em; intros; simplify_eq; cbn.
  - repeat split; try done; [right; eauto 10|right; done].
  - repeat split; try done; [left; done|right; done].
Qed.

Context `{!BanStore T}.

Definition untouched (ip : string) (r : ScanResult) : Prop :=
  (ip ∉ Debanned r) /\ Excluded r !! ip = None /\ Errors r !! ip = None.

(** The fate of one entry of a scan that began in [s] with the store [st], and
    ended with the store [st'] and the result [r]. *)
Definition fate (clk : nat -> Z) (e : Entry) (s : Service) (st st' : T) (r : ScanResult) : Prop :=
  let ip := IP e in
  (ip ∈ Debanned r /\ Excluded r !! ip = None /\ Errors r !! ip = None /\
   clear clk e s /\ trigger clk e s /\
   last (hist st' ip) = Some (if shadow s then e else set_status StatusAutoDebanned e)) \/
  ((ip ∉ Debanned r) /\ is_Some (Excluded r !! ip) /\ Errors r !! ip = None /\
   hist st' ip = hist st ip /\ ~ (RuleID e <> "" /\ clear clk e s /\ idle clk e s)) \/
  ((ip ∉ Debanned r) /\ Excluded r !! ip = None /\ is_Some (Errors r !! ip) /\
   hist st' ip = hist st ip /\ shadow s = false).

(** Nothing concerns [ip] between two moments of a scan. *)
Definition same_at (ip : string) (st st' : T) (r r' : ScanResult) : Prop :=
  hist st' ip = hist st ip /\ (ip ∈ Debanned r' <-> ip ∈ Debanned r) /\
  Excluded r' !! ip = Excluded r !! ip /\ Errors r' !! ip = Errors r !! ip.

Lemma fate_end clk e s st st1 st' r1 r' :
  fate clk e s st st1 r1 -> same_at (IP e) st1 st' r1 r' -> fate clk e s st st' r'.
Proof. unfold fate. intros Hf (-> & -> & -> & ->). done. Qed.

Lemma shadow_config s s' : same_config s s' -> shadow s' = shadow s.
Proof. intros (_ & _ & _ & E). unfold shadow. by rewrite E. Qed.

Lemma fate_start clk e s s1 st st1 st' r' :
  same_config s s1 -> hist st1 (IP e) = hist st (IP e) ->
  fate clk e s1 st1 st' r' -> fate clk e s st st' r'.
Proof.
  intros Hs Hh. unfold fate. rewrite Hh, (shadow_config _ _ Hs).
  intros [(? & ? & ? & ? & ? & ?)|[(? & ? & ? & ? & Hn)|?]]; [left|right; left|by right; right].
  - split_and!; [done..|by eapply clear_config|by eapply trigger_config|done].
  - split_and!; try done. intros (? & ? & ?). apply Hn. split_and!; [done| |].
    + by eapply clear_config; [apply same_config_sym|].
    + by apply (idle_config _ _ _ _ Hs).
Qed.

Lemma tracked_rule e s st :
  store s = Some st -> bs_wf st -> last (hist st (IP e)) = Some e ->
  untracked (IP e) s = false <-> RuleID e <> "".
Proof. intros Es Hwf Hl. unfold untracked. rewrite Es, get_law, Hl by done. apply bool_decide_eq_false. Qed.

(** A deletion that was asked for. *)
Definition asked (clk : nat -> Z) (e : Entry) (s : Service) (d : string * string) : Prop :=
  d = (IP e, RuleID e) /\ RuleID e <> "" /\ shadow s = false /\ clear clk e s /\ trigger clk e s.

Lemma scan_step_spec clk e s r st s1 r1 :
  scan_step clk e s r = (s1, r1) ->
  store s = Some st -> bs_wf st -> last (hist st (IP e)) = Some e -> untouched (IP e) r ->
  exists st1, same_config s s1 /\ store s1 = Some st1 /\ bs_wf st1 /\
    Considered r1 = Considered r + 1 /\
    (forall ip, ip <> IP e -> same_at ip st st1 r r1) /\ fate clk e s st st1 r1 /\
    (deletes s1 = deletes s \/ exists d, deletes s1 = deletes s ++ [d] /\ asked clk e s d) /\
    (shadow s = true -> cf s1 = cf s /\ st1 = st).
Proof.
  intros Hstep Es Hwf Hl (Hu1 & Hu2 & Hu3). pose proof (tracked_rule e s st Es Hwf Hl) as Htr.
  unfold scan_step in Hstep. destruct (evaluateEntry clk e s) as [s0 [reason ok]] eqn:Ee.
  apply evaluateEntry_spec in Ee as (Hc0 & Es0 & Ecf0 & Ed0 & Hok & Hko).
  destruct ok; cbn [negb] in Hstep.
  - destruct (Hok eq_refl) as (Hid%Htr & Hcl & Htg). destruct (deban clk e reason s0) as [s2 x] eqn:Edb.
    apply deban_spec in Edb as (Hc2 & Hst & Hdel & Hsh). rewrite (shadow_config _ _ Hc0) in *.
    assert (same_config s s2) as Hc by by eapply same_config_trans.
    assert (s1 = s2) as -> by (destruct x; by simplify_eq).
    destruct Hst as [[Est Hnone]|(Hx & Hs & st0 & st2 & note & Est0 & Est2 & Hm)].
    + exists st. split_and!; [done|congruence|done|by destruct x; simplify_eq| | | |].
      * intros ip Hne. destruct x; simplify_eq; unfold same_at; cbn; split_and!; try done; [set_solver|].
        by rewrite lookup_insert_ne.
      * unfold fate. destruct x as [[]|m]; simplify_eq; cbn.
        -- left. split_and!; try done; [set_solver|]. destruct (shadow s); [done|].
           specialize (Hnone eq_refl eq_refl). congruence.
        -- right; right. split_and!; try done; [by rewrite lookup_insert_eq; eexists|].
           destruct (shadow s); [|done]. by destruct (Hsh eq_refl).
      * destruct Hdel as [->|(-> & ? & ?)]; [left; congruence|right]. exists (IP e, RuleID e).
        split; [congruence|done].
      * intros Hs. destruct (Hsh Hs). split; [congruence|done].
    + assert (st0 = st) as -> by congruence. destruct (mark_law _ _ _ _ _ _ Hwf Hm) as (Hwf2 & Hh2 & Ho2).
      destruct x as [[]|m]; [|done]. simplify_eq. exists st2. split_and!; [done..| | | |].
      * intros ip Hne. unfold same_at. cbn. split_and!; [by apply Ho2|set_solver|done|done].
      * unfold fate. left. cbn. split_and!; try done; [set_solver|]. by rewrite Hh2, last_update_last, Hl, Hs.
      * destruct Hdel as [->|(-> & ? & ?)]; [left; congruence|right]. exists (IP e, RuleID e).
        split; [congruence|done].
      * intros Hs'. congruence.
  - simplify_eq. exists st. split_and!; [done|congruence|done|done| | |left; congruence|done].
    + intros ip Hne. unfold same_at. cbn. by rewrite lookup_insert_ne.
    + unfold fate. right; left. cbn. split_and!; try done; [by rewrite lookup_insert_eq; eexists|].
      intros (? & ? & ?). apply Hko; [done|]. split_and!; [by apply Htr|done|done].
Qed.

Lemma scan_loop_spec clk i es s r st s' r' :
  scan_loop clk i es s r = (s', r') ->
  store s = Some st -> bs_wf st -> NoDup (IP <$> es) ->
  (forall e, e ∈ es -> last (hist st (IP e)) = Some e /\ untouched (IP e) r) ->
  exists st', same_config s s' /\ store s' = Some st' /\ bs_wf st' /\
    Considered r' = Considered r + Z.of_nat (length es) /\
    (forall ip, ip ∉ IP <$> es -> same_at ip st st' r r') /\
    (forall j e, es !! j = Some e -> fate (clk (i + j)%nat) e s st st' r') /\
    (exists ds, deletes s' = deletes s ++ ds /\
       forall d, d ∈ ds -> exists j e, es !! j = Some e /\ asked (clk (i + j)%nat) e s d) /\
    (shadow s = true -> cf s' = cf s /\ st' = st).
Proof.
  revert i s r st. induction es as [|e es IH]; intros i s r st Hloop Es Hwf Hnd Hes; cbn in Hloop.
  - simplify_eq. exists st. split_and!; try done; [cbn; lia|]. exists []. rewrite app_nil_r. split; [done|set_solver].
  - destruct (scan_step (clk i) e s r) as [s1 r1] eqn:Estep. cbn in Hnd. apply NoDup_cons in Hnd as [Hnot Hnd].
    destruct (Hes e) as [Hl Hu]; [by left|].
    destruct (scan_step_spec _ _ _ _ _ _ _ Estep Es Hwf Hl Hu) as (st1 & Hc & Es1 & Hwf1 & Hn1 & Hsame & Hf & Hd & Hsh).
    destruct (IH (S i) s1 r1 st1 Hloop Es1 Hwf1 Hnd) as (st' & Hc' & Es' & Hwf' & Hn' & Hsame' & Hf' & (ds & Hds & Hask) & Hsh').
    { intros e' He'. destruct (Hes e') as [Hl' Hu']; [by right|].
      assert (IP e' <> IP e) as Hne by (intros Heq; apply Hnot; rewrite <- Heq; by apply list_elem_of_fmap_2).
      destruct (Hsame _ Hne) as (Hh & Hdb & Hex & Her). unfold untouched. by rewrite Hh, Hdb, Hex, Her. }
    exists st'. split_and!; [by eapply same_config_trans|done|done|cbn [length]; lia| | | |].
    + intros ip [Hne Hip]%not_elem_of_cons. destruct (Hsame _ Hne) as (? & ? & ? & ?), (Hsame' _ Hip) as (? & ? & ? & ?).
      unfold same_at. split_and!; [congruence|etransitivity; done|congruence|congruence].
    + intros [|j] e' Hj; cbn in Hj.
      * simplify_eq. rewrite Nat.add_0_r. eapply fate_end; [done|]. by apply Hsame'.
      * rewrite Nat.add_succ_r. eapply fate_start; [done| |by apply (Hf' j)].
        apply Hsame. intros Heq. apply Hnot. rewrite <- Heq. apply list_elem_of_fmap_2. by eapply list_elem_of_lookup_2.
    + assert (forall j e' d, es !! j = Some e' -> asked (clk (S i + j)%nat) e' s1 d -> asked (clk (i + S j)%nat) e' s d) as Htail.
      { intros j e' d _ (-> & ? & ? & ? & ?). rewrite Nat.add_succ_r. unfold asked. rewrite <- (shadow_config _ _ Hc).
        split_and!; [done..|by eapply clear_config|by eapply trigger_config]. }
      destruct Hd as [Hd|(d0 & Hd & Hd0)].
      * exists ds. split; [congruence|]. intros d Hin. destruct (Hask d Hin) as (j & e' & ? & ?). exists (S j), e'. eauto.
      * exists (d0 :: ds). split; [by rewrite Hds, Hd, <- app_assoc|]. intros d [->|Hin]%elem_of_cons.
        -- exists 0%nat, e. by rewrite Nat.add_0_r.
        -- destruct (Hask d Hin) as (j & e' & ? & ?). exists (S j), e'. eauto.
    + rewrite (shadow_config _ _ Hc) in Hsh'. intros Hs. destruct (Hsh Hs), (Hsh' Hs). split; congruence.
Qed.

(** *** Properties *)

(** Every active ban has one fate in a scan.  Either it is reported lifted:
    then nothing excluded it (it is not protected, not a fresh recidivist, has
    no hostile event in the window and CrowdSec denies a decision) and a
    trigger held, and in enforce mode its entry is now auto-debanned while in
    shadow mode it stays as it was; or it is reported excluded and stays, which
    never happens to a tracked ban that nothing excludes and whose events are
    all old; or its removal failed, which is reported and leaves it active.  No
    other ban changes, and the counts add up. *)
Theorem Scan_outcome clk s st :
  Enabled (cfg s) = true -> store s = Some st -> bs_wf st ->
  exists es st', Active st = Ok es /\ store (Scan clk s).1 = Some st' /\ bs_wf st' /\
    Considered (Scan clk s).2 = Z.of_nat (length es) /\
    (forall i e, es !! i = Some e -> fate (clk i) e s st st' (Scan clk s).2) /\
    (forall ip, ip ∉ IP <$> es -> hist st' ip = hist st ip).
Proof.
  intros Hen Es Hwf. destruct (active_law st Hwf) as (es & Ha & Hnd & Hin).
  unfold Scan. rewrite Hen, Es, Ha. cbn [negb].
  destruct (scan_loop clk 0 es s empty_result) as [s' r] eqn:El.
  destruct (scan_loop_spec _ _ _ _ _ _ _ _ El Es Hwf Hnd) as (st' & _ & Es' & Hwf' & Hn & Hsame & Hf & _).
  { intros e He. split; [by apply Hin|]. unfold untouched, empty_result. cbn. rewrite !lookup_empty. set_solver. }
  exists es, st'. split_and!; [done..|exact Hn|exact Hf|]. intros ip Hip. by apply Hsame.
Qed.

(** Every deletion a scan asks of Cloudflare is of the rule of an active
    ban that nothing excludes and for which a trigger held at that time; in
    shadow mode a scan asks for none, and leaves Cloudflare and the ban store
    as they were. *)
Theorem Scan_justified clk s st :
  store s = Some st -> bs_wf st ->
  (exists es ds, Active st = Ok es /\ deletes (Scan clk s).1 = deletes s ++ ds /\
     forall d, d ∈ ds -> exists i e, es !! i = Some e /\ asked (clk i) e s d) /\
  (shadow s = true -> deletes (Scan clk s).1 = deletes s /\ cf (Scan clk s).1 = cf s /\ store (Scan clk s).1 = store s).
Proof.
  intros Es Hwf. destruct (active_law st Hwf) as (es & Ha & Hnd & Hin).
  unfold Scan. destruct (Enabled (cfg s)); cbn [negb].
  2:{ split; [|done]. exists es, []. rewrite app_nil_r. split_and!; [done..|set_solver]. }
  rewrite Es, Ha. destruct (scan_loop clk 0 es s empty_result) as [s' r] eqn:El.
  destruct (scan_loop_spec _ _ _ _ _ _ _ _ El Es Hwf Hnd) as (st' & _ & Es' & _ & _ & _ & _ & (ds & Hds & Hask) & Hsh).
  { intros e He. split; [by apply Hin|]. unfold untouched, empty_result. cbn. rewrite !lookup_empty. set_solver. }
  split; [by exists es, ds|]. intros Hs. destruct (Hsh Hs) as [Hcf ->].
  split; [|by split]. destruct ds as [|d ds]; [cbn; by rewrite Hds, app_nil_r|].
  destruct (Hask d) as (j & e & _ & _ & _ & Hs' & _); [by left|]. congruence.
Qed.

End service.

(** Two bans, one of them without a rule id; quiet providers. *)
#[global] Instance no_deleter : CloudflareDeleter unit := fun _ _ c => (c, Ok tt).
#[global] Instance no_writer : DebanEvidenceWriter unit := fun _ _ _ _ _ d => (d, Ok tt).
#[global] Instance no_gate : AutoBan.ReputationGate Empty_set := fun _ _ _ g => match g with end.

Definition demo_service : Service (T := MemStore.Store) (G := Empty_set) (C := unit) (D := unit) :=
  NewService (Some Cleanup.demo_store) None (Some tt) (Some (fun _ _ => Ok false)) (Some (fun _ _ _ => Ok []))
    (Some []) (Some tt) (Some Trust.DefaultRegistry)
    {| Enabled := true; Mode := "enforce"; NoNewEventsWindow := 0; RecentWAFEventWindow := 0; ZoneID := "z" |}.

Lemma Scan_outcome_witness :
  exists st', store (Scan (fun _ _ => 2 * hour) demo_service).1 = Some st' /\
    Debanned (Scan (fun _ _ => 2 * hour) demo_service).2 = ["203.0.113.8"] /\
    last (hist st' "203.0.113.8") = Some (set_status StatusAutoDebanned (Cleanup.demo_entry "203.0.113.8" "a404b")).
Proof.
  destruct (Scan_outcome (fun _ _ => 2 * hour) demo_service Cleanup.demo_store eq_refl eq_refl
              (Cleanup.demo_store_wf false)) as (es & st' & Ha & Es & _ & _ & Hf & _).
  exists st'. split_and!; [done|by vm_compute|].
  assert (Cleanup.demo_entry "203.0.113.8" "a404b" ∈ es) as [i Hi]%list_elem_of_lookup.
  { assert (match Active Cleanup.demo_store with
            | Ok l => bool_decide (Cleanup.demo_entry "203.0.113.8" "a404b" ∈ l) | Err _ => false end = true) as Hin
      by by vm_compute.
    rewrite Ha in Hin. by apply bool_decide_eq_true in Hin. }
  destruct (Hf i _ Hi) as [(_ & _ & _ & _ & _ & Hl)|[(Hn & _)|(Hn & _)]]; [exact Hl| |];
    destruct Hn; vm_compute; by left.
Defined.

Lemma Scan_justified_witness :
  deletes (Scan (fun _ _ => 2 * hour) demo_service).1 = [("203.0.113.8", "a404b")] /\
  exists e, asked (fun _ => 2 * hour) e demo_service ("203.0.113.8", "a404b").
Proof.
  split; [by vm_compute|].
  destruct (Scan_justified (fun _ _ => 2 * hour) demo_service Cleanup.demo_store eq_refl
              (Cleanup.demo_store_wf false)) as [(es & ds & _ & Hd & Hask) _].
  vm_compute in Hd. destruct (Hask ("203.0.113.8", "a404b")) as (i & e & _ & He); [|by exists e].
  rewrite <- Hd. by left.
Defined.
End AutoDeban.
