(* ===== verification/Guard.v ===== *)
(** * The security guard of the executor

    [internal/execution/security_guard.go] with the packages it decides by:
    [internal/security/blastradius], [internal/security/confidence] and
    [internal/security/fp_memory].  The reputation checker is an interface, a
    function of the time and the address; metadata of a decision is left out,
    as in [Execution]. *)

From Stdlib Require Import SpecFloat.
From S2P Require Import Prelude Netip GoFmt Trust Events Snapshot Scheduler Execution Reports.
Import Netip.

Local Open Scope Z_scope.

(** ** Floating point ([math]) *)
Module Math.
Import F64.

(** A decimal constant [n / d] of the source, rounded once. *)
Definition dec (n d : Z) : float64 := div (of_int n) (of_int d).

Definition sign (a : float64) : bool :=
  match a with S754_zero s | S754_infinity s | S754_finite s _ _ => s | S754_nan => false end.

Definition is_nan (a : float64) : bool := match a with S754_nan => true | _ => false end.

Definition Max (x y : float64) : float64 :=
  if SFeqb x (S754_infinity false) || SFeqb y (S754_infinity false) then S754_infinity false
  else if is_nan x || is_nan y then S754_nan
  else if SFeqb x zero && SFeqb x y then (if sign x then y else x)
  else if gtb x y then x else y.

Definition Min (x y : float64) : float64 :=
  if SFeqb x (S754_infinity true) || SFeqb y (S754_infinity true) then S754_infinity true
  else if is_nan x || is_nan y then S754_nan
  else if SFeqb x zero && SFeqb x y then (if sign x then x else y)
  else if SFltb x y then x else y.

(** [Duration.Hours]. *)
Definition hours (d : Z) : float64 := add (of_int (Z.quot d hour)) (div (of_int (Z.rem d hour)) (of_int hour)).
End Math.

(** ** Confidence of a decision ([confidence.go]) *)
Module Confidence.
Import F64 Math.

Record Evidence := {
  ev_Source : string; ev_Category : string; Weight : float64; Reference : string; ev_Penalty : float64;
  ReplayToken : string;
}.

Record Policy := { ReviewThreshold : float64; HardDenyFloor : float64; GlobalFloor : float64 }.

Record DecisionConfidence := {
  Score_ : float64;
  EvidenceCount : Z;
  Sources : list string;
  DetectionCategory : string;
  ReplayEvidence : list string;
  RequiresHumanReview : bool;
  AllowHardDeny : bool;
  AllowGlobalAction : bool;
}.

Definition DefaultPolicy : Policy :=
  {| ReviewThreshold := dec 70 100; HardDenyFloor := dec 85 100; GlobalFloor := dec 95 100 |}.

Definition clamp (v minV maxV : float64) : float64 := Max minV (Min maxV v).

Definition Score (evidence : list Evidence) (detectionCategory : string) (policy : Policy) : DecisionConfidence :=
  let score := foldl (fun acc x => add acc (clamp (sub (Weight x) (ev_Penalty x)) zero (of_int 1))) zero evidence in
  let sources : gset string := list_to_set (List.filter (fun s => negb (bool_decide (s = ""))) (ev_Source <$> evidence)) in
  let replay := List.filter (fun s => negb (bool_decide (s = ""))) (ReplayToken <$> evidence) in
  let n := Z.of_nat (length evidence) in
  let normalized := if 0 <? n then clamp (div score (of_int n)) zero (of_int 1) else zero in
  {| Score_ := normalized; EvidenceCount := n; Sources := isort str_lt (elements sources);
     DetectionCategory := detectionCategory; ReplayEvidence := isort str_lt replay;
     RequiresHumanReview := SFltb normalized (ReviewThreshold policy) || (n =? 0);
     AllowHardDeny := SFleb (HardDenyFloor policy) normalized;
     AllowGlobalAction := SFleb (GlobalFloor policy) normalized |}.
End Confidence.

(** ** Blast radius ([blastradius.go]) *)
Module BlastRadius.
Import F64 Math.

Record Limits := {
  MaxActionsPerMinute : Z; MaxCrossScopeActions : Z; MaxTenantWideActions : Z; MinConfidenceForGlobal : float64;
}.

Record ProposedAction := {
  pa_ScopeID : string; pa_TenantID : string; pa_TargetIP : string; pa_TargetService : string; pa_Action : string;
  CrossScope : bool; TenantWide : bool; Count : Z; ConfidenceScore : float64;
}.

Record Verdict := { Allowed : bool; RequiresReview : bool; FreezeRecommended : bool; v_Reason : string }.

Definition DefaultLimits : Limits :=
  {| MaxActionsPerMinute := 10; MaxCrossScopeActions := 1; MaxTenantWideActions := 1;
     MinConfidenceForGlobal := dec 95 100 |}.

Definition refuse (freeze : bool) (reason : string) : Verdict :=
  {| Allowed := false; RequiresReview := true; FreezeRecommended := freeze; v_Reason := reason |}.

(** Reading a nil registry panics: [None]. *)
Definition match_ip (reg : option Trust.Registry) (ip : string) : option (list Trust.Match) :=
  match ParseAddr ip, reg with
  | None, _ => Some []
  | Some _, Some r => Some (Trust.MatchIP r ip)
  | Some _, None => None
  end.
Definition match_service (reg : option Trust.Registry) (name : string) : option (list Trust.Match) :=
  match reg with
  | Some r => Some (Trust.MatchService r name)
  | None => if bool_decide (trim_space (to_lower name) = "") then Some [] else None
  end.

(** What one action is refused for. *)
Definition check_action (reg : option Trust.Registry) (limits : Limits) (a : ProposedAction) : option (option Verdict) :=
  if SFltb (ConfidenceScore a) (MinConfidenceForGlobal limits) && (CrossScope a || TenantWide a)
  then Some (Some (refuse false "low-confidence action cannot propagate beyond scope"))
  else
    ms ← (if bool_decide (pa_TargetIP a = "") then Some [] else match_ip reg (pa_TargetIP a));
    match ms with
    | m :: _ => Some (Some (refuse true ("target IP " +:+ pa_TargetIP a +:+ " is protected (" +:+
                              Trust.pr_Name (Trust.m_Resource m) +:+ ")")))
    | [] =>
        ss ← (if bool_decide (pa_TargetService a = "") then Some [] else match_service reg (pa_TargetService a));
        match ss with
        | _ :: _ => Some (Some (refuse false ("target service " +:+ pa_TargetService a +:+ " is protected")))
        | [] => Some None
        end
    end.

(** The loop over the actions with its three sums. *)
Fixpoint check_actions (reg : option Trust.Registry) (limits : Limits) (total cross tenant : Z)
    (actions : list ProposedAction) : option Verdict :=
  match actions with
  | [] =>
      Some (if MaxActionsPerMinute limits <? total
            then refuse true "action volume exceeds per-minute blast-radius limit"
            else if MaxCrossScopeActions limits <? cross
            then refuse false "cross-scope propagation exceeds configured limit"
            else if MaxTenantWideActions limits <? tenant
            then refuse false "tenant-wide propagation exceeds configured limit"
            else {| Allowed := true; RequiresReview := false; FreezeRecommended := false; v_Reason := "" |})
  | a :: actions =>
      let total := wrap64 (total + Count a) in
      let cross := if CrossScope a then wrap64 (cross + Count a) else cross in
      let tenant := if TenantWide a then wrap64 (tenant + Count a) else tenant in
      v ← check_action reg limits a;
      match v with
      | Some v => Some v
      | None => check_actions reg limits total cross tenant actions
      end
  end.

Definition Evaluate (actions : list ProposedAction) (reg : option Trust.Registry) (limits : Limits) : option Verdict :=
  check_actions reg limits 0 0 0 actions.
End BlastRadius.

(** ** Memory of false positives ([fp_memory/store.go]) *)
Module FPMemory.
Import F64 Math.

Record Entry := {
  Key : string; Count : Z; LastSeen : Z; e_Penalty : float64; Category : string; Source : string; SuspectedFP : bool;
}.

Record Store := { entries : gmap string Entry; halfLife : Z }.

Definition New (halfLife : Z) : Store :=
  {| entries := ∅; halfLife := if halfLife <=? 0 then 24 * hour else halfLife |}.

Definition zero_entry : Entry :=
  {| Key := ""; Count := 0; LastSeen := 0; e_Penalty := zero; Category := ""; Source := ""; SuspectedFP := false |}.

Definition raise_penalty (p : float64) : float64 :=
  let p := add p (dec 15 100) in if gtb p (dec 9 10) then dec 9 10 else p.

Definition Remember (key category source : string) (suspected : bool) (now : Z) (s : Store) : Store * Entry :=
  let e := default zero_entry (entries s !! key) in
  let e := {| Key := key; Count := wrap64 (Count e + 1); LastSeen := now;
              e_Penalty := if suspected then raise_penalty (e_Penalty e) else e_Penalty e;
              Category := category; Source := source; SuspectedFP := suspected |} in
  ({| entries := <[key := e]> (entries s); halfLife := halfLife s |}, e).

Definition Penalty (key : string) (now : Z) (s : Store) : float64 :=
  match entries s !! key with
  | None => zero
  | Some e =>
      let age := t_sub now (LastSeen e) in
      if age <=? 0 then e_Penalty e
      else mul (e_Penalty e) (div (of_int 1) (add (of_int 1) (div (hours age) (hours (halfLife s)))))
  end.

Fixpoint remember_times (n : nat) (key : string) (now : Z) (s : Store) : Store :=
  match n with O => s | S n => remember_times n key now (Remember key "abuseipdb_preban" "local" true now s).1 end.

(** Six sightings saturate the penalty, and it halves in a half-life. *)
Example penalty_saturates :
  let s := remember_times 7 "k" hour (New 0) in
  Penalty "k" hour s = dec 9 10 /\ Penalty "k" (25 * hour) s = dec 45 100 /\ Penalty "other" hour s = zero.
Proof. by vm_compute. Qed.
End FPMemory.

(** ** The guard ([security_guard.go]) *)
Module Guard.
Import Canonical Snapshot Mutations Executor.

Definition FailureModeAllow : string := "allow".
Definition FailureModeSuppress : string := "suppress".

(** [reputation.Result]. *)
Record RepResult := { rr_Provider : string; rr_Score : Z; rr_CacheHit : bool }.

Record CloudflarePropagationGuard := {
  checker : option (Z -> addr -> result RepResult);
  g_trust : option Trust.Registry;
  limits : BlastRadius.Limits;
  policy : Confidence.Policy;
  threshold : Z;
  failureMode : string;
  memory : option FPMemory.Store;
}.

Definition NewCloudflarePropagationGuard (c : option (Z -> addr -> result RepResult)) (reg : option Trust.Registry)
  : CloudflarePropagationGuard :=
  {| checker := c; g_trust := reg; limits := BlastRadius.DefaultLimits; policy := Confidence.DefaultPolicy;
     threshold := 70; failureMode := FailureModeSuppress; memory := None |}.

Definition SetFalsePositiveMemory (m : option FPMemory.Store) (g : CloudflarePropagationGuard)
  : CloudflarePropagationGuard :=
  {| checker := checker g; g_trust := g_trust g; limits := limits g; policy := policy g; threshold := threshold g;
     failureMode := failureMode g; memory := m |}.
Definition SetFailureMode (mode : string) (g : CloudflarePropagationGuard) : CloudflarePropagationGuard :=
  if bool_decide (mode = "") then g
  else {| checker := checker g; g_trust := g_trust g; limits := limits g; policy := policy g; threshold := threshold g;
          failureMode := mode; memory := memory g |}.
Definition SetThreshold (t : Z) (g : CloudflarePropagationGuard) : CloudflarePropagationGuard :=
  if 0 <? t
  then {| checker := checker g; g_trust := g_trust g; limits := limits g; policy := policy g; threshold := t;
          failureMode := failureMode g; memory := memory g |}
  else g.

(** *** What a mutation is aimed at *)

(** [op.Payload.(map[string]any)]. *)
Definition payload_map (op : MutationOperation) : option attrs :=
  match mo_Payload op with Some (VMap m) => Some m | _ => None end.

Definition string_at (k : string) (m : attrs) : option string :=
  match lookup_key k m with Some (VString s) => Some s | _ => None end.

Definition ip_char (a : Ascii.ascii) : bool :=
  bool_decide (a = "."%char) || bool_decide (a = ":"%char) ||
  match hex_digit a with Some _ => true | None => false end.

(** [strings.FieldsFunc] with the complement of [ip_char]: the maximal runs. *)
Fixpoint ip_fields (s : string) : list string :=
  match s with
  | EmptyString => []
  | String a s' =>
      if ip_char a then
        match s' with
        | String b _ =>
            if ip_char b
            then match ip_fields s' with x :: l => String a x :: l | [] => [String a EmptyString] end
            else String a EmptyString :: ip_fields s'
        | EmptyString => [String a EmptyString]
        end
      else ip_fields s'
  end.

Fixpoint first_ip (fields : list string) : string :=
  match fields with
  | [] => ""
  | f :: fields => match ParseIP f with Some a => ip_string a | None => first_ip fields end
  end.

Definition extractIPFromString (s : string) : string := first_ip (ip_fields s).

Definition nonempty (s : string) : option string := if bool_decide (s = "") then None else Some s.

Definition item_ip (v : value) : option string :=
  match v with
  | VMap m => match string_at "ip" m with
              | Some ip => Some ip
              | None => e ← string_at "expression" m; nonempty (extractIPFromString e)
              end
  | _ => None
  end.

(** The first item that names an address. *)
Fixpoint items_ip (l : list value) : option string :=
  match l with
  | [] => None
  | v :: l => match item_ip v with Some ip => Some ip | None => items_ip l end
  end.

Definition payload_ip (m : attrs) : option string :=
  let config := match lookup_key "configuration" m with Some (VMap c) => string_at "value" c | _ => None end in
  match config with
  | Some v => Some v
  | None =>
      match string_at "ip" m with
      | Some ip => Some ip
      | None =>
          match (e ← string_at "expression" m; nonempty (extractIPFromString e)) with
          | Some ip => Some ip
          | None => match lookup_key "items" m with Some (VArray l) => items_ip l | _ => None end
          end
      end
  end.

Definition key_ip (key : string) : string :=
  match str_split ":" key with
  | kind :: rest =>
      if bool_decide (kind = "ip") && (2 <? length rest)%nat then nth 1 rest ""
      else if bool_decide (kind = "list_item") && (0 <? length rest)%nat then nth 0 rest ""
      else if bool_decide (kind = "rule") && (0 <? length rest)%nat then extractIPFromString key
      else ""
  | [] => ""
  end.

Definition extractTargetIP (op : MutationOperation) : string :=
  match payload_map op with
  | Some m => match payload_ip m with Some ip => ip | None => key_ip (mo_StableIdentityKey op) end
  | None => key_ip (mo_StableIdentityKey op)
  end.

Definition extractSource (op : MutationOperation) : string :=
  match payload_map op with
  | Some m => match string_at "notes" m with Some n => if bool_decide (n = "") then "local" else n | None => "local" end
  | None => "local"
  end.

Definition extractRuleID (op : MutationOperation) : string := mo_ResourceType op +:+ ":" +:+ mo_OperationID op.

Definition isProtectedCloudflareMutation (op : MutationOperation) : bool :=
  (bool_decide (mo_Type op = "create") || bool_decide (mo_Type op = "update")) &&
  (bool_decide (mo_ResourceType op = ResourceIPAccessRules) || bool_decide (mo_ResourceType op = ResourceListItems) ||
   bool_decide (mo_ResourceType op = ResourceRulesetRules) || bool_decide (mo_ResourceType op = ResourceRulesets)).

Definition requiresTargetedDecision (op : MutationOperation) : bool :=
  bool_decide (mo_ResourceType op = ResourceIPAccessRules) || bool_decide (mo_ResourceType op = ResourceListItems) ||
  match payload_map op with
  | None => false
  | Some m =>
      let action := to_lower (default "" (string_at "action" m)) in
      bool_decide (action = "block") || bool_decide (action = "managed_challenge")
      || bool_decide (action = "challenge") || bool_decide (action = "js_challenge")
  end.

(** *** The decision *)
Definition base_decision (op : MutationOperation) (target : string) : GuardDecision :=
  {| gd_Allowed := true; gd_Reason := ""; gd_TargetIP := target; gd_Source := extractSource op;
     gd_RuleID := extractRuleID op; gd_RiskScore := 0; gd_EnforcementStage := "propagable_ban" |}.

Definition with_risk (score : Z) (d : GuardDecision) : GuardDecision :=
  {| gd_Allowed := gd_Allowed d; gd_Reason := gd_Reason d; gd_TargetIP := gd_TargetIP d; gd_Source := gd_Source d;
     gd_RuleID := gd_RuleID d; gd_RiskScore := score; gd_EnforcementStage := gd_EnforcementStage d |}.

Definition suppressed (d : GuardDecision) (reason : string) : GuardDecision :=
  {| gd_Allowed := false; gd_Reason := reason; gd_TargetIP := gd_TargetIP d; gd_Source := gd_Source d;
     gd_RuleID := gd_RuleID d; gd_RiskScore := gd_RiskScore d; gd_EnforcementStage := "suppressed" |}.

(** The confidence that the guard computes from the detection and the score. *)
Definition preban_confidence (g : CloudflarePropagationGuard) (d : GuardDecision) (target : string) (rep : RepResult)
  : Confidence.DecisionConfidence :=
  Confidence.Score
    [{| Confidence.ev_Source := gd_Source d; Confidence.ev_Category := "local_detection";
        Confidence.Weight := Math.dec 60 100; Confidence.Reference := gd_RuleID d; Confidence.ev_Penalty := F64.zero;
        Confidence.ReplayToken := "" |};
     {| Confidence.ev_Source := rr_Provider rep; Confidence.ev_Category := "reputation_check";
        Confidence.Weight := F64.div (F64.of_int (rr_Score rep)) (F64.of_int 100);
        Confidence.Reference := rr_Provider rep +:+ "/check"; Confidence.ev_Penalty := F64.zero;
        Confidence.ReplayToken := target |}] "preban" (policy g).

Definition ban_action (target : string) (conf : F64.float64) : BlastRadius.ProposedAction :=
  {| BlastRadius.pa_ScopeID := "default"; BlastRadius.pa_TenantID := ""; BlastRadius.pa_TargetIP := target;
     BlastRadius.pa_TargetService := ""; BlastRadius.pa_Action := "cloudflare_ban"; BlastRadius.CrossScope := false;
     BlastRadius.TenantWide := false; BlastRadius.Count := 1; BlastRadius.ConfidenceScore := conf |}.

Definition remember_fp (t : Z) (target : string) (d : GuardDecision) (m : option FPMemory.Store)
  : option FPMemory.Store :=
  (fun s => (FPMemory.Remember ("preban:" +:+ target +:+ ":" +:+ gd_RuleID d) "abuseipdb_preban" (gd_Source d) true t s).1)
    <$> m.

(** The steps after the reputation answered. *)
Definition judge (t : Z) (g : CloudflarePropagationGuard) (target : string) (d : GuardDecision) (rep : RepResult)
  : option FPMemory.Store * option (result GuardDecision) :=
  if rr_Score rep <? threshold g then
    (remember_fp t target d (memory g),
     Some (Ok (suppressed d ("abuse score below threshold: " +:+ GoFmt.fmt_d (rr_Score rep) +:+ " < " +:+
                             GoFmt.fmt_d (threshold g)))))
  else
    let conf := preban_confidence g d target rep in
    let d := with_risk (rr_Score rep) d in
    match BlastRadius.Evaluate [ban_action target (Confidence.Score_ conf)] (g_trust g) (limits g) with
    | None => (memory g, None)
    | Some v => (memory g, Some (Ok (if BlastRadius.Allowed v then d else suppressed d (BlastRadius.v_Reason v))))
    end.

(** The memory and the decision; [None] when the guard panics. *)
Definition EvaluateMutation (t : Z) (op : MutationOperation) (g : CloudflarePropagationGuard)
  : option FPMemory.Store * option (result GuardDecision) :=
  if negb (isProtectedCloudflareMutation op) then (memory g, Some (Ok (base_decision op "")))
  else
    let target := extractTargetIP op in
    let d := base_decision op target in
    if bool_decide (target = "") then
      (memory g, Some (Ok (if requiresTargetedDecision op then suppressed d "cannot derive target ip" else d)))
    else
      match checker g with
      | None => (memory g, Some (Err (wrap_msg "execution.CloudflarePropagationGuard.EvaluateMutation"
                                        "reputation checker is required")))
      | Some check =>
          match ParseAddr target with
          | None => (memory g, Some (Ok (suppressed d "invalid target ip")))
          | Some a =>
              if match g_trust g with Some r => negb (bool_decide (Trust.MatchIP r target = [])) | None => false end
              then (memory g, Some (Ok (suppressed d "protected target")))
              else
                match check t a with
                | Err _ =>
                    (memory g, Some (Ok (if bool_decide (failureMode g = FailureModeAllow) then d
                                         else suppressed d "reputation unavailable")))
                | Ok rep => judge t g target d rep
                end
          end
      end.

(** The guard as the executor calls it; a panic ends the run. *)
Definition guard_fn (g : CloudflarePropagationGuard) (t : Z) (op : MutationOperation) : result GuardDecision :=
  match (EvaluateMutation t op g).2 with Some r => r | None => Err "panic: invalid memory address" end.

(** The call, which takes as long as the look-up of the reputation. *)
Definition guard_call (latency : Z -> MutationOperation -> N) (g : CloudflarePropagationGuard) (t : Z) (op : MutationOperation)
  : N * result GuardDecision := (latency t op, guard_fn g t op).

(** ** Lemmas *)

(** The target of a mutation passed every check at time [t]. *)
Definition screened (g : CloudflarePropagationGuard) (t : Z) (op : MutationOperation) : Prop :=
  let target := extractTargetIP op in
  exists a check, ParseAddr target = Some a /\ checker g = Some check /\
    (forall reg, g_trust g = Some reg -> Trust.MatchIP reg target = []) /\
    ((exists m, check t a = Err m /\ failureMode g = FailureModeAllow) \/
     (exists rep, check t a = Ok rep /\ threshold g <= rr_Score rep /\ 1 <= BlastRadius.MaxActionsPerMinute (limits g) /\
        0 <= BlastRadius.MaxCrossScopeActions (limits g) /\ 0 <= BlastRadius.MaxTenantWideActions (limits g))).

(** One ban inside its scope is refused for a protected target or by limits
    that admit nothing. *)
Lemma Evaluate_one target a conf reg lim :
  ParseAddr target = Some a -> target <> "" ->
  exists v, BlastRadius.Evaluate [ban_action target conf] (Some reg) lim = Some v /\
    (BlastRadius.Allowed v = true <->
     Trust.MatchIP reg target = [] /\ 1 <= BlastRadius.MaxActionsPerMinute lim /\
     0 <= BlastRadius.MaxCrossScopeActions lim /\ 0 <= BlastRadius.MaxTenantWideActions lim).
Proof.
  intros Ha Hne. unfold BlastRadius.Evaluate, BlastRadius.check_actions, BlastRadius.check_action, ban_action. cbn.
  rewrite andb_false_r, (bool_decide_false (target = "")) by done. unfold BlastRadius.match_ip. rewrite Ha. cbn.
  destruct (Trust.MatchIP reg target) as [|m ms]; cbn; [|eexists; split; [done|naive_solver]].
  change (wrap64 (0 + 1)) with 1.
  destruct (Z.ltb_spec (BlastRadius.MaxActionsPerMinute lim) 1); [eexists; split; [done|cbn; split; [done|lia]]|].
  destruct (Z.ltb_spec (BlastRadius.MaxCrossScopeActions lim) 0); [eexists; split; [done|cbn; split; [done|lia]]|].
  destruct (Z.ltb_spec (BlastRadius.MaxTenantWideActions lim) 0); [eexists; split; [done|cbn; split; [done|lia]]|].
  by eexists.
Qed.

Lemma EvaluateMutation_spec g t op reg :
  g_trust g = Some reg ->
  exists r, (EvaluateMutation t op g).2 = Some r /\
    ((exists d, r = Ok d /\ gd_Allowed d = true) <->
     isProtectedCloudflareMutation op = false \/
     (extractTargetIP op = "" /\ requiresTargetedDecision op = false) \/
     (extractTargetIP op <> "" /\ screened g t op)).
Proof.
  intros Hreg. unfold EvaluateMutation, screened. destruct (isProtectedCloudflareMutation op); cbn [negb].
  2:{ eexists. split; [done|]. split; [by left|]. intros _. by eexists. }
  destruct (bool_decide_reflect (extractTargetIP op = "")) as [Ht|Ht].
  { eexists. split; [done|]. destruct (requiresTargetedDecision op); split; try naive_solver. }
  destruct (checker g) as [check|]; [|eexists; split; [done|naive_solver]].
  destruct (ParseAddr (extractTargetIP op)) as [a|] eqn:Ea; [|eexists; split; [done|naive_solver]].
  rewrite Hreg. destruct (bool_decide_reflect (Trust.MatchIP reg (extractTargetIP op) = [])) as [Hm|Hm]; cbn [negb].
  2:{ eexists. split; [done|]. split; [naive_solver|]. intros [?|[[? _]|(_ & a' & c' & _ & _ & Hr & _)]]; try done.
      by destruct (Hm (Hr reg eq_refl)). }
  destruct (check t a) as [rep|m] eqn:Ec.
  - unfold judge. destruct (Z.ltb_spec (rr_Score rep) (threshold g)) as [Hlt|Hge].
    + eexists. split; [done|]. split; [naive_solver|].
      intros [?|[[? _]|(_ & a' & c' & [= <-] & [= <-] & _ & [(m & Hm' & _)|(rep' & Hr & ? & _)])]]; try done; [congruence|].
      assert (rep' = rep) as -> by congruence. lia.
    + rewrite Hreg.
      destruct (Evaluate_one (extractTargetIP op) a (Confidence.Score_ (preban_confidence g
        (base_decision op (extractTargetIP op)) (extractTargetIP op) rep)) reg (limits g) Ea Ht) as (v & Ev & Hv).
      rewrite Ev. clear Ev. eexists. split; [reflexivity|]. destruct (BlastRadius.Allowed v).
      * destruct (proj1 Hv eq_refl) as (_ & ? & ? & ?). split; [|intros _; eexists; split; reflexivity].
        intros _. right; right. split; [done|]. exists a, check. split_and!; try done; [congruence|]. right. eauto 10.
      * split; [naive_solver|]. intros [?|[[? _]|(_ & a' & c' & [= <-] & [= <-] & _ & [(m & Hm' & _)|(rep' & Hr & ?)])]]; try done; [congruence|].
        assert (rep' = rep) as -> by congruence. enough (false = true) by done. apply Hv. tauto.
  - eexists. split; [done|]. case_bool_decide as Hf.
    + split; [|intros _; eexists; split; reflexivity]. intros _. right; right. split; [done|]. exists a, check.
      split_and!; try done; [congruence|]. left. eauto.
    + split; [naive_solver|]. intros [?|[[? _]|(_ & a' & c' & [= <-] & [= <-] & _ & [(m' & _ & ?)|(rep' & Hr & _)])]]; try done. congruence.
Qed.

Lemma same_request_target a b : same_request a b ->
  mo_Type a = mo_Type b /\ mo_ResourceType a = mo_ResourceType b /\ mo_Payload a = mo_Payload b /\
  mo_StableIdentityKey a = mo_StableIdentityKey b.
Proof.
  unfold same_request. intros H.
  split_and!; [exact (f_equal mo_Type H)|exact (f_equal mo_ResourceType H)|exact (f_equal mo_Payload H)|
               exact (f_equal mo_StableIdentityKey H)].
Qed.

Lemma guard_request a b : same_request a b ->
  isProtectedCloudflareMutation a = isProtectedCloudflareMutation b /\
  requiresTargetedDecision a = requiresTargetedDecision b /\ extractTargetIP a = extractTargetIP b.
Proof.
  intros (E1 & E2 & E3 & E4)%same_request_target.
  unfold isProtectedCloudflareMutation, requiresTargetedDecision, extractTargetIP, payload_map.
  by rewrite E1, E2, E3, E4.
Qed.

(** A guard without a registry does not decide on a target that the reputation
    confirms: it reads the nil registry and panics. *)
Theorem nil_registry_panics g t op a check rep :
  g_trust g = None -> isProtectedCloudflareMutation op = true -> extractTargetIP op <> "" ->
  ParseAddr (extractTargetIP op) = Some a -> checker g = Some check -> check t a = Ok rep ->
  threshold g <= rr_Score rep -> (EvaluateMutation t op g).2 = None.
Proof.
  intros Hn Hp Ht Ha Hc Hr Hs. unfold EvaluateMutation. rewrite Hp. cbn [negb].
  rewrite bool_decide_false, Hc, Ha, Hn, Hr by done. unfold judge. rewrite (proj2 (Z.ltb_ge _ _)) by done.
  rewrite Hn. unfold BlastRadius.Evaluate, BlastRadius.check_actions, BlastRadius.check_action, ban_action.
  cbn [BlastRadius.CrossScope BlastRadius.TenantWide BlastRadius.pa_TargetIP orb]. rewrite andb_false_r.
  rewrite (bool_decide_false (extractTargetIP op = "")) by done. unfold BlastRadius.match_ip. by rewrite Ha.
Qed.

(** ** Properties *)

(** C25: A batch executed with this guard and a trust registry creates or changes
    an access rule, a list item or a blocking rule only for an address that was
    screened before the call, in the course of the batch: the target is an
    address, no network of the registry contains it, a reputation service is
    configured, and either the service answered with at least the threshold
    and the limits of the guard admit one action, or the service gave an error
    and the guard is configured to allow then ([failure_mode] "allow": such a
    mutation goes through unscreened by reputation). *)
Theorem mutations_screened {P : Type} `{!ProviderMutator P} (e : GovernedExecutor) ctx b (w : World (P := P)) latency g reg :
  guard e = Some (guard_call latency g) -> g_trust g = Some reg ->
  let '(w', _, _) := ExecuteBatch e ctx b w in
  exists calls, w_calls w' = w_calls w ++ calls /\
    forall t op, (t, op) ∈ calls -> isProtectedCloudflareMutation op = true -> requiresTargetedDecision op = true ->
      extractTargetIP op <> "" /\ exists t1, w_now w <= t1 <= t /\ screened g t1 op.
Proof.
  intros Hg Hreg. pose proof (ExecuteBatch_spec e ctx b w) as H.
  destruct (ExecuteBatch e ctx b w) as [[w' ops] r]. destruct H as (calls & Hc & Hgated%gated_from_Forall & _).
  exists calls. split; [done|]. intros t op Hin Hp Hr. rewrite Forall_forall in Hgated.
  destruct (Hgated _ Hin) as (_ & _ & _ & t0 & t1 & t2 & ? & ? & _ & [? Hguard] & [? _]).
  destruct (Hguard _ Hg) as (o & n & d & Hsame & Hd & Hall & _). apply guard_request in Hsame as (E1 & E2 & E3).
  destruct (EvaluateMutation_spec g t1 o reg Hreg) as (x & Hx & Hiff).
  apply (f_equal snd) in Hd. cbn [snd guard_call] in Hd. unfold guard_fn in Hd. rewrite Hx in Hd. subst x.
  destruct (proj1 Hiff) as [Hn|[[_ Hn]|[Hne Hs]]]; [by eauto|congruence..|].
  unfold screened in *. rewrite E3 in Hs, Hne. split; [done|]. exists t1. split; [lia|done].
Qed.

(** The rules that a ruleset update carries are not screened.  Whatever
    they block, an update of a ruleset under its own key whose payload holds
    the rules is allowed, with any registry and any threshold, without asking
    the reputation service and even without one. *)
Theorem ruleset_update_unscreened g t op rules phase :
  mo_ResourceType op = ResourceRulesets -> mo_Payload op = Some (VMap [("rules", rules)]) ->
  mo_StableIdentityKey op = "ruleset:" +:+ phase ->
  exists d, guard_fn g t op = Ok d /\ gd_Allowed d = true.
Proof.
  intros Hr Hp Hk. unfold guard_fn, EvaluateMutation.
  destruct (isProtectedCloudflareMutation op); cbn [negb]; [|by eexists].
  assert (extractTargetIP op = "") as Ht by (unfold extractTargetIP, payload_map; rewrite Hp, Hk; reflexivity).
  assert (requiresTargetedDecision op = false) as Hq
    by (unfold requiresTargetedDecision, payload_map; rewrite Hr, Hp; reflexivity).
  rewrite Ht, bool_decide_true, Hq by done. by eexists.
Qed.

(** A checker that knows two bad addresses. *)
Definition demo_checker (t : Z) (a : addr) : result RepResult :=
  Ok {| rr_Provider := "abuseipdb"; rr_Score := if bool_decide (Some a = ParseAddr "203.0.113.9") then 90 else 100;
        rr_CacheHit := false |}.

Definition demo_guard : CloudflarePropagationGuard :=
  NewCloudflarePropagationGuard (Some demo_checker) (Some Trust.DefaultRegistry).

Definition rule_op (id rt typ key : string) (payload : value) : MutationOperation :=
  {| mo_OperationID := id; mo_ScopeID := "scope"; mo_Type := typ; mo_ResourceType := rt;
     mo_StableIdentityKey := key; mo_State := "planned"; mo_ProviderObjectID := "";
     mo_ExpectedETag := ""; mo_Payload := Some payload; mo_ResultID := ""; mo_StartedAt := 0; mo_FinishedAt := 0;
     mo_Error := ""; mo_ApprovalRequired := false; mo_ApprovalID := ""; mo_ApprovalStatus := "";
     mo_ApprovalExpiresAt := 0; mo_ApprovedBy := ""; mo_ApprovalReason := ""; mo_LeaseID := "";
     mo_FencingToken := 0; mo_LeaseAction := "" |}.

Definition block_op (id ip : string) : MutationOperation :=
  rule_op id ResourceIPAccessRules "create" ("ip:ip:" +:+ ip +:+ ":block")
    (VMap [("configuration", VMap [("target", VString "ip"); ("value", VString ip)]); ("mode", VString "block")]).

Definition block_batch : MutationBatch :=
  {| mb_ID := "b-1"; mb_ScopeID := "scope"; mb_PlanID := "p-1"; mb_SnapshotChecksum := "";
     mb_Operations := [block_op "op-1" "203.0.113.9"; block_op "op-2" "10.1.2.3"]; mb_CreatedAt := 0;
     mb_Status := "pending"; mb_EpochID := ""; mb_Generation := 0; mb_LeaseID := ""; mb_FencingToken := 0;
     mb_LeaseAction := ""; mb_DestructiveCount := 0; mb_ApprovalRequired := false; mb_ApprovalID := "";
     mb_ApprovalStatus := ""; mb_ApprovalExpiresAt := 0; mb_ApprovedBy := ""; mb_ApprovalReason := "" |}.

(** A look-up takes a second. *)
Definition demo_latency (_ : Z) (_ : MutationOperation) : N := 1000000000%N.

Definition guarded_executor : GovernedExecutor :=
  {| mutators := [ResourceIPAccessRules]; ownerReg := ResourceGraph.Resources.NewRegistry; guard := Some (guard_call demo_latency demo_guard);
     fencing := None; hasSink := true; hasEvidence := true; recordTime := fun _ => 1%N |}.

(** The bad address is blocked, the private one is not, and the batch stops
    there. *)
Lemma mutations_screened_witness :
  let '(w', _, r) := ExecuteBatch (ProviderMutator0 := log_provider) guarded_executor (fun _ => None) block_batch quiet_world in
  (mo_OperationID <$> (w_calls w').*2) = ["op-1"] /\ is_ok r = false /\
  forall t op, (t, op) ∈ w_calls w' -> exists t1, t1 <= t /\ screened demo_guard t1 op.
Proof.
  pose proof (mutations_screened (ProviderMutator0 := log_provider) guarded_executor (fun _ => None) block_batch
                quiet_world demo_latency demo_guard Trust.DefaultRegistry eq_refl eq_refl) as H.
  destruct (ExecuteBatch (ProviderMutator0 := log_provider) guarded_executor (fun _ => None) block_batch quiet_world)
    as [[w' ops] r] eqn:E. destruct H as (calls & Hc & Hs).
  assert (w' = (ExecuteBatch (ProviderMutator0 := log_provider) guarded_executor (fun _ => None) block_batch quiet_world).1.1)
    as Ew by (rewrite E; reflexivity).
  assert (r = (ExecuteBatch (ProviderMutator0 := log_provider) guarded_executor (fun _ => None) block_batch quiet_world).2)
    as Er by (rewrite E; reflexivity). clear E.
  assert ((mo_OperationID <$> (w_calls w').*2) = ["op-1"]) as H1 by (rewrite Ew; vm_compute; reflexivity).
  assert (is_ok r = false) as H2 by (rewrite Er; vm_compute; reflexivity).
  assert (forallb (fun c => isProtectedCloudflareMutation c.2 && requiresTargetedDecision c.2) (w_calls w') = true)
    as Hall by (rewrite Ew; vm_compute; reflexivity).
  clear Ew Er. split; [exact H1|]. split; [exact H2|]. intros t op Hin. rewrite List.forallb_forall in Hall.
  specialize (Hall (t, op) (proj1 (list_elem_of_In _ _) Hin)). apply andb_true_iff in Hall as [Hp Hr].
  change (w_calls quiet_world) with (@nil (Z * MutationOperation)) in Hc. rewrite app_nil_l in Hc.
  rewrite Hc in Hin. destruct (Hs t op Hin Hp Hr) as (_ & t1 & [_ Hle] & Hsc). by exists t1.
Defined.

(** A rule that blocks a private network. *)
Definition private_rule : value :=
  VArray [VMap [("action", VString "block"); ("expression", VString "ip.src in {10.0.0.0/8}")]].

Lemma ruleset_update_unscreened_witness :
  exists d, guard_fn (NewCloudflarePropagationGuard None (Some Trust.DefaultRegistry)) 0
    (rule_op "op-1" ResourceRulesets "update" "ruleset:http_request_firewall_custom:zone" (VMap [("rules", private_rule)]))
    = Ok d /\ gd_Allowed d = true.
Proof. by apply (ruleset_update_unscreened _ _ _ private_rule "http_request_firewall_custom:zone"). Defined.

End Guard.
