(* ===== verification/Recidive.v ===== *)
(** * Repeat offenders

    [internal/recidive/service.go], which escalates the bans of repeat
    offenders.  It reads the recent local bans and keeps a JSON file.  The file
    is modelled by what it decodes to, at instants that the encoding represents
    (the years 0 to 9999); the source of bans and the escalator are the
    interfaces of the package. *)

From S2P Require Import Prelude Netip GoFmt.
Import Netip.

Local Open Scope Z_scope.

(** A state file: there is none, it cannot be read, it is not the JSON that is
    expected, it is the JSON null, or it holds a map. *)
Inductive disk (A : Type) :=
| Missing
| Unreadable (err : string)
| Garbage
| Null
| Saved (m : gmap string A).
Arguments Missing {A}.
Arguments Unreadable {A} _.
Arguments Garbage {A}.
Arguments Null {A}.
Arguments Saved {A} _.

Module Recidive.

Definition recidivWindow : Z := 7 * 24 * hour.

Record Record_ := { Count : Z; LastSeen : Z }.

Record Ban := { IP : string; Scenario : string; When : Z; ban_ID : string }.

#[export] Instance Ban_eq_dec : EqDecision Ban.
Proof. solve_decision. Defined.

(** A value of the file: a time, a record, or neither. *)
Inductive cell := CTime (t : Z) | CRecord (r : Record_) | CJunk.

Class DecisionAdder (X : Type) := AddIPDecision : string -> string -> string -> X -> X * result unit.

(** [parseTime]: an absent or unreadable cursor is the zero time. *)
Definition parseTime (c : option cell) : Z := match c with Some (CTime t) => t | _ => 0 end.

(** The JSON null decodes to a nil map, [None]. *)
Definition loadState (d : disk cell) : result (option (gmap string cell)) :=
  match d with
  | Missing | Garbage => Ok (Some ∅)
  | Unreadable m => Err m
  | Null => Ok None
  | Saved m => Ok (Some m)
  end.

Definition escalation (count : Z) : string :=
  if count - 1 =? 1 then "24h" else if 1 <? count then "168h" else "".

Section service.
Context {X : Type} `{DecisionAdder X}.

(** [writable] tells whether the file can be written; [counted] and
    [escalated] are the traces of the bans that were counted and of the
    decisions that were asked for. *)
Record World := {
  file : disk cell;
  writable : bool;
  escalator : option X;
  counted : list Ban;
  escalated : list (string * string);
}.

Record progress := { p_state : gmap string cell; newCursor : Z; changed : bool; p_world : World }.

Definition relevant (cursor : Z) (b : Ban) : bool :=
  t_after (When b) cursor && negb (bool_decide (IP b = "1.2.3.4")) &&
  match ParseIP (IP b) with Some _ => true | None => false end &&
  negb (has_prefix "recidivist-escalation" (Scenario b)).

Definition old_record (now : Z) (c : option cell) : Record_ :=
  match c with
  | Some (CRecord r) => if recidivWindow <? t_sub now (LastSeen r) then {| Count := 0; LastSeen := 0 |} else r
  | _ => {| Count := 0; LastSeen := 0 |}
  end.

Definition escalate (b : Ban) (duration : string) (w : World) : World :=
  let w := {| file := file w; writable := writable w; escalator := escalator w; counted := counted w ++ [b];
              escalated := escalated w |} in
  if bool_decide (duration = "") then w
  else match escalator w with
       | None => w
       | Some x =>
           let x := (AddIPDecision (IP b) duration ("Recidivist escalation | scenario: " +:+ Scenario b) x).1 in
           {| file := file w; writable := writable w; escalator := Some x; counted := counted w;
              escalated := escalated w ++ [(IP b, duration)] |}
       end.

Definition ban_step (cursor now : Z) (p : progress) (b : Ban) : progress :=
  if negb (relevant cursor b) then p
  else
    let rec := old_record now (p_state p !! IP b) in
    let rec := {| Count := wrap64 (Count rec + 1); LastSeen := When b |} in
    {| p_state := <[IP b := CRecord rec]> (p_state p);
       newCursor := if t_after (When b) (newCursor p) then When b else newCursor p;
       changed := true;
       p_world := escalate b (escalation (Count rec)) (p_world p) |}.

Fixpoint ban_loop (cursor : Z) (clk : nat -> Z) (i : nat) (bans : list Ban) (p : progress) : progress :=
  match bans with
  | [] => p
  | b :: bans => ban_loop cursor clk (S i) bans (ban_step cursor (clk i) p b)
  end.

Definition saveState (m : gmap string cell) (w : World) : World :=
  if writable w
  then {| file := Saved m; writable := true; escalator := escalator w; counted := counted w; escalated := escalated w |}
  else w.

(** The assignment of the first record to a nil map. *)
Definition nil_map_panic : string := "panic: assignment to entry in nil map".

(** One cycle; [source] is the answer of the ban source, [None] when there is
    none; [clk] the clock, first for a missing cursor and then for each ban. *)
Definition Run (clk : nat -> Z) (source : option (result (list Ban))) (w : World) : World * result unit :=
  match source with
  | None => (w, Ok tt)
  | Some bans =>
      match loadState (file w) with
      | Err m => (w, Err ("recidive: load state: " +:+ m))
      | Ok state =>
          match bans with
          | Err m => (w, Err ("recidive: ListRecentBans: " +:+ m))
          | Ok [] => (w, Ok tt)
          | Ok bans =>
            match state with
            | None => (w, if existsb (relevant (clk 0%nat)) bans then Err nil_map_panic else Ok tt)
            | Some state =>
              let cursor := parseTime (state !! "_cursor") in
              let cursor := if is_zero_time cursor then clk 0%nat else cursor in
              let p := ban_loop cursor clk 1 bans
                         {| p_state := state; newCursor := cursor; changed := false; p_world := w |} in
              let state := if t_after (newCursor p) cursor
                           then <["_cursor" := CTime (newCursor p)]> (p_state p) else p_state p in
              (if changed p || t_after (newCursor p) cursor then saveState state (p_world p) else p_world p, Ok tt)
            end
          end
      end
  end.

(** ** Lemmas *)

Definition file_cursor (d : disk cell) : Z :=
  match loadState d with Ok (Some m) => parseTime (m !! "_cursor") | _ => 0 end.

(** What a loop over the bans does: it counts the relevant ones, and the cursor
    moves to the latest of them. *)
Lemma ban_loop_spec cursor clk i bans p :
  cursor <= newCursor p ->
  let p' := ban_loop cursor clk i bans p in
  newCursor p <= newCursor p' /\
  counted (p_world p') = counted (p_world p) ++ List.filter (relevant cursor) bans /\
  file (p_world p') = file (p_world p) /\ writable (p_world p') = writable (p_world p) /\
  Forall (fun b => When b <= newCursor p') (List.filter (relevant cursor) bans) /\
  (changed p' = true <-> changed p = true \/ List.filter (relevant cursor) bans <> []) /\
  (List.filter (relevant cursor) bans = [] -> p' = p) /\
  (List.filter (relevant cursor) bans <> [] -> cursor < newCursor p').
Proof.
  revert i p. induction bans as [|b bans IH]; intros i p Hc; cbn.
  - rewrite app_nil_r. split_and!; try done; try lia. naive_solver.
  - set (q := ban_step cursor (clk i) p b).
    assert (cursor <= newCursor q /\ newCursor p <= newCursor q /\
      (relevant cursor b = true -> When b <= newCursor q /\ cursor < newCursor q /\ changed q = true /\
         counted (p_world q) = counted (p_world p) ++ [b]) /\
      (relevant cursor b = false -> q = p) /\
      file (p_world q) = file (p_world p) /\ writable (p_world q) = writable (p_world p))
      as (Hq & Hpq & Hrel & Hirr & Hfile & Hwr).
    { unfold q, ban_step. destruct (relevant cursor b) eqn:E; cbn [negb]; [|done].
      assert (cursor < When b) by (unfold relevant, t_after in E; bool_simpl; lia).
      assert (forall d, counted (escalate b d (p_world p)) = counted (p_world p) ++ [b] /\
        file (escalate b d (p_world p)) = file (p_world p) /\
        writable (escalate b d (p_world p)) = writable (p_world p)) as He
        by (intros d; unfold escalate; by repeat case_match).
      cbn. destruct (He (escalation (wrap64 (Count (old_record (clk i) (p_state p !! IP b)) + 1)))) as (-> & -> & ->).
      unfold t_after. destruct (Z.ltb_spec (newCursor p) (When b)); repeat split; try lia; done. }
    specialize (IH (S i) q Hq). cbn in IH. destruct IH as (H1 & H2 & H3 & H4 & H5 & H6 & H7 & H8).
    destruct (relevant cursor b) eqn:E.
    + destruct (Hrel eq_refl) as (Hw & Hlt & Hch & Hcn). split_and!; try done; try congruence; try lia.
      * by rewrite H2, Hcn, <- app_assoc.
      * constructor; [lia|done].
      * rewrite H6, Hch. naive_solver.
    + rewrite (Hirr eq_refl) in *. split_and!; done.
Qed.

(** ** Properties *)

Fixpoint runs (cycles : list ((nat -> Z) * result (list Ban))) (w : World) : World :=
  match cycles with
  | [] => w
  | (clk, bans) :: cycles => runs cycles (Run clk (Some bans) w).1
  end.

(** One run from a saved cursor. *)
Lemma Run_counts clk bans w :
  writable w = true -> 0 < file_cursor (file w) ->
  exists c new, file_cursor (file (Run clk (Some bans) w).1) = c /\
    file_cursor (file w) <= c /\ writable (Run clk (Some bans) w).1 = true /\
    counted (Run clk (Some bans) w).1 = counted w ++ new /\
    (forall b, b ∈ new -> file_cursor (file w) < When b <= c) /\
    (match bans with Ok l => new = List.filter (relevant (file_cursor (file w))) l | Err _ => new = [] end).
Proof.
  intros Hw Hcur. unfold Run. destruct (loadState (file w)) as [[m|]|e] eqn:El; [|by unfold file_cursor in Hcur; rewrite El in Hcur|by unfold file_cursor in Hcur; rewrite El in Hcur].
  assert (file_cursor (file w) = parseTime (m !! "_cursor")) as Ec by (unfold file_cursor; by rewrite El).
  destruct bans as [bans|e]; [|exists (file_cursor (file w)), []; rewrite app_nil_r; split_and!; try done; set_solver].
  destruct bans as [|b0 bans0]; [exists (file_cursor (file w)), []; rewrite app_nil_r; split_and!; try done; set_solver|].
  rewrite <- Ec. unfold is_zero_time. rewrite (proj2 (Z.eqb_neq _ _)) by lia.
  set (cursor := file_cursor (file w)) in *. set (bans := b0 :: bans0).
  set (p0 := {| p_state := m; newCursor := cursor; changed := false; p_world := w |}).
  destruct (ban_loop_spec cursor clk 1 bans p0 ltac:(cbn; lia)) as (H1 & H2 & H3 & H4 & H5 & H6 & H7 & H8).
  set (p := ban_loop cursor clk 1 bans p0) in *. cbn [fst].
  destruct (decide (List.filter (relevant cursor) bans = [])) as [En|En].
  - rewrite (H7 En). unfold p0, t_after. cbn. rewrite Z.ltb_irrefl. cbn.
    exists cursor, []. rewrite app_nil_r. split_and!; try done; try lia; set_solver.
  - specialize (H8 En). unfold t_after. rewrite (proj2 (Z.ltb_lt _ _) H8), orb_true_r.
    unfold saveState. rewrite H4. cbn [p0 p_world]. rewrite Hw.
    exists (newCursor p), (List.filter (relevant cursor) bans). cbn [file counted writable]. split_and!.
    + unfold file_cursor, loadState. by rewrite lookup_insert_eq.
    + lia.
    + done.
    + exact H2.
    + intros b Hb. rewrite Forall_forall in H5. specialize (H5 b Hb). split; [|exact H5].
      apply elem_of_lfilter in Hb as [_ Hb]. unfold relevant, t_after in Hb. bool_simpl. lia.
    + done.
Qed.

(** From a state in which everything that was counted is not after the cursor. *)
Lemma runs_counted cycles w :
  Forall (fun c => match c.2 with Ok l => NoDup l | Err _ => True end) cycles ->
  writable w = true -> 0 < file_cursor (file w) -> NoDup (counted w) ->
  (forall b, b ∈ counted w -> When b <= file_cursor (file w)) ->
  NoDup (counted (runs cycles w)) /\ counted w ⊆ counted (runs cycles w) /\
  (forall pre clk l post b, cycles = pre ++ (clk, Ok l) :: post -> b ∈ l ->
     relevant (file_cursor (file (runs pre w))) b = true -> b ∈ counted (runs cycles w)).
Proof.
  intros Hnd. revert w. induction Hnd as [|[clk bans] cycles Hd _ IH]; intros w Hw Hcur Hn Hold.
  { split_and!; [done..|]. intros pre ? ? ? ? Heq. by destruct pre. }
  cbn in Hd. cbn [runs].
  destruct (Run_counts clk bans w Hw Hcur) as (c & new & Ec & Hle & Hw' & Hcnt & Hnew & Hbans).
  destruct (IH (Run clk (Some bans) w).1) as (IH1 & IH2 & IH3); [done|lia| | |].
  - rewrite Hcnt. apply NoDup_app. split_and!; [done| |].
    + intros b Hb Hb'. specialize (Hold b Hb). specialize (Hnew b Hb'). lia.
    + destruct bans as [l|]; subst new; [|constructor].
      rewrite <- (list_fmap_id (List.filter _ l)). apply NoDup_fmap_filter. by rewrite list_fmap_id.
  - intros b. rewrite Hcnt, Ec. intros [Hb|Hb]%elem_of_app; [specialize (Hold b Hb); lia|apply Hnew, Hb].
  - split_and!; [done| |].
    + etransitivity; [|exact IH2]. rewrite Hcnt. set_solver.
    + intros [|c0 pre] clk' l post b Heq Hb Hr; cbn in Heq; simplify_eq.
      * apply IH2. rewrite Hcnt. apply elem_of_app. right. by apply elem_of_lfilter.
      * cbn [runs] in Hr. by eapply IH3.
Qed.

(** A ban is counted at most once.  Over any sequence of cycles with a
    readable and writable file that holds a cursor, and listings without
    repetitions that overlap in any way, no ban is counted twice; and every
    ban that is newer than the cursor when a cycle starts and qualifies is
    counted by that cycle. *)
Theorem counted_once cycles w :
  writable w = true -> 0 < file_cursor (file w) -> counted w = [] ->
  Forall (fun c => match c.2 with Ok l => NoDup l | Err _ => True end) cycles ->
  NoDup (counted (runs cycles w)) /\
  (forall pre clk l post b, cycles = pre ++ (clk, Ok l) :: post -> b ∈ l ->
     relevant (file_cursor (file (runs pre w))) b = true -> b ∈ counted (runs cycles w)).
Proof.
  intros Hw Hcur Hc0 Hnd.
  destruct (runs_counted cycles w Hnd Hw Hcur) as (? & _ & ?); rewrite ?Hc0; [constructor|set_solver|done].
Qed.

(** Without a saved cursor the service never starts.  When the file is
    missing, and every ban that is listed has already happened, no sequence of
    cycles counts a ban, asks for an escalation or writes the file. *)
Theorem recidive_never_starts cycles w :
  file w = Missing ->
  Forall (fun c => match c.2 with Ok l => Forall (fun b => When b <= c.1 0%nat) l | Err _ => True end) cycles ->
  runs cycles w = w.
Proof.
  intros Hf. induction 1 as [|[clk bans] cycles Hb _ IH]; [done|]. cbn [runs fst snd] in *.
  enough ((Run clk (Some bans) w).1 = w) as -> by done. unfold Run. rewrite Hf. cbn [loadState].
  destruct bans as [[|b bans]|m]; [done| |done].
  rewrite lookup_empty. cbn [parseTime]. change (is_zero_time 0) with true. cbn iota.
  set (p0 := {| p_state := ∅; newCursor := clk 0%nat; changed := false; p_world := w |}).
  assert (List.filter (relevant (clk 0%nat)) (b :: bans) = []) as Hn.
  { apply filter_none. intros x Hx. rewrite Forall_forall in Hb. specialize (Hb x Hx).
    unfold relevant, t_after. by rewrite (proj2 (Z.ltb_ge _ _)). }
  destruct (ban_loop_spec (clk 0%nat) clk 1 (b :: bans) p0 ltac:(cbn; lia)) as (_ & _ & _ & _ & _ & _ & H7 & _).
  rewrite (H7 Hn). cbn. unfold t_after. by rewrite Z.ltb_irrefl.
Qed.

End service.

(** A file with a cursor, and an escalator that accepts everything. *)
#[global] Instance log_adder : DecisionAdder unit := fun _ _ _ x => (x, Ok tt).

Definition demo_world (d : disk cell) : World :=
  {| file := d; writable := true; escalator := Some tt; counted := []; escalated := [] |}.

Definition ban_at (ip : string) (t : Z) : Ban := {| IP := ip; Scenario := "http-probing"; When := t; ban_ID := "" |}.

Definition three_bans : list Ban := [ban_at "203.0.113.7" 10; ban_at "203.0.113.7" 20; ban_at "203.0.113.7" 30].

Definition overlapping : list ((nat -> Z) * result (list Ban)) :=
  [(fun _ => 25, Ok (take 2 three_bans)); (fun _ => 35, Ok three_bans)].

Lemma counted_once_witness :
  let w := runs overlapping (demo_world (Saved {[ "_cursor" := CTime 5 ]})) in
  NoDup (counted w) /\ counted w = three_bans /\
  escalated w = [("203.0.113.7", "24h"); ("203.0.113.7", "168h")].
Proof.
  cbn zeta. split; [|by vm_compute].
  apply (counted_once overlapping (demo_world (Saved {[ "_cursor" := CTime 5 ]})));
    [reflexivity|vm_compute; reflexivity|reflexivity|].
  repeat constructor; cbn; set_solver by (vm_compute; congruence).
Defined.

Lemma recidive_never_starts_witness :
  runs overlapping (demo_world Missing) = demo_world Missing.
Proof. apply recidive_never_starts; [reflexivity|]. repeat constructor; cbn; lia. Defined.

End Recidive.
