(* ===== verification/CidrBan.v ===== *)
(** * Bans of whole networks

    [internal/cidrban/service.go], which bans a /24 when several of its
    addresses were banned, and expires those bans.  Its state file is modelled
    as that of the repeat offenders is; the clients of Cloudflare and CrowdSec
    are the interfaces of the package. *)

From S2P Require Import Prelude Netip GoFmt Recidive.
Import Netip.

Local Open Scope Z_scope.

Module CidrBan.

Definition cidrThreshold : nat := 2.
Definition cidrBanDuration : string := "24h".
Definition cidrBanExpiry : Z := 24 * hour.
Definition noteTagCIDR : string := "crowdsec-cidr-ban".

Record StateEntry := { BannedAt : Z; IPCount : Z }.
Record Ban := { IP : string; When : Z }.

(** The requests to Cloudflare and CrowdSec; their answers are not looked at. *)
Inductive Request :=
| AddIPAccessRule (zoneID cidr notes target : string)
| AddRangeDecision (cidr duration reason : string)
| DeleteIPAccessRule (zoneID ruleID : string).

(** Which clients are configured, the file and the trace of the requests. *)
Record World := {
  file : disk StateEntry;
  writable : bool;
  CFBanner : bool;
  CFDeleter : bool;
  CSRangeBanner : bool;
  ZoneID : string;
  trace : list Request;
}.

Definition set_file (d : disk StateEntry) (w : World) : World :=
  {| file := d; writable := writable w; CFBanner := CFBanner w; CFDeleter := CFDeleter w;
     CSRangeBanner := CSRangeBanner w; ZoneID := ZoneID w; trace := trace w |}.
Definition request (r : Request) (w : World) : World :=
  {| file := file w; writable := writable w; CFBanner := CFBanner w; CFDeleter := CFDeleter w;
     CSRangeBanner := CSRangeBanner w; ZoneID := ZoneID w; trace := trace w ++ [r] |}.

Definition toCIDR24 (ip : string) : string :=
  match ParseIP ip with
  | None => ""
  | Some a =>
      match To4 a with
      | None => ""
      | Some _ => match ParseCIDR (ip +:+ "/24") with Some n => net_string n | None => "" end
      end
  end.

(** The distinct addresses of every /24. *)
Definition add_ban (g : gmap string (gset string)) (b : Ban) : gmap string (gset string) :=
  if bool_decide (IP b = "1.2.3.4") then g
  else let c := toCIDR24 (IP b) in
       if bool_decide (c = "") then g
       else <[c := {[IP b]} ∪ default ∅ (g !! c)]> g.

Definition group (bans : list Ban) : gmap string (gset string) := foldl add_ban ∅ bans.

(** The error is dropped; a file that cannot be read, and the JSON null, give a
    nil map. *)
Definition loadState (d : disk StateEntry) : option (gmap string StateEntry) :=
  match d with
  | Missing | Garbage => Some ∅
  | Unreadable _ | Null => None
  | Saved m => Some m
  end.

Definition saveState (m : gmap string StateEntry) (w : World) : World :=
  if writable w then set_file (Saved m) w else w.

Definition ban_requests (cidr : string) (n : nat) (w : World) : World :=
  let w := if CFBanner w then request (AddIPAccessRule (ZoneID w) cidr noteTagCIDR "ip_range") w else w in
  if CSRangeBanner w
  then request (AddRangeDecision cidr cidrBanDuration
                  ("auto-cidr-ban: " +:+ GoFmt.fmt_d (Z.of_nat n) +:+ " IPs from " +:+ cidr)) w
  else w.

(** One /24; [None] when an entry is assigned to a nil map. *)
Definition cidr_step (now : Z) (rules : option (gmap string string)) (cidr : string) (ips : gset string)
    (state : option (gmap string StateEntry)) (changed : bool) (w : World)
  : World * option (option (gmap string StateEntry) * bool) :=
  if (size ips <? cidrThreshold)%nat then (w, Some (state, changed))
  else
    let n := Z.of_nat (size ips) in
    let listed := match rules with Some r => bool_decide (is_Some (r !! cidr)) | None => false end in
    let fresh := match state with
                 | Some m => Some (Some (<[cidr := {| BannedAt := now; IPCount := n |}]> m), true)
                 | None => None
                 end in
    match state ≫= (fun m => m !! cidr) with
    | Some e =>
        (w, Some (if listed then (fun m => <[cidr := {| BannedAt := BannedAt e; IPCount := n |}]> m) <$> state else state,
                  changed))
    | None => if listed then (w, fresh) else (ban_requests cidr (size ips) w, fresh)
    end.

Fixpoint cidr_loop (now : Z) (rules : option (gmap string string)) (l : list (string * gset string))
    (state : option (gmap string StateEntry)) (changed : bool) (w : World)
  : World * option (option (gmap string StateEntry) * bool) :=
  match l with
  | [] => (w, Some (state, changed))
  | (cidr, ips) :: l =>
      match cidr_step now rules cidr ips state changed w with
      | (w, None) => (w, None)
      | (w, Some (state, changed)) => cidr_loop now rules l state changed w
      end
  end.

Definition expired (now : Z) (e : StateEntry) : bool := cidrBanExpiry <=? t_sub now (BannedAt e).

Fixpoint expire_loop (now : Z) (rules : option (gmap string string)) (l : list (string * StateEntry))
    (state : gmap string StateEntry) (changed : bool) (w : World) : World * gmap string StateEntry * bool :=
  match l with
  | [] => (w, state, changed)
  | (cidr, e) :: l =>
      if negb (expired now e) then expire_loop now rules l state changed w
      else
        let w := match rules ≫= (fun r => r !! cidr) with
                 | Some id => if CFDeleter w then request (DeleteIPAccessRule (ZoneID w) id) w else w
                 | None => w
                 end in
        expire_loop now rules l (delete cidr state) true w
  end.

(** One cycle; [source] is the answer of the ban source, [listing] that of the
    rule getter when there is one. *)
Definition Run (now : Z) (source : option (result (list Ban))) (listing : option (result (gmap string string)))
    (w : World) : World * result unit :=
  match source with
  | None => (w, Ok tt)
  | Some (Err m) => (w, Err ("cidrban: ListRecentBans: " +:+ m))
  | Some (Ok []) => (w, Ok tt)
  | Some (Ok bans) =>
      let rules := match listing with Some (Ok r) => Some r | _ => None end in
      match cidr_loop now rules (map_to_list (group bans)) (loadState (file w)) false w with
      | (w, None) => (w, Err Recidive.nil_map_panic)
      | (w, Some (state, changed)) =>
          let m := default ∅ state in
          let '(w, m, changed) := expire_loop now rules (map_to_list m) m changed w in
          (if changed then saveState m w else w, Ok tt)
      end
  end.

(** ** Lemmas *)

(** The distinct banned addresses of a /24. *)
Definition ips_of (bans : list Ban) (c : string) : gset string :=
  list_to_set (List.filter (fun ip => negb (bool_decide (ip = "1.2.3.4")) && bool_decide (toCIDR24 ip = c)) (IP <$> bans)).

Lemma group_lookup bans c :
  group bans !! c = if bool_decide (c = "") || bool_decide (ips_of bans c = ∅) then None else Some (ips_of bans c).
Proof.
  unfold group, ips_of. induction bans as [|b bans IH] using rev_ind; cbn.
  { rewrite lookup_empty. by rewrite (bool_decide_true (∅ = ∅)), orb_true_r. }
  rewrite foldl_snoc, fmap_app, List.filter_app, list_to_set_app_L. unfold add_ban at 1. cbn.
  destruct (bool_decide_reflect (IP b = "1.2.3.4")); cbn; [by rewrite union_empty_r_L|].
  destruct (bool_decide_reflect (toCIDR24 (IP b) = "")) as [E|E].
  { rewrite IH. destruct (decide (c = "")) as [Ec|Hc]; [by rewrite !(bool_decide_true (c = ""))|].
    rewrite (bool_decide_false (toCIDR24 (IP b) = c)) by congruence. cbn. by rewrite union_empty_r_L. }
  destruct (decide (toCIDR24 (IP b) = c)) as [<-|Hc].
  - rewrite lookup_insert_eq, (bool_decide_true (toCIDR24 (IP b) = toCIDR24 (IP b))), (bool_decide_false (toCIDR24 (IP b) = "")) by done.
    cbn. rewrite union_empty_r_L, IH, (bool_decide_false (toCIDR24 (IP b) = "")) by done. cbn.
    clear IH. generalize (list_to_set (C := gset string) (List.filter (fun ip => negb (bool_decide (ip = "1.2.3.4")) &&
      bool_decide (toCIDR24 ip = toCIDR24 (IP b))) (IP <$> bans))). intros X.
    rewrite (bool_decide_false (X ∪ {[IP b]} = ∅)) by set_solver. f_equal.
    destruct (bool_decide_reflect (X = ∅)) as [->|]; cbn; set_solver.
  - rewrite lookup_insert_ne, (bool_decide_false (toCIDR24 (IP b) = c)), IH by done. cbn. by rewrite union_empty_r_L.
Qed.

(** What becomes of one network: the entry, and whether it is banned now. *)
Definition due (ips : gset string) : Prop := (cidrThreshold <= size ips)%nat.

Definition rule_of (rules : option (gmap string string)) (c : string) : option string := rules ≫= (fun r => r !! c).

Definition next_entry (now : Z) (rules : option (gmap string string)) (c : string) (ips : gset string)
    (old : option StateEntry) : option StateEntry :=
  if (size ips <? cidrThreshold)%nat then old
  else match old with
       | Some e => Some (match rule_of rules c with
                         | Some _ => {| BannedAt := BannedAt e; IPCount := Z.of_nat (size ips) |} | None => e end)
       | None => Some {| BannedAt := now; IPCount := Z.of_nat (size ips) |}
       end.

Definition new_requests (rules : option (gmap string string)) (c : string) (ips : gset string)
    (old : option StateEntry) (w : World) : list Request :=
  if (size ips <? cidrThreshold)%nat then []
  else match old, rule_of rules c with
       | None, None =>
           (if CFBanner w then [AddIPAccessRule (ZoneID w) c noteTagCIDR "ip_range"] else []) ++
           (if CSRangeBanner w
            then [AddRangeDecision c cidrBanDuration
                    ("auto-cidr-ban: " +:+ GoFmt.fmt_d (Z.of_nat (size ips)) +:+ " IPs from " +:+ c)] else [])
       | _, _ => []
       end.

(** The clients, the file and the trace extended by [tr]. *)
Definition extends (w w' : World) (tr : list Request) : Prop :=
  file w' = file w /\ writable w' = writable w /\ CFBanner w' = CFBanner w /\ CFDeleter w' = CFDeleter w /\
  CSRangeBanner w' = CSRangeBanner w /\ ZoneID w' = ZoneID w /\ trace w' = trace w ++ tr.

Lemma trace_extends_refl w : extends w w [].
Proof. unfold extends. by rewrite app_nil_r. Qed.

Lemma trace_extends_trans w1 w2 w3 t1 t2 : extends w1 w2 t1 -> extends w2 w3 t2 -> extends w1 w3 (t1 ++ t2).
Proof.
  intros (? & ? & ? & ? & ? & ? & E1) (? & ? & ? & ? & ? & ? & E2). unfold extends.
  split_and!; try congruence. by rewrite E2, E1, app_assoc.
Qed.

Lemma cidr_step_spec now rules c ips m ch w :
  exists m' ch' w', cidr_step now rules c ips (Some m) ch w = (w', Some (Some m', ch')) /\
    extends w w' (new_requests rules c ips (m !! c) w) /\
    m' !! c = next_entry now rules c ips (m !! c) /\ (forall c', c' <> c -> m' !! c' = m !! c') /\
    (ch' = true <-> ch = true \/ (m !! c = None /\ due ips)).
Proof.
  unfold cidr_step, next_entry, new_requests, due, rule_of. cbn [mbind option_bind].
  destruct (Nat.ltb_spec (size ips) cidrThreshold) as [Hs|Hs].
  { eexists _, _, _. split; [done|]. split_and!; [apply trace_extends_refl|done|done|]. intuition lia. }
  assert (match rules with Some r => bool_decide (is_Some (r !! c)) | None => false end =
          match rules ≫= (fun r => r !! c) with Some _ => true | None => false end) as ->.
  { destruct rules as [r|]; [|done]. cbn. destruct (r !! c); [by rewrite bool_decide_true|by rewrite bool_decide_false by (by intros [])]. }
  destruct (m !! c) as [e|] eqn:Em.
  - destruct (rules ≫= _); eexists _, _, _; (split; [done|]); cbn; split_and!;
      try apply trace_extends_refl; try (by rewrite lookup_insert_eq); try done;
      try (by intros; rewrite lookup_insert_ne); intuition congruence.
  - destruct (rules ≫= _); eexists _, _, _; (split; [done|]); cbn; split_and!;
      try apply trace_extends_refl; try (by rewrite lookup_insert_eq); try done;
      try (by intros; rewrite lookup_insert_ne); try (by intuition congruence); [].
    unfold ban_requests, extends. destruct (CFBanner w) eqn:Eb; cbn; destruct (CSRangeBanner w) eqn:Er; cbn;
      rewrite ?app_nil_r, <- ?app_assoc; done.
Qed.

Lemma cidr_loop_spec now rules l m ch w :
  NoDup l.*1 ->
  exists m' ch' w', cidr_loop now rules l (Some m) ch w = (w', Some (Some m', ch')) /\
    extends w w' (List.concat ((fun '(c, ips) => new_requests rules c ips (m !! c) w) <$> l)) /\
    (forall c, m' !! c = match (list_to_map l : gmap string (gset string)) !! c with
                         | Some ips => next_entry now rules c ips (m !! c) | None => m !! c end) /\
    (ch' = true <-> ch = true \/ exists c ips, (c, ips) ∈ l /\ m !! c = None /\ due ips).
Proof.
  revert m ch w. induction l as [|[c ips] l IH]; intros m ch w Hnd; cbn.
  { eexists _, _, _. split; [done|]. split_and!; [apply trace_extends_refl|by intros; rewrite lookup_empty|].
    split; [by left|]. intros [?|(? & ? & ?%not_elem_of_nil & _)]; done. }
  apply NoDup_cons in Hnd as [Hn Hnd].
  destruct (cidr_step_spec now rules c ips m ch w) as (m1 & ch1 & w1 & -> & He1 & Hc1 & Ho1 & Hch1).
  destruct (IH m1 ch1 w1 Hnd) as (m' & ch' & w' & -> & He' & Hm' & Hch').
  assert (forall c' ips', (c', ips') ∈ l -> m1 !! c' = m !! c') as Hkeep.
  { intros c' ips' Hin. apply Ho1. intros Heq. apply Hn. rewrite <- Heq. exact (list_elem_of_fmap_2 fst l _ Hin). }
  eexists _, _, _. split; [done|]. split_and!.
  - eapply trace_extends_trans; [exact He1|]. enough (
      (fun '(c0, ips0) => new_requests rules c0 ips0 (m1 !! c0) w1) <$> l =
      (fun '(c0, ips0) => new_requests rules c0 ips0 (m !! c0) w) <$> l) as E by by rewrite <- E.
    apply list_fmap_ext. intros i [c' ips'] Hi. apply list_elem_of_lookup_2 in Hi. rewrite (Hkeep _ _ Hi).
    destruct He1 as (_ & _ & E1 & _ & E2 & E3 & _). unfold new_requests. by rewrite E1, E2, E3.
  - intros c'. rewrite Hm'. destruct (decide (c' = c)) as [->|Hne].
    + rewrite lookup_insert_eq. assert ((list_to_map l : gmap string (gset string)) !! c = None) as ->
        by by apply not_elem_of_list_to_map_1. exact Hc1.
    + by rewrite lookup_insert_ne, Ho1.
  - rewrite Hch', Hch1. setoid_rewrite elem_of_cons. split.
    + intros [[?|[? ?]]|(c' & ips' & Hin & Hm & ?)]; [by left|right; exists c, ips; by auto|].
      right. exists c', ips'. rewrite <- (Hkeep _ _ Hin). auto.
    + intros [?|(c' & ips' & [[= -> ->]|Hin] & Hm & ?)]; [by left; left|by left; right|].
      right. exists c', ips'. rewrite (Hkeep _ _ Hin). auto.
Qed.

Definition delete_requests (now : Z) (rules : option (gmap string string)) (w : World) (ce : string * StateEntry)
  : list Request :=
  if expired now ce.2 && CFDeleter w
  then match rule_of rules ce.1 with Some id => [DeleteIPAccessRule (ZoneID w) id] | None => [] end else [].

Lemma expire_loop_spec now rules l m ch w :
  exists m' ch' w', expire_loop now rules l m ch w = (w', m', ch') /\
    extends w w' (List.concat (delete_requests now rules w <$> l)) /\
    (forall c, m' !! c = if bool_decide (Exists (fun ce => ce.1 = c /\ expired now ce.2 = true) l) then None else m !! c) /\
    (ch' = true <-> ch = true \/ Exists (fun ce => expired now ce.2 = true) l).
Proof.
  revert m ch w. induction l as [|[c e] l IH]; intros m ch w; cbn [expire_loop]; rewrite ?fmap_nil, ?fmap_cons;
    cbn [List.concat].
  { eexists _, _, _. split; [done|]. split_and!; [apply trace_extends_refl| |rewrite Exists_nil; tauto].
    intros c. rewrite bool_decide_false; [done|]. by intros ?%Exists_nil. }
  unfold delete_requests at 1. cbn [fst snd]. destruct (expired now e) eqn:Ee; cbn [negb].
  - set (w1 := match rules ≫= _ with Some _ => _ | None => _ end).
    assert (extends w w1 (if CFDeleter w then match rule_of rules c with
              Some id => [DeleteIPAccessRule (ZoneID w) id] | None => [] end else [])) as He1.
    { unfold w1, rule_of. destruct (rules ≫= _); destruct (CFDeleter w) eqn:Ed; try apply trace_extends_refl. done. }
    destruct (IH (delete c m) true w1) as (m' & ch' & w' & -> & He' & Hm' & Hch').
    eexists _, _, _. split; [done|]. split_and!.
    + cbn. eapply trace_extends_trans; [exact He1|]. enough (delete_requests now rules w1 <$> l = delete_requests now rules w <$> l)
        as <- by done. apply list_fmap_ext. intros i x _. destruct He1 as (_ & _ & _ & E1 & _ & E2 & _).
      unfold delete_requests. by rewrite E1, E2.
    + intros c'. rewrite Hm'. assert (Exists (fun ce : string * StateEntry => ce.1 = c' /\ expired now ce.2 = true) ((c, e) :: l) <->
        c = c' \/ Exists (fun ce => ce.1 = c' /\ expired now ce.2 = true) l) as Hx by (rewrite Exists_cons; cbn; tauto).
      rewrite (bool_decide_ext _ _ Hx). destruct (bool_decide_reflect (Exists (fun ce => ce.1 = c' /\ expired now ce.2 = true) l)) as [H|H].
      * rewrite bool_decide_true; [done|by right].
      * destruct (decide (c = c')) as [<-|Hne]; [rewrite bool_decide_true; [by rewrite lookup_delete_eq|by left]|].
        rewrite bool_decide_false by tauto. by rewrite lookup_delete_ne.
    + rewrite Hch'. rewrite Exists_cons. cbn. tauto.
  - destruct (IH m ch w) as (m' & ch' & w' & -> & He' & Hm' & Hch').
    eexists _, _, _. split; [done|]. split_and!; [exact He'| |rewrite Hch', Exists_cons; cbn; rewrite Ee; intuition done].
    intros c'. rewrite Hm'. assert (Exists (fun ce : string * StateEntry => ce.1 = c' /\ expired now ce.2 = true) ((c, e) :: l) <->
      Exists (fun ce => ce.1 = c' /\ expired now ce.2 = true) l) as Hx by (rewrite Exists_cons; cbn; rewrite Ee; intuition done).
    by rewrite (bool_decide_ext _ _ Hx).
Qed.

(** ** Properties *)

(** Enough distinct addresses of the network were banned. *)
Definition hot (bans : list Ban) (c : string) : Prop := c <> "" /\ due (ips_of bans c).

(** What the cycle should leave of a network. *)
Definition outcome (now : Z) (rules : option (gmap string string)) (bans : list Ban) (c : string)
    (old new : option StateEntry) : Prop :=
  match old with
  | Some e => if expired now e then new = None
              else exists n, new = Some {| BannedAt := BannedAt e; IPCount := n |}
  | None => (hot bans c -> new = Some {| BannedAt := now; IPCount := Z.of_nat (size (ips_of bans c)) |}) /\
            (~ hot bans c -> new = None)
  end.

Lemma expired_now now n : expired now {| BannedAt := now; IPCount := n |} = false.
Proof. unfold expired, cidrBanExpiry. cbn. rewrite t_sub_small by (unfold int64_min, int64_max; lia). by rewrite Z.sub_diag. Qed.

Lemma expired_count now e n : expired now {| BannedAt := BannedAt e; IPCount := n |} = expired now e.
Proof. done. Qed.

Lemma not_due ips : (size ips <? cidrThreshold)%nat = true <-> ~ due ips.
Proof. rewrite Nat.ltb_lt. unfold due. lia. Qed.

(** The entry after the loop over the networks. *)
Lemma grouped_entry now rules bans c old :
  let new := match group bans !! c with Some ips => next_entry now rules c ips old | None => old end in
  match old with
  | Some e => exists n, new = Some {| BannedAt := BannedAt e; IPCount := n |}
  | None => (hot bans c -> new = Some {| BannedAt := now; IPCount := Z.of_nat (size (ips_of bans c)) |}) /\
            (~ hot bans c -> new = None)
  end.
Proof.
  cbn zeta. rewrite group_lookup. unfold hot, next_entry.
  destruct (bool_decide_reflect (c = "")) as [Hc|Hc]; cbn [orb].
  { destruct old as [[]|]; [by eexists|]. split; [by intros [? _]|done]. }
  destruct (bool_decide_reflect (ips_of bans c = ∅)) as [He|He].
  { destruct old as [[]|]; [by eexists|]. split; [|done]. rewrite He. unfold due, cidrThreshold. rewrite size_empty. lia. }
  destruct (size (ips_of bans c) <? cidrThreshold)%nat eqn:Es.
  - apply not_due in Es. destruct old as [[]|]; [by eexists|]. split; [tauto|done].
  - assert (due (ips_of bans c)) by (unfold due; apply Nat.ltb_ge in Es; lia).
    destruct old as [[]|]; [destruct (rule_of rules c); by eexists|]. split; [done|tauto].
Qed.

Lemma add_requested rules c ips old w z c' n t :
  AddIPAccessRule z c' n t ∈ new_requests rules c ips old w <->
  (z = ZoneID w /\ c' = c /\ n = noteTagCIDR /\ t = "ip_range") /\ CFBanner w = true /\
  due ips /\ old = None /\ rule_of rules c = None.
Proof.
  unfold new_requests. destruct (_ <? _)%nat eqn:Es.
  { apply not_due in Es. split; [by intros ?%not_elem_of_nil|tauto]. }
  assert (due ips) by (unfold due; apply Nat.ltb_ge in Es; lia).
  destruct old; [split; [by intros ?%not_elem_of_nil|naive_solver]|].
  destruct (rule_of rules c); [split; [by intros ?%not_elem_of_nil|naive_solver]|].
  rewrite elem_of_app.
  destruct (CFBanner w), (CSRangeBanner w); rewrite ?list_elem_of_singleton, ?elem_of_nil; naive_solver.
Qed.

Lemma no_delete_requested rules c ips old w z id : DeleteIPAccessRule z id ∉ new_requests rules c ips old w.
Proof. unfold new_requests. repeat case_match; set_solver. Qed.

Lemma delete_requested now rules w ce x :
  x ∈ delete_requests now rules w ce <->
  expired now ce.2 = true /\ CFDeleter w = true /\
  exists id, rule_of rules ce.1 = Some id /\ x = DeleteIPAccessRule (ZoneID w) id.
Proof.
  unfold delete_requests. destruct (expired now ce.2), (CFDeleter w); cbn [andb];
    try (split; [by intros ?%not_elem_of_nil|naive_solver]).
  destruct (rule_of rules ce.1); rewrite ?list_elem_of_singleton, ?elem_of_nil; naive_solver.
Qed.

(** The record after the loop over the networks. *)
Definition grouped (now : Z) (bans : list Ban) (m m1 : gmap string StateEntry) : Prop := forall c,
  match m !! c with
  | Some e => exists n, m1 !! c = Some {| BannedAt := BannedAt e; IPCount := n |}
  | None => (hot bans c -> m1 !! c = Some {| BannedAt := now; IPCount := Z.of_nat (size (ips_of bans c)) |}) /\
            (~ hot bans c -> m1 !! c = None)
  end.

#[export] Instance hot_dec bans c : Decision (hot bans c).
Proof. unfold hot, due. apply _. Defined.

Lemma hot_group bans c ips :
  (c, ips) ∈ map_to_list (group bans) /\ due ips <-> hot bans c /\ ips = ips_of bans c.
Proof.
  rewrite elem_of_map_to_list, group_lookup. unfold hot. split.
  - destruct (bool_decide_reflect (c = "")); cbn [orb]; [by intros [? _]|].
    destruct (bool_decide_reflect (ips_of bans c = ∅)); [by intros [? _]|]. intros [[= <-] ?]. done.
  - intros [[Hc Hd] ->]. rewrite (bool_decide_false (c = "")) by done. cbn [orb].
    rewrite bool_decide_false; [done|]. intros He. rewrite He in Hd. unfold due, cidrThreshold in Hd.
    rewrite size_empty in Hd. lia.
Qed.

(** What expires was on record before. *)
Lemma grouped_expired now bans m m1 c :
  grouped now bans m m1 ->
  (exists e, m1 !! c = Some e /\ expired now e = true) <-> (exists e, m !! c = Some e /\ expired now e = true).
Proof.
  intros Hg. specialize (Hg c). destruct (m !! c) as [e|].
  - destruct Hg as [n ->]. split; intros (e' & [= <-] & He); eexists; split; try done.
  - destruct Hg as [Hh Hn]. split; [|by intros (? & ? & _)]. intros (e & He & Hx).
    destruct (decide (hot bans c)) as [Hc|Hc]; [|by rewrite (Hn Hc) in He].
    rewrite (Hh Hc) in He. injection He as <-. by rewrite expired_now in Hx.
Qed.

Lemma grouped_outcome now rules bans (m m1 m2 : gmap string StateEntry) :
  grouped now bans m m1 ->
  (forall c, m2 !! c = if bool_decide (Exists (fun ce => ce.1 = c /\ expired now ce.2 = true) (map_to_list m1))
                       then None else m1 !! c) ->
  forall c, outcome now rules bans c (m !! c) (m2 !! c).
Proof.
  intros Hg Hm2 c. rewrite Hm2.
  assert (Exists (fun ce : string * StateEntry => ce.1 = c /\ expired now ce.2 = true) (map_to_list m1) <->
          exists e, m !! c = Some e /\ expired now e = true) as Hx.
  { rewrite <- (grouped_expired now bans m m1 c Hg), Exists_exists. split.
    - intros ([c' e] & Hin%elem_of_map_to_list & <- & ?). by exists e.
    - intros (e & He & ?). exists (c, e). by rewrite elem_of_map_to_list. }
  unfold outcome. specialize (Hg c). destruct (m !! c) as [e|].
  - destruct (expired now e) eqn:Ee.
    + rewrite bool_decide_true; [done|]. apply Hx. by exists e.
    + rewrite bool_decide_false; [done|]. rewrite Hx. intros (e' & [= <-] & ?). congruence.
  - rewrite bool_decide_false; [done|]. rewrite Hx. by intros (? & ? & _).
Qed.

(** Without a network that is new or expired, the record keeps its keys. *)
Lemma outcome_same now rules bans (m m' : gmap string StateEntry) :
  (forall c, outcome now rules bans c (m !! c) (m' !! c)) ->
  (forall c, hot bans c -> m !! c <> None) -> (forall c e, m !! c = Some e -> expired now e = false) ->
  forall c, is_Some (m' !! c) <-> is_Some (m !! c).
Proof.
  intros Ho Hn He c. specialize (Ho c). unfold outcome in Ho. destruct (m !! c) as [e|] eqn:E.
  - rewrite (He c e E) in Ho. destruct Ho as [n ->]. split; by eexists.
  - destruct Ho as [_ Ho]. rewrite Ho; [done|]. intros Hh. by apply (Hn c).
Qed.

(** One cycle with bans to look at.  A /24 is banned at Cloudflare exactly
    when two distinct addresses of it are listed, it is not on record and
    Cloudflare has no rule for it; a rule is deleted exactly when its network
    has been on record for a day; and the record is left with the networks
    that were on it for less than a day and the new ones, dated now.  It is
    saved whenever a network was added or removed and the file can be
    written. *)
Theorem cidr_Run_spec now bans listing w m :
  bans <> [] -> loadState (file w) = Some m ->
  let rules := match listing with Some (Ok r) => Some r | _ => None end in
  exists m' w' tr, Run now (Some (Ok bans)) listing w = (w', Ok tt) /\ trace w' = trace w ++ tr /\
    (forall z c n t, AddIPAccessRule z c n t ∈ tr <->
       (z = ZoneID w /\ n = noteTagCIDR /\ t = "ip_range") /\ CFBanner w = true /\
       hot bans c /\ m !! c = None /\ rule_of rules c = None) /\
    (forall z id, DeleteIPAccessRule z id ∈ tr <->
       z = ZoneID w /\ CFDeleter w = true /\
       exists c e, m !! c = Some e /\ expired now e = true /\ rule_of rules c = Some id) /\
    (forall c, outcome now rules bans c (m !! c) (m' !! c)) /\
    (file w' = Saved m' \/
     file w' = file w /\ (writable w = true -> forall c, is_Some (m' !! c) <-> is_Some (m !! c))).
Proof.
  intros Hb Hm rules. unfold Run. destruct bans as [|b0 bans0] eqn:Eb; [done|]. rewrite <- Eb in *. clear b0 bans0 Eb Hb.
  fold rules. rewrite Hm.
  destruct (cidr_loop_spec now rules (map_to_list (group bans)) m false w (NoDup_fst_map_to_list _))
    as (m1 & ch1 & w1 & -> & He1 & Hm1 & Hch1). cbn [default from_option id].
  rewrite list_to_map_to_list in Hm1.
  destruct (expire_loop_spec now rules (map_to_list m1) m1 ch1 w1) as (m2 & ch2 & w2 & -> & He2 & Hm2 & Hch2).
  assert (grouped now bans m m1) as Hg by (intros c; rewrite Hm1; apply grouped_entry).
  pose proof (grouped_outcome now rules bans m m1 m2 Hg Hm2) as Hout.
  pose proof (trace_extends_trans _ _ _ _ _ He1 He2) as (Ef & Ew & _ & _ & _ & _ & Et).
  destruct He1 as (_ & _ & Eb1 & Ed1 & _ & Ez1 & _).
  pose proof (hot_group bans) as Hhot.
  exists m2. eexists _, _. split; [done|]. split; [|split; [|split; [|split; [exact Hout|]]]].
  - assert (trace (if ch2 then saveState m2 w2 else w2) = trace w2) as ->
      by (destruct ch2; [unfold saveState; by destruct (writable w2)|done]). exact Et.
  - intros z c n t. rewrite elem_of_app, !elem_of_concat_fmap. split.
    + intros [([c' ips] & Hin & ((-> & -> & -> & ->) & ? & ? & ? & ?)%add_requested)|
              (ce & _ & (_ & _ & id & _ & [=])%delete_requested)].
      destruct (proj1 (Hhot c' ips)) as [? _]; [done|]. by split_and!.
    + intros ((-> & -> & ->) & ? & Hh & ? & ?). left. destruct (proj2 (Hhot c (ips_of bans c))) as [? ?]; [done|].
      exists (c, ips_of bans c). split; [done|]. by apply add_requested.
  - intros z id. rewrite elem_of_app, !elem_of_concat_fmap. split.
    + intros [([c' ips] & _ & []%no_delete_requested)|
              ([c e] & Hin%elem_of_map_to_list & (Hx & ? & id' & Hr & [= -> ->])%delete_requested)].
      cbn in Hx, Hr. split_and!; [congruence..|].
      destruct (proj1 (grouped_expired now bans m m1 c Hg)) as (e' & ? & ?); [by exists e|]. by exists c, e'.
    + intros (-> & ? & c & e & Hc & Hx & Hr). right.
      destruct (proj2 (grouped_expired now bans m m1 c Hg)) as (e' & ? & ?); [by exists e|].
      exists (c, e'). rewrite elem_of_map_to_list, delete_requested, Ez1, Ed1. split; [done|]. by split_and!; [..|exists id].
  - destruct ch2 eqn:Ec; [unfold saveState; destruct (writable w2) eqn:Ewr; [by left|right; split; [done|congruence]]|].
    right. split; [done|]. intros _. apply (outcome_same now rules bans m m2 Hout).
    + intros c Hh Hn. destruct (proj2 (Hhot c (ips_of bans c))) as [? ?]; [done|].
      assert (false = true) by (apply Hch2; left; apply Hch1; right; eauto). done.
    + intros c e Hc. destruct (expired now e) eqn:Ee; [|done].
      destruct (proj2 (grouped_expired now bans m m1 c Hg)) as (e' & ? & ?); [by exists e|].
      assert (false = true); [|done]. apply Hch2. right. apply Exists_exists. exists (c, e'). by rewrite elem_of_map_to_list.
Qed.

Lemma cidr_loop_nil now rules l ch w c ips :
  (c, ips) ∈ l -> due ips -> (cidr_loop now rules l None ch w).2 = None.
Proof.
  intros Hin Hd. revert w. induction l as [|[c' ips'] l IH]; [by apply not_elem_of_nil in Hin|]. intros w. cbn.
  unfold cidr_step. destruct (_ <? _)%nat eqn:Es.
  - apply elem_of_cons in Hin as [[= -> ->]|Hin]; [by apply not_due in Es|auto].
  - cbn. by destruct (match rules with Some r => _ | None => _ end).
Qed.

(** A state file that cannot be read, or that holds the JSON null, ends the
    cycle in a panic as soon as there is a network to ban: the error of the
    read is dropped and the entry is assigned to a nil map, after the requests
    to ban have been sent. *)
Theorem unreadable_state_panics now bans listing w c :
  loadState (file w) = None -> hot bans c ->
  (Run now (Some (Ok bans)) listing w).2 = Err Recidive.nil_map_panic.
Proof.
  intros Hn Hh. destruct (proj2 (hot_group bans c (ips_of bans c))) as [Hin Hd]; [done|]. unfold Run. rewrite Hn.
  destruct bans as [|b bans]; [by vm_compute in Hin; apply not_elem_of_nil in Hin|].
  match goal with |- context [cidr_loop now ?r ?l None false w] =>
    pose proof (cidr_loop_nil now r l false w c _ Hin Hd) as E; destruct (cidr_loop now r l None false w) as [w' x] end.
  cbn in E. by subst x.
Qed.

(** *** Two cycles of one file *)
Definition two_bans : list Ban := [{| IP := "203.0.113.7"; When := 0 |}; {| IP := "203.0.113.8"; When := 0 |};
                                   {| IP := "198.51.100.1"; When := 0 |}].

Definition all_clients (d : disk StateEntry) : World :=
  {| file := d; writable := true; CFBanner := true; CFDeleter := true; CSRangeBanner := true; ZoneID := "z"; trace := [] |}.

Definition one_rule : gmap string string := {[ "192.0.2.0/24" := "rule-1" ]}.
Definition one_entry : gmap string StateEntry := {[ "192.0.2.0/24" := {| BannedAt := hour; IPCount := 2 |} ]}.

Lemma cidr_Run_spec_witness :
  let w' := (Run (30 * hour) (Some (Ok two_bans)) (Some (Ok one_rule)) (all_clients (Saved one_entry))).1 in
  AddIPAccessRule "z" "203.0.113.0/24" "crowdsec-cidr-ban" "ip_range" ∈ trace w' /\
  DeleteIPAccessRule "z" "rule-1" ∈ trace w' /\ length (trace w') = 3%nat /\
  file w' = Saved {[ "203.0.113.0/24" := {| BannedAt := 30 * hour; IPCount := 2 |} ]}.
Proof.
  destruct (cidr_Run_spec (30 * hour) two_bans (Some (Ok one_rule)) (all_clients (Saved one_entry)) one_entry)
    as (m' & w' & tr & Hr & Ht & Hadd & Hdel & _); [done|reflexivity|].
  cbn zeta. rewrite Hr. cbn [fst]. rewrite Ht. split_and!.
  - apply elem_of_app. right. apply Hadd. split; [repeat split|]. split; [reflexivity|].
    split; [split; [discriminate|apply Nat.leb_le; vm_compute; reflexivity]|]. split; vm_compute; reflexivity.
  - apply elem_of_app. right. apply Hdel. split; [reflexivity|]. split; [reflexivity|].
    exists "192.0.2.0/24", {| BannedAt := hour; IPCount := 2 |}. repeat split; vm_compute; reflexivity.
  - rewrite <- Ht. replace w' with (Run (30 * hour) (Some (Ok two_bans)) (Some (Ok one_rule)) (all_clients (Saved one_entry))).1
      by (rewrite Hr; reflexivity). vm_compute; reflexivity.
  - replace w' with (Run (30 * hour) (Some (Ok two_bans)) (Some (Ok one_rule)) (all_clients (Saved one_entry))).1
      by (rewrite Hr; reflexivity). vm_compute; reflexivity.
Defined.

Lemma unreadable_state_panics_witness :
  (Run (30 * hour) (Some (Ok two_bans)) None (all_clients (Unreadable "permission denied"))).2 =
  Err "panic: assignment to entry in nil map".
Proof. apply (unreadable_state_panics _ _ _ _ "203.0.113.0/24"); [reflexivity|].
  split; [discriminate|apply Nat.leb_le; vm_compute; reflexivity]. Defined.

(** Two unrelated addresses written as IPv4-mapped ones make the service ban
    the whole of ::/24, to which every mapped address belongs. *)
Example mapped_addresses_ban_everything :
  trace (Run hour (Some (Ok [{| IP := "::ffff:203.0.113.7"; When := 0 |}; {| IP := "::ffff:198.51.100.1"; When := 0 |}]))
           None (all_clients Missing)).1 =
  [AddIPAccessRule "z" "::/24" "crowdsec-cidr-ban" "ip_range";
   AddRangeDecision "::/24" "24h" "auto-cidr-ban: 2 IPs from ::/24"].
Proof. by vm_compute. Qed.

End CidrBan.
