(* ===== verification/CrowdSec.v ===== *)
(** * The CrowdSec client

    [internal/crowdsec/client.go] and [internal/crowdsec/source/source.go]: the
    listing of the active and of the recent bans, and the commands that change
    decisions and allowlists.  The [cscli] program is a parameter, a function
    from the arguments it is given; what it prints and the lines of the
    decision log are modelled by what they decode to, with the instant of a
    line as [parseISO] reads it. *)

From S2P Require Import Prelude Netip GoFmt.
Import Netip.

Local Open Scope Z_scope.

(** ** Active decisions *)
Module Source.

Record RawDecision := {
  Origin : string; Type_ : string; Scope : string; Value : string; dec_Scenario : string; Duration : string; dec_ID : Z;
}.
Record RawAlert := { Decisions : list RawDecision }.

Definition localOrigins (o : string) : bool := bool_decide (o ∈ ["crowdsec"; "cscli"]).

(** The decisions that the filter keeps, but for repetitions. *)
Definition wanted (d : RawDecision) : bool :=
  localOrigins (Origin d) && bool_decide (Type_ d = "ban") && bool_decide (to_lower (Scope d) = "ip") &&
  negb (bool_decide (Value d = "")).

Definition filter_step (acc : gset string * list string) (d : RawDecision) : gset string * list string :=
  let '(seen, ips) := acc in
  if negb (localOrigins (Origin d)) then acc
  else if negb (bool_decide (Type_ d = "ban")) then acc
  else if negb (bool_decide (to_lower (Scope d) = "ip")) then acc
  else if bool_decide (Value d = "") || bool_decide (Value d ∈ seen) then acc
  else ({[Value d]} ∪ seen, ips ++ [Value d]).

Definition FilterActiveBanIPs (alerts : list RawAlert) : list string :=
  (foldl (fun acc a => foldl filter_step acc (Decisions a)) (∅, []) alerts).2.

Definition decisions (alerts : list RawAlert) : list RawDecision := concat (Decisions <$> alerts).

Lemma filter_alerts acc alerts :
  foldl (fun acc a => foldl filter_step acc (Decisions a)) acc alerts = foldl filter_step acc (decisions alerts).
Proof.
  unfold decisions. revert acc. induction alerts as [|a alerts IH]; intros acc; [done|]. cbn. by rewrite IH, foldl_app.
Qed.

Lemma filter_step_wanted seen ips d :
  filter_step (seen, ips) d =
  if wanted d && negb (bool_decide (Value d ∈ seen)) then ({[Value d]} ∪ seen, ips ++ [Value d]) else (seen, ips).
Proof.
  unfold filter_step, wanted. destruct (localOrigins _); [|done]. destruct (bool_decide (Type_ d = "ban")); [|done].
  destruct (bool_decide (to_lower (Scope d) = "ip")); [|done]. destruct (bool_decide (Value d = "")); [done|].
  by destruct (bool_decide (Value d ∈ seen)).
Qed.

Lemma filter_steps seen ips ds :
  NoDup ips -> (forall v, v ∈ seen <-> v ∈ ips) ->
  let r := foldl filter_step (seen, ips) ds in
  NoDup r.2 /\ (forall v, v ∈ r.1 <-> v ∈ r.2) /\
  (forall v, v ∈ r.2 <-> v ∈ ips \/ exists d, d ∈ ds /\ wanted d = true /\ Value d = v).
Proof.
  revert seen ips. induction ds as [|d ds IH]; intros seen ips Hnd Hs; cbn [foldl].
  { split_and!; [done..|]. set_solver. }
  rewrite filter_step_wanted. destruct (wanted d) eqn:Ew; cbn [andb]; [|].
  - case_bool_decide as Hin; cbn [negb].
    + destruct (IH seen ips Hnd Hs) as (? & ? & H3). split_and!; [done..|]. intros v. rewrite H3. set_solver.
    + destruct (IH ({[Value d]} ∪ seen) (ips ++ [Value d])) as (? & ? & H3).
      * apply NoDup_app. split_and!; [done| |apply NoDup_singleton]. set_solver.
      * set_solver.
      * split_and!; [done..|]. intros v. rewrite H3. set_solver.
  - destruct (IH seen ips Hnd Hs) as (? & ? & H3). split_and!; [done..|]. intros v. rewrite H3.
    split; [set_solver|]. intros [?|(d' & [->|?]%elem_of_cons & ? & ?)]; [by left|congruence|set_solver].
Qed.

(** The active bans are the addresses of the local bans of scope ip, each once. *)
Lemma FilterActiveBanIPs_spec alerts :
  NoDup (FilterActiveBanIPs alerts) /\
  forall v, v ∈ FilterActiveBanIPs alerts <-> exists d, d ∈ decisions alerts /\ wanted d = true /\ Value d = v.
Proof.
  unfold FilterActiveBanIPs. rewrite filter_alerts.
  destruct (filter_steps ∅ [] (decisions alerts)) as (? & _ & H); [constructor|set_solver|].
  split; [done|]. intros v. rewrite H. set_solver.
Qed.

End Source.

(** ** Validation of what reaches the command line *)
Module Validate.

Definition validateAllowlistName (name : string) : result unit :=
  if bool_decide (trim_space name = "") then Err "allowlist name is required"
  else if has_prefix "-" name then Err "allowlist name must not start with '-'"
  else Ok tt.

Definition validateIP (ip : string) : result unit :=
  if has_prefix "-" ip then Err "target must not start with '-'"
  else match ParseIP ip with None => Err "target is not a valid IP address" | Some _ => Ok tt end.

Definition validateCIDR (cidr : string) : result unit :=
  if has_prefix "-" cidr then Err "target must not start with '-'"
  else match ParseCIDR cidr with None => Err "target is not a valid CIDR range" | Some _ => Ok tt end.

Definition validateIPOrCIDR (value : string) : result unit :=
  if str_contains value "/" then validateCIDR value else validateIP value.

Definition is_digit (a : Ascii.ascii) : bool := match digit a with Some _ => true | None => false end.
Definition is_unit (a : Ascii.ascii) : bool := bool_decide (a ∈ ["s"; "m"; "h"; "d"]%char).

(** [^[0-9]+[smhd]([0-9]+[smhd])*$]: runs of digits, each followed by a unit;
    [digits] tells that a run has begun. *)
Fixpoint duration_match (digits : bool) (s : string) : bool :=
  match s with
  | EmptyString => false
  | String a s' =>
      if is_digit a then duration_match true s'
      else digits && is_unit a && match s' with EmptyString => true | _ => duration_match false s' end
  end.

Definition validateDuration (duration : string) : result unit :=
  if bool_decide (duration = "") then Err "duration is required"
  else if has_prefix "-" duration then Err "duration must not start with '-'"
  else if negb (duration_match false duration) then Err "invalid duration format"
  else Ok tt.

Definition between (lo hi : N) (a : Ascii.ascii) : bool :=
  ((lo <=? N_of_ascii a) && (N_of_ascii a <=? hi))%N.
Definition cont : Ascii.ascii -> bool := between 128 191.

(** [utf8.ValidString]. *)
Fixpoint valid_utf8 (s : string) : bool :=
  match s with
  | EmptyString => true
  | String a s1 =>
      if between 0 127 a then valid_utf8 s1
      else match s1 with
           | EmptyString => false
           | String b s2 =>
               if between 194 223 a then cont b && valid_utf8 s2
               else match s2 with
                    | EmptyString => false
                    | String c s3 =>
                        let lead3 := if between 224 224 a then between 160 191 b
                                     else if between 237 237 a then between 128 159 b
                                     else between 225 239 a && cont b in
                        if lead3 then cont c && valid_utf8 s3
                        else match s3 with
                             | EmptyString => false
                             | String d s4 =>
                                 (if between 240 240 a then between 144 191 b
                                  else if between 244 244 a then between 128 143 b
                                  else between 241 243 a && cont b) &&
                                 cont c && cont d && valid_utf8 s4
                             end
                    end
           end
  end.

Definition control (a : Ascii.ascii) : bool := (N_of_ascii a <? 32)%N || (N_of_ascii a =? 127)%N.

Fixpoint first_control (s : string) : option Ascii.ascii :=
  match s with
  | EmptyString => None
  | String a s => if control a then Some a else first_control s
  end.

(** [%U] of a code point below 128. *)
Definition fmt_U (a : Ascii.ascii) : string :=
  let n := Z.of_N (N_of_ascii a) in
  let hex z := String (if z <? 10 then Ascii.ascii_of_N (Z.to_N (48 + z)) else Ascii.ascii_of_N (Z.to_N (55 + z))) "" in
  "U+00" +:+ hex (n / 16) +:+ hex (n `mod` 16).

Definition validateComment (comment : string) : result unit :=
  if bool_decide (comment = "") then Ok tt
  else if negb (valid_utf8 comment) then Err "comment contains invalid UTF-8"
  else match first_control comment with
       | Some a => Err ("comment contains control character: " +:+ fmt_U a)
       | None => Ok tt
       end.

(** A text that the command line does not take for a flag. *)
Definition not_flag (s : string) : Prop := has_prefix "-" s = false.

Lemma validateIP_ok s u : validateIP s = Ok u -> not_flag s /\ is_Some (ParseIP s).
Proof. unfold validateIP, not_flag. destruct (has_prefix "-" s); [done|]. destruct (ParseIP s); [by eauto|done]. Qed.

Lemma validateCIDR_ok s u : validateCIDR s = Ok u -> not_flag s /\ is_Some (ParseCIDR s).
Proof. unfold validateCIDR, not_flag. destruct (has_prefix "-" s); [done|]. destruct (ParseCIDR s); [by eauto|done]. Qed.

Lemma validateIPOrCIDR_ok s u :
  validateIPOrCIDR s = Ok u -> not_flag s /\ (is_Some (ParseIP s) \/ is_Some (ParseCIDR s)).
Proof.
  unfold validateIPOrCIDR. destruct (str_contains s "/"); intros H; [apply validateCIDR_ok in H|apply validateIP_ok in H]; tauto.
Qed.

Lemma validateAllowlistName_ok s u : validateAllowlistName s = Ok u -> not_flag s /\ trim_space s <> "".
Proof.
  unfold validateAllowlistName, not_flag. case_bool_decide; [done|]. by destruct (has_prefix "-" s).
Qed.

(** A duration that passes is a sequence of counts with units. *)
Inductive duration_text : string -> Prop :=
| dt_last n u : Forall (fun a => is_digit a = true) n -> n <> [] -> is_unit u = true ->
    duration_text (String.string_of_list_ascii (n ++ [u]))
| dt_more n u s : Forall (fun a => is_digit a = true) n -> n <> [] -> is_unit u = true -> duration_text s ->
    duration_text (String.string_of_list_ascii (n ++ [u]) +:+ s).

Lemma digit_not_unit a : is_digit a = true -> is_unit a = false.
Proof. destruct a as [[][][][][][][][]]; vm_compute; congruence. Qed.

Lemma soal_snoc l a s : String.string_of_list_ascii l +:+ String a s = String.string_of_list_ascii (l ++ [a]) +:+ s.
Proof. induction l as [|b l IH]; [done|]. cbn. rewrite !str_cons_app. f_equal. exact IH. Qed.

(** The automaton accepts what the pattern does. *)
Lemma duration_match_sound n s :
  Forall (fun a => is_digit a = true) n -> duration_match (negb (bool_decide (n = []))) s = true ->
  duration_text (String.string_of_list_ascii n +:+ s).
Proof.
  revert n. induction s as [|a s IH]; intros n Hn; cbn; [done|].
  destruct (is_digit a) eqn:Ea.
  - intros H. rewrite soal_snoc. apply IH; [by apply Forall_app_2; repeat constructor|].
    by rewrite bool_decide_false by (by destruct n).
  - case_bool_decide as En; [done|]. cbn. destruct (is_unit a) eqn:Eu; [|done]. cbn. rewrite soal_snoc.
    destruct s as [|b s].
    + intros _. rewrite str_app_nil. by constructor.
    + intros H. constructor; [done..|]. by apply (IH []).
Qed.

Lemma duration_match_digits n s b :
  Forall (fun a => is_digit a = true) n -> duration_match b (String.string_of_list_ascii n +:+ s) = duration_match (b || negb (bool_decide (n = []))) s.
Proof.
  intros Hn. revert b. induction Hn as [|a n Ha Hn IH]; intros b; cbn [String.string_of_list_ascii].
  - by rewrite str_nil_app, orb_false_r.
  - rewrite str_cons_app. cbn [duration_match]. rewrite Ha, IH. by rewrite (bool_decide_false (a :: n = [])), orb_true_r.
Qed.

Lemma duration_match_complete s : duration_text s -> duration_match false s = true.
Proof.
  assert (forall n u t, Forall (fun a => is_digit a = true) n -> n <> [] -> is_unit u = true ->
    duration_match false (String.string_of_list_ascii (n ++ [u]) +:+ t) = match t with EmptyString => true | _ => duration_match false t end) as Hs.
  { intros n u t Hn Hne Hu. rewrite <- soal_snoc, duration_match_digits, (bool_decide_false (n = [])) by done. cbn.
    destruct (is_digit u) eqn:Ed; [by rewrite digit_not_unit in Hu|]. by rewrite Hu. }
  induction 1 as [n u Hn Hne Hu|n u s Hn Hne Hu Hd IH].
  - by rewrite <- (str_app_nil (String.string_of_list_ascii _)), Hs.
  - rewrite Hs by done. by destruct s.
Qed.

Lemma validateDuration_ok s u : validateDuration s = Ok u -> not_flag s /\ duration_text s.
Proof.
  unfold validateDuration, not_flag. case_bool_decide; [done|]. destruct (has_prefix "-" s); [done|].
  destruct (duration_match false s) eqn:E; [|done]. intros _. split; [done|]. by apply (duration_match_sound []).
Qed.

End Validate.

(** ** The client *)
Module Client.
Import Source Validate.

Record AllowlistEntry := { al_Value : string; al_Comment : string }.

Record RecentBan := {
  rb_IP : string; rb_Scenario : string; rb_Origin : string; rb_When : Z; rb_ID : string;
}.

#[export] Instance AllowlistEntry_eq_dec : EqDecision AllowlistEntry.
Proof. solve_decision. Defined.

(** What [cscli decisions list] prints: nothing or null, a list of alerts, or
    text that is not such a list. *)
Inductive printed := Nothing | Alerts (l : list RawAlert) | NotAlerts (err : string).

(** What [cscli allowlists inspect] prints; the other commands' output is not
    looked at. *)
Inductive output := Items (l : list AllowlistEntry) | NotItems (err : string).

(** The two runners of the program: the first reports the exit code with the
    error. *)
Class Cscli (R : Type) := {
  Run : list string -> R -> R * (printed + Z * string);
  run : list string -> R -> R * result output;
}.

(** A line of the decision log, with the instant of [parseISO]. *)
Record decisionLogLine := {
  DT : option Z; EventType : string; cs_Origin : string; cs_Type : string; cs_Scenario : string; cs_IP : string;
  cs_ID : Z; Action : string;
}.

Inductive log_file :=
| NoLog
| LogUnreadable (err : string)
| Log (lines : list (option decisionLogLine)) (scan_err : option string).

Definition lookbackDefault : Z := 48 * hour.

Section client.
Context {R : Type} `{Cscli R}.

(** [commands] is the trace of the command lines that were run. *)
Record Client := { runner : R; decLog : log_file; lookback : Z; commands : list (list string) }.

Definition exec (args : list string) (c : Client) : Client * result output :=
  let '(r, res) := run args (runner c) in
  ({| runner := r; decLog := decLog c; lookback := lookback c; commands := commands c ++ [args] |}, res).

Definition list_args : list string := ["decisions"; "list"; "-o"; "json"].

Definition ListAlerts (c : Client) : Client * result (list RawAlert) :=
  let '(r, res) := Run list_args (runner c) in
  ({| runner := r; decLog := decLog c; lookback := lookback c; commands := commands c ++ [list_args] |},
   match res with
   | inr (code, e) => Err ("cscli decisions list (exit=" +:+ GoFmt.fmt_d code +:+ "): " +:+ e)
   | inl Nothing => Ok []
   | inl (Alerts l) => Ok l
   | inl (NotAlerts e) => Err ("cscli decisions list: invalid JSON: " +:+ e)
   end).

Definition ListActiveBans (c : Client) : Client * result (list string) :=
  let '(c, res) := ListAlerts c in
  (c, match res with
      | Err e => Err ("crowdsec.Client.ListActiveBans: " +:+ e)
      | Ok alerts => Ok (FilterActiveBanIPs alerts)
      end).

Definition ListActiveDecisions (c : Client) : Client * result (list RawDecision) :=
  let '(c, res) := ListAlerts c in
  (c, match res with
      | Err e => Err ("crowdsec.Client.ListActiveDecisions: " +:+ e)
      | Ok alerts => Ok (decisions alerts)
      end).

(** The kinds of line that are bans of this machine. *)
Definition local_ban (l : decisionLogLine) : bool :=
  if bool_decide (EventType l = "alert") then
    bool_decide (Action l = "banned") &&
    negb (str_contains (cs_Scenario l) "cloudflare-waf" || has_prefix "recidivist-escalation" (cs_Scenario l))
  else if bool_decide (EventType l = "decision") then
    localOrigins (to_lower (cs_Origin l)) && bool_decide (cs_Type l = "ban") &&
    negb (has_prefix "cloudflare-waf" (cs_Scenario l) || has_prefix "recidivist-escalation" (cs_Scenario l))
  else false.

Definition recent_ban (cutoff : Z) (line : option decisionLogLine) : option RecentBan :=
  match line with
  | None => None
  | Some l =>
      if negb (local_ban l) then None
      else match DT l with
           | None => None
           | Some dt =>
               if t_before dt cutoff then None
               else match ParseIP (cs_IP l) with
                    | None => None
                    | Some _ =>
                        let origin := if bool_decide (cs_Origin l = "") then "crowdsec" else cs_Origin l in
                        Some {| rb_IP := cs_IP l; rb_Scenario := cs_Scenario l; rb_Origin := to_lower origin;
                                rb_When := dt; rb_ID := GoFmt.fmt_d (cs_ID l) |}
                    end
           end
  end.

(** The bans that were read come back also with an error of the scan. *)
Definition ListRecentBans (now : Z) (c : Client) : list RecentBan * option string :=
  let lookback := if lookback c =? 0 then lookbackDefault else lookback c in
  let cutoff := t_add now (- lookback) in
  match decLog c with
  | NoLog => ([], None)
  | LogUnreadable e => ([], Some ("crowdsec.Client.ListRecentBans: open " +:+ e))
  | Log lines err => (omap (recent_ban cutoff) lines,
                      (fun e => "crowdsec.Client.ListRecentBans: scan: " +:+ e) <$> err)
  end.

Definition wrap {A} (op : string) (r : result A) : result A :=
  match r with Ok a => Ok a | Err e => Err ("crowdsec.Client." +:+ op +:+ ": " +:+ e) end.

Definition ListAllowlist (name : string) (c : Client) : Client * result (list AllowlistEntry) :=
  match validateAllowlistName name with
  | Err e => (c, wrap "ListAllowlist" (Err e))
  | Ok _ =>
      let '(c, res) := exec ["allowlists"; "inspect"; name; "-o"; "json"] c in
      (c, match res with
          | Err e => wrap "ListAllowlist" (Err e)
          | Ok (NotItems e) => Err ("crowdsec.Client.ListAllowlist: parse: " +:+ e)
          | Ok (Items l) => Ok (List.filter (fun e => negb (bool_decide (al_Value e = ""))) l)
          end)
  end.

(** A command whose output is not looked at. *)
Definition command (op : string) (args : list string) (c : Client) : Client * result unit :=
  let '(c, res) := exec args c in
  (c, match res with Err e => wrap op (Err e) | Ok _ => Ok tt end).

Definition AddAllowlistEntry (name : string) (entry : AllowlistEntry) (c : Client) : Client * result unit :=
  match validateAllowlistName name with
  | Err e => (c, wrap "AddAllowlistEntry" (Err e))
  | Ok _ =>
      match validateIPOrCIDR (al_Value entry) with
      | Err e => (c, wrap "AddAllowlistEntry" (Err e))
      | Ok _ =>
          match validateComment (al_Comment entry) with
          | Err e => (c, wrap "AddAllowlistEntry" (Err e))
          | Ok _ =>
              command "AddAllowlistEntry"
                (["allowlists"; "add"; name; al_Value entry] ++
                 if bool_decide (al_Comment entry = "") then [] else ["--comment"; al_Comment entry]) c
          end
      end
  end.

Definition RemoveAllowlistEntry (name value : string) (c : Client) : Client * result unit :=
  match validateAllowlistName name with
  | Err e => (c, wrap "RemoveAllowlistEntry" (Err e))
  | Ok _ =>
      match validateIPOrCIDR value with
      | Err e => (c, wrap "RemoveAllowlistEntry" (Err e))
      | Ok _ => command "RemoveAllowlistEntry" ["allowlists"; "remove"; name; value] c
      end
  end.

Definition AddIPDecision (ip duration reason : string) (c : Client) : Client * result unit :=
  match validateIP ip with
  | Err e => (c, wrap "AddIPDecision" (Err e))
  | Ok _ =>
      match validateDuration duration with
      | Err e => (c, wrap "AddIPDecision" (Err e))
      | Ok _ => command "AddIPDecision"
                  ["decisions"; "add"; "--ip"; ip; "--duration"; duration; "--type"; "ban"; "--reason"; reason] c
      end
  end.

Definition AddRangeDecision (cidr duration reason : string) (c : Client) : Client * result unit :=
  match validateCIDR cidr with
  | Err e => (c, wrap "AddRangeDecision" (Err e))
  | Ok _ =>
      match validateDuration duration with
      | Err e => (c, wrap "AddRangeDecision" (Err e))
      | Ok _ => command "AddRangeDecision"
                  ["decisions"; "add"; "--range"; cidr; "--duration"; duration; "--type"; "ban"; "--reason"; reason] c
      end
  end.

Definition DeleteIPDecision (ip : string) (c : Client) : Client * result unit :=
  match validateIP ip with
  | Err e => (c, wrap "DeleteIPDecision" (Err e))
  | Ok _ => command "DeleteIPDecision" ["decisions"; "delete"; "--ip"; ip] c
  end.

Definition DeleteRangeDecision (cidr : string) (c : Client) : Client * result unit :=
  match validateCIDR cidr with
  | Err e => (c, wrap "DeleteRangeDecision" (Err e))
  | Ok _ => command "DeleteRangeDecision" ["decisions"; "delete"; "--range"; cidr] c
  end.

(** *** Every call and the command lines it may run *)

Inductive call :=
| KListAlerts
| KListAllowlist (name : string)
| KAddAllowlist (name : string) (entry : AllowlistEntry)
| KRemoveAllowlist (name value : string)
| KBanIP (ip duration reason : string)
| KBanRange (cidr duration reason : string)
| KUnbanIP (ip : string)
| KUnbanRange (cidr : string).

Definition failed {A} (r : result A) : option string := match r with Ok _ => None | Err e => Some e end.

Definition perform (k : call) (c : Client) : Client * option string :=
  match k with
  | KListAlerts => let r := ListAlerts c in (r.1, failed r.2)
  | KListAllowlist n => let r := ListAllowlist n c in (r.1, failed r.2)
  | KAddAllowlist n e => let r := AddAllowlistEntry n e c in (r.1, failed r.2)
  | KRemoveAllowlist n v => let r := RemoveAllowlistEntry n v c in (r.1, failed r.2)
  | KBanIP ip d why => let r := AddIPDecision ip d why c in (r.1, failed r.2)
  | KBanRange cidr d why => let r := AddRangeDecision cidr d why c in (r.1, failed r.2)
  | KUnbanIP ip => let r := DeleteIPDecision ip c in (r.1, failed r.2)
  | KUnbanRange cidr => let r := DeleteRangeDecision cidr c in (r.1, failed r.2)
  end.

(** The texts that may stand in a command line. *)
Definition list_name (s : string) : Prop := not_flag s /\ trim_space s <> "".
Definition address (s : string) : Prop := not_flag s /\ is_Some (ParseIP s).
Definition network (s : string) : Prop := not_flag s /\ is_Some (ParseCIDR s).
Definition clean_comment (s : string) : Prop := valid_utf8 s = true /\ first_control s = None.
Definition proper_duration (s : string) : Prop := not_flag s /\ duration_text s.

Definition target (s : string) : Prop := if str_contains s "/" then network s else address s.

(** The words of a command line: those of the program, and those that come
    from the arguments of the call, each with what it has to be.  The reason of
    a ban is passed on as it is. *)
Inductive word :=
| Fixed (s : string)
| ListName (s : string)
| Target (s : string)
| Address (s : string)
| Network (s : string)
| Duration_ (s : string)
| Comment (s : string)
| Reason (s : string).

Definition word_text (w : word) : string :=
  match w with
  | Fixed s | ListName s | Target s | Address s | Network s | Duration_ s | Comment s | Reason s => s
  end.

Definition word_ok (w : word) : Prop :=
  match w with
  | Fixed _ | Reason _ => True
  | ListName s => list_name s
  | Target s => target s
  | Address s => address s
  | Network s => network s
  | Duration_ s => proper_duration s
  | Comment s => clean_comment s
  end.

Definition words (k : call) : list word :=
  match k with
  | KListAlerts => [Fixed "decisions"; Fixed "list"; Fixed "-o"; Fixed "json"]
  | KListAllowlist n => [Fixed "allowlists"; Fixed "inspect"; ListName n; Fixed "-o"; Fixed "json"]
  | KAddAllowlist n e =>
      [Fixed "allowlists"; Fixed "add"; ListName n; Target (al_Value e)] ++
      (if bool_decide (al_Comment e = "") then [] else [Fixed "--comment"; Comment (al_Comment e)])
  | KRemoveAllowlist n v => [Fixed "allowlists"; Fixed "remove"; ListName n; Target v]
  | KBanIP ip d why =>
      [Fixed "decisions"; Fixed "add"; Fixed "--ip"; Address ip; Fixed "--duration"; Duration_ d; Fixed "--type"; Fixed "ban";
       Fixed "--reason"; Reason why]
  | KBanRange cidr d why =>
      [Fixed "decisions"; Fixed "add"; Fixed "--range"; Network cidr; Fixed "--duration"; Duration_ d; Fixed "--type"; Fixed "ban";
       Fixed "--reason"; Reason why]
  | KUnbanIP ip => [Fixed "decisions"; Fixed "delete"; Fixed "--ip"; Address ip]
  | KUnbanRange cidr => [Fixed "decisions"; Fixed "delete"; Fixed "--range"; Network cidr]
  end.

Definition command_line (k : call) : list string := word_text <$> words k.

(** Every word is what it has to be. *)
Definition admissible (k : call) : Prop := Forall word_ok (words k).

Lemma admissible_iff k : admissible k <->
  match k with
  | KListAlerts => True
  | KListAllowlist n => list_name n
  | KAddAllowlist n e => list_name n /\ target (al_Value e) /\ clean_comment (al_Comment e)
  | KRemoveAllowlist n v => list_name n /\ target v
  | KBanIP ip d _ => address ip /\ proper_duration d
  | KBanRange cidr d _ => network cidr /\ proper_duration d
  | KUnbanIP ip => address ip
  | KUnbanRange cidr => network cidr
  end.
Proof.
  unfold admissible. destruct k as [|n|n e|n v|ip d why|cidr d why|ip|cidr]; cbn [words];
    try case_bool_decide as He; rewrite ?Forall_app, !Forall_cons, Forall_nil; cbn [word_ok]; try tauto.
  assert (clean_comment (al_Comment e)) by (rewrite He; by vm_compute). tauto.
Qed.

(** *** Validation, as it is used *)

Definition decides {A} (r : result A) (P : Prop) : Prop :=
  match r with Ok _ => P | Err _ => ~ P end.

Lemma name_decides s : decides (validateAllowlistName s) (list_name s).
Proof.
  destruct (validateAllowlistName s) eqn:E; [by eapply validateAllowlistName_ok|].
  intros [Hf Ht]. unfold validateAllowlistName, not_flag in *. by rewrite bool_decide_false, Hf in E.
Qed.

Lemma address_decides s : decides (validateIP s) (address s).
Proof.
  destruct (validateIP s) eqn:E; [by eapply validateIP_ok|].
  intros [Hf [a Ha]]. unfold validateIP, not_flag in *. by rewrite Hf, Ha in E.
Qed.

Lemma network_decides s : decides (validateCIDR s) (network s).
Proof.
  destruct (validateCIDR s) eqn:E; [by eapply validateCIDR_ok|].
  intros [Hf [a Ha]]. unfold validateCIDR, not_flag in *. by rewrite Hf, Ha in E.
Qed.

Lemma target_decides s : decides (validateIPOrCIDR s) (target s).
Proof. unfold validateIPOrCIDR, target. destruct (str_contains s "/"); [apply network_decides|apply address_decides]. Qed.

Lemma duration_decides s : decides (validateDuration s) (proper_duration s).
Proof.
  destruct (validateDuration s) eqn:E; [by eapply validateDuration_ok|].
  intros [Hf Hd]. apply duration_match_complete in Hd. unfold validateDuration, not_flag in *.
  rewrite Hf, Hd in E. case_bool_decide; [by subst|done].
Qed.

Lemma comment_decides s : decides (validateComment s) (clean_comment s).
Proof.
  unfold validateComment, clean_comment. case_bool_decide as Es; [by subst|].
  destruct (valid_utf8 s); cbn; [|by intros []]. destruct (first_control s); [by intros []|done].
Qed.

Lemma exec_trace args c : commands (exec args c).1 = commands c ++ [args].
Proof. unfold exec. by destruct (run args (runner c)). Qed.

Lemma command_trace op args c : commands (command op args c).1 = commands c ++ [args].
Proof. unfold command. rewrite <- exec_trace. by destruct (exec args c). Qed.

(** Case analysis on a validation. *)
Ltac on_valid L :=
  let H := fresh "Hv" in
  match goal with
  | |- context [match ?r with Ok _ => _ | Err _ => _ end] =>
      pose proof L as H; destruct r; cbn [decides] in H; [|split; [tauto|intros _; by cbn]]
  end.

(** *** Properties *)

(** C33: Command lines are guarded, word by word.  A call of the client whose
    addresses, networks, list names, durations and comments are what they
    should be runs exactly one command, the one it stands for; any other call
    runs no command at all, changes nothing and returns an error.  So no such
    word of a command line is malformed, and none but a comment begins with a
    dash.  The reason of a ban is not among them: it is passed on unchecked
    ([reason_unchecked] below). *)
Theorem cscli_calls_checked k c :
  (admissible k -> commands (perform k c).1 = commands c ++ [command_line k]) /\
  (~ admissible k -> (perform k c).1 = c /\ is_Some (perform k c).2).
Proof.
  rewrite (admissible_iff k). destruct k as [|n|n e|n v|ip d why|cidr d why|ip|cidr]; cbn [perform].
  - split; [|tauto]. intros _. unfold ListAlerts. by destruct (Run list_args (runner c)).
  - unfold ListAllowlist. on_valid (name_decides n). split; [|tauto]. intros _. rewrite <- exec_trace. by destruct (exec _ c).
  - unfold AddAllowlistEntry. on_valid (name_decides n). on_valid (target_decides (al_Value e)).
    on_valid (comment_decides (al_Comment e)). split; [|tauto]. intros _. cbn [fst]. rewrite command_trace.
    unfold command_line. cbn [words]. by case_bool_decide.
  - unfold RemoveAllowlistEntry. on_valid (name_decides n). on_valid (target_decides v).
    split; [|tauto]. intros _. apply command_trace.
  - unfold AddIPDecision. on_valid (address_decides ip). on_valid (duration_decides d).
    split; [|tauto]. intros _. apply command_trace.
  - unfold AddRangeDecision. on_valid (network_decides cidr). on_valid (duration_decides d).
    split; [|tauto]. intros _. apply command_trace.
  - unfold DeleteIPDecision. on_valid (address_decides ip). split; [|tauto]. intros _. apply command_trace.
  - unfold DeleteRangeDecision. on_valid (network_decides cidr). split; [|tauto]. intros _. apply command_trace.
Qed.

(** The recent bans are those of the log that are bans of this machine, not
    older than the window and with an address, in the order of the log. *)
Lemma ListRecentBans_in now c b :
  b ∈ (ListRecentBans now c).1 ->
  is_Some (ParseIP (rb_IP b)) /\ has_prefix "recidivist-escalation" (rb_Scenario b) = false /\
  now - (if lookback c =? 0 then lookbackDefault else lookback c) <= rb_When b.
Proof.
  unfold ListRecentBans, t_add. destruct (decLog c) as [|e|lines err]; cbn; [set_solver..|].
  intros (l & _ & Hl)%list_elem_of_omap. unfold recent_ban in Hl. destruct l as [l|]; [|done].
  destruct (local_ban l) eqn:El; cbn in Hl; [|done]. destruct (DT l) as [dt|]; [|done].
  destruct (t_before _ _) eqn:Et; [done|]. destruct (ParseIP (cs_IP l)) eqn:Ep; [|done]. simplify_eq. cbn.
  split_and!; [by eauto| |unfold t_before in Et; bool_simpl; lia].
  unfold local_ban in El. repeat case_bool_decide; cbn in El; bool_simpl; try done;
    match goal with H : _ || _ = false |- _ => by apply orb_false_iff in H as [_ ?] end.
Qed.

End client.

(** A [cscli] that refuses to inspect one list. *)
#[global] Instance demo_cscli : Cscli unit := {|
  Run _ r := (r, inl (Alerts [{| Decisions := [
    {| Origin := "crowdsec"; Type_ := "ban"; Scope := "Ip"; Value := "203.0.113.7"; dec_Scenario := "s"; Duration := "4h"; dec_ID := 1 |};
    {| Origin := "CAPI"; Type_ := "ban"; Scope := "Ip"; Value := "203.0.113.8"; dec_Scenario := "s"; Duration := "4h"; dec_ID := 2 |};
    {| Origin := "cscli"; Type_ := "ban"; Scope := "ip"; Value := "203.0.113.7"; dec_Scenario := "s"; Duration := "4h"; dec_ID := 3 |}] |}]));
  run args r := (r, if bool_decide (args = ["allowlists"; "inspect"; "gone"; "-o"; "json"]) then Err "exit status 1" else Ok (Items []));
|}.

Definition demo_client : Client (R := unit) := {| runner := tt; decLog := NoLog; lookback := 0; commands := [] |}.

Example active_bans : (ListActiveBans demo_client).2 = Ok ["203.0.113.7"].
Proof. by vm_compute. Qed.

Example durations :
  (fun d => is_ok (validateDuration d)) <$> ["24h"; "1d12h"; "168"; "h"; "-1h"; "1h "; ""; "4h30"] =
  [true; true; false; false; false; false; false; false].
Proof. by vm_compute. Qed.

Example comments :
  (fun d => is_ok (validateComment d)) <$> ["office VPN"; ""; bytes_str [97; 10]; bytes_str [195; 169]; bytes_str [195; 40]; bytes_str [237; 160; 128]]%N =
  [true; true; false; true; false; false].
Proof. by vm_compute. Qed.

(** A reason with a dash and a line feed. *)
Example reason_unchecked :
  let why := "--all" +:+ bytes_str [10]%N in
  commands (perform (KBanIP "203.0.113.7" "24h" why) demo_client).1 =
    [["decisions"; "add"; "--ip"; "203.0.113.7"; "--duration"; "24h"; "--type"; "ban"; "--reason"; why]] /\
  is_ok (validateComment why) = false.
Proof. by vm_compute. Qed.

Example flag_refused :
  perform (KBanIP "--all" "24h" "r") demo_client = (demo_client, Some "crowdsec.Client.AddIPDecision: target must not start with '-'").
Proof. by vm_compute. Qed.

End Client.
