(* ===== verification/Quota.v ===== *)
(** * Provider quotas

    [internal/security/quota]: the quota observations that the headers of a
    response give, their classification and the registry of the latest
    observation of each provider.  The numbers are binary64 as in the code.
    [strconv.ParseFloat] is modelled on decimal numerals and the special
    values (not on hexadecimal numerals and on underscores between digits),
    and [http.ParseTime], for the dates of Retry-After, is a parameter. *)

From S2P Require Import Prelude GoFmt Reports.
From Stdlib Require Import Floats.SpecFloat.
Import F64.

Local Open Scope Z_scope.

(** ** Package [strconv] *)
Module Strconv.

Definition dig (a : Ascii.ascii) : option Z :=
  let n := Z.of_N (N_of_ascii a) in if (48 <=? n) && (n <=? 57) then Some (n - 48) else None.

(** The value of the leading digits, their number and the rest. *)
Fixpoint digits (s : string) (acc : Z) (n : nat) : Z * nat * string :=
  match s with
  | EmptyString => (acc, n, s)
  | String a s' => match dig a with Some d => digits s' (acc * 10 + d) (S n) | None => (acc, n, s) end
  end.

Definition sign_of (s : string) : bool * string :=
  match s with
  | String "+" s' => (false, s')
  | String "-" s' => (true, s')
  | _ => (false, s)
  end.

(** [ParseInt(s, 10, 64)]. *)
Definition ParseInt (s : string) : option Z :=
  let '(neg, s) := sign_of s in
  match digits s 0 0 with
  | (v, S _, EmptyString) =>
      let v := if neg : bool then - v else v in
      if (int64_min <=? v) && (v <=? int64_max) then Some v else None
  | _ => None
  end.

(** [n * 10 ^ e], rounded once; [None] beyond the range. *)
Definition to_float (neg : bool) (n : Z) (e : Z) : option float64 :=
  if n =? 0 then Some (S754_zero neg)
  else
    let f := if 0 <=? e then binary_normalize prec emax ((if neg then - n else n) * 10 ^ e) 0 false
             else let '(m, ex, l) := SFdiv_core_binary prec emax n 0 (10 ^ (- e)) 0 in
                  binary_round_aux prec emax neg m ex l in
    match f with S754_infinity _ => None | _ => Some f end.

(** An exponent, which stops growing at 10000 as in the code. *)
Fixpoint exponent (s : string) (acc : Z) : option Z :=
  match s with
  | EmptyString => Some acc
  | String a s' => match dig a with Some d => exponent s' (if acc <? 10000 then acc * 10 + d else acc) | None => None end
  end.

Definition with_exponent (neg : bool) (n : Z) (frac : nat) (s : string) : option float64 :=
  match s with
  | EmptyString => to_float neg n (- Z.of_nat frac)
  | String a s' =>
      if bool_decide (a = "e"%char \/ a = "E"%char) then
        let '(eneg, s') := sign_of s' in
        if bool_decide (s' = EmptyString) then None
        else match exponent s' 0 with
             | Some e => to_float neg n ((if eneg : bool then - e else e) - Z.of_nat frac)
             | None => None
             end
      else None
  end.

Definition ParseFloat (s : string) : option float64 :=
  let '(neg, t) := sign_of s in
  let low := to_lower t in
  if bool_decide (low = "inf" \/ low = "infinity") then Some (S754_infinity neg)
  else if bool_decide (to_lower s = "nan") then Some S754_nan
  else
    let '(n, k, rest) := digits t 0 0 in
    match rest with
    | String "." rest =>
        let '(n, k', rest) := digits rest n 0 in
        if (k + k' =? 0)%nat then None else with_exponent neg n k' rest
    | _ => if (k =? 0)%nat then None else with_exponent neg n 0 rest
    end.

Example ParseFloat_ex :
  ParseFloat <$> ["1200"; "0.5"; "1e3"; "-0"; "1e400"; "abc"; ""; "1."; "."; "0.1"] =
  [Some (of_int 1200); Some (div (of_int 1) (of_int 2)); Some (of_int 1000); Some (S754_zero true); None; None; None;
   Some (of_int 1); None; Some (div (of_int 1) (of_int 10))].
Proof. by vm_compute. Qed.

End Strconv.

(** ** Observations *)
Module Quota.
Import Strconv.

Inductive State := Normal | Warning | Throttled | Exhausted | Unknown.

#[export] Instance State_eq_dec : EqDecision State.
Proof. solve_decision. Defined.

Record Observation := {
  Provider : string; Plan : string; QuotaSource : string;
  Limit : float64; Used : float64; Remaining : float64;
  LimitKnown : bool; UsedKnown : bool; RemainingKnown : bool;
  RemainingPercent : float64; PercentKnown : bool;
  ResetAt : Z; ResetKnown : bool; ObservedAt : Z;
  ObsState : State; Notes : list string;
}.

(** *** Classification *)

Definition clampNonNegative (v : float64) : float64 :=
  match v with S754_nan => zero | _ => if SFltb v zero then zero else v end.

Definition Classify (known : bool) (percent : float64) : State :=
  if negb known then Unknown
  else if SFleb percent zero then Exhausted
  else if SFleb percent (of_int 5) then Throttled
  else if SFleb percent (of_int 15) then Warning
  else Normal.

Definition remainingPercent (o : Observation) : option float64 :=
  if PercentKnown o then Some (RemainingPercent o)
  else if negb (LimitKnown o) || negb (RemainingKnown o) || SFleb (Limit o) zero then None
  else Some (mul (div (clampNonNegative (Remaining o)) (Limit o)) (of_int 100)).

Definition with_percent (p : float64) (known : bool) (st : State) (o : Observation) : Observation :=
  {| Provider := Provider o; Plan := Plan o; QuotaSource := QuotaSource o; Limit := Limit o; Used := Used o;
     Remaining := Remaining o; LimitKnown := LimitKnown o; UsedKnown := UsedKnown o; RemainingKnown := RemainingKnown o;
     RemainingPercent := p; PercentKnown := known; ResetAt := ResetAt o; ResetKnown := ResetKnown o;
     ObservedAt := ObservedAt o; ObsState := st; Notes := Notes o |}.

Definition ClassifyObservation (o : Observation) : Observation :=
  match remainingPercent o with
  | Some p => with_percent p true (Classify true p) o
  | None => with_percent (RemainingPercent o) (PercentKnown o) Unknown o
  end.

(** *** Headers *)

Definition set_limit (v : float64) (o : Observation) : Observation :=
  {| Provider := Provider o; Plan := Plan o; QuotaSource := QuotaSource o; Limit := v; Used := Used o;
     Remaining := Remaining o; LimitKnown := true; UsedKnown := UsedKnown o; RemainingKnown := RemainingKnown o;
     RemainingPercent := RemainingPercent o; PercentKnown := PercentKnown o; ResetAt := ResetAt o;
     ResetKnown := ResetKnown o; ObservedAt := ObservedAt o; ObsState := ObsState o; Notes := Notes o |}.
Definition set_remaining (v : float64) (o : Observation) : Observation :=
  {| Provider := Provider o; Plan := Plan o; QuotaSource := QuotaSource o; Limit := Limit o; Used := Used o;
     Remaining := v; LimitKnown := LimitKnown o; UsedKnown := UsedKnown o; RemainingKnown := true;
     RemainingPercent := RemainingPercent o; PercentKnown := PercentKnown o; ResetAt := ResetAt o;
     ResetKnown := ResetKnown o; ObservedAt := ObservedAt o; ObsState := ObsState o; Notes := Notes o |}.
Definition set_used (v : float64) (o : Observation) : Observation :=
  {| Provider := Provider o; Plan := Plan o; QuotaSource := QuotaSource o; Limit := Limit o; Used := v;
     Remaining := Remaining o; LimitKnown := LimitKnown o; UsedKnown := true; RemainingKnown := RemainingKnown o;
     RemainingPercent := RemainingPercent o; PercentKnown := PercentKnown o; ResetAt := ResetAt o;
     ResetKnown := ResetKnown o; ObservedAt := ObservedAt o; ObsState := ObsState o; Notes := Notes o |}.
Definition set_reset (t : Z) (o : Observation) : Observation :=
  {| Provider := Provider o; Plan := Plan o; QuotaSource := QuotaSource o; Limit := Limit o; Used := Used o;
     Remaining := Remaining o; LimitKnown := LimitKnown o; UsedKnown := UsedKnown o; RemainingKnown := RemainingKnown o;
     RemainingPercent := RemainingPercent o; PercentKnown := PercentKnown o; ResetAt := t;
     ResetKnown := true; ObservedAt := ObservedAt o; ObsState := ObsState o; Notes := Notes o |}.
Definition set_observed (t : Z) (o : Observation) : Observation :=
  {| Provider := Provider o; Plan := Plan o; QuotaSource := QuotaSource o; Limit := Limit o; Used := Used o;
     Remaining := Remaining o; LimitKnown := LimitKnown o; UsedKnown := UsedKnown o; RemainingKnown := RemainingKnown o;
     RemainingPercent := RemainingPercent o; PercentKnown := PercentKnown o; ResetAt := ResetAt o;
     ResetKnown := ResetKnown o; ObservedAt := t; ObsState := ObsState o; Notes := Notes o |}.
Definition add_note (n : string) (o : Observation) : Observation :=
  {| Provider := Provider o; Plan := Plan o; QuotaSource := QuotaSource o; Limit := Limit o; Used := Used o;
     Remaining := Remaining o; LimitKnown := LimitKnown o; UsedKnown := UsedKnown o; RemainingKnown := RemainingKnown o;
     RemainingPercent := RemainingPercent o; PercentKnown := PercentKnown o; ResetAt := ResetAt o;
     ResetKnown := ResetKnown o; ObservedAt := ObservedAt o; ObsState := ObsState o; Notes := Notes o ++ [n] |}.

(** [strings.FieldsFunc] at the separators of structured fields. *)
Fixpoint field_parts (s : string) (cur : string) : list string :=
  let flush := if bool_decide (cur = "") then [] else [cur] in
  match s with
  | EmptyString => flush
  | String a s => if bool_decide (a = ","%char \/ a = ";"%char) then flush ++ field_parts s ""
                  else field_parts s (cur +:+ String a "")
  end.

(** [strings.Cut] at the first equality sign. *)
Fixpoint cut_eq (s : string) : option (string * string) :=
  match s with
  | EmptyString => None
  | String a s => if bool_decide (a = "="%char) then Some ("", s)
                  else match cut_eq s with Some (k, v) => Some (String a k, v) | None => None end
  end.

Fixpoint trim_quotes_left (s : string) : string :=
  match s with
  | String a s' => if (N_of_ascii a =? 34)%N then trim_quotes_left s' else s
  | EmptyString => s
  end.

(** [strings.Trim] of quotation marks. *)
Definition trim_quotes (s : string) : string := str_rev (trim_quotes_left (str_rev (trim_quotes_left s))).

Definition add_field (fields : gmap string string) (part : string) : gmap string string :=
  let part := trim_space part in
  if bool_decide (part = "") then fields
  else match cut_eq part with
       | None => fields
       | Some (key, value) =>
           let key := to_lower (trim_space key) in
           let value := trim_quotes (trim_space value) in
           if bool_decide (key = "") || bool_decide (value = "") then fields else <[key := value]> fields
       end.

Definition parseStructuredFields (raw : string) : gmap string string := foldl add_field ∅ (field_parts raw "").

Definition parseFloat64 (raw : string) : option float64 := ParseFloat (trim_space raw).

Definition parseDurationSeconds (raw : string) : option Z :=
  let raw := trim_space raw in
  if bool_decide (raw = "") then None
  else match ParseInt raw with
       | Some secs => if secs <? 0 then None else Some (wrap64 (secs * second))
       | None => None
       end.

Definition parseRateLimitReset (raw : string) (now : Z) : option Z :=
  let raw := trim_space raw in
  if bool_decide (raw = "") then None
  else match ParseInt raw with
       | Some unix => if 1000000000 <=? unix then Some (719162 * 24 * hour + unix * second)
                      else if 0 <=? unix then Some (t_add now (wrap64 (unix * second))) else None
       | None => None
       end.

(** A field that sets the limit, the rest or the reset. *)
Definition limit_field (v : option string) (o : Observation) : Observation :=
  match v ≫= parseFloat64 with Some f => set_limit f o | None => o end.
Definition remaining_field (v : option string) (o : Observation) : Observation :=
  match v ≫= parseFloat64 with Some f => set_remaining f o | None => o end.
Definition reset_field (now : Z) (v : option string) (o : Observation) : Observation :=
  match v ≫= parseDurationSeconds with Some d => set_reset (t_add now d) o | None => o end.
Definition unless (known : Observation -> bool) (f : Observation -> Observation) (o : Observation) : Observation :=
  if known o then o else f o.
Definition policy_note (fields : gmap string string) (o : Observation) : Observation :=
  match fields !! "policy" with Some p => add_note ("policy=" +:+ p) o | None => o end.

Definition applyCloudflareStructuredFields (raw : string) (now : Z) (o : Observation) : Observation :=
  let fields := parseStructuredFields raw in
  let o := limit_field (fields !! "q") o in
  let o := unless LimitKnown (limit_field (fields !! "limit")) o in
  let o := remaining_field (fields !! "r") o in
  let o := unless RemainingKnown (remaining_field (fields !! "remaining")) o in
  let o := reset_field now (fields !! "t") o in
  let o := unless ResetKnown (reset_field now (fields !! "reset")) o in
  let o := unless ResetKnown (reset_field now (fields !! "reset")) o in
  let o := unless ResetKnown (reset_field now (fields !! "reset-after")) o in
  let o := unless ResetKnown (reset_field now (fields !! "window")) o in
  let o := unless ResetKnown (reset_field now (fields !! "w")) o in
  let o := unless ResetKnown (reset_field now (fields !! "w")) o in
  policy_note fields o.

Definition applyAbuseIPDBStructuredFields (raw : string) (now : Z) (o : Observation) : Observation :=
  let fields := parseStructuredFields raw in
  let o := limit_field (fields !! "limit") o in
  let o := remaining_field (fields !! "remaining") o in
  let o := unless ResetKnown (fun o => match fields !! "reset" ≫= (fun v => parseRateLimitReset v now) with
                                       | Some t => set_reset t o | None => o end) o in
  let o := unless ResetKnown (reset_field now (fields !! "window")) o in
  policy_note fields o.

(** Headers by their canonical names; an absent one reads as the empty text. *)
Notation Header := (gmap string string).
Definition hget (h : Header) (k : string) : string := default "" (h !! k).

Definition fresh (provider plan : string) (now : Z) : Observation :=
  {| Provider := provider; Plan := plan; QuotaSource := "headers"; Limit := zero; Used := zero; Remaining := zero;
     LimitKnown := false; UsedKnown := false; RemainingKnown := false; RemainingPercent := zero; PercentKnown := false;
     ResetAt := 0; ResetKnown := false; ObservedAt := now; ObsState := Unknown; Notes := [] |}.

Definition settle_used (o : Observation) : Observation :=
  if LimitKnown o && RemainingKnown o then set_used (clampNonNegative (sub (Limit o) (Remaining o))) o else o.

Section headers.
(** [http.ParseTime]. *)
Variable ParseTime : string -> option Z.

Definition parseRetryAfterHeader (now : Z) (raw : string) : option Z :=
  let raw := trim_space raw in
  if bool_decide (raw = "") then None
  else match parseDurationSeconds raw with
       | Some d => Some d
       | None => match ParseTime raw with Some t => Some (Z.max 0 (t_sub t now)) | None => None end
       end.

Definition retry_field (now : Z) (h : Header) (o : Observation) : Observation :=
  match parseRetryAfterHeader now (hget h "Retry-After") with
  | Some d => add_note ("Retry-After=" +:+ GoFmt.duration_string d) (set_reset (t_add now d) o)
  | None => o
  end.

Definition ParseCloudflareHeaders (now : Z) (h : option Header) : Observation :=
  let o := fresh "cloudflare" "cloudflare quota headers" now in
  match h with
  | None => ClassifyObservation o
  | Some h =>
      let raw := trim_space (hget h "Ratelimit-Policy") in
      let o := if bool_decide (raw = "") then o
               else applyCloudflareStructuredFields raw now (add_note ("Ratelimit-Policy=" +:+ raw) o) in
      let raw := trim_space (hget h "Ratelimit") in
      let o := if bool_decide (raw = "") then o else applyCloudflareStructuredFields raw now o in
      ClassifyObservation (settle_used (retry_field now h o))
  end.

Definition ParseAbuseIPDBHeaders (now : Z) (h : option Header) : Observation :=
  let o := fresh "abuseipdb" "abuseipdb api quota" now in
  match h with
  | None => ClassifyObservation o
  | Some h =>
      let raw := trim_space (hget h "X-Ratelimit-Policy") in
      let o := if bool_decide (raw = "") then o
               else applyAbuseIPDBStructuredFields raw now (add_note ("X-RateLimit-Policy=" +:+ raw) o) in
      let raw := trim_space (hget h "X-Ratelimit-Limit") in
      let o := if bool_decide (raw = "") then o else limit_field (Some raw) o in
      let raw := trim_space (hget h "X-Ratelimit-Remaining") in
      let o := if bool_decide (raw = "") then o else remaining_field (Some raw) o in
      let raw := trim_space (hget h "X-Ratelimit-Reset") in
      let o := if bool_decide (raw = "") then o
               else match parseRateLimitReset raw now with Some t => set_reset t o | None => o end in
      let raw := trim_space (hget h "X-Ratelimit-Reset-After") in
      let o := if bool_decide (raw = "") then o else reset_field now (Some raw) o in
      ClassifyObservation (settle_used (retry_field now h o))
  end.

Definition CloudflareRetryAfter (now : Z) (h : Header) : Z :=
  default 0 (parseRetryAfterHeader now (hget h "Retry-After")).

End headers.

(** *** The registry *)

Record Transition := { Previous : State; Current : State }.

Notation Registry := (gmap string Observation).

Definition normalizeProvider (name : string) : string := to_lower (trim_space name).

Definition Record_ (now : Z) (o : Observation) (r : Registry) : Registry * Transition :=
  let o := ClassifyObservation o in
  let o := if is_zero_time (ObservedAt o) then set_observed now o else o in
  let key := normalizeProvider (Provider o) in
  let prev := match r !! key with Some e => ObsState e | None => Unknown end in
  (<[key := o]> r, {| Previous := prev; Current := ObsState o |}).

Definition Get (provider : string) (r : Registry) : option Observation := r !! normalizeProvider provider.

Definition StateOf (provider : string) (r : Registry) : option State := ObsState <$> Get provider r.

Definition Snapshot (r : Registry) : list Observation :=
  let keys := isort str_lt ((map_to_list r).*1) in
  omap (fun k => r !! k) keys.

(** *** Facts *)

Lemma classify_idempotent o : ClassifyObservation (ClassifyObservation o) = ClassifyObservation o.
Proof.
  unfold ClassifyObservation at 2 3. unfold ClassifyObservation. destruct (remainingPercent o) as [p|] eqn:E; [done|].
  assert (remainingPercent (with_percent (RemainingPercent o) (PercentKnown o) Unknown o) = None) as -> by exact E.
  done.
Qed.

Lemma classify_keeps o :
  Provider (ClassifyObservation o) = Provider o /\ ObservedAt (ClassifyObservation o) = ObservedAt o.
Proof. unfold ClassifyObservation. by destruct (remainingPercent o). Qed.

(** The observation that is stored. *)
Definition stored (now : Z) (o : Observation) : Observation :=
  let o := ClassifyObservation o in if is_zero_time (ObservedAt o) then set_observed now o else o.

Lemma stored_provider now o : Provider (stored now o) = Provider o.
Proof. unfold stored. destruct (is_zero_time _); cbn; apply classify_keeps. Qed.

Lemma Record_get now o r : Get (Provider o) (Record_ now o r).1 = Some (stored now o).
Proof.
  unfold Get, Record_. cbn [fst]. fold (stored now o). by rewrite stored_provider, lookup_insert_eq.
Qed.

Lemma Record_get_ne now o r p :
  normalizeProvider p <> normalizeProvider (Provider o) -> Get p (Record_ now o r).1 = Get p r.
Proof.
  intros Hn. unfold Get, Record_. cbn [fst]. fold (stored now o). rewrite stored_provider. by apply lookup_insert_ne.
Qed.

(** The steps that read the headers keep the provider. *)
Definition keeps (f : Observation -> Observation) : Prop := forall o, Provider (f o) = Provider o.

Lemma keeps_limit v : keeps (limit_field v).
Proof. intros o. unfold limit_field. by destruct (v ≫= parseFloat64). Qed.
Lemma keeps_remaining v : keeps (remaining_field v).
Proof. intros o. unfold remaining_field. by destruct (v ≫= parseFloat64). Qed.
Lemma keeps_reset now v : keeps (reset_field now v).
Proof. intros o. unfold reset_field. by destruct (v ≫= parseDurationSeconds). Qed.
Lemma keeps_unless k f : keeps f -> keeps (unless k f).
Proof. intros Hf o. unfold unless. by destruct (k o). Qed.
Lemma keeps_policy fields : keeps (policy_note fields).
Proof. intros o. unfold policy_note. by destruct (fields !! "policy"). Qed.
Lemma keeps_cloudflare raw now : keeps (applyCloudflareStructuredFields raw now).
Proof.
  intros o. unfold applyCloudflareStructuredFields. rewrite keeps_policy.
  repeat (rewrite (keeps_unless _ _ (keeps_reset _ _))). rewrite keeps_reset.
  rewrite (keeps_unless _ _ (keeps_remaining _)), keeps_remaining, (keeps_unless _ _ (keeps_limit _)).
  apply keeps_limit.
Qed.
Lemma keeps_settle : keeps settle_used.
Proof. intros o. unfold settle_used. by destruct (_ && _). Qed.
Lemma keeps_retry pt now h : keeps (retry_field pt now h).
Proof. intros o. unfold retry_field. by destruct (parseRetryAfterHeader pt now (hget h "Retry-After")). Qed.

Lemma cloudflare_provider pt now h : Provider (ParseCloudflareHeaders pt now h) = "cloudflare".
Proof.
  unfold ParseCloudflareHeaders. destruct h as [h|]; rewrite (proj1 (classify_keeps _)); [|done].
  rewrite keeps_settle, keeps_retry.
  destruct (bool_decide (trim_space (hget h "Ratelimit") = "")); rewrite ?keeps_cloudflare;
    destruct (bool_decide (trim_space (hget h "Ratelimit-Policy") = "")); rewrite ?keeps_cloudflare; done.
Qed.

(** A response that leaves five percent of the limit. *)
Example cloudflare_headers :
  let h : Header := <["Ratelimit-Policy" := "default;q=1200;w=300"]> {[ "Ratelimit" := "default;r=60;t=12" ]} in
  let o := ParseCloudflareHeaders (fun _ => None) (1000 * second) (Some h) in
  ObsState o = Throttled /\ Used o = of_int 1140 /\ ResetAt o = 1012 * second.
Proof. by vm_compute. Qed.

End Quota.
