(* ===== verification/Transport.v ===== *)
(** * The Cloudflare client

    [internal/cloudflare/transport], [discovery], [mutate] and [client.go]:
    requests to the API with the quota check, listings over all their pages,
    the mutators that the governed executor calls and the client of the
    enforcement loops.  The HTTP client is a parameter; the body of a response
    is modelled by what decoding it at each type gives. *)

From S2P Require Import Prelude Netip GoFmt Events Snapshot Execution Cloudflare Reports Quota.
Import Netip Pagination Normalize Canonical Mutations Executor Quota.Quota.

Local Open Scope Z_scope.

(** ** Requests *)
Module Transport.

(** The bodies that the program sends. *)
Inductive ReqBody :=
| NoBody
| AccessRule (mode notes target value : string)
| JSON (payload : option value)
| JSONArray (payload : option value)
| ItemIDs (id : string).

Record Request := { method : string; path : string; query : list (string * string); req_body : ReqBody; etag : string }.

(** A body, decoded at some type: an envelope, or not. *)
Inductive decoded (T : Type) :=
| DEmpty
| DMalformed (err : string)
| DTrailing (err : option string)
| DEnvelope (success : bool) (errors : string) (res : T) (info : option ResultInfo).
Arguments DEmpty {T}.
Arguments DMalformed {T} _.
Arguments DTrailing {T} _.
Arguments DEnvelope {T} _ _ _ _.

Record Body := {
  raw : string;
  as_rules : decoded (list IPAccessRule);
  as_rule : decoded IPAccessRule;
  as_lists : decoded (list FirewallList);
  as_list : decoded FirewallList;
  as_items : decoded (list FirewallListItem);
  as_ruleset : decoded Ruleset;
}.

Record Response := { StatusCode : Z; hdrs : Header; body : Body }.

(** The HTTP client; a body that cannot be read is an error of the call. *)
Class HttpClient (H : Type) := Do : Z -> Request -> H -> H * result Response.

Definition isMutationMethod (m : string) : bool := bool_decide (m ∈ ["POST"; "PUT"; "PATCH"; "DELETE"]).

Section transport.
Context {H : Type} `{HttpClient H} (ParseTime : string -> option Z).

(** [quota] is the process-wide registry; [sent] the trace of the requests that
    were handed to the HTTP client. *)
Record Transport := { http : H; quota : Registry; sent : list Request }.

Definition op_request : string := "cloudflare.transport.Request".

Definition exhausted (t : Transport) : bool := bool_decide (StateOf "cloudflare" (quota t) = Some Exhausted).

Definition Request_ (now : Z) (r : Request) (t : Transport) : Transport * result (Body * string) :=
  if isMutationMethod (method r) && exhausted t then
    (t, Err (wrap_msg op_request "cloudflare quota exhausted; mutation suspended"))
  else
    let '(h, res) := Do now r (http t) in
    match res with
    | Err e => ({| http := h; quota := quota t; sent := sent t ++ [r] |}, Err (wrap_msg op_request e))
    | Ok resp =>
        let obs := ParseCloudflareHeaders ParseTime now (Some (hdrs resp)) in
        let t := {| http := h; quota := (Record_ now obs (quota t)).1; sent := sent t ++ [r] |} in
        (t, if StatusCode resp =? 429 then
              let retryAfter := CloudflareRetryAfter ParseTime now (hdrs resp) in
              if 0 <? retryAfter
              then Err (wrap_msg op_request ("HTTP 429 rate limited: retry after " +:+ GoFmt.duration_string retryAfter))
              else Err (wrap_msg op_request "HTTP 429 rate limited")
            else if 400 <=? StatusCode resp
            then Err (wrap_msg op_request ("HTTP " +:+ GoFmt.fmt_d (StatusCode resp) +:+ ": " +:+ raw (body resp)))
            else Ok (body resp, hget (hdrs resp) "Etag"))
    end.

Definition op_decode : string := "cloudflare.decode.Decode".

(** [decode.Decode] of an envelope and the test of its flag. *)
Definition unwrap {T} (op fail : string) (d : decoded T) : result (T * option ResultInfo) :=
  match d with
  | DEmpty => Err (wrap_msg op (wrap_msg op_decode "empty response body"))
  | DMalformed e => Err (wrap_msg op (wrap_msg op_decode ("malformed JSON: " +:+ e)))
  | DTrailing (Some e) => Err (wrap_msg op (wrap_msg op_decode ("unexpected content after JSON: " +:+ e)))
  | DTrailing None => Err (wrap_msg op (wrap_msg op_decode "unexpected trailing JSON content"))
  | DEnvelope success errors res info =>
      if success then Ok (res, info) else Err (wrap_msg op (fail +:+ errors))
  end.

Definition ExecuteAndDecode {T} (dec : Body -> decoded T) (now : Z) (m p : string) (q : list (string * string))
    (t : Transport) : Transport * result (T * option ResultInfo) :=
  let op := "cloudflare.transport.ExecuteAndDecode" in
  let '(t, res) := Request_ now {| method := m; path := p; query := q; req_body := NoBody; etag := "" |} t in
  (t, match res with
      | Err e => Err (wrap_msg op e)
      | Ok (b, _) => unwrap op "Cloudflare API error: " (dec b)
      end).

Definition MutateAndDecode {T} (dec : Body -> decoded T) (now : Z) (m p : string) (b : ReqBody) (tag : string)
    (t : Transport) : Transport * result (T * string) :=
  let op := "cloudflare.transport.MutateAndDecode" in
  let '(t, res) := Request_ now {| method := m; path := p; query := []; req_body := b; etag := tag |} t in
  (t, match res with
      | Err e => Err (wrap_msg op e)
      | Ok (b, respETag) =>
          match unwrap op "Cloudflare mutation error: " (dec b) with
          | Err e => Err e
          | Ok (r, _) => Ok (r, respETag)
          end
      end).

(** ** Listings *)

Definition DefaultQuery (page perPage : Z) : list (string * string) :=
  [("page", GoFmt.fmt_d page); ("per_page", GoFmt.fmt_d perPage)].

(** [pagination.TraverseAll] over the pages of a path, with the transport
    threaded through the calls; [None] when [fuel] pages were not enough. *)
Fixpoint pages {T} (dec : Body -> decoded (list T)) (now : Z) (p : string) (perPage : Z) (fuel : nat) (page : Z)
    (all : list T) (t : Transport) : Transport * option (result (list T)) :=
  match fuel with
  | O => (t, None)
  | S fuel =>
      let '(t, res) := ExecuteAndDecode dec now "GET" p (DefaultQuery page perPage) t in
      match res with
      | Err m => (t, Some (Err (wrap_msg op_all m)))
      | Ok (items, info) =>
          let all := all ++ items in
          match info with
          | None => (t, Some (check_count all info))
          | Some i =>
              if (ri_TotalPages i =? 0) || (ri_TotalPages i <=? page) then (t, Some (check_count all info))
              else match items with
                   | [] => (t, Some (Err (wrap_msg op_all "API reported more pages but returned empty result")))
                   | _ => pages dec now p perPage fuel (page + 1) all t
                   end
          end
      end
  end.

Definition rules_path (zoneID : string) : string := "/zones/" +:+ zoneID +:+ "/firewall/access_rules/rules".

Definition ListIPAccessRules (fuel : nat) (now : Z) (zoneID : string) (t : Transport) :=
  pages as_rules now (rules_path zoneID) 100 fuel 1 [] t.

Definition ListFirewallLists (fuel : nat) (now : Z) (accountID : string) (t : Transport) :=
  pages as_lists now ("/accounts/" +:+ accountID +:+ "/rules/lists") 50 fuel 1 [] t.

Definition ListFirewallListItems (fuel : nat) (now : Z) (accountID listID : string) (t : Transport) :=
  pages as_items now ("/accounts/" +:+ accountID +:+ "/rules/lists/" +:+ listID +:+ "/items") 500 fuel 1 [] t.

(** ** The client of the enforcement loops *)

Definition rule_value (r : IPAccessRule) : string :=
  let v := rc_Value (ar_Configuration r) in
  match ParseIP v with Some a => ip_string a | None => v end.

Definition tag_step (tag : string) (m : gmap string string) (r : IPAccessRule) : gmap string string :=
  if negb (bool_decide (ar_Notes r = tag)) then m
  else if bool_decide (rc_Value (ar_Configuration r) = "") then m
  else <[rule_value r := ar_ID r]> m.

Definition ListIPAccessRulesByTag (fuel : nat) (now : Z) (zoneID tag : string) (t : Transport)
  : Transport * option (result (gmap string string)) :=
  let '(t, res) := ListIPAccessRules fuel now zoneID t in
  (t, match res with
      | None => None
      | Some (Err e) => Some (Err ("cloudflare.Client.ListIPAccessRulesByTag: " +:+ e))
      | Some (Ok rules) => Some (Ok (foldl (tag_step tag) ∅ rules))
      end).

Definition ListIPAccessRulesByNotePrefix (fuel : nat) (now : Z) (zoneID prefix : string) (t : Transport)
  : Transport * option (result (list IPAccessRule)) :=
  let '(t, res) := ListIPAccessRules fuel now zoneID t in
  (t, match res with
      | None => None
      | Some (Err e) => Some (Err ("cloudflare.Client.ListIPAccessRulesByNotePrefix: " +:+ e))
      | Some (Ok rules) => Some (Ok (List.filter (fun r => has_prefix prefix (ar_Notes r)) rules))
      end).

Definition AddIPAccessRuleWithMode (now : Z) (zoneID value notes target mode : string) (t : Transport)
  : Transport * result string :=
  let '(t, res) := MutateAndDecode as_rule now "POST" (rules_path zoneID) (AccessRule mode notes target value) "" t in
  (t, match res with
      | Err e => Err ("cloudflare.Client.AddIPAccessRuleWithMode " +:+ value +:+ ": " +:+ e)
      | Ok (r, _) => Ok (ar_ID r)
      end).

Definition AddIPAccessRule (now : Z) (zoneID value notes target : string) (t : Transport) : Transport * result string :=
  AddIPAccessRuleWithMode now zoneID value notes target "block" t.

Definition rule_path (zoneID ruleID : string) : string := rules_path zoneID +:+ "/" +:+ ruleID.

Definition delete_request (p : string) (b : ReqBody) : Request :=
  {| method := "DELETE"; path := p; query := []; req_body := b; etag := "" |}.

Definition DeleteIPAccessRule (now : Z) (zoneID ruleID : string) (t : Transport) : Transport * result unit :=
  let '(t, res) := Request_ now (delete_request (rule_path zoneID ruleID) NoBody) t in
  (t, match res with
      | Err e => Err ("cloudflare.Client.DeleteIPAccessRule " +:+ ruleID +:+ ": " +:+ e)
      | Ok _ => Ok tt
      end).

(** ** Mutators *)

(** The answer of a mutator that returns a fixed identifier. *)
Definition answer {A} (fn id : string) (r : result A) : result string :=
  match r with Err e => Err (wrap_msg fn e) | Ok _ => Ok id end.

Definition IPAccessRuleMutator (zoneID : string) (now : Z) (op : MutationOperation) (t : Transport)
  : Transport * result string :=
  let ty := mo_Type op in
  if bool_decide (ty = "create") then
    let fn := "cloudflare.mutate.IPAccessRuleMutator.create" in
    let '(t, res) := MutateAndDecode as_rule now "POST" (rules_path zoneID) (JSON (mo_Payload op)) "" t in
    (t, match res with Err e => Err (wrap_msg fn e) | Ok (r, _) => Ok (ar_ID r) end)
  else if bool_decide (ty = "delete") then
    let fn := "cloudflare.mutate.IPAccessRuleMutator.delete" in
    if bool_decide (mo_ProviderObjectID op = "") then
      (t, Err (wrap_msg fn "missing Cloudflare ProviderObjectID for deletion"))
    else
      let '(t, res) := Request_ now (delete_request (rule_path zoneID (mo_ProviderObjectID op)) NoBody) t in
      (t, answer fn (mo_ProviderObjectID op) res)
  else (t, Err (wrap_msg "cloudflare.mutate.IPAccessRuleMutator.ExecuteContext" ("unsupported operation type: " +:+ ty))).

Definition FirewallListMutator (accountID : string) (now : Z) (op : MutationOperation) (t : Transport)
  : Transport * result string :=
  let fn := "cloudflare.mutate.FirewallListMutator.ExecuteContext" in
  let ty := mo_Type op in
  let p := "/accounts/" +:+ accountID +:+ "/rules/lists" in
  if bool_decide (ty = "create") then
    let '(t, res) := MutateAndDecode as_list now "POST" p (JSON (mo_Payload op)) "" t in
    (t, match res with Err e => Err (wrap_msg fn e) | Ok (l, _) => Ok (fl_ID l) end)
  else if bool_decide (ty = "delete") then
    if bool_decide (mo_ProviderObjectID op = "") then (t, Err (wrap_msg fn "missing ProviderObjectID"))
    else
      let '(t, res) := Request_ now (delete_request (p +:+ "/" +:+ mo_ProviderObjectID op) NoBody) t in
      (t, answer fn (mo_ProviderObjectID op) res)
  else (t, Err (wrap_msg fn ("unsupported type: " +:+ ty))).

(** The parent list is never filled in. *)
Definition parent_list : string := "".

Definition FirewallListItemMutator (accountID : string) (now : Z) (op : MutationOperation) (t : Transport)
  : Transport * result string :=
  let fn := "cloudflare.mutate.FirewallListItemMutator.ExecuteContext" in
  let ty := mo_Type op in
  let p := "/accounts/" +:+ accountID +:+ "/rules/lists/" +:+ parent_list +:+ "/items" in
  if bool_decide (ty = "create") then
    let '(t, res) := Request_ now {| method := "POST"; path := p; query := []; req_body := JSONArray (mo_Payload op); etag := "" |} t in
    (t, answer fn (mo_StableIdentityKey op) res)
  else if bool_decide (ty = "delete") then
    let '(t, res) := Request_ now (delete_request p (ItemIDs (mo_ProviderObjectID op))) t in
    (t, answer fn (mo_ProviderObjectID op) res)
  else (t, Err (wrap_msg fn ("unsupported type: " +:+ ty))).

Definition RulesetMutator (zoneID : string) (now : Z) (op : MutationOperation) (t : Transport)
  : Transport * result string :=
  let fn := "cloudflare.mutate.RulesetMutator.ExecuteContext" in
  if bool_decide (mo_ProviderObjectID op = "") then (t, Err (wrap_msg fn "missing Ruleset ProviderObjectID"))
  else if bool_decide (mo_Type op = "update") then
    let p := "/zones/" +:+ zoneID +:+ "/rulesets/" +:+ mo_ProviderObjectID op in
    let '(t, res) := MutateAndDecode as_ruleset now "PATCH" p (JSON (mo_Payload op)) (mo_ExpectedETag op) t in
    (t, match res with Err e => Err (wrap_msg fn e) | Ok (r, _) => Ok (rs_ID r) end)
  else (t, Err (wrap_msg fn ("unsupported ruleset operation: " +:+ mo_Type op))).

(** The mutator registered for each kind of resource ([RegisterAll]). *)
Definition provider_execute (zoneID accountID : string) (now : Z) (op : MutationOperation) (t : Transport)
  : option (Transport * result string) :=
  let rt := mo_ResourceType op in
  if bool_decide (rt = Snapshot.ResourceIPAccessRules) then Some (IPAccessRuleMutator zoneID now op t)
  else if bool_decide (rt = Snapshot.ResourceLists) then Some (FirewallListMutator accountID now op t)
  else if bool_decide (rt = Snapshot.ResourceListItems) then Some (FirewallListItemMutator accountID now op t)
  else if bool_decide (rt = Snapshot.ResourceRulesets \/ rt = Snapshot.ResourceRulesetRules) then
    Some (RulesetMutator zoneID now op t)
  else None.

(** *** The gate *)

(** The transport after a call: the request was handed over, or it was held
    back and nothing changed. *)
Definition passed (r : Request) (t t' : Transport) : Prop :=
  if isMutationMethod (method r) && exhausted t then t' = t else sent t' = sent t ++ [r].

Lemma Request_passed now r t : passed r t (Request_ now r t).1.
Proof.
  unfold passed, Request_. destruct (_ && exhausted t); [done|]. by destruct (Do now r (http t)) as [h [resp|e]].
Qed.

Lemma Request_held now r t :
  isMutationMethod (method r) = true -> exhausted t = true -> exists e, Request_ now r t = (t, Err e).
Proof. intros Hm He. unfold Request_. rewrite Hm, He. by eexists. Qed.

(** The registry after an answer: the observation of its headers. *)
Lemma Request_observed now r t resp h :
  isMutationMethod (method r) && exhausted t = false -> Do now r (http t) = (h, Ok resp) ->
  Get "cloudflare" (quota (Request_ now r t).1) =
  Some (stored now (ParseCloudflareHeaders ParseTime now (Some (hdrs resp)))).
Proof.
  intros Hg Hd. unfold Request_. rewrite Hg, Hd. cbn [fst quota].
  rewrite <- (Record_get now _ (quota t)). by rewrite cloudflare_provider.
Qed.

Lemma Execute_passed {T} (dec : Body -> decoded T) now m p q t :
  passed {| method := m; path := p; query := q; req_body := NoBody; etag := "" |} t (ExecuteAndDecode dec now m p q t).1.
Proof.
  unfold ExecuteAndDecode. match goal with |- passed ?r _ _ => pose proof (Request_passed now r t) as Hp; by destruct (Request_ now r t) end.
Qed.

Lemma Mutate_passed {T} (dec : Body -> decoded T) now m p b tag t :
  passed {| method := m; path := p; query := []; req_body := b; etag := tag |} t (MutateAndDecode dec now m p b tag t).1.
Proof.
  unfold MutateAndDecode. match goal with |- passed ?r _ _ => pose proof (Request_passed now r t) as Hp; by destruct (Request_ now r t) end.
Qed.

Lemma Mutate_held {T} (dec : Body -> decoded T) now m p b tag t :
  isMutationMethod m = true -> exhausted t = true -> exists e, MutateAndDecode dec now m p b tag t = (t, Err e).
Proof.
  intros Hm He. unfold MutateAndDecode.
  destruct (Request_held now {| method := m; path := p; query := []; req_body := b; etag := tag |} t Hm He) as [e ->].
  by eexists.
Qed.

(** The request that an operation stands for, if it is supported. *)
Definition mutation_request (zoneID accountID : string) (op : MutationOperation) : option Request :=
  let rt := mo_ResourceType op in
  let ty := mo_Type op in
  let id := mo_ProviderObjectID op in
  let req m p b tag := Some {| method := m; path := p; query := []; req_body := b; etag := tag |} in
  if bool_decide (rt = Snapshot.ResourceIPAccessRules) then
    if bool_decide (ty = "create") then req "POST" (rules_path zoneID) (JSON (mo_Payload op)) ""
    else if bool_decide (ty = "delete") then
      if bool_decide (id = "") then None else req "DELETE" (rule_path zoneID id) NoBody ""
    else None
  else if bool_decide (rt = Snapshot.ResourceLists) then
    if bool_decide (ty = "create") then req "POST" ("/accounts/" +:+ accountID +:+ "/rules/lists") (JSON (mo_Payload op)) ""
    else if bool_decide (ty = "delete") then
      if bool_decide (id = "") then None
      else req "DELETE" (("/accounts/" +:+ accountID +:+ "/rules/lists") +:+ "/" +:+ id) NoBody ""
    else None
  else if bool_decide (rt = Snapshot.ResourceListItems) then
    let p := "/accounts/" +:+ accountID +:+ "/rules/lists/" +:+ parent_list +:+ "/items" in
    if bool_decide (ty = "create") then req "POST" p (JSONArray (mo_Payload op)) ""
    else if bool_decide (ty = "delete") then req "DELETE" p (ItemIDs id) ""
    else None
  else if bool_decide (rt = Snapshot.ResourceRulesets \/ rt = Snapshot.ResourceRulesetRules) &&
          negb (bool_decide (id = "")) && bool_decide (ty = "update")
  then req "PATCH" ("/zones/" +:+ zoneID +:+ "/rulesets/" +:+ id) (JSON (mo_Payload op)) (mo_ExpectedETag op)
  else None.

(** What a mutator may do: send its one request, or refuse. *)
Definition mutated (r : option Request) (t : Transport) (o : Transport * result string) : Prop :=
  match r with
  | None => o.1 = t /\ is_ok o.2 = false
  | Some r => if exhausted t then o.1 = t /\ is_ok o.2 = false else sent o.1 = sent t ++ [r]
  end.

Lemma mutated_decode {T} (dec : Body -> decoded T) now m p b tag fn (f : T -> string) t :
  isMutationMethod m = true ->
  mutated (Some {| method := m; path := p; query := []; req_body := b; etag := tag |}) t
    (let '(t', res) := MutateAndDecode dec now m p b tag t in
     (t', match res with Err e => Err (wrap_msg fn e) | Ok (r, _) => Ok (f r) end)).
Proof.
  intros Hm. unfold mutated. destruct (exhausted t) eqn:He.
  - destruct (Mutate_held dec now m p b tag t Hm He) as [e ->]. done.
  - pose proof (Mutate_passed dec now m p b tag t) as Hp. unfold passed in Hp. cbn [method] in Hp. rewrite Hm, He in Hp.
    by destruct (MutateAndDecode dec now m p b tag t).
Qed.

Lemma mutated_request now r fn id t :
  isMutationMethod (method r) = true ->
  mutated (Some r) t (let '(t', res) := Request_ now r t in (t', answer fn id res)).
Proof.
  intros Hm. unfold mutated. destruct (exhausted t) eqn:He.
  - destruct (Request_held now r t Hm He) as [e ->]. done.
  - pose proof (Request_passed now r t) as Hp. unfold passed in Hp. rewrite Hm, He in Hp. by destruct (Request_ now r t).
Qed.

(** ** Properties *)

Lemma mutated_of zoneID accountID now op t o :
  provider_execute zoneID accountID now op t = Some o -> mutated (mutation_request zoneID accountID op) t o.
Proof.
  unfold provider_execute, mutation_request.
  destruct (bool_decide (mo_ResourceType op = Snapshot.ResourceIPAccessRules));
    [|destruct (bool_decide (mo_ResourceType op = Snapshot.ResourceLists));
      [|destruct (bool_decide (mo_ResourceType op = Snapshot.ResourceListItems));
        [|destruct (bool_decide (_ \/ _)); [|done]]]]; intros [= <-];
    unfold IPAccessRuleMutator, FirewallListMutator, FirewallListItemMutator, RulesetMutator; cbn [andb].
  all: destruct (bool_decide (mo_Type op = "create")), (bool_decide (mo_Type op = "delete")),
    (bool_decide (mo_ProviderObjectID op = "")), (bool_decide (mo_Type op = "update")); cbn [negb andb];
    first [ by apply mutated_decode | by apply mutated_request | done ].
Qed.

(** The mutators of the provider send one request or none.  An operation
    that its resource kind supports is sent as exactly the request it stands
    for unless the quota is exhausted; any other operation, and every
    operation while the quota is exhausted, is refused with an error and
    leaves the transport as it was. *)
Theorem mutators_gated zoneID accountID now op t o :
  provider_execute zoneID accountID now op t = Some o ->
  match mutation_request zoneID accountID op with
  | Some r => if exhausted t then o.1 = t /\ is_ok o.2 = false else sent o.1 = sent t ++ [r]
  | None => o.1 = t /\ is_ok o.2 = false
  end.
Proof. apply mutated_of. Qed.

(** The operations of the enforcement client that change rules. *)
Inductive change :=
| Add (zoneID value notes target mode : string)
| Delete (zoneID ruleID : string)
| Mutate (zoneID accountID : string) (op : MutationOperation).

Definition apply_change (now : Z) (c : change) (t : Transport) : Transport * bool :=
  match c with
  | Add z v n tg m => let r := AddIPAccessRuleWithMode now z v n tg m t in (r.1, is_ok r.2)
  | Delete z id => let r := DeleteIPAccessRule now z id t in (r.1, is_ok r.2)
  | Mutate z a op => match provider_execute z a now op t with
                     | Some r => (r.1, is_ok r.2)
                     | None => (t, false)
                     end
  end.

Lemma change_held now c t : exhausted t = true -> apply_change now c t = (t, false).
Proof.
  intros He. destruct c as [z v n tg m|z id|z a op]; cbn.
  - unfold AddIPAccessRuleWithMode.
    destruct (Mutate_held as_rule now "POST" (rules_path z) (AccessRule m n tg v) "" t eq_refl He) as [e ->]. done.
  - unfold DeleteIPAccessRule.
    destruct (Request_held now (delete_request (rule_path z id) NoBody) t eq_refl He) as [e ->]. done.
  - destruct (provider_execute z a now op t) as [o|] eqn:E; [|done].
    assert (o.1 = t /\ is_ok o.2 = false) as [-> ->]; [|done].
    apply mutated_of in E. unfold mutated in E. destruct (mutation_request z a op); [|done]. by rewrite He in E.
Qed.

Fixpoint apply_changes (cs : list (Z * change)) (t : Transport) : Transport :=
  match cs with
  | [] => t
  | (now, c) :: cs => apply_changes cs (apply_change now c t).1
  end.

(** An exhausted quota is lifted only by a read.  Whatever changes are
    asked for and however long one waits, also past the announced reset, no
    change is sent and the state stays exhausted; the first answer to a
    request that only reads replaces it by what its headers say. *)
Theorem suspended_until_read cs t now q p h resp :
  exhausted t = true ->
  Do now {| method := "GET"; path := p; query := q; req_body := NoBody; etag := "" |} (http t) = (h, Ok resp) ->
  apply_changes cs t = t /\
  Get "cloudflare" (quota (Request_ now {| method := "GET"; path := p; query := q; req_body := NoBody; etag := "" |}
                             (apply_changes cs t)).1) =
  Some (stored now (ParseCloudflareHeaders ParseTime now (Some (hdrs resp)))).
Proof.
  intros He Hd. assert (apply_changes cs t = t) as Hc.
  { induction cs as [|[n c] cs IH]; [done|]. cbn. by rewrite change_held. }
  split; [done|]. rewrite Hc. eapply Request_observed; done.
Qed.

End transport.
(** An HTTP client that answers every request with the same response. *)
Definition demo_body : Body :=
  {| raw := ""; as_rules := DEnvelope true "" [] None; as_rule := DEmpty; as_lists := DEmpty; as_list := DEmpty;
     as_items := DEmpty; as_ruleset := DEmpty |}.

Definition demo_response (left : string) : Response :=
  {| StatusCode := 200; hdrs := {[ "Ratelimit" := "default;q=1200;r=" +:+ left ]}; body := demo_body |}.

#[local] Instance demo_http : HttpClient string := fun _ _ left => (left, Ok (demo_response left)).

(** The first answer leaves nothing of the quota. *)
Definition fresh_transport (left : string) : Transport (H := string) := {| http := left; quota := ∅; sent := [] |}.

Definition get_rules : Request :=
  {| method := "GET"; path := rules_path "z"; query := []; req_body := NoBody; etag := "" |}.

Definition spent : Transport (H := string) :=
  let t := (Request_ (fun _ => None) 1 get_rules (fresh_transport "0")).1 in
  {| http := "600"; quota := quota t; sent := sent t |}.

Definition demo_op (rt ty id : string) : MutationOperation :=
  {| mo_OperationID := "op"; mo_ScopeID := "s"; mo_Type := ty; mo_ResourceType := rt; mo_StableIdentityKey := "k"; mo_State := "";
     mo_ProviderObjectID := id; mo_ExpectedETag := ""; mo_Payload := None; mo_ResultID := ""; mo_StartedAt := 0; mo_FinishedAt := 0;
     mo_Error := ""; mo_ApprovalRequired := false; mo_ApprovalID := ""; mo_ApprovalStatus := ""; mo_ApprovalExpiresAt := 0;
     mo_ApprovedBy := ""; mo_ApprovalReason := ""; mo_LeaseID := ""; mo_FencingToken := 0; mo_LeaseAction := "" |}.

Lemma mutators_gated_witness :
  sent (IPAccessRuleMutator (fun _ => None) "z" 5 (demo_op "ip_access_rules" "delete" "r1") (fresh_transport "9")).1 =
    [delete_request "/zones/z/firewall/access_rules/rules/r1" NoBody] /\
  (IPAccessRuleMutator (fun _ => None) "z" 5 (demo_op "ip_access_rules" "delete" "r1") spent).1 = spent.
Proof.
  split.
  - pose proof (mutators_gated (fun _ => None) "z" "a" 5 (demo_op "ip_access_rules" "delete" "r1") (fresh_transport "9") _ eq_refl) as Hm.
    replace (mutation_request "z" "a" (demo_op "ip_access_rules" "delete" "r1"))
      with (Some (delete_request "/zones/z/firewall/access_rules/rules/r1" NoBody)) in Hm by reflexivity.
    replace (exhausted (fresh_transport "9")) with false in Hm by reflexivity. exact Hm.
  - pose proof (mutators_gated (fun _ => None) "z" "a" 5 (demo_op "ip_access_rules" "delete" "r1") spent _ eq_refl) as Hm.
    replace (mutation_request "z" "a" (demo_op "ip_access_rules" "delete" "r1"))
      with (Some (delete_request "/zones/z/firewall/access_rules/rules/r1" NoBody)) in Hm by reflexivity.
    replace (exhausted spent) with true in Hm by (vm_compute; reflexivity). exact (proj1 Hm).
Defined.

Lemma suspended_until_read_witness :
  let cs := [(2, Delete "z" "r1"); (300 * second, Add "z" "192.0.2.1" "n" "ip" "block")] in
  apply_changes (fun _ => None) cs spent = spent /\
  exhausted (Request_ (fun _ => None) (400 * second) get_rules (apply_changes (fun _ => None) cs spent)).1 = false.
Proof.
  cbn zeta. split; [|by vm_compute].
  apply (suspended_until_read (fun _ => None) [(2, Delete "z" "r1"); (300 * second, Add "z" "192.0.2.1" "n" "ip" "block")]
    spent (400 * second) [] (rules_path "z") "600" (demo_response "600")); vm_compute; reflexivity.
Defined.

(** The parent list of an item is left out of the path. *)
Example list_item_path :
  sent (FirewallListItemMutator (fun _ => None) "acc" 5 (demo_op "list_items" "create" "") (fresh_transport "9")).1 =
  [{| method := "POST"; path := "/accounts/acc/rules/lists//items"; query := []; req_body := JSONArray None; etag := "" |}].
Proof. by vm_compute. Qed.

End Transport.
