(* ===== verification/Enforcement.v ===== *)
(** * The enforcement interface

    What the enforcement loops need of Cloudflare and of CrowdSec: the
    interface [EnforcementClient] of [internal/cloudflare/client.go] and the
    allowlist operations of [internal/crowdsec/client.go], as classes of
    operations on the state of a client, with the laws of a service that does
    what it answers.  The client of [Transport] and that of [CrowdSec] are
    instances of the operations; a service kept in memory is an instance of
    the laws. *)

From S2P Require Import Prelude Netip GoFmt Events Snapshot Execution Cloudflare Quota Transport CrowdSec.
Import Netip Pagination Normalize Transport CrowdSec.Client.

Local Open Scope Z_scope.

(** ** Cloudflare access rules *)

Class EnforcementClient (C : Type) := {
  ec_ListByTag : Z -> string -> string -> C -> C * result (gmap string string);
  ec_ListByNotePrefix : Z -> string -> string -> C -> C * result (list IPAccessRule);
  ec_Add : Z -> string -> string -> string -> string -> string -> C -> C * result string;
  ec_Delete : Z -> string -> string -> C -> C * result unit;
}.

(** The client over HTTP, for listings that end within [fuel] pages. *)
Definition ended {A} (r : option (result A)) : result A :=
  match r with Some r => r | None => Err "the listing did not end" end.

#[export] Instance transport_client {H} `{HttpClient H} (ParseTime : string -> option Z) (fuel : nat)
  : EnforcementClient (Transport (H := H)) := {|
  ec_ListByTag now z tag t := let r := ListIPAccessRulesByTag ParseTime fuel now z tag t in (r.1, ended r.2);
  ec_ListByNotePrefix now z p t := let r := ListIPAccessRulesByNotePrefix ParseTime fuel now z p t in (r.1, ended r.2);
  ec_Add now z v n tg m t := AddIPAccessRuleWithMode ParseTime now z v n tg m t;
  ec_Delete now z id t := DeleteIPAccessRule ParseTime now z id t;
|}.

(** The identifiers of the rules of a tag, by their values. *)
Definition tagged (tag : string) (rules : list IPAccessRule) : gmap string string := foldl (tag_step tag) ∅ rules.

(** One more rule with a fresh identifier, or the rule of an identifier gone. *)
Definition added_rule (v n tg m : string) (before after : list IPAccessRule) (r : IPAccessRule) : Prop :=
  after = before ++ [r] /\ ar_Notes r = n /\ ar_Mode r = m /\
  ar_Configuration r = {| rc_Target := tg; rc_Value := v |} /\ (ar_ID r ∉ ar_ID <$> before).
Definition without_rule (id : string) (l : list IPAccessRule) : list IPAccessRule :=
  List.filter (fun r => negb (bool_decide (ar_ID r = id))) l.

(** A service that does what it answers: a listing shows the rules of the
    zone, an addition that succeeds adds one rule with a fresh identifier, and
    a removal that succeeds removes that rule.  A request that fails was not
    carried out, or it was and its answer was lost (a timeout, an answer that
    cannot be decoded). *)
Class EnforcementLaws (C : Type) `{EnforcementClient C} := {
  ec_rules : string -> C -> list IPAccessRule;
  law_tag : forall now z tag c, (forall z', ec_rules z' (ec_ListByTag now z tag c).1 = ec_rules z' c) /\
    forall m, (ec_ListByTag now z tag c).2 = Ok m -> m = tagged tag (ec_rules z c);
  law_prefix : forall now z p c, (forall z', ec_rules z' (ec_ListByNotePrefix now z p c).1 = ec_rules z' c) /\
    forall l, (ec_ListByNotePrefix now z p c).2 = Ok l -> l = List.filter (fun r => has_prefix p (ar_Notes r)) (ec_rules z c);
  law_add : forall now z v n tg m c,
    let after := ec_rules z (ec_Add now z v n tg m c).1 in
    match (ec_Add now z v n tg m c).2 with
    | Ok id => exists r, added_rule v n tg m (ec_rules z c) after r /\ ar_ID r = id
    | Err _ => after = ec_rules z c \/ exists r, added_rule v n tg m (ec_rules z c) after r
    end;
  law_delete : forall now z id c,
    let after := ec_rules z (ec_Delete now z id c).1 in
    match (ec_Delete now z id c).2 with
    | Ok _ => after = without_rule id (ec_rules z c)
    | Err _ => after = ec_rules z c \/ after = without_rule id (ec_rules z c)
    end;
}.

(** ** CrowdSec allowlists *)

Class AllowlistClient (X : Type) := {
  xs_List : string -> X -> X * result (list AllowlistEntry);
  xs_Add : string -> AllowlistEntry -> X -> X * result unit;
}.

#[export] Instance crowdsec_client {R} `{Cscli R} : AllowlistClient (Client (R := R)) := {|
  xs_List := ListAllowlist;
  xs_Add := AddAllowlistEntry;
|}.

Class AllowlistLaws (X : Type) `{AllowlistClient X} := {
  xs_entries : string -> X -> list AllowlistEntry;
  law_list : forall n x, xs_entries n (xs_List n x).1 = xs_entries n x /\
    forall l, (xs_List n x).2 = Ok l -> l = xs_entries n x;
  law_push : forall n e x,
    match (xs_Add n e x).2 with
    | Ok _ => xs_entries n (xs_Add n e x).1 = xs_entries n x ++ [e]
    | Err _ => xs_entries n (xs_Add n e x).1 = xs_entries n x \/ xs_entries n (xs_Add n e x).1 = xs_entries n x ++ [e]
    end;
}.

(** ** Services in memory *)
Module MemCloud.

(** The rules of one zone; [refuses] are the values that cannot be added, and
    [lost] the values and identifiers of requests that are carried out while
    their answer gets lost. *)
Record Cloud := { rules : list IPAccessRule; next : nat; down : bool; refuses : list string; lost : list string }.

Definition id_of (n : nat) : string := "rule-" +:+ pretty n.

Definition new_rule (n : nat) (v notes tg m : string) : IPAccessRule :=
  {| ar_ID := id_of n; ar_Mode := m; ar_Notes := notes; ar_AllowedModes := [];
     ar_Configuration := {| rc_Target := tg; rc_Value := v |}; ar_Paused := false; ar_CreatedOn := 0; ar_ModifiedOn := 0;
     ar_Scope := None |}.

Definition with_rules (l : list IPAccessRule) (n : nat) (c : Cloud) : Cloud :=
  {| rules := l; next := n; down := down c; refuses := refuses c; lost := lost c |}.

#[global] Instance cloud_client : EnforcementClient Cloud := {|
  ec_ListByTag _ _ tag c := (c, if down c then Err "down" else Ok (tagged tag (rules c)));
  ec_ListByNotePrefix _ _ p c := (c, if down c then Err "down" else Ok (List.filter (fun r => has_prefix p (ar_Notes r)) (rules c)));
  ec_Add _ _ v n tg m c :=
    if down c || bool_decide (v ∈ refuses c) || bool_decide (id_of (next c) ∈ ar_ID <$> rules c) then (c, Err "refused")
    else (with_rules (rules c ++ [new_rule (next c) v n tg m]) (S (next c)) c,
          if bool_decide (v ∈ lost c) then Err "timeout" else Ok (id_of (next c)));
  ec_Delete _ _ id c :=
    if down c then (c, Err "down")
    else (with_rules (without_rule id (rules c)) (next c) c, if bool_decide (id ∈ lost c) then Err "timeout" else Ok tt);
|}.

#[global] Instance cloud_laws : EnforcementLaws Cloud.
Proof.
  refine {| ec_rules _ c := rules c |}.
  - intros now z tag c. cbn. split; [done|]. intros m. destruct (down c); [done|]. by intros [= ->].
  - intros now z p c. cbn. split; [done|]. intros l. destruct (down c); [done|]. by intros [= ->].
  - intros now z v n tg m c. cbn. destruct (_ || bool_decide (id_of (next c) ∈ _)) eqn:E; cbn; [by left|].
    apply orb_false_iff in E as [_ E]. apply bool_decide_eq_false in E.
    assert (added_rule v n tg m (rules c) (rules c ++ [new_rule (next c) v n tg m]) (new_rule (next c) v n tg m)) by (by split_and!).
    case_bool_decide; [right; by eauto|by eauto].
  - intros now z id c. cbn. destruct (down c); cbn; [by left|]. case_bool_decide; [by right|done].
Defined.

End MemCloud.

Module MemAllowlist.

(** One allowlist; [locked] refuses every addition. *)
Record Lists := { entries : list AllowlistEntry; unreadable : bool; locked : bool }.

#[global] Instance lists_client : AllowlistClient Lists := {|
  xs_List _ x := (x, if unreadable x then Err "permission denied" else Ok (entries x));
  xs_Add _ e x := if locked x then (x, Err "locked")
                  else ({| entries := entries x ++ [e]; unreadable := unreadable x; locked := false |}, Ok tt);
|}.

#[global] Instance lists_laws : AllowlistLaws Lists.
Proof.
  refine {| xs_entries _ x := entries x |}.
  - intros n x. cbn. split; [done|]. intros l. destruct (unreadable x); [done|]. by intros [= ->].
  - intros n e x. cbn. destruct (locked x); [by left|done].
Defined.

End MemAllowlist.
