(* ===== verification/TrustedNetworks.v ===== *)
(** * Trusted networks

    [internal/trustednetworks] (the registry of networks that must never be
    blocked, and the pass that pushes it to CrowdSec and to Cloudflare), its
    two stores ([memstore] and [internal/storage/sqlite/trusted_networks.go]),
    the status table of the CrowdSec side
    ([internal/storage/sqlite/crowdsec_allowlist_status.go]) and the helper
    that fills it ([AllowlistSyncApp] of [internal/app]).  The two services
    are the classes of [Enforcement]. *)

From S2P Require Import Prelude Netip GoFmt Cloudflare Quota Transport CrowdSec Enforcement.
Import Normalize CrowdSec.Client.

Local Open Scope Z_scope.

(** ** Stores *)
Module Stores.

Record Entry := {
  Value : string; Label : string; Source : string; Comment : string; CreatedAt : Z; UpdatedAt : Z;
}.

Definition stamp (c u : Z) (e : Entry) : Entry :=
  {| Value := Value e; Label := Label e; Source := Source e; Comment := Comment e; CreatedAt := c; UpdatedAt := u |}.

Class Store (T : Type) := {
  st_List : T -> result (list Entry);
  st_Get : string -> T -> result (option Entry);
  st_Upsert : Z -> Entry -> T -> T * result unit;
  st_Remove : string -> T -> T * result unit;
}.

(** The store in memory; a listing is in the order of the map. *)
Definition mem_List (s : gmap string Entry) : result (list Entry) := Ok ((map_to_list s).*2).
Definition mem_Get (v : string) (s : gmap string Entry) : result (option Entry) := Ok (s !! v).
Definition mem_Upsert (now : Z) (e : Entry) (s : gmap string Entry) : gmap string Entry * result unit :=
  let created := match s !! Value e with Some old => CreatedAt old | None => now end in
  (<[Value e := stamp created now e]> s, Ok tt).
Definition mem_Remove (v : string) (s : gmap string Entry) : gmap string Entry * result unit := (delete v s, Ok tt).

#[export] Instance mem_store : Store (gmap string Entry) := {|
  st_List := mem_List; st_Get := mem_Get; st_Upsert := mem_Upsert; st_Remove := mem_Remove;
|}.

(** The table. *)
Record row := { row_id : Z; row_entry : Entry }.
Record Table := { rows : list row; next_id : Z; readOnly : bool }.

Definition op_tn (f : string) : string := "storage.sqlite.TrustedNetworksStore." +:+ f.

(** [ORDER BY created_at ASC, id ASC]. *)
Definition row_lt (a b : row) : bool :=
  (CreatedAt (row_entry a) <? CreatedAt (row_entry b)) ||
  ((CreatedAt (row_entry a) =? CreatedAt (row_entry b)) && (row_id a <? row_id b)).

Definition has_value (v : string) (r : row) : bool := bool_decide (Value (row_entry r) = v).

Definition sql_List (t : Table) : result (list Entry) := Ok (row_entry <$> isort row_lt (rows t)).

Definition sql_Get (v : string) (t : Table) : result (option Entry) := Ok (row_entry <$> List.find (has_value v) (rows t)).

Definition update_row (now : Z) (e : Entry) (r : row) : row :=
  if has_value (Value e) r
  then {| row_id := row_id r;
          row_entry := {| Value := Value (row_entry r); Label := Label e; Source := Source e; Comment := Comment e;
                          CreatedAt := CreatedAt (row_entry r); UpdatedAt := sql_now now |} |}
  else r.

Definition sql_Upsert (now : Z) (e : Entry) (t : Table) : Table * result unit :=
  match ensureWritable (op_tn "Upsert") (readOnly t) with
  | Err m => (t, Err m)
  | Ok _ =>
      if existsb (has_value (Value e)) (rows t)
      then ({| rows := update_row now e <$> rows t; next_id := next_id t; readOnly := readOnly t |}, Ok tt)
      else ({| rows := rows t ++ [{| row_id := next_id t; row_entry := stamp (sql_now now) (sql_now now) e |}];
               next_id := next_id t + 1; readOnly := readOnly t |}, Ok tt)
  end.

Definition sql_Remove (v : string) (t : Table) : Table * result unit :=
  match ensureWritable (op_tn "Remove") (readOnly t) with
  | Err m => (t, Err m)
  | Ok _ => ({| rows := List.filter (fun r => negb (has_value v r)) (rows t); next_id := next_id t; readOnly := readOnly t |}, Ok tt)
  end.

#[export] Instance sql_store : Store Table := {|
  st_List := sql_List; st_Get := sql_Get; st_Upsert := sql_Upsert; st_Remove := sql_Remove;
|}.

(** *** The two stores agree *)

Inductive write := WUpsert (now : Z) (e : Entry) | WRemove (v : string).

Definition write_to {T} `{Store T} (s : T) (w : write) : T :=
  match w with WUpsert now e => (st_Upsert now e s).1 | WRemove v => (st_Remove v s).1 end.

(** An entry as the table keeps it: with instants of whole seconds. *)
Definition seconds (e : Entry) : Entry := stamp (sql_now (CreatedAt e)) (sql_now (UpdatedAt e)) e.

Definition lookup_row (v : string) (rs : list row) : option Entry := row_entry <$> List.find (has_value v) rs.

Record agree (s : gmap string Entry) (t : Table) : Prop := {
  ag_writable : readOnly t = false;
  ag_nodup : NoDup ((fun r => Value (row_entry r)) <$> rows t);
  ag_keys : forall k e, s !! k = Some e -> Value e = k;
  ag_entries : forall v, lookup_row v (rows t) = seconds <$> s !! v;
}.

Lemma find_none_iff v rs : List.find (has_value v) rs = None <-> existsb (has_value v) rs = false.
Proof. induction rs as [|r rs IH]; [done|]. cbn. by destruct (has_value v r). Qed.

Lemma find_snoc v rs r :
  List.find (has_value v) (rs ++ [r]) =
  match List.find (has_value v) rs with Some x => Some x | None => if has_value v r then Some r else None end.
Proof. induction rs as [|x rs IH]; [done|]. cbn. by destruct (has_value v x). Qed.

Lemma has_value_update now e v r : has_value v (update_row now e r) = has_value v r.
Proof. unfold update_row. by destruct (has_value (Value e) r). Qed.

Lemma find_update now e v rs :
  List.find (has_value v) (update_row now e <$> rs) = update_row now e <$> List.find (has_value v) rs.
Proof.
  induction rs as [|r rs IH]; [done|]. rewrite fmap_cons. cbn. rewrite has_value_update. by destruct (has_value v r).
Qed.

Lemma find_filter v w rs :
  List.find (has_value v) (List.filter (fun r => negb (has_value w r)) rs) =
  if bool_decide (v = w) then None else List.find (has_value v) rs.
Proof.
  induction rs as [|r rs IH]; cbn; [by case_bool_decide|].
  destruct (has_value w r) eqn:Ew; cbn; rewrite IH; unfold has_value in *; repeat case_bool_decide; congruence.
Qed.

Lemma has_value_true v r : has_value v r = true <-> Value (row_entry r) = v.
Proof. unfold has_value. by rewrite bool_decide_eq_true. Qed.

Lemma existsb_lookup v rs : existsb (has_value v) rs = bool_decide (is_Some (lookup_row v rs)).
Proof.
  unfold lookup_row. destruct (List.find (has_value v) rs) as [r|] eqn:Ef.
  - rewrite bool_decide_true by (by eexists). apply find_some in Ef as [Hin Hv]. apply existsb_exists. by exists r.
  - rewrite bool_decide_false by (by intros []). by apply find_none_iff.
Qed.

Lemma lookup_row_value v rs e : lookup_row v rs = Some e -> Value e = v.
Proof.
  unfold lookup_row. destruct (List.find _ _) as [r|] eqn:Ef; [|done]. intros [= <-].
  apply find_some in Ef as [_ Hv]. by apply has_value_true.
Qed.

Lemma sql_now_idem t : sql_now (sql_now t) = sql_now t.
Proof. unfold sql_now, second. pose proof (Z.mod_pos_bound t 1000000000 ltac:(lia)). pose proof (Z.div_mod t 1000000000 ltac:(lia)).
  replace (t - t mod 1000000000) with (t / 1000000000 * 1000000000) by lia. rewrite Z.mod_mul by lia. lia. Qed.

Lemma agree_upsert now e s t : agree s t -> agree (mem_Upsert now e s).1 (sql_Upsert now e t).1.
Proof.
  intros [Hw Hnd Hk He]. unfold sql_Upsert, mem_Upsert, ensureWritable. rewrite Hw. cbn [fst].
  rewrite existsb_lookup. pose proof (He (Value e)) as Hev. case_bool_decide as Hin; constructor; cbn [fst readOnly rows]; try done.
  - rewrite <- list_fmap_compose. erewrite list_fmap_ext; [exact Hnd|]. intros i r _. cbn.
    unfold update_row. by destruct (has_value (Value e) r).
  - intros k x. destruct (decide (k = Value e)) as [->|Hne]; [rewrite lookup_insert_eq; by intros [= <-]|].
    rewrite lookup_insert_ne by done. apply Hk.
  - intros v. unfold lookup_row. rewrite find_update. destruct (decide (v = Value e)) as [->|Hne].
    + rewrite lookup_insert_eq. destruct Hin as [x Hx]. unfold lookup_row in Hx, Hev. destruct (List.find _ _) as [r|] eqn:Ef; [|done].
      apply find_some in Ef as [_ Hv]. destruct (s !! Value e) as [old|] eqn:Es; [|done]. cbn in Hev |- *. simplify_eq.
      unfold update_row. rewrite Hv. cbn. f_equal. unfold seconds, stamp in *. cbn. apply has_value_true in Hv.
      rewrite Hev in Hv |- *. cbn in *. by rewrite Hv.
    + rewrite lookup_insert_ne by done. rewrite <- He. unfold lookup_row. destruct (List.find _ _) as [r|] eqn:Ef; [|done]. cbn. f_equal.
      apply find_some in Ef as [_ Hv]. apply has_value_true in Hv. unfold update_row. destruct (has_value (Value e) r) eqn:E'; [|done].
      apply has_value_true in E'. congruence.
  - rewrite fmap_app. apply NoDup_app. split_and!; [done| |apply NoDup_singleton]. cbn. intros v (r & -> & Hr)%list_elem_of_fmap Hv.
    apply Hin. apply list_elem_of_singleton in Hv. unfold lookup_row. destruct (List.find (has_value (Value e)) (rows t)) eqn:Ef; [by eexists|].
    eapply find_none in Ef; [|by apply list_elem_of_In]. apply not_true_iff_false in Ef. exfalso. apply Ef, has_value_true, Hv.
  - intros k x. destruct (decide (k = Value e)) as [->|Hne]; [rewrite lookup_insert_eq; by intros [= <-]|].
    rewrite lookup_insert_ne by done. apply Hk.
  - intros v. unfold lookup_row. rewrite find_snoc. destruct (decide (v = Value e)) as [->|Hne].
    + rewrite lookup_insert_eq. destruct (s !! Value e) as [old|]; [exfalso; apply Hin; rewrite Hev; by eexists|].
      unfold lookup_row in Hin. destruct (List.find _ _); [exfalso; apply Hin; by eexists|].
      by rewrite (proj2 (has_value_true _ _)).
    + rewrite lookup_insert_ne by done. rewrite <- He. unfold lookup_row. destruct (List.find _ _); [done|].
      destruct (has_value v _) eqn:E'; [|done]. apply has_value_true in E'. cbn in E'. congruence.
Qed.

Lemma agree_remove v s t : agree s t -> agree (mem_Remove v s).1 (sql_Remove v t).1.
Proof.
  intros [Hw Hnd Hk He]. unfold sql_Remove, mem_Remove, ensureWritable. rewrite Hw. constructor; cbn [fst readOnly rows]; try done.
  - by apply NoDup_fmap_filter.
  - intros k e [_ Hl]%lookup_delete_Some. by apply Hk.
  - intros w. unfold lookup_row. rewrite find_filter. case_bool_decide as E; [subst; by rewrite lookup_delete_eq|].
    rewrite lookup_delete_ne by done. apply He.
Qed.

Lemma agree_writes ws s t : agree s t -> agree (foldl write_to s ws) (foldl write_to t ws).
Proof.
  revert s t. induction ws as [|[now e|v] ws IH]; intros s t Ha; [done| |]; cbn; apply IH; [by apply agree_upsert|by apply agree_remove].
Qed.

(** A row is found by its value. *)
Lemma nodup_find rs r : NoDup ((fun r => Value (row_entry r)) <$> rs) -> r ∈ rs -> lookup_row (Value (row_entry r)) rs = Some (row_entry r).
Proof.
  unfold lookup_row. induction rs as [|x rs IH]; [set_solver|]. rewrite fmap_cons, NoDup_cons. intros [Hx Hnd] [->|Hr]%elem_of_cons; cbn.
  - by rewrite (proj2 (has_value_true _ _)).
  - destruct (has_value _ x) eqn:E; [|by apply IH]. apply has_value_true in E. exfalso. apply Hx, list_elem_of_fmap. by exists r.
Qed.

Lemma agree_list s t : agree s t -> row_entry <$> rows t ≡ₚ seconds <$> (map_to_list s).*2.
Proof.
  intros [_ Hnd Hk He].
  assert (forall e, e ∈ (map_to_list s).*2 <-> s !! Value e = Some e) as Hm.
  { intros e. rewrite list_elem_of_fmap. split.
    - intros ([k x] & -> & Hx). cbn. apply elem_of_map_to_list in Hx. by rewrite (Hk _ _ Hx).
    - intros Hs. exists (Value e, e). split; [done|]. by apply elem_of_map_to_list. }
  apply NoDup_Permutation.
  - eapply NoDup_fmap_1 with (f := Value). by rewrite <- list_fmap_compose.
  - eapply NoDup_fmap_1 with (f := Value). rewrite <- !list_fmap_compose.
    rewrite (list_fmap_ext _ fst); [apply NoDup_fst_map_to_list|]. intros i [k e] Hi. cbn. apply Hk.
    apply elem_of_map_to_list. by eapply list_elem_of_lookup_2.
  - intros e. rewrite !list_elem_of_fmap. split.
    + intros (r & -> & Hr). pose proof (nodup_find _ r Hnd Hr) as Hf. rewrite He in Hf.
      destruct (s !! Value (row_entry r)) as [x|] eqn:Es; [|done]. cbn in Hf. simplify_eq. exists x. split; [done|].
      apply Hm. by rewrite (Hk _ _ Es).
    + intros (x & -> & Hx). apply Hm in Hx. specialize (He (Value x)). rewrite Hx in He. cbn in He. unfold lookup_row in He.
      destruct (List.find _ _) as [r|] eqn:Ef; [|done]. cbn in He. simplify_eq. exists r. split; [done|].
      apply find_some in Ef as [Hin _]. by apply list_elem_of_In.
Qed.

Lemma row_lt_total a b : row_lt a b = false -> CreatedAt (row_entry b) <= CreatedAt (row_entry a).
Proof. unfold row_lt. intros H. bool_simpl. lia. Qed.

(** The table keeps what the store in memory keeps.  After any sequence of
    insertions, updates and removals, started from empty stores, every value is
    looked up with the same result in both, up to instants of whole seconds,
    and a listing of the table has the entries of memory in the order of their
    creation. *)
Theorem trusted_stores_agree ws :
  let s := foldl write_to (∅ : gmap string Entry) ws in
  let t := foldl write_to {| rows := []; next_id := 1; readOnly := false |} ws in
  (forall v, sql_Get v t = Ok (seconds <$> s !! v)) /\
  exists l, sql_List t = Ok l /\ l ≡ₚ seconds <$> (map_to_list s).*2 /\
            StronglySorted (fun a b => CreatedAt a <= CreatedAt b) l.
Proof.
  intros s t. assert (agree s t) as Ha by (apply agree_writes; constructor; [done|constructor|done|done]).
  split; [intros v; unfold sql_Get; f_equal; apply (ag_entries _ _ Ha)|].
  eexists. split; [done|]. split.
  - rewrite <- (agree_list s t Ha). apply fmap_Permutation, isort_perm.
  - apply SS_fmap, isort_sorted.
    + intros a b H. unfold row_lt in H. bool_simpl. lia.
    + intros a b. apply row_lt_total.
    + intros a b c. lia.
Qed.

End Stores.

(** ** The registry *)
Module Registry.
Import Stores.

Definition NotePrefix : string := "cf-sync:trusted:".

Record SpokeResult := {
  Enabled : bool; Pushed : list string; AlreadySynced : list string; Drift : list string; Errors : list string;
}.

Record SyncReport := { rp_Mode : string; RegistryCount : Z; rp_CrowdSec : SpokeResult; rp_Cloudflare : SpokeResult }.

Definition no_result : SpokeResult := {| Enabled := false; Pushed := []; AlreadySynced := []; Drift := []; Errors := [] |}.
Definition enabled : SpokeResult := {| Enabled := true; Pushed := []; AlreadySynced := []; Drift := []; Errors := [] |}.

Definition add_pushed (v : string) (r : SpokeResult) : SpokeResult :=
  {| Enabled := Enabled r; Pushed := Pushed r ++ [v]; AlreadySynced := AlreadySynced r; Drift := Drift r; Errors := Errors r |}.
Definition add_synced (v : string) (r : SpokeResult) : SpokeResult :=
  {| Enabled := Enabled r; Pushed := Pushed r; AlreadySynced := AlreadySynced r ++ [v]; Drift := Drift r; Errors := Errors r |}.
Definition add_drift (v : string) (r : SpokeResult) : SpokeResult :=
  {| Enabled := Enabled r; Pushed := Pushed r; AlreadySynced := AlreadySynced r; Drift := Drift r ++ [v]; Errors := Errors r |}.
Definition add_error (m : string) (r : SpokeResult) : SpokeResult :=
  {| Enabled := Enabled r; Pushed := Pushed r; AlreadySynced := AlreadySynced r; Drift := Drift r; Errors := Errors r ++ [m] |}.

Record action := { a_action : string; a_target : string; a_value : string; a_detail : string }.

(** The changes that were asked for. *)
Inductive push :=
| PushCrowdSec (name value comment : string)
| PushCloudflare (zoneID value notes target mode : string).

Definition tagComment (e : Entry) : string := NotePrefix +:+ (if bool_decide (Label e = "") then Value e else Label e).

Definition ip_target (v : string) : string := if str_contains v "/" then "ip_range" else "ip".

(** The entries of an allowlist that carry the prefix; a later one of the same
    value replaces an earlier one. *)
Definition own_step (m : gmap string string) (e : AllowlistEntry) : gmap string string :=
  if has_prefix NotePrefix (al_Comment e) then <[al_Value e := al_Comment e]> m else m.
Definition ownedComments (remote : list AllowlistEntry) : gmap string string := foldl own_step ∅ remote.

Section registry.
Context {T X Y : Type} `{!Store T} `{!AllowlistClient X} `{!EnforcementClient Y}.

(** [auditLog] is the audit sink, whose errors are only logged; [cache] the
    report cache, [Some None] before the first report; [pushes] the trace of
    the changes that were asked for. *)
Record Registry := {
  store : option T;
  crowdsec : option X;
  CrowdSecAllowlistName : string;
  cloudflare : option Y;
  CloudflareZoneID : string;
  Mode : string;
  auditLog : option (list action);
  cache : option (option SyncReport);
  pushes : list push;
}.

Definition set_crowdsec (x : X) (p : list push) (r : Registry) : Registry :=
  {| store := store r; crowdsec := Some x; CrowdSecAllowlistName := CrowdSecAllowlistName r; cloudflare := cloudflare r;
     CloudflareZoneID := CloudflareZoneID r; Mode := Mode r; auditLog := auditLog r; cache := cache r; pushes := pushes r ++ p |}.
Definition set_cloudflare (y : Y) (p : list push) (r : Registry) : Registry :=
  {| store := store r; crowdsec := crowdsec r; CrowdSecAllowlistName := CrowdSecAllowlistName r; cloudflare := Some y;
     CloudflareZoneID := CloudflareZoneID r; Mode := Mode r; auditLog := auditLog r; cache := cache r; pushes := pushes r ++ p |}.
Definition audit (action_ target value detail : string) (r : Registry) : Registry :=
  {| store := store r; crowdsec := crowdsec r; CrowdSecAllowlistName := CrowdSecAllowlistName r; cloudflare := cloudflare r;
     CloudflareZoneID := CloudflareZoneID r; Mode := Mode r;
     auditLog := (fun l => l ++ [{| a_action := action_; a_target := target; a_value := value; a_detail := detail |}]) <$> auditLog r;
     cache := cache r; pushes := pushes r |}.
Definition set_cache (rep : SyncReport) (r : Registry) : Registry :=
  {| store := store r; crowdsec := crowdsec r; CrowdSecAllowlistName := CrowdSecAllowlistName r; cloudflare := cloudflare r;
     CloudflareZoneID := CloudflareZoneID r; Mode := Mode r; auditLog := auditLog r;
     cache := (fun _ => Some rep) <$> cache r; pushes := pushes r |}.

Definition EffectiveMode (r : Registry) : string := if bool_decide (Mode r = "enforce") then "enforce" else "shadow".
Definition enforcing (r : Registry) : bool := bool_decide (EffectiveMode r = "enforce").

(** One entry of the loop over the registry: [push] asks for the change. *)
Definition push_step (remote : gset string) (push : Entry -> Registry -> Registry * result unit) (what target : string)
    (acc : Registry * SpokeResult) (e : Entry) : Registry * SpokeResult :=
  let '(r, res) := acc in
  if bool_decide (Value e ∈ remote) then (r, add_synced (Value e) res)
  else if negb (enforcing r) then (r, res)
  else
    let '(r, a) := push e r in
    match a with
    | Err m => (r, add_error (Value e +:+ ": " +:+ m) res)
    | Ok _ => (audit what target (Value e) (tagComment e) r, add_pushed (Value e) res)
    end.

(** What is there, is tagged as ours and is not in the registry is reported. *)
Definition drift_step (known : gset string) (what target : string) (acc : Registry * SpokeResult) (vd : string * string)
  : Registry * SpokeResult :=
  let '(r, res) := acc in
  if bool_decide (vd.1 ∈ known) then (r, res)
  else (audit what target vd.1 vd.2 r, add_drift vd.1 res).

Definition values (entries : list Entry) : gset string := list_to_set (Value <$> entries).

Definition push_crowdsec (e : Entry) (r : Registry) : Registry * result unit :=
  match crowdsec r with
  | None => (r, Ok tt)
  | Some x =>
      let name := CrowdSecAllowlistName r in
      let '(x, a) := xs_Add name {| al_Value := Value e; al_Comment := tagComment e |} x in
      (set_crowdsec x [PushCrowdSec name (Value e) (tagComment e)] r, a)
  end.

Definition syncCrowdSec (entries : list Entry) (x : X) (r : Registry) : Registry * SpokeResult :=
  let name := CrowdSecAllowlistName r in
  let '(x, listing) := xs_List name x in
  let r := set_crowdsec x [] r in
  match listing with
  | Err m => (r, add_error m enabled)
  | Ok remote =>
      let acc := foldl (push_step (list_to_set (al_Value <$> remote)) push_crowdsec "crowdsec_push" name) (r, enabled) entries in
      foldl (drift_step (values entries) "crowdsec_drift_detected" name) acc (map_to_list (ownedComments remote))
  end.

Definition push_cloudflare (now : Z) (e : Entry) (r : Registry) : Registry * result unit :=
  match cloudflare r with
  | None => (r, Ok tt)
  | Some y =>
      let z := CloudflareZoneID r in
      let '(y, a) := ec_Add now z (Value e) (tagComment e) (ip_target (Value e)) "whitelist" y in
      (set_cloudflare y [PushCloudflare z (Value e) (tagComment e) (ip_target (Value e)) "whitelist"] r,
       match a with Ok _ => Ok tt | Err m => Err m end)
  end.

Definition syncCloudflare (now : Z) (entries : list Entry) (y : Y) (r : Registry) : Registry * SpokeResult :=
  let z := CloudflareZoneID r in
  let '(y, listing) := ec_ListByNotePrefix now z NotePrefix y in
  let r := set_cloudflare y [] r in
  match listing with
  | Err m => (r, add_error m enabled)
  | Ok remote =>
      let value_of rule := rc_Value (ar_Configuration rule) in
      let acc := foldl (push_step (list_to_set (value_of <$> remote)) (push_cloudflare now) "cloudflare_push" z) (r, enabled) entries in
      foldl (drift_step (values entries) "cloudflare_drift_detected" z) acc ((fun rule => (value_of rule, ar_Notes rule)) <$> remote)
  end.

Definition op_sync : string := "trustednetworks.Registry.Sync: ".

Definition Sync (now : Z) (r : Registry) : Registry * (SyncReport * option string) :=
  let empty := {| rp_Mode := EffectiveMode r; RegistryCount := 0; rp_CrowdSec := no_result; rp_Cloudflare := no_result |} in
  match store r with
  | None => (r, (empty, Some (op_sync +:+ "no Store configured")))
  | Some st =>
      match st_List st with
      | Err m => (r, (empty, Some (op_sync +:+ "list registry: " +:+ m)))
      | Ok entries =>
          let mode := EffectiveMode r in
          let '(r, cs) := match crowdsec r with
                          | Some x => if bool_decide (CrowdSecAllowlistName r = "") then (r, no_result) else syncCrowdSec entries x r
                          | None => (r, no_result)
                          end in
          let '(r, cf) := match cloudflare r with
                          | Some y => if bool_decide (CloudflareZoneID r = "") then (r, no_result) else syncCloudflare now entries y r
                          | None => (r, no_result)
                          end in
          let rep := {| rp_Mode := mode; RegistryCount := Z.of_nat (length entries); rp_CrowdSec := cs; rp_Cloudflare := cf |} in
          (set_cache rep r, (rep, None))
      end
  end.

(** The cache: [None] until a pass has completed. *)
Definition cache_Get (r : Registry) : option SyncReport := match cache r with Some c => c | None => None end.

(** *** The loops *)

Definition frame (r r' : Registry) : Prop :=
  store r' = store r /\ CrowdSecAllowlistName r' = CrowdSecAllowlistName r /\ CloudflareZoneID r' = CloudflareZoneID r /\
  Mode r' = Mode r /\ cache r' = cache r.

Lemma frame_refl r : frame r r.
Proof. done. Qed.
Lemma frame_trans r1 r2 r3 : frame r1 r2 -> frame r2 r3 -> frame r1 r3.
Proof. intros (?&?&?&?&?) (?&?&?&?&?). repeat split; congruence. Qed.
Lemma frame_enforcing r r' : frame r r' -> enforcing r' = enforcing r.
Proof. intros (_ & _ & _ & Hm & _). unfold enforcing, EffectiveMode. by rewrite Hm. Qed.

Definition missing (remote : gset string) (entries : list Entry) : list Entry :=
  List.filter (fun e => negb (bool_decide (Value e ∈ remote))) entries.
Definition present (remote : gset string) (entries : list Entry) : list Entry :=
  List.filter (fun e => bool_decide (Value e ∈ remote)) entries.

Section push_loop.
Context (remote : gset string) (do_push : Entry -> Registry -> Registry * result unit) (what target : string).
Context (P : Entry -> push) (r0 : Registry) (I : Registry -> Prop) (vals : Registry -> string -> Prop).
Hypothesis step_frame : forall e r, frame r0 r -> I r ->
  frame r0 (do_push e r).1 /\ I (do_push e r).1 /\ pushes (do_push e r).1 = pushes r ++ [P e].
Hypothesis step_vals : forall e r, frame r0 r -> I r -> (forall v, vals r v -> vals (do_push e r).1 v) /\
  (is_ok (do_push e r).2 = true -> vals (do_push e r).1 (Value e)).
Hypothesis audit_same : forall a t v d r, (I r -> I (audit a t v d r)) /\ forall x, vals (audit a t v d r) x <-> vals r x.

Lemma push_loop_spec entries r res :
  frame r0 r -> I r ->
  let o := foldl (push_step remote do_push what target) (r, res) entries in
  frame r0 o.1 /\ I o.1 /\ (forall v, vals r v -> vals o.1 v) /\
  pushes o.1 = pushes r ++ (if enforcing r0 then P <$> missing remote entries else []) /\
  AlreadySynced o.2 = AlreadySynced res ++ (Value <$> present remote entries) /\
  Drift o.2 = Drift res /\ Enabled o.2 = Enabled res /\
  (Errors o.2 = [] -> enforcing r0 = true -> Errors res = [] /\
     Pushed o.2 = Pushed res ++ (Value <$> missing remote entries) /\
     forall e, e ∈ entries -> Value e ∈ remote \/ vals o.1 (Value e)) /\
  (enforcing r0 = false -> Pushed o.2 = Pushed res).
Proof.
  revert r res. induction entries as [|e entries IH]; intros r res Hf HI; cbn [foldl missing present List.filter].
  { cbn. rewrite !app_nil_r. split_and!; try done; [by destruct (enforcing r0); rewrite app_nil_r|set_solver]. }
  cbn. rewrite (frame_enforcing _ _ Hf). destruct (bool_decide (Value e ∈ remote)) eqn:Ein; cbn.
  - destruct (IH r (add_synced (Value e) res) Hf HI) as (? & ? & ? & ? & H5 & ? & ? & H8 & ?). split_and!; try done.
    + rewrite H5. cbn. by rewrite <- app_assoc.
    + intros He Hen. destruct (H8 He Hen) as (? & ? & ?). split_and!; try done. intros x [->|Hx]%elem_of_cons; [|by auto].
      left. by eapply bool_decide_eq_true.
  - destruct (enforcing r0) eqn:Een; cbn;
      [|destruct (IH r res Hf HI) as (?&?&?&?&?&?&?&?&?); split_and!; done].
    destruct (step_frame e r Hf HI) as (Hf' & HI' & Hp). destruct (step_vals e r Hf HI) as (Hv & Hok).
    destruct (do_push e r) as [r1 [[]|m]] eqn:Ep; cbn [fst snd is_ok] in *.
    + destruct (audit_same what target (Value e) (tagComment e) r1) as [HIa Hva].
      destruct (IH (audit what target (Value e) (tagComment e) r1) (add_pushed (Value e) res) Hf' (HIa HI'))
        as (? & ? & H3 & H4 & ? & ? & ? & H8 & ?). split_and!; try done.
      * intros v Hx. by apply H3, Hva, Hv.
      * rewrite H4. cbn. rewrite Hp. by rewrite <- app_assoc.
      * intros He Hen. destruct (H8 He Hen) as (? & H82 & H83). split_and!; try done.
        { rewrite H82. cbn. by rewrite <- app_assoc. }
        intros x [->|Hx]%elem_of_cons; [right; apply H3, Hva, Hok; reflexivity|by apply H83].
    + destruct (IH r1 (add_error (Value e +:+ ": " +:+ m) res) Hf' HI') as (? & ? & H3 & H4 & ? & ? & ? & H8 & ?).
      split_and!; try done; [by auto|rewrite H4, Hp; by rewrite <- app_assoc|].
      intros He Hen. destruct (H8 He Hen) as (Hbad & _). cbn in Hbad. by destruct (Errors res).
Qed.
End push_loop.

Lemma drift_loop_spec known what target l r res :
  let o := foldl (drift_step known what target) (r, res) l in
  frame r o.1 /\ pushes o.1 = pushes r /\ crowdsec o.1 = crowdsec r /\ cloudflare o.1 = cloudflare r /\
  Drift o.2 = Drift res ++ List.filter (fun v => negb (bool_decide (v ∈ known))) l.*1 /\
  Pushed o.2 = Pushed res /\ AlreadySynced o.2 = AlreadySynced res /\ Errors o.2 = Errors res /\ Enabled o.2 = Enabled res.
Proof.
  revert r res. induction l as [|[v d] l IH]; intros r res; cbn; [by rewrite app_nil_r|].
  destruct (bool_decide (v ∈ known)); cbn; [apply IH|].
  destruct (IH (audit what target v d r) (add_drift v res)) as (? & ? & ? & ? & H5 & ? & ? & ? & ?).
  split_and!; try done. rewrite H5. cbn. by rewrite <- app_assoc.
Qed.

(** *** What a pass asks for *)

Definition crowdsec_pushes (entries : list Entry) (r : Registry) : list push :=
  match crowdsec r with
  | Some x =>
      if bool_decide (CrowdSecAllowlistName r = "") then []
      else match (xs_List (CrowdSecAllowlistName r) x).2 with
           | Ok remote =>
               if enforcing r
               then (fun e => PushCrowdSec (CrowdSecAllowlistName r) (Value e) (tagComment e)) <$>
                    missing (list_to_set (al_Value <$> remote)) entries
               else []
           | Err _ => []
           end
  | None => []
  end.

Definition rule_values (rules : list IPAccessRule) : list string := (fun rule => rc_Value (ar_Configuration rule)) <$> rules.

Definition cloudflare_pushes (now : Z) (entries : list Entry) (r : Registry) : list push :=
  match cloudflare r with
  | Some y =>
      if bool_decide (CloudflareZoneID r = "") then []
      else match (ec_ListByNotePrefix now (CloudflareZoneID r) NotePrefix y).2 with
           | Ok remote =>
               if enforcing r
               then (fun e => PushCloudflare (CloudflareZoneID r) (Value e) (tagComment e) (ip_target (Value e)) "whitelist") <$>
                    missing (list_to_set (rule_values remote)) entries
               else []
           | Err _ => []
           end
  | None => []
  end.

(** The CrowdSec side leaves the Cloudflare client alone, and the other way round. *)
Lemma syncCrowdSec_spec entries x r :
  crowdsec r = Some x -> CrowdSecAllowlistName r <> "" ->
  let o := syncCrowdSec entries x r in
  frame r o.1 /\ cloudflare o.1 = cloudflare r /\ is_Some (crowdsec o.1) /\ pushes o.1 = pushes r ++ crowdsec_pushes entries r /\
  Enabled o.2 = true /\
  (forall remote, (xs_List (CrowdSecAllowlistName r) x).2 = Ok remote ->
     AlreadySynced o.2 = Value <$> present (list_to_set (al_Value <$> remote)) entries /\
     Drift o.2 = List.filter (fun v => negb (bool_decide (v ∈ values entries))) (map_to_list (ownedComments remote)).*1 /\
     (Errors o.2 = [] -> enforcing r = true -> Pushed o.2 = Value <$> missing (list_to_set (al_Value <$> remote)) entries)) /\
  (forall m, (xs_List (CrowdSecAllowlistName r) x).2 = Err m -> Errors o.2 = [m]).
Proof.
  intros Hx Hn. unfold syncCrowdSec, crowdsec_pushes. rewrite Hx, (bool_decide_false (CrowdSecAllowlistName r = "")) by done.
  destruct (xs_List (CrowdSecAllowlistName r) x) as [x1 [remote|m]]; cbn [fst snd].
  2:{ cbn. rewrite app_nil_r. split_and!; try done. by intros ? [= <-]. }
  set (r1 := set_crowdsec x1 [] r).
  destruct (push_loop_spec (list_to_set (al_Value <$> remote)) push_crowdsec "crowdsec_push" (CrowdSecAllowlistName r)
    (fun e => PushCrowdSec (CrowdSecAllowlistName r) (Value e) (tagComment e)) r1
    (fun r' => cloudflare r' = cloudflare r /\ is_Some (crowdsec r')) (fun _ _ => True))
    with (entries := entries) (r := r1) (res := enabled) as (Hf & (Hcf & Hcs) & _ & Hp & Hs & Hd & Hen & He & _).
  { intros e r' Hfr [Hc [x' Hx']]. pose proof (proj1 (proj2 Hfr)) as Hname. unfold push_crowdsec. rewrite Hx', Hname.
    destruct (xs_Add _ _ x') as [x'' a]. split; [exact Hfr|]. split; [by split|done]. }
  { done. }
  { intros a t v d r'. split; [|done]. cbn. done. }
  { done. }
  { cbn. split; [done|by eexists]. }
  match goal with |- context [foldl (drift_step ?k ?w ?t) ?acc ?l] => destruct acc as [r2 res2]; pose proof (drift_loop_spec k w t l r2 res2) as Hdr end.
  cbn [fst snd] in *. destruct Hdr as (Hf2 & Hp2 & Hc2 & Hcf2 & Hd2 & Hpu2 & Has2 & Her2 & Hen2).
  split_and!.
  - by eapply frame_trans.
  - by rewrite Hcf2.
  - by rewrite Hc2.
  - rewrite Hp2, Hp. cbn. by rewrite app_nil_r.
  - by rewrite Hen2, Hen.
  - intros rem [= <-]. split_and!.
    + by rewrite Has2, Hs.
    + rewrite Hd2, Hd. done.
    + intros Hno Henf. rewrite Her2 in Hno. destruct (He Hno Henf) as (_ & Hpu & _). by rewrite Hpu2, Hpu.
  - done.
Qed.

Lemma syncCloudflare_spec now entries y r :
  cloudflare r = Some y -> CloudflareZoneID r <> "" ->
  let o := syncCloudflare now entries y r in
  frame r o.1 /\ crowdsec o.1 = crowdsec r /\ is_Some (cloudflare o.1) /\ pushes o.1 = pushes r ++ cloudflare_pushes now entries r /\
  Enabled o.2 = true /\
  (forall remote, (ec_ListByNotePrefix now (CloudflareZoneID r) NotePrefix y).2 = Ok remote ->
     AlreadySynced o.2 = Value <$> present (list_to_set (rule_values remote)) entries /\
     Drift o.2 = List.filter (fun v => negb (bool_decide (v ∈ values entries))) (rule_values remote) /\
     (Errors o.2 = [] -> enforcing r = true -> Pushed o.2 = Value <$> missing (list_to_set (rule_values remote)) entries)) /\
  (forall m, (ec_ListByNotePrefix now (CloudflareZoneID r) NotePrefix y).2 = Err m -> Errors o.2 = [m]).
Proof.
  intros Hy Hz. unfold syncCloudflare, cloudflare_pushes. rewrite Hy, (bool_decide_false (CloudflareZoneID r = "")) by done.
  destruct (ec_ListByNotePrefix now (CloudflareZoneID r) NotePrefix y) as [y1 [remote|m]]; cbn [fst snd].
  2:{ cbn. rewrite app_nil_r. split_and!; try done. by intros ? [= <-]. }
  set (r1 := set_cloudflare y1 [] r). fold (rule_values remote).
  destruct (push_loop_spec (list_to_set (rule_values remote)) (push_cloudflare now) "cloudflare_push" (CloudflareZoneID r)
    (fun e => PushCloudflare (CloudflareZoneID r) (Value e) (tagComment e) (ip_target (Value e)) "whitelist") r1
    (fun r' => crowdsec r' = crowdsec r /\ is_Some (cloudflare r')) (fun _ _ => True))
    with (entries := entries) (r := r1) (res := enabled) as (Hf & (Hcf & Hcs) & _ & Hp & Hs & Hd & Hen & He & _).
  { intros e r' Hfr [Hc [y' Hy']]. pose proof (proj1 (proj2 (proj2 Hfr))) as Hname. unfold push_cloudflare. rewrite Hy', Hname.
    destruct (ec_Add _ _ _ _ _ _ y') as [y'' a]. split; [exact Hfr|]. split; [by split|done]. }
  { done. }
  { intros a t v d r'. split; [|done]. cbn. done. }
  { done. }
  { cbn. split; [done|by eexists]. }
  match goal with |- context [foldl (drift_step ?k ?w ?t) ?acc ?l] => destruct acc as [r2 res2]; pose proof (drift_loop_spec k w t l r2 res2) as Hdr end.
  cbn [fst snd] in *. destruct Hdr as (Hf2 & Hp2 & Hc2 & Hcf2 & Hd2 & Hpu2 & Has2 & Her2 & Hen2).
  split_and!.
  - by eapply frame_trans.
  - by rewrite Hc2.
  - by rewrite Hcf2.
  - rewrite Hp2, Hp. cbn. by rewrite app_nil_r.
  - by rewrite Hen2, Hen.
  - intros rem [= <-]. split_and!.
    + by rewrite Has2, Hs.
    + rewrite Hd2, Hd, <- list_fmap_compose. done.
    + intros Hno Henf. rewrite Her2 in Hno. destruct (He Hno Henf) as (_ & Hpu & _). by rewrite Hpu2, Hpu.
  - done.
Qed.

Lemma cloudflare_pushes_frame now entries r r' :
  frame r r' -> cloudflare r' = cloudflare r -> cloudflare_pushes now entries r' = cloudflare_pushes now entries r.
Proof.
  intros Hf Hc. unfold cloudflare_pushes. rewrite Hc, (frame_enforcing _ _ Hf). destruct Hf as (_ & _ & Hz & _). by rewrite Hz.
Qed.

(** The two halves of a pass. *)
Definition crowdsec_half (entries : list Entry) (r : Registry) : Registry * SpokeResult :=
  match crowdsec r with
  | Some x => if bool_decide (CrowdSecAllowlistName r = "") then (r, no_result) else syncCrowdSec entries x r
  | None => (r, no_result)
  end.
Definition cloudflare_half (now : Z) (entries : list Entry) (r : Registry) : Registry * SpokeResult :=
  match cloudflare r with
  | Some y => if bool_decide (CloudflareZoneID r = "") then (r, no_result) else syncCloudflare now entries y r
  | None => (r, no_result)
  end.

Lemma crowdsec_half_spec entries r :
  let o := crowdsec_half entries r in
  frame r o.1 /\ cloudflare o.1 = cloudflare r /\ pushes o.1 = pushes r ++ crowdsec_pushes entries r.
Proof.
  cbn zeta. unfold crowdsec_half. destruct (crowdsec r) as [x|] eqn:Ex;
    [|unfold crowdsec_pushes; rewrite Ex, app_nil_r; repeat split].
  case_bool_decide as En; [unfold crowdsec_pushes; rewrite Ex, bool_decide_true, app_nil_r by done; repeat split|].
  destruct (syncCrowdSec_spec entries x r Ex En) as (? & ? & _ & ? & _). done.
Qed.

Lemma cloudflare_half_spec now entries r :
  let o := cloudflare_half now entries r in
  frame r o.1 /\ crowdsec o.1 = crowdsec r /\ pushes o.1 = pushes r ++ cloudflare_pushes now entries r.
Proof.
  cbn zeta. unfold cloudflare_half. destruct (cloudflare r) as [y|] eqn:Ey;
    [|unfold cloudflare_pushes; rewrite Ey, app_nil_r; repeat split].
  case_bool_decide as En; [unfold cloudflare_pushes; rewrite Ey, bool_decide_true, app_nil_r by done; repeat split|].
  destruct (syncCloudflare_spec now entries y r Ey En) as (? & ? & _ & ? & _). done.
Qed.

Definition loaded (r : Registry) : option (list Entry) :=
  match store r with
  | Some st => match st_List st with Ok l => Some l | Err _ => None end
  | None => None
  end.

Lemma Sync_loaded now r entries :
  loaded r = Some entries ->
  let cs := crowdsec_half entries r in
  let cf := cloudflare_half now entries cs.1 in
  let rep := {| rp_Mode := EffectiveMode r; RegistryCount := Z.of_nat (length entries); rp_CrowdSec := cs.2; rp_Cloudflare := cf.2 |} in
  Sync now r = (set_cache rep cf.1, (rep, None)).
Proof.
  unfold loaded, Sync. destruct (store r) as [st|]; [|done]. destruct (st_List st); [|done]. intros [= ->]. cbn zeta.
  fold (crowdsec_half entries r). destruct (crowdsec_half entries r) as [r1 cs]. cbn [fst snd].
  fold (cloudflare_half now entries r1). by destruct (cloudflare_half now entries r1).
Qed.

Lemma Sync_pushes now r entries :
  loaded r = Some entries ->
  pushes (Sync now r).1 = pushes r ++ crowdsec_pushes entries r ++ cloudflare_pushes now entries r /\
  store (Sync now r).1 = store r /\ CrowdSecAllowlistName (Sync now r).1 = CrowdSecAllowlistName r /\
  CloudflareZoneID (Sync now r).1 = CloudflareZoneID r /\ Mode (Sync now r).1 = Mode r.
Proof.
  intros Hl. rewrite (Sync_loaded now r entries Hl). cbn.
  destruct (crowdsec_half_spec entries r) as (Hf & Hc & Hp).
  destruct (cloudflare_half_spec now entries (crowdsec_half entries r).1) as (Hf2 & _ & Hp2).
  rewrite Hp2, Hp, <- app_assoc, (cloudflare_pushes_frame now entries r) by done.
  destruct (frame_trans _ _ _ Hf Hf2) as (? & ? & ? & ? & _). done.
Qed.

(** What a pass does.  When the registry cannot be loaded nothing at all is
    done and an error is returned; otherwise the pass asks each configured
    service, whose listing succeeded, for exactly the entries it lacks, in the
    order of the registry and only in enforce mode, the two services not
    influencing each other; it never asks for a removal, and the report is
    left in the cache. *)
Theorem Sync_spec now r :
  match loaded r with
  | None => (Sync now r).1 = r /\ is_Some (Sync now r).2.2
  | Some entries =>
      (Sync now r).2.2 = None /\
      pushes (Sync now r).1 = pushes r ++ crowdsec_pushes entries r ++ cloudflare_pushes now entries r /\
      (Mode r <> "enforce" -> pushes (Sync now r).1 = pushes r) /\
      rp_CrowdSec (Sync now r).2.1 = (crowdsec_half entries r).2 /\
      crowdsec (Sync now r).1 = crowdsec (crowdsec_half entries r).1 /\
      RegistryCount (Sync now r).2.1 = Z.of_nat (length entries) /\
      (is_Some (cache r) -> cache_Get (Sync now r).1 = Some (Sync now r).2.1)
  end.
Proof.
  destruct (loaded r) as [entries|] eqn:Hl.
  - destruct (Sync_pushes now r entries Hl) as (Hp & _). rewrite Hp. rewrite (Sync_loaded now r entries Hl). cbn.
    split_and!; try done.
    + intros Hm. assert (enforcing r = false) as He
        by (unfold enforcing, EffectiveMode; rewrite (bool_decide_false (Mode r = "enforce")) by done; done).
      unfold crowdsec_pushes, cloudflare_pushes. rewrite He.
      repeat (case_match; [|]); rewrite ?app_nil_r; try done; repeat case_match; by rewrite ?app_nil_r.
    + by destruct (cloudflare_half_spec now entries (crowdsec_half entries r).1) as (_ & ? & _).
    + intros [c Hc]. unfold cache_Get. cbn.
      destruct (crowdsec_half_spec entries r) as (Hf & _ & _).
      destruct (cloudflare_half_spec now entries (crowdsec_half entries r).1) as (Hf2 & _ & _).
      destruct (frame_trans _ _ _ Hf Hf2) as (_ & _ & _ & _ & ->). by rewrite Hc.
  - unfold loaded, Sync in *. destruct (store r) as [st|]; [|by split]. destruct (st_List st); [done|by split].
Qed.

End registry.
(** *** Convergence *)
Section laws.
Context {T X Y : Type} `{!Store T} `{!AllowlistClient X} `{!EnforcementClient Y} `{!AllowlistLaws X} `{!EnforcementLaws Y}.

(** What the services hold of ours. *)
Definition allowed_at (name : string) (r : Registry (T := T) (X := X) (Y := Y)) (v : string) : Prop :=
  exists x, crowdsec r = Some x /\ v ∈ al_Value <$> xs_entries name x.
Definition listed_at (z : string) (r : Registry (T := T) (X := X) (Y := Y)) (v : string) : Prop :=
  exists y, cloudflare r = Some y /\
    v ∈ rule_values (List.filter (fun rule => has_prefix NotePrefix (ar_Notes rule)) (ec_rules z y)).

Lemma crowdsec_converges entries x (r : Registry (T := T) (X := X) (Y := Y)) :
  crowdsec r = Some x -> CrowdSecAllowlistName r <> "" -> enforcing r = true ->
  let o := syncCrowdSec entries x r in
  (forall v, allowed_at (CrowdSecAllowlistName r) r v -> allowed_at (CrowdSecAllowlistName r) o.1 v) /\
  (Errors o.2 = [] -> forall e, e ∈ entries -> allowed_at (CrowdSecAllowlistName r) o.1 (Value e)).
Proof.
  intros Hx Hn Henf. unfold syncCrowdSec.
  pose proof (law_list (CrowdSecAllowlistName r) x) as [Hsame Hlist].
  destruct (xs_List (CrowdSecAllowlistName r) x) as [x1 [remote|m]]; cbn [fst snd] in *.
  2:{ split; [|done]. intros v (x0 & Hx0 & Hv). exists x1. split; [done|]. rewrite Hsame. congruence. }
  set (r1 := set_crowdsec x1 [] r). specialize (Hlist remote eq_refl).
  assert (forall v, allowed_at (CrowdSecAllowlistName r) r v <-> v ∈ al_Value <$> remote) as Hrem.
  { intros v. rewrite Hlist. split; [intros (x0 & Hx0 & Hv); congruence|by exists x]. }
  assert (forall v, v ∈ al_Value <$> remote -> allowed_at (CrowdSecAllowlistName r) r1 v) as H1.
  { intros v Hv. exists x1. split; [done|]. by rewrite Hsame, <- Hlist. }
  destruct (push_loop_spec (list_to_set (al_Value <$> remote)) push_crowdsec "crowdsec_push" (CrowdSecAllowlistName r)
    (fun e => PushCrowdSec (CrowdSecAllowlistName r) (Value e) (tagComment e)) r1
    (fun r' => is_Some (crowdsec r')) (allowed_at (CrowdSecAllowlistName r)))
    with (entries := entries) (r := r1) (res := enabled) as (_ & _ & Hmono & _ & _ & _ & _ & He & _).
  { intros e r' Hfr [x' Hx']. pose proof (proj1 (proj2 Hfr)) as Hname. unfold push_crowdsec. rewrite Hx', Hname.
    destruct (xs_Add _ _ x') as [x'' a]. split; [exact Hfr|]. done. }
  { intros e r' Hfr [x' Hx']. pose proof (proj1 (proj2 Hfr)) as Hname. unfold push_crowdsec. rewrite Hx', Hname.
    change (CrowdSecAllowlistName r1) with (CrowdSecAllowlistName r).
    pose proof (law_push (CrowdSecAllowlistName r) {| al_Value := Value e; al_Comment := tagComment e |} x') as Hlaw.
    destruct (xs_Add _ _ x') as [x'' [u|m]]; cbn [fst snd] in *; split; try done.
    - intros v (x0 & Hx0 & Hv). exists x''. split; [done|]. rewrite Hlaw. set_solver.
    - intros _. exists x''. split; [done|]. rewrite Hlaw, fmap_app. set_solver.
    - intros v (x0 & Hx0 & Hv). exists x''. split; [done|]. rewrite Hx' in Hx0. simplify_eq. destruct Hlaw as [-> | ->]; set_solver. }
  { intros a t v d r'. split; [done|]. intros w. split; intros (x0 & ? & ?); by exists x0. }
  { done. }
  { by eexists. }
  match goal with |- context [foldl (drift_step ?k ?w ?t) ?acc ?l] => destruct acc as [r2 res2]; pose proof (drift_loop_spec k w t l r2 res2) as Hdr end.
  cbn [fst snd] in *. destruct Hdr as (_ & _ & Hc2 & _ & _ & _ & _ & Her2 & _).
  assert (forall v, allowed_at (CrowdSecAllowlistName r) r2 v -> allowed_at (CrowdSecAllowlistName r)
    (foldl (drift_step (values entries) "crowdsec_drift_detected" (CrowdSecAllowlistName r)) (r2, res2) (map_to_list (ownedComments remote))).1 v) as Hd
    by (intros v (x0 & ? & ?); exists x0; by rewrite Hc2).
  split.
  - intros v Hv%Hrem. by apply Hd, Hmono, H1.
  - intros Hno e Hin. rewrite Her2 in Hno. destruct (He Hno Henf) as (_ & _ & Hall). apply Hd.
    destruct (Hall e Hin) as [Hr|]; [|done]. apply Hmono, H1. set_solver.
Qed.

Lemma cloudflare_converges now entries y (r : Registry (T := T) (X := X) (Y := Y)) :
  cloudflare r = Some y -> CloudflareZoneID r <> "" -> enforcing r = true ->
  let o := syncCloudflare now entries y r in
  (forall v, listed_at (CloudflareZoneID r) r v -> listed_at (CloudflareZoneID r) o.1 v) /\
  (Errors o.2 = [] -> forall e, e ∈ entries -> listed_at (CloudflareZoneID r) o.1 (Value e)).
Proof.
  intros Hy Hn Henf. unfold syncCloudflare.
  pose proof (law_prefix now (CloudflareZoneID r) NotePrefix y) as [Hsame Hlist].
  destruct (ec_ListByNotePrefix now (CloudflareZoneID r) NotePrefix y) as [y1 [remote|m]]; cbn [fst snd] in *.
  2:{ split; [|done]. intros v (y0 & Hy0 & Hv). exists y1. split; [done|]. rewrite Hsame. congruence. }
  set (r1 := set_cloudflare y1 [] r). fold (rule_values remote). specialize (Hlist remote eq_refl).
  assert (forall v, listed_at (CloudflareZoneID r) r v <-> v ∈ rule_values remote) as Hrem.
  { intros v. rewrite Hlist. split; [intros (y0 & Hy0 & Hv); congruence|by exists y]. }
  assert (forall v, v ∈ rule_values remote -> listed_at (CloudflareZoneID r) r1 v) as H1.
  { intros v Hv. exists y1. split; [done|]. by rewrite Hsame, <- Hlist. }
  destruct (push_loop_spec (list_to_set (rule_values remote)) (push_cloudflare now) "cloudflare_push" (CloudflareZoneID r)
    (fun e => PushCloudflare (CloudflareZoneID r) (Value e) (tagComment e) (ip_target (Value e)) "whitelist") r1
    (fun r' => is_Some (cloudflare r')) (listed_at (CloudflareZoneID r)))
    with (entries := entries) (r := r1) (res := enabled) as (_ & _ & Hmono & _ & _ & _ & _ & He & _).
  { intros e r' Hfr [y' Hy']. pose proof (proj1 (proj2 (proj2 Hfr))) as Hname. unfold push_cloudflare. rewrite Hy', Hname.
    destruct (ec_Add _ _ _ _ _ _ y') as [y'' a]. split; [exact Hfr|]. done. }
  { intros e r' Hfr [y' Hy']. pose proof (proj1 (proj2 (proj2 Hfr))) as Hname. unfold push_cloudflare. rewrite Hy', Hname.
    change (CloudflareZoneID r1) with (CloudflareZoneID r).
    pose proof (law_add now (CloudflareZoneID r) (Value e) (tagComment e) (ip_target (Value e)) "whitelist" y') as Hlaw. cbn zeta in Hlaw.
    destruct (ec_Add _ _ _ _ _ _ y') as [y'' res]; cbn [fst snd] in *.
    assert (Hmore : forall rule v, added_rule (Value e) (tagComment e) (ip_target (Value e)) "whitelist"
        (ec_rules (CloudflareZoneID r) y') (ec_rules (CloudflareZoneID r) y'') rule ->
      listed_at (CloudflareZoneID r) r' v -> exists y0, Some y'' = Some y0 /\
        v ∈ rule_values (List.filter (fun rule => has_prefix NotePrefix (ar_Notes rule)) (ec_rules (CloudflareZoneID r) y0))).
    { intros rule v (Ha & _) (y0 & Hy0 & Hv). exists y''. split; [done|]. rewrite Ha. rewrite Hy' in Hy0. simplify_eq.
      unfold rule_values in *. rewrite List.filter_app, fmap_app. set_solver. }
    destruct res as [u|m]; cbn [fst snd] in *; split; try done.
    - intros v Hv. destruct Hlaw as (rule & Hadd & _). by apply (Hmore rule).
    - intros _. exists y''. split; [done|]. destruct Hlaw as (rule & (-> & Hnote & _ & Hconf & _) & _).
      assert (has_prefix NotePrefix (ar_Notes rule) = true) as Hpre by (rewrite Hnote; apply has_prefix_app).
      unfold rule_values. rewrite List.filter_app, fmap_app. apply elem_of_app. right. cbn [List.filter]. rewrite Hpre.
      apply list_elem_of_fmap. exists rule. rewrite Hconf. set_solver.
    - intros v Hv. destruct Hlaw as [Hsame'|(rule & Hadd)]; [|by apply (Hmore rule)].
      destruct Hv as (y0 & Hy0 & Hv). exists y''. split; [done|]. rewrite Hsame'. congruence. }
  { intros a t v d r'. split; [done|]. intros w. split; intros (y0 & ? & ?); by exists y0. }
  { done. }
  { by eexists. }
  match goal with |- context [foldl (drift_step ?k ?w ?t) ?acc ?l] => destruct acc as [r2 res2]; pose proof (drift_loop_spec k w t l r2 res2) as Hdr end.
  cbn [fst snd] in *. destruct Hdr as (_ & _ & _ & Hc2 & _ & _ & _ & Her2 & _).
  match goal with |- (forall v, _ -> listed_at _ ?o v) /\ _ =>
    assert (forall v, listed_at (CloudflareZoneID r) r2 v -> listed_at (CloudflareZoneID r) o v) as Hd
      by (intros v (y0 & ? & ?); exists y0; by rewrite Hc2) end.
  split.
  - intros v Hv%Hrem. by apply Hd, Hmono, H1.
  - intros Hno e Hin. rewrite Her2 in Hno. destruct (He Hno Henf) as (_ & _ & Hall). apply Hd.
    destruct (Hall e Hin) as [Hr|]; [|done]. apply Hmono, H1. set_solver.
Qed.

Lemma missing_none remote entries : (forall e, e ∈ entries -> Value e ∈ remote) -> missing remote entries = [].
Proof. intros H. apply filter_none. intros e He. rewrite bool_decide_true by (by apply H). done. Qed.

Lemma crowdsec_done entries (r : Registry (T := T) (X := X) (Y := Y)) :
  (forall e, e ∈ entries -> allowed_at (CrowdSecAllowlistName r) r (Value e)) -> crowdsec_pushes entries r = [].
Proof.
  intros Hall. unfold crowdsec_pushes. destruct (crowdsec r) as [x|] eqn:Ex; [|done]. case_bool_decide; [done|].
  destruct (law_list (CrowdSecAllowlistName r) x) as [_ Hll]. destruct (xs_List _ x) as [x1 [remote|]]; [|done]. cbn [snd] in *.
  rewrite (Hll remote eq_refl), missing_none; [by destruct (enforcing r)|].
  intros e He. destruct (Hall e He) as (x0 & Hx0 & Hv). assert (x0 = x) as -> by congruence. by apply elem_of_list_to_set.
Qed.

Lemma cloudflare_done now entries (r : Registry (T := T) (X := X) (Y := Y)) :
  (forall e, e ∈ entries -> listed_at (CloudflareZoneID r) r (Value e)) -> cloudflare_pushes now entries r = [].
Proof.
  intros Hall. unfold cloudflare_pushes. destruct (cloudflare r) as [y|] eqn:Ey; [|done]. case_bool_decide; [done|].
  destruct (law_prefix now (CloudflareZoneID r) NotePrefix y) as [_ Hll].
  destruct (ec_ListByNotePrefix _ _ _ y) as [y1 [remote|]]; [|done]. cbn [snd] in *.
  rewrite (Hll remote eq_refl), missing_none; [by destruct (enforcing r)|].
  intros e He. destruct (Hall e He) as (y0 & Hy0 & Hv). assert (y0 = y) as -> by congruence. by apply elem_of_list_to_set.
Qed.

(** C32: The pass converges.  With services that do what they answer, after an
    enforcing pass without errors every entry of the registry is allowed at
    CrowdSec and whitelisted at Cloudflare, nothing that was there before is
    gone, and the next pass asks for nothing. *)
Theorem sync_converges now now' (r : Registry (T := T) (X := X) (Y := Y)) x y entries :
  loaded r = Some entries -> Mode r = "enforce" ->
  crowdsec r = Some x -> CrowdSecAllowlistName r <> "" -> cloudflare r = Some y -> CloudflareZoneID r <> "" ->
  Errors (rp_CrowdSec (Sync now r).2.1) = [] -> Errors (rp_Cloudflare (Sync now r).2.1) = [] ->
  let r1 := (Sync now r).1 in
  (forall e, e ∈ entries -> allowed_at (CrowdSecAllowlistName r) r1 (Value e) /\ listed_at (CloudflareZoneID r) r1 (Value e)) /\
  (forall v, allowed_at (CrowdSecAllowlistName r) r v -> allowed_at (CrowdSecAllowlistName r) r1 v) /\
  (forall v, listed_at (CloudflareZoneID r) r v -> listed_at (CloudflareZoneID r) r1 v) /\
  pushes (Sync now' r1).1 = pushes r1.
Proof.
  intros Hl Hm Hx Hn Hy Hz. assert (enforcing r = true) as Henf by (unfold enforcing, EffectiveMode; by rewrite Hm).
  rewrite (Sync_loaded now r entries Hl). cbn [fst snd rp_CrowdSec rp_Cloudflare].
  destruct (crowdsec_half_spec entries r) as (Hf & Hcf & _).
  pose proof (crowdsec_converges entries x r Hx Hn Henf) as [Hc1 Hc2].
  assert (crowdsec_half entries r = syncCrowdSec entries x r) as Eh
    by (unfold crowdsec_half; rewrite Hx; by rewrite bool_decide_false).
  rewrite Eh in *. set (ra := (syncCrowdSec entries x r).1) in *.
  pose proof Hf as (_ & _ & Hza & _). rewrite Hy in Hcf.
  destruct (cloudflare_half_spec now entries ra) as (Hf2 & Hcs & _).
  pose proof (cloudflare_converges now entries y ra Hcf ltac:(congruence) ltac:(by rewrite (frame_enforcing r ra))) as [Hf1 Hf3].
  assert (cloudflare_half now entries ra = syncCloudflare now entries y ra) as Eh2
    by (unfold cloudflare_half; rewrite Hcf; rewrite bool_decide_false; congruence).
  rewrite Eh2 in *. set (rb := (syncCloudflare now entries y ra).1) in *. rewrite Hza in *.
  intros He1 He2. set (rc := set_cache _ rb).
  assert (forall v, allowed_at (CrowdSecAllowlistName r) ra v -> allowed_at (CrowdSecAllowlistName r) rc v) as Ha
    by (intros v (x0 & ? & ?); exists x0; split; [cbn; congruence|done]).
  assert (forall v, listed_at (CloudflareZoneID r) rb v -> listed_at (CloudflareZoneID r) rc v) as Hb
    by (intros v (y0 & ? & ?); by exists y0).
  split_and!.
  - intros e He. split; [by apply Ha, Hc2|by apply Hb, Hf3].
  - intros v Hv. by apply Ha, Hc1.
  - intros v (y0 & Hy0 & Hv). apply Hb, Hf1. exists y0. split; [congruence|done].
  - destruct (frame_trans _ _ _ Hf Hf2) as (Hst & Hnm & Hzn & Hmd & _).
    assert (loaded rc = Some entries) as Hlc by (unfold loaded in *; cbn; by rewrite Hst).
    destruct (Sync_pushes now' rc entries Hlc) as (-> & _). rewrite crowdsec_done, cloudflare_done; [by rewrite !app_nil_r|..].
    + intros e He. cbn [rc set_cache CloudflareZoneID]. rewrite Hzn. by apply Hb, Hf3.
    + intros e He. cbn [rc set_cache CrowdSecAllowlistName]. rewrite Hnm. by apply Ha, Hc2.
Qed.

End laws.
End Registry.

(** ** The helper of the CrowdSec side *)
Module AllowlistSync.
Import Stores Registry.

Record CrowdSecAllowlistStatus := {
  AllowlistName : string; Configured : bool; AuthOK : bool; LastSyncAt : Z; LastError : string;
  DesiredCount : Z; CurrentCount : Z; DriftCount : Z; st_Mode : string;
}.

(** A row of [crowdsec_allowlist_status]; the name is the key. *)
Record status_row := {
  sr_configured : Z; sr_auth_ok : Z; sr_last_sync_at : option Z; sr_last_error : string;
  sr_desired : Z; sr_current : Z; sr_drift : Z; sr_mode : string;
}.

Record StatusTable := { status_rows : gmap string status_row; status_readOnly : bool }.

Definition of_bool (b : bool) : Z := if b then 1 else 0.

Definition GetCrowdSecAllowlistStatus (name : string) (t : StatusTable) : option CrowdSecAllowlistStatus :=
  (fun r => {| AllowlistName := name; Configured := negb (sr_configured r =? 0); AuthOK := negb (sr_auth_ok r =? 0);
               LastSyncAt := default 0 (sr_last_sync_at r); LastError := sr_last_error r; DesiredCount := sr_desired r;
               CurrentCount := sr_current r; DriftCount := sr_drift r; st_Mode := sr_mode r |}) <$> status_rows t !! name.

Definition op_put : string := "storage.sqlite.CrowdSecAllowlistStatusStore.PutCrowdSecAllowlistStatus".

Definition PutCrowdSecAllowlistStatus (s : CrowdSecAllowlistStatus) (t : StatusTable) : StatusTable * result unit :=
  match ensureWritable op_put (status_readOnly t) with
  | Err m => (t, Err m)
  | Ok _ =>
      ({| status_rows := <[AllowlistName s := {|
            sr_configured := of_bool (Configured s); sr_auth_ok := of_bool (AuthOK s);
            sr_last_sync_at := if is_zero_time (LastSyncAt s) then None else Some (LastSyncAt s);
            sr_last_error := LastError s; sr_desired := DesiredCount s; sr_current := CurrentCount s;
            sr_drift := DriftCount s; sr_mode := st_Mode s |}]> (status_rows t);
          status_readOnly := status_readOnly t |}, Ok tt)
  end.

Lemma status_roundtrip s t :
  status_readOnly t = false ->
  GetCrowdSecAllowlistStatus (AllowlistName s) (PutCrowdSecAllowlistStatus s t).1 = Some s /\
  forall n, n <> AllowlistName s -> GetCrowdSecAllowlistStatus n (PutCrowdSecAllowlistStatus s t).1 = GetCrowdSecAllowlistStatus n t.
Proof.
  intros Hw. unfold PutCrowdSecAllowlistStatus, GetCrowdSecAllowlistStatus, ensureWritable. rewrite Hw. cbn. split.
  - rewrite lookup_insert_eq. destruct s as [n c a l e d cu dr m]. cbn. unfold is_zero_time.
    destruct (Z.eqb_spec l 0); subst; destruct c, a; done.
  - intros n Hn. by rewrite lookup_insert_ne.
Qed.

Lemma put_ok s t :
  status_readOnly t = false ->
  exists t', PutCrowdSecAllowlistStatus s t = (t', Ok tt) /\ GetCrowdSecAllowlistStatus (AllowlistName s) t' = Some s.
Proof.
  intros Hw. exists (PutCrowdSecAllowlistStatus s t).1. split; [|by apply status_roundtrip].
  unfold PutCrowdSecAllowlistStatus, ensureWritable. by rewrite Hw.
Qed.

Definition crowdSecStatusFromReport (now : Z) (name : string) (rep : SyncReport) (err : string) : CrowdSecAllowlistStatus :=
  let res := rp_CrowdSec rep in
  {| AllowlistName := name; Configured := true; AuthOK := Enabled res && bool_decide (Errors res = []); LastSyncAt := now;
     LastError := err; DesiredCount := RegistryCount rep;
     CurrentCount := Z.of_nat (length (AlreadySynced res)) + Z.of_nat (length (Pushed res));
     DriftCount := Z.of_nat (length (Drift res)); st_Mode := rp_Mode rep |}.

Section app.
Context {T X Y : Type} `{!Store T} `{!AllowlistClient X} `{!EnforcementClient Y}.

Record AllowlistSyncApp := { reg : option (Registry (T := T) (X := X) (Y := Y)); statusStore : option StatusTable }.

Definition op_run : string := "app.AllowlistSyncApp.Run".

Definition put_status (s : CrowdSecAllowlistStatus) (st : option StatusTable) : option StatusTable * result unit :=
  match st with
  | None => (None, Ok tt)
  | Some t => let '(t, a) := PutCrowdSecAllowlistStatus s t in (Some t, a)
  end.

(** [now] is the clock after the pass. *)
Definition Run (start now : Z) (a : AllowlistSyncApp) : AllowlistSyncApp * result unit :=
  match reg a with
  | None => (a, Ok tt)
  | Some r =>
      if bool_decide (CrowdSecAllowlistName r = "") then (a, Ok tt)
      else
        let name := CrowdSecAllowlistName r in
        let '(r, (rep, syncErr)) := Sync start r in
        let '(lastError, syncErr) :=
          match syncErr with
          | Some m => (m, Some m)
          | None => match Errors (rp_CrowdSec rep) with
                    | m :: _ => (m, Some ("crowdsec spoke: " +:+ m))
                    | [] => ("", None)
                    end
          end in
        let '(st, put) := put_status (crowdSecStatusFromReport now name rep lastError) (statusStore a) in
        let syncErr := match put, syncErr with Err m, None => Some m | _, _ => syncErr end in
        ({| reg := Some r; statusStore := st |},
         match syncErr with
         | Some m => Err (op_run +:+ ": sync " +:+ name +:+ ": " +:+ m)
         | None => Ok tt
         end)
  end.

(** The outcome of a run is always recorded.  With a list name and a
    writable status table every run stores a status for that list, of the
    instant of the run; a run that returns no error has stored the counts of a
    pass without errors and no error text; and a run that returns an error
    has stored [AuthOK] false. *)
Theorem run_recorded start now (a : AllowlistSyncApp) r t :
  reg a = Some r -> CrowdSecAllowlistName r <> "" -> statusStore a = Some t -> status_readOnly t = false ->
  exists s t', statusStore (Run start now a).1 = Some t' /\ GetCrowdSecAllowlistStatus (CrowdSecAllowlistName r) t' = Some s /\
    LastSyncAt s = now /\
    ((Run start now a).2 = Ok tt -> Errors (rp_CrowdSec (Sync start r).2.1) = [] /\ LastError s = "" /\
       DesiredCount s = RegistryCount (Sync start r).2.1) /\
    (is_ok (Run start now a).2 = false -> AuthOK s = false).
Proof.
  intros Hr Hn Ht Hw. unfold Run. rewrite Hr, (bool_decide_false (CrowdSecAllowlistName r = "")) by done.
  destruct (Sync start r) as [r' [rep syncErr]] eqn:Es. cbn [fst snd]. rewrite Ht.
  assert (syncErr <> None -> rp_CrowdSec rep = no_result) as Hnone.
  { intros He. unfold Sync in Es. destruct (store r) as [st|]; [|by simplify_eq].
    destruct (st_List st) as [l|]; [|by simplify_eq]. repeat case_match; simplify_eq. }
  assert (forall s, exists t', put_status s (Some t) = (Some t', Ok tt) /\ GetCrowdSecAllowlistStatus (AllowlistName s) t' = Some s) as Hput.
  { intros s. destruct (put_ok s t Hw) as (t' & E & Hg). exists t'. split; [|done]. cbn. by rewrite E. }
  destruct syncErr as [m|]; [|destruct (Errors (rp_CrowdSec rep)) as [|m l] eqn:Ee];
    [set (msg := m)|set (msg := "")|set (msg := m)];
    destruct (Hput (crowdSecStatusFromReport now (CrowdSecAllowlistName r) rep msg)) as (t' & -> & Hg);
    eexists _, t'; (split; [done|]); (split; [exact Hg|]); (split; [done|]); (split; [done|]); cbn; intros Hbad; try done.
  - by rewrite Hnone.
  - by rewrite Ee, andb_false_r.
Qed.

End app.

(** A registry of two networks, an allowlist that holds one of them and a third
    that is ours but no longer in the registry, and an empty zone. *)
Definition demo_entry (v l : string) : Entry :=
  {| Value := v; Label := l; Source := "manual_ui"; Comment := ""; CreatedAt := 0; UpdatedAt := 0 |}.

Definition demo_store : gmap string Entry :=
  foldl write_to ∅ [WUpsert 5 (demo_entry "192.0.2.1" "office"); WUpsert 6 (demo_entry "198.51.100.0/24" "")].

Definition demo_list : MemAllowlist.Lists :=
  {| MemAllowlist.entries := [{| al_Value := "192.0.2.1"; al_Comment := "by hand" |};
                              {| al_Value := "203.0.113.9"; al_Comment := "cf-sync:trusted:old" |}];
     MemAllowlist.unreadable := false; MemAllowlist.locked := false |}.

Definition demo_zone : MemCloud.Cloud :=
  {| MemCloud.rules := []; MemCloud.next := 0; MemCloud.down := false; MemCloud.refuses := []; MemCloud.lost := [] |}.

Definition demo_registry : Registry (T := gmap string Entry) (X := MemAllowlist.Lists) (Y := MemCloud.Cloud) :=
  {| store := Some demo_store; crowdsec := Some demo_list; CrowdSecAllowlistName := "trusted"; cloudflare := Some demo_zone;
     CloudflareZoneID := "z"; Mode := "enforce"; auditLog := Some []; cache := Some None; pushes := [] |}.

Example demo_pass :
  pushes (Sync 7 demo_registry).1 =
    [PushCrowdSec "trusted" "198.51.100.0/24" "cf-sync:trusted:198.51.100.0/24";
     PushCloudflare "z" "192.0.2.1" "cf-sync:trusted:office" "ip" "whitelist";
     PushCloudflare "z" "198.51.100.0/24" "cf-sync:trusted:198.51.100.0/24" "ip_range" "whitelist"] /\
  Drift (rp_CrowdSec (Sync 7 demo_registry).2.1) = ["203.0.113.9"].
Proof. by vm_compute. Qed.

Lemma sync_converges_witness :
  let r1 := (Sync 7 demo_registry).1 in pushes (Sync 8 r1).1 = pushes r1 /\ length (pushes r1) = 3%nat.
Proof.
  cbn zeta. split; [|by vm_compute].
  assert (exists l, loaded demo_registry = Some l) as [l Hl] by (by eexists).
  eapply (sync_converges 7 8 demo_registry demo_list demo_zone l Hl); by vm_compute.
Defined.

Definition demo_app (locked : bool) : AllowlistSyncApp (T := gmap string Entry) (X := MemAllowlist.Lists) (Y := MemCloud.Cloud) :=
  {| reg := Some {| store := Some demo_store;
       crowdsec := Some {| MemAllowlist.entries := MemAllowlist.entries demo_list; MemAllowlist.unreadable := false; MemAllowlist.locked := locked |};
       CrowdSecAllowlistName := "trusted"; cloudflare := None; CloudflareZoneID := ""; Mode := "enforce"; auditLog := None;
       cache := None; pushes := [] |};
     statusStore := Some {| status_rows := ∅; status_readOnly := false |} |}.

Lemma run_recorded_witness :
  (Run 7 8 (demo_app false)).2 = Ok tt /\
  exists s t', statusStore (Run 7 8 (demo_app false)).1 = Some t' /\ GetCrowdSecAllowlistStatus "trusted" t' = Some s /\ LastError s = "".
Proof.
  split; [by vm_compute|]. destruct (reg (demo_app false)) as [r|] eqn:Hr; [|discriminate].
  assert (CrowdSecAllowlistName r = "trusted") as Hname by (injection Hr as <-; reflexivity).
  destruct (run_recorded 7 8 (demo_app false) r {| status_rows := ∅; status_readOnly := false |} Hr) as (s & t' & H1 & H2 & _ & H4 & _);
    [rewrite Hname; discriminate|reflexivity|reflexivity|].
  exists s, t'. rewrite <- Hname. split; [exact H1|]. split; [exact H2|]. apply H4. vm_compute. reflexivity.
Defined.

(** The listing succeeds and an addition fails: the status says that the
    authentication failed. *)
Example push_failure_reads_as_auth :
  let o := Run 7 8 (demo_app true) in
  is_ok o.2 = false /\
  ((fun t => AuthOK <$> GetCrowdSecAllowlistStatus "trusted" t) <$> statusStore o.1) = Some (Some false) /\
  ((fun t => LastError <$> GetCrowdSecAllowlistStatus "trusted" t) <$> statusStore o.1) = Some (Some "198.51.100.0/24: locked").
Proof. by vm_compute. Qed.

End AllowlistSync.
