(* ===== verification/Shadow.v ===== *)
(** * Shadow validation

    [internal/shadow]: the record of a cycle that plans without acting, the
    metrics over the cycles, their log and the classification of the
    differences.  The log is modelled by what its lines decode to; which
    records exceed the line limit of the reader is a parameter.  The layout of
    the Markdown reports is left out, their decisive value, the readiness, is
    kept. *)

From S2P Require Import Prelude Netip GoFmt Reports.
From Stdlib Require Import Floats.SpecFloat.
Import Netip F64.

Local Open Scope Z_scope.

(** ** Cycles *)
Module Cycle.

Record RecidiveEscalation := { re_IP : string; re_Count : Z; re_Duration : string; re_Scenario : string }.
Record CIDREscalation := { ce_CIDR : string; ce_IPCount : Z; ce_IPs : list string }.

Record Cycle := {
  CycleAt : Z; ActiveBanCount : Z; CFRuleCount : Z; PlannedAdds : list string; PlannedDeletes : list string;
  RecidiveEscalations : list RecidiveEscalation; CIDREscalations : list CIDREscalation;
  AgreementPct : float64; FalsePositives : list string; FalseNegatives : list string; InSync : bool;
  DriftExplanation : string;
}.

Record SyncPlan := { ActiveBans : gset string; CFRules : gset string; ToAdd : list string; ToDelete : list string }.

Definition buildDriftExplanation (p : SyncPlan) : string :=
  if negb (bool_decide (ToAdd p = [])) && bool_decide (ToDelete p = [])
  then "Go has more active bans than CF (likely anti-self-ban filter missing in Go, or timing)"
  else if negb (bool_decide (ToDelete p = [])) && bool_decide (ToAdd p = [])
  then "CF has rules Go wouldn't add (ModSec/CIDR rules, or Python added before last CS cycle)"
  else "bidirectional drift: check protected-IP filter and timing".

(** The Jaccard similarity, in percent. *)
Definition agreement (p : SyncPlan) : float64 :=
  let intersection := Z.of_nat (size (ActiveBans p ∩ CFRules p)) in
  let unionSize := Z.of_nat (size (ActiveBans p)) + Z.of_nat (size (CFRules p)) - intersection in
  if unionSize =? 0 then of_int 100 else mul (div (of_int intersection) (of_int unionSize)) (of_int 100).

Definition Compare (p : SyncPlan) (cycleAt : Z) : Cycle :=
  let inSync := bool_decide (ToAdd p = []) && bool_decide (ToDelete p = []) in
  {| CycleAt := cycleAt; ActiveBanCount := Z.of_nat (size (ActiveBans p)); CFRuleCount := Z.of_nat (size (CFRules p));
     PlannedAdds := ToAdd p; PlannedDeletes := ToDelete p; RecidiveEscalations := []; CIDREscalations := [];
     AgreementPct := agreement p; FalsePositives := ToAdd p; FalseNegatives := ToDelete p; InSync := inSync;
     DriftExplanation := if inSync then "" else buildDriftExplanation p |}.

(** ** Metrics *)

Record Metrics := {
  TotalCycles : Z; InSyncCycles : Z; AgreementPctAvg : float64; AgreementPctMin : float64; TotalFalsePos : Z;
  TotalFalseNeg : Z; ConsecutiveSync : Z; SevenDayPct : float64; SevenDayEligible : bool;
}.

Definition week : Z := 7 * 24 * hour.

(** The variables of the loop. *)
Record tally := {
  sum : float64; minPct : float64; fp : Z; fn : Z; inSyncCount : Z; currentRun : Z; maxRun : Z;
  weekSum : float64; weekCount : Z;
}.

Definition tally_step (cutoff : Z) (t : tally) (c : Cycle) : tally :=
  let run := if InSync c then currentRun t + 1 else 0 in
  let recent := negb (t_before (CycleAt c) cutoff) in
  {| sum := add (sum t) (AgreementPct c);
     minPct := if SFltb (AgreementPct c) (minPct t) then AgreementPct c else minPct t;
     fp := fp t + Z.of_nat (length (FalsePositives c)); fn := fn t + Z.of_nat (length (FalseNegatives c));
     inSyncCount := if InSync c then inSyncCount t + 1 else inSyncCount t;
     currentRun := run;
     maxRun := if InSync c && (maxRun t <? run) then run else maxRun t;
     weekSum := if recent then add (weekSum t) (AgreementPct c) else weekSum t;
     weekCount := if recent then weekCount t + 1 else weekCount t |}.

Definition tally0 : tally :=
  {| sum := zero; minPct := of_int 100; fp := 0; fn := 0; inSyncCount := 0; currentRun := 0; maxRun := 0; weekSum := zero; weekCount := 0 |}.

(** The oldest and the newest instant; the zero time counts as none. *)
Definition span_step (on : Z * Z) (c : Cycle) : Z * Z :=
  let '(oldest, newest) := on in
  (if is_zero_time oldest || t_before (CycleAt c) oldest then CycleAt c else oldest,
   if is_zero_time newest || t_after (CycleAt c) newest then CycleAt c else newest).

Definition zero_metrics : Metrics :=
  {| TotalCycles := 0; InSyncCycles := 0; AgreementPctAvg := zero; AgreementPctMin := zero; TotalFalsePos := 0;
     TotalFalseNeg := 0; ConsecutiveSync := 0; SevenDayPct := zero; SevenDayEligible := false |}.

Definition ComputeMetrics (now : Z) (cycles : list Cycle) : Metrics :=
  match cycles with
  | [] => zero_metrics
  | _ =>
      let t := foldl (tally_step (t_add now (- week))) tally0 cycles in
      {| TotalCycles := Z.of_nat (length cycles); InSyncCycles := inSyncCount t;
         AgreementPctAvg := div (sum t) (of_int (Z.of_nat (length cycles))); AgreementPctMin := minPct t;
         TotalFalsePos := fp t; TotalFalseNeg := fn t; ConsecutiveSync := maxRun t;
         SevenDayPct := if 0 <? weekCount t then div (weekSum t) (of_int (weekCount t)) else zero;
         SevenDayEligible :=
           if 1 <? Z.of_nat (length cycles)
           then let '(oldest, newest) := foldl span_step (0, 0) cycles in week <=? t_sub newest oldest
           else false |}
  end.

(** What the report concludes. *)
Inductive Readiness := Go | NoGo | Pending.

Definition successThreshold : float64 := div (of_int 999) (of_int 10).

Definition readiness (m : Metrics) : Readiness :=
  if SevenDayEligible m && SFleb successThreshold (SevenDayPct m) then Go
  else if SevenDayEligible m then NoGo
  else Pending.

(** *** The longest run *)

(** A run: consecutive cycles, all in sync. *)
Definition run_of (cycles run : list Cycle) : Prop :=
  Forall (fun c => InSync c = true) run /\ exists pre post, cycles = pre ++ run ++ post.
Definition final_run (cycles run : list Cycle) : Prop :=
  Forall (fun c => InSync c = true) run /\ exists pre, cycles = pre ++ run.

Definition longest (P : list Cycle -> Prop) (n : Z) : Prop :=
  (exists run, P run /\ Z.of_nat (length run) = n) /\ forall run, P run -> Z.of_nat (length run) <= n.

Lemma final_run_snoc cycles c run :
  final_run (cycles ++ [c]) run -> run = [] \/ exists run', run = run' ++ [c] /\ InSync c = true /\ final_run cycles run'.
Proof.
  intros [Hs [pre Hp]]. destruct run as [|x run _] using rev_ind; [by left|right].
  rewrite app_assoc in Hp. apply app_inj_tail in Hp as [-> ->]. apply Forall_app in Hs as [Hs Hx]. inv Hx.
  exists run. split_and!; [done..|]. split; [done|by eexists].
Qed.

Lemma run_snoc cycles c run : run_of (cycles ++ [c]) run <-> run_of cycles run \/ final_run (cycles ++ [c]) run.
Proof.
  split.
  - intros [Hs (pre & post & Hp)]. destruct post as [|x post _] using rev_ind.
    + right. split; [done|]. exists pre. by rewrite app_nil_r in Hp.
    + left. split; [done|]. rewrite !app_assoc in Hp. apply app_inj_tail in Hp as [-> _]. exists pre, post. by rewrite app_assoc.
  - intros [[Hs (pre & post & ->)]|[Hs [pre Hp]]].
    + split; [done|]. exists pre, (post ++ [c]). by rewrite !app_assoc.
    + split; [done|]. exists pre, []. by rewrite app_nil_r.
Qed.

Lemma longest_unique P n m : longest P n -> longest P m -> n = m.
Proof. intros [(r & Hr & <-) H1] [(r' & Hr' & <-) H2]. specialize (H1 r' Hr'). specialize (H2 r Hr). lia. Qed.

Lemma tally_runs cutoff cycles :
  let t := foldl (tally_step cutoff) tally0 cycles in
  longest (final_run cycles) (currentRun t) /\ longest (run_of cycles) (maxRun t).
Proof.
  induction cycles as [|c cycles IH] using rev_ind; cbn zeta.
  - split; (split; [exists []; split; [|done]; (split; [constructor|])|]); try (by exists []); try (by exists [], []);
      intros run [_ Hr]; [destruct Hr as [pre Hp]|destruct Hr as (pre & post & Hp)]; symmetry in Hp;
      apply app_eq_nil in Hp as [_ Hp]; [|apply app_eq_nil in Hp as [Hp _]]; by subst.
  - rewrite foldl_app. cbn [foldl]. destruct IH as [[(run & Hr & Hl) Hub] [(best & Hb & Hbl) Hbub]].
    set (t := foldl (tally_step cutoff) tally0 cycles) in *.
    assert (longest (final_run (cycles ++ [c])) (currentRun (tally_step cutoff t c))) as Hfin.
    { cbn. destruct (InSync c) eqn:Es.
      - split; [|intros run' [->|(r & -> & _ & Hr')]%final_run_snoc].
        + exists (run ++ [c]). split; [|rewrite length_app; cbn; lia]. destruct Hr as [Hs [pre ->]]. split.
          * apply Forall_app. split; [done|by repeat constructor].
          * exists pre. by rewrite app_assoc.
        + cbn. specialize (Hub run Hr). lia.
        + specialize (Hub r Hr'). rewrite length_app. cbn. lia.
      - split; [exists []; split; [|done]; split; [constructor|exists (cycles ++ [c]); by rewrite app_nil_r]|].
        intros run' [->|(r & -> & Hc & _)]%final_run_snoc; [cbn; lia|congruence]. }
    split; [done|]. destruct Hfin as [(fr & Hfr & Hfl) Hfub]. cbn [tally_step maxRun].
    assert (0 <= maxRun t) by lia. set (cur := currentRun (tally_step cutoff t c)) in *.
    assert (maxRun (tally_step cutoff t c) = Z.max (maxRun t) cur) as Hmax.
    { unfold cur. cbn. destruct (InSync c); cbn; [|lia]. destruct (Z.ltb_spec (maxRun t) (currentRun t + 1)); lia. }
    change (longest (run_of (cycles ++ [c])) (maxRun (tally_step cutoff t c))). rewrite Hmax. split.
    + destruct (Z.le_gt_cases cur (maxRun t)); [exists best|exists fr]; (split; [apply run_snoc; by auto|lia]).
    + intros run' [Hr'|Hr']%run_snoc; [specialize (Hbub run' Hr'); lia|specialize (Hfub run' Hr'); lia].
Qed.

(** The streak of the metrics is the longest one: there is a run of
    consecutive cycles in sync of that length, and none is longer. *)
Theorem ConsecutiveSync_longest now cycles : longest (run_of cycles) (ConsecutiveSync (ComputeMetrics now cycles)).
Proof.
  unfold ComputeMetrics. destruct cycles as [|c cycles].
  - split; [exists []; split; [split; [constructor|by exists [], []]|done]|].
    intros run [_ (pre & post & Hp)]. symmetry in Hp. apply app_eq_nil in Hp as [_ [-> _]%app_eq_nil]. done.
  - apply tally_runs.
Qed.

(** *** The span *)

Lemma span_bounds lo hi cycles :
  0 < lo -> (forall c, c ∈ cycles -> lo <= CycleAt c <= hi) -> cycles <> [] ->
  let '(oldest, newest) := foldl span_step (0, 0) cycles in lo <= oldest <= newest /\ newest <= hi.
Proof.
  intros Hlo Hall Hne. induction cycles as [|c cycles IH] using rev_ind; [done|]. rewrite foldl_app. cbn [foldl].
  pose proof (Hall c ltac:(set_solver)) as Hc.
  destruct cycles as [|c0 cycles0] eqn:Ec; [cbn; lia|]. rewrite <- Ec in *. specialize (IH ltac:(set_solver) ltac:(subst; done)).
  destruct (foldl span_step (0, 0) cycles) as [o n]. cbn. unfold is_zero_time, t_before, t_after.
  destruct (Z.eqb_spec o 0), (Z.eqb_spec n 0); cbn; try lia.
  destruct (Z.ltb_spec (CycleAt c) o), (Z.ltb_spec n (CycleAt c)); lia.
Qed.

End Cycle.

(** ** The log *)
Module Log.
Import Cycle.

(** A line: a record, text that does not decode, or a line that is longer than
    the reader allows. *)
Inductive line := Rec (c : Cycle) | Garbage | Oversized.

(** The file: absent, unreadable, or its lines. *)
Inductive log := Absent | Unreadable (err : string) | Lines (l : list line).

Section log.
(** Which records exceed the limit of a line. *)
Variable oversized : Cycle -> bool.

Definition line_of (c : Cycle) : line := if oversized c then Oversized else Rec c.

(** [Append] creates the file; an unreadable one cannot be written either. *)
Definition Append (c : Cycle) (f : log) : log * result unit :=
  match f with
  | Absent => (Lines [line_of c], Ok tt)
  | Unreadable e => (f, Err ("shadow.Store.Append: open: " +:+ e))
  | Lines l => (Lines (l ++ [line_of c]), Ok tt)
  end.

Definition too_long : string := "bufio.Scanner: token too long".

(** The records up to the first line that is too long. *)
Fixpoint scan (l : list line) : list Cycle * bool :=
  match l with
  | [] => ([], true)
  | Rec c :: l => let '(cs, ok) := scan l in (c :: cs, ok)
  | Garbage :: l => scan l
  | Oversized :: _ => ([], false)
  end.

Definition ReadAll (f : log) : list Cycle * option string :=
  match f with
  | Absent => ([], None)
  | Unreadable e => ([], Some ("shadow.Store.ReadAll: " +:+ e))
  | Lines l => let '(cs, ok) := scan l in (cs, if ok then None else Some too_long)
  end.

Definition since (t : Z) (cs : list Cycle) : list Cycle := List.filter (fun c => negb (t_before (CycleAt c) t)) cs.

Definition ReadSince (t : Z) (f : log) : result (list Cycle) :=
  match ReadAll f with
  | (_, Some e) => Err e
  | (all, None) => Ok (since t all)
  end.

Definition LastN (n : nat) (f : log) : result (list Cycle) :=
  match ReadAll f with
  | (_, Some e) => Err e
  | (all, None) => Ok (drop (length all - n) all)
  end.

(** The kept records are written back as lines. *)
Definition Prune (retainSince : Z) (f : log) : log * result unit :=
  match ReadAll f with
  | (_, Some e) => (f, Err e)
  | ([], None) => (f, Ok tt)
  | (all, None) =>
      let keep := since retainSince all in
      if (length keep =? length all)%nat then (f, Ok tt) else (Lines (line_of <$> keep), Ok tt)
  end.

(** Lines the reader can take. *)
Definition readable (f : log) : Prop :=
  match f with Lines l => (Oversized ∉ l) /\ forall c, Rec c ∈ l -> oversized c = false | Absent => True | Unreadable _ => False end.

Lemma scan_app l1 l2 :
  (Oversized ∉ l1) -> scan (l1 ++ l2) = ((scan l1).1 ++ (scan l2).1, (scan l2).2).
Proof.
  induction l1 as [|[c| |] l1 IH]; intros Hn; cbn; [by destruct (scan l2)|..].
  - rewrite IH by set_solver. by destruct (scan l1).
  - apply IH. set_solver.
  - set_solver.
Qed.

Lemma scan_snoc l c x : x ∈ (scan (l ++ [line_of c])).1 -> x ∈ (scan l).1 \/ x = c.
Proof.
  induction l as [|[y| |] l IH]; cbn; [unfold line_of; destruct (oversized c); set_solver| |exact IH|set_solver].
  destruct (scan (l ++ _)), (scan l). cbn in *. set_solver.
Qed.

Lemma scan_ok l : (Oversized ∉ l) -> (scan l).2 = true.
Proof.
  induction l as [|[c| |] l IH]; intros Hn; cbn; [done| | |set_solver].
  - specialize (IH ltac:(set_solver)). by destruct (scan l).
  - apply IH. set_solver.
Qed.

Lemma scan_oversized l1 l2 : (scan (l1 ++ Oversized :: l2)).2 = false.
Proof. induction l1 as [|[x| |] l1 IH]; cbn; [done| |done|done]. by destruct (scan (l1 ++ _)). Qed.

Lemma scan_in l c : c ∈ (scan l).1 -> Rec c ∈ l.
Proof.
  induction l as [|[c'| |] l IH]; cbn; [set_solver| |set_solver|set_solver]. destruct (scan l). cbn in *. set_solver.
Qed.

Lemma scan_lines cs : (forall c, c ∈ cs -> oversized c = false) -> scan (line_of <$> cs) = (cs, true).
Proof.
  induction cs as [|c cs IH]; intros Ho; [done|]. rewrite fmap_cons. unfold line_of at 1. rewrite (Ho c) by set_solver. cbn.
  by rewrite IH by set_solver.
Qed.

Lemma since_all t cs : length (since t cs) = length cs -> since t cs = cs.
Proof.
  unfold since. induction cs as [|c cs IH]; [done|]. cbn. destruct (negb _); cbn; [intros [= H]; f_equal; by apply IH|].
  intros H. pose proof (List.filter_length_le (fun c => negb (t_before (CycleAt c) t)) cs). lia.
Qed.

Lemma ReadAll_readable f : readable f -> ReadAll f = ((ReadAll f).1, None).
Proof.
  destruct f as [|e|l]; [done|by intros []|]. cbn. intros [Hn _]. pose proof (scan_ok l Hn). destruct (scan l) as [cs ok]. cbn in *. by subst.
Qed.

(** Pruning and reading.  On a log whose lines the reader can take, pruning
    succeeds, keeps the log readable, and leaves every later reading from an
    instant not before the retention limit as it was, records and order. *)
Theorem prune_keeps_recent t t' f :
  readable f -> t <= t' ->
  let '(f', r) := Prune t f in r = Ok tt /\ readable f' /\ ReadSince t' f' = ReadSince t' f.
Proof.
  intros Hr Ht. unfold Prune. rewrite (ReadAll_readable f Hr). destruct (ReadAll f).1 as [|c0 cs0] eqn:E; [done|].
  rewrite <- E in *. set (all := (ReadAll f).1) in *. destruct (Nat.eqb_spec (length (since t all)) (length all)) as [Hl|Hl]; [done|].
  assert (forall c, c ∈ since t all -> oversized c = false) as Ho.
  { intros c [Hc _]%elem_of_lfilter. destruct f as [|e|l]; cbn in Hc; [set_solver|set_solver|].
    destruct Hr as [_ Hr]. apply Hr, scan_in. unfold all in Hc. cbn in Hc. by destruct (scan l). }
  split; [done|]. split.
  - split.
    + intros (c & Hc & Hin)%list_elem_of_fmap. unfold line_of in Hc. by rewrite Ho in Hc.
    + intros c (c' & Hc & Hin)%list_elem_of_fmap. unfold line_of in Hc. rewrite Ho in Hc by done. simplify_eq. by apply Ho.
  - unfold ReadSince. cbn [ReadAll]. rewrite (scan_lines _ Ho), (ReadAll_readable f Hr). fold all. f_equal. unfold since.
    rewrite lfilter_lfilter. apply List.filter_ext. intros c. unfold t_before.
    destruct (Z.ltb_spec (CycleAt c) t'), (Z.ltb_spec (CycleAt c) t); cbn; try done; lia.
Qed.

(** *** Operations over time *)
Inductive op := OAppend (c : Cycle) | OPrune (t : Z).

Definition apply_op (f : log) (o : op) : log :=
  match o with OAppend c => (Append c f).1 | OPrune t => (Prune t f).1 end.

(** C40: A record that is too long is never recovered from.  Once it is
    appended, whatever is appended or pruned later, every reading fails and
    pruning removes nothing, so the log only grows. *)
Theorem oversized_blocks l c ops t n :
  oversized c = true ->
  let f := foldl apply_op (Lines (l ++ [line_of c])) ops in
  is_ok (ReadSince t f) = false /\ is_ok (LastN n f) = false /\ is_ok (Prune t f).2 = false /\
  exists l', f = Lines (l ++ [Oversized] ++ l').
Proof.
  intros Ho. cbn zeta. replace (line_of c) with Oversized by (unfold line_of; by rewrite Ho).
  assert (forall l1 l2, ReadAll (Lines (l1 ++ [Oversized] ++ l2)) = ((ReadAll (Lines (l1 ++ [Oversized] ++ l2))).1, Some too_long)) as Hra.
  { intros l1 l2. cbn. pose proof (scan_oversized l1 l2) as Hs. destruct (scan (l1 ++ Oversized :: l2)) as [cs ok].
    cbn in *. by subst. }
  assert (exists l', foldl apply_op (Lines (l ++ [Oversized])) ops = Lines (l ++ [Oversized] ++ l')) as [l' Hl'].
  { assert (forall l', exists l'', foldl apply_op (Lines (l ++ [Oversized] ++ l')) ops = Lines (l ++ [Oversized] ++ l'')) as H;
      [|apply (H [])]. induction ops as [|o ops IH]; intros l'; [by exists l'|]. cbn [foldl]. destruct o as [c'|t']; cbn [apply_op].
    - cbn [Append fst]. rewrite <- !app_assoc. apply IH.
    - unfold Prune. rewrite Hra. destruct (ReadAll _).1; apply IH. }
  rewrite Hl'. unfold ReadSince, LastN, Prune. rewrite Hra. split_and!; [done|done|by destruct (ReadAll _).1|by eexists].
Qed.

(** The readiness report never leaves its waiting state.  A cycle is
    stamped, appended, and the report is then computed at a later instant over
    the records of the last seven days: whatever the log holds of the past,
    the oldest of these records is less than seven days older than the
    newest, so the report is pending. *)
Theorem readiness_always_pending stamp now c f cycles :
  week < now -> stamp < now -> CycleAt c = stamp ->
  (forall c', c' ∈ (ReadAll f).1 -> CycleAt c' <= stamp) ->
  ReadSince (t_add now (- week)) (Append c f).1 = Ok cycles ->
  readiness (ComputeMetrics now cycles) = Pending.
Proof.
  intros Hw Hlt Hc Hold Hrs.
  assert (forall x, x ∈ cycles -> now - week <= CycleAt x <= stamp) as Hb.
  { intros x Hx. unfold ReadSince in Hrs. destruct (ReadAll (Append c f).1) as [all [e|]] eqn:Ea; [done|]. simplify_eq.
    apply elem_of_lfilter in Hx as [Hin Ht]. unfold t_before, t_add in Ht. bool_simpl. split; [lia|].
    assert (x ∈ (ReadAll f).1 \/ x = c) as [Hx| ->]; [|by apply Hold|lia].
    destruct f as [|e|l]; cbn in Ea |- *.
    - unfold line_of in Ea. destruct (oversized c); simplify_eq/=. set_solver.
    - simplify_eq.
    - pose proof (scan_snoc l c x) as Hsn. destruct (scan (l ++ _)) as [cs [|]]; simplify_eq/=. specialize (Hsn Hin).
      by destruct (scan l). }
  unfold readiness. enough (SevenDayEligible (ComputeMetrics now cycles) = false) as -> by done.
  unfold ComputeMetrics. destruct cycles as [|x cycles]; [done|]. cbn [SevenDayEligible]. destruct (1 <? _); [|done].
  pose proof (span_bounds (now - week) stamp (x :: cycles) ltac:(lia) Hb ltac:(done)) as Hs.
  destruct (foldl span_step (0, 0) (x :: cycles)) as [o n]. apply Z.leb_gt. unfold t_sub, sat64, int64_min, int64_max.
  assert (week = 604800000000000) as Ew by (by vm_compute). lia.
Qed.

End log.

(** A log with two records, the older of which the retention drops, and an
    undecodable line. *)
Definition cycle_at (t : Z) : Cycle :=
  {| CycleAt := t; ActiveBanCount := 0; CFRuleCount := 0; PlannedAdds := []; PlannedDeletes := []; RecidiveEscalations := [];
     CIDREscalations := []; AgreementPct := zero; FalsePositives := []; FalseNegatives := []; InSync := false;
     DriftExplanation := "" |}.

Lemma prune_keeps_recent_witness :
  let f := Lines [Rec (cycle_at 1); Garbage; Rec (cycle_at 5)] in
  let '(f', r) := Prune (fun _ => false) 3 f in
  r = Ok tt /\ readable (fun _ => false) f' /\ ReadSince 4 f' = ReadSince 4 f.
Proof. apply (prune_keeps_recent (fun _ => false)); [split; [set_solver|done]|lia]. Defined.

Lemma oversized_blocks_witness :
  is_ok (ReadSince 0 (foldl (apply_op (fun c => CycleAt c =? 7)) (Lines [Oversized]) [OAppend (cycle_at 9); OPrune 8])) = false.
Proof.
  apply (oversized_blocks (fun c => CycleAt c =? 7) [] (cycle_at 7) [OAppend (cycle_at 9); OPrune 8] 0 0). reflexivity.
Defined.

Lemma readiness_always_pending_witness :
  readiness (ComputeMetrics (week + 2) [cycle_at 3; cycle_at (week + 1)]) = Pending.
Proof.
  apply (readiness_always_pending (fun _ => false) (week + 1) (week + 2) (cycle_at (week + 1)) (Lines [Rec (cycle_at 1); Rec (cycle_at 3)]));
    [lia|lia|reflexivity| |reflexivity].
  intros c Hc. cbn in Hc. apply elem_of_cons in Hc as [-> |Hc]; [vm_compute; discriminate|].
  apply list_elem_of_singleton in Hc as ->. vm_compute. discriminate.
Defined.

End Log.

(** ** Classification of the differences *)
Module Drift.
Import Cycle.

Inductive DriftClass :=
| DriftProtectedIP | DriftAllowlist | DriftConfidenceGate | DriftModSecRule | DriftCIDRRule | DriftTiming
| DriftRuleCollapsing | DriftUnknown.

#[export] Instance DriftClass_eq_dec : EqDecision DriftClass.
Proof. solve_decision. Defined.

Definition class_text (c : DriftClass) : string :=
  match c with
  | DriftProtectedIP => "protected_ip" | DriftAllowlist => "allowlist_filter" | DriftConfidenceGate => "confidence_gate"
  | DriftModSecRule => "modsec_rule" | DriftCIDRRule => "cidr_rule" | DriftTiming => "timing"
  | DriftRuleCollapsing => "rule_collapsing" | DriftUnknown => "unknown"
  end.

Inductive DriftRisk := DriftRiskHigh | DriftRiskMedium | DriftRiskLow | DriftRiskInfo.

Definition risk_text (r : DriftRisk) : string :=
  match r with DriftRiskHigh => "HIGH" | DriftRiskMedium => "MEDIUM" | DriftRiskLow => "LOW" | DriftRiskInfo => "INFO" end.

Record IPDrift := {
  IP : string; Direction : string; OccurrenceCount : Z; FirstSeen : Z; LastSeen : Z;
  Classification : DriftClass; Risk : DriftRisk; Explanation : string;
}.

Record ClassificationReport := {
  GeneratedAt : Z; CyclesAnalyzed : Z; TotalDriftEvents : Z; ClassCounts : DriftClass -> Z; IPDrifts : list IPDrift;
  ExplainedByGoGaps : list string; TimingDriftCount : Z; UnexplainedCount : Z;
}.

Definition isInsideCIDR (ip : string) : bool :=
  match ParseIP ip with
  | None => false
  | Some a => match To4 a with Some v => negb (v `mod` 256 =? 1) | None => false end
  end.

Definition riskOrder (r : DriftRisk) : Z :=
  match r with DriftRiskHigh => 0 | DriftRiskMedium => 1 | DriftRiskLow => 2 | DriftRiskInfo => 3 end.

(** The differences before they are classified. *)
Record track := { tk_count : Z; tk_first : Z; tk_last : Z }.

Definition track_ip (dir : string) (at_ : Z) (tr : gmap (string * string) track) (ip : string) : gmap (string * string) track :=
  let d := default {| tk_count := 0; tk_first := at_; tk_last := 0 |} (tr !! (ip, dir)) in
  <[(ip, dir) := {| tk_count := tk_count d + 1; tk_first := tk_first d; tk_last := at_ |}]> tr.

Definition track_cycle (tr : gmap (string * string) track) (c : Cycle) : gmap (string * string) track :=
  foldl (track_ip "false_negative" (CycleAt c)) (foldl (track_ip "false_positive" (CycleAt c)) tr (FalsePositives c)) (FalseNegatives c).

Definition classifyOne (isProtected : option (string -> bool)) (allowlist : option (gset string)) (ip dir : string) (n : Z)
  : DriftClass * DriftRisk * string :=
  if match isProtected with Some f => f ip | None => false end then
    (DriftProtectedIP, DriftRiskHigh,
     "IP is in a protected range (RFC1918/CF/host). Anti-self-ban is wired in Go; if this appears it is a Go bug.")
  else if bool_decide (dir = "false_positive") && match allowlist with Some l => bool_decide (ip ∈ l) | None => false end then
    (DriftAllowlist, DriftRiskMedium,
     "IP is in CrowdSec allowlist. Python filters allowlisted IPs before CF sync; Go enforcement loop missing allowlist check (known gap).")
  else if bool_decide (dir = "false_negative") && isInsideCIDR ip then
    (DriftCIDRRule, DriftRiskLow,
     "IP is covered by a /24 CIDR rule in CF. Python bans /24 directly; Go would ban the individual IP. cidrban.RealService not yet wired to daemon.")
  else if n <=? 2 then
    (DriftTiming, DriftRiskLow,
     "Appeared in only " +:+ GoFmt.fmt_d n +:+ " cycle(s). Likely timing: CS decision changed between Python's last sync and Go's current read.")
  else if bool_decide (dir = "false_positive") then
    (DriftConfidenceGate, DriftRiskMedium,
     "Persistent false positive over " +:+ GoFmt.fmt_d n +:+ " cycles. Likely CF_MIN_CONFIDENCE gate (Python filters low-confidence scenarios; Go does not).")
  else if bool_decide (dir = "false_negative") then
    (DriftModSecRule, DriftRiskLow,
     "Persistent false negative over " +:+ GoFmt.fmt_d n +:+ " cycles. Likely Python added this IP via ModSec (modsec-ban tag) or CIDR path, not crowdsec-local-ban.")
  else (DriftUnknown, DriftRiskMedium, "Not classifiable from available cycle data. Manual investigation required.").

Definition classified (isProtected : option (string -> bool)) (allowlist : option (gset string)) (e : (string * string) * track) : IPDrift :=
  let '((ip, dir), t) := e in
  let '(cls, risk, why) := classifyOne isProtected allowlist ip dir (tk_count t) in
  {| IP := ip; Direction := dir; OccurrenceCount := tk_count t; FirstSeen := tk_first t; LastSeen := tk_last t;
     Classification := cls; Risk := risk; Explanation := why |}.

Definition bump (counts : DriftClass -> Z) (d : IPDrift) : DriftClass -> Z :=
  fun c => if bool_decide (c = Classification d) then counts c + 1 else counts c.

Definition drift_lt (a b : IPDrift) : bool :=
  let ra := riskOrder (Risk a) in
  let rb := riskOrder (Risk b) in
  if negb (ra =? rb) then ra <? rb else OccurrenceCount b <? OccurrenceCount a.

Definition gap_text (c : DriftClass) : string :=
  match c with
  | DriftProtectedIP => "Anti-self-ban filter (now wired — should be zero)"
  | DriftAllowlist => "Allowlist filter missing in enforcement loop"
  | DriftConfidenceGate => "CF_MIN_CONFIDENCE adaptive mitigation not ported"
  | DriftModSecRule => "ModSec AbuseIPDB reporting path uses different CF tag"
  | DriftCIDRRule => "cidrban.RealService not wired to sync daemon"
  | DriftRuleCollapsing => "Rule collapsing (collapse_ips) not ported"
  | _ => ""
  end.

Definition ranked_classes : list DriftClass :=
  [DriftProtectedIP; DriftAllowlist; DriftConfidenceGate; DriftCIDRRule; DriftRuleCollapsing; DriftModSecRule].

Definition explainedByGoGaps (counts : DriftClass -> Z) : list string :=
  (fun c => class_text c +:+ " — " +:+ GoFmt.fmt_d (counts c) +:+ " IPs: " +:+ gap_text c) <$>
  List.filter (fun c => 0 <? counts c) ranked_classes.

Definition Classify (now : Z) (cycles : list Cycle) (isProtected : option (string -> bool)) (allowlist : option (gset string))
  : ClassificationReport :=
  match cycles with
  | [] => {| GeneratedAt := now; CyclesAnalyzed := 0; TotalDriftEvents := 0; ClassCounts := fun _ => 0; IPDrifts := [];
             ExplainedByGoGaps := []; TimingDriftCount := 0; UnexplainedCount := 0 |}
  | _ =>
      let tracker := foldl track_cycle ∅ cycles in
      let drifts := classified isProtected allowlist <$> map_to_list tracker in
      let counts := foldl bump (fun _ => 0) drifts in
      {| GeneratedAt := now; CyclesAnalyzed := Z.of_nat (length cycles); TotalDriftEvents := Z.of_nat (size tracker);
         ClassCounts := counts; IPDrifts := isort drift_lt drifts; ExplainedByGoGaps := explainedByGoGaps counts;
         TimingDriftCount := counts DriftTiming; UnexplainedCount := counts DriftUnknown |}
  end.

(** *** Remediation *)

Record RemediationItem := {
  Rank : Z; ri_Class : DriftClass; ri_Risk : DriftRisk; ri_Count : Z; Action : string; DoNotFix : bool; ri_Explanation : string;
}.

Definition candidates : list (DriftClass * DriftRisk * string * string) :=
  [(DriftProtectedIP, DriftRiskHigh,
    "Verify Shield.IsProtected() covers all management IPs/VPNs/bastions",
    "Any protected-IP drift is a P0 lockout risk. Verify coverage matches production topology.");
   (DriftAllowlist, DriftRiskMedium,
    "Wire cs.ListAllowlist() filter into CrowdSecSyncApp.buildSyncPlan()",
    "IPs in CS allowlist should never be banned in CF. Currently Go skips this check.");
   (DriftConfidenceGate, DriftRiskMedium,
    "Port Python's _should_sync_to_cf() / CF_MIN_CONFIDENCE gate",
    "Python excludes low-confidence scenarios. Go bans all active bans regardless of confidence.");
   (DriftCIDRRule, DriftRiskLow,
    "Wire cidrban.RealService into CrowdSecSyncApp scheduler loop",
    "CIDR /24 escalation service is built but not called in the sync cycle.");
   (DriftRuleCollapsing, DriftRiskLow,
    "Port Python's collapse_ips() to reduce individual /32 rules",
    "Python collapses adjacent IPs into prefix ranges. Go adds each IP individually.");
   (DriftModSecRule, DriftRiskLow,
    "Add ModSec AbuseIPDB reporting (already built; verify tag match)",
    "Python's modsec-ban rules appear as false negatives. Verify tag routing.")].

Fixpoint remediation_loop (counts : DriftClass -> Z) (rank : Z) (l : list (DriftClass * DriftRisk * string * string))
  : list RemediationItem * Z :=
  match l with
  | [] => ([], rank)
  | (cls, risk, action, why) :: l =>
      if counts cls =? 0 then remediation_loop counts rank l
      else let '(items, rank') := remediation_loop counts (rank + 1) l in
           ({| Rank := rank; ri_Class := cls; ri_Risk := risk; ri_Count := counts cls; Action := action; DoNotFix := true;
               ri_Explanation := why |} :: items, rank')
  end.

Definition BuildRemediationList (r : ClassificationReport) : list RemediationItem :=
  let '(items, rank) := remediation_loop (ClassCounts r) 1 candidates in
  items ++
  if 0 <? UnexplainedCount r
  then [{| Rank := rank; ri_Class := DriftUnknown; ri_Risk := DriftRiskMedium; ri_Count := UnexplainedCount r;
           Action := "Investigate manually: check CS scenario, CF tag, and Python WAL"; DoNotFix := true;
           ri_Explanation := "Cannot classify without runtime checks (allowlist, CF tag inspection)." |}]
  else [].

Definition DriftClassLabel (c : DriftClass) : string :=
  match c with
  | DriftProtectedIP => "Protected IP" | DriftAllowlist => "Allowlist filter" | DriftConfidenceGate => "Confidence gate"
  | DriftModSecRule => "ModSec rule" | DriftCIDRRule => "CIDR /24 rule" | DriftTiming => "Timing difference"
  | DriftRuleCollapsing => "Rule collapsing" | DriftUnknown => "Unknown"
  end.

Definition DriftOwner (c : DriftClass) : string :=
  match c with
  | DriftProtectedIP => "Go bug (should be zero after wiring)"
  | DriftAllowlist => "Go gap (known missing feature)"
  | DriftConfidenceGate => "Go gap (known missing feature)"
  | DriftModSecRule => "Expected behavior difference"
  | DriftCIDRRule => "Go gap (service built, not wired)"
  | DriftTiming => "Timing difference (expected)"
  | DriftRuleCollapsing => "Go gap (known missing feature)"
  | DriftUnknown => "Unknown — investigate"
  end.

Definition directionLabel (dir : string) : string :=
  if bool_decide (dir = "false_positive") then "FP (Go extra)" else "FN (Python extra)".

Definition FormatDriftTable (d : IPDrift) : string :=
  "| `" +:+ IP d +:+ "` | " +:+ directionLabel (Direction d) +:+ " | " +:+ GoFmt.fmt_d (OccurrenceCount d) +:+ " | " +:+
  DriftClassLabel (Classification d) +:+ " | " +:+ risk_text (Risk d) +:+ " | " +:+ DriftOwner (Classification d) +:+ " |".

Definition newline : string := bytes_str [10%N].

Definition summary_dir (c : DriftClass) : string :=
  match c with
  | DriftModSecRule | DriftCIDRRule | DriftRuleCollapsing => "FN"
  | DriftTiming | DriftUnknown => "mixed"
  | _ => "FP"
  end.

Definition PerClassSummary (r : ClassificationReport) : string :=
  "| Class | Count | Direction | Owner |" +:+ newline +:+ "|---|---|---|---|" +:+ newline +:+
  foldr (fun c acc => if ClassCounts r c =? 0 then acc
                      else "| " +:+ DriftClassLabel c +:+ " | " +:+ GoFmt.fmt_d (ClassCounts r c) +:+ " | " +:+ summary_dir c +:+
                           " | " +:+ DriftOwner c +:+ " |" +:+ newline +:+ acc)
    "" (ranked_classes ++ [DriftTiming; DriftUnknown]).

(** *** What the classification counts *)

(** The differences of the cycles, in the order they were recorded. *)
Definition differences (c : Cycle) : list (string * string) :=
  ((fun ip => (ip, "false_positive")) <$> FalsePositives c) ++ ((fun ip => (ip, "false_negative")) <$> FalseNegatives c).

Definition occurrences (k : string * string) (l : list (string * string)) : Z :=
  Z.of_nat (length (List.filter (fun k' => bool_decide (k' = k)) l)).

Lemma occurrences_snoc k l x : occurrences k (l ++ [x]) = occurrences k l + (if bool_decide (x = k) then 1 else 0).
Proof. unfold occurrences. rewrite List.filter_app, length_app. cbn. destruct (bool_decide _); cbn; lia. Qed.

Lemma occurrences_pos k l : 0 < occurrences k l <-> k ∈ l.
Proof.
  unfold occurrences. rewrite (list_elem_of_In l k). split.
  - intros H. destruct (List.filter _ l) as [|y ys] eqn:E; [cbn in H; lia|].
    assert (List.In y (List.filter (fun k' => bool_decide (k' = k)) l)) as [Hin Hb]%List.filter_In by (rewrite E; by left).
    case_bool_decide; [congruence|done].
  - intros H. destruct (List.filter _ l) as [|y ys] eqn:E; [|cbn; lia].
    assert (List.In k (List.filter (fun k' => bool_decide (k' = k)) l)) as Hf; [|by rewrite E in Hf].
    apply List.filter_In. split; [done|by case_bool_decide].
Qed.

(** The tracker counts the events it has seen. *)
Definition counts_events (tr : gmap (string * string) track) (l : list (string * string)) : Prop :=
  forall k, match tr !! k with
            | Some t => tk_count t = occurrences k l /\ k ∈ l
            | None => k ∉ l
            end.

Lemma track_ip_counts dir at_ tr l ip :
  counts_events tr l -> counts_events (track_ip dir at_ tr ip) (l ++ [(ip, dir)]).
Proof.
  intros H k. unfold track_ip. destruct (decide (k = (ip, dir))) as [->|Hk].
  - rewrite lookup_insert_eq. cbn [tk_count]. rewrite occurrences_snoc, bool_decide_true by done. specialize (H (ip, dir)).
    destruct (tr !! (ip, dir)) as [t|]; cbn; [destruct H as [-> _]; split; [done|apply elem_of_app; right; by left]|].
    split; [|apply elem_of_app; right; by left]. assert (~ 0 < occurrences (ip, dir) l) by (by rewrite occurrences_pos). unfold occurrences in *. lia.
  - rewrite lookup_insert_ne by done. specialize (H k). destruct (tr !! k) as [t|].
    + rewrite occurrences_snoc, bool_decide_false by done. destruct H as [-> ?]. split; [lia|apply elem_of_app; by left].
    + rewrite elem_of_app, list_elem_of_singleton. tauto.
Qed.

Lemma track_ips_counts dir at_ ips tr l :
  counts_events tr l -> counts_events (foldl (track_ip dir at_) tr ips) (l ++ ((fun ip => (ip, dir)) <$> ips)).
Proof.
  revert tr l. induction ips as [|ip ips IH]; intros tr l H; [by rewrite app_nil_r|]. cbn [foldl]. rewrite fmap_cons.
  rewrite (cons_middle (ip, dir) l), app_assoc. by apply IH, track_ip_counts.
Qed.

Lemma tracker_counts cycles : counts_events (foldl track_cycle ∅ cycles) (concat (differences <$> cycles)).
Proof.
  induction cycles as [|c cycles IH] using rev_ind; [intros k; cbn; rewrite lookup_empty; apply not_elem_of_nil|].
  rewrite foldl_app, fmap_app, concat_app. cbn. rewrite app_nil_r. unfold track_cycle, differences at 2.
  rewrite app_assoc. by do 2 apply track_ips_counts.
Qed.

Lemma bump_counts l counts c :
  foldl bump counts l c = counts c + Z.of_nat (length (List.filter (fun d => bool_decide (c = Classification d)) l)).
Proof.
  revert counts. induction l as [|d l IH]; intros counts; cbn; [lia|]. rewrite IH. unfold bump.
  destruct (bool_decide _); cbn; lia.
Qed.

Lemma drift_key f a e : (IP (classified f a e), Direction (classified f a e)) = e.1.
Proof. destruct e as [[ip dir] t]. cbn. by destruct (classifyOne f a ip dir (tk_count t)) as [[??]?]. Qed.

Lemma drift_count f a e : OccurrenceCount (classified f a e) = tk_count e.2.
Proof. destruct e as [[ip dir] t]. cbn. by destruct (classifyOne f a ip dir (tk_count t)) as [[??]?]. Qed.

(** The two classes no difference of a cycle is given. *)
Lemma classes_used f a ip dir n cls risk why :
  dir = "false_positive" \/ dir = "false_negative" -> classifyOne f a ip dir n = (cls, risk, why) ->
  cls <> DriftUnknown /\ cls <> DriftRuleCollapsing.
Proof.
  intros Hd. unfold classifyOne. destruct (match f with Some _ => _ | None => _ end); [by intros [= <- <- <-]|].
  destruct (bool_decide (dir = "false_positive")) eqn:Ep; [|assert (bool_decide (dir = "false_negative") = true) as ->];
    cbn [andb]; try (repeat match goal with |- context [if ?b then _ else _] => destruct b end; by intros [= <- <- <-]).
  apply bool_decide_eq_false in Ep. apply bool_decide_eq_true. naive_solver.
Qed.

Lemma event_dir cycles ip dir :
  (ip, dir) ∈ concat (differences <$> cycles) -> dir = "false_positive" \/ dir = "false_negative".
Proof.
  induction cycles as [|c cycles IH]; [by intros ?%not_elem_of_nil|]. cbn. rewrite elem_of_app. intros [H|H]; [|by apply IH].
  unfold differences in H. rewrite elem_of_app, !list_elem_of_fmap in H.
  destruct H as [(x & [= -> ->] & _)|(x & [= -> ->] & _)]; tauto.
Qed.

Lemma drift_lt_asym a b : drift_lt a b = true -> drift_lt b a = false.
Proof.
  unfold drift_lt. destruct (Z.eqb_spec (riskOrder (Risk a)) (riskOrder (Risk b))), (Z.eqb_spec (riskOrder (Risk b)) (riskOrder (Risk a)));
    cbn; rewrite ?Z.ltb_lt, ?Z.ltb_ge; lia.
Qed.

Lemma drift_lt_trans_neg a b c : drift_lt b a = false -> drift_lt c b = false -> drift_lt c a = false.
Proof.
  unfold drift_lt. destruct (Z.eqb_spec (riskOrder (Risk b)) (riskOrder (Risk a))), (Z.eqb_spec (riskOrder (Risk c)) (riskOrder (Risk b))),
    (Z.eqb_spec (riskOrder (Risk c)) (riskOrder (Risk a))); cbn; rewrite ?Z.ltb_ge; lia.
Qed.

(** The classification of the differences.  Every address and direction of
    the recorded cycles is listed exactly once, with the number of times it
    was recorded, and nothing else is; the counters of the classes count the
    listed entries, and their entries are ordered by risk and then by
    frequency.  No entry is ever of the class for unknown causes or of the
    class for collapsed rules. *)
Theorem Classify_spec now cycles isProtected allowlist :
  let r := Classify now cycles isProtected allowlist in
  let events := concat (differences <$> cycles) in
  (forall k, (exists d, d ∈ IPDrifts r /\ (IP d, Direction d) = k) <-> k ∈ events) /\
  (forall d, d ∈ IPDrifts r -> OccurrenceCount d = occurrences (IP d, Direction d) events) /\
  NoDup ((fun d => (IP d, Direction d)) <$> IPDrifts r) /\
  TotalDriftEvents r = Z.of_nat (length (IPDrifts r)) /\
  (forall c, ClassCounts r c = Z.of_nat (length (List.filter (fun d => bool_decide (c = Classification d)) (IPDrifts r)))) /\
  ClassCounts r DriftUnknown = 0 /\ ClassCounts r DriftRuleCollapsing = 0 /\ UnexplainedCount r = 0 /\
  StronglySorted (fun a b => drift_lt b a = false) (IPDrifts r).
Proof.
  cbn zeta. destruct cycles as [|c0 cycles0] eqn:Ec.
  { cbn. split_and!; try done; [|intros d Hd; by apply not_elem_of_nil in Hd|constructor|constructor].
    intros k. split; [intros (d & Hd & _); by apply not_elem_of_nil in Hd|intros Hd; by apply not_elem_of_nil in Hd]. }
  rewrite <- Ec. pose proof (tracker_counts cycles) as Ht.
  assert (Classify now cycles isProtected allowlist = Classify now (c0 :: cycles0) isProtected allowlist) as -> by (by rewrite Ec).
  cbn [Classify IPDrifts TotalDriftEvents ClassCounts UnexplainedCount]. rewrite <- Ec.
  set (tr := foldl track_cycle ∅ cycles) in *. set (ds := classified isProtected allowlist <$> map_to_list tr).
  assert (forall d, d ∈ ds -> exists e, d = classified isProtected allowlist e /\ tr !! e.1 = Some e.2) as Hds.
  { intros d (e & -> & He)%list_elem_of_fmap. exists e. split; [done|]. destruct e. by apply elem_of_map_to_list. }
  assert (forall c, c = DriftUnknown \/ c = DriftRuleCollapsing -> foldl bump (fun _ => 0) ds c = 0) as Hno.
  { intros c Hc. rewrite bump_counts. destruct (List.filter _ ds) as [|d l] eqn:E; [cbn; lia|].
    assert (d ∈ List.filter (fun d => bool_decide (c = Classification d)) ds) as [Hd Hcl]%elem_of_lfilter by (rewrite E; by left).
    destruct (Hds d Hd) as ([[ip dir] t] & -> & Hl). cbn in Hl, Hcl. specialize (Ht (ip, dir)). rewrite Hl in Ht.
    destruct Ht as [_ Hin%event_dir]. destruct (classifyOne isProtected allowlist ip dir (tk_count t)) as [[cls risk] why] eqn:Eo.
    destruct (classes_used _ _ _ _ _ _ _ _ Hin Eo) as [H1 H2]. apply bool_decide_eq_true in Hcl. cbn in Hcl. destruct Hc; congruence. }
  split; [|split; [|split; [|split; [|split]]]].
  - intros k. setoid_rewrite elem_of_isort. split.
    + intros (d & Hd & <-). destruct (Hds d Hd) as (e & -> & He). rewrite drift_key. specialize (Ht e.1). rewrite He in Ht. apply Ht.
    + intros Hk. specialize (Ht k). destruct (tr !! k) as [t|] eqn:Et; [|by destruct Ht].
      exists (classified isProtected allowlist (k, t)). split; [|by rewrite drift_key].
      apply list_elem_of_fmap. exists (k, t). split; [done|]. by apply elem_of_map_to_list.
  - intros d Hd%elem_of_isort. destruct (Hds d Hd) as (e & -> & He). rewrite drift_key, drift_count. specialize (Ht e.1).
    rewrite He in Ht. apply Ht.
  - rewrite isort_perm. unfold ds. rewrite <- list_fmap_compose, (list_fmap_ext _ fst).
    + apply NoDup_fst_map_to_list.
    + intros i e _. apply drift_key.
  - rewrite isort_length. unfold ds. by rewrite length_fmap, length_map_to_list.
  - intros c. rewrite bump_counts, (lfilter_perm _ _ _ (isort_perm drift_lt ds)). lia.
  - rewrite !Hno by tauto. split_and!; try reflexivity. apply isort_sorted.
    + intros x y H. apply drift_lt_asym, H.
    + done.
    + intros x y z. apply drift_lt_trans_neg.
Qed.

End Drift.
