(* ===== verification/NetipText.v ===== *)
(** * The text of addresses

    Parsing what [net.IP.String] prints gives the address back, so the text of
    a parsed address is a normal form: the enforcement loops compare addresses
    by it. *)

From S2P Require Import Prelude Netip.
Import Netip.

Local Open Scope Z_scope.

(** Linear arithmetic with quotients by powers of two. *)
Local Ltac div_lia :=
  change (2 ^ 24) with 16777216 in *; change (2 ^ 16) with 65536 in *; change (2 ^ 8) with 256 in *;
  change (2 ^ 32) with 4294967296 in *; Z.to_euclidean_division_equations; lia.

(** ** IPv4 *)

(** The value of a run of decimal digits as the scanner takes it. *)
Fixpoint digit_run (t : string) (val : Z) (dig : nat) : option Z :=
  match t with
  | EmptyString => Some val
  | String a t =>
      match digit a with
      | Some d => if bool_decide (dig = 1%nat) && (val =? 0) then None
                  else if 255 <? val * 10 + d then None else digit_run t (val * 10 + d) (S dig)
      | None => None
      end
  end.

Lemma digit_run_scan t val dig o s start fields :
  digit_run t val dig = Some o ->
  v4_scan (t +:+ s) start val dig fields =
  match t with EmptyString => v4_scan s start val dig fields | _ => v4_scan s false o (dig + String.length t) fields end.
Proof.
  revert val dig start. induction t as [|a t IH]; intros val dig start; [done|]. cbn [digit_run].
  destruct (digit a) as [d|] eqn:Ed; [|done].
  destruct (bool_decide (dig = 1%nat) && (val =? 0)) eqn:E1; [done|].
  destruct (255 <? val * 10 + d) eqn:E2; [done|]. intros H. rewrite str_cons_app. cbn [v4_scan]. rewrite Ed, E1, E2, (IH _ _ _ H).
  destruct t; cbn in H |- *; [simplify_eq; f_equal; lia|f_equal; lia].
Qed.

Lemma digit_run_kind t val dig o s : digit_run t val dig = Some o -> addr_kind (t +:+ s) = addr_kind s.
Proof.
  revert val dig. induction t as [|a t IH]; intros val dig; [done|]. cbn [digit_run].
  destruct (digit a) as [d|] eqn:Ed; [|done]. destruct (_ && _); [done|]. destruct (_ <? _); [done|]. intros H. rewrite str_cons_app. cbn [addr_kind].
  rewrite !bool_decide_false by (intros ->; vm_compute in Ed; discriminate). by eapply IH.
Qed.

Lemma octets : forallb (fun o => bool_decide (digit_run (pretty o) 0 0 = Some o) && negb (bool_decide (pretty o = "")))
                       (Z.of_nat <$> seq 0 256) = true.
Proof. vm_compute. reflexivity. Qed.

Lemma octet o : 0 <= o < 256 -> digit_run (pretty o) 0 0 = Some o /\ exists c r, pretty o = String c r.
Proof.
  intros Ho. pose proof octets as H. rewrite List.forallb_forall in H.
  assert (List.In o (Z.of_nat <$> seq 0 256)) as Hin.
  { apply list_elem_of_In, list_elem_of_fmap. exists (Z.to_nat o). split; [lia|]. apply elem_of_seq. lia. }
  apply H in Hin. apply andb_prop in Hin as [H1 H2]. apply bool_decide_eq_true in H1. split; [done|].
  destruct (pretty o) as [|c r]; [done|by eauto].
Qed.

Lemma octet_dot o s fields :
  0 <= o < 256 -> (length fields < 3)%nat -> s <> "" ->
  v4_scan (pretty o +:+ String "." s) true 0 0 fields = v4_scan s true 0 0 (o :: fields).
Proof.
  intros Ho Hl Hs. destruct (octet o Ho) as [Hr (c & r & E)]. rewrite (digit_run_scan _ _ _ _ _ _ _ Hr), E. cbn [v4_scan].
  change (digit ".") with (@None Z). cbn. rewrite (bool_decide_false (s = "")), (bool_decide_false (length fields = 3%nat)) by (done || lia). done.
Qed.

Lemma octet_end o fields : 0 <= o < 256 -> (length fields = 3)%nat -> v4_scan (pretty o) true 0 0 fields = Some (o :: fields).
Proof.
  intros Ho Hl. destruct (octet o Ho) as [Hr (c & r & E)].
  assert (pretty o = pretty o +:+ "") as -> by (symmetry; apply str_app_nil).
  rewrite (digit_run_scan _ _ _ _ _ _ _ Hr), E. cbn. rewrite bool_decide_false by lia. done.
Qed.

Lemma str_app_nonempty s a r : s +:+ String a r <> "".
Proof. by destruct s. Qed.

Lemma ParseAddr_v4_string v : 0 <= v < 2 ^ 32 -> ParseAddr (v4_string v) = Some (A4 v).
Proof.
  intros Hv. unfold v4_string. set (a := v / 2 ^ 24). set (b := (v / 2 ^ 16) `mod` 256). set (c := (v / 2 ^ 8) `mod` 256). set (d := v `mod` 256).
  assert (0 <= a < 256 /\ 0 <= b < 256 /\ 0 <= c < 256 /\ 0 <= d < 256) as (Ha & Hb & Hc & Hd) by (subst a b c d; div_lia).
  unfold ParseAddr. destruct (octet a Ha) as [Hra _]. rewrite (digit_run_kind _ _ _ _ _ Hra). change (addr_kind ("." +:+ _)) with (Some true). cbn iota. unfold parse_v4.
  assert (pretty d <> "") as Hd' by (destruct (octet d Hd) as (_ & ? & ? & ->); done).
  rewrite !(str_cons_app "." ""), !str_nil_app. rewrite !octet_dot, octet_end; try done; try apply str_app_nonempty; cbn; try lia.
  cbn [fmap option_fmap option_map v4_value]. do 2 f_equal. subst a b c d. div_lia.
Qed.

(** ** IPv6 *)

Definition hexs (g : Z) : string := hex_fuel 4 g "".

(** A text that ends a run of hexadecimal digits. *)
Definition stops (s : string) : Prop := match s with EmptyString => True | String a _ => hex_digit a = None end.

Lemma hex_chars : forallb (fun d => let c := hex_char d in
    bool_decide (hex_digit c = Some d) && negb (bool_decide (c ∈ [":"; "."; "%"]%char))) (Z.of_nat <$> seq 0 16) = true.
Proof. vm_compute. reflexivity. Qed.

Lemma hex_digit_char d : 0 <= d < 16 -> hex_digit (hex_char d) = Some d /\ (hex_char d ∉ [":"; "."; "%"]%char).
Proof.
  intros Hd. pose proof hex_chars as H. rewrite List.forallb_forall in H.
  assert (List.In d (Z.of_nat <$> seq 0 16)) as Hin.
  { apply list_elem_of_In, list_elem_of_fmap. exists (Z.to_nat d). split; [lia|]. apply elem_of_seq. lia. }
  apply H in Hin. apply andb_prop in Hin as [H1 H2]. split; [by apply bool_decide_eq_true in H1|].
  apply negb_true_iff in H2. by apply bool_decide_eq_false in H2.
Qed.

(** A text that begins with a hexadecimal digit. *)
Definition hex_char_ok (c : Ascii.ascii) : Prop := c ∉ [":"; "."; "%"]%char.
Fixpoint hex_text (s : string) : Prop := match s with EmptyString => True | String a s => hex_char_ok a /\ hex_text s end.

Lemma hex_run_stop s off acc : stops s -> hex_run s off acc = Some (off, acc, s).
Proof. destruct s as [|a s]; [done|]. cbn. by intros ->. Qed.

Lemma hex_run_char d s off acc :
  0 <= d < 16 -> (off <= 3)%nat -> hex_run (String (hex_char d) s) off acc = hex_run s (S off) (acc * 16 + d).
Proof.
  intros Hd Ho. cbn. destruct (hex_digit_char d Hd) as [-> _]. by rewrite bool_decide_false by lia.
Qed.

(** The digits of a group, from the last one. *)
Lemma hexs_cases g : 0 <= g < 65536 ->
  exists d0 d1 d2 d3, (0 <= d0 < 16 /\ 0 <= d1 < 16 /\ 0 <= d2 < 16 /\ 0 <= d3 < 16) /\
  ((g = d0 /\ hexs g = String (hex_char d0) "") \/
   (g = d1 * 16 + d0 /\ hexs g = String (hex_char d1) (String (hex_char d0) "")) \/
   (g = (d2 * 16 + d1) * 16 + d0 /\ hexs g = String (hex_char d2) (String (hex_char d1) (String (hex_char d0) ""))) \/
   (g = ((d3 * 16 + d2) * 16 + d1) * 16 + d0 /\
    hexs g = String (hex_char d3) (String (hex_char d2) (String (hex_char d1) (String (hex_char d0) ""))))).
Proof.
  intros Hg. exists (g `mod` 16), ((g / 16) `mod` 16), ((g / 16 / 16) `mod` 16), ((g / 16 / 16 / 16) `mod` 16).
  split; [Z.to_euclidean_division_equations; lia|]. unfold hexs. cbn [hex_fuel].
  destruct (Z.ltb_spec g 16); [left; split; [Z.to_euclidean_division_equations; lia|done]|right].
  destruct (Z.ltb_spec (g / 16) 16); [left; split; [Z.to_euclidean_division_equations; lia|done]|right].
  destruct (Z.ltb_spec (g / 16 / 16) 16); [left|right].
  - split; [Z.to_euclidean_division_equations; lia|done].
  - split; [Z.to_euclidean_division_equations; lia|by destruct (_ <? 16)].
Qed.

Lemma hexs_run g s : 0 <= g < 65536 -> stops s -> exists k, hex_run (hexs g +:+ s) 0 0 = Some (S k, g, s).
Proof.
  intros Hg Hs. destruct (hexs_cases g Hg) as (d0 & d1 & d2 & d3 & (H0 & H1 & H2 & H3) & H).
  destruct H as [[E ->]|[[E ->]|[[E ->]|[E ->]]]]; rewrite !str_cons_app, str_nil_app, !hex_run_char by lia;
    rewrite hex_run_stop by done; eexists; repeat f_equal; lia.
Qed.

Lemma hexs_text g : 0 <= g < 65536 -> hex_text (hexs g) /\ exists c r, hexs g = String c r /\ hex_char_ok c.
Proof.
  intros Hg. destruct (hexs_cases g Hg) as (d0 & d1 & d2 & d3 & (H0 & H1 & H2 & H3) & H).
  apply hex_digit_char in H0 as [_ H0], H1 as [_ H1], H2 as [_ H2], H3 as [_ H3].
  destruct H as [[_ ->]|[[_ ->]|[[_ ->]|[_ ->]]]]; split; cbn; unfold hex_char_ok; by eauto 7.
Qed.

Lemma hex_text_kind t s : hex_text t -> addr_kind (t +:+ s) = addr_kind s.
Proof.
  induction t as [|a t IH]; [done|]. intros [Ha Ht]. rewrite str_cons_app. cbn [addr_kind]. unfold hex_char_ok in Ha.
  rewrite !bool_decide_false by (intros ->; set_solver). by apply IH.
Qed.

(** ** Groups and colons *)

Definition group_ok (g : Z) : Prop := 0 <= g < 65536.
Definition joined (gs : list Z) : string := str_join ":" (hexs <$> gs).

Lemma joined_cons g gs : joined (g :: gs) = match gs with [] => hexs g | _ => hexs g +:+ ":" +:+ joined gs end.
Proof. by destruct gs. Qed.

Lemma joined_head g gs s : group_ok g -> exists c r, joined (g :: gs) +:+ s = String c r /\ hex_char_ok c.
Proof.
  intros Hg. destruct (hexs_text g Hg) as [_ (c & r & E & Hc)]. rewrite joined_cons.
  destruct gs; rewrite E, ?str_cons_app; by eauto.
Qed.

Lemma colon_not_ok : ~ hex_char_ok ":". Proof. unfold hex_char_ok. set_solver. Qed.

Lemma str_one_app a s : String a "" +:+ s = String a s.
Proof. by rewrite str_cons_app. Qed.

(** One group and a colon that is not the second of two. *)
Lemma v6_loop_group f g s gs ell c r :
  group_ok g -> s = String c r -> c <> ":"%char ->
  v6_loop (S f) (hexs g +:+ String ":" s) gs ell = v6_loop f s (g :: gs) ell.
Proof.
  intros Hg -> Hc. cbn [v6_loop]. destruct (hexs_run g (String ":" (String c r)) Hg eq_refl) as [k ->].
  rewrite (bool_decide_false (":"%char = "."%char)) by done. rewrite (bool_decide_true (":"%char = ":"%char)) by done.
  by rewrite bool_decide_false.
Qed.

Lemma v6_loop_groups f gs acc ell :
  gs <> [] -> Forall group_ok gs -> (length gs <= f)%nat -> v6_loop f (joined gs) acc ell = Some (rev gs ++ acc, ell, "").
Proof.
  revert f acc. induction gs as [|g gs IH]; intros f acc Hne Hok Hf; [done|]. destruct f as [|f]; [cbn in Hf; lia|].
  apply Forall_cons in Hok as [Hg Hok]. rewrite joined_cons. destruct gs as [|g' gs].
  - cbn [v6_loop]. rewrite <- (str_app_nil (hexs g)). by destruct (hexs_run g "" Hg I) as [k ->].
  - rewrite str_one_app. pose proof (Forall_inv Hok) as Hg'. destruct (joined_head g' gs "" Hg') as (c & r & E & Hc).
    rewrite str_app_nil in E. rewrite (v6_loop_group _ _ _ _ _ _ _ Hg E) by (intros ->; by apply colon_not_ok).
    rewrite IH by (done || (cbn in *; lia)). cbn [rev]. by rewrite <- !app_assoc.
Qed.

Lemma v6_loop_ellipsis f gs acc s :
  gs <> [] -> Forall group_ok gs -> (length gs <= f)%nat ->
  v6_loop f (joined gs +:+ "::" +:+ s) acc None =
  match s with
  | EmptyString => Some (rev gs ++ acc, Some (length gs + length acc)%nat, "")
  | _ => v6_loop (f - length gs) s (rev gs ++ acc) (Some (length gs + length acc)%nat)
  end.
Proof.
  revert f acc. induction gs as [|g gs IH]; intros f acc Hne Hok Hf; [done|]. destruct f as [|f]; [cbn in Hf; lia|].
  apply Forall_cons in Hok as [Hg Hok]. rewrite joined_cons. destruct gs as [|g' gs].
  - assert ("::" +:+ s = String ":" (String ":" s)) as -> by (by rewrite !str_cons_app).
    cbn [v6_loop]. destruct (hexs_run g (String ":" (String ":" s)) Hg eq_refl) as [k ->].
    rewrite (bool_decide_false (":"%char = "."%char)) by done. rewrite !(bool_decide_true (":"%char = ":"%char)) by done.
    cbn [length Nat.add Nat.sub rev app]. by rewrite Nat.sub_0_r.
  - rewrite str_one_app, str_app_assoc, str_cons_app. pose proof (Forall_inv Hok) as Hg'.
    destruct (joined_head g' gs ("::" +:+ s) Hg') as (c & r & E & Hc).
    rewrite (v6_loop_group _ _ _ _ _ _ _ Hg E) by (intros ->; by apply colon_not_ok).
    rewrite IH by (done || (cbn in *; lia)). cbn [rev length Nat.sub]. rewrite <- !app_assoc. cbn [app].
    by replace (S (length gs) + S (length acc))%nat with (S (S (length gs)) + length acc)%nat by lia.
Qed.

(** ** The groups of an address *)

Lemma zero_run_spec gs : take (zero_run gs) gs = replicate (zero_run gs) 0.
Proof. induction gs as [|g gs IH]; [done|]. cbn. destruct (Z.eqb_spec g 0) as [->|]; [|done]. cbn. by rewrite IH. Qed.

Lemma zero_run_length gs : (zero_run gs <= length gs)%nat.
Proof. induction gs as [|g gs IH]; [done|]. cbn. destruct (g =? 0); cbn; lia. Qed.

(** What the printed text leaves out: nothing, or a run of zero groups. *)
Definition run_in (gs : list Z) (r : nat * nat) : Prop :=
  r.2 = 0%nat \/ ((2 <= r.2)%nat /\ gs = take r.1 gs ++ replicate r.2 0 ++ drop (r.1 + r.2) gs /\ (r.1 + r.2 <= length gs)%nat).

Lemma best_run_in gs : length gs = 8%nat -> run_in gs (best_run gs).
Proof.
  intros Hl. unfold best_run. assert (forall l r, run_in gs r -> (forall i, i ∈ l -> (i < 8)%nat) -> run_in gs
    (foldl (fun '(s, l) i => let r := zero_run (drop i gs) in
             if bool_decide (2 <= r)%nat && bool_decide (l < r)%nat then (i, r) else (s, l)) r l)) as H.
  { induction l as [|i l IH]; intros [s n] Hr Hi; [done|]. cbn [foldl]. apply IH; [|intros; apply Hi; set_solver].
    cbn zeta. case_bool_decide as H2; [|done]. case_bool_decide; [|done]. right. cbn.
    pose proof (zero_run_length (drop i gs)). rewrite length_drop in *. specialize (Hi i ltac:(set_solver)).
    split_and!; [done| |lia]. rewrite <- (take_drop i gs) at 1. f_equal.
    rewrite <- (take_drop (zero_run (drop i gs)) (drop i gs)) at 1. by rewrite zero_run_spec, drop_drop. }
  apply H; [by left|]. intros i Hi. apply elem_of_seq in Hi. lia.
Qed.

Lemma groups_of_ok v : Forall group_ok (groups_of v) /\ length (groups_of v) = 8%nat.
Proof.
  split; [|done]. unfold groups_of. apply Forall_fmap, Forall_forall. intros i _. unfold compose, group_ok.
  change (2 ^ 16) with 65536. apply Z.mod_pos_bound. lia.
Qed.

Lemma groups_value v : 0 <= v < 2 ^ 128 -> v6_value (groups_of v) = v.
Proof.
  intros Hv. unfold v6_value, groups_of. cbn [seq fmap list_fmap foldl].
  assert (forall k, 0 <= k -> (v / 2 ^ (16 * (k + 1))) * 2 ^ 16 + (v / 2 ^ (16 * k)) `mod` 2 ^ 16 = v / 2 ^ (16 * k)) as Hs.
  { intros k Hk. replace (16 * (k + 1)) with (16 * k + 16) by lia. rewrite Z.pow_add_r, <- Z.div_div by lia.
    rewrite (Z.mul_comm _ (2 ^ 16)). symmetry. apply Z.div_mod. lia. }
  assert (forall k n, 0 <= 7 - Z.of_nat n -> k = 7 - Z.of_nat n + 1 ->
      (v / 2 ^ (16 * k)) * 2 ^ 16 + (v / 2 ^ (16 * (7 - Z.of_nat n))) `mod` 2 ^ 16 = v / 2 ^ (16 * (7 - Z.of_nat n))) as Hs'
    by (intros k n Hn ->; by apply Hs).
  assert (0 * 2 ^ 16 + (v / 2 ^ (16 * (7 - Z.of_nat 0))) `mod` 2 ^ 16 = v / 2 ^ (16 * 7)) as ->.
  { rewrite <- (Hs 7) by lia. f_equal. rewrite Z.div_small; [done|]. cbn in *. lia. }
  do 7 (rewrite Hs' by lia). apply Z.div_1_r.
Qed.

(** ** Parsing the printed text *)

Definition no_zone (s : string) : Prop := split_zone s = (s, None).

Lemma no_zone_app s t : no_zone s -> no_zone t -> no_zone (s +:+ t).
Proof.
  unfold no_zone. intros Hs Ht. induction s as [|a s IH]; [done|]. rewrite str_cons_app. cbn [split_zone] in *.
  case_bool_decide; [done|]. destruct (split_zone s) as [x z]. simplify_eq. by rewrite IH.
Qed.

Lemma hex_text_no_zone s : hex_text s -> no_zone s.
Proof.
  unfold no_zone. induction s as [|a s IH]; [done|]. intros [Ha Hs]. cbn. rewrite bool_decide_false by (intros ->; unfold hex_char_ok in Ha; set_solver).
  by rewrite (IH Hs).
Qed.

Lemma joined_no_zone gs : Forall group_ok gs -> no_zone (joined gs).
Proof.
  induction 1 as [|g gs Hg Hgs IH]; [done|]. rewrite joined_cons. pose proof (hex_text_no_zone _ (proj1 (hexs_text g Hg))).
  destruct gs; [done|]. apply no_zone_app; [done|]. by apply no_zone_app.
Qed.

Lemma not_ellipsis c r : hex_char_ok c -> has_prefix "::" (String c r) = false.
Proof. intros Hc. cbn. rewrite bool_decide_false; [done|]. intros <-. by apply colon_not_ok. Qed.

Lemma body_groups gs : Forall group_ok gs -> length gs = 8%nat -> parse_v6_body (joined gs) = Some (v6_value gs).
Proof.
  intros Hok Hl. unfold parse_v6_body. destruct gs as [|g gs]; [done|].
  destruct (joined_head g gs "" (Forall_inv Hok)) as (c & r & E & Hc). rewrite str_app_nil in E.
  rewrite E, (not_ellipsis _ _ Hc), <- E. cbn [andb bool_decide]. rewrite (bool_decide_false (None = Some 0%nat)) by done. cbn [andb].
  rewrite v6_loop_groups by (done || lia). unfold v6_finish. rewrite app_nil_r, length_rev, Hl. cbn [Nat.sub]. by rewrite rev_involutive.
Qed.

Lemma finish_ellipsis l1 l2 n :
  (0 < n)%nat -> (length l1 + n + length l2 = 8)%nat ->
  v6_finish (rev l2 ++ rev l1) (Some (length l1)) = Some (v6_value (l1 ++ replicate n 0 ++ l2)).
Proof.
  intros Hn Hl. unfold v6_finish. rewrite length_app, !length_rev. replace (8 - (length l2 + length l1))%nat with n by lia.
  destruct n as [|n]; [lia|]. rewrite rev_app_distr, !rev_involutive. do 2 f_equal.
  by rewrite take_app_length, drop_app_length.
Qed.

Lemma body_ellipsis l1 l2 n :
  Forall group_ok l1 -> Forall group_ok l2 -> (0 < n)%nat -> (length l1 + n + length l2 = 8)%nat ->
  parse_v6_body (joined l1 +:+ "::" +:+ joined l2) = Some (v6_value (l1 ++ replicate n 0 ++ l2)).
Proof.
  intros H1 H2 Hn Hl. unfold parse_v6_body. destruct l1 as [|g l1].
  - change (joined [] +:+ "::" +:+ joined l2) with (String ":" (String ":" (joined l2))).
    change (has_prefix "::" (String ":" (String ":" (joined l2)))) with true. cbv iota.
    change (drop_bytes 2 (String ":" (String ":" (joined l2)))) with (joined l2). rewrite (bool_decide_true (Some 0%nat = Some 0%nat)) by done.
    destruct l2 as [|g l2].
    + cbn [length] in Hl. assert (n = 8%nat) as -> by lia. done.
    + destruct (joined_head g l2 "" (Forall_inv H2)) as (c & r & E & Hc). rewrite str_app_nil in E.
      rewrite (bool_decide_false (joined (g :: l2) = "")) by (by rewrite E). cbn [andb]. rewrite v6_loop_groups by (done || (cbn in *; lia)).
      rewrite <- (finish_ellipsis [] (g :: l2) n) by (done || lia). done.
  - destruct (joined_head g l1 ("::" +:+ joined l2) (Forall_inv H1)) as (c & r & E & Hc).
    assert (has_prefix "::" (joined (g :: l1) +:+ "::" +:+ joined l2) = false) as -> by (rewrite E; by apply not_ellipsis).
    rewrite (bool_decide_false (None = Some 0%nat)) by done. cbn [andb].
    rewrite v6_loop_ellipsis by (done || (cbn in *; lia)). rewrite app_nil_r. cbn [length] in *. rewrite Nat.add_0_r.
    rewrite <- (finish_ellipsis (g :: l1) l2 n) by (done || (cbn; lia)). destruct l2 as [|g' l2]; [done|].
    destruct (joined_head g' l2 "" (Forall_inv H2)) as (c' & r' & E' & Hc'). rewrite str_app_nil in E'. rewrite E'. rewrite <- E'.
    by rewrite v6_loop_groups by (done || (cbn in *; lia)).
Qed.

Lemma v6_string_joined v : v6_string v =
  let '(s, l) := best_run (groups_of v) in
  if bool_decide (l = 0%nat) then joined (groups_of v)
  else joined (take s (groups_of v)) +:+ "::" +:+ joined (drop (s + l) (groups_of v)).
Proof. unfold v6_string, joined. destruct (best_run _) as [s l]. by rewrite fmap_take, fmap_drop. Qed.

Lemma joined_kind g gs s : group_ok g -> has_prefix ":" s = true -> addr_kind (joined (g :: gs) +:+ s) = Some false.
Proof.
  intros Hg Hs. rewrite joined_cons. destruct (hexs_text g Hg) as [Ht _].
  destruct gs; [rewrite hex_text_kind by done|by rewrite !str_app_assoc, hex_text_kind].
  destruct s as [|a s]; [done|]. cbn in Hs. apply andb_prop in Hs as [Ha%bool_decide_eq_true _]. by subst.
Qed.

Lemma ParseAddr_v6_string v : 0 <= v < 2 ^ 128 -> ParseAddr (v6_string v) = Some (A6 v "").
Proof.
  intros Hv. rewrite v6_string_joined. destruct (groups_of_ok v) as [Hok Hl]. pose proof (best_run_in _ Hl) as Hr.
  pose proof (groups_value v Hv) as Hval. destruct (best_run (groups_of v)) as [s l]. set (gs := groups_of v) in *. clearbody gs.
  assert (forall t, addr_kind t = Some false -> no_zone t -> parse_v6_body t = Some v -> ParseAddr t = Some (A6 v "")) as Hp.
  { intros t Hk Hz Hb. unfold ParseAddr, parse_v6. by rewrite Hk, Hz, Hb. }
  case_bool_decide as H0.
  - apply Hp; [|by apply joined_no_zone|by rewrite body_groups, Hval].
    destruct gs as [|g [|g' gs]]; [done..|]. pose proof (Forall_inv Hok) as Hg. rewrite joined_cons.
    destruct (hexs_text g Hg) as [Ht _]. by rewrite hex_text_kind.
  - destruct Hr as [Hr|(Hn & Hgs & Hs)]; [done|]. cbn [fst snd] in *.
    assert (Forall group_ok (take s gs) /\ Forall group_ok (drop (s + l) gs)) as [Hf1 Hf2]
      by (split; [by apply Forall_take|by apply Forall_drop]).
    apply Hp.
    + destruct (take s gs) as [|g l1] eqn:E; [done|]. apply joined_kind; [by apply Forall_inv in Hf1|done].
    + apply no_zone_app; [by apply joined_no_zone|]. apply no_zone_app; [done|by apply joined_no_zone].
    + rewrite (body_ellipsis _ _ l) by (done || lia || (rewrite length_take, length_drop; lia)). by rewrite <- Hgs, Hval.
Qed.

(** ** The range of parsed addresses *)

Lemma v4_scan_range s start val dig fields fs :
  v4_scan s start val dig fields = Some fs -> 0 <= val <= 255 -> Forall (fun o => 0 <= o <= 255) fields ->
  Forall (fun o => 0 <= o <= 255) fs.
Proof.
  revert start val dig fields. induction s as [|a s IH]; intros start val dig fields; cbn -[Z.mul].
  - case_bool_decide; [done|]. intros [= <-] Hv Hf. by constructor.
  - destruct (digit a) as [d|] eqn:Ed.
    + destruct (_ && _); [done|]. destruct (Z.ltb_spec 255 (val * 10 + d)); [done|]. intros H' Hv. apply (IH _ _ _ _ H').
      unfold digit in Ed. destruct (_ && _) eqn:E; [|done]. simplify_eq. bool_simpl. lia.
    + destruct (bool_decide _); [|done]. destruct (_ || _); [done|]. destruct (bool_decide _); [done|].
      intros H' Hv Hf. apply (IH _ _ _ _ H'); [lia|by constructor].
Qed.

Lemma parse_v4_bounds s v : parse_v4 s = Some v -> 0 <= v < 2 ^ 32.
Proof.
  unfold parse_v4. destruct (v4_scan s true 0 0 []) as [fs|] eqn:E; [|done]. intros [= <-].
  apply v4_scan_range in E; [|lia|constructor]. change (2 ^ 32) with 4294967296.
  destruct fs as [|d [|c [|b [|a [|? ?]]]]]; cbn -[Z.mul Z.pow]; try lia. rewrite !Forall_cons in E.
  change (2 ^ 24) with 16777216. change (2 ^ 16) with 65536. change (2 ^ 8) with 256. lia.
Qed.

Lemma hex_digit_range a d : hex_digit a = Some d -> 0 <= d < 16.
Proof.
  unfold hex_digit. destruct (_ && _) eqn:E1; [intros [= <-]; bool_simpl; lia|].
  destruct (_ && _) eqn:E2 in |- *; [intros [= <-]; bool_simpl; lia|]. destruct (_ && _) eqn:E3 in |- *; [|done].
  intros [= <-]. bool_simpl. lia.
Qed.

Lemma hex_run_range s off acc k x rest :
  hex_run s off acc = Some (k, x, rest) -> (off <= 4)%nat -> 0 <= acc < 16 ^ Z.of_nat off -> 0 <= x < 65536.
Proof.
  assert (forall n, (n <= 4)%nat -> 16 ^ Z.of_nat n <= 65536) as H4
    by (intros n Hn; change 65536 with (16 ^ 4); apply Z.pow_le_mono_r; lia).
  revert off acc. induction s as [|a s IH]; intros off acc; cbn -[Z.mul Z.pow].
  - intros [= <- <- <-] Ho Ha. specialize (H4 off Ho). lia.
  - destruct (hex_digit a) as [d|] eqn:Ed; [|intros [= <- <- <-] Ho Ha; specialize (H4 off Ho); lia].
    case_bool_decide; [done|]. intros H' Ho Ha. apply (IH _ _ H'); [lia|]. apply hex_digit_range in Ed.
    rewrite Nat2Z.inj_succ, Z.pow_succ_r by lia. lia.
Qed.

Lemma v6_loop_range f s gs ell gs' ell' rest :
  v6_loop f s gs ell = Some (gs', ell', rest) -> Forall group_ok gs -> (length gs + f <= 8)%nat ->
  Forall group_ok gs' /\ (length gs' <= 8)%nat.
Proof.
  revert s gs ell. induction f as [|f IH]; intros s gs ell H Hok Hl; cbn [v6_loop] in H; [simplify_eq; split; [done|lia]|].
  destruct (hex_run s 0 0) as [[[k x] r]|] eqn:Eh; [|done].
  assert (group_ok x) as Hx by (eapply (hex_run_range s 0 0); [done|lia|cbn; lia]).
  assert (Forall group_ok (x :: gs)) as Hok' by (by constructor).
  destruct k as [|k]; [done|]. destruct r as [|c r]; [simplify_eq; split; [done|cbn; lia]|].
  destruct (bool_decide (c = "."%char)).
  - destruct (_ && _); [done|]. case_bool_decide as H6; [done|]. destruct (parse_v4 s) as [v|] eqn:Ev; [|done]. simplify_eq.
    apply parse_v4_bounds in Ev. split; [|cbn; lia]. repeat constructor; try done; unfold group_ok;
      change (2 ^ 16) with 65536; change (2 ^ 32) with 4294967296 in Ev; Z.to_euclidean_division_equations; lia.
  - destruct (bool_decide (c = ":"%char)); [|done]. destruct r as [|c2 r2]; [done|].
    destruct (bool_decide (c2 = ":"%char)); [|by apply (IH _ _ _ H); [|cbn; lia]].
    destruct ell as [e|]; [done|]. destruct r2 as [|c3 r3]; [simplify_eq; split; [done|cbn; lia]|].
    by apply (IH _ _ _ H); [|cbn; lia].
Qed.

Lemma v6_value_range gs : Forall group_ok gs -> 0 <= v6_value gs < 2 ^ (16 * Z.of_nat (length gs)).
Proof.
  intros Hok. unfold v6_value. assert (forall n acc, 0 <= acc < 2 ^ (16 * n) -> 0 <= n ->
    0 <= foldl (fun acc g => acc * 2 ^ 16 + g) acc gs < 2 ^ (16 * (n + Z.of_nat (length gs)))) as H.
  { induction Hok as [|g gs Hg Hgs IH]; intros n acc Ha Hn; [cbn; by rewrite Z.add_0_r|]. cbn [foldl length].
    replace (n + Z.of_nat (S (length gs))) with ((n + 1) + Z.of_nat (length gs)) by lia. apply IH; [|lia].
    replace (16 * (n + 1)) with (16 * n + 16) by lia. rewrite Z.pow_add_r by lia. unfold group_ok in Hg.
    change (2 ^ 16) with 65536. nia. }
  specialize (H 0 0). rewrite Z.add_0_l in H. apply H; cbn; lia.
Qed.

Lemma parse_v6_body_range s v : parse_v6_body s = Some v -> 0 <= v < 2 ^ 128.
Proof.
  unfold parse_v6_body. destruct (if has_prefix "::" s then _ else _) as [s1 ell].
  destruct (_ && _); [intros [= <-]; lia|]. destruct (v6_loop 8 s1 [] ell) as [[[gs ell'] rest]|] eqn:E; [|done].
  destruct rest; [|done]. apply v6_loop_range in E as [Hok Hl]; [|constructor|cbn; lia]. unfold v6_finish.
  assert (forall l, Forall group_ok l -> length l = 8%nat -> 0 <= v6_value l < 2 ^ 128) as Hr
    by (intros l Hl' Hn; pose proof (v6_value_range l Hl') as H; by rewrite Hn in H).
  destruct (8 - length gs)%nat as [|n] eqn:En, ell' as [e|]; try done; intros [= <-]; apply Hr.
  - by apply Forall_rev.
  - rewrite length_rev. lia.
  - apply Forall_rev in Hok. apply Forall_app. split; [by apply Forall_take|]. constructor; [unfold group_ok; lia|].
    apply Forall_app. split; [apply Forall_replicate; unfold group_ok; lia|by apply Forall_drop].
  - cbn [replicate]. rewrite !length_app. cbn [length app]. rewrite length_app, length_replicate, length_take, length_drop, length_rev. lia.
Qed.

(** A parsed address prints as a text that parses to the same address, mapped
    addresses as IPv4. *)
Lemma ParseIP_string s a : ParseIP s = Some a -> ParseIP (ip_string a) = Some (unmap a).
Proof.
  unfold ParseIP. destruct (ParseAddr s) as [b|] eqn:E; [|done]. cbn. case_bool_decide as Hz; [|done]. intros [= <-].
  unfold ParseAddr in E. destruct (addr_kind s) as [[|]|]; [| |done].
  - destruct (parse_v4 s) as [v|] eqn:Ev; [|done]. cbn in E. simplify_eq. apply parse_v4_bounds in Ev.
    change (ip_string (A4 v)) with (v4_string v). by rewrite ParseAddr_v4_string.
  - assert (exists v, b = A6 v "" /\ 0 <= v < 2 ^ 128) as (v & -> & Hv).
    { unfold parse_v6 in E. destruct (split_zone s) as [body [[|z0 z]|]]; [done| |];
        destruct (parse_v6_body body) as [v|] eqn:Ev; try done; cbn in E; simplify_eq; cbn in Hz; try done.
      exists v. split; [done|]. by eapply parse_v6_body_range. }
    unfold ip_string, To4, unmap. destruct (is4in6 (A6 v "")) eqn:E4.
    + rewrite ParseAddr_v4_string; [done|]. apply Z.mod_pos_bound. lia.
    + cbn [addr_string]. rewrite E4. change (zone_suffix "") with "". rewrite str_app_nil.
      by rewrite ParseAddr_v6_string.
Qed.

(** The normal form of an address text. *)
Definition normal (s : string) : option string := ip_string <$> ParseIP s.

Lemma To4_unmap a : To4 (unmap a) = To4 a.
Proof. unfold To4. destruct a as [v|v z]; [done|]. cbn. destruct (_ =? _) eqn:E; [done|]. cbn. by rewrite E. Qed.

Lemma unmap_unmap a : unmap (unmap a) = unmap a.
Proof. destruct a as [v|v z]; [done|]. cbn. destruct (_ =? _) eqn:E; [done|]. cbn. by rewrite E. Qed.

Lemma ip_string_unmap a : ip_string (unmap a) = ip_string a.
Proof.
  unfold ip_string. rewrite To4_unmap. destruct (To4 a) eqn:E; [done|]. unfold To4 in E. destruct a as [v|v z]; [done|].
  unfold unmap in *. by destruct (is4in6 _).
Qed.

Lemma net_contains_unmap n a : net_contains n (unmap a) = net_contains n a.
Proof. unfold net_contains. by rewrite unmap_unmap. Qed.

Lemma normal_normal s x : normal s = Some x -> normal x = Some x.
Proof.
  unfold normal. destruct (ParseIP s) as [a|] eqn:E; [|done]. cbn. intros [= <-]. rewrite (ParseIP_string s a E). cbn.
  by rewrite ip_string_unmap.
Qed.
