(* ===== verification/Protection.v ===== *)
(** * Addresses that must not be banned

    The networks the program never bans ([internal/security/protected]): a
    fixed list, the addresses of this host and ranges of the operator; and the
    view of the CrowdSec allowlist that the enforcement loops test addresses
    against ([internal/app/runtime_helpers.go]). *)

From S2P Require Import Prelude Netip NetipText CrowdSec.
Import Netip CrowdSec.Client.

Local Open Scope Z_scope.

(** ** Protected addresses *)
Module Shield.

Definition staticCIDRs : list string :=
  ["10.0.0.0/8"; "172.16.0.0/12"; "192.168.0.0/16"; "127.0.0.0/8"; "::1/128"; "169.254.0.0/16"; "fe80::/10"; "100.64.0.0/10";
   "173.245.48.0/20"; "103.21.244.0/22"; "103.22.200.0/22"; "103.31.4.0/22"; "141.101.64.0/18"; "108.162.192.0/18";
   "190.93.240.0/20"; "188.114.96.0/20"; "197.234.240.0/22"; "198.41.128.0/17"; "162.158.0.0/15"; "104.16.0.0/13";
   "104.24.0.0/14"; "172.64.0.0/13"; "131.0.72.0/22"; "2400:cb00::/32"; "2606:4700::/32"; "2803:f800::/32"; "2405:b500::/32";
   "2405:8100::/32"; "2a06:98c0::/29"; "2c0f:f248::/32"].

(** What [ip -j addr] prints: it fails, prints something else, or lists the
    local addresses of every interface. *)
Record ipJAddrEntry := { AddrInfo : list string }.
Inductive ip_addr_output := IpFails | IpNotJSON | IpEntries (l : list ipJAddrEntry).

(** The addresses of [net.InterfaceAddrs]. *)
Inductive interface_addr := IPNetAddr (n : addr * Z) | IPAddrAddr (a : addr) | OtherAddr.

Record Shield := { networks : list (addr * Z) }.

Definition add_network (n : addr * Z) (s : Shield) : Shield := {| networks := networks s ++ [n] |}.

Definition add_cidr (s : Shield) (cidr : string) : Shield :=
  match ParseCIDR cidr with Some n => add_network n s | None => s end.

(** The route to one host. *)
Definition host_route (a : addr) : addr * Z := match To4 a with Some v => (A4 v, 32) | None => (a, 128) end.

Definition add_local (s : Shield) (local : string) : Shield :=
  if bool_decide (local = "") then s
  else match ParseIP local with Some a => add_network (host_route a) s | None => s end.

Definition add_entry (s : Shield) (iface : ipJAddrEntry) : Shield := foldl add_local s (AddrInfo iface).

Definition add_interface (s : Shield) (a : interface_addr) : Shield :=
  match a with
  | IPNetAddr n => add_network n s
  | IPAddrAddr a => add_network (host_route a) s
  | OtherAddr => s
  end.

(** [addrs] is [None] when [net.InterfaceAddrs] fails. *)
Definition addOwnIPs (raw : ip_addr_output) (addrs : option (list interface_addr)) (s : Shield) : Shield :=
  match raw with
  | IpEntries l => foldl add_entry s l
  | IpFails | IpNotJSON => match addrs with None => s | Some l => foldl add_interface s l end
  end.

Definition newWithRunner (raw : ip_addr_output) (addrs : option (list interface_addr)) : Shield :=
  addOwnIPs raw addrs (foldl add_cidr {| networks := [] |} staticCIDRs).

Definition NewWithExtraRanges (raw : ip_addr_output) (addrs : option (list interface_addr)) (extras : list string) : Shield :=
  foldl add_cidr (newWithRunner raw addrs) extras.

Definition IsProtected (s : option Shield) (ipStr : string) : bool :=
  match s with
  | None => false
  | Some s =>
      match ParseIP ipStr with
      | None => false
      | Some ip => existsb (fun n => net_contains n ip) (networks s)
      end
  end.

Definition NetworkCount (s : option Shield) : Z := match s with None => 0 | Some s => Z.of_nat (length (networks s)) end.

(** *** The networks of a shield *)

Lemma add_cidrs_in s l n : n ∈ networks (foldl add_cidr s l) <-> n ∈ networks s \/ exists c, c ∈ l /\ ParseCIDR c = Some n.
Proof.
  revert s. induction l as [|c l IH]; intros s; cbn [foldl]; [set_solver|]. rewrite IH. unfold add_cidr at 1.
  destruct (ParseCIDR c) as [m|] eqn:E; cbn; [rewrite elem_of_app, list_elem_of_singleton|]; set_solver.
Qed.

Lemma add_locals_in s l n :
  n ∈ networks (foldl add_local s l) <->
  n ∈ networks s \/ exists t a, t ∈ l /\ t <> "" /\ ParseIP t = Some a /\ n = host_route a.
Proof.
  revert s. induction l as [|t l IH]; intros s; cbn [foldl]; [set_solver|]. rewrite IH. unfold add_local at 1.
  case_bool_decide; [set_solver|]. destruct (ParseIP t) as [a|] eqn:E; cbn; [rewrite elem_of_app, list_elem_of_singleton|]; set_solver.
Qed.

Lemma add_entries_in s l n :
  n ∈ networks (foldl add_entry s l) <->
  n ∈ networks s \/ exists i t a, i ∈ l /\ t ∈ AddrInfo i /\ t <> "" /\ ParseIP t = Some a /\ n = host_route a.
Proof.
  revert s. induction l as [|i l IH]; intros s; cbn [foldl]; [set_solver|]. rewrite IH. unfold add_entry. rewrite add_locals_in. set_solver.
Qed.

Lemma add_interfaces_in s l n :
  n ∈ networks s -> n ∈ networks (foldl add_interface s l).
Proof. revert s. induction l as [|[m|a|] l IH]; intros s H; cbn [foldl]; [done|apply IH; cbn; set_solver..|by apply IH]. Qed.

Lemma static_in raw addrs n c :
  c ∈ staticCIDRs -> ParseCIDR c = Some n -> n ∈ networks (newWithRunner raw addrs).
Proof.
  intros Hc Hn. unfold newWithRunner, addOwnIPs.
  assert (n ∈ networks (foldl add_cidr {| networks := [] |} staticCIDRs)) as Hs by (apply add_cidrs_in; right; by eauto).
  destruct raw; [destruct addrs; [by apply add_interfaces_in|done]..|]. apply add_entries_in. by left.
Qed.

Lemma IsProtected_true s t :
  IsProtected (Some s) t = true <-> exists a n, ParseIP t = Some a /\ n ∈ networks s /\ net_contains n a = true.
Proof.
  unfold IsProtected. destruct (ParseIP t) as [a|]; [|naive_solver]. rewrite List.existsb_exists. setoid_rewrite list_elem_of_In. naive_solver.
Qed.

Lemma host_route_contains a b : unmap b = unmap a -> zone_of a = "" -> net_contains (host_route a) b = true.
Proof.
  intros Hb Hz. unfold net_contains. rewrite Hb. unfold host_route, net_norm.
  assert (forall x w, zone_of x = "" -> bit_len x = w -> Contains (Prefix x w) x = true) as Hc.
  { intros x w Hx <-. unfold Contains. cbn [p_ip p_bits]. rewrite bool_decide_true by done. rewrite Z.eqb_refl, Z.lxor_nilpotent. cbn [andb].
    by rewrite Z.shiftr_0_l. }
  destruct (To4 a) as [v|] eqn:E; cbn [fst snd].
  - unfold To4 in E. destruct (unmap a) as [v'|]; [|done]. simplify_eq. change (To4 (A4 v)) with (Some v). cbn [fst snd]. by apply Hc.
  - rewrite E. cbn [fst snd]. unfold To4 in E. destruct a as [v|v z]; [done|]. unfold unmap in E |- *. destruct (is4in6 (A6 v z)); [done|]. by apply Hc.
Qed.

(** *** What is protected *)

(** The networks around an address: the fixed list, this host, the operator. *)
Definition own_address (raw : ip_addr_output) (addrs : option (list interface_addr)) (a : addr) : Prop :=
  match raw with
  | IpEntries l => exists i t b, i ∈ l /\ t ∈ AddrInfo i /\ ParseIP t = Some b /\ unmap b = unmap a
  | IpFails | IpNotJSON => exists l, addrs = Some l /\
      ((exists n, IPNetAddr n ∈ l /\ net_contains n a = true) \/
       (exists b, IPAddrAddr b ∈ l /\ zone_of b = "" /\ unmap b = unmap a))
  end.

Definition in_range (ranges : list string) (a : addr) : Prop :=
  exists c n, c ∈ ranges /\ ParseCIDR c = Some n /\ net_contains n a = true.

Lemma ParseIP_zone t a : ParseIP t = Some a -> zone_of a = "".
Proof. unfold ParseIP. destruct (ParseAddr t) as [b|]; [|done]. cbn. case_bool_decide; [|done]. by intros [= <-]. Qed.

Lemma ParseIP_empty : ParseIP "" = None. Proof. done. Qed.

Lemma interface_in s l a n :
  a ∈ l -> (a = IPNetAddr n \/ exists b, a = IPAddrAddr b /\ n = host_route b) -> n ∈ networks (foldl add_interface s l).
Proof.
  intros Ha Hn. revert s. induction l as [|x l IH]; intros s; [by apply not_elem_of_nil in Ha|]. cbn [foldl].
  apply elem_of_cons in Ha as [<-|Ha]; [|by apply IH]. apply add_interfaces_in.
  destruct Hn as [->|(b & -> & ->)]; cbn; apply elem_of_app; right; by left.
Qed.

(** C26: What the shield protects.  Whatever its spelling, an address of the
    fixed ranges, of this host, or of a range of the operator that parses is
    protected; the address of the host is found by the first way of asking
    that answers. *)
Theorem shield_covers raw addrs extras t a :
  ParseIP t = Some a -> in_range staticCIDRs a \/ own_address raw addrs a \/ in_range extras a ->
  IsProtected (Some (NewWithExtraRanges raw addrs extras)) t = true.
Proof.
  intros Ht H. apply IsProtected_true. exists a. unfold NewWithExtraRanges. setoid_rewrite add_cidrs_in.
  destruct H as [(c & n & Hc & Hn & Hin)|[H|(c & n & Hc & Hn & Hin)]].
  - exists n. split; [done|]. split; [left; by eapply static_in|done].
  - unfold newWithRunner, addOwnIPs. unfold own_address in H.
    assert (forall l, addrs = Some l ->
      (exists n, IPNetAddr n ∈ l /\ net_contains n a = true) \/ (exists b, IPAddrAddr b ∈ l /\ zone_of b = "" /\ unmap b = unmap a) ->
      exists n, n ∈ networks (foldl add_interface (foldl add_cidr {| networks := [] |} staticCIDRs) l) /\ net_contains n a = true) as Hfb.
    { intros l _ [(n & Hl & Hn)|(b & Hl & Hz & Hb)].
      - exists n. split; [eapply interface_in; [exact Hl|by left]|done].
      - exists (host_route b). split; [eapply interface_in; [exact Hl|right; by eauto]|by apply host_route_contains]. }
    destruct raw as [| |l].
    + destruct H as (l & -> & H). destruct (Hfb l eq_refl H) as (n & ? & ?). exists n. auto.
    + destruct H as (l & -> & H). destruct (Hfb l eq_refl H) as (n & ? & ?). exists n. auto.
    + destruct H as (i & t' & b & Hi & Ht' & Hb & Hu). exists (host_route b). split; [done|]. split.
      * left. apply add_entries_in. right. exists i, t', b. split_and!; try done. intros ->. by rewrite ParseIP_empty in Hb.
      * apply host_route_contains; [done|by eapply ParseIP_zone].
  - exists n. split; [done|]. split; [right; by eauto|done].
Qed.

Lemma shield_covers_witness :
  IsProtected (Some (NewWithExtraRanges (IpEntries [{| AddrInfo := ["127.0.0.1"; "203.0.113.10"] |}]) None [])) "::ffff:203.0.113.10" = true.
Proof.
  eapply (shield_covers (IpEntries [{| AddrInfo := ["127.0.0.1"; "203.0.113.10"] |}])); [vm_compute; reflexivity|]. right. left.
  exists {| AddrInfo := ["127.0.0.1"; "203.0.113.10"] |}, "203.0.113.10". eexists.
  split; [by left|]. split; [by right; left|]. split; [vm_compute; reflexivity|vm_compute; reflexivity].
Defined.

End Shield.

(** ** The CrowdSec allowlist *)
Module Allowlist.

Record allowlistSet := { ips : gset string; nets : list (addr * Z) }.

Definition add_allowed (s : allowlistSet) (e : AllowlistEntry) : allowlistSet :=
  match ParseIP (al_Value e) with
  | Some ip => {| ips := {[ip_string ip]} ∪ ips s; nets := nets s |}
  | None => match ParseCIDR (al_Value e) with
            | Some n => {| ips := ips s; nets := nets s ++ [n] |}
            | None => s
            end
  end.

Definition newAllowlistSet (entries : list AllowlistEntry) : allowlistSet := foldl add_allowed {| ips := ∅; nets := [] |} entries.

Definition contains (s : option allowlistSet) (ipStr : string) : bool :=
  match s with
  | None => false
  | Some s =>
      match ParseIP ipStr with
      | None => false
      | Some ip => bool_decide (ip_string ip ∈ ips s) || existsb (fun n => net_contains n ip) (nets s)
      end
  end.

Definition asMap (s : option allowlistSet) : option (gset string) := ips <$> s.

(** An entry allows an address: it is the address, or a network around it. *)
Definition allows (e : AllowlistEntry) (ip : addr) : Prop :=
  match ParseIP (al_Value e) with
  | Some a => ip_string a = ip_string ip
  | None => exists n, ParseCIDR (al_Value e) = Some n /\ net_contains n ip = true
  end.

Lemma newAllowlistSet_in entries s0 :
  let s := foldl add_allowed s0 entries in
  (forall x, x ∈ ips s <-> x ∈ ips s0 \/ exists e a, e ∈ entries /\ ParseIP (al_Value e) = Some a /\ x = ip_string a) /\
  (forall n, n ∈ nets s <-> n ∈ nets s0 \/ exists e, e ∈ entries /\ ParseIP (al_Value e) = None /\ ParseCIDR (al_Value e) = Some n).
Proof.
  cbn zeta. revert s0. induction entries as [|e entries IH]; intros s0; cbn [foldl]; [split; set_solver|].
  destruct (IH (add_allowed s0 e)) as [H1 H2]. unfold add_allowed in *. destruct (ParseIP (al_Value e)) as [a|] eqn:Ea.
  - split; [intros x; rewrite H1; cbn [ips]; rewrite elem_of_union, elem_of_singleton|intros n; rewrite H2; cbn [nets]]; set_solver.
  - destruct (ParseCIDR (al_Value e)) as [n|] eqn:En.
    + split; [intros x; rewrite H1; cbn [ips]; set_solver|intros m; rewrite H2; cbn [nets]]. rewrite elem_of_app, list_elem_of_singleton. set_solver.
    + split; [intros x; rewrite H1; set_solver|intros m; rewrite H2; set_solver].
Qed.

(** An address text is contained when some entry allows the address. *)
Lemma contains_spec entries t a :
  ParseIP t = Some a -> (contains (Some (newAllowlistSet entries)) t = true <-> exists e, e ∈ entries /\ allows e a).
Proof.
  intros Ha. unfold contains. rewrite Ha, orb_true_iff, bool_decide_eq_true, List.existsb_exists. setoid_rewrite <- list_elem_of_In.
  destruct (newAllowlistSet_in entries {| ips := ∅; nets := [] |}) as [H1 H2]. fold (newAllowlistSet entries) in *.
  rewrite H1. setoid_rewrite H2. cbn [ips nets]. unfold allows. split.
  - intros [[?|(e & b & He & Hb & Hx)]|(n & [?|(e & He & Hb & Hn)] & Hc)]; [set_solver| |set_solver|].
    + exists e. by rewrite Hb.
    + exists e. rewrite Hb. by eauto.
  - intros (e & He & H). destruct (ParseIP (al_Value e)) as [b|] eqn:Eb; [left; right; by eauto|].
    destruct H as (n & Hn & Hc). right. exists n. split; [right; by eauto|done].
Qed.

End Allowlist.
