(* ===== verification/SyncApp.v ===== *)
(** * The synchronisation of CrowdSec bans to Cloudflare

    [internal/app/crowdsec_sync_runtime.go] and [runtime_helpers.go]: the plan
    of a pass and its execution, the shadow pass that only records what it
    would do, the state file of the web server ([internal/openresty/state]),
    the services of a tick and the removal of stale rules.  The clients
    are the interfaces of [Enforcement]; [cancel n] says that the context ends
    during the pause after the [n]-th change. *)

From S2P Require Import Prelude Netip GoFmt NetipText Protection Cloudflare Transport CrowdSec Enforcement Shadow Recidive CidrBan.
Import Netip Normalize Transport CrowdSec.Client.

Local Open Scope Z_scope.

(** ** The state file of the web server *)
Module Lua.

Record BanEntry := { Score : Z; Level : Z; TTL : Z; Reason : string }.

(** [UpdatedAt] is the instant; the writer of the file is the constant of the
    field [Meta]. *)
Record Payload := {
  Version : Z; UpdatedAt : Z; UpdatedAtEpoch : Z; EntryCount : Z; WriterPID : Z; WriterHostname : string;
  Bans : gmap string BanEntry; CIDRs : gmap string BanEntry; PayloadCRC32 : Z;
}.

Record Config := { Path : string; ShadowPath : string; ShadowMode : bool; Hostname : string; PID : Z }.

Record Writer := { cfg : Config; version : Z }.

Definition New (c : Config) : Writer := {| cfg := c; version := 0 |}.

Definition ban_entry : BanEntry := {| Score := 70; Level := 5; TTL := 3600; Reason := "crowdsec-ban" |}.
Definition cidr_entry : BanEntry := {| Score := 100; Level := 5; TTL := 86400; Reason := "crowdsec-cidr" |}.

Definition add_ban (filter : option (string -> bool)) (m : gmap string BanEntry) (ip : string) : gmap string BanEntry :=
  if match filter with Some f => f ip | None => false end then m else <[ip := ban_entry]> m.

Definition add_cidr (m : gmap string BanEntry) (cidr : string) : gmap string BanEntry := <[cidr := cidr_entry]> m.

Definition targetPath (c : Config) : string := if ShadowMode c then ShadowPath c else Path c.

Section write.
(** The checksum of the encoded payload. *)
Variable checksum : Payload -> Z.

Definition with_crc (c : Z) (p : Payload) : Payload :=
  {| Version := Version p; UpdatedAt := UpdatedAt p; UpdatedAtEpoch := UpdatedAtEpoch p; EntryCount := EntryCount p;
     WriterPID := WriterPID p; WriterHostname := WriterHostname p; Bans := Bans p; CIDRs := CIDRs p; PayloadCRC32 := c |}.

Definition payload (now : Z) (bans cidrs : list string) (filter : option (string -> bool)) (w : Writer) : Payload :=
  let banMap := foldl (add_ban filter) ∅ bans in
  let cidrMap := foldl add_cidr ∅ cidrs in
  let p := {| Version := version w; UpdatedAt := now; UpdatedAtEpoch := now / second;
              EntryCount := Z.of_nat (size banMap) + Z.of_nat (size cidrMap);
              WriterPID := PID (cfg w); WriterHostname := Hostname (cfg w); Bans := banMap; CIDRs := cidrMap;
              PayloadCRC32 := 0 |} in
  with_crc (checksum p) p.

(** A temporary file renamed over the target: [io] is the error of the first
    step that fails, and then the target is as it was. *)
Definition atomicWrite (io : option string) (path : string) (p : Payload) (files : gmap string Payload)
  : gmap string Payload * result unit :=
  match io with
  | Some e => (files, Err ("openresty/state: " +:+ e))
  | None => (<[path := p]> files, Ok tt)
  end.

Definition Write (now : Z) (io : option string) (bans cidrs : list string) (filter : option (string -> bool))
    (w : Writer) (files : gmap string Payload) : Writer * gmap string Payload * result unit :=
  if bool_decide (targetPath (cfg w) = "") then (w, files, Ok tt)
  else
    let w := {| cfg := cfg w; version := version w + 1 |} in
    let '(files, r) := atomicWrite io (targetPath (cfg w)) (payload now bans cidrs filter w) files in
    (w, files, r).
End write.

Lemma add_bans_lookup filter l m ip :
  foldl (add_ban filter) m l !! ip =
  if bool_decide (ip ∈ l) && negb (match filter with Some f => f ip | None => false end) then Some ban_entry else m !! ip.
Proof.
  revert m. induction l as [|x l IH]; intros m; cbn [foldl]; [done|]. rewrite IH. unfold add_ban.
  destruct (decide (ip = x)) as [->|Hn].
  - rewrite (bool_decide_true (x ∈ x :: l)) by set_solver.
    destruct (match filter with Some f => f x | None => false end) eqn:Ef; cbn [negb andb];
      [by rewrite andb_false_r|by case_bool_decide; rewrite ?lookup_insert_eq].
  - rewrite (bool_decide_ext (ip ∈ x :: l) (ip ∈ l)) by set_solver.
    destruct (_ && _); [done|]. destruct (match filter with Some f => f x | None => false end); [done|by rewrite lookup_insert_ne].
Qed.

Lemma add_cidrs_lookup l m c : foldl add_cidr m l !! c = if bool_decide (c ∈ l) then Some cidr_entry else m !! c.
Proof.
  revert m. induction l as [|x l IH]; intros m; cbn [foldl]; [done|]. rewrite IH. unfold add_cidr.
  destruct (decide (c = x)) as [->|Hn].
  - rewrite (bool_decide_true (x ∈ x :: l)) by set_solver. by case_bool_decide; rewrite ?lookup_insert_eq.
  - rewrite (bool_decide_ext (c ∈ x :: l) (c ∈ l)) by set_solver. case_bool_decide; [done|by rewrite lookup_insert_ne].
Qed.

End Lua.

(** ** The rules of a tag *)
Module Tagged.

Definition has_tag (tag : string) (r : IPAccessRule) : bool :=
  bool_decide (ar_Notes r = tag) && negb (bool_decide (rc_Value (ar_Configuration r) = "")).

Lemma tag_step_eq tag m r : tag_step tag m r = if has_tag tag r then <[rule_value r := ar_ID r]> m else m.
Proof. unfold tag_step, has_tag. by do 2 case_bool_decide. Qed.

(** Identifiers are unique in the zone, and values among the rules of the tag. *)
Definition distinct (tag : string) (rules : list IPAccessRule) : Prop :=
  NoDup (ar_ID <$> rules) /\ NoDup (rule_value <$> List.filter (has_tag tag) rules).

Lemma tagged_snoc tag rules r : tagged tag (rules ++ [r]) = tag_step tag (tagged tag rules) r.
Proof. unfold tagged. by rewrite foldl_app. Qed.

Lemma tagged_in tag rules v id :
  tagged tag rules !! v = Some id -> exists r, r ∈ rules /\ has_tag tag r = true /\ rule_value r = v /\ ar_ID r = id.
Proof.
  induction rules as [|r rules IH] using rev_ind; [done|]. rewrite tagged_snoc, tag_step_eq.
  destruct (has_tag tag r) eqn:Et.
  - destruct (decide (rule_value r = v)) as [<-|Hn].
    + rewrite lookup_insert_eq. intros [= <-]. exists r. split; [apply elem_of_app; right; by left|done].
    + rewrite lookup_insert_ne by done. intros (r' & Hr' & H)%IH. exists r'. split; [apply elem_of_app; by left|done].
  - intros (r' & Hr' & H)%IH. exists r'. split; [apply elem_of_app; by left|done].
Qed.

Lemma tagged_dom tag rules v :
  v ∈ dom (tagged tag rules) <-> exists r, r ∈ rules /\ has_tag tag r = true /\ rule_value r = v.
Proof.
  rewrite elem_of_dom. split; [intros [id (r & ? & ? & ? & ?)%tagged_in]; by eauto|].
  induction rules as [|r rules IH] using rev_ind; [intros (r & Hr & _); by apply not_elem_of_nil in Hr|].
  rewrite tagged_snoc, tag_step_eq. intros (r' & [Hr'|Hr']%elem_of_app & Ht & Hv).
  - destruct (IH ltac:(by eauto)) as [id Hid]. destruct (has_tag tag r); [|by eauto].
    destruct (decide (rule_value r = v)) as [->|]; [rewrite lookup_insert_eq; by eauto|rewrite lookup_insert_ne; by eauto].
  - apply list_elem_of_singleton in Hr' as ->. rewrite Ht, <- Hv, lookup_insert_eq. by eauto.
Qed.

Lemma tagged_id tag rules r :
  distinct tag rules -> r ∈ rules -> has_tag tag r = true -> tagged tag rules !! rule_value r = Some (ar_ID r).
Proof.
  intros [_ Hd] Hr Ht. assert (rule_value r ∈ dom (tagged tag rules)) as [id Hid]%elem_of_dom by (apply tagged_dom; by eauto).
  rewrite Hid. apply tagged_in in Hid as (r' & Hr' & Ht' & Hv & <-). f_equal. f_equal.
  eapply (NoDup_fmap_eq rule_value (List.filter (has_tag tag) rules)); [done|by apply elem_of_lfilter..|done].
Qed.

End Tagged.

(** ** The daemon *)
Module SyncApp.
Import Shadow.Cycle Shadow.Log Shield Allowlist Lua Tagged.

Definition NOTE_TAG : string := "crowdsec-local-ban".

(** What the daemon uses of CrowdSec besides the allowlist. *)
Class BanSource (X : Type) := {
  bs_ListActiveBans : X -> X * result (list string);
  bs_ListRecentBans : Z -> X -> X * result (list RecentBan);
}.
Class RangeDecisionAdder (X : Type) := bs_AddRangeDecision : string -> string -> string -> X -> X * result unit.

#[export] Instance client_bans {R} `{Cscli R} : BanSource (Client (R := R)) := {|
  bs_ListActiveBans := ListActiveBans;
  bs_ListRecentBans now c := (c, match ListRecentBans now c with (_, Some e) => Err e | (l, None) => Ok l end);
|}.
#[export] Instance client_ranges {R} `{Cscli R} : RangeDecisionAdder (Client (R := R)) := AddRangeDecision.
#[export] Instance client_decisions {R} `{Cscli R} : Recidive.DecisionAdder (Client (R := R)) := AddIPDecision.

(** The requests that change Cloudflare, with their outcome. *)
Inductive call := CAdd (ip : string) (ok : bool) | CDelete (ip id : string) (ok : bool).
Definition call_ok (k : call) : bool := match k with CAdd _ ok => ok | CDelete _ _ ok => ok end.

(** The three files of a shadow pass, with the cycles they are made of. *)
Inductive shadow_report :=
| WriteReport (path : string) (cycles : list Cycle)
| WriteDriftAnalysis (cycles : list Cycle) (allowlist : option (gset string))
| WriteParityReport (cycles : list Cycle) (allowlist : option (gset string)).

Section app.
Context {C X : Type} `{!EnforcementClient C} `{!AllowlistClient X} `{!BanSource X} `{!RangeDecisionAdder X}
  {DA : Recidive.DecisionAdder X}.
(** Which records are longer than a line of the shadow log can be, and the
    checksum of the state file. *)
Variable oversized : Cycle -> bool.
Variable checksum : Payload -> Z.

(** [calls] is the trace of the requests, [reports] that of the reports. *)
Record CrowdSecSyncApp := {
  cf : C; cs : X; csAllowlist : bool; AllowlistName : string; ZoneID : string; shield : option Shield;
  shadowMode : bool; shadowStore : log; shadowReport : string; reports : list shadow_report;
  luaWriter : option Writer; files : gmap string Payload;
  cidr : CidrBan.World; recidiv : Recidive.World (X := unit); calls : list call;
}.

Definition set_cf (c : C) (ks : list call) (a : CrowdSecSyncApp) : CrowdSecSyncApp :=
  {| cf := c; cs := cs a; csAllowlist := csAllowlist a; AllowlistName := AllowlistName a; ZoneID := ZoneID a; shield := shield a;
     shadowMode := shadowMode a; shadowStore := shadowStore a; shadowReport := shadowReport a; reports := reports a;
     luaWriter := luaWriter a; files := files a; cidr := cidr a; recidiv := recidiv a; calls := calls a ++ ks |}.
Definition set_cs (x : X) (a : CrowdSecSyncApp) : CrowdSecSyncApp :=
  {| cf := cf a; cs := x; csAllowlist := csAllowlist a; AllowlistName := AllowlistName a; ZoneID := ZoneID a; shield := shield a;
     shadowMode := shadowMode a; shadowStore := shadowStore a; shadowReport := shadowReport a; reports := reports a;
     luaWriter := luaWriter a; files := files a; cidr := cidr a; recidiv := recidiv a; calls := calls a |}.
Definition set_shadow (l : log) (rs : list shadow_report) (a : CrowdSecSyncApp) : CrowdSecSyncApp :=
  {| cf := cf a; cs := cs a; csAllowlist := csAllowlist a; AllowlistName := AllowlistName a; ZoneID := ZoneID a; shield := shield a;
     shadowMode := shadowMode a; shadowStore := l; shadowReport := shadowReport a; reports := reports a ++ rs;
     luaWriter := luaWriter a; files := files a; cidr := cidr a; recidiv := recidiv a; calls := calls a |}.
Definition set_lua (w : Writer) (f : gmap string Payload) (a : CrowdSecSyncApp) : CrowdSecSyncApp :=
  {| cf := cf a; cs := cs a; csAllowlist := csAllowlist a; AllowlistName := AllowlistName a; ZoneID := ZoneID a; shield := shield a;
     shadowMode := shadowMode a; shadowStore := shadowStore a; shadowReport := shadowReport a; reports := reports a;
     luaWriter := Some w; files := f; cidr := cidr a; recidiv := recidiv a; calls := calls a |}.

(** [None] when there is no list, and when the list cannot be read. *)
Definition fetchAllowlist (a : CrowdSecSyncApp) : CrowdSecSyncApp * option allowlistSet :=
  if csAllowlist a then
    let '(x, r) := xs_List (AllowlistName a) (cs a) in
    (set_cs x a, match r with Ok entries => Some (newAllowlistSet entries) | Err _ => None end)
  else (a, None).

Definition ban_step (s : option Shield) (allowlist : option allowlistSet) (banSet : gset string) (ip : string) : gset string :=
  match ParseIP ip with
  | None => banSet
  | Some parsed =>
      let norm := ip_string parsed in
      if IsProtected s norm then banSet
      else if contains allowlist norm then banSet
      else {[norm]} ∪ banSet
  end.

Definition buildSyncPlan (activeBans : list string) (cfRules : gmap string string) (a : CrowdSecSyncApp)
  : CrowdSecSyncApp * SyncPlan :=
  let '(a, allowlist) := fetchAllowlist a in
  let banSet := foldl (ban_step (shield a) allowlist) ∅ activeBans in
  let cfSet := dom cfRules in
  (a, {| ActiveBans := banSet; CFRules := cfSet; ToAdd := elements (banSet ∖ cfSet); ToDelete := elements (cfSet ∖ banSet) |}).

(** The clocks: [clk] of the pass, [clk n] at its [n]-th request. *)
Definition canceled : string := "context canceled".

Fixpoint add_loop (clk : nat -> Z) (cancel : nat -> bool) (k : nat) (l : list string) (a : CrowdSecSyncApp)
  : CrowdSecSyncApp * nat * option string :=
  match l with
  | [] => (a, k, None)
  | ip :: l =>
      let '(c, r) := ec_Add (clk (length (calls a))) (ZoneID a) ip NOTE_TAG "ip" "block" (cf a) in
      let a := set_cf c [CAdd ip (is_ok r)] a in
      match r with
      | Err _ => add_loop clk cancel k l a
      | Ok _ => if cancel k then (a, S k, Some canceled) else add_loop clk cancel (S k) l a
      end
  end.

Fixpoint delete_loop (clk : nat -> Z) (cancel : nat -> bool) (rules : gmap string string) (k : nat) (l : list string)
    (a : CrowdSecSyncApp) : CrowdSecSyncApp * nat * option string :=
  match l with
  | [] => (a, k, None)
  | ip :: l =>
      let id := default "" (rules !! ip) in
      let '(c, r) := ec_Delete (clk (length (calls a))) (ZoneID a) id (cf a) in
      let a := set_cf c [CDelete ip id (is_ok r)] a in
      match r with
      | Err _ => delete_loop clk cancel rules k l a
      | Ok _ => if cancel k then (a, S k, Some canceled) else delete_loop clk cancel rules (S k) l a
      end
  end.

(** [now] are the instants of the record, of the pruning and of the reading. *)
Definition recordShadowCycle (now : nat -> Z) (plan : SyncPlan) (a : CrowdSecSyncApp) : CrowdSecSyncApp :=
  let cycle := Compare plan (now 0%nat) in
  let l := (Append oversized cycle (shadowStore a)).1 in
  let l := (Prune oversized (t_add (now 1%nat) (- (30 * 24 * hour))) l).1 in
  let a := set_shadow l [] a in
  if bool_decide (shadowReport a = "") then a
  else match ReadSince (t_add (now 2%nat) (- (7 * 24 * hour))) l with
       | Err _ | Ok [] => a
       | Ok cycles =>
           let '(a, allowlist) := fetchAllowlist a in
           set_shadow l [WriteReport (shadowReport a) cycles; WriteDriftAnalysis cycles (asMap allowlist);
                         WriteParityReport cycles (asMap allowlist)] a
       end.

Definition syncCloudflare (clk : nat -> Z) (cancel : nat -> bool) (a : CrowdSecSyncApp) : CrowdSecSyncApp * result unit :=
  let '(x, r) := bs_ListActiveBans (cs a) in
  let a := set_cs x a in
  match r with
  | Err e => (a, Err ("syncCloudflare: ListActiveBans: " +:+ e))
  | Ok activeBans =>
      let '(c, r) := ec_ListByTag (clk (length (calls a))) (ZoneID a) NOTE_TAG (cf a) in
      let a := set_cf c [] a in
      match r with
      | Err e => (a, Err ("syncCloudflare: ListIPAccessRulesByTag: " +:+ e))
      | Ok cfRules =>
          let '(a, plan) := buildSyncPlan activeBans cfRules a in
          if shadowMode a then (recordShadowCycle clk plan a, Ok tt)
          else
            let '(a, k, e) := add_loop clk cancel 0 (ToAdd plan) a in
            match e with
            | Some e => (a, Err e)
            | None =>
                let '(a, _, e) := delete_loop clk cancel cfRules k (ToDelete plan) a in
                (a, match e with Some e => Err e | None => Ok tt end)
            end
      end
  end.

(** *** The state file of the web server *)

(** The state file of the network bans as this reader decodes it: the instants
    of the entries, [None] for a text that is not a time. *)
Definition loadActiveCIDRs (now : Z) (m : option (gmap string (option Z))) : list string :=
  match m with
  | None => []
  | Some m => (List.filter (fun e => match e.2 with Some t => t_sub now t <? 24 * hour | None => false end) (map_to_list m)).*1
  end.

(** The files that service writes; [garbage] is what another text decodes to. *)
Definition decoded (garbage : option (gmap string (option Z))) (d : disk CidrBan.StateEntry) : option (gmap string (option Z)) :=
  match d with
  | Missing | Recidive.Unreadable _ => None
  | Null => Some ∅
  | Recidive.Garbage => garbage
  | Saved m => Some ((fun e => Some (CidrBan.BannedAt e)) <$> m)
  end.

Definition excluded (s : option Shield) (allowlist : option allowlistSet) (ip : string) : bool :=
  if IsProtected s ip then true else contains allowlist ip.

Definition pushLuaState (now : Z) (io : option string) (garbage : option (gmap string (option Z))) (a : CrowdSecSyncApp)
  : CrowdSecSyncApp :=
  match luaWriter a with
  | None => a
  | Some w =>
      let '(x, r) := bs_ListActiveBans (cs a) in
      let a := set_cs x a in
      match r with
      | Err _ => a
      | Ok bans =>
          let '(a, allowlist) := fetchAllowlist a in
          let cidrs := loadActiveCIDRs now (decoded garbage (CidrBan.file (cidr a))) in
          let '(w, f, _) := Write checksum now io bans cidrs (Some (excluded (shield a) allowlist)) w (files a) in
          set_lua w f a
      end
  end.

(** *** The services of a tick *)

(** [cidrBanSourceAdapter] and [recidiveBanSourceAdapter]: the recent bans of
    addresses that may be banned. *)
Definition recent_bans (now : Z) (a : CrowdSecSyncApp) : CrowdSecSyncApp * result (list RecentBan) :=
  let '(x, r) := bs_ListRecentBans now (cs a) in
  let a := set_cs x a in
  match r with
  | Err e => (a, Err e)
  | Ok bans =>
      let '(a, al) := fetchAllowlist a in
      (a, Ok (List.filter (fun b => negb (excluded (shield a) al (rb_IP b))) bans))
  end.

Definition cidr_ban (b : RecentBan) : CidrBan.Ban := {| CidrBan.IP := rb_IP b; CidrBan.When := rb_When b |}.
Definition recidive_ban (b : RecentBan) : Recidive.Ban :=
  {| Recidive.IP := rb_IP b; Recidive.Scenario := rb_Scenario b; Recidive.When := rb_When b; Recidive.ban_ID := rb_ID b |}.

Definition set_services (c : CidrBan.World) (r : Recidive.World (X := unit)) (a : CrowdSecSyncApp) : CrowdSecSyncApp :=
  {| cf := cf a; cs := cs a; csAllowlist := csAllowlist a; AllowlistName := AllowlistName a; ZoneID := ZoneID a; shield := shield a;
     shadowMode := shadowMode a; shadowStore := shadowStore a; shadowReport := shadowReport a; reports := reports a;
     luaWriter := luaWriter a; files := files a; cidr := c; recidiv := r; calls := calls a |}.

(** A request of the network bans; its answer is not looked at. *)
Definition perform_request (clk : nat -> Z) (s : CrowdSecSyncApp * nat) (r : CidrBan.Request) : CrowdSecSyncApp * nat :=
  let '(a, i) := s in
  (match r with
   | CidrBan.AddIPAccessRule z c n t => set_cf (ec_Add (clk i) z c n t "block" (cf a)).1 [] a
   | CidrBan.DeleteIPAccessRule z id => set_cf (ec_Delete (clk i) z id (cf a)).1 [] a
   | CidrBan.AddRangeDecision c d why => set_cs (bs_AddRangeDecision c d why (cs a)).1 a
   end, S i).

(** [cidr.Run] of the daemon, whose clients are those of the daemon. *)
Definition run_cidr (clk : nat -> Z) (a : CrowdSecSyncApp) : CrowdSecSyncApp * result unit :=
  let '(a, source) := recent_bans (clk 0%nat) a in
  let '(a, listing) :=
    match source with
    | Ok (_ :: _) => let '(c, r) := ec_ListByTag (clk 1%nat) (ZoneID a) CidrBan.noteTagCIDR (cf a) in (set_cf c [] a, Some r)
    | _ => (a, None)
    end in
  let '(w, r) := CidrBan.Run (clk 2%nat)
                   (Some match source with Ok l => Ok (cidr_ban <$> l) | Err e => Err e end) listing (cidr a) in
  let asked := drop (length (CidrBan.trace (cidr a))) (CidrBan.trace w) in
  ((foldl (perform_request clk) (set_services w (recidiv a) a, 3%nat) asked).1, r).

(** [recidiv.Run] of the daemon, which escalates through its CrowdSec client. *)
Definition with_escalator {Y Z} (x : option Y) (w : Recidive.World (X := Z)) : Recidive.World (X := Y) :=
  {| Recidive.file := Recidive.file w; Recidive.writable := Recidive.writable w; Recidive.escalator := x;
     Recidive.counted := Recidive.counted w; Recidive.escalated := Recidive.escalated w |}.

Definition run_recidive (clk : nat -> Z) (a : CrowdSecSyncApp) : CrowdSecSyncApp * result unit :=
  match Recidive.loadState (Recidive.file (recidiv a)) with
  | Err m => (a, Err ("recidive: load state: " +:+ m))
  | Ok _ =>
      let '(a, source) := recent_bans (clk 0%nat) a in
      let '(w, r) := Recidive.Run (fun i => clk (S i))
                       (Some match source with Ok l => Ok (recidive_ban <$> l) | Err e => Err e end)
                       (with_escalator (Some (cs a)) (recidiv a)) in
      (set_services (cidr a) (with_escalator None w) (match Recidive.escalator w with Some x => set_cs x a | None => a end), r)
  end.

(** One tick; [reporting] stands for the reporting of the pass, which has no
    access to the clients above, [io] and [garbage] for the state files. *)
Record instants := { i_sync : nat -> Z; i_cidr : nat -> Z; i_recidive : nat -> Z; i_lua : Z }.

Definition panics (r : result unit) : bool :=
  match r with Err e => bool_decide (e = Recidive.nil_map_panic) | Ok _ => false end.

Definition tick {W} (reporting : W -> W) (i : instants) (cancel : nat -> bool) (io : option string)
    (garbage : option (gmap string (option Z))) (s : CrowdSecSyncApp * W) : CrowdSecSyncApp * W * result unit :=
  let '(a, w) := s in
  let a := (syncCloudflare (i_sync i) cancel a).1 in
  let '(a, r1) := if shadowMode a then (a, Ok tt) else run_cidr (i_cidr i) a in
  if panics r1 then (a, w, r1)
  else
    let '(a, r2) := if shadowMode a then (a, Ok tt) else run_recidive (i_recidive i) a in
    if panics r2 then (a, w, r2)
    else
      let w := reporting w in
      (if shadowMode a then a else pushLuaState (i_lua i) io garbage a, w, Ok tt).

(** *** The plan *)

(** The allowlist as the plan sees it. *)
Definition allowlist_of (a : CrowdSecSyncApp) : option (list AllowlistEntry) :=
  if csAllowlist a then match (xs_List (AllowlistName a) (cs a)).2 with Ok l => Some l | Err _ => None end else None.

(** An address that may be banned: no protected network contains it and no
    entry of a readable allowlist allows it. *)
Definition bannable (s : option Shield) (allowlist : option (list AllowlistEntry)) (ip : addr) : Prop :=
  (forall sh n, s = Some sh -> n ∈ networks sh -> net_contains n ip = false) /\
  (forall l e, allowlist = Some l -> e ∈ l -> ~ allows e ip).

(** The texts of the addresses among [bans] that may be banned. *)
Definition wanted (s : option Shield) (allowlist : option (list AllowlistEntry)) (bans : list string) (v : string) : Prop :=
  exists t ip, t ∈ bans /\ ParseIP t = Some ip /\ v = ip_string ip /\ bannable s allowlist ip.

Lemma fetchAllowlist_spec a :
  (fetchAllowlist a).2 = newAllowlistSet <$> allowlist_of a /\ exists x, (fetchAllowlist a).1 = set_cs x a.
Proof.
  unfold fetchAllowlist, allowlist_of. destruct (csAllowlist a); [|split; [done|exists (cs a); by destruct a]].
  destruct (xs_List _ _) as [x [l|e]]; cbn; by eauto.
Qed.

Lemma allows_unmap e ip : allows e (unmap ip) <-> allows e ip.
Proof. unfold allows. destruct (ParseIP _); [by rewrite ip_string_unmap|]. by setoid_rewrite net_contains_unmap. Qed.

Lemma excluded_spec s allowlist t ip :
  ParseIP t = Some ip -> excluded s (newAllowlistSet <$> allowlist) t = false <-> bannable s allowlist ip.
Proof.
  intros Ht. unfold excluded, bannable. split.
  - destruct (IsProtected s t) eqn:Ep; [done|]. intros Hc. split.
    + intros sh n -> Hn. destruct (net_contains n ip) eqn:En; [|done]. exfalso.
      assert (IsProtected (Some sh) t = true) by (apply IsProtected_true; by eauto). congruence.
    + intros l e -> He Ha. assert (contains (Some (newAllowlistSet l)) t = true) by (apply (contains_spec l t ip Ht); by eauto).
      change (contains (Some (newAllowlistSet l)) t = false) in Hc. congruence.
  - intros [Hs Ha]. destruct s as [sh|].
    + destruct (IsProtected (Some sh) t) eqn:Ep.
      * apply IsProtected_true in Ep as (b & n & Hb & Hn & Hc). assert (b = ip) as -> by congruence.
        by rewrite (Hs sh n eq_refl Hn) in Hc.
      * destruct allowlist as [l|]; [|done]. destruct (contains _ t) eqn:Ec; [|done].
        apply (contains_spec l t ip Ht) in Ec as (e & He & Hae). by destruct (Ha l e eq_refl He).
    + cbn. destruct allowlist as [l|]; [|done]. destruct (contains _ t) eqn:Ec; [|done].
      apply (contains_spec l t ip Ht) in Ec as (e & He & Hae). by destruct (Ha l e eq_refl He).
Qed.

Lemma bannable_unmap s allowlist ip : bannable s allowlist (unmap ip) <-> bannable s allowlist ip.
Proof. unfold bannable. setoid_rewrite net_contains_unmap. setoid_rewrite allows_unmap. done. Qed.

Lemma ban_step_in s allowlist B t v :
  v ∈ ban_step s (newAllowlistSet <$> allowlist) B t <-> v ∈ B \/ exists ip, ParseIP t = Some ip /\ v = ip_string ip /\ bannable s allowlist ip.
Proof.
  unfold ban_step. destruct (ParseIP t) as [ip|] eqn:Et; [|naive_solver]. pose proof (ParseIP_string t ip Et) as Hn.
  assert (bannable s allowlist ip <-> excluded s (newAllowlistSet <$> allowlist) (ip_string ip) = false) as He.
  { rewrite (excluded_spec s allowlist _ _ Hn). symmetry. apply bannable_unmap. }
  assert (forall b, b = true -> (bannable s allowlist ip <-> b = false) ->
    v ∈ B <-> v ∈ B \/ exists ip', Some ip = Some ip' /\ v = ip_string ip' /\ bannable s allowlist ip') as Hskip.
  { intros b -> Hb. split; [by left|]. intros [?|(ip' & [= <-] & _ & ?%Hb)]; done. }
  unfold excluded in He. destruct (IsProtected s (ip_string ip)); [by apply (Hskip true)|].
  destruct (contains (newAllowlistSet <$> allowlist) (ip_string ip)); [by apply (Hskip true)|]. rewrite elem_of_union, elem_of_singleton. split.
  - intros [->|?]; [right|by left]. exists ip. split_and!; [done..|by apply He].
  - intros [?|(ip' & [= <-] & -> & _)]; [by right|by left].
Qed.

Lemma bans_in s allowlist bans B v :
  v ∈ foldl (ban_step s (newAllowlistSet <$> allowlist)) B bans <-> v ∈ B \/ wanted s allowlist bans v.
Proof.
  unfold wanted. revert B. induction bans as [|t bans IH]; intros B; cbn [foldl].
  - split; [by left|]. intros [?|(t & ip & Ht & _)]; [done|by apply not_elem_of_nil in Ht].
  - rewrite IH, ban_step_in. setoid_rewrite elem_of_cons. naive_solver.
Qed.

(** The plan: the wanted addresses that are not rules, and the rules that are
    not wanted. *)
Lemma plan_spec bans rules a :
  let '(a', p) := buildSyncPlan bans rules a in
  (exists x, a' = set_cs x a) /\ CFRules p = dom rules /\
  (forall v, v ∈ ActiveBans p <-> wanted (shield a) (allowlist_of a) bans v) /\
  ToAdd p = elements (ActiveBans p ∖ dom rules) /\ ToDelete p = elements (dom rules ∖ ActiveBans p).
Proof.
  unfold buildSyncPlan. destruct (fetchAllowlist_spec a) as [H1 [x H2]]. destruct (fetchAllowlist a) as [a' al]. cbn [fst snd] in *. subst.
  cbn. split_and!; try done; [by eauto|]. intros v. rewrite bans_in. set_solver.
Qed.

(** Texts the plan adds are normal forms. *)
Lemma wanted_normal s allowlist bans v : wanted s allowlist bans v -> normal v = Some v.
Proof. intros (t & ip & _ & Ht & -> & _). apply (normal_normal t). unfold normal. by rewrite Ht. Qed.

(** A shadow pass changes its log and its reports, and asks for the allowlist. *)
Definition shadow_only (a a' : CrowdSecSyncApp) : Prop :=
  cf a' = cf a /\ ZoneID a' = ZoneID a /\ shadowMode a' = shadowMode a /\ shield a' = shield a /\ luaWriter a' = luaWriter a /\
  files a' = files a /\ cidr a' = cidr a /\ recidiv a' = recidiv a /\ calls a' = calls a.

Lemma shadow_frame now plan a : shadow_only a (recordShadowCycle now plan a).
Proof.
  unfold recordShadowCycle, shadow_only. cbn [set_shadow shadowReport]. case_bool_decide; [done|].
  destruct (ReadSince _ _) as [[|c l]|]; [done| |done]. pose proof (fetchAllowlist_spec
    (set_shadow (Prune oversized (t_add (now 1%nat) (- (30 * 24 * hour))) (Append oversized (Compare plan (now 0%nat)) (shadowStore a)).1).1 [] a))
    as [_ [x Hx]]. unfold set_shadow at 1 in Hx. destruct (fetchAllowlist _) as [b al]. cbn [fst] in Hx. by subst.
Qed.

(** *** The state file *)

Lemma excluded_unparsed s al t : ParseIP t = None -> excluded s al t = false.
Proof. intros Ht. unfold excluded, IsProtected, contains. rewrite Ht. by destruct s, al. Qed.

(** A text that stays in the state file: it is not an address, or one that may
    be banned. *)
Definition passes (s : option Shield) (al : option (list AllowlistEntry)) (t : string) : Prop :=
  forall ip, ParseIP t = Some ip -> bannable s al ip.

Lemma excluded_passes s al t : excluded s (newAllowlistSet <$> al) t = false <-> passes s al t.
Proof.
  unfold passes. destruct (ParseIP t) as [ip|] eqn:Et.
  - rewrite (excluded_spec s al t ip Et). naive_solver.
  - rewrite excluded_unparsed by done. naive_solver.
Qed.

Lemma loadActiveCIDRs_saved now garbage m c :
  c ∈ loadActiveCIDRs now (decoded garbage (Saved m)) <-> exists e, m !! c = Some e /\ t_sub now (CidrBan.BannedAt e) < 24 * hour.
Proof.
  cbn. setoid_rewrite list_elem_of_fmap. split.
  - intros ([c' t] & -> & [Hin Ht]%elem_of_lfilter). apply elem_of_map_to_list in Hin. rewrite lookup_fmap in Hin. cbn in *.
    destruct (m !! c') as [e|]; [|done]. cbn in Hin. simplify_eq. exists e. split; [done|lia].
  - intros (e & He & Ht). exists (c, Some (CidrBan.BannedAt e)). split; [done|]. apply elem_of_lfilter. split; [|cbn; lia].
    apply elem_of_map_to_list. by rewrite lookup_fmap, He.
Qed.

(** The state file of the web server.  With a path and a list of bans, the
    file that is written holds exactly the active bans that are not protected
    and not allowed, and the networks banned less than a day ago; its counter
    of entries, its version and its checksum are those of its content.  When
    the file cannot be replaced, the old one stays. *)
Theorem pushLuaState_spec now io garbage a w x bans m :
  luaWriter a = Some w -> targetPath (cfg w) <> "" -> bs_ListActiveBans (cs a) = (x, Ok bans) ->
  CidrBan.file (cidr a) = Saved m ->
  let a' := pushLuaState now io garbage a in
  match io with
  | Some _ => files a' = files a
  | None => exists p, files a' = <[targetPath (cfg w) := p]> (files a) /\
      (forall t, is_Some (Bans p !! t) <-> t ∈ bans /\ passes (shield a) (allowlist_of (set_cs x a)) t) /\
      (forall c, is_Some (CIDRs p !! c) <-> exists e, m !! c = Some e /\ t_sub now (CidrBan.BannedAt e) < 24 * hour) /\
      EntryCount p = Z.of_nat (size (Bans p)) + Z.of_nat (size (CIDRs p)) /\ Version p = version w + 1 /\
      PayloadCRC32 p = checksum (with_crc 0 p)
  end.
Proof.
  intros Hw Hp Hb Hm. cbn zeta. unfold pushLuaState. rewrite Hw, Hb. destruct (fetchAllowlist_spec (set_cs x a)) as [Hal [x' Hx]].
  destruct (fetchAllowlist (set_cs x a)) as [a1 al]. cbn [fst snd] in *. subst a1 al. unfold Write.
  rewrite bool_decide_false by done. cbn [set_cs cidr cfg version shield files]. rewrite Hm.
  destruct io as [e|]; cbn [atomicWrite set_lua files]; [done|]. eexists. split; [done|]. cbn [payload with_crc Bans CIDRs EntryCount Version PayloadCRC32 version].
  split_and!; try done.
  - intros t. rewrite add_bans_lookup, lookup_empty, <- excluded_passes.
    destruct (bool_decide_reflect (t ∈ bans)); cbn; [|by split; [intros [? ?]|intros [? ?]]].
    destruct (excluded _ _ t); cbn; [by split; [intros [? ?]|intros [? ?]]|]. split; [done|by eauto].
  - intros c. rewrite add_cidrs_lookup, lookup_empty, <- (loadActiveCIDRs_saved now garbage).
    destruct (bool_decide_reflect (c ∈ loadActiveCIDRs now (decoded garbage (Saved m)))); [by split; eauto|]. by split; [intros [? ?]|].
Qed.

(** *** The pass with a service that does what it answers *)
Section laws.
Context `{!EnforcementLaws C}.

Definition rules_in (a : CrowdSecSyncApp) : list IPAccessRule := ec_rules (ZoneID a) (cf a).
Definition value_of (r : IPAccessRule) : string := rc_Value (ar_Configuration r).
Definition all_ok (ks : list call) : Prop := Forall (fun k => call_ok k = true) ks.
Definition without (ids : list string) (l : list IPAccessRule) : list IPAccessRule :=
  List.filter (fun r => negb (bool_decide (ar_ID r ∈ ids))) l.

(** A rule of a pass. *)
Definition our_rule (l : list string) (r : IPAccessRule) : Prop :=
  ar_Notes r = NOTE_TAG /\ ar_Mode r = "block" /\ rc_Target (ar_Configuration r) = "ip" /\ value_of r ∈ l.

Lemma set_cf_twice c1 k1 c2 k2 a : set_cf c2 k2 (set_cf c1 k1 a) = set_cf c2 (k1 ++ k2) a.
Proof. unfold set_cf. cbn. by rewrite app_assoc. Qed.

Lemma set_cf_same a : set_cf (cf a) [] a = a.
Proof. destruct a. unfold set_cf. cbn. by rewrite app_nil_r. Qed.

Lemma our_rules_mono l x news : Forall (our_rule l) news -> Forall (our_rule (x :: l)) news.
Proof. intros H. eapply Forall_impl; [exact H|]. intros r (?&?&?&?). split_and!; try done. by right. Qed.

Lemma add_loop_spec clk cancel k l a :
  let '(a', k', e) := add_loop clk cancel k l a in
  exists c ks news, a' = set_cf c ks a /\ ec_rules (ZoneID a) c = rules_in a ++ news /\ Forall (our_rule l) news /\
    (NoDup (ar_ID <$> rules_in a) -> NoDup (ar_ID <$> rules_in a ++ news)) /\
    (e = None -> all_ok ks -> value_of <$> news = l).
Proof.
  revert k a. induction l as [|ip l IH]; intros k a; cbn [add_loop].
  { exists (cf a), [], []. rewrite set_cf_same, app_nil_r. split_and!; try done; constructor. }
  pose proof (law_add (clk (length (calls a))) (ZoneID a) ip NOTE_TAG "ip" "block" (cf a)) as Hadd. cbn zeta in Hadd.
  destruct (ec_Add _ _ _ _ _ _ (cf a)) as [c res]; cbn [fst snd] in *.
  assert (exists new, ec_rules (ZoneID a) c = rules_in a ++ new /\ Forall (our_rule (ip :: l)) new /\
    (NoDup (ar_ID <$> rules_in a) -> NoDup (ar_ID <$> rules_in a ++ new)) /\
    (is_ok res = true -> value_of <$> new = [ip])) as (new & Hr & Hour & Hnd & Hval).
  { assert (forall r, added_rule ip NOTE_TAG "ip" "block" (ec_rules (ZoneID a) (cf a)) (ec_rules (ZoneID a) c) r ->
      exists new, ec_rules (ZoneID a) c = rules_in a ++ new /\ Forall (our_rule (ip :: l)) new /\
        (NoDup (ar_ID <$> rules_in a) -> NoDup (ar_ID <$> rules_in a ++ new)) /\ value_of <$> new = [ip]) as Hone.
    { intros r (Ha & Hn & Hm & Hc & Hfresh). exists [r]. split_and!; [done| | |by cbn; unfold value_of; rewrite Hc].
      - apply Forall_singleton. unfold our_rule, value_of. rewrite Hc. split_and!; try done. by left.
      - intros H. rewrite fmap_app. apply NoDup_app. split_and!; [done| |apply NoDup_singleton].
        intros x Hx ->%list_elem_of_singleton. done. }
    destruct res as [id|e]; [destruct Hadd as (r & Hadd & _)|destruct Hadd as [Hsame|(r & Hadd)]];
      [destruct (Hone r Hadd) as (new & ? & ? & ? & ?); by exists new| |destruct (Hone r Hadd) as (new & ? & ? & ? & ?); by exists new].
    exists []. rewrite app_nil_r. split_and!; try done. }
  assert (forall a' c' ks news (e : option string), a' = set_cf c' ks (set_cf c [CAdd ip (is_ok res)] a) ->
    ec_rules (ZoneID a) c' = (rules_in a ++ new) ++ news -> Forall (our_rule l) news ->
    (NoDup (ar_ID <$> rules_in a ++ new) -> NoDup (ar_ID <$> (rules_in a ++ new) ++ news)) ->
    (e = None -> all_ok ks -> value_of <$> news = l) ->
    exists c ks news, a' = set_cf c ks a /\ ec_rules (ZoneID a) c = rules_in a ++ news /\ Forall (our_rule (ip :: l)) news /\
      (NoDup (ar_ID <$> rules_in a) -> NoDup (ar_ID <$> rules_in a ++ news)) /\
      (e = None -> all_ok ks -> value_of <$> news = ip :: l)) as Hcons.
  { intros a' c' ks news e -> Hrules Hall Hids Hvals. exists c', ([CAdd ip (is_ok res)] ++ ks), (new ++ news).
    rewrite set_cf_twice, <- app_assoc in *. split_and!; try done; [|by auto|].
    - apply Forall_app. split; [done|by apply our_rules_mono].
    - intros He [Hok1 Hok]%Forall_cons. cbn in Hok1. by rewrite fmap_app, (Hval Hok1), (Hvals He Hok). }
  assert (forall k, let '(a', k', e) := add_loop clk cancel k l (set_cf c [CAdd ip (is_ok res)] a) in
    exists c ks news, a' = set_cf c ks a /\ ec_rules (ZoneID a) c = rules_in a ++ news /\ Forall (our_rule (ip :: l)) news /\
      (NoDup (ar_ID <$> rules_in a) -> NoDup (ar_ID <$> rules_in a ++ news)) /\
      (e = None -> all_ok ks -> value_of <$> news = ip :: l)) as Hrec.
  { intros k0. specialize (IH k0 (set_cf c [CAdd ip (is_ok res)] a)). destruct (add_loop _ _ k0 l _) as [[a' k'] e].
    destruct IH as (c' & ks & news & Ha' & Hrules & Hall & Hids & Hvals). unfold rules_in in Hrules, Hids.
    cbn [set_cf cf ZoneID] in Hrules, Hids. rewrite Hr in Hrules, Hids. by apply (Hcons a' c' ks news e). }
  destruct res as [id|e]; [|by apply Hrec]. destruct (cancel k); [|by apply Hrec].
  exists c, [CAdd ip true], new. by split_and!.
Qed.

Lemma without_cons id ids l : without ids (without_rule id l) = without (id :: ids) l.
Proof.
  unfold without, without_rule. rewrite lfilter_lfilter. apply List.filter_ext. intros r.
  repeat case_bool_decide; cbn; try done; exfalso; set_solver.
Qed.

Lemma without_nil l : without [] l = l.
Proof. unfold without. induction l as [|r l IH]; [done|]. cbn. by rewrite IH. Qed.

(** A removal leaves the rules or takes the identifier out. *)
Lemma delete_effect now z id (c : C) : exists ids, ec_rules z (ec_Delete now z id c).1 = without ids (ec_rules z c) /\
  (forall x, x ∈ ids -> x = id) /\ (is_ok (ec_Delete now z id c).2 = true -> ids = [id]).
Proof.
  pose proof (law_delete now z id c) as Hdel. cbn zeta in Hdel.
  assert (without_rule id (ec_rules z c) = without [id] (ec_rules z c)) as E by (by rewrite <- (without_cons id []), without_nil).
  destruct (ec_Delete now z id c) as [c' [u|e]]; cbn [fst snd is_ok] in *; [|destruct Hdel as [Hdel|Hdel]].
  - exists [id]. rewrite Hdel, E. split_and!; try done. by intros x ->%list_elem_of_singleton.
  - exists []. rewrite Hdel, without_nil. split_and!; try done. by intros x ?%not_elem_of_nil.
  - exists [id]. rewrite Hdel, E. split_and!; try done. by intros x ->%list_elem_of_singleton.
Qed.

Lemma without_app ids1 ids2 l : without ids2 (without ids1 l) = without (ids1 ++ ids2) l.
Proof.
  unfold without. rewrite lfilter_lfilter. apply List.filter_ext. intros r.
  repeat case_bool_decide; cbn; try done; exfalso; set_solver.
Qed.

Lemma delete_loop_spec clk cancel m k l a :
  let '(a', k', e) := delete_loop clk cancel m k l a in
  exists c ks ids, a' = set_cf c ks a /\ ec_rules (ZoneID a) c = without ids (rules_in a) /\
    (forall id, id ∈ ids -> exists ip, ip ∈ l /\ id = default "" (m !! ip)) /\
    (e = None -> all_ok ks -> ids = (fun ip => default "" (m !! ip)) <$> l).
Proof.
  revert k a. induction l as [|ip l IH]; intros k a; cbn [delete_loop].
  { exists (cf a), [], []. rewrite set_cf_same, without_nil. split_and!; try done. intros id Hid. by apply not_elem_of_nil in Hid. }
  set (id := default "" (m !! ip)).
  destruct (delete_effect (clk (length (calls a))) (ZoneID a) id (cf a)) as (ids1 & Hdel & Hids1 & Hok1).
  destruct (ec_Delete _ _ id (cf a)) as [c res]; cbn [fst snd] in *.
  assert (Hrec : forall k, let '(a', k', e) := delete_loop clk cancel m k l (set_cf c [CDelete ip id (is_ok res)] a) in
    exists c ks ids, a' = set_cf c ks a /\ ec_rules (ZoneID a) c = without ids (rules_in a) /\
      (forall id, id ∈ ids -> exists ip', ip' ∈ ip :: l /\ id = default "" (m !! ip')) /\
      (e = None -> all_ok ks -> ids = (fun ip => default "" (m !! ip)) <$> ip :: l)).
  { intros k0. specialize (IH k0 (set_cf c [CDelete ip id (is_ok res)] a)). destruct (delete_loop clk cancel m k0 l _) as [[a' k'] e].
    destruct IH as (c' & ks & ids & -> & Hrules & Hids & Hall). exists c', ([CDelete ip id (is_ok res)] ++ ks), (ids1 ++ ids).
    rewrite set_cf_twice. unfold rules_in in *. cbn [set_cf cf ZoneID] in *. rewrite Hdel, without_app in Hrules.
    split_and!; try done.
    - intros x [Hx|Hx]%elem_of_app; [exists ip; split; [by left|by apply Hids1]|].
      destruct (Hids x Hx) as (y & ? & ?). exists y. split; [by right|done].
    - intros He [Hk Hok]%Forall_cons. cbn in Hk. by rewrite (Hall He Hok), (Hok1 Hk). }
  destruct res as [u|e]; [|by apply Hrec]. destruct (cancel k); [|by apply Hrec].
  exists c, [CDelete ip id true], ids1. split_and!; try done.
  intros x Hx. exists ip. split; [by left|by apply Hids1].
Qed.

Lemma without_in ids l r : r ∈ without ids l <-> r ∈ l /\ ar_ID r ∉ ids.
Proof. unfold without. rewrite elem_of_lfilter, negb_true_iff, bool_decide_eq_false. done. Qed.

(** What a pass does to the rules of the zone, with the addresses [W] it wants
    banned: it appends rules for wanted values that have none, and removes the
    identifiers of values that are not wanted. *)
Definition pass (W : string -> Prop) (complete : Prop) (before after : list IPAccessRule) : Prop :=
  exists news ids, after = without ids (before ++ news) /\
    Forall (fun r => our_rule [value_of r] r /\ W (value_of r) /\ value_of r ∉ dom (tagged NOTE_TAG before)) news /\
    (NoDup (ar_ID <$> before) -> NoDup (ar_ID <$> before ++ news)) /\
    (forall id, id ∈ ids -> exists v, tagged NOTE_TAG before !! v = Some id /\ ~ W v) /\
    (complete -> NoDup (value_of <$> news) /\
       (forall v, W v -> v ∉ dom (tagged NOTE_TAG before) -> v ∈ value_of <$> news) /\
       (forall v id, tagged NOTE_TAG before !! v = Some id -> ~ W v -> id ∈ ids)).

Lemma pass_refl (W : string -> Prop) (P : Prop) l : ~ P -> pass W P l l.
Proof.
  intros HP. exists [], []. rewrite app_nil_r, without_nil. split_and!; try done. intros id Hid. by apply not_elem_of_nil in Hid.
Qed.

(** The steps of a live pass after the plan. *)
Definition changes (clk : nat -> Z) (cancel : nat -> bool) (m : gmap string string) (adds deletes : list string) (a : CrowdSecSyncApp)
  : CrowdSecSyncApp * result unit :=
  let '(a, k, e) := add_loop clk cancel 0 adds a in
  match e with
  | Some e => (a, Err e)
  | None => let '(a, _, e) := delete_loop clk cancel m k deletes a in (a, match e with Some e => Err e | None => Ok tt end)
  end.

Lemma changes_spec clk cancel (B : gset string) a :
  let m := tagged NOTE_TAG (rules_in a) in
  let '(a', r) := changes clk cancel m (elements (B ∖ dom m)) (elements (dom m ∖ B)) a in
  exists c ks, a' = set_cf c ks a /\ pass (fun v => v ∈ B) (r = Ok tt /\ all_ok ks) (rules_in a) (ec_rules (ZoneID a) c).
Proof.
  cbn zeta. unfold changes. set (m := tagged NOTE_TAG (rules_in a)).
  pose proof (add_loop_spec clk cancel 0 (elements (B ∖ dom m)) a) as Ha. destruct (add_loop _ _ _ _ a) as [[a1 k] e1].
  destruct Ha as (c1 & ks1 & news & -> & Hr1 & Hall & Hnd & Hvals).
  assert (Forall (fun r => our_rule [value_of r] r /\ value_of r ∈ B /\ value_of r ∉ dom m) news) as Hnews.
  { eapply Forall_impl; [exact Hall|]. intros r (?&?&?& Hv%elem_of_elements%elem_of_difference). unfold our_rule. split_and!; try tauto. by left. }
  destruct e1 as [e1|].
  - exists c1, ks1. split; [done|]. exists news, []. rewrite without_nil. split_and!; try done.
    + intros id Hid. by apply not_elem_of_nil in Hid.
    + by intros [? _].
  - pose proof (delete_loop_spec clk cancel m k (elements (dom m ∖ B)) (set_cf c1 ks1 a)) as Hd.
    destruct (delete_loop _ _ _ _ _ _) as [[a2 k2] e2]. destruct Hd as (c2 & ks2 & ids & -> & Hr2 & Hids & Hall2).
    exists c2, (ks1 ++ ks2). rewrite set_cf_twice. split; [done|]. unfold rules_in in Hr2. cbn [set_cf cf ZoneID] in Hr2. rewrite Hr1 in Hr2.
    exists news, ids. split_and!; try done.
    + intros id Hid. destruct (Hids id Hid) as (v & [Hv Hw]%elem_of_elements%elem_of_difference & ->). exists v. split; [|done].
      apply elem_of_dom in Hv as [id1 Hid1]. fold m. by rewrite Hid1.
    + intros [He Hok]. apply Forall_app in Hok as [Hok1 Hok2]. specialize (Hvals eq_refl Hok1). split_and!.
      * rewrite Hvals. apply NoDup_elements.
      * intros v Hv Hn. rewrite Hvals. apply elem_of_elements, elem_of_difference. done.
      * intros v id Hv Hw. destruct e2; [done|]. rewrite (Hall2 eq_refl Hok2). apply list_elem_of_fmap. exists v.
        change (tagged NOTE_TAG (rules_in a)) with m in Hv. rewrite Hv. split; [done|]. apply elem_of_elements, elem_of_difference. split; [|done]. apply elem_of_dom. by eauto.
Qed.

Lemma pass_ext W W' P l l' : (forall v, W v <-> W' v) -> pass W P l l' -> pass W' P l l'.
Proof.
  intros HW (news & ids & H1 & H2 & H3 & H4 & H5). exists news, ids. split_and!; try done.
  - eapply Forall_impl; [exact H2|]. intros r (?&?&?). split_and!; try done. by apply HW.
  - intros id Hid. destruct (H4 id Hid) as (v & ? & ?). exists v. by rewrite <- HW.
  - intros HP. destruct (H5 HP) as (Ha & Hb & Hc). split_and!; [done| |].
    + intros v Hv. apply Hb, HW, Hv.
    + intros v id Hv Hn. apply (Hc v id Hv). by rewrite HW.
Qed.

Lemma sync_pass clk cancel a x bans :
  shadowMode a = false -> bs_ListActiveBans (cs a) = (x, Ok bans) ->
  let '(a', r) := syncCloudflare clk cancel a in
  ZoneID a' = ZoneID a /\ exists ks, calls a' = calls a ++ ks /\
  pass (wanted (shield a) (allowlist_of (set_cs x a)) bans) (r = Ok tt /\ all_ok ks) (rules_in a) (rules_in a').
Proof.
  intros Hs Hb. unfold syncCloudflare. rewrite Hb. cbn [set_cs ZoneID cf calls].
  destruct (law_tag (clk (length (calls a))) (ZoneID a) NOTE_TAG (cf a)) as [Hsame Hlist].
  destruct (ec_ListByTag _ _ _ (cf a)) as [c [m|e]]; cbn [fst snd] in *.
  2:{ split; [done|]. exists []. split; [done|]. unfold rules_in at 2. cbn. rewrite Hsame. apply pass_refl. by intros [? _]. }
  specialize (Hlist m eq_refl). set (b := set_cf c [] (set_cs x a)). pose proof (plan_spec bans m b) as Hp.
  destruct (buildSyncPlan bans m b) as [b' plan]. destruct Hp as ([x' ->] & _ & HB & -> & ->).
  cbn [set_cs shadowMode b set_cf]. rewrite Hs. fold b.
  assert (rules_in (set_cs x' b) = rules_in a) as Hrules by (unfold rules_in; cbn; apply Hsame).
  assert (m = tagged NOTE_TAG (rules_in (set_cs x' b))) as -> by (by rewrite Hrules).
  pose proof (changes_spec clk cancel (ActiveBans plan) (set_cs x' b)) as Hc. cbn zeta in Hc. unfold changes in Hc.
  change (set_cs x' b) with {| cf := cf b; cs := x'; csAllowlist := csAllowlist b; AllowlistName := AllowlistName b; ZoneID := ZoneID b;
     shield := shield b; shadowMode := shadowMode b; shadowStore := shadowStore b; shadowReport := shadowReport b; reports := reports b;
     luaWriter := luaWriter b; files := files b; cidr := cidr b; recidiv := recidiv b; calls := calls b |} in *.
  destruct (add_loop _ _ _ _ _) as [[a1 k] e1]. destruct e1 as [e1|]; [|destruct (delete_loop _ _ _ _ _ _) as [[a2 k2] e2]];
    destruct Hc as (c' & ks & -> & Hpass); (split; [done|]); exists ks; (split; [cbn; by rewrite app_nil_r|]);
    rewrite Hrules in Hpass; by eapply pass_ext; [exact HB|].
Qed.

(** A rule of the pass has the tag, and its value is its key. *)
Lemma our_rule_key l r s al bans :
  our_rule l r -> wanted s al bans (value_of r) -> has_tag NOTE_TAG r = true /\ rule_value r = value_of r.
Proof.
  intros (Hn & _) Hw. pose proof (wanted_normal _ _ _ _ Hw) as Hv. unfold normal in Hv. unfold has_tag, rule_value. fold (value_of r).
  destruct (ParseIP (value_of r)) as [ip|] eqn:Ep; [|done]. cbn in Hv. injection Hv as Hv.
  split; [|done]. rewrite Hn, bool_decide_true by done. rewrite bool_decide_false; [done|]. intros E. by rewrite E, ParseIP_empty in Ep.
Qed.

(** The removed identifiers belong to rules of the tag whose value is not wanted. *)
Lemma kept_or_removed W P before after r :
  NoDup (ar_ID <$> before) -> pass W P before after -> r ∈ before ->
  r ∈ after \/ (has_tag NOTE_TAG r = true /\ ~ W (rule_value r)).
Proof.
  intros Hnd (news & ids & -> & _ & _ & Hids & _) Hr. destruct (decide (ar_ID r ∈ ids)) as [(v & Hv & Hw)%Hids|Hn].
  - right. apply tagged_in in Hv as (r' & Hr' & Ht & <- & Hid). assert (r' = r) as -> by (by eapply (NoDup_fmap_eq ar_ID)). done.
  - left. apply without_in. split; [apply elem_of_app; by left|done].
Qed.

Lemma untagged_kept W P before after :
  NoDup (ar_ID <$> before) -> pass W P before after ->
  List.filter (fun r => negb (bool_decide (ar_Notes r = NOTE_TAG))) after =
  List.filter (fun r => negb (bool_decide (ar_Notes r = NOTE_TAG))) before.
Proof.
  intros Hnd Hp. assert (forall r, r ∈ before -> ar_Notes r <> NOTE_TAG -> r ∈ after) as Hk.
  { intros r Hr Hn. destruct (kept_or_removed W P before after r Hnd Hp Hr) as [?|[Ht _]]; [done|].
    unfold has_tag in Ht. by rewrite bool_decide_false in Ht. }
  destruct Hp as (news & ids & -> & Hnews & _ & Hids & _). unfold without. rewrite lfilter_lfilter, List.filter_app.
  rewrite (filter_none _ news), app_nil_r.
  - apply lfilter_ext_in. intros r Hr. case_bool_decide as Hn; cbn; [done|]. case_bool_decide as Hid; [|done]. exfalso.
    specialize (Hk r Hr Hn). by apply without_in in Hk as [_ ?].
  - intros r Hr. rewrite Forall_forall in Hnews. destruct (Hnews r Hr) as ((Hn & _) & _). rewrite Hn, (bool_decide_true (NOTE_TAG = NOTE_TAG)) by done. done.
Qed.

Lemma decide_wanted s al bans v : {wanted s al bans v} + {~ wanted s al bans v}.
Proof.
  destruct (decide (v ∈ foldl (ban_step s (newAllowlistSet <$> al)) ∅ bans)) as [H|H]; rewrite bans_in in H; [left|right]; [|by auto].
  destruct H as [H|H]; [by apply not_elem_of_empty in H|done].
Qed.

Lemma mirror_values s al bans P before after v :
  distinct NOTE_TAG before -> P -> pass (wanted s al bans) P before after ->
  v ∈ dom (tagged NOTE_TAG after) <-> wanted s al bans v.
Proof.
  intros Hd HP (news & ids & -> & Hnews & Hnd & Hids & Hc). destruct (Hc HP) as (_ & Hall & Hdel). rewrite tagged_dom.
  specialize (Hnd (proj1 Hd)). rewrite Forall_forall in Hnews. split.
  - intros (r & [[Hr|Hr]%elem_of_app Hni]%without_in & Ht & <-).
    + destruct (decide_wanted s al bans (rule_value r)) as [?|Hn]; [done|]. exfalso. apply Hni, (Hdel (rule_value r)); [|done].
      by apply tagged_id.
    + destruct (Hnews r Hr) as (Ho & Hw & _). by destruct (our_rule_key _ _ _ _ _ Ho Hw) as [_ ->].
  - intros Hw. destruct (decide (v ∈ dom (tagged NOTE_TAG before))) as [Hv|Hv].
    + apply tagged_dom in Hv as (r & Hr & Ht & <-). exists r. split; [|done]. apply without_in. split; [apply elem_of_app; by left|].
      intros (v & Hv & Hnw)%Hids. apply tagged_in in Hv as (r' & Hr' & _ & <- & Hid).
      assert (r' = r) as -> by (by eapply (NoDup_fmap_eq ar_ID); [apply Hd|..]). done.
    + apply Hall in Hv as (r & -> & Hr)%list_elem_of_fmap; [|done]. exists r. destruct (Hnews r Hr) as (Ho & Hw' & Hnv).
      destruct (our_rule_key _ _ _ _ _ Ho Hw') as [Ht Hk]. split; [|done]. apply without_in. split; [apply elem_of_app; by right|].
      intros (v & Hv & Hnw)%Hids. apply tagged_in in Hv as (r' & Hr' & _ & _ & Hid).
      assert (r' = r) as -> by (eapply (NoDup_fmap_eq ar_ID); [exact Hnd|apply elem_of_app; by left|apply elem_of_app; by right|done]).
      apply Hnv, tagged_dom. by eauto.
Qed.

Lemma mirror_distinct s al bans P before after :
  distinct NOTE_TAG before -> P -> pass (wanted s al bans) P before after -> distinct NOTE_TAG after.
Proof.
  intros Hd HP (news & ids & -> & Hnews & Hnd & Hids & Hc). destruct (Hc HP) as (Hv & _ & _). destruct Hd as [Hd1 Hd2].
  assert (forall r, r ∈ news -> has_tag NOTE_TAG r = true /\ rule_value r = value_of r) as Hkey.
  { rewrite Forall_forall in Hnews. intros r Hr. destruct (Hnews r Hr) as (Ho & Hw & _). by eapply our_rule_key. }
  split.
  - eapply sublist_NoDup; [apply (Hnd Hd1)|]. apply fmap_sublist, lfilter_sublist.
  - unfold without. eapply (sublist_NoDup _ (rule_value <$> List.filter (has_tag NOTE_TAG) (before ++ news))).
    + rewrite List.filter_app, fmap_app. apply NoDup_app. split_and!; [done| |].
      * intros v (r & -> & [Hr Ht]%elem_of_lfilter)%list_elem_of_fmap (r' & Hv' & [Hr' _]%elem_of_lfilter)%list_elem_of_fmap.
        rewrite Forall_forall in Hnews. destruct (Hnews r' Hr') as (_ & _ & Hn). destruct (Hkey r' Hr') as [_ Hk]. apply Hn, tagged_dom.
        exists r. split_and!; try done. congruence.
      * rewrite filter_all by (intros r Hr; by apply Hkey). erewrite list_fmap_ext_in; [exact Hv|]. intros r Hr. by apply Hkey.
    + apply fmap_sublist, lfilter_sublist_mono, lfilter_sublist.
Qed.

(** C8: A pass that is not interrupted and meets no error makes the rules of
    its tag the mirror of CrowdSec: their values are exactly the active bans
    that no protected network contains and no entry of the allowlist allows,
    whatever the spelling of the bans; the rules without the tag are what they
    were, in their order; and the rules are again distinct. *)
Theorem sync_mirrors clk cancel a x bans :
  shadowMode a = false -> bs_ListActiveBans (cs a) = (x, Ok bans) -> distinct NOTE_TAG (rules_in a) ->
  let '(a', r) := syncCloudflare clk cancel a in
  r = Ok tt -> all_ok (drop (length (calls a)) (calls a')) ->
  (forall v, v ∈ dom (tagged NOTE_TAG (rules_in a')) <-> wanted (shield a) (allowlist_of (set_cs x a)) bans v) /\
  List.filter (fun r => negb (bool_decide (ar_Notes r = NOTE_TAG))) (rules_in a') =
  List.filter (fun r => negb (bool_decide (ar_Notes r = NOTE_TAG))) (rules_in a) /\
  distinct NOTE_TAG (rules_in a').
Proof.
  intros Hs Hb Hd. pose proof (sync_pass clk cancel a x bans Hs Hb) as H. destruct (syncCloudflare clk cancel a) as [a' r].
  destruct H as (Hz & ks & Hks & Hp). rewrite Hks, drop_app_length. intros Hr Hok. split; [|split; [by eapply untagged_kept; [apply Hd|]|]].
  - intros v. by apply (mirror_values _ _ _ _ _ _ v Hd (conj Hr Hok) Hp).
  - by apply (mirror_distinct _ _ _ _ _ _ Hd (conj Hr Hok) Hp).
Qed.

Lemma shadow_sync clk cancel a :
  shadowMode a = true ->
  let a' := (syncCloudflare clk cancel a).1 in
  (forall z, ec_rules z (cf a') = ec_rules z (cf a)) /\ shadowMode a' = true /\ calls a' = calls a /\ files a' = files a /\
  luaWriter a' = luaWriter a /\ cidr a' = cidr a /\ recidiv a' = recidiv a.
Proof.
  intros Hs. cbn zeta. unfold syncCloudflare. destruct (bs_ListActiveBans (cs a)) as [x [bans|e]]; [|done].
  destruct (law_tag (clk (length (calls a))) (ZoneID a) NOTE_TAG (cf a)) as [Hsame _]. cbn [set_cs ZoneID cf calls].
  destruct (ec_ListByTag _ _ _ (cf a)) as [c [m|e]]; cbn [fst snd] in *; [|cbn; rewrite app_nil_r; by split_and!].
  set (b := set_cf c [] (set_cs x a)). pose proof (plan_spec bans m b) as Hp. destruct (buildSyncPlan bans m b) as [b' plan].
  destruct Hp as ([x' ->] & _). replace (shadowMode (set_cs x' b)) with true by (symmetry; exact Hs). cbn [fst].
  destruct (shadow_frame clk plan (set_cs x' b)) as (H1 & H2 & H3 & H4 & H5 & H6 & H7 & H8 & H9).
  rewrite H1, H3, H5, H6, H7, H8, H9. cbn. rewrite app_nil_r. by split_and!.
Qed.

Lemma shadow_zone clk cancel a : ZoneID (syncCloudflare clk cancel a).1 = ZoneID a \/ shadowMode a = false.
Proof.
  destruct (shadowMode a) eqn:Hs; [left|by right]. unfold syncCloudflare. destruct (bs_ListActiveBans (cs a)) as [x [bans|e]]; [|done].
  destruct (ec_ListByTag _ _ _ _) as [c [m|e]]; [|done]. set (b := set_cf c [] (set_cs x a)).
  pose proof (plan_spec bans m b) as Hp. destruct (buildSyncPlan bans m b) as [b' plan].
  destruct Hp as ([x' ->] & _). replace (shadowMode (set_cs x' b)) with true by (symmetry; exact Hs). cbn [fst].
  by destruct (shadow_frame clk plan (set_cs x' b)) as (_ & -> & _).
Qed.

Lemma shadow_rules clk cancel a : shadowMode a = true -> rules_in (syncCloudflare clk cancel a).1 = rules_in a.
Proof.
  intros Hs. destruct (shadow_zone clk cancel a) as [Hz|?]; [|congruence]. unfold rules_in. rewrite Hz.
  apply (shadow_sync clk cancel a Hs).
Qed.

(** C9: What a pass can do, whichever requests fail, carried out or not, and
    wherever it is interrupted.  Every rule it leaves was there before or
    blocks one address that CrowdSec bans, that is not protected and not on
    the allowlist the pass read; every rule it removed has the tag and a value
    that is not such an address.  An allowlist that cannot be read counts as
    empty: the pass then also blocks allowed addresses.  Without the list of
    bans, and in shadow mode, nothing changes. *)
Theorem sync_safe clk cancel a :
  NoDup (ar_ID <$> rules_in a) ->
  let before := rules_in a in
  let after := rules_in (syncCloudflare clk cancel a).1 in
  match bs_ListActiveBans (cs a) with
  | (x, Ok bans) =>
      let W := wanted (shield a) (allowlist_of (set_cs x a)) bans in
      (shadowMode a = true -> after = before) /\
      (forall r, r ∈ after -> r ∈ before \/
         (ar_Notes r = NOTE_TAG /\ ar_Mode r = "block" /\ rc_Target (ar_Configuration r) = "ip" /\ W (value_of r))) /\
      (forall r, r ∈ before -> r ∈ after \/ (ar_Notes r = NOTE_TAG /\ ~ W (rule_value r)))
  | (_, Err _) => after = before
  end.
Proof.
  intros Hnd. cbn zeta. destruct (bs_ListActiveBans (cs a)) as [x [bans|e]] eqn:Hb.
  2:{ unfold syncCloudflare. by rewrite Hb. }
  destruct (shadowMode a) eqn:Hs.
  - rewrite (shadow_rules clk cancel a Hs). split_and!; by auto.
  - split; [done|]. pose proof (sync_pass clk cancel a x bans Hs Hb) as H. destruct (syncCloudflare clk cancel a) as [a' r]. cbn [fst].
    destruct H as (_ & ks & _ & Hp). split.
    + intros r' Hr'. destruct Hp as (news & ids & Hafter & Hnews & _). rewrite Hafter in Hr'. apply without_in in Hr' as [[?|Hr']%elem_of_app _]; [by left|right].
      rewrite Forall_forall in Hnews. destruct (Hnews r' Hr') as ((?&?&?&_) & ? & _). done.
    + intros r' Hr'. destruct (kept_or_removed _ _ _ _ r' Hnd Hp Hr') as [?|[Ht Hw]]; [by left|right].
      unfold has_tag in Ht. by destruct (bool_decide_reflect (ar_Notes r' = NOTE_TAG)).
Qed.

(** A tick in shadow mode changes nothing but its own records: the rules of
    every zone, the state files of the web server, of the network bans and of
    the repeat offenders stay as they are and no change is asked of
    Cloudflare, while the reporting of the tick goes on. *)
Theorem shadow_tick_inert {W} (reporting : W -> W) i cancel io garbage a w :
  shadowMode a = true ->
  let '(a', w', r) := tick reporting i cancel io garbage (a, w) in
  r = Ok tt /\ (forall z, ec_rules z (cf a') = ec_rules z (cf a)) /\ calls a' = calls a /\ files a' = files a /\
  luaWriter a' = luaWriter a /\ cidr a' = cidr a /\ recidiv a' = recidiv a /\ w' = reporting w.
Proof.
  intros Hs. unfold tick. destruct (shadow_sync (i_sync i) cancel a Hs) as (H1 & H2 & H3 & H4 & H5 & H6 & H7).
  do 3 (rewrite H2; cbn). by split_and!.
Qed.

End laws.

End app.
End SyncApp.

(** ** The removal of stale rules *)
Module CleanupApp.
Import SyncApp Tagged.

Record cleanupCandidate := { IP : string; RuleID : string; Reason : string }.
Record cleanupPlan := { kept : list cleanupCandidate; stale : list cleanupCandidate }.

Definition candidate (e : string * string) : cleanupCandidate :=
  {| IP := e.1; RuleID := e.2; Reason := "not in active CrowdSec bans" |}.

Definition buildCleanupPlan (activeBans : gset string) (cfRules : gmap string string) : cleanupPlan :=
  {| kept := candidate <$> List.filter (fun e => bool_decide (e.1 ∈ activeBans)) (map_to_list cfRules);
     stale := candidate <$> List.filter (fun e => negb (bool_decide (e.1 ∈ activeBans))) (map_to_list cfRules) |}.

(** The set of the active bans: the normal form of a text that is an address. *)
Definition ban_set (bans : list string) : gset string :=
  list_to_set ((fun ip => match ParseIP ip with Some a => ip_string a | None => ip end) <$> bans).

Section app.
Context {C X : Type} `{!EnforcementClient C} `{!BanSource X}.

(** [deletions] is the trace of the requests, with their outcome. *)
Record CleanupApp := { cf : C; cs : X; ZoneID : string; dryRun : bool; deletions : list (string * bool) }.

Definition set_cf (c : C) (ds : list (string * bool)) (a : CleanupApp) : CleanupApp :=
  {| cf := c; cs := cs a; ZoneID := ZoneID a; dryRun := dryRun a; deletions := deletions a ++ ds |}.

(** The errors of the requests, and the error of an interruption. *)
Fixpoint stale_loop (clk : nat -> Z) (cancel : nat -> bool) (k : nat) (l : list cleanupCandidate) (errs : list string) (a : CleanupApp)
  : CleanupApp * list string * option string :=
  match l with
  | [] => (a, errs, None)
  | item :: l =>
      let '(c, r) := ec_Delete (clk (length (deletions a))) (ZoneID a) (RuleID item) (cf a) in
      let a := set_cf c [(RuleID item, is_ok r)] a in
      match r with
      | Err e => stale_loop clk cancel k l (errs ++ ["delete " +:+ IP item +:+ ": " +:+ e]) a
      | Ok _ => if cancel k then (a, errs, Some canceled) else stale_loop clk cancel (S k) l errs a
      end
  end.

Definition op : string := "app.CleanupApp.Run".
Definition newline : string := bytes_str [10%N].

Definition Run (clk : nat -> Z) (cancel : nat -> bool) (a : CleanupApp) : CleanupApp * result unit :=
  let '(x, r) := bs_ListActiveBans (cs a) in
  let a := {| cf := cf a; cs := x; ZoneID := ZoneID a; dryRun := dryRun a; deletions := deletions a |} in
  match r with
  | Err e => (a, Err (op +:+ ": ListActiveBans: " +:+ e))
  | Ok activeBans =>
      let '(c, r) := ec_ListByTag (clk (length (deletions a))) (ZoneID a) NOTE_TAG (cf a) in
      let a := set_cf c [] a in
      match r with
      | Err e => (a, Err (op +:+ ": ListIPAccessRulesByTag: " +:+ e))
      | Ok cfRules =>
          let plan := buildCleanupPlan (ban_set activeBans) cfRules in
          if dryRun a then (a, Ok tt)
          else
            let '(a, errs, e) := stale_loop clk cancel 0 (stale plan) [] a in
            (a, match e with
                | Some e => Err (wrap_msg op e)
                | None => match errs with [] => Ok tt | _ => Err (wrap_msg op (str_join newline errs)) end
                end)
      end
  end.

Section laws.
Context `{!EnforcementLaws C}.

Definition rules_in (a : CleanupApp) : list IPAccessRule := ec_rules (ZoneID a) (cf a).

Lemma stale_loop_spec clk cancel k l errs a :
  let '(a', errs', e) := stale_loop clk cancel k l errs a in
  ZoneID a' = ZoneID a /\ exists ids, rules_in a' = without ids (rules_in a) /\ (forall id, id ∈ ids -> id ∈ RuleID <$> l) /\
  (errs' = [] -> errs = []) /\ (e = None -> errs' = [] -> ids = RuleID <$> l).
Proof.
  revert k errs a. induction l as [|i l IH]; intros k errs a; cbn [stale_loop].
  { split; [done|]. exists []. rewrite without_nil. split_and!; try done. }
  destruct (delete_effect (clk (length (deletions a))) (ZoneID a) (RuleID i) (cf a)) as (ids1 & Hdel & Hids1 & Hok1).
  destruct (ec_Delete _ _ (RuleID i) (cf a)) as [c res]; cbn [fst snd] in *.
  assert (Hrec : forall k errs1, (errs1 = [] -> errs = [] /\ is_ok res = true) ->
    let '(a', errs', e) := stale_loop clk cancel k l errs1 (set_cf c [(RuleID i, is_ok res)] a) in
    ZoneID a' = ZoneID a /\ exists ids, rules_in a' = without ids (rules_in a) /\ (forall id, id ∈ ids -> id ∈ RuleID <$> i :: l) /\
    (errs' = [] -> errs = []) /\ (e = None -> errs' = [] -> ids = RuleID <$> i :: l)).
  { intros k0 errs1 Herr. specialize (IH k0 errs1 (set_cf c [(RuleID i, is_ok res)] a)).
    destruct (stale_loop _ _ _ l _ _) as [[a' errs'] e]. destruct IH as (Hz & ids & Hr & Hids & He & Hall). split; [done|].
    exists (ids1 ++ ids). unfold rules_in in *. cbn [set_cf cf ZoneID] in *. rewrite Hdel, without_app in Hr. split_and!; try done.
    - intros x [Hx|Hx]%elem_of_app; [rewrite (Hids1 x Hx); by left|right; by apply Hids].
    - intros H. by apply Herr, He.
    - intros H1 H2. rewrite (Hall H1 H2), Hok1; [done|]. by apply Herr, He. }
  destruct res as [u|e]; [|by apply Hrec; intros [_ ?]%app_eq_nil]. destruct (cancel k); [|by apply Hrec].
  split; [done|]. exists ids1. split_and!; try done. intros x Hx. rewrite (Hids1 x Hx). by left.
Qed.

Lemma stale_ids (m : gmap string string) B id : id ∈ RuleID <$> stale (buildCleanupPlan B m) <-> exists v, m !! v = Some id /\ (v ∉ B).
Proof.
  cbn. rewrite list_elem_of_fmap. setoid_rewrite list_elem_of_fmap. setoid_rewrite elem_of_lfilter. split.
  - intros (i & -> & (e & -> & Hin & Hn)). destruct e as [v id]. apply elem_of_map_to_list in Hin. exists v. split; [done|].
    cbn in Hn. by case_bool_decide.
  - intros (v & Hv & Hn). exists (candidate (v, id)). split; [done|]. exists (v, id). split; [done|].
    split; [by apply elem_of_map_to_list|]. cbn. by rewrite bool_decide_false.
Qed.

(** The removal of stale rules.  Whatever fails, a rule that is gone had
    the tag and the value of no active ban, and nothing is added; when it
    reports success the rules of the tag are all of active bans, and a dry run
    changes nothing. *)
Theorem cleanup_spec clk cancel a x bans :
  distinct NOTE_TAG (rules_in a) -> bs_ListActiveBans (cs a) = (x, Ok bans) ->
  let '(a', r) := Run clk cancel a in
  (forall rule, rule ∈ rules_in a' -> rule ∈ rules_in a) /\
  (forall rule, rule ∈ rules_in a -> rule ∈ rules_in a' \/ (ar_Notes rule = NOTE_TAG /\ (rule_value rule ∉ ban_set bans))) /\
  (dryRun a = true -> rules_in a' = rules_in a) /\
  (dryRun a = false -> r = Ok tt -> forall v, v ∈ dom (tagged NOTE_TAG (rules_in a')) -> v ∈ ban_set bans).
Proof.
  intros Hd Hb. unfold Run. rewrite Hb. cbn [ZoneID cf deletions].
  destruct (law_tag (clk (length (deletions a))) (ZoneID a) NOTE_TAG (cf a)) as [Hsame Hlist].
  destruct (ec_ListByTag _ _ _ (cf a)) as [c [m|e]]; cbn [fst snd] in *.
  2:{ unfold rules_in. cbn. rewrite Hsame. split_and!; by auto. }
  specialize (Hlist m eq_refl). cbn [set_cf dryRun]. set (b := set_cf c [] _).
  assert (rules_in b = rules_in a) as Hrb by (unfold rules_in; cbn; apply Hsame).
  destruct (dryRun a) eqn:Edry; [rewrite Hrb; split_and!; by auto|].
  change (set_cf c [] {| cf := cf a; cs := x; ZoneID := ZoneID a; dryRun := true; deletions := deletions a |}) with b in *.
  pose proof (stale_loop_spec clk cancel 0 (stale (buildCleanupPlan (ban_set bans) m)) [] b) as H.
  destruct (stale_loop _ _ _ _ _ b) as [[a' errs] e]. destruct H as (Hz & ids & Hr & Hids & _ & Hall). rewrite Hr, Hrb in *.
  assert (forall rule, rule ∈ rules_in a -> ar_ID rule ∈ ids -> has_tag NOTE_TAG rule = true /\ (rule_value rule ∉ ban_set bans)) as Hgone.
  { intros rule Hrule (v & Hv & Hn)%Hids%stale_ids. subst m. apply tagged_in in Hv as (r' & Hr' & Ht & <- & Hid).
    assert (r' = rule) as -> by (by eapply (NoDup_fmap_eq ar_ID); [apply Hd|..]). done. }
  split_and!.
  - intros rule Hrule. by apply without_in in Hrule as [? _].
  - intros rule Hrule. destruct (decide (ar_ID rule ∈ ids)) as [Hid|Hid]; [right|left; by apply without_in].
    destruct (Hgone rule Hrule Hid) as [Ht Hv]. unfold has_tag in Ht. by destruct (bool_decide_reflect (ar_Notes rule = NOTE_TAG)).
  - done.
  - intros _ Hok v (rule & [Hrule Hni]%without_in & Ht & <-)%tagged_dom. destruct e as [e|]; [done|]. destruct errs; [|done].
    destruct (decide (rule_value rule ∈ ban_set bans)) as [?|Hn]; [done|]. exfalso. apply Hni. rewrite (Hall eq_refl eq_refl).
    apply stale_ids. exists (rule_value rule). split; [|done]. subst m. by apply tagged_id.
Qed.

End laws.
End app.
End CleanupApp.

(** ** Instances *)
Module Demo.
Import SyncApp Tagged Shield Lua.

(** A CrowdSec kept in memory. *)
Record Source := { active : list string; recent : list RecentBan; allowed : list AllowlistEntry; ranges : list string }.

#[global] Instance source_bans : BanSource Source := {|
  bs_ListActiveBans x := (x, Ok (active x));
  bs_ListRecentBans _ x := (x, Ok (recent x));
|}.
#[global] Instance source_list : AllowlistClient Source := {|
  xs_List _ x := (x, Ok (allowed x));
  xs_Add _ e x := ({| active := active x; recent := recent x; allowed := allowed x ++ [e]; ranges := ranges x |}, Ok tt);
|}.
#[global] Instance source_ranges : RangeDecisionAdder Source := fun c _ _ x =>
  ({| active := active x; recent := recent x; allowed := allowed x; ranges := ranges x ++ [c] |}, Ok tt).
#[global] Instance source_decisions : Recidive.DecisionAdder Source := fun _ _ _ x => (x, Ok tt).

Definition rule (id v notes : string) : IPAccessRule :=
  {| ar_ID := id; ar_Mode := "block"; ar_Notes := notes; ar_AllowedModes := [];
     ar_Configuration := {| rc_Target := "ip"; rc_Value := v |}; ar_Paused := false; ar_CreatedOn := 0; ar_ModifiedOn := 0; ar_Scope := None |}.

(** Three bans, one in a mapped spelling and one of this host; one of them is
    allowed.  The zone has a rule of an expired ban and a rule by hand. *)
Definition source : Source :=
  {| active := ["::ffff:198.51.100.9"; "203.0.113.10"; "203.0.113.7"; "192.0.2.5"]; recent := [];
     allowed := [{| al_Value := "192.0.2.0/24"; al_Comment := "office" |}]; ranges := [] |}.

Definition zone : MemCloud.Cloud :=
  {| MemCloud.rules := [rule "r1" "198.51.100.77" NOTE_TAG; rule "r2" "198.51.100.1" "by hand"; rule "r3" "203.0.113.7" NOTE_TAG];
     MemCloud.next := 0; MemCloud.down := false; MemCloud.refuses := []; MemCloud.lost := [] |}.

Definition host : Shield := newWithRunner (IpEntries [{| AddrInfo := ["127.0.0.1"; "203.0.113.10"] |}]) None.

Definition saved_bans : gmap string CidrBan.StateEntry :=
  {[ "198.18.0.0/24" := {| CidrBan.BannedAt := 23 * hour; CidrBan.IPCount := 2 |};
     "198.18.1.0/24" := {| CidrBan.BannedAt := 0; CidrBan.IPCount := 2 |} ]}.

Definition network_bans : CidrBan.World :=
  {| CidrBan.file := Saved saved_bans;
     CidrBan.writable := true; CidrBan.CFBanner := true; CidrBan.CFDeleter := true; CidrBan.CSRangeBanner := true;
     CidrBan.ZoneID := "z"; CidrBan.trace := [] |}.

Definition app (shadow : bool) (x : Source) : CrowdSecSyncApp (C := MemCloud.Cloud) (X := Source) :=
  {| cf := zone; cs := x; csAllowlist := true; AllowlistName := "trusted"; ZoneID := "z"; shield := Some host; shadowMode := shadow;
     shadowStore := Shadow.Log.Absent; shadowReport := "r"; reports := [];
     luaWriter := Some (New {| Path := "bans.json"; ShadowPath := ""; ShadowMode := false; Hostname := "h"; PID := 1 |});
     files := ∅; cidr := network_bans;
     recidiv := {| Recidive.file := Missing; Recidive.writable := true; Recidive.escalator := None; Recidive.counted := []; Recidive.escalated := [] |};
     calls := [] |}.

Definition values (l : list IPAccessRule) : list string := (fun r => rc_Value (ar_Configuration r)) <$> l.

Lemma zone_distinct : distinct NOTE_TAG (ec_rules (C := MemCloud.Cloud) "z" zone).
Proof. split; apply (bool_decide_unpack _); vm_compute; exact I. Qed.

Lemma sync_mirrors_witness :
  let a' := (syncCloudflare (fun _ => false) (fun _ => 5) (fun _ => false) (app false source)).1 in
  "198.51.100.9" ∈ dom (tagged NOTE_TAG (MemCloud.rules (cf a'))) /\ values (MemCloud.rules (cf a')) = ["198.51.100.1"; "203.0.113.7"; "198.51.100.9"].
Proof.
  cbn zeta. split; [|vm_compute; reflexivity].
  pose proof (sync_mirrors (fun _ => false) (fun _ => 5) (fun _ => false) (app false source) source (active source) eq_refl eq_refl zone_distinct) as H.
  rewrite (surjective_pairing (syncCloudflare _ _ _ (app false source))) in H.
  destruct H as (H & _); [vm_compute; reflexivity|apply (bool_decide_unpack _); vm_compute; exact I|]. apply H.
  exists "::ffff:198.51.100.9". eexists.
  split; [by left|]. split; [vm_compute; reflexivity|]. split; [vm_compute; reflexivity|].
  apply (excluded_spec (Some host) (Some (allowed source)) "::ffff:198.51.100.9"); vm_compute; reflexivity.
Defined.

Lemma sync_safe_witness :
  let before := MemCloud.rules zone in
  let after := MemCloud.rules (cf (syncCloudflare (fun _ => false) (fun _ => 5) (fun _ => true) (app false source)).1) in
  Forall (fun r => r ∈ before \/ ar_Mode r = "block") after.
Proof.
  intros before after. apply Forall_forall. intros r Hr. pose proof (sync_safe (fun _ => false) (fun _ => 5) (fun _ => true) (app false source) (proj1 zone_distinct)) as H.
  destruct H as (_ & H & _). destruct (H r Hr) as [?|(_ & ? & _)]; [by left|by right].
Defined.

Lemma shadow_tick_inert_witness :
  let '(a', w', r) := tick (fun _ => false) (fun _ => 0) S {| i_sync := fun _ => 5; i_cidr := fun _ => 5; i_recidive := fun _ => 5; i_lua := 5 |}
                        (fun _ => false) None None (app true source, 0%nat) in
  MemCloud.rules (cf a') = MemCloud.rules zone /\ w' = 1%nat.
Proof.
  pose proof (shadow_tick_inert (fun _ => false) (fun _ => 0) S
    {| i_sync := fun _ => 5; i_cidr := fun _ => 5; i_recidive := fun _ => 5; i_lua := 5 |} (fun _ => false) None None (app true source) 0%nat eq_refl) as H.
  destruct (tick _ _ _ _ _ _ _ _) as [[a' w'] r]. destruct H as (_ & H & _ & _ & _ & _ & _ & Hw). split; [exact (H "z")|exact Hw].
Defined.

Lemma pushLuaState_spec_witness :
  exists p, files (pushLuaState (fun _ => 0) (25 * hour) None None (app false source)) !! "bans.json" = Some p /\
    Version p = 1 /\ (is_Some (CIDRs p !! "198.18.0.0/24")).
Proof.
  destruct (pushLuaState_spec (fun _ => 0) (25 * hour) None None (app false source) (New {| Path := "bans.json"; ShadowPath := ""; ShadowMode := false; Hostname := "h"; PID := 1 |})
    source (active source) saved_bans eq_refl ltac:(discriminate) eq_refl eq_refl) as (p & Hf & _ & Hc & _ & Hv & _).
  exists p. split; [rewrite Hf; apply lookup_insert_eq|]. split; [rewrite Hv; reflexivity|]. apply Hc.
  exists {| CidrBan.BannedAt := 23 * hour; CidrBan.IPCount := 2 |}. split; [vm_compute; reflexivity|vm_compute; reflexivity].
Defined.

Definition cleanup : CleanupApp.CleanupApp (C := MemCloud.Cloud) (X := Source) :=
  {| CleanupApp.cf := zone; CleanupApp.cs := source; CleanupApp.ZoneID := "z"; CleanupApp.dryRun := false; CleanupApp.deletions := [] |}.

Lemma cleanup_spec_witness :
  let '(a', r) := CleanupApp.Run (fun _ => 5) (fun _ => false) cleanup in
  r = Ok tt /\ (forall rule, rule ∈ CleanupApp.rules_in a' -> rule ∈ MemCloud.rules zone).
Proof.
  pose proof (CleanupApp.cleanup_spec (fun _ => 5) (fun _ => false) cleanup source (active source) zone_distinct eq_refl) as H.
  destruct (CleanupApp.Run _ _ cleanup) as [a' r] eqn:E. split; [|apply H]. vm_compute in E. injection E as <- <-. reflexivity.
Defined.

(** Two bans of the network of this host: neither is an address of the host,
    and the rule that is added blocks the whole network with the host in it,
    at Cloudflare, at CrowdSec and in the state file of the web server. *)
Definition neighbours : Source :=
  {| active := []; allowed := [];
     recent := [{| rb_IP := "203.0.113.7"; rb_Scenario := "s"; rb_Origin := "crowdsec"; rb_When := 1; rb_ID := "1" |};
                {| rb_IP := "203.0.113.8"; rb_Scenario := "s"; rb_Origin := "crowdsec"; rb_When := 2; rb_ID := "2" |}]; ranges := [] |}.

Definition neighbours_tick : CrowdSecSyncApp (C := MemCloud.Cloud) (X := Source) :=
  (tick (fun _ => false) (fun _ => 0) (fun w : unit => w)
     {| i_sync := fun _ => 5; i_cidr := fun _ => 5; i_recidive := fun _ => 5; i_lua := 5 |} (fun _ => false) None None
     (app false neighbours, tt)).1.1.

Definition covers (cidr ip : string) : bool :=
  match ParseCIDR cidr, ParseIP ip with Some n, Some a => net_contains n a | _, _ => false end.

Example host_network_banned :
  IsProtected (Some host) "203.0.113.10" && covers "203.0.113.0/24" "203.0.113.10" = true /\
  values (MemCloud.rules (cf neighbours_tick)) = ["198.51.100.1"; "203.0.113.0/24"] /\ ranges (cs neighbours_tick) = ["203.0.113.0/24"] /\
  match files neighbours_tick !! "bans.json" with Some p => bool_decide (is_Some (CIDRs p !! "203.0.113.0/24")) | None => false end = true.
Proof. split_and!; vm_compute; reflexivity. Qed.

End Demo.
