(* ===== verification/Risk.v ===== *)
(** * Risk and classification of events

    The baseline of harmless requests ([internal/security/baseline]), the
    progressive score of an event ([internal/security/risk]) and the
    classification the reporting service starts from
    ([internal/security/classifier]).  Case is folded for ASCII letters. *)

From Stdlib Require Import SpecFloat.
From S2P Require Import Prelude Reports.
Import F64.

Local Open Scope Z_scope.

(** A literal with two decimals: the quotient is the nearest binary64. *)
Definition pct (n : Z) : float64 := div (of_int n) (of_int 100).

(** ** Baseline *)
Module Baseline.

Record BenignAsset := {
  Path : string; Frequency : float64; ExpectedMethods : list string; TypicalStatusCodes : list Z;
}.

Record Matcher := { assets : list BenignAsset; prefixes : list string }.

Definition asset (p : string) (f : Z) (codes : list Z) : BenignAsset :=
  {| Path := p; Frequency := pct f; ExpectedMethods := ["GET"; "HEAD"]; TypicalStatusCodes := codes |}.

Definition NewArleoEUBaseline : Matcher := {|
  assets := [asset "/" 100 [200; 304]; asset "/favicon.ico" 100 [200; 304; 404]; asset "/robots.txt" 80 [200; 304; 404];
             asset "/sitemap.xml" 50 [200; 304; 404]; asset "/manifest.json" 40 [200; 304; 404];
             asset "/apple-touch-icon.png" 30 [200; 304; 404]; asset "/browserconfig.xml" 20 [200; 304; 404]];
  prefixes := ["/css/"; "/js/"; "/fonts/"; "/images/"; "/img/"; "/assets/"] |}.

Definition Match (m : Matcher) (path : string) : option BenignAsset :=
  let normalized := trim_space (to_lower path) in
  match List.find (fun a => bool_decide (normalized = Path a)) (assets m) with
  | Some a => Some a
  | None => (fun p => asset (p +:+ "*") 60 [200; 304; 404]) <$> List.find (fun p => has_prefix p normalized) (prefixes m)
  end.

Definition All (m : Matcher) : list BenignAsset := assets m.

End Baseline.

(** ** Risk *)
Module Risk.

Inductive Category :=
| CategoryBenignBootstrap | CategoryBenignProbe | CategorySuspiciousProbe | CategoryWordPressProbe | CategoryScanner
| CategoryExploitAttempt | CategoryCredentialAttack | CategoryAppSecAttack | CategoryConfirmedAbuse.

#[export] Instance Category_eq_dec : EqDecision Category.
Proof. solve_decision. Defined.

Definition category_text (c : Category) : string :=
  match c with
  | CategoryBenignBootstrap => "benign_bootstrap" | CategoryBenignProbe => "benign_probe"
  | CategorySuspiciousProbe => "suspicious_probe" | CategoryWordPressProbe => "wordpress_probe"
  | CategoryScanner => "scanner" | CategoryExploitAttempt => "exploit_attempt"
  | CategoryCredentialAttack => "credential_attack" | CategoryAppSecAttack => "appsec_attack"
  | CategoryConfirmedAbuse => "confirmed_abuse"
  end.

Inductive DecisionKind := DecisionObserveOnly | DecisionSoftMitigation | DecisionLocalBlock | DecisionPropagableBan.

Definition decision_text (d : DecisionKind) : string :=
  match d with
  | DecisionObserveOnly => "observe_only" | DecisionSoftMitigation => "soft_mitigation"
  | DecisionLocalBlock => "local_block" | DecisionPropagableBan => "propagable_ban"
  end.

(** The fields the assessment reads. *)
Record RiskEvent := {
  IP : string; URIs : list string; UserAgent : string; Action : string; RuleID : string; RuleName : string; Source : string;
  Timestamp : Z; Hits : Z; WindowSeconds : Z; Allowlisted : bool;
}.

Record Assessment := {
  Score : Z; AbuseType : Category; Decision : DecisionKind; Evidence : list string; BenignProbe : bool; Confidence : float64;
  SuppressedLowSignal : bool;
}.

Definition defaultBaseline : Baseline.Matcher := Baseline.NewArleoEUBaseline.

Fixpoint to_upper (s : string) : string :=
  match s with
  | EmptyString => EmptyString
  | String a s =>
      let n := N_of_ascii a in
      String (if ((97 <=? n) && (n <=? 122))%N then ascii_of_N (n - 32) else a) (to_upper s)
  end.

Definition equal_fold (a b : string) : bool := bool_decide (to_lower a = to_lower b).

Definition isBaselineBootstrap (uri method : string) : bool :=
  if negb (bool_decide (method ∈ [""; "GET"; "HEAD"; "BLOCK"; "ALLOW"])) then false
  else match Baseline.Match defaultBaseline uri with Some _ => true | None => false end.

Fixpoint dedup_loop (seen : gset string) (uris : list string) : list string :=
  match uris with
  | [] => []
  | uri :: uris =>
      let normalized := trim_space (to_lower uri) in
      if bool_decide (normalized = "") then dedup_loop seen uris
      else if bool_decide (normalized ∈ seen) then dedup_loop seen uris
      else normalized :: dedup_loop ({[normalized]} ∪ seen) uris
  end.

Definition dedupNormalizeURIs (uris : list string) : list string := dedup_loop ∅ uris.

Definition isBenignURI (uri : string) : bool :=
  bool_decide (uri ∈ ["/favicon.ico"; "/robots.txt"; "/sitemap.xml"; "/apple-touch-icon.png"; "/manifest.json"; "/browserconfig.xml";
                      "/health"; "/healthz"; "/ping"]).

Definition contains_any (s : string) (l : list string) : bool := existsb (str_contains s) l.

Definition isWordPressURI (uri : string) : bool := contains_any uri ["/wp-login.php"; "/xmlrpc.php"; "/wp-admin/"; "/wp-content"].
Definition isSensitiveExtension (uri : string) : bool := contains_any uri [".env"; ".bak"; ".sql"; ".zip"].
Definition isTraversal (uri : string) : bool := contains_any uri ["../"; "%2e%2e"; "/etc/passwd"].
Definition isExploitPayload (uri : string) : bool := contains_any uri ["union+select"; "<script"; "cmd="; "exec="].
Definition isKnownScannerUA (ua : string) : bool := contains_any ua ["sqlmap"; "nikto"; "nmap"; "python-requests"; "curl/"].
Definition isLegitCrawler (ua : string) : bool :=
  contains_any ua ["googlebot"; "bingbot"; "uptimerobot"; "better uptime"; "facebookexternalhit"; "slackbot"].

Definition confidenceFromScore (score : Z) : float64 :=
  if 20 <=? score then pct 95 else if 10 <=? score then pct 82 else if 5 <=? score then pct 65 else pct 25.

Definition severity (c : Category) : Z :=
  match c with
  | CategoryBenignBootstrap => 1 | CategoryBenignProbe => 1 | CategorySuspiciousProbe => 2 | CategoryWordPressProbe => 3
  | CategoryScanner => 4 | CategoryCredentialAttack => 5 | CategoryAppSecAttack => 6 | CategoryExploitAttempt => 7
  | CategoryConfirmedAbuse => 8
  end.

Definition maxSeverity (a b : Category) : Category := if severity a <? severity b then b else a.

(** The variables of the assessment. *)
Record acc := { score : Z; evidence : list string; abuseType : Category; onlyBenign : bool; onlyBootstrap : bool }.

Definition note (n : Z) (why : string) (a : acc) : acc :=
  {| score := score a + n; evidence := evidence a ++ [why]; abuseType := abuseType a; onlyBenign := onlyBenign a;
     onlyBootstrap := onlyBootstrap a |}.
Definition set_type (c : Category) (a : acc) : acc :=
  {| score := score a; evidence := evidence a; abuseType := c; onlyBenign := onlyBenign a; onlyBootstrap := onlyBootstrap a |}.
Definition set_only (benign bootstrap : bool) (a : acc) : acc :=
  {| score := score a; evidence := evidence a; abuseType := abuseType a; onlyBenign := benign; onlyBootstrap := bootstrap |}.

Definition uri_step (method : string) (a : acc) (uri : string) : acc :=
  if isBaselineBootstrap uri method then set_only false (onlyBootstrap a) (note 1 ("baseline_bootstrap:" +:+ uri) a)
  else if isBenignURI uri then set_only (onlyBenign a) false (note 1 ("benign_uri:" +:+ uri) a)
  else if isWordPressURI uri then
    set_only false false (set_type CategoryWordPressProbe (note 3 ("wordpress_probe:" +:+ uri) a))
  else if isSensitiveExtension uri then
    set_only false false (set_type CategoryExploitAttempt (note 10 ("sensitive_extension:" +:+ uri) a))
  else if isTraversal uri then set_only false false (set_type CategoryExploitAttempt (note 10 ("traversal:" +:+ uri) a))
  else if isExploitPayload uri then set_only false false (set_type CategoryExploitAttempt (note 10 ("payload:" +:+ uri) a))
  else set_only false false a.

Definition uri_scan (e : RiskEvent) : acc :=
  let uris := dedupNormalizeURIs (URIs e) in
  let some := negb (bool_decide (uris = [])) in
  foldl (uri_step (to_upper (Action e)))
    {| score := 0; evidence := []; abuseType := CategoryBenignProbe; onlyBenign := some; onlyBootstrap := some |} uris.

Definition cfExplicitBlock (e : RiskEvent) : bool :=
  equal_fold (Action e) "block" &&
  (equal_fold (Source e) "firewallCustom" || equal_fold (Source e) "firewallRules" || equal_fold (Source e) "firewallManaged").

Definition when (b : bool) (f : acc -> acc) (a : acc) : acc := if b then f a else a.

Definition is_probe (c : Category) : bool := bool_decide (c = CategoryBenignProbe) || bool_decide (c = CategorySuspiciousProbe).
Definition is_benign (c : Category) : bool := bool_decide (c = CategoryBenignBootstrap) || bool_decide (c = CategoryBenignProbe).

Definition scanner_step (a : acc) : acc :=
  note 5 "scanner_user_agent" (when (is_probe (abuseType a)) (set_type CategoryScanner) a).

Definition appsec_step (a : acc) : acc :=
  note 10 "appsec_signature" (when (negb (bool_decide (abuseType a = CategoryExploitAttempt))) (set_type CategoryAppSecAttack) a).

Definition hits_step (hits : Z) (a : acc) : acc :=
  if 10 <=? hits then note 10 "high_hit_count" a else if 3 <=? hits then note 5 "repeat_hits" a else a.

Definition floor_step (a : acc) : acc :=
  {| score := if score a <? 0 then 0 else score a; evidence := evidence a; abuseType := abuseType a; onlyBenign := onlyBenign a;
     onlyBootstrap := onlyBootstrap a |}.

Definition block_step (source : string) (a : acc) : acc :=
  let a := note 10 ("cf_rule_block:" +:+ source) a in
  when (is_benign (abuseType a)) (set_type CategorySuspiciousProbe) a.

(** What follows the scan of the URIs, up to the decision. *)
Definition signals (e : RiskEvent) (a : acc) : acc :=
  let ua := to_lower (UserAgent e) in
  let ruleName := to_lower (RuleName e) in
  let a := when (isLegitCrawler ua) (note (-2) "legit_crawler") a in
  let a := when (isKnownScannerUA ua) scanner_step a in
  let a := when (contains_any ruleName ["coraza"; "crs"; "owasp"]) appsec_step a in
  let a := floor_step (hits_step (Hits e) a) in
  let a := when (onlyBootstrap a) (set_type CategoryBenignBootstrap) a in
  let a := when (onlyBenign a) (set_type CategoryBenignProbe) a in
  let a := when (cfExplicitBlock e) (block_step (Source e)) a in
  let a := when (bool_decide (abuseType a = CategoryBenignProbe) && (5 <=? score a)) (set_type CategorySuspiciousProbe) a in
  when (20 <=? score a) (set_type (maxSeverity (abuseType a) CategoryConfirmedAbuse)) a.

Definition decision_of (score : Z) : DecisionKind :=
  if 20 <=? score then DecisionPropagableBan else if 10 <=? score then DecisionLocalBlock
  else if 5 <=? score then DecisionSoftMitigation else DecisionObserveOnly.

Definition Assess (e : RiskEvent) : Assessment :=
  if Allowlisted e then
    {| Score := 0; AbuseType := CategoryBenignProbe; Decision := DecisionObserveOnly; Evidence := ["allowlisted"];
       BenignProbe := true; Confidence := pct 10; SuppressedLowSignal := true |}
  else
    let a := uri_scan e in
    if onlyBootstrap a && negb (cfExplicitBlock e) then
      {| Score := score a; AbuseType := CategoryBenignBootstrap; Decision := DecisionObserveOnly; Evidence := evidence a;
         BenignProbe := false; Confidence := pct 15; SuppressedLowSignal := true |}
    else
      let a := signals e a in
      let confidence := confidenceFromScore (score a) in
      {| Score := score a; AbuseType := abuseType a; Decision := decision_of (score a); Evidence := evidence a;
         BenignProbe := bool_decide (abuseType a = CategoryBenignProbe);
         Confidence := if isKnownScannerUA (to_lower (UserAgent e)) && SFltb confidence (pct 75) then pct 75 else confidence;
         SuppressedLowSignal := score a <? 5 |}.

(** *** Lemmas *)

Lemma uri_step_types method a uri :
  abuseType (uri_step method a uri) = abuseType a \/ abuseType (uri_step method a uri) = CategoryWordPressProbe \/
  abuseType (uri_step method a uri) = CategoryExploitAttempt.
Proof. unfold uri_step. repeat case_match; cbn; auto. Qed.

Lemma uri_step_score method a uri : score a <= score (uri_step method a uri).
Proof. unfold uri_step. repeat case_match; cbn; lia. Qed.

(** What a scan can find, and that its score is not negative. *)
Definition scanned (c : Category) : Prop :=
  c = CategoryBenignProbe \/ c = CategoryWordPressProbe \/ c = CategoryExploitAttempt.

Lemma uri_scan_spec e : 0 <= score (uri_scan e) /\ scanned (abuseType (uri_scan e)).
Proof.
  unfold uri_scan. match goal with |- context [foldl _ ?i _] => assert (0 <= score i /\ scanned (abuseType i)) as Hi by (split; [done|by left]) end.
  revert Hi. match goal with |- context [foldl _ ?i _] => generalize i end.
  induction (dedupNormalizeURIs (URIs e)) as [|u l IH]; intros a Ha; [done|]. cbn [foldl]. apply IH. destruct Ha as [Hs Ht].
  split; [pose proof (uri_step_score (to_upper (Action e)) a u); lia|]. unfold scanned in *.
  destruct (uri_step_types (to_upper (Action e)) a u) as [->|[->| ->]]; auto.
Qed.

Lemma max_confirmed c : maxSeverity c CategoryConfirmedAbuse = CategoryConfirmedAbuse.
Proof. by destruct c. Qed.

(** The types the assessment can end with. *)
Definition assessed (c : Category) (s : Z) : Prop :=
  0 <= s /\ c <> CategoryCredentialAttack /\ (c = CategoryConfirmedAbuse <-> 20 <= s) /\ (c = CategoryBenignProbe -> s < 5).

(** The steps before the decision never give the two types it rules out. *)
Definition early (c : Category) : Prop := c <> CategoryCredentialAttack /\ c <> CategoryConfirmedAbuse.

Lemma early_when b f a : early (abuseType a) -> (early (abuseType a) -> early (abuseType (f a))) -> early (abuseType (when b f a)).
Proof. destruct b; cbn; auto. Qed.

Lemma early_set c a : early c -> early (abuseType (set_type c a)).
Proof. done. Qed.

Lemma floor_nonneg a : 0 <= score (floor_step a).
Proof. unfold floor_step. cbn. destruct (Z.ltb_spec (score a) 0); lia. Qed.

Lemma signals_spec e a : early (abuseType a) -> assessed (abuseType (signals e a)) (score (signals e a)).
Proof.
  intros He. unfold signals. set (ua := to_lower (UserAgent e)).
  set (a1 := when (isLegitCrawler ua) _ a). assert (early (abuseType a1)) as H1 by (by apply early_when).
  set (a2 := when (isKnownScannerUA ua) scanner_step a1).
  assert (early (abuseType a2)) as H2 by (apply early_when; [done|]; intros _; cbn; by apply early_when).
  set (a3 := when (contains_any _ _) appsec_step a2).
  assert (early (abuseType a3)) as H3 by (apply early_when; [done|]; intros _; cbn; by apply early_when).
  set (a4 := floor_step (hits_step (Hits e) a3)).
  assert (early (abuseType a4) /\ 0 <= score a4) as [H4 Hs4].
  { unfold a4. split; [unfold floor_step, hits_step; cbn; repeat case_match; done|]. apply floor_nonneg. }
  set (a5 := when (onlyBootstrap a4) _ a4). assert (early (abuseType a5) /\ score a5 = score a4) as [H5 Hs5] by (unfold a5; by destruct (onlyBootstrap a4)).
  set (a6 := when (onlyBenign a5) _ a5). assert (early (abuseType a6) /\ score a6 = score a5) as [H6 Hs6] by (unfold a6; by destruct (onlyBenign a5)).
  set (a7 := when (cfExplicitBlock e) _ a6).
  assert (early (abuseType a7) /\ 0 <= score a7) as [H7 Hs7].
  { unfold a7, when, block_step. destruct (cfExplicitBlock e); cbn; [|split; [done|lia]]. unfold when. destruct (is_benign _); cbn; (split; [done|lia]). }
  clearbody a7. unfold when, assessed. rewrite max_confirmed. destruct H7 as [Hc Ha].
  destruct (bool_decide_reflect (abuseType a7 = CategoryBenignProbe)) as [Hb|Hb]; cbn [andb].
  - destruct (Z.leb_spec 5 (score a7)); cbn; destruct (Z.leb_spec 20 (score a7)); cbn; repeat split; intros; try done; try lia; congruence.
  - destruct (Z.leb_spec 20 (score a7)); cbn; repeat split; intros; try done; try lia; congruence.
Qed.

Lemma scanned_early c : scanned c -> early c.
Proof. intros [->|[->| ->]]; done. Qed.

(** Only a harmless page load that no rule blocked is a bootstrap. *)
Lemma signals_bootstrap e a :
  abuseType a <> CategoryBenignBootstrap -> onlyBootstrap a = false \/ cfExplicitBlock e = true ->
  abuseType (signals e a) <> CategoryBenignBootstrap.
Proof.
  intros Ha Hb. unfold signals.
  set (a1 := when (isLegitCrawler _) _ a). set (a2 := when (isKnownScannerUA _) scanner_step a1).
  set (a3 := when (contains_any _ _) appsec_step a2). set (a4 := floor_step (hits_step (Hits e) a3)).
  assert (abuseType a4 <> CategoryBenignBootstrap /\ onlyBootstrap a4 = onlyBootstrap a) as [H4 Ho].
  { assert (forall b n w x, abuseType (when b (note n w) x) = abuseType x /\ onlyBootstrap (when b (note n w) x) = onlyBootstrap x) as Hn
      by (by intros []).
    assert (abuseType a2 <> CategoryBenignBootstrap /\ onlyBootstrap a2 = onlyBootstrap a) as [H2 Ho2].
    { assert (abuseType a1 = abuseType a /\ onlyBootstrap a1 = onlyBootstrap a) as [E1 E2] by apply Hn. clearbody a1.
      unfold a2, when, scanner_step. destruct (isKnownScannerUA _); [|split; congruence]. unfold when. destruct (is_probe _); cbn; split; congruence. }
    assert (abuseType a3 <> CategoryBenignBootstrap /\ onlyBootstrap a3 = onlyBootstrap a) as [H3 Ho3].
    { unfold a3. destruct (contains_any _ _); cbn; [|done]. by destruct (negb _). }
    unfold a4, hits_step. by repeat case_match. }
  clearbody a4. rewrite Ho. set (a6 := when (onlyBenign _) _ _). set (a7 := when (cfExplicitBlock e) _ a6).
  assert (abuseType a7 <> CategoryBenignBootstrap) as H7.
  { unfold a7, when. destruct (cfExplicitBlock e) eqn:Ee.
    - unfold block_step, when. destruct (is_benign _) eqn:Eb; [done|]. intros E. unfold is_benign in Eb. by rewrite E in Eb.
    - destruct Hb as [Hb|]; [|done]. unfold a6, when. rewrite Hb. by destruct (onlyBenign a4). }
  clearbody a7. unfold when. rewrite max_confirmed. repeat (case_match; cbn in *); congruence.
Qed.

(** The events that are set aside before the signals are read. *)
Definition set_aside (e : RiskEvent) : bool := Allowlisted e || (onlyBootstrap (uri_scan e) && negb (cfExplicitBlock e)).

(** the bands of the assessment.  The score is never negative; an event
    that is not set aside gets the decision, the low-signal mark and, unless
    its user agent is a known scanner, the confidence of its score; it is
    confirmed abuse exactly from a score of 20, which is also when it is
    decided to be a ban to propagate; an event set aside is only observed; and
    no event is ever a credential attack. *)
Theorem Assess_bands e :
  let r := Assess e in
  0 <= Score r /\ AbuseType r <> CategoryCredentialAttack /\
  (set_aside e = true -> Decision r = DecisionObserveOnly /\ SuppressedLowSignal r = true /\ is_benign (AbuseType r) = true) /\
  (set_aside e = false ->
     Decision r = decision_of (Score r) /\ SuppressedLowSignal r = (Score r <? 5) /\
     (AbuseType r = CategoryConfirmedAbuse <-> 20 <= Score r) /\ (AbuseType r = CategoryBenignProbe -> Score r < 5) /\
     (isKnownScannerUA (to_lower (UserAgent e)) = false -> Confidence r = confidenceFromScore (Score r))).
Proof.
  cbn zeta. unfold Assess, set_aside. destruct (uri_scan_spec e) as [Hs Ht]. destruct (Allowlisted e); [cbn; split_and!; done|].
  destruct (onlyBootstrap (uri_scan e) && negb (cfExplicitBlock e)); [cbn; split_and!; done|]. cbn [orb].
  destruct (signals_spec e (uri_scan e) (scanned_early _ Ht)) as (H1 & H2 & H3 & H4).
  cbn [Score AbuseType Decision SuppressedLowSignal Confidence]. split_and!; try done. intros _. split_and!; try done. by intros ->.
Qed.

(** *** More hits *)

Definition with_hits (h : Z) (e : RiskEvent) : RiskEvent :=
  {| IP := IP e; URIs := URIs e; UserAgent := UserAgent e; Action := Action e; RuleID := RuleID e; RuleName := RuleName e;
     Source := Source e; Timestamp := Timestamp e; Hits := h; WindowSeconds := WindowSeconds e; Allowlisted := Allowlisted e |}.

(** The points of the user agent and of the rule, and those of the hits. *)
Definition agent_points (e : RiskEvent) : Z :=
  (if isLegitCrawler (to_lower (UserAgent e)) then -2 else 0) + (if isKnownScannerUA (to_lower (UserAgent e)) then 5 else 0) +
  (if contains_any (to_lower (RuleName e)) ["coraza"; "crs"; "owasp"] then 10 else 0).
Definition hit_points (h : Z) : Z := if 10 <=? h then 10 else if 3 <=? h then 5 else 0.
Definition block_points (e : RiskEvent) : Z := if cfExplicitBlock e then 10 else 0.

Lemma score_when b f a : score (when b f a) = if b then score (f a) else score a.
Proof. by destruct b. Qed.

Lemma score_type c a : score (set_type c a) = score a.
Proof. done. Qed.

Lemma score_when_type b c a : score (when b (set_type c) a) = score a.
Proof. by destruct b. Qed.

Lemma score_floor a : score (floor_step a) = Z.max 0 (score a).
Proof. unfold floor_step. cbn. destruct (Z.ltb_spec (score a) 0); lia. Qed.

Lemma score_hits h a : score (hits_step h a) = score a + hit_points h.
Proof. unfold hits_step, hit_points. repeat case_match; cbn; lia. Qed.

Lemma score_scanner a : score (scanner_step a) = score a + 5.
Proof. unfold scanner_step. cbn. by destruct (is_probe _). Qed.

Lemma score_appsec a : score (appsec_step a) = score a + 10.
Proof. unfold appsec_step. cbn. by destruct (negb _). Qed.

Lemma score_block src a : score (block_step src a) = score a + 10.
Proof. unfold block_step. rewrite score_when, score_type. by destruct (is_benign _). Qed.

Lemma signals_score e a :
  score (signals e a) = Z.max 0 (score a + agent_points e + hit_points (Hits e)) + block_points e.
Proof.
  unfold signals. rewrite !score_when_type, score_when, score_block, !score_when_type, score_floor, score_hits.
  rewrite score_when, score_appsec, score_when, score_scanner, score_when.
  change (score (note (-2) "legit_crawler" a)) with (score a + -2). unfold agent_points, block_points. repeat case_match; lia.
Qed.

(** more hits never lower the score of an event, and with it neither the
    decision nor the confidence. *)
Theorem Assess_hits_mono e h :
  Hits e <= h -> Score (Assess e) <= Score (Assess (with_hits h e)).
Proof.
  intros Hh. unfold Assess. cbn [Allowlisted with_hits]. destruct (Allowlisted e); [done|].
  change (uri_scan (with_hits h e)) with (uri_scan e). change (cfExplicitBlock (with_hits h e)) with (cfExplicitBlock e).
  destruct (_ && _); [done|]. cbn [Score]. rewrite !signals_score. change (agent_points (with_hits h e)) with (agent_points e).
  change (block_points (with_hits h e)) with (block_points e). cbn [Hits with_hits]. unfold hit_points.
  destruct (Z.leb_spec 10 (Hits e)), (Z.leb_spec 10 h), (Z.leb_spec 3 (Hits e)), (Z.leb_spec 3 h); lia.
Qed.

Definition demo_event (uris : list string) (ua : string) (h : Z) : RiskEvent :=
  {| IP := "203.0.113.7"; URIs := uris; UserAgent := ua; Action := ""; RuleID := ""; RuleName := ""; Source := ""; Timestamp := 0;
     Hits := h; WindowSeconds := 60; Allowlisted := false |}.

Lemma Assess_hits_mono_witness : Score (Assess (demo_event ["/x"] "" 2)) <= Score (Assess (demo_event ["/x"] "" 12)).
Proof. apply (Assess_hits_mono (demo_event ["/x"] "" 2) 12). vm_compute. discriminate. Defined.

Example assess_ex :
  (fun e => (Score (Assess e), category_text (AbuseType (Assess e)))) <$>
    [demo_event ["/wp-login.php"] "Mozilla" 9; demo_event ["/favicon.ico"] "" 1; demo_event ["/.env"; "/a/../b"] "" 1; demo_event ["/ping"] "curl/8" 1;
     demo_event ["/api/.env"] "sqlmap" 3] =
  [(8, "wordpress_probe"); (1, "benign_bootstrap"); (20, "confirmed_abuse"); (6, "suspicious_probe"); (20, "confirmed_abuse")].
Proof. by vm_compute. Qed.

End Risk.

(** ** Classification *)
Module Classifier.
Import Risk.

Record Event := {
  IP : string; URI : string; URIs : list string; Hostname : string; UserAgent : string; Action : string; HTTPMethod : string;
  RuleID : string; RulesetID : string; RuleName : string; Source : string; Timestamp : Z; RayID : string; CountryName : string;
  ASNDescription : string; EdgeResponseStatus : Z; Hits : Z; WindowSec : Z; Ref : string;
}.

Record Classification := {
  cl_AbuseType : string; cl_RiskScore : Z; cl_Confidence : float64; cl_Categories : list string; cl_Evidence : list string;
  SuspectedLowConf : bool; EnforcementStage : string;
}.

Definition mapCategories (c : Category) : list string :=
  match c with
  | CategoryBenignBootstrap => []
  | CategoryWordPressProbe => ["Web App Attack"; "Bad Web Bot"]
  | CategoryScanner | CategorySuspiciousProbe => ["Bad Web Bot"]
  | CategoryCredentialAttack => ["Brute-Force"; "Web App Attack"]
  | CategoryExploitAttempt | CategoryAppSecAttack | CategoryConfirmedAbuse => ["Web App Attack"]
  | CategoryBenignProbe => ["Bad Web Bot"]
  end.

Definition risk_event (e : Event) : RiskEvent :=
  let uris := if bool_decide (URIs e = []) && negb (bool_decide (URI e = "")) then [URI e] else URIs e in
  {| Risk.IP := IP e; Risk.URIs := uris; Risk.UserAgent := UserAgent e; Risk.Action := Action e; Risk.RuleID := RuleID e;
     Risk.RuleName := RuleName e; Risk.Source := Source e; Risk.Timestamp := Timestamp e; Risk.Hits := Hits e;
     Risk.WindowSeconds := WindowSec e; Risk.Allowlisted := false |}.

Definition Classify (e : Event) : Classification :=
  let a := Assess (risk_event e) in
  {| cl_AbuseType := category_text (AbuseType a); cl_RiskScore := Score a; cl_Confidence := Confidence a;
     cl_Categories := mapCategories (AbuseType a); cl_Evidence := Evidence a;
     SuspectedLowConf := SFltb (Confidence a) (pct 70) || SuppressedLowSignal a;
     EnforcementStage := decision_text (Decision a) |}.

(** An event whose classification does not hold a report back: neither benign
    nor of low confidence, with a category. *)
Definition reportable (c : Classification) : bool :=
  negb (bool_decide (cl_AbuseType c ∈ ["benign_bootstrap"; "benign_probe"])) &&
  negb (SFltb (cl_Confidence c) (pct 70) || SuspectedLowConf c) && negb (bool_decide (cl_Categories c = [])).

Definition scanner_agent (e : Event) : bool := isKnownScannerUA (to_lower (UserAgent e)).

Lemma confidence_low s b :
  SFltb (if b && SFltb (confidenceFromScore s) (pct 75) then pct 75 else confidenceFromScore s) (pct 70) = negb b && (s <? 10).
Proof.
  unfold confidenceFromScore. destruct (Z.ltb_spec s 10), (Z.leb_spec 20 s), (Z.leb_spec 10 s); try lia; [|by destruct b; vm_compute..].
  destruct (5 <=? s); by destruct b; vm_compute.
Qed.

(** C27: what can be reported.  An event that is not set aside as a harmless
    page load is reportable exactly from a score of 10, or from a score of 5
    when its user agent is a known scanner; an event set aside never is; and
    no event is ever reported as brute force. *)
Theorem reportable_iff e :
  let c := Classify e in
  (reportable c = true <->
     set_aside (risk_event e) = false /\ (10 <= cl_RiskScore c \/ (scanner_agent e = true /\ 5 <= cl_RiskScore c))) /\
  ("Brute-Force" ∉ cl_Categories c).
Proof.
  cbn zeta. pose proof (Assess_bands (risk_event e)) as Hb. cbn zeta in Hb. destruct Hb as (Hs & Hcred & Haside & Hnot).
  unfold reportable, Classify. cbn [cl_AbuseType cl_RiskScore cl_Confidence cl_Categories SuspectedLowConf].
  split; [|destruct (AbuseType (Assess (risk_event e))); cbn; (by apply (bool_decide_unpack _); vm_compute) || done].
  destruct (set_aside (risk_event e)) eqn:Ea.
  - destruct (Haside eq_refl) as (_ & _ & Hben). split; [|by intros [? _]]. destruct (AbuseType (Assess (risk_event e))); done.
  - destruct (Hnot eq_refl) as (_ & Hlow & Hconf & Hprobe & _). rewrite Hlow.
    assert (SFltb (Confidence (Assess (risk_event e))) (pct 70) = negb (scanner_agent e) && (Score (Assess (risk_event e)) <? 10)) as ->.
    { unfold set_aside in Ea. unfold Assess. apply orb_false_iff in Ea as [-> ->]. cbn [Confidence Score]. apply confidence_low. }
    set (sc := Score (Assess (risk_event e))) in *. set (ty := AbuseType (Assess (risk_event e))) in *.
    assert (ty <> CategoryBenignBootstrap) as Hboot.
    { unfold ty, Assess. unfold set_aside in Ea. apply orb_false_iff in Ea as [-> Ea]. rewrite Ea. cbn [AbuseType]. apply signals_bootstrap.
      - by destruct (uri_scan_spec (risk_event e)) as [_ [->|[->| ->]]].
      - destruct (onlyBootstrap _), (cfExplicitBlock _); cbn in Ea; auto. }
    assert (negb (bool_decide (mapCategories ty = [])) = true) as -> by (clear -Hboot; by destruct ty). rewrite andb_true_r.
    assert (bool_decide (category_text ty ∈ ["benign_bootstrap"; "benign_probe"]) = bool_decide (ty = CategoryBenignProbe)) as ->
      by (clear -Hboot; by destruct ty).
    clearbody sc ty. destruct (bool_decide_reflect (ty = CategoryBenignProbe)) as [Hp|Hp]; cbn [negb andb].
    + specialize (Hprobe Hp). split; [done|]. intros [_ [?|[_ ?]]]; lia.
    + destruct (scanner_agent e), (Z.ltb_spec sc 10), (Z.ltb_spec sc 5); cbn; split; try done; try lia; intros; split; try done; auto; try lia;
        by (left; lia) || (right; lia).
Qed.

End Classifier.
