(* ===== verification/ReportGate.v ===== *)
(** * Decision gate of the reporting service

    The two memories of recent reports, [decisionGate.isDuplicate] of
    [internal/services/reporting/decision_gate.go] and
    [spamhausIPDedup.markSeen] of [spamhaus_dedup.go], and the lock per address
    of the gate, as the steps of the goroutines that use it. *)

From S2P Require Import Prelude.

Local Open Scope Z_scope.

Module Gate.

(** ** Keys remembered for a while *)

Definition purge (now : Z) (m : gmap string Z) : gmap string Z := filter (fun kv => t_after now kv.2 = false) m.

(** The body both memories share: purge, look, and remember a key that is new. *)
Definition remember (ttl now : Z) (key : string) (m : gmap string Z) : gmap string Z * bool :=
  let m := purge now m in
  match m !! key with
  | Some expires => if t_before now expires then (m, true) else (<[key := t_add now ttl]> m, false)
  | None => (<[key := t_add now ttl]> m, false)
  end.

Record spamhausIPDedup := { seen : gmap string Z; ttl : Z }.

Definition newSpamhausIPDedup (ttl0 : Z) : spamhausIPDedup :=
  {| seen := ∅; ttl := if ttl0 <=? 0 then 24 * hour else ttl0 |}.

Definition markSeen (now : Z) (ip : string) (d : spamhausIPDedup) : spamhausIPDedup * bool :=
  let '(m, dup) := remember (ttl d) now ip (seen d) in ({| seen := m; ttl := ttl d |}, dup).

(** ** The gate *)

(** The entry of an address; [mu] tells whether its mutex is taken. *)
Record decisionGateIPLock := { mu : bool; lastUsed : Z; locked : bool }.

(** The map holds pointers, so that an entry outlives its removal from it:
    [ipLocks] gives identifiers, [heap] the entries and [next] the first
    identifier not used yet. *)
Record decisionGate := {
  recentFingerprints : gmap string Z; ipLocks : gmap string nat; dedupTTL : Z; heap : gmap nat decisionGateIPLock; next : nat;
}.

Definition newDecisionGate (ttl0 : Z) : decisionGate :=
  {| recentFingerprints := ∅; ipLocks := ∅; dedupTTL := if ttl0 <=? 0 then 15 * minute else ttl0; heap := ∅; next := 0 |}.

Definition set_fingerprints (m : gmap string Z) (g : decisionGate) : decisionGate :=
  {| recentFingerprints := m; ipLocks := ipLocks g; dedupTTL := dedupTTL g; heap := heap g; next := next g |}.
Definition set_heap (h : gmap nat decisionGateIPLock) (g : decisionGate) : decisionGate :=
  {| recentFingerprints := recentFingerprints g; ipLocks := ipLocks g; dedupTTL := dedupTTL g; heap := h; next := next g |}.

Definition keeps (now ttl : Z) (l : decisionGateIPLock) : bool := locked l || negb (ttl <? t_sub now (lastUsed l)).

Definition pruneIPLocksLocked (now : Z) (g : decisionGate) : decisionGate :=
  {| recentFingerprints := recentFingerprints g;
     ipLocks := filter (fun kv => match heap g !! kv.2 with Some l => keeps now (dedupTTL g) l | None => false end = true) (ipLocks g);
     dedupTTL := dedupTTL g; heap := heap g; next := next g |}.

Definition isDuplicate (now : Z) (key : string) (g : decisionGate) : decisionGate * bool :=
  let '(m, dup) := remember (dedupTTL g) now key (recentFingerprints g) in
  (set_fingerprints m (pruneIPLocksLocked now g), dup).

(** The first section of [lockIP] under [g.mu]: find or make the entry and mark
    it; the goroutine then waits for the mutex of the entry it got. *)
Definition enter (now : Z) (ip : string) (g : decisionGate) : decisionGate * nat :=
  let g := pruneIPLocksLocked now g in
  let '(g, l, m) :=
    match ipLocks g !! ip with
    | Some l => (g, l, match heap g !! l with Some e => mu e | None => false end)
    | None => ({| recentFingerprints := recentFingerprints g; ipLocks := <[ip := next g]> (ipLocks g); dedupTTL := dedupTTL g;
                  heap := heap g; next := S (next g) |}, next g, false)
    end in
  (set_heap (<[l := {| mu := m; lastUsed := now; locked := true |}]> (heap g)) g, l).

Definition set_mu (b : bool) (e : decisionGateIPLock) : decisionGateIPLock := {| mu := b; lastUsed := lastUsed e; locked := locked e |}.

(** The mutex of an entry is taken or released. *)
Definition mutex (b : bool) (l : nat) (g : decisionGate) : decisionGate := set_heap (alter (set_mu b) l (heap g)) g.

(** The section of the function [lockIP] returns, after the release. *)
Definition leave (now : Z) (l : nat) (g : decisionGate) : decisionGate :=
  set_heap (alter (fun e => {| mu := mu e; lastUsed := now; locked := false |}) l (heap g)) g.

(** ** Goroutines at the gate *)

Inductive phase :=
| Outside
| Arriving (ip : string) (at_ : Z)              (** has read the clock *)
| Waiting (ip : string) (at_ : Z) (l : nat)
| Holding (ip : string) (at_ : Z) (l : nat)
| Leaving (ip : string) (at_ : Z) (l : nat).    (** has released the mutex *)

Record sys := { clock : Z; gate : decisionGate; threads : gmap nat phase }.

Definition phase_of (s : sys) (p : nat) : phase := default Outside (threads s !! p).

Inductive act :=
| Tick (d : Z)                      (** time passes *)
| Arrive (p : nat) (ip : string)    (** [now := g.now()] *)
| Enter (p : nat)
| Acquire (p : nat)                 (** [lock.mu.Lock()] returns *)
| Release (p : nat)                 (** [lock.mu.Unlock()] *)
| Leave (p : nat)
| Lookup (now : Z) (key : string).  (** a call of [isDuplicate] that read [now] *)

Definition put (s : sys) (g : decisionGate) (p : nat) (ph : phase) : sys :=
  {| clock := clock s; gate := g; threads := <[p := ph]> (threads s) |}.

Definition step (s : sys) (a : act) : option sys :=
  match a with
  | Tick d => if 0 <=? d then Some {| clock := clock s + d; gate := gate s; threads := threads s |} else None
  | Arrive p ip =>
      match phase_of s p with
      | Outside => if bool_decide (ip = "") then None else Some (put s (gate s) p (Arriving ip (clock s)))
      | _ => None
      end
  | Enter p =>
      match phase_of s p with
      | Arriving ip t => let '(g, l) := enter t ip (gate s) in Some (put s g p (Waiting ip t l))
      | _ => None
      end
  | Acquire p =>
      match phase_of s p with
      | Waiting ip t l =>
          match heap (gate s) !! l with
          | Some e => if mu e then None else Some (put s (mutex true l (gate s)) p (Holding ip t l))
          | None => None
          end
      | _ => None
      end
  | Release p =>
      match phase_of s p with
      | Holding ip t l => Some (put s (mutex false l (gate s)) p (Leaving ip t l))
      | _ => None
      end
  | Leave p =>
      match phase_of s p with
      | Leaving ip t l => Some (put s (leave (clock s) l (gate s)) p Outside)
      | _ => None
      end
  | Lookup now key => if now <=? clock s then Some {| clock := clock s; gate := (isDuplicate now key (gate s)).1; threads := threads s |} else None
  end.

Definition init (ttl0 t : Z) : sys := {| clock := t; gate := newDecisionGate ttl0; threads := ∅ |}.

(** The entry a goroutine uses: its address, the instant it read and the
    identifier it was given. *)
Definition entry_of (ph : phase) : option (string * Z * nat) :=
  match ph with Waiting ip t l | Holding ip t l | Leaving ip t l => Some (ip, t, l) | _ => None end.
Definition uses (s : sys) (p : nat) (ip : string) (t : Z) (l : nat) : Prop := entry_of (phase_of s p) = Some (ip, t, l).

(** Every goroutine that uses an entry arrived at most [dedupTTL] ago. *)
Definition prompt (s : sys) : Prop := forall p ip t l, uses s p ip t l -> clock s <= t + dedupTTL (gate s).

(** The states reached from the initial one through prompt states. *)
Inductive reachable (ttl0 t0 : Z) : sys -> Prop :=
| reach_init : reachable ttl0 t0 (init ttl0 t0)
| reach_step s a s' : reachable ttl0 t0 s -> prompt s -> step s a = Some s' -> reachable ttl0 t0 s'.

Fixpoint run (s : sys) (l : list act) : option sys := match l with [] => Some s | a :: l => step s a ≫= fun s' => run s' l end.

(** ** Lemmas on the memories *)

Lemma purge_lookup now m k e : purge now m !! k = Some e <-> m !! k = Some e /\ now <= e.
Proof. unfold purge. rewrite map_lookup_filter_Some. cbn. unfold t_after. rewrite Z.ltb_ge. done. Qed.

(** A key is new exactly when no entry of it ends after now; a new key is
    remembered until [ttl] later, and a known one keeps its end. *)
Lemma remember_dup ttl0 now k m :
  (remember ttl0 now k m).2 = true <-> exists e, m !! k = Some e /\ now < e.
Proof.
  unfold remember. destruct (purge now m !! k) as [e|] eqn:He; cbn zeta.
  - apply purge_lookup in He as [He _]. unfold t_before. destruct (Z.ltb_spec now e); cbn; split; try done; [eauto|].
    intros (e' & He' & ?). simplify_eq. lia.
  - split; [done|]. intros (e & He' & ?). assert (purge now m !! k = Some e) by (apply purge_lookup; split; [done|lia]). congruence.
Qed.

Lemma remember_lookup ttl0 now k m j :
  (remember ttl0 now k m).1 !! j =
  if bool_decide (j = k) && negb (remember ttl0 now k m).2 then Some (t_add now ttl0) else purge now m !! j.
Proof.
  unfold remember. destruct (purge now m !! k) as [e|] eqn:He; cbn zeta; [case_match|]; cbn [fst snd negb andb];
    rewrite ?andb_false_r, ?andb_true_r; try done; case_bool_decide; subst; rewrite ?lookup_insert_eq, ?lookup_insert_ne by done; done.
Qed.

(** The keys found new by a sequence of calls, each with the instant it read. *)
Fixpoint accepted (ttl0 : Z) (calls : list (Z * string)) (m : gmap string Z) : list (Z * string) :=
  match calls with
  | [] => []
  | (now, k) :: calls =>
      let '(m, dup) := remember ttl0 now k m in (if dup then [] else [(now, k)]) ++ accepted ttl0 calls m
  end.

Definition in_time (calls : list (Z * string)) : Prop := StronglySorted (fun a b : Z * string => a.1 <= b.1) calls.

Lemma accepted_from ttl0 calls m (P : Z * string -> Prop) : Forall P calls -> Forall P (accepted ttl0 calls m).
Proof.
  revert m. induction calls as [|[now k] calls IH]; intros m Hf; cbn [accepted]; [constructor|].
  inversion_clear Hf. destruct (remember ttl0 now k m) as [m' [|]]; cbn; [|constructor; [done|]]; auto.
Qed.

(** No key that is known until [T] is found new before [T]. *)
Lemma accepted_after ttl0 T k calls m :
  in_time calls -> (exists e, m !! k = Some e /\ T <= e) -> Forall (fun c => c.2 = k -> T <= c.1) (accepted ttl0 calls m).
Proof.
  revert m. induction calls as [|[now k'] calls IH]; intros m Hs (e & He & HT); [constructor|].
  destruct (decide (now < T)) as [Hn|Hn].
  2:{ apply accepted_from. inversion_clear Hs as [|? ? _ Hf]. constructor; [cbn; lia|].
      apply (Forall_impl _ _ _ Hf). intros [t k''] Ht. cbn in *. lia. }
  cbn [accepted]. pose proof (remember_dup ttl0 now k' m) as Hd. pose proof (remember_lookup ttl0 now k' m k) as Hl.
  destruct (remember ttl0 now k' m) as [m' dup]. cbn in Hd, Hl.
  assert (k' = k -> dup = true) as Hk by (intros ->; apply Hd; exists e; split; [done|lia]).
  assert (exists e, m' !! k = Some e /\ T <= e) as Hm'.
  { exists e. split; [|done]. rewrite Hl. destruct (bool_decide_reflect (k = k')) as [Hkk|]; [rewrite Hk by done|]; cbn;
      apply purge_lookup; (split; [done|lia]). }
  inversion_clear Hs. destruct dup; cbn; [by apply IH|]. constructor; [|by apply IH]. cbn. intros E. by discriminate Hk.
Qed.

(** two calls that find the same key new are at least [ttl] apart, when
    the calls read the clock in order: the duplicates of a report, and of a
    submission to Spamhaus, are held back for the whole time they should. *)
Theorem accepted_apart ttl0 calls m :
  in_time calls -> StronglySorted (fun a b : Z * string => a.2 = b.2 -> a.1 + ttl0 <= b.1) (accepted ttl0 calls m).
Proof.
  revert m. induction calls as [|[now k] calls IH]; intros m Hs; cbn [accepted]; [constructor|]. inversion_clear Hs.
  pose proof (remember_lookup ttl0 now k m k) as Hl. destruct (remember ttl0 now k m) as [m' dup]. cbn in Hl.
  destruct dup; cbn [app]; [by apply IH|]. constructor; [by apply IH|]. rewrite bool_decide_true in Hl by done.
  eapply Forall_impl; [apply (accepted_after ttl0 (now + ttl0) k); [done|]|].
  - eexists. split; [exact Hl|]. done.
  - intros [t k'] Ht E. cbn in *. by apply Ht.
Qed.

(** ** Lemmas on the lock of an address *)

Lemma phase_of_put s g p ph q : phase_of (put s g p ph) q = if decide (q = p) then ph else phase_of s q.
Proof. unfold phase_of, put. cbn. case_decide; subst; by rewrite ?lookup_insert_eq, ?lookup_insert_ne. Qed.

(** What holds of every goroutine and every entry.  The entry a goroutine was
    given stays the entry of its address, because one of its users arrived no
    later than its last use. *)
Record inv (s : sys) : Prop := {
  i_map : forall p ip t l, uses s p ip t l -> ipLocks (gate s) !! ip = Some l;
  i_arrive : forall p ip t, phase_of s p = Arriving ip t -> t <= clock s;
  i_mu : forall p ip t l, phase_of s p = Holding ip t l -> mu <$> heap (gate s) !! l = Some true;
  i_one : forall p q ip t l ip' t', phase_of s p = Holding ip t l -> phase_of s q = Holding ip' t' l -> p = q;
  i_used : forall p ip t l, uses s p ip t l ->
    t <= clock s /\ exists e q ip' t', heap (gate s) !! l = Some e /\ uses s q ip' t' l /\ t' <= lastUsed e;
  i_heap : forall ip l, ipLocks (gate s) !! ip = Some l -> is_Some (heap (gate s) !! l);
  i_fresh : forall l, is_Some (heap (gate s) !! l) -> (l < next (gate s))%nat;
  i_ttl : 0 <= dedupTTL (gate s);
}.

Lemma keeps_recent now last ttl0 b m : 0 <= ttl0 -> now <= last + ttl0 -> keeps now ttl0 {| mu := m; lastUsed := last; locked := b |} = true.
Proof.
  intros H0 Hn. unfold keeps. cbn. apply orb_true_iff. right. apply negb_true_iff, Z.ltb_ge. unfold t_sub, sat64, int64_min, int64_max. lia.
Qed.

Lemma prune_keeps s now p ip t l :
  inv s -> prompt s -> now <= clock s -> uses s p ip t l -> ipLocks (pruneIPLocksLocked now (gate s)) !! ip = Some l.
Proof.
  intros Hi Hp Hn Hu. cbn. apply map_lookup_filter_Some. split; [by eapply i_map|]. cbn.
  destruct (i_used _ Hi _ _ _ _ Hu) as (_ & e & q & ip' & t' & He & Hq & Ht). rewrite He. destruct e. cbn in Ht.
  apply keeps_recent; [apply (i_ttl _ Hi)|]. pose proof (Hp _ _ _ _ Hq). lia.
Qed.

Lemma prune_sub now g ip l : ipLocks (pruneIPLocksLocked now g) !! ip = Some l -> ipLocks g !! ip = Some l.
Proof. cbn. by intros [? _]%map_lookup_filter_Some. Qed.

Lemma uses_put s g p ph q ip t l :
  uses (put s g p ph) q ip t l <-> if decide (q = p) then entry_of ph = Some (ip, t, l) else uses s q ip t l.
Proof. unfold uses. rewrite phase_of_put. by case_decide. Qed.

Lemma inv_init ttl0 t0 : inv (init ttl0 t0).
Proof.
  split; cbn; unfold uses, phase_of; cbn; intros *; rewrite ?lookup_empty; cbn; try done; try by intros [? ?].
  destruct (Z.leb_spec ttl0 0); unfold minute, second; lia.
Qed.

Lemma inv_tick s d : inv s -> 0 <= d -> inv {| clock := clock s + d; gate := gate s; threads := threads s |}.
Proof.
  intros Hi Hd. destruct Hi as [H1 H2 H3 H4 H5 H6 H7 H8]. split; cbn; try done.
  - intros p ip t Hp. specialize (H2 p ip t Hp). lia.
  - intros p ip t l Hu. destruct (H5 p ip t l Hu) as [Ht Hex]. split; [lia|done].
Qed.

Lemma inv_arrive s p ip : inv s -> phase_of s p = Outside -> inv (put s (gate s) p (Arriving ip (clock s))).
Proof.
  intros Hi Hp. assert (forall q ip' t l, uses (put s (gate s) p (Arriving ip (clock s))) q ip' t l <-> uses s q ip' t l) as Hu.
  { intros. rewrite uses_put. case_decide; [subst|done]. unfold uses. by rewrite Hp. }
  destruct Hi as [H1 H2 H3 H4 H5 H6 H7 H8]. split; cbn [gate clock put]; intros *; rewrite ?phase_of_put, ?Hu; eauto.
  - case_decide; [intros [= <- <-]; lia|eauto].
  - case_decide; [done|eauto].
  - case_decide; [done|]. case_decide; [done|eauto].
  - intros H. destruct (H5 _ _ _ _ H) as (Ht & e & q & ip' & t' & He & Hq & Hle). split; [done|]. exists e, q, ip', t'. by rewrite Hu.
Qed.

(** A step of the mutex changes neither the entries in use nor their times. *)
Lemma inv_mutex s p (b : bool) l ip t :
  inv s -> uses s p ip t l -> (forall q ip' t', phase_of s q = Holding ip' t' l -> q = p) ->
  inv (put s (mutex b l (gate s)) p (if b then Holding ip t l else Leaving ip t l)).
Proof.
  intros Hi Hu Hone. set (s' := put _ _ _ _).
  assert (forall q ip' t' l', uses s' q ip' t' l' <-> uses s q ip' t' l') as Hus.
  { intros. unfold s'. rewrite uses_put. case_decide; [subst|done]. unfold uses in *. rewrite Hu. by destruct b. }
  assert (forall q ip' t' l', phase_of s' q = Holding ip' t' l' -> q = p /\ b = true /\ l' = l \/ q <> p /\ phase_of s q = Holding ip' t' l') as Hh.
  { intros *. unfold s'. rewrite phase_of_put. case_decide; [|auto]. destruct b; [|done]. intros [= <- <- <-]. auto. }
  assert (forall l', is_Some (heap (gate s') !! l') <-> is_Some (heap (gate s) !! l')) as Hd.
  { intros l'. cbn. rewrite lookup_alter_is_Some. done. }
  destruct Hi as [H1 H2 H3 H4 H5 H6 H7 H8]. split; cbn [gate clock put mutex set_heap ipLocks next dedupTTL s']; eauto.
  - intros *. rewrite Hus. eauto.
  - intros *. unfold s'. rewrite phase_of_put. case_decide; [by destruct b|eauto].
  - intros q ip' t' l' [(-> & -> & ->)|[Hq Hp]]%Hh; cbn [heap set_heap mutex leave].
    + rewrite lookup_alter_eq. by destruct (H5 _ _ _ _ Hu) as (_ & e & _ & _ & _ & -> & _).
    + rewrite lookup_alter_ne; [eauto|]. intros ->. by destruct Hq; eapply Hone.
  - intros q1 q2 ip1 t1 l1 ip2 t2 [(-> & _ & ->)|[Hq1 Hp1]]%Hh [(-> & _ & E)|[Hq2 Hp2]]%Hh; eauto; [symmetry; eauto|subst; eauto].
  - intros q ip' t' l'. rewrite Hus. intros Hq. destruct (H5 _ _ _ _ Hq) as (Ht & e & q2 & ip2 & t2 & He & Hq2 & Hle).
    split; [done|]. destruct (decide (l' = l)) as [->|Hne].
    + exists (set_mu b e), q2, ip2, t2. rewrite Hus. cbn [heap set_heap mutex leave]. rewrite lookup_alter_eq, He. done.
    + exists e, q2, ip2, t2. rewrite Hus. cbn [heap set_heap mutex leave]. by rewrite lookup_alter_ne.
  - intros ip' l' Hl. apply Hd. eauto.
  - intros l' Hl. apply H7. by apply Hd.
Qed.

Lemma inv_leave s p ip t l : inv s -> phase_of s p = Leaving ip t l -> inv (put s (leave (clock s) l (gate s)) p Outside).
Proof.
  intros Hi Hp. set (s' := put _ _ _ _).
  assert (forall q ip' t' l', uses s' q ip' t' l' <-> q <> p /\ uses s q ip' t' l') as Hus.
  { intros. unfold s'. rewrite uses_put. case_decide; [subst; cbn; naive_solver|naive_solver]. }
  assert (forall q ph, phase_of s' q = ph -> ph <> Outside -> phase_of s q = ph) as Hph.
  { intros q ph. unfold s'. rewrite phase_of_put. case_decide; [by intros <-|done]. }
  assert (forall l', is_Some (heap (gate s') !! l') <-> is_Some (heap (gate s) !! l')) as Hd.
  { intros l'. cbn. rewrite lookup_alter_is_Some. done. }
  destruct Hi as [H1 H2 H3 H4 H5 H6 H7 H8]. split; cbn [gate clock put leave set_heap ipLocks next dedupTTL s']; eauto.
  - intros *. rewrite Hus. intros [_ ?]. eauto.
  - intros q ip' t' l' Hq. apply Hph in Hq; [|done]. cbn [heap set_heap mutex leave]. pose proof (H3 _ _ _ _ Hq) as Hm.
    destruct (decide (l' = l)) as [->|]; [rewrite lookup_alter_eq; by destruct (heap (gate s) !! l)|by rewrite lookup_alter_ne].
  - intros q ip' t' l'. rewrite Hus. intros [Hne Hq]. destruct (H5 _ _ _ _ Hq) as (Ht & e & q2 & ip2 & t2 & He & Hq2 & Hle).
    split; [done|]. cbn [heap set_heap mutex leave]. destruct (decide (l' = l)) as [->|Hl].
    + eexists _, q, ip', t'. rewrite lookup_alter_eq, He, Hus. done.
    + exists e, q2, ip2, t2. rewrite lookup_alter_ne, Hus by done. split_and!; try done. intros ->. unfold uses in Hq2. rewrite Hp in Hq2. cbn in Hq2. congruence.
  - intros ip' l' Hl. apply Hd. eauto.
  - intros l' Hl. apply H7. by apply Hd.
Qed.

(** Pruning with an instant already read changes nothing that is in use. *)
Lemma inv_prune s now fp :
  inv s -> prompt s -> now <= clock s ->
  inv {| clock := clock s; gate := set_fingerprints fp (pruneIPLocksLocked now (gate s)); threads := threads s |}.
Proof.
  intros Hi Hp Hn. pose proof (fun p ip t l => prune_keeps s now p ip t l Hi Hp Hn) as Hk.
  destruct Hi as [H1 H2 H3 H4 H5 H6 H7 H8]. split; eauto. intros ip l Hl%prune_sub. eauto.
Qed.

(** A goroutine is given an entry, an old one or a new one. *)
Lemma inv_given s p ip t l M N m :
  inv s -> phase_of s p = Arriving ip t -> M !! ip = Some l ->
  (forall q ip' t' l', uses s q ip' t' l' -> M !! ip' = Some l') ->
  (forall q ip' t', phase_of s q = Holding ip' t' l -> m = true) ->
  (forall ip' l', M !! ip' = Some l' -> l' = l \/ is_Some (heap (gate s) !! l')) -> (next (gate s) <= N)%nat -> (l < N)%nat ->
  inv (put s {| recentFingerprints := recentFingerprints (gate s); ipLocks := M; dedupTTL := dedupTTL (gate s);
                heap := <[l := {| mu := m; lastUsed := t; locked := true |}]> (heap (gate s)); next := N |} p (Waiting ip t l)).
Proof.
  intros Hi Hp HM Hold Hm Hin HN Hl. pose proof (i_arrive _ Hi _ _ _ Hp) as Ht. set (s' := put _ _ _ _).
  assert (forall q ip' t' l', uses s' q ip' t' l' -> q = p /\ ip' = ip /\ t' = t /\ l' = l \/ q <> p /\ uses s q ip' t' l') as Hus.
  { intros *. unfold s'. rewrite uses_put. case_decide; [cbn; intros [= <- <- <-]; by left|by right]. }
  assert (forall q ip' t' l', uses s q ip' t' l' -> uses s' q ip' t' l') as Hus'.
  { intros *. unfold s'. rewrite uses_put. case_decide; [|done]. subst. unfold uses. by rewrite Hp. }
  assert (uses s' p ip t l) as Hme by (unfold s'; apply uses_put; by rewrite decide_True).
  assert (forall q ph, phase_of s' q = ph -> (forall a b c, ph <> Waiting a b c) -> phase_of s q = ph) as Hph.
  { intros q ph. unfold s'. rewrite phase_of_put. case_decide; [intros <- Hw; by destruct (Hw ip t l)|done]. }
  destruct Hi as [H1 H2 H3 H4 H5 H6 H7 H8]. split; cbn [gate clock put ipLocks next dedupTTL heap s'].
  - intros q ip' t' l' [(_ & -> & _ & ->)|[_ Hq]]%Hus; eauto.
  - intros q ip' t' Hq%Hph; eauto.
  - intros q ip' t' l' Hq. apply Hph in Hq; [|done]. destruct (decide (l' = l)) as [->|].
    + rewrite lookup_insert_eq. cbn. f_equal. eauto.
    + rewrite lookup_insert_ne by done. eauto.
  - intros q1 q2 ip1 t1 l1 ip2 t2 Hq1 Hq2. apply Hph in Hq1; [|done]. apply Hph in Hq2; [|done]. eauto.
  - intros q ip' t' l' Hq. destruct (decide (l' = l)) as [->|Hne].
    + split; [apply Hus in Hq as [(_ & _ & -> & _)|[_ Hq]]; [done|by apply H5 in Hq as [? _]]|].
      eexists _, p, ip, t. by rewrite lookup_insert_eq.
    + apply Hus in Hq as [(_ & _ & _ & ->)|[_ Hq]]; [done|]. destruct (H5 _ _ _ _ Hq) as (Hc & e & q2 & ip2 & t2 & He & Hq2 & Hle).
      split; [done|]. exists e, q2, ip2, t2. rewrite lookup_insert_ne by done. auto.
  - intros ip' l' Hl'. destruct (decide (l' = l)) as [->|]; [by rewrite lookup_insert_eq|]. rewrite lookup_insert_ne by done.
    by destruct (Hin _ _ Hl').
  - intros l'. destruct (decide (l' = l)) as [->|]; [done|]. rewrite lookup_insert_ne by done. intros Hl'%H7. lia.
  - done.
Qed.

Lemma inv_enter s p ip t :
  inv s -> prompt s -> phase_of s p = Arriving ip t ->
  inv (put s (enter t ip (gate s)).1 p (Waiting ip t (enter t ip (gate s)).2)).
Proof.
  intros Hi Hpr Hp. pose proof (i_arrive _ Hi _ _ _ Hp) as Ht.
  pose proof (inv_prune s t (recentFingerprints (gate s)) Hi Hpr Ht) as Hi'.
  set (g := pruneIPLocksLocked t (gate s)) in *.
  change (set_fingerprints (recentFingerprints (gate s)) g) with g in Hi'.
  set (s1 := {| clock := clock s; gate := g; threads := threads s |}) in *.
  change (put s ?g' p ?ph) with (put s1 g' p ph). change (phase_of s p) with (phase_of s1 p) in Hp.
  unfold enter. fold g. change g with (gate s1). destruct (ipLocks (gate s1) !! ip) as [l|] eqn:El; cbn [fst snd].
  - destruct (i_heap _ Hi' _ _ El) as [e He]. rewrite He. apply (inv_given s1 p ip t l); try done.
    + apply Hi'.
    + intros q ip' t' Hq%(i_mu _ Hi'). rewrite He in Hq. by injection Hq.
    + intros ip' l' Hl'%(i_heap _ Hi'). by right.
    + apply (i_fresh _ Hi'). by rewrite He.
  - set (l := next (gate s1)). assert (forall q ip' t' l', uses s1 q ip' t' l' -> l' <> l) as Hnew.
    { intros q ip' t' l' Hq%(i_map _ Hi')%(i_heap _ Hi')%(i_fresh _ Hi'). unfold l. lia. }
    apply (inv_given s1 p ip t l (<[ip := l]> (ipLocks (gate s1))) (S l) false); try done.
    + by rewrite lookup_insert_eq.
    + intros q ip' t' l' Hq%(i_map _ Hi'). rewrite lookup_insert_ne; [done|]. intros ->. congruence.
    + intros q ip' t' Hq. destruct (Hnew q ip' t' l); [|done]. unfold uses. by rewrite Hq.
    + intros ip' l'. destruct (decide (ip' = ip)) as [->|]; [rewrite lookup_insert_eq; intros [= <-]; by left|].
      rewrite lookup_insert_ne by done. intros Hl'%(i_heap _ Hi'). by right.
    + cbn. lia.
    + unfold l. lia.
Qed.

Lemma step_inv s a s' : inv s -> prompt s -> step s a = Some s' -> inv s'.
Proof.
  intros Hi Hpr Hs. destruct a as [d|p ip|p|p|p|p|now key]; cbn in Hs.
  - destruct (Z.leb_spec 0 d); [|done]. injection Hs as <-. by apply inv_tick.
  - destruct (phase_of s p) eqn:Hp; try done. case_match; [done|]. injection Hs as <-. by apply inv_arrive.
  - destruct (phase_of s p) eqn:Hp; try done. pose proof (inv_enter s p ip at_ Hi Hpr Hp) as He.
    destruct (enter at_ ip (gate s)). by injection Hs as <-.
  - destruct (phase_of s p) eqn:Hp; try done. destruct (heap (gate s) !! l) as [e|] eqn:He; [|done]. destruct (mu e) eqn:Hm; [done|].
    injection Hs as <-. apply (inv_mutex s p true); [done|unfold uses; by rewrite Hp|].
    intros q ip' t' Hq%(i_mu _ Hi). rewrite He in Hq. cbn in Hq. congruence.
  - destruct (phase_of s p) eqn:Hp; try done. injection Hs as <-. apply (inv_mutex s p false); [done|unfold uses; by rewrite Hp|].
    intros q ip' t' Hq. by eapply i_one.
  - destruct (phase_of s p) eqn:Hp; try done. injection Hs as <-. by eapply inv_leave.
  - destruct (Z.leb_spec now (clock s)); [|done]. injection Hs as <-. unfold isDuplicate.
    destruct (remember _ _ _ _) as [m dup]. by apply inv_prune.
Qed.

Lemma reachable_inv ttl0 t0 s : reachable ttl0 t0 s -> inv s.
Proof. induction 1 as [|s a s' _ IH Hp Hs]; [apply inv_init|by eapply step_inv]. Qed.

(** C7: the lock of an address.  As long as every goroutine leaves the gate
    within [dedupTTL] of its arrival, no two goroutines are past the lock of
    the same address at once, whatever the interleaving of arrivals, pruning,
    waits and releases. *)
Theorem lock_exclusive ttl0 t0 s p q ip t l t' l' :
  reachable ttl0 t0 s -> phase_of s p = Holding ip t l -> phase_of s q = Holding ip t' l' -> p = q.
Proof.
  intros Hi%reachable_inv Hp Hq. assert (l' = l) as ->.
  { assert (ipLocks (gate s) !! ip = Some l) as H1 by (eapply (i_map _ Hi); unfold uses; by rewrite Hp).
    assert (ipLocks (gate s) !! ip = Some l') as H2 by (eapply (i_map _ Hi); unfold uses; by rewrite Hq). congruence. }
  by eapply (i_one _ Hi).
Qed.


(** *** Runs *)

Definition promptb (s : sys) : bool :=
  forallb (fun kv => match entry_of kv.2 with Some (_, t, _) => clock s <=? t + dedupTTL (gate s) | None => true end) (map_to_list (threads s)).

Lemma promptb_ok s : promptb s = true -> prompt s.
Proof.
  intros Hb p ip t l Hu. unfold uses, phase_of in Hu. destruct (threads s !! p) as [ph|] eqn:Hp; [|done]. cbn in Hu.
  unfold promptb in Hb. rewrite forallb_forall in Hb. specialize (Hb (p, ph)). cbn in Hb. rewrite Hu in Hb.
  apply Z.leb_le, Hb, list_elem_of_In, elem_of_map_to_list, Hp.
Qed.

Fixpoint run_prompt (s : sys) (l : list act) : option sys :=
  match l with [] => Some s | a :: l => if promptb s then step s a ≫= fun s' => run_prompt s' l else None end.

Lemma run_reachable ttl0 t0 s l s' : reachable ttl0 t0 s -> run_prompt s l = Some s' -> reachable ttl0 t0 s'.
Proof.
  revert s. induction l as [|a l IH]; cbn; intros s Hr Hl; [by injection Hl as <-|]. destruct (promptb s) eqn:Hb; [|done].
  destruct (step s a) as [s1|] eqn:Hs; [|done]. eapply IH; [|exact Hl]. eapply reach_step; [done|by apply promptb_ok|done].
Qed.

Definition demo_ip : string := "203.0.113.7".

(** Goroutine 1 holds the lock while 2 waits for it. *)
Definition demo_run : list act := [Arrive 1 demo_ip; Enter 1; Acquire 1; Tick second; Arrive 2 demo_ip; Lookup second "k"; Enter 2].

Lemma lock_exclusive_witness :
  exists s, reachable 0 0 s /\ phase_of s 1 = Holding demo_ip 0 0 /\ phase_of s 2 = Waiting demo_ip second 0 /\
            Forall (fun q => phase_of s q = Holding demo_ip second 0 -> 1%nat = q) [1%nat; 2%nat].
Proof.
  destruct (run_prompt (init 0 0) demo_run) as [s|] eqn:Hr; [|by vm_compute in Hr]. exists s.
  assert (reachable 0 0 s) as Hreach by (eapply run_reachable; [constructor|exact Hr]).
  assert (phase_of s 1 = Holding demo_ip 0 0 /\ phase_of s 2 = Waiting demo_ip second 0) as [H1 H2]
    by (vm_compute in Hr; injection Hr as <-; by vm_compute).
  split; [done|]. split; [done|]. split; [done|].
  constructor; [|constructor; [|constructor]]; intros Hq; exact (lock_exclusive 0 0 s 1 _ demo_ip 0 0 second 0 Hreach H1 Hq).
Defined.

Lemma accepted_apart_witness :
  StronglySorted (fun a b : Z * string => a.2 = b.2 -> a.1 + 10 <= b.1) (accepted 10 [(0, "a"); (1, "b"); (4, "a"); (10, "a")] ∅) /\
  accepted 10 [(0, "a"); (1, "b"); (4, "a"); (10, "a")] ∅ = [(0, "a"); (1, "b"); (10, "a")].
Proof.
  split; [|by vm_compute]. apply (accepted_apart 10 [(0, "a"); (1, "b"); (4, "a"); (10, "a")] ∅).
  unfold in_time. repeat constructor; cbn; lia.
Defined.

(** A goroutine that stays longer is not protected: 2 waits while 1 holds the
    lock, gets it when 1 releases it, and 1 then marks the entry as free.  Once
    the entry is older than [dedupTTL] the next arrival prunes it and 3 holds a
    second lock of the same address together with 2. *)
Definition late_run : list act :=
  [Arrive 1 demo_ip; Enter 1; Acquire 1; Arrive 2 demo_ip; Enter 2; Release 1; Acquire 2; Leave 1;
   Tick (15 * minute + 1); Arrive 3 demo_ip; Enter 3; Acquire 3].

Theorem lock_shared_when_late :
  exists s, run (init 0 0) late_run = Some s /\
            phase_of s 2 = Holding demo_ip 0 0 /\ phase_of s 3 = Holding demo_ip (15 * minute + 1) 1.
Proof. destruct (run (init 0 0) late_run) as [s|] eqn:Hr; vm_compute in Hr; [|done]. exists s. injection Hr as <-. by vm_compute. Qed.


End Gate.
