(* ===== verification/Reporting.v ===== *)
(** * Reporting service

    The service that turns a classified event into a report
    ([internal/services/reporting]): what holds a report back, the reservation
    or the submission of a report, and the evidence and telemetry it leaves.
    The table of the last report of an address is
    [internal/storage/sqlite/report_dedup.go]. *)

From Stdlib Require Import SpecFloat.
From S2P Require Import Prelude GoFmt Sha256 Netip Trust Reputation Reports Events Outbox Risk ReportGate.
Import F64 AbuseFormat Reports.

Local Open Scope Z_scope.

Module Reporting.

(** ** Data *)

Record Request := { rq_Source : string; rq_Event : Classifier.Event; EvidenceOnly : bool }.

Definition ip_of (req : Request) : string := Classifier.IP (rq_Event req).

(** The values of a telemetry map; [VTime] is the text of an instant in whole
    seconds, and a [VString] is never such a text. *)
Inductive value := VString (s : string) | VStrings (l : list string) | VTime (t : Z) | VAny (a : Json.any).

(** A map of telemetry; [None] is a nil map. *)
Definition metadata : Type := option (gmap string value).

(** [m[k] = v]; the maps the service writes to are never nil. *)
Definition meta_set (k : string) (v : value) (m : metadata) : metadata := insert k v <$> m.

Record SecurityEvent := {
  se_Timestamp : Z; se_Source : string; se_IP : string; se_URI : string; se_Hostname : string; se_RuleID : string;
  se_AbuseType : string; se_RiskScore : Z; se_Confidence : float64; se_EnforcementStage : string; Propagated : bool;
  se_AbuseIPDBReported : bool; se_CloudflareBanned : bool; se_SuppressionReason : string; Severity : string; se_Metadata : metadata;
}.

Definition set_meta (m : metadata) (e : SecurityEvent) : SecurityEvent :=
  {| se_Timestamp := se_Timestamp e; se_Source := se_Source e; se_IP := se_IP e; se_URI := se_URI e; se_Hostname := se_Hostname e;
     se_RuleID := se_RuleID e; se_AbuseType := se_AbuseType e; se_RiskScore := se_RiskScore e; se_Confidence := se_Confidence e;
     se_EnforcementStage := se_EnforcementStage e; Propagated := Propagated e; se_AbuseIPDBReported := se_AbuseIPDBReported e;
     se_CloudflareBanned := se_CloudflareBanned e; se_SuppressionReason := se_SuppressionReason e; Severity := Severity e;
     se_Metadata := m |}.
Definition note_meta (k : string) (v : value) (e : SecurityEvent) : SecurityEvent := set_meta (meta_set k v (se_Metadata e)) e.
Definition set_reason (r : string) (e : SecurityEvent) : SecurityEvent :=
  {| se_Timestamp := se_Timestamp e; se_Source := se_Source e; se_IP := se_IP e; se_URI := se_URI e; se_Hostname := se_Hostname e;
     se_RuleID := se_RuleID e; se_AbuseType := se_AbuseType e; se_RiskScore := se_RiskScore e; se_Confidence := se_Confidence e;
     se_EnforcementStage := se_EnforcementStage e; Propagated := Propagated e; se_AbuseIPDBReported := se_AbuseIPDBReported e;
     se_CloudflareBanned := se_CloudflareBanned e; se_SuppressionReason := r; Severity := Severity e; se_Metadata := se_Metadata e |}.
Definition set_reported (e : SecurityEvent) : SecurityEvent :=
  {| se_Timestamp := se_Timestamp e; se_Source := se_Source e; se_IP := se_IP e; se_URI := se_URI e; se_Hostname := se_Hostname e;
     se_RuleID := se_RuleID e; se_AbuseType := se_AbuseType e; se_RiskScore := se_RiskScore e; se_Confidence := se_Confidence e;
     se_EnforcementStage := se_EnforcementStage e; Propagated := Propagated e; se_AbuseIPDBReported := true;
     se_CloudflareBanned := se_CloudflareBanned e; se_SuppressionReason := se_SuppressionReason e; Severity := Severity e;
     se_Metadata := se_Metadata e |}.
Definition set_stamp (t : Z) (e : SecurityEvent) : SecurityEvent :=
  {| se_Timestamp := t; se_Source := se_Source e; se_IP := se_IP e; se_URI := se_URI e; se_Hostname := se_Hostname e;
     se_RuleID := se_RuleID e; se_AbuseType := se_AbuseType e; se_RiskScore := se_RiskScore e; se_Confidence := se_Confidence e;
     se_EnforcementStage := se_EnforcementStage e; Propagated := Propagated e; se_AbuseIPDBReported := se_AbuseIPDBReported e;
     se_CloudflareBanned := se_CloudflareBanned e; se_SuppressionReason := se_SuppressionReason e; Severity := Severity e;
     se_Metadata := se_Metadata e |}.

(** The metadata of a piece of evidence. *)
Record EvidenceMetadata := { source_name : option string; replay_evidence : option (list string); telemetry_metadata : metadata }.

Record DecisionEvidence := {
  ev_EvidenceID : string; ev_Timestamp : Z; ev_Source : string; ev_IP : string; ev_Hostname : string; ev_URI : string;
  ev_URIs : list string; ev_RuleID : string; ev_AbuseType : string; ev_Categories : list string; ev_RiskScore : Z;
  ev_Confidence : float64; ev_EnforcementStage : string; ev_Decision : string; ev_Comment : string; ev_Reported : bool;
  ev_Suppressed : bool; ev_SuppressionReason : string; ev_AbuseIPDBReported : bool; ev_CloudflareBanned : bool;
  ev_IdempotencyKey : string; DedupKey : string; LastReported : Z; NextAllowed : Z; InputHash : string; DecisionHash : string;
  ev_ClassifierVersion : string; ev_FormatterVersion : string; ev_PolicyVersion : string;
  NormalizedEvent : option Classifier.Event;   (** [None] is the zero event *)
  WAFRef : string; ev_Metadata : EvidenceMetadata;
}.

Record EvidenceExplanation := {
  ex_EvidenceID : string; ex_CreatedAt : Z; ex_Decision : string; ex_Reason : string; ex_Source : string; ex_IP : string;
  ex_Hostname : string; ex_URIs : list string; ex_AbuseType : string; ex_RiskScore : Z; ex_Confidence : float64;
  ex_Categories : list string; ex_Comment : string; ex_LastReportedAt : Z; ex_NextAllowedAt : Z; ex_SuppressionReason : string;
  ex_InputHash : string; ex_DecisionHash : string;
}.

Definition ExplainEvidence (e : DecisionEvidence) : EvidenceExplanation :=
  let reason := if bool_decide (ev_SuppressionReason e = "") then "reported: " +:+ ev_AbuseType e
                else "suppressed: " +:+ ev_SuppressionReason e in
  {| ex_EvidenceID := ev_EvidenceID e; ex_CreatedAt := ev_Timestamp e; ex_Decision := ev_Decision e; ex_Reason := reason;
     ex_Source := ev_Source e; ex_IP := ev_IP e; ex_Hostname := ev_Hostname e; ex_URIs := ev_URIs e; ex_AbuseType := ev_AbuseType e;
     ex_RiskScore := ev_RiskScore e; ex_Confidence := ev_Confidence e; ex_Categories := ev_Categories e; ex_Comment := ev_Comment e;
     ex_LastReportedAt := LastReported e; ex_NextAllowedAt := NextAllowed e; ex_SuppressionReason := ev_SuppressionReason e;
     ex_InputHash := InputHash e; ex_DecisionHash := DecisionHash e |}.

Definition ClassifierVersion : string := "classifier/v1".
Definition FormatterVersion : string := "abuseformat/v1".
Definition PolicyVersion : string := "reporting-policy/v1".

(** ** Pure helpers ([policy.go], [evidence_recorder.go]) *)

Definition reputationLocalSignal (cls : Classifier.Classification) : Reputation.LocalSignal :=
  let ty := Classifier.cl_AbuseType cls in
  {| Reputation.Strength :=
       if bool_decide (ty ∈ ["benign_bootstrap"; "benign_probe"; ""]) then Reputation.SignalNone
       else if bool_decide (ty ∈ ["exploit_attempt"; "appsec_attack"; "confirmed_abuse"]) then Reputation.SignalConfirmedHostile
       else Reputation.SignalWeak;
     Reputation.ls_AbuseType := ty |}.

Definition telemetrySource (source : string) : string :=
  if bool_decide (source = SourceCrowdSecWAF) then "crowdsec_waf"
  else if bool_decide (source = SourceOpenRestyWAF) then "openresty_waf" else "cloudflare_waf".

Definition eventURIs (e : Classifier.Event) : list string :=
  if negb (bool_decide (Classifier.URIs e = [])) then Classifier.URIs e
  else if bool_decide (Classifier.URI e = "") then [] else [Classifier.URI e].

Definition ruleID (id : string) : string := if bool_decide (trim_space id = "") then "unknown" else id.

Definition category_id (c : string) : list string :=
  if bool_decide (c = "Bad Web Bot") then ["19"] else if bool_decide (c = "Brute-Force") then ["18"]
  else if bool_decide (c = "Web App Attack") then ["21"] else [].

(** Skip the ids equal to the one before. *)
Fixpoint squeeze (prev : string) (ids : list string) : list string :=
  match ids with
  | [] => []
  | id :: ids => if bool_decide (id = prev) then squeeze prev ids else id :: squeeze id ids
  end.

Definition categoryIDs (categories : list string) : string :=
  str_join "," (squeeze "" (isort str_lt (List.flat_map category_id categories))).

Definition severityFor (abuseType : string) : string :=
  if bool_decide (abuseType ∈ ["benign_bootstrap"; "benign_probe"]) then "info"
  else if bool_decide (abuseType ∈ ["suspicious_probe"; "wordpress_probe"]) then "warning"
  else if bool_decide (abuseType = "exploit_attempt") then "high"
  else if bool_decide (abuseType = "confirmed_abuse") then "critical" else "warning".

Definition bar (parts : list string) : string := str_join "|" parts.

(** The first 8 bytes of the digest, in hexadecimal. *)
Definition short_hash (s : string) : string := String.substring 0 16 (Sha256.hex_digest s).

Definition uri_list (req : Request) : string := str_join "," (eventURIs (rq_Event req)).

Definition fingerprint (req : Request) (cls : Classifier.Classification) : string :=
  "report-" +:+ short_hash (bar [rq_Source req; ip_of req; uri_list req; Classifier.RuleID (rq_Event req); Classifier.cl_AbuseType cls]).

Definition executionID (req : Request) (cls : Classifier.Classification) : string := "exec-" +:+ fingerprint req cls.

Definition decisionEvidenceID (req : Request) (cls : Classifier.Classification) (suppressionReason : string) (now : Z) : string :=
  "report-ev-" +:+ short_hash (bar [rq_Source req; ip_of req; uri_list req; Classifier.RuleID (rq_Event req);
                                    Classifier.cl_AbuseType cls; suppressionReason; Json.text_time now]).

Definition decisionKind (reported suppressed : bool) : string :=
  if reported then "reported" else if suppressed then "suppressed" else "observed".

Definition evidenceInputHash (req : Request) : string :=
  let e := rq_Event req in
  Sha256.hex_digest (bar [rq_Source req; ip_of req; Classifier.Hostname e; uri_list req; Classifier.UserAgent e; Classifier.Action e;
                          Classifier.RuleID e; Classifier.RuleName e; Json.text_time (Classifier.Timestamp e)]).

Definition evidenceDecisionHash (comment : string) (cls : Classifier.Classification) (decision suppressionReason : string) : string :=
  Sha256.hex_digest (bar [comment; Classifier.cl_AbuseType cls; str_join "," (Classifier.cl_Categories cls); decision; suppressionReason]).

Definition copyMetadata (m : metadata) : metadata :=
  match m with Some g => if bool_decide (g = ∅) then None else Some g | None => None end.

Definition time_at (k : string) (g : gmap string value) : Z := match g !! k with Some (VTime t) => t | _ => 0 end.

Definition evidenceWindowFromMetadata (m : metadata) : Z * Z :=
  match m with Some g => (time_at "last_reported_at" g, time_at "next_allowed_at" g) | None => (0, 0) end.

Definition observedEvidenceID (e : SecurityEvent) : string :=
  "observed-ev-" +:+ short_hash (bar [se_Source e; se_IP e; se_URI e; se_RuleID e; se_AbuseType e; se_SuppressionReason e;
                                      Json.text_time (se_Timestamp e)]).

Definition observedHash (e : SecurityEvent) (salt : string) : string :=
  Sha256.hex_digest (bar [salt; se_Source e; se_IP e; se_URI e; se_Hostname e; se_RuleID e; se_AbuseType e; se_EnforcementStage e;
                          se_SuppressionReason e]).

Definition buildAggregatedReport (req : Request) (cls : Classifier.Classification) (now : Z) : ExecutableReport :=
  let e := rq_Event req in
  let r :=
    {| ExecutionID := executionID req cls; StableIdentityKey := fingerprint req cls; rp_IP := ip_of req; rp_Source := rq_Source req;
       rp_AbuseType := Classifier.cl_AbuseType cls; rp_Categories := categoryIDs (Classifier.cl_Categories cls); Comment := "";
       rp_Action := trim_space (Classifier.Action e); OriginatingOpID := Classifier.RuleID e; rp_CreatedAt := now;
       rp_Hits := maxIntLocal 1 (Classifier.Hits e); rp_WindowSec := Outbox.abuseAggregationWindow / second;
       rp_URIs := eventURIs e; RuleIDs := [ruleID (Classifier.RuleID e)]; Sources := [telemetrySource (rq_Source req)];
       ConfidenceSum := Classifier.cl_Confidence cls; ConfidenceCount := 1; ConfidenceMax := Classifier.cl_Confidence cls |} in
  with_comment (aggregatedAbuseComment r) r.

(** ** Preparation ([prepare.go]); the metrics are left out *)

Definition baseTelemetryEvent (req : Request) (cls : Classifier.Classification) (comment : string) : SecurityEvent :=
  let e := rq_Event req in
  {| se_Timestamp := Classifier.Timestamp e; se_Source := telemetrySource (rq_Source req); se_IP := ip_of req; se_URI := Classifier.URI e;
     se_Hostname := Classifier.Hostname e; se_RuleID := Classifier.RuleID e; se_AbuseType := Classifier.cl_AbuseType cls;
     se_RiskScore := Classifier.cl_RiskScore cls; se_Confidence := Classifier.cl_Confidence cls;
     se_EnforcementStage := Classifier.EnforcementStage cls; Propagated := false; se_AbuseIPDBReported := false;
     se_CloudflareBanned := false; se_SuppressionReason := ""; Severity := severityFor (Classifier.cl_AbuseType cls);
     se_Metadata := Some (<["canonical_comment" := VString comment]> (<["categories" := VStrings (Classifier.cl_Categories cls)]>
                     (<["replay_evidence" := VStrings (Classifier.cl_Evidence cls)]> ∅))) |}.

Record preparedDecision := { classification : Classifier.Classification; comment : string; telemetry : SecurityEvent }.

Definition prepareDecision (req : Request) : preparedDecision :=
  let e := rq_Event req in
  let cls := Classifier.Classify e in
  let c := Build {| Source := rq_Source req; Hits := Classifier.Hits e; WindowSec := Classifier.WindowSec e;
                    Action := Classifier.Action e; AbuseType := Classifier.cl_AbuseType cls; Categories := Classifier.cl_Categories cls;
                    RuleID := ruleID (Classifier.RuleID e); URIs := eventURIs e; Confidence := Classifier.cl_Confidence cls |} in
  {| classification := cls; comment := c; telemetry := baseTelemetryEvent req cls c |}.

Record Result := {
  Classification : Classifier.Classification; rs_Comment : string; Reported : bool; Suppressed : bool; SuppressionReason : string;
  TelemetryEvent : SecurityEvent; rs_Report : option ExecutableReport;
}.

Definition suppressed (cls : Classifier.Classification) (c reason : string) (tm : SecurityEvent) (rep : option ExecutableReport) : Result :=
  {| Classification := cls; rs_Comment := c; Reported := false; Suppressed := true; SuppressionReason := reason; TelemetryEvent := tm;
     rs_Report := rep |}.

(** ** The service *)

(** What the service calls: the telemetry sink, the evidence store, the last
    report of an address, the Spamhaus client and the reputation gate; the
    reporter and the marking of a report are those of the outbox. *)
Class Sink (K : Type) := Publish : SecurityEvent -> K -> K * result unit.
Class EvidenceStore (E : Type) := Append : DecisionEvidence -> E -> E * result unit.
Class ReportTimes (D : Type) := LastReportedAt : Netip.addr -> D -> result (option Z).
Class SpamhausClient (C : Type) := SpamhausReport : Netip.addr -> string -> C -> C * result unit.
Class ReputationGate (G : Type) := EvaluateReport : string -> Reputation.LocalSignal -> G -> G * Reputation.Decision.

(** What no call changes. *)
Record Config := {
  trust : option Trust.Registry; reportWindow : Z; lowConfidence : float64; failClosedOnStore : bool;
}.

Section service.
Context {R K E D C G : Type} `{Outbox.Reporter R} `{Sink K} `{EvidenceStore E} `{Outbox.DedupStore D} `{ReportTimes D}
  `{SpamhausClient C} `{ReputationGate G}.

Record Service := {
  cfg : Config; reporter : option R; sink : option K; evidenceStore : option E;
  reservationStore : option Outbox.ReportReservationStore; dedupStore : option D; gate : Gate.decisionGate;
  spamhausClient : option C; spamhausDedup : Gate.spamhausIPDedup; reputationGate : option G;
}.

Definition New (rep : option R) (k : option K) (registry : option Trust.Registry) (dedupTTL : Z) : Service :=
  let ttl := if dedupTTL <=? 0 then 15 * minute else dedupTTL in
  {| cfg := {| trust := registry; reportWindow := 24 * hour; lowConfidence := pct 70; failClosedOnStore := true |};
     reporter := rep; sink := k; evidenceStore := None; reservationStore := None; dedupStore := None; gate := Gate.newDecisionGate ttl;
     spamhausClient := None; spamhausDedup := Gate.newSpamhausIPDedup (24 * hour); reputationGate := None |}.

Definition set_cfg (c : Config) (s : Service) : Service :=
  {| cfg := c; reporter := reporter s; sink := sink s; evidenceStore := evidenceStore s; reservationStore := reservationStore s;
     dedupStore := dedupStore s; gate := gate s; spamhausClient := spamhausClient s; spamhausDedup := spamhausDedup s;
     reputationGate := reputationGate s |}.
Definition set_reporter (r : R) (s : Service) : Service :=
  {| cfg := cfg s; reporter := Some r; sink := sink s; evidenceStore := evidenceStore s; reservationStore := reservationStore s;
     dedupStore := dedupStore s; gate := gate s; spamhausClient := spamhausClient s; spamhausDedup := spamhausDedup s;
     reputationGate := reputationGate s |}.
Definition set_sink (k : K) (s : Service) : Service :=
  {| cfg := cfg s; reporter := reporter s; sink := Some k; evidenceStore := evidenceStore s; reservationStore := reservationStore s;
     dedupStore := dedupStore s; gate := gate s; spamhausClient := spamhausClient s; spamhausDedup := spamhausDedup s;
     reputationGate := reputationGate s |}.
Definition SetEvidenceStore (e : option E) (s : Service) : Service :=
  {| cfg := cfg s; reporter := reporter s; sink := sink s; evidenceStore := e; reservationStore := reservationStore s;
     dedupStore := dedupStore s; gate := gate s; spamhausClient := spamhausClient s; spamhausDedup := spamhausDedup s;
     reputationGate := reputationGate s |}.
Definition SetReportReservationStore (r : option Outbox.ReportReservationStore) (s : Service) : Service :=
  {| cfg := cfg s; reporter := reporter s; sink := sink s; evidenceStore := evidenceStore s; reservationStore := r;
     dedupStore := dedupStore s; gate := gate s; spamhausClient := spamhausClient s; spamhausDedup := spamhausDedup s;
     reputationGate := reputationGate s |}.
Definition SetReportDedupStore (d : option D) (s : Service) : Service :=
  {| cfg := cfg s; reporter := reporter s; sink := sink s; evidenceStore := evidenceStore s; reservationStore := reservationStore s;
     dedupStore := d; gate := gate s; spamhausClient := spamhausClient s; spamhausDedup := spamhausDedup s;
     reputationGate := reputationGate s |}.
Definition set_gate (g : Gate.decisionGate) (s : Service) : Service :=
  {| cfg := cfg s; reporter := reporter s; sink := sink s; evidenceStore := evidenceStore s; reservationStore := reservationStore s;
     dedupStore := dedupStore s; gate := g; spamhausClient := spamhausClient s; spamhausDedup := spamhausDedup s;
     reputationGate := reputationGate s |}.
Definition set_spamhaus (c : option C) (d : Gate.spamhausIPDedup) (s : Service) : Service :=
  {| cfg := cfg s; reporter := reporter s; sink := sink s; evidenceStore := evidenceStore s; reservationStore := reservationStore s;
     dedupStore := dedupStore s; gate := gate s; spamhausClient := c; spamhausDedup := d; reputationGate := reputationGate s |}.
Definition SetReputationGate (g : option G) (s : Service) : Service :=
  {| cfg := cfg s; reporter := reporter s; sink := sink s; evidenceStore := evidenceStore s; reservationStore := reservationStore s;
     dedupStore := dedupStore s; gate := gate s; spamhausClient := spamhausClient s; spamhausDedup := spamhausDedup s;
     reputationGate := g |}.

Definition SetSpamhausClient (c : option C) (s : Service) : Service := set_spamhaus c (spamhausDedup s) s.
Definition SetReportWindow (window : Z) (s : Service) : Service :=
  if 0 <? window then set_cfg {| trust := trust (cfg s); reportWindow := window; lowConfidence := lowConfidence (cfg s);
                                 failClosedOnStore := failClosedOnStore (cfg s) |} s else s.
Definition SetFailClosedOnStoreError (enabled : bool) (s : Service) : Service :=
  set_cfg {| trust := trust (cfg s); reportWindow := reportWindow (cfg s); lowConfidence := lowConfidence (cfg s);
             failClosedOnStore := enabled |} s.

(** The calls thread the state of the service. *)
Definition M (A : Type) : Type := Service -> Service * A.
Definition ret {A} (x : A) : M A := fun s => (s, x).
Definition bind {A B} (m : M A) (f : A -> M B) : M B := fun s => let '(s, x) := m s in f x s.
Local Notation "'let*' x ':=' m 'in' k" := (bind m (fun x => k)) (at level 200, x binder).

(** A write to the reservation store whose error the caller drops. *)
Definition try_store (f : Outbox.ReportReservationStore -> result Outbox.ReportReservationStore) : M unit := fun s =>
  match reservationStore s with
  | Some st => match f st with Ok st => (SetReportReservationStore (Some st) s, tt) | Err _ => (s, tt) end
  | None => (s, tt)
  end.

Definition publish (e : SecurityEvent) : M unit := fun s =>
  match sink s with Some k => (set_sink (Publish e k).1 s, tt) | None => (s, tt) end.

(** The identifier written, empty when nothing was, and the telemetry event,
    whose map is shared with the caller. *)
Definition append_evidence (ev : DecisionEvidence) (tm : SecurityEvent) : M (string * SecurityEvent) := fun s =>
  match evidenceStore s with
  | None => (s, ("", tm))
  | Some es =>
      let '(es, r) := Append ev es in
      (SetEvidenceStore (Some es) s,
       match r with Err m => ("", note_meta "evidence_store_error" (VString m) tm) | Ok _ => (ev_EvidenceID ev, tm) end)
  end.

Definition recordEvidenceWithID (now : Z) (evidenceID : string) (req : Request) (cls : Classifier.Classification) (c : string)
    (tm : SecurityEvent) (reported suppressed : bool) (suppressionReason : string) : M (string * SecurityEvent) :=
  let '(lastReportedAt, nextAllowedAt) := evidenceWindowFromMetadata (se_Metadata tm) in
  let decision := if bool_decide (suppressionReason = "report_pending") then "report_pending" else decisionKind reported suppressed in
  let e := rq_Event req in
  append_evidence
    {| ev_EvidenceID := evidenceID; ev_Timestamp := now; ev_Source := telemetrySource (rq_Source req); ev_IP := ip_of req;
       ev_Hostname := Classifier.Hostname e; ev_URI := Classifier.URI e; ev_URIs := eventURIs e; ev_RuleID := Classifier.RuleID e;
       ev_AbuseType := Classifier.cl_AbuseType cls; ev_Categories := Classifier.cl_Categories cls;
       ev_RiskScore := Classifier.cl_RiskScore cls; ev_Confidence := Classifier.cl_Confidence cls;
       ev_EnforcementStage := Classifier.EnforcementStage cls; ev_Decision := decision; ev_Comment := c; ev_Reported := reported;
       ev_Suppressed := suppressed; ev_SuppressionReason := suppressionReason; ev_AbuseIPDBReported := reported;
       ev_CloudflareBanned := se_CloudflareBanned tm; ev_IdempotencyKey := executionID req cls; DedupKey := fingerprint req cls;
       LastReported := lastReportedAt; NextAllowed := nextAllowedAt; InputHash := evidenceInputHash req;
       DecisionHash := evidenceDecisionHash c cls decision suppressionReason; ev_ClassifierVersion := ClassifierVersion;
       ev_FormatterVersion := FormatterVersion; ev_PolicyVersion := PolicyVersion; NormalizedEvent := Some e; WAFRef := Classifier.Ref e;
       ev_Metadata := {| source_name := Some (rq_Source req); replay_evidence := Some (Classifier.cl_Evidence cls);
                         telemetry_metadata := copyMetadata (se_Metadata tm) |} |} tm.

Definition recordEvidence (now : Z) (req : Request) (cls : Classifier.Classification) (c : string) (tm : SecurityEvent)
    (reported suppressed : bool) (suppressionReason : string) : M (string * SecurityEvent) :=
  recordEvidenceWithID now (decisionEvidenceID req cls suppressionReason now) req cls c tm reported suppressed suppressionReason.

Definition recordObservedEvidence (now : Z) (e0 : SecurityEvent) : M (string * SecurityEvent) := fun s =>
  match evidenceStore s with
  | None => (s, ("", e0))
  | Some _ =>
      let e := if is_zero_time (se_Timestamp e0) then set_stamp now e0 else e0 in
      let '(s, (id, e')) := append_evidence
        {| ev_EvidenceID := observedEvidenceID e; ev_Timestamp := se_Timestamp e; ev_Source := se_Source e; ev_IP := se_IP e;
           ev_Hostname := se_Hostname e; ev_URI := se_URI e; ev_URIs := []; ev_RuleID := se_RuleID e; ev_AbuseType := se_AbuseType e;
           ev_Categories := []; ev_RiskScore := se_RiskScore e; ev_Confidence := se_Confidence e;
           ev_EnforcementStage := se_EnforcementStage e; ev_Decision := "observed"; ev_Comment := ""; ev_Reported := false;
           ev_Suppressed := negb (bool_decide (se_SuppressionReason e = "")); ev_SuppressionReason := se_SuppressionReason e;
           ev_AbuseIPDBReported := se_AbuseIPDBReported e; ev_CloudflareBanned := se_CloudflareBanned e; ev_IdempotencyKey := "";
           DedupKey := ""; LastReported := 0; NextAllowed := 0; InputHash := observedHash e "input";
           DecisionHash := observedHash e "decision"; ev_ClassifierVersion := ClassifierVersion;
           ev_FormatterVersion := FormatterVersion; ev_PolicyVersion := PolicyVersion; NormalizedEvent := None; WAFRef := "";
           ev_Metadata := {| source_name := None; replay_evidence := None; telemetry_metadata := copyMetadata (se_Metadata e) |} |} e s in
      (s, (id, set_meta (se_Metadata e') e0))
  end.

(** The event published is the caller's: its time is not filled in. *)
Definition Observe (now : Z) (e : SecurityEvent) : M unit :=
  let* r := recordObservedEvidence now e in publish r.2.

(** ** Suppression ([policy.go], [dedup.go]) *)

Definition isProtected (s : Service) (ip : string) : bool :=
  match trust (cfg s) with
  | None => false
  | Some reg => match Netip.ParseAddr ip with None => false | Some _ => negb (bool_decide (Trust.MatchIP reg ip = [])) end
  end.

Definition suppressionReason (now : Z) (req : Request) (cls : Classifier.Classification) : M string := fun s =>
  if isProtected s (ip_of req) then (s, "protected_target")
  else if bool_decide (Classifier.cl_AbuseType cls ∈ ["benign_bootstrap"; "benign_probe"]) then (s, "benign_signal")
  else if SFltb (Classifier.cl_Confidence cls) (lowConfidence (cfg s)) || Classifier.SuspectedLowConf cls then (s, "low_confidence")
  else if bool_decide (Classifier.cl_Categories cls = []) then (s, "no_abuse_categories")
  else
    let '(g, dup) := Gate.isDuplicate now (fingerprint req cls) (gate s) in
    (set_gate g s, if dup then "duplicate_report" else "").

(** Write the evidence of a decision, note its identifier and publish. *)
Definition record_and_publish (rec : M (string * SecurityEvent)) : M SecurityEvent :=
  let* r := rec in
  let tm := if bool_decide (r.1 = "") then r.2 else note_meta "evidence_id" (VString r.1) r.2 in
  let* _ := publish tm in ret tm.

Definition handleSuppressedDecision (now : Z) (req : Request) (cls : Classifier.Classification) (c : string) (tm : SecurityEvent)
    (reason : string) : M (Result * option string) :=
  let* tm := record_and_publish (recordEvidence now req cls c (set_reason reason tm) false true reason) in
  ret (suppressed cls c reason tm None, None).

(** [Format(time.RFC3339)] has no fraction of a second. *)
Definition seconds_of (t : Z) : value := VTime (t / second * second).

Definition enforceRecentReportWindow (now : Z) (req : Request) (cls : Classifier.Classification) (tm : SecurityEvent) (c : string)
    : M (option Result) := fun s =>
  match dedupStore s, Netip.ParseAddr (trim_space (ip_of req)) with
  | Some d, Some ip =>
      match LastReportedAt ip d with
      | Err m =>
          if failClosedOnStore (cfg s) then
            let reason := "abuseipdb_dedup_store_error" in
            let tm := note_meta "dedup_store_error" (VString m) (note_meta "canonical_comment" (VString c) (set_reason reason tm)) in
            (let* tm := record_and_publish (recordEvidence now req cls c tm false true reason) in
             ret (Some (suppressed cls c reason tm None))) s
          else (s, None)
      | Ok None => (s, None)
      | Ok (Some lastReportedAt) =>
          let age := Z.max 0 (t_sub now lastReportedAt) in
          if reportWindow (cfg s) <=? age then (s, None)
          else
            let reason := "abuseipdb_recently_reported" in
            let tm := note_meta "next_allowed_at" (seconds_of (t_add lastReportedAt (reportWindow (cfg s))))
                        (note_meta "last_reported_at" (seconds_of lastReportedAt)
                           (note_meta "event" (VString "abuseipdb_report_suppressed") (set_reason reason tm))) in
            (let* tm := record_and_publish (recordEvidence now req cls c tm false true reason) in
             ret (Some (suppressed cls c reason tm None))) s
      end
  | _, _ => (s, None)
  end.

Definition markReported (now : Z) (ip evidenceID : string) : M (option string) := fun s =>
  match dedupStore s, Netip.ParseAddr (trim_space ip) with
  | Some d, Some a =>
      let '(d, r) := Outbox.MarkReported now a evidenceID d in
      (SetReportDedupStore (Some d) s, match r with Ok _ => None | Err m => Some m end)
  | _, _ => (s, None)
  end.

(** ** A report ([report_attempt.go], [service.go]) *)

Record reportAttempt := { report : ExecutableReport; pendingEvidenceID : string }.

Definition prepareReportAttempt (now : Z) (req : Request) (cls : Classifier.Classification) : reportAttempt :=
  {| report := buildAggregatedReport req cls now; pendingEvidenceID := decisionEvidenceID req cls "report_pending" now |}.

Definition reservation (now : Z) (req : Request) (a : reportAttempt) : Outbox.ReportReservation :=
  {| Outbox.rs_IP := ip_of req; Outbox.rs_Source := telemetrySource (rq_Source req);
     Outbox.IdempotencyKey := ExecutionID (report a); Outbox.EvidenceID := pendingEvidenceID a;
     Outbox.rs_Status := Outbox.ReportStatusPending; Outbox.rs_ExpiresAt := t_add now Outbox.abuseAggregationWindow;
     Outbox.Report := report a |}.

Definition evidence_lost (id : string) (s : Service) : bool := bool_decide (id = "") && match evidenceStore s with Some _ => true | None => false end.

Definition reserve_new (now : Z) (req : Request) (cls : Classifier.Classification) (tm : SecurityEvent) (a : reportAttempt)
    (st : Outbox.ReportReservationStore) : M Result := fun s =>
  let c := Comment (report a) in
  match Outbox.Reserve now (reservation now req a) st with
  | Err m =>
      let reason := "abuseipdb_report_reservation_failed" in
      let tm := note_meta "reservation_error" (VString m) (set_reason reason tm) in
      (let* tm := record_and_publish (recordEvidenceWithID now (pendingEvidenceID a) req cls c tm false true reason) in
       ret (suppressed cls c reason tm None)) s
  | Ok st =>
      (let* r := recordEvidenceWithID now (pendingEvidenceID a) req cls c tm false true "report_pending" in
       let tm := if bool_decide (r.1 = "") then r.2 else note_meta "evidence_id" (VString r.1) r.2 in
       fun s =>
         if evidence_lost r.1 s then
           (let* _ := try_store (Outbox.MarkStatus now (pendingEvidenceID a) Outbox.ReportStatusFailed) in
            let reason := "abuseipdb_report_evidence_failed" in
            let tm := set_reason reason tm in
            let* _ := publish tm in ret (suppressed cls c reason tm (Some (report a)))) s
         else (let* _ := publish tm in ret (suppressed cls c "report_pending" tm (Some (report a)))) s)
        (SetReportReservationStore (Some st) s)
  end.

Definition reserve_pending (now : Z) (req : Request) (cls : Classifier.Classification) (tm : SecurityEvent) (a : reportAttempt)
    (st : Outbox.ReportReservationStore) : M Result :=
  match Outbox.FindPendingByIPAndIdempotencyKey (ip_of req) (ExecutionID (report a)) st with
  | Ok (Some existing) =>
      let tm := note_meta "evidence_id" (VString (Outbox.EvidenceID existing)) (set_reason "report_pending" tm) in
      let* _ := publish tm in ret (suppressed cls (Comment (report a)) "report_pending" tm (Some (report a)))
  | _ => reserve_new now req cls tm a st
  end.

Definition reserveAndRecordPending (now : Z) (req : Request) (cls : Classifier.Classification) (tm : SecurityEvent) (a : reportAttempt)
    : M (option Result * SecurityEvent) := fun s =>
  match reservationStore s with
  | Some st => let '(s, res) := reserve_pending now req cls tm a st s in (s, (Some res, tm))
  | None =>
      (let* r := recordEvidenceWithID now (pendingEvidenceID a) req cls (Comment (report a)) tm false false "report_pending" in
       fun s =>
         if evidence_lost r.1 s then
           let reason := "abuseipdb_report_evidence_failed" in
           let tm := set_reason reason r.2 in
           (let* _ := publish tm in ret (Some (suppressed cls (Comment (report a)) reason tm None), tm)) s
         else (s, (None, r.2))) s
  end.

Definition executeUpstreamReport (now : Z) (req : Request) (cls : Classifier.Classification) (c : string) (tm : SecurityEvent)
    (a : reportAttempt) : M (option (Result * option string)) := fun s =>
  match reporter s with
  | None => (s, None)
  | Some r =>
      let '(r, sent) := Outbox.Execute [report a] r in
      let s := set_reporter r s in
      match sent with
      | Ok _ => (s, None)
      | Err m =>
          let reason := "abuseipdb_report_failed" in
          (let* _ := try_store (Outbox.RecordAttempt now (pendingEvidenceID a) Outbox.ReportStatusFailed m (t_add now (5 * minute))) in
           let* tm := record_and_publish (recordEvidence now req cls c (set_reason reason tm) false true reason) in
           ret (Some (suppressed cls (Comment (report a)) reason tm (Some (report a)), Some m))) s
      end
  end.

Definition finalizeReportedDecision (now : Z) (req : Request) (cls : Classifier.Classification) (c : string) (tm : SecurityEvent)
    (a : reportAttempt) : M Result :=
  let* r := recordEvidence now req cls c (set_reported tm) true false "" in
  let id := if bool_decide (r.1 = "") then pendingEvidenceID a else r.1 in
  let tm := note_meta "evidence_id" (VString id) r.2 in
  let* err := markReported now (ip_of req) id in
  let* _ := match err with
            | Some m => try_store (Outbox.RecordAttempt now (pendingEvidenceID a) Outbox.ReportStatusReportedDedupFailed m 0)
            | None => try_store (Outbox.MarkStatus now (pendingEvidenceID a) Outbox.ReportStatusReported)
            end in
  let tm := match err with Some m => note_meta "dedup_store_mark_error" (VString m) tm | None => tm end in
  let* _ := publish tm in
  ret {| Classification := cls; rs_Comment := c; Reported := true; Suppressed := false; SuppressionReason := ""; TelemetryEvent := tm;
         rs_Report := Some (report a) |}.

Definition submitToSpamhaus (now : Z) (rawIP reason : string) : M unit := fun s =>
  match spamhausClient s, Netip.ParseAddr (trim_space rawIP) with
  | Some c, Some ip =>
      let '(d, dup) := Gate.markSeen now (Netip.addr_string ip) (spamhausDedup s) in
      if dup then (set_spamhaus (Some c) d s, tt) else (set_spamhaus (Some (SpamhausReport ip reason c).1) d s, tt)
  | _, _ => (s, tt)
  end.

(** The reason of a gate that holds the report back. *)
Definition consult_gate (req : Request) (cls : Classifier.Classification) : M (option string) := fun s =>
  match reputationGate s with
  | None => (s, None)
  | Some g =>
      let '(g, d) := EvaluateReport (ip_of req) (reputationLocalSignal cls) g in
      (SetReputationGate (Some g) s,
       if negb (Reputation.Shadow d) && negb (Reputation.AllowReport d) then Some (Reputation.Reason d) else None)
  end.

(** A call that finds the lock of its address free; what other goroutines do in
    the meantime is the subject of [ReportGate]. *)
Definition with_lock {A} (t0 t1 : Z) (ip : string) (m : M A) : M A := fun s =>
  if bool_decide (ip = "") then m s
  else
    let '(g, l) := Gate.enter t0 ip (gate s) in
    let '(s, x) := m (set_gate (Gate.mutex true l g) s) in
    (set_gate (Gate.leave t1 l (Gate.mutex false l (gate s))) s, x).

(** What the call does once it holds the lock. *)
Definition locked_section (now : Z) (req : Request) (p : preparedDecision) : M (Result * option string) :=
  let cls := classification p in
  let c := comment p in
  let* recent := enforceRecentReportWindow now req cls (telemetry p) c in
  match recent with
  | Some res => ret (res, None)
  | None =>
      let a := prepareReportAttempt now req cls in
      let* pending := reserveAndRecordPending now req cls (telemetry p) a in
      match pending.1 with
      | Some res => ret (res, None)
      | None =>
          let* sent := executeUpstreamReport now req cls c pending.2 a in
          match sent with
          | Some x => ret x
          | None => let* res := finalizeReportedDecision now req cls c pending.2 a in ret (res, None)
          end
      end
  end.

(** [t0] is the time of the decision, [t1] the time the lock is held. *)
Definition Process (t0 t1 : Z) (req : Request) : M (Result * option string) :=
  let p := prepareDecision req in
  let hold := handleSuppressedDecision t0 req (classification p) (comment p) (telemetry p) in
  if EvidenceOnly req then hold "waf_evidence_only"
  else
    let* reason := suppressionReason t0 req (classification p) in
    if negb (bool_decide (reason = "")) then hold reason
    else
      let* verdict := consult_gate req (classification p) in
      match verdict with
      | Some reason => hold reason
      | None =>
          let* _ := submitToSpamhaus t0 (ip_of req) (Classifier.cl_AbuseType (classification p)) in
          with_lock t0 t1 (trim_space (ip_of req)) (locked_section t1 req p)
      end.

(** ** Lemmas *)

(** The parts of the service that evidence, telemetry, the gates and Spamhaus
    leave alone. *)
Record near (s s' : Service) : Prop := {
  n_cfg : cfg s' = cfg s; n_reporter : reporter s' = reporter s; n_store : reservationStore s' = reservationStore s;
  n_dedup : dedupStore s' = dedupStore s;
}.

#[local] Instance near_preorder : PreOrder near.
Proof. split; [by split|]. intros s1 s2 s3 [] []. split; congruence. Qed.

Lemma near_publish e s : near s (publish e s).1.
Proof. unfold publish. by destruct (sink s). Qed.

Lemma near_append ev tm s : near s (append_evidence ev tm s).1.
Proof. unfold append_evidence. destruct (evidenceStore s); [|done]. by destruct (Append _ _). Qed.

Lemma near_record now id req cls c tm rp sp reason s : near s (recordEvidenceWithID now id req cls c tm rp sp reason s).1.
Proof. unfold recordEvidenceWithID. destruct (evidenceWindowFromMetadata _). apply near_append. Qed.

Lemma bind_eq {A B} (m : M A) (f : A -> M B) s : bind m f s = f (m s).2 (m s).1.
Proof. unfold bind. by destruct (m s). Qed.

Lemma near_bind {A B} (m : M A) (f : A -> M B) s :
  near s (m s).1 -> (forall x s', near s' (f x s').1) -> near s (bind m f s).1.
Proof. unfold bind. intros Hm Hf. destruct (m s) as [s1 x]. cbn in Hm. etrans; [done|apply Hf]. Qed.

Lemma near_ret {A} (x : A) s : near s (ret x s).1.
Proof. done. Qed.

Lemma near_record_publish rec s : near s (rec s).1 -> near s (record_and_publish rec s).1.
Proof.
  intros Hr. apply near_bind; [done|]. intros x s'. apply near_bind; [apply near_publish|]. intros. apply near_ret.
Qed.

Lemma near_hold now req cls c tm reason s : near s (handleSuppressedDecision now req cls c tm reason s).1.
Proof.
  apply near_bind; [apply near_record_publish, near_record|]. intros. apply near_ret.
Qed.

Lemma near_suppression now req cls s : near s (suppressionReason now req cls s).1.
Proof. unfold suppressionReason. repeat case_match; done. Qed.

Lemma near_gate req cls s : near s (consult_gate req cls s).1.
Proof. unfold consult_gate. repeat case_match; done. Qed.

Lemma near_spamhaus now ip reason s : near s (submitToSpamhaus now ip reason s).1.
Proof. unfold submitToSpamhaus. repeat case_match; done. Qed.

Lemma near_window now req cls tm c s : near s (enforceRecentReportWindow now req cls tm c s).1.
Proof.
  unfold enforceRecentReportWindow. repeat case_match; try done;
    (apply near_bind; [apply near_record_publish, near_record|intros; apply near_ret]).
Qed.

(** A result that is not a report. *)
Lemma hold_result now req cls c tm reason s :
  (handleSuppressedDecision now req cls c tm reason s).2.2 = None /\
  SuppressionReason (handleSuppressedDecision now req cls c tm reason s).2.1 = reason /\
  Reported (handleSuppressedDecision now req cls c tm reason s).2.1 = false.
Proof. unfold handleSuppressedDecision, bind. by destruct (record_and_publish _ _). Qed.

(** The window of the last report of the address is over, or unknown. *)
Definition window_open (now : Z) (req : Request) (s : Service) : bool :=
  match dedupStore s, Netip.ParseAddr (trim_space (ip_of req)) with
  | Some d, Some ip =>
      match LastReportedAt ip d with
      | Err _ => negb (failClosedOnStore (cfg s))
      | Ok None => true
      | Ok (Some last) => reportWindow (cfg s) <=? Z.max 0 (t_sub now last)
      end
  | _, _ => true
  end.

Lemma window_spec now req cls tm c s :
  if window_open now req s then enforceRecentReportWindow now req cls tm c s = (s, None)
  else exists res, (enforceRecentReportWindow now req cls tm c s).2 = Some res /\ Reported res = false.
Proof.
  unfold window_open, enforceRecentReportWindow. destruct (dedupStore s) as [d|]; [|done].
  destruct (Netip.ParseAddr _) as [ip|]; [|done]. destruct (LastReportedAt ip d) as [[last|]|m]; try done.
  - cbn zeta. destruct (_ <=? _); [done|]. unfold bind. destruct (record_and_publish _ _). eexists. by split.
  - destruct (failClosedOnStore (cfg s)); cbn; [|done]. unfold bind. destruct (record_and_publish _ _). eexists. by split.
Qed.

(** The checks a report passes before the lock, and those under it. *)
Definition cls_of (req : Request) : Classifier.Classification := Classifier.Classify (rq_Event req).

Record cleared (t0 t1 : Z) (req : Request) (s : Service) : Prop := {
  c_live : EvidenceOnly req = false;
  c_protected : isProtected s (ip_of req) = false;
  c_abuse : Classifier.cl_AbuseType (cls_of req) ∉ ["benign_bootstrap"; "benign_probe"];
  c_confident : SFltb (Classifier.cl_Confidence (cls_of req)) (lowConfidence (cfg s)) || Classifier.SuspectedLowConf (cls_of req) = false;
  c_categories : Classifier.cl_Categories (cls_of req) <> [];
  c_new : (Gate.isDuplicate t0 (fingerprint req (cls_of req)) (gate s)).2 = false;
  c_gate : (consult_gate req (cls_of req) s).2 = None;
  c_window : window_open t1 req s = true;
}.

(** The state in which the locked section starts. *)
Definition admitted (t0 : Z) (req : Request) (s : Service) : Prop :=
  isProtected s (ip_of req) = false /\ (Classifier.cl_AbuseType (cls_of req) ∉ ["benign_bootstrap"; "benign_probe"]) /\
  SFltb (Classifier.cl_Confidence (cls_of req)) (lowConfidence (cfg s)) || Classifier.SuspectedLowConf (cls_of req) = false /\
  Classifier.cl_Categories (cls_of req) <> [] /\ (Gate.isDuplicate t0 (fingerprint req (cls_of req)) (gate s)).2 = false.

Lemma suppression_spec t0 req s :
  (suppressionReason t0 req (cls_of req) s).2 = "" <-> admitted t0 req s.
Proof.
  unfold suppressionReason, admitted. destruct (isProtected _ _); [split; [done|by intros [? _]]|].
  destruct (bool_decide_reflect (Classifier.cl_AbuseType (cls_of req) ∈ ["benign_bootstrap"; "benign_probe"])) as [|];
    [split; [done|by intros (_ & ? & _)]|].
  destruct (_ || _); [split; [done|by intros (_ & _ & ? & _)]|].
  destruct (bool_decide_reflect (Classifier.cl_Categories (cls_of req) = [])); [split; [done|by intros (_ & _ & _ & ? & _)]|].
  destruct (Gate.isDuplicate _ _ _) as [g []]; cbn; split; try done. by intros (_ & _ & _ & _ & ?).
Qed.

Lemma suppression_rep t0 req s : reputationGate (suppressionReason t0 req (cls_of req) s).1 = reputationGate s.
Proof. unfold suppressionReason. repeat case_match; done. Qed.

Lemma consult_of_rep req s s' : reputationGate s' = reputationGate s -> (consult_gate req (cls_of req) s').2 = (consult_gate req (cls_of req) s).2.
Proof. unfold consult_gate. intros ->. destruct (reputationGate s); [|done]. by destruct (EvaluateReport _ _ _). Qed.

Lemma near_open now req s s' : near s s' -> window_open now req s' = window_open now req s.
Proof. intros [Hc _ _ Hd]. unfold window_open. by rewrite Hc, Hd. Qed.

(** A call is held back before the lock, or runs its locked section in a state
    that differs in none of the stores. *)
Lemma Process_cases t0 t1 req s :
  (EvidenceOnly req = true \/ ~ admitted t0 req s \/ (consult_gate req (cls_of req) s).2 <> None) /\
    near s (Process t0 t1 req s).1 /\ Reported (Process t0 t1 req s).2.1 = false /\ (Process t0 t1 req s).2.2 = None \/
  (EvidenceOnly req = false /\ admitted t0 req s /\ (consult_gate req (cls_of req) s).2 = None) /\
    exists s1 s2, near s s1 /\ near (locked_section t1 req (prepareDecision req) s1).1 s2 /\
      Process t0 t1 req s = (s2, (locked_section t1 req (prepareDecision req) s1).2).
Proof.
  unfold Process. destruct (EvidenceOnly req).
  { left. split; [by left|]. split; [apply near_hold|]. by destruct (hold_result t0 req (classification (prepareDecision req)) (comment (prepareDecision req)) (telemetry (prepareDecision req)) "waf_evidence_only" s) as (? & _ & ?). }
  change (classification (prepareDecision req)) with (cls_of req).
  pose proof (suppression_spec t0 req s) as Hsup. pose proof (near_suppression t0 req (cls_of req) s) as N1.
  pose proof (suppression_rep t0 req s) as Hrep. unfold bind. destruct (suppressionReason t0 req (cls_of req) s) as [s1 reason]. cbn in *.
  destruct (bool_decide_reflect (reason = "")) as [Hr|Hr]; cbn [negb].
  2:{ left. split; [right; left; tauto|]. split; [etrans; [exact N1|apply near_hold]|].
      by destruct (hold_result t0 req (cls_of req) (comment (prepareDecision req)) (telemetry (prepareDecision req)) reason s1) as (? & _ & ?). }
  apply (consult_of_rep req) in Hrep. pose proof (near_gate req (cls_of req) s1) as N2. rewrite <- Hrep.
  destruct (consult_gate req (cls_of req) s1) as [s2 verdict]. cbn in *. destruct verdict as [why|].
  { left. split; [by right; right|]. split; [etrans; [exact N1|etrans; [exact N2|apply near_hold]]|].
    by destruct (hold_result t0 req (cls_of req) (comment (prepareDecision req)) (telemetry (prepareDecision req)) why s2) as (? & _ & ?). }
  right. split; [split_and!; [done|by apply Hsup|done]|].
  pose proof (near_spamhaus t0 (ip_of req) (Classifier.cl_AbuseType (cls_of req)) s2) as N3.
  destruct (submitToSpamhaus _ _ _ s2) as [s3 []]. cbn in N3. assert (near s s3) as N by (etrans; [exact N1|etrans; [exact N2|done]]).
  unfold with_lock. destruct (bool_decide _).
  - exists s3, (locked_section t1 req (prepareDecision req) s3).1. split_and!; [done|done|]. by destruct (locked_section _ _ _ _).
  - destruct (Gate.enter _ _ _) as [g l]. set (s4 := set_gate (Gate.mutex true l g) s3).
    exists s4. destruct (locked_section t1 req (prepareDecision req) s4) as [s5 x].
    exists (set_gate (Gate.leave t1 l (Gate.mutex false l (gate s5))) s5). split; [etrans; [exact N|done]|]. by split.
Qed.

(** Everything the reservation store is not part of. *)
Record calm (s s' : Service) : Prop := {
  k_cfg : cfg s' = cfg s; k_reporter : reporter s' = reporter s; k_dedup : dedupStore s' = dedupStore s;
}.

#[local] Instance calm_preorder : PreOrder calm.
Proof. split; [by split|]. intros s1 s2 s3 [] []. split; congruence. Qed.

Lemma near_calm s s' : near s s' -> calm s s'.
Proof. by intros []. Qed.

Lemma calm_try f s : calm s (try_store f s).1.
Proof. unfold try_store. repeat case_match; done. Qed.

(** What a reservation leaves in the store: nothing new when the report waits
    already or cannot be reserved; the reservation, cancelled when its evidence
    was lost. *)
Definition reserved (now : Z) (req : Request) (st st' : Outbox.ReportReservationStore) : Prop :=
  let a := prepareReportAttempt now req (cls_of req) in
  st' = st \/
  exists st1, Outbox.Reserve now (reservation now req a) st = Ok st1 /\
    (st' = st1 \/ Outbox.MarkStatus now (pendingEvidenceID a) Outbox.ReportStatusFailed st1 = Ok st').

(** A result that is published and reports nothing. *)
Lemma publish_result tm cls c reason tm' rep s :
  let r := bind (publish tm) (fun _ => ret (suppressed cls c reason tm' rep)) s in near s r.1 /\ Reported r.2 = false.
Proof. cbn zeta. unfold bind. pose proof (near_publish tm s) as Hp. destruct (publish tm s) as [s1 []]. by split. Qed.

Lemma reserve_spec now req tm st s :
  reservationStore s = Some st ->
  let r := reserve_pending now req (cls_of req) tm (prepareReportAttempt now req (cls_of req)) st s in
  calm s r.1 /\ Reported r.2 = false /\ exists st', reservationStore r.1 = Some st' /\ reserved now req st st'.
Proof.
  intros Hs. cbn zeta.
  assert (forall m : M Result, near s (m s).1 /\ Reported (m s).2 = false ->
    calm s (m s).1 /\ Reported (m s).2 = false /\ exists st', reservationStore (m s).1 = Some st' /\ reserved now req st st') as Hnear.
  { intros m [N Hr]. split; [by apply near_calm|]. split; [done|]. exists st. rewrite (n_store _ _ N). split; [done|by left]. }
  unfold reserve_pending. set (a := prepareReportAttempt now req (cls_of req)) in *.
  assert (let r := reserve_new now req (cls_of req) tm a st s in
          calm s r.1 /\ Reported r.2 = false /\ exists st', reservationStore r.1 = Some st' /\ reserved now req st st') as Hnew.
  2:{ destruct (Outbox.FindPendingByIPAndIdempotencyKey _ _ _) as [[existing|]|m]; try done. apply Hnear, publish_result. }
  cbn zeta. destruct (Outbox.Reserve now (reservation now req a) st) as [st1|m] eqn:Er.
  2:{ apply Hnear. unfold reserve_new. rewrite Er, bind_eq. split; [|done]. apply near_record_publish, near_record. }
  clear Hnear. unfold reserve_new. rewrite Er, bind_eq. set (s1 := SetReportReservationStore (Some st1) s).
  pose proof (near_record now (pendingEvidenceID a) req (cls_of req) (Comment (report a)) tm false true "report_pending" s1) as N1.
  destruct (recordEvidenceWithID _ _ _ _ _ _ _ _ _ s1) as [s2 r]. cbn [fst snd] in N1 |- *.
  assert (calm s s2) as Ka by (apply near_calm in N1; by destruct N1). pose proof (n_store _ _ N1) as Hst. cbn in Hst.
  destruct (evidence_lost r.1 s2).
  - rewrite bind_eq. cbn zeta. match goal with |- context [bind (publish ?t) (fun _ => ret (suppressed ?c ?x ?y ?t' ?z)) ?s'] =>
      destruct (publish_result t c x y t' z s') as [N2 Hr] end.
    split; [etrans; [exact Ka|etrans; [apply calm_try|by apply near_calm]]|]. split; [exact Hr|]. rewrite (n_store _ _ N2). unfold try_store. rewrite Hst.
    destruct (Outbox.MarkStatus _ _ _ st1) as [st2|] eqn:Em; cbn; eexists; (split; [done || exact Hst|]); right; exists st1; (split; [done|]); auto.
  - match goal with |- context [bind (publish ?t) (fun _ => ret (suppressed ?c ?x ?y ?t' ?z)) ?s'] =>
      destruct (publish_result t c x y t' z s') as [N2 Hr] end.
    split; [etrans; [exact Ka|by apply near_calm]|]. split; [exact Hr|]. rewrite (n_store _ _ N2), Hst. eexists. split; [done|].
    right. eauto.
Qed.

(** The end of a report: the dedup store is marked when there is one and the
    address parses. *)
Definition marks (now : Z) (req : Request) (id : string) (d : option D) : option D :=
  match d, Netip.ParseAddr (trim_space (ip_of req)) with
  | Some d, Some a => Some (Outbox.MarkReported now a id d).1
  | _, _ => d
  end.

Lemma finalize_spec now req cls c tm a s :
  let r := finalizeReportedDecision now req cls c tm a s in
  cfg r.1 = cfg s /\ reporter r.1 = reporter s /\ Reported r.2 = true /\ exists id, dedupStore r.1 = marks now req id (dedupStore s).
Proof.
  cbn zeta. unfold finalizeReportedDecision. rewrite bind_eq.
  pose proof (near_record now (decisionEvidenceID req cls "" now) req cls c (set_reported tm) true false "" s) as N1.
  unfold recordEvidence. destruct (recordEvidenceWithID _ _ _ _ _ _ _ _ _ s) as [s1 r]. cbn [fst snd] in N1 |- *.
  set (id := if bool_decide (r.1 = "") then _ else _). rewrite bind_eq.
  assert (cfg (markReported now (ip_of req) id s1).1 = cfg s1 /\ reporter (markReported now (ip_of req) id s1).1 = reporter s1 /\
          dedupStore (markReported now (ip_of req) id s1).1 = marks now req id (dedupStore s1)) as (M1 & M2 & M3).
  { unfold markReported, marks. destruct (dedupStore s1) as [d|] eqn:Ed; [|by split_and!].
    destruct (Netip.ParseAddr _); [|by split_and!]. by destruct (Outbox.MarkReported _ _ _ d). }
  destruct (markReported now (ip_of req) id s1) as [s2 err]. cbn [fst snd] in *. rewrite bind_eq.
  assert (calm s2 ((match err with
            | Some m => try_store (Outbox.RecordAttempt now (pendingEvidenceID a) Outbox.ReportStatusReportedDedupFailed m 0)
            | None => try_store (Outbox.MarkStatus now (pendingEvidenceID a) Outbox.ReportStatusReported)
            end) s2).1) as Ka by (destruct err; apply calm_try).
  set (s3 := (_ s2).1) in *. rewrite bind_eq. cbn [fst snd ret Reported].
  match goal with |- context [publish ?t s3] => pose proof (near_calm _ _ (near_publish t s3)) as K2; set (s4 := (publish t s3).1) in * end.
  destruct N1 as [N1 N2 _ N4], Ka as [Kc Kr Kd], K2 as [Lc Lr Ld]. rewrite Lc, Lr, Ld, Kc, Kr, Kd, M1, M2, M3, N1, N2, N4. eauto.
Qed.


Definition report_of (now : Z) (req : Request) : ExecutableReport := buildAggregatedReport req (cls_of req) now.

(** The outcomes of the locked section. *)
Inductive outcome (now : Z) (req : Request) (s : Service) : Service -> Result -> option string -> Prop :=
| Held s' res : window_open now req s = false -> near s s' -> Reported res = false -> outcome now req s s' res None
| Reserved s' res st st' :
    window_open now req s = true -> reservationStore s = Some st -> reservationStore s' = Some st' -> reserved now req st st' ->
    calm s s' -> Reported res = false -> outcome now req s s' res None
| Unrecorded s' res ev es m :
    window_open now req s = true -> reservationStore s = None -> evidenceStore s = Some es -> (Append ev es).2 = Err m ->
    near s s' -> Reported res = false -> outcome now req s s' res None
| Sent s' res id :
    window_open now req s = true -> reservationStore s = None -> cfg s' = cfg s -> Reported res = true ->
    dedupStore s' = marks now req id (dedupStore s) ->
    match reporter s with
    | None => reporter s' = None
    | Some r => reporter s' = Some (Outbox.Execute [report_of now req] r).1 /\ (Outbox.Execute [report_of now req] r).2 = Ok tt
    end -> outcome now req s s' res None
| Failed s' res r m :
    window_open now req s = true -> reservationStore s = None -> cfg s' = cfg s -> Reported res = false ->
    dedupStore s' = dedupStore s -> reporter s = Some r ->
    reporter s' = Some (Outbox.Execute [report_of now req] r).1 -> (Outbox.Execute [report_of now req] r).2 = Err m ->
    outcome now req s s' res (Some m).

Lemma append_lost ev tm s :
  ev_EvidenceID ev <> "" -> evidence_lost (append_evidence ev tm s).2.1 (append_evidence ev tm s).1 = true ->
  exists es m, evidenceStore s = Some es /\ (Append ev es).2 = Err m.
Proof.
  unfold append_evidence, evidence_lost. intros Hne. destruct (evidenceStore s) as [es|] eqn:Ees; cbn; [|by rewrite Ees, andb_false_r].
  destruct (Append ev es) as [es' [u|m]] eqn:Ea; cbn; [by rewrite bool_decide_false|]. intros _. exists es, m. by rewrite Ea.
Qed.

Lemma record_lost now id req cls c tm rp sp reason s :
  id <> "" -> let r := recordEvidenceWithID now id req cls c tm rp sp reason s in
  evidence_lost r.2.1 r.1 = true -> exists ev es m, evidenceStore s = Some es /\ (Append ev es).2 = Err m.
Proof.
  intros Hid. cbn zeta. unfold recordEvidenceWithID. destruct (evidenceWindowFromMetadata _). intros Hl%append_lost; [eauto|done].
Qed.

Lemma pending_nonempty now req cls : decisionEvidenceID req cls "report_pending" now <> "".
Proof. done. Qed.

Lemma locked_outcome now req s :
  let r := locked_section now req (prepareDecision req) s in outcome now req s r.1 r.2.1 r.2.2.
Proof.
  cbn zeta. unfold locked_section. change (classification (prepareDecision req)) with (cls_of req).
  set (c := comment _). set (tm := telemetry _). rewrite bind_eq. pose proof (window_spec now req (cls_of req) tm c s) as Hw.
  pose proof (near_window now req (cls_of req) tm c s) as N1. destruct (window_open now req s) eqn:Eo.
  2:{ destruct Hw as (res & Hres & Hr). rewrite Hres. cbn. by apply Held. }
  rewrite Hw. cbn [fst snd]. clear Hw N1. set (a := prepareReportAttempt now req (cls_of req)). rewrite bind_eq.
  unfold reserveAndRecordPending. destruct (reservationStore s) as [st|] eqn:Est.
  { pose proof (reserve_spec now req tm st s Est) as Hres. cbn zeta in Hres. fold a in Hres.
    destruct (reserve_pending now req (cls_of req) tm a st s) as [s1 res]. cbn [fst snd ret] in *. destruct Hres as (Hk & Hr & st' & Hst' & Hrs).
    by eapply Reserved. }
  rewrite bind_eq. pose proof (near_record now (pendingEvidenceID a) req (cls_of req) (Comment (report a)) tm false false "report_pending" s) as N1.
  pose proof (record_lost now (pendingEvidenceID a) req (cls_of req) (Comment (report a)) tm false false "report_pending" s
    (pending_nonempty _ _ _)) as Hl. cbn zeta in Hl.
  destruct (recordEvidenceWithID _ _ _ _ _ _ _ _ _ s) as [s1 r]. cbn [fst snd] in *.
  destruct (evidence_lost r.1 s1).
  { destruct (Hl eq_refl) as (ev & es & m & Hes & Happ). rewrite bind_eq. cbn [fst snd ret].
    eapply Unrecorded; eauto. etrans; [exact N1|apply near_publish]. }
  clear Hl. cbn [fst snd]. rewrite bind_eq. unfold executeUpstreamReport. rewrite (n_reporter _ _ N1).
  destruct (reporter s) as [rp|] eqn:Erp.
  2:{ cbn [fst snd]. rewrite bind_eq. pose proof (finalize_spec now req (cls_of req) c r.2 a s1) as Hf. cbn zeta in Hf.
      destruct Hf as (F1 & F2 & F3 & id & F4). cbn [fst snd ret]. eapply (Sent _ _ _ _ _ id); rewrite ?F1, ?F2, ?F4; try done.
      - apply N1.
      - by rewrite (n_dedup _ _ N1).
      - rewrite Erp, (n_reporter _ _ N1). done. }
  change (report a) with (report_of now req). destruct (Outbox.Execute [report_of now req] rp) as [rp' [u|m]] eqn:Ex; cbn [fst snd].
  - rewrite bind_eq. set (s2 := set_reporter rp' s1). pose proof (finalize_spec now req (cls_of req) c r.2 a s2) as Hf. cbn zeta in Hf.
    destruct Hf as (F1 & F2 & F3 & id & F4). cbn [fst snd ret]. eapply (Sent _ _ _ _ _ id); rewrite ?F1, ?F2, ?F4; try done.
    + apply N1.
    + cbn. by rewrite (n_dedup _ _ N1).
    + rewrite Erp, Ex. by destruct u.
  - rewrite !bind_eq. cbn [fst snd ret]. set (s2 := set_reporter rp' s1).
    match goal with |- context [try_store ?f s2] => pose proof (calm_try f s2) as K1; set (s3 := (try_store f s2).1) in * end.
    match goal with |- context [record_and_publish ?x s3] => assert (near s3 (record_and_publish x s3).1) as N2 by (apply near_record_publish, near_record);
      set (s4 := (record_and_publish x s3).1) in * end.
    apply near_calm in N2. destruct K1 as [Kc Kr Kd], N2 as [Lc Lr Ld].
    apply (Failed _ _ _ _ _ rp m); try done; rewrite ?Lc, ?Lr, ?Ld, ?Kc, ?Kr, ?Kd; cbn; rewrite ?Ex; try done; apply N1.
Qed.

(** *** When a report is sent *)

(** C6: what is sent.  One call hands the reporter nothing or exactly the
    report of its event; it hands it the report only when the event is live,
    its address not protected, its classification an abuse of enough
    confidence with a category, its fingerprint not one of the last
    [dedupTTL], the reputation gate lets it pass, the last report of the
    address is a window old and no outbox takes the report over.  Conversely,
    when all that holds and no evidence is lost, the report is sent. *)
Theorem Process_sends t0 t1 req s :
  let s' := (Process t0 t1 req s).1 in
  (reporter s' = reporter s \/
   exists r, reporter s = Some r /\ reporter s' = Some (Outbox.Execute [report_of t1 req] r).1 /\
     reservationStore s = None /\ cleared t0 t1 req s) /\
  (forall r, (forall ev es, (Append ev es).2 = Ok tt) -> reporter s = Some r -> reservationStore s = None -> cleared t0 t1 req s ->
     reporter s' = Some (Outbox.Execute [report_of t1 req] r).1).
Proof.
  cbn zeta. destruct (Process_cases t0 t1 req s) as [(Hno & N & _ & _)|((He & Ha & Hg) & s1 & s2 & N1 & N2 & HP)].
  { split; [left; apply N|]. intros r _ _ _ [C1 C2 C3 C4 C5 C6 C7 C8]. exfalso. destruct Hno as [?|[Hno|?]]; [congruence| |congruence].
    apply Hno. unfold admitted. auto. }
  pose proof (locked_outcome t1 req s1) as Ho. cbn zeta in Ho. rewrite HP. cbn [fst].
  destruct (locked_section t1 req (prepareDecision req) s1) as [s3 [res err]]. cbn [fst snd] in *.
  assert (window_open t1 req s1 = true -> cleared t0 t1 req s) as Hc.
  { intros Hw. rewrite (near_open _ _ _ _ N1) in Hw. destruct Ha as (? & ? & ? & ? & ?). by split. }
  rewrite (n_reporter _ _ N2), <- (n_reporter _ _ N1), <- (n_store _ _ N1).
  destruct Ho as [s' res' Hw Hn _|s' res' st st' _ Hst _ _ [_ Hk _] _|s' res' ev es m _ _ _ Hap [_ Hn _ _] _|s' res' id Hw Hst _ _ _ Hr|s' res' r m Hw Hst _ _ _ Hr Hr' _].
  - rewrite (n_reporter _ _ Hn). split; [by left|]. intros r _ _ _ [_ _ _ _ _ _ _ Hw']. rewrite <- (near_open _ _ _ _ N1) in Hw'. congruence.
  - rewrite Hk. split; [by left|]. intros r _ _ Hst'. congruence.
  - rewrite Hn. split; [by left|]. intros r Hok. rewrite Hok in Hap. done.
  - destruct (reporter s1) as [r|]; [destruct Hr as [-> _]|rewrite Hr; split; [by left|done]].
    split; [right; exists r; by split_and!; auto|]. by intros r' _ [= <-] _ _.
  - rewrite Hr, Hr'. split; [right; exists r; by split_and!; auto|]. by intros r' _ [= <-] _ _.
Qed.


(** with an outbox the service never reports itself: a call leaves the
    reporter alone and at most puts one reservation in the outbox, due an
    aggregation window later, which it cancels when the evidence of the
    pending report is lost. *)
Theorem Process_reserves t0 t1 req s st :
  reservationStore s = Some st -> 0 < t1 ->
  let s' := (Process t0 t1 req s).1 in
  reporter s' = reporter s /\ Reported (Process t0 t1 req s).2.1 = false /\
  Outbox.service_reservation (ip_of req) t1 (reservation t1 req (prepareReportAttempt t1 req (cls_of req))) /\
  exists st', reservationStore s' = Some st' /\ reserved t1 req st st'.
Proof.
  intros Hst Ht. cbn zeta.
  assert (Outbox.service_reservation (ip_of req) t1 (reservation t1 req (prepareReportAttempt t1 req (cls_of req)))) as Hsr by (by split_and!).
  destruct (Process_cases t0 t1 req s) as [(_ & N & Hr & _)|(_ & s1 & s2 & N1 & N2 & HP)].
  { split; [apply N|]. do 2 (split; [done|]). exists st. rewrite (n_store _ _ N). split; [done|by left]. }
  pose proof (locked_outcome t1 req s1) as Ho. cbn zeta in Ho. rewrite HP. cbn [fst snd].
  destruct (locked_section t1 req (prepareDecision req) s1) as [s3 [res err]]. cbn [fst snd] in *.
  rewrite (n_reporter _ _ N2), (n_store _ _ N2), <- (n_reporter _ _ N1). rewrite <- (n_store _ _ N1) in Hst.
  destruct Ho as [s' res' _ Hn Hr|s' res' st0 st' _ Hst0 Hst' Hrs [_ Hk _] Hr|? ? ? ? ? _ Hn|? ? ? _ Hn|? ? ? ? _ Hn]; try congruence.
  - rewrite (n_reporter _ _ Hn), (n_store _ _ Hn). do 3 (split; [done|]). exists st. split; [done|by left].
  - assert (st0 = st) as -> by congruence. rewrite Hk. do 3 (split; [done|]). eauto.
Qed.


End service.

Arguments Service : clear implicits.

(** ** The table of reports ([storage/sqlite/report_dedup.go]) *)

(** A row of [abuseipdb_report_dedup], under its address. *)
Record dedup_row := { last_reported_at : Z; last_evidence_id : string; report_count : Z; row_updated_at : Z }.

(** [wall] is the clock read when a report carries no time. *)
Record AbuseReportDedupStore := { dedup_readOnly : bool; dedup_rows : gmap string dedup_row; wall : Z }.

Definition sql_LastReportedAt (ip : Netip.addr) (d : AbuseReportDedupStore) : result (option Z) :=
  Ok (last_reported_at <$> dedup_rows d !! Netip.addr_string ip).

Definition sql_MarkReported (reportedAt0 : Z) (ip : Netip.addr) (evidenceID0 : string) (d : AbuseReportDedupStore)
    : AbuseReportDedupStore * result unit :=
  match ensureWritable "storage.sqlite.AbuseReportDedupStore.MarkReported" (dedup_readOnly d) with
  | Err m => (d, Err m)
  | Ok _ =>
      let reportedAt := if is_zero_time reportedAt0 then wall d else reportedAt0 in
      let evidenceID := if bool_decide (evidenceID0 = "") then "unknown" else evidenceID0 in
      let key := Netip.addr_string ip in
      let count := match dedup_rows d !! key with Some r => report_count r + 1 | None => 1 end in
      ({| dedup_readOnly := dedup_readOnly d;
          dedup_rows := <[key := {| last_reported_at := reportedAt; last_evidence_id := evidenceID; report_count := count;
                                    row_updated_at := reportedAt |}]> (dedup_rows d);
          wall := wall d |}, Ok tt)
  end.

#[export] Instance sql_dedup : Outbox.DedupStore AbuseReportDedupStore := sql_MarkReported.
#[export] Instance sql_times : ReportTimes AbuseReportDedupStore := sql_LastReportedAt.

(** ** One report per window *)

Section window.
Context {R K E C G : Type} `{Outbox.Reporter R} `{Sink K} `{EvidenceStore E} `{SpamhausClient C} `{ReputationGate G}.

Notation service := (Service R K E AbuseReportDedupStore C G).

Record call := { c_t0 : Z; c_t1 : Z; c_req : Request }.

(** The worker of the outbox marks the reports it delivered in the same table
    ([Outbox.markDedup]). *)
Definition delivered (now : Z) (item : Outbox.ReportOutboxItem) (d : option AbuseReportDedupStore) : option AbuseReportDedupStore :=
  match d, Netip.ParseAddr (Outbox.rs_IP (Outbox.Reservation item)) with
  | Some d, Some a => Some (Outbox.MarkReported now a (Outbox.EvidenceID (Outbox.Reservation item)) d).1
  | _, _ => d
  end.

(** What happens to the service: a call, or a delivery of the worker. *)
Inductive action := Call (c : call) | Deliver (now : Z) (item : Outbox.ReportOutboxItem).

Definition time_of (a : action) : Z := match a with Call c => c_t1 c | Deliver now _ => now end.

Definition act (a : action) (s : service) : service :=
  match a with
  | Call c => (Process (c_t0 c) (c_t1 c) (c_req c) s).1
  | Deliver now item => SetReportDedupStore (delivered now item (dedupStore s)) s
  end.

Definition run_actions (acts : list action) (s : service) : service := foldl (fun s a => act a s) s acts.

(** The action reports the address: the service sends the report itself, or
    the worker delivered it. *)
Definition reports (ip : Netip.addr) (a : action) (s : service) : Prop :=
  match a with
  | Call c => Netip.ParseAddr (trim_space (ip_of (c_req c))) = Some ip /\
              Reported (Process (c_t0 c) (c_t1 c) (c_req c) s).2.1 = true
  | Deliver _ item => Netip.ParseAddr (Outbox.rs_IP (Outbox.Reservation item)) = Some ip
  end.

Lemma delivered_worker now item (w : Outbox.OutboxWorker (R := R) (D := AbuseReportDedupStore)) :
  Outbox.dedupStore (Outbox.markDedup now item w).1 = delivered now item (Outbox.dedupStore w).
Proof.
  unfold Outbox.markDedup, delivered. destruct (Outbox.dedupStore w) as [d|] eqn:Ed; [|done].
  destruct (Netip.ParseAddr _) as [a|]; [|done]. by destruct (Outbox.MarkReported _ _ _ _).
Qed.

(** The table knows a report of the address since [T]. *)
Definition known (ip : Netip.addr) (T : Z) (s : service) : Prop :=
  exists d r, dedupStore s = Some d /\ dedup_rows d !! Netip.addr_string ip = Some r /\ T <= last_reported_at r.

Lemma known_closed ip T now req (s : service) :
  known ip T s -> Netip.ParseAddr (trim_space (ip_of req)) = Some ip -> 0 < reportWindow (cfg s) <= int64_max ->
  now < T + reportWindow (cfg s) -> window_open now req s = false.
Proof.
  intros (d & r & Hd & Hr & HT) Hip Hw Hn. unfold window_open. rewrite Hd, Hip. unfold LastReportedAt, sql_times, sql_LastReportedAt.
  rewrite Hr. cbn. apply Z.leb_gt, Z.max_lub_lt; [lia|]. apply t_sub_lt_iff; unfold int64_min in *; lia.
Qed.

(** A call changes the table only by marking its own report. *)
Lemma Process_dedup t0 t1 req (s : service) :
  cfg (Process t0 t1 req s).1 = cfg s /\
  (if Reported (Process t0 t1 req s).2.1
   then window_open t1 req s = true /\ exists id, dedupStore (Process t0 t1 req s).1 = marks t1 req id (dedupStore s)
   else dedupStore (Process t0 t1 req s).1 = dedupStore s).
Proof.
  destruct (Process_cases t0 t1 req s) as [(_ & N & -> & _)|(_ & s1 & s2 & N1 & N2 & HP)]; [split; apply N|].
  pose proof (locked_outcome t1 req s1) as Ho. cbn zeta in Ho. rewrite HP. cbn [fst snd].
  destruct (locked_section t1 req (prepareDecision req) s1) as [s3 [res err]]. cbn [fst snd] in *.
  rewrite (n_cfg _ _ N2), (n_dedup _ _ N2), <- (n_cfg _ _ N1), <- (n_dedup _ _ N1), <- (near_open _ _ _ _ N1).
  destruct Ho as [s' res' _ Hn Hr|s' res' st st' _ _ _ _ [Hc _ Hd] Hr|s' res' ev es m _ _ _ _ Hn Hr|s' res' id Hw _ Hc Hr Hd _|s' res' r m _ _ Hc Hr Hd _ _ _];
    rewrite Hr; try (split; (done || apply Hn)). split; [done|]. split; [done|]. by exists id.
Qed.

(** A call in a closed window reports and reserves nothing. *)
Lemma Process_held t0 t1 req (s : service) : window_open t1 req s = false ->
  near s (Process t0 t1 req s).1 /\ Reported (Process t0 t1 req s).2.1 = false.
Proof.
  intros Hw. destruct (Process_cases t0 t1 req s) as [(_ & N & Hr & _)|(_ & s1 & s2 & N1 & N2 & HP)]; [done|].
  pose proof (locked_outcome t1 req s1) as Ho. cbn zeta in Ho. rewrite HP. cbn [fst snd].
  destruct (locked_section t1 req (prepareDecision req) s1) as [s3 [res err]]. cbn [fst snd] in *.
  rewrite <- (near_open _ _ _ _ N1) in Hw.
  destruct Ho as [s' res' _ Hn Hr|? ? ? ? Hw'|? ? ? ? ? Hw'|? ? ? Hw'|? ? ? ? Hw']; try congruence.
  split; [|done]. destruct N1, Hn, N2. split; congruence.
Qed.

(** Marking a report keeps what the table knows, and adds the report. *)
Lemma marked_later ip T t1 a id (d : AbuseReportDedupStore) r :
  T <= t1 -> 0 < t1 -> dedup_rows d !! Netip.addr_string ip = Some r -> T <= last_reported_at r ->
  exists r', dedup_rows (Outbox.MarkReported t1 a id d).1 !! Netip.addr_string ip = Some r' /\ T <= last_reported_at r'.
Proof.
  intros HT Hpos Hr Hle. unfold Outbox.MarkReported, sql_dedup, sql_MarkReported.
  destruct (ensureWritable _ _); cbn [fst]; [|by exists r].
  destruct (decide (Netip.addr_string a = Netip.addr_string ip)) as [Heq|Hne].
  - eexists. cbn. rewrite Heq, lookup_insert_eq. split; [reflexivity|]. cbn. unfold is_zero_time.
    destruct (Z.eqb_spec t1 0); lia.
  - exists r. cbn. by rewrite lookup_insert_ne.
Qed.

Lemma marked_now ip t1 id (d : AbuseReportDedupStore) : dedup_readOnly d = false -> 0 < t1 ->
  exists r, dedup_rows (Outbox.MarkReported t1 ip id d).1 !! Netip.addr_string ip = Some r /\ t1 <= last_reported_at r.
Proof.
  intros Hro Hpos. unfold Outbox.MarkReported, sql_dedup, sql_MarkReported. rewrite Hro. cbn.
  rewrite lookup_insert_eq. eexists. split; [done|]. cbn. unfold is_zero_time. destruct (Z.eqb_spec t1 0); lia.
Qed.

(** Every action leaves the table, or marks a report in it. *)
Lemma act_dedup a (s : service) : cfg (act a s) = cfg s /\
  (dedupStore (act a s) = dedupStore s \/
   exists b id, dedupStore (act a s) = (fun d => (Outbox.MarkReported (time_of a) b id d).1) <$> dedupStore s).
Proof.
  destruct a as [c|now item]; cbn [act time_of].
  - destruct (Process_dedup (c_t0 c) (c_t1 c) (c_req c) s) as [Hc Hp]. split; [done|].
    destruct (Reported _); [|by left]. destruct Hp as [_ [id Hp]]. unfold marks in Hp.
    destruct (dedupStore s) as [d|]; [|by left]. destruct (Netip.ParseAddr _) as [b|]; [right|by left].
    by exists b, id.
  - split; [done|]. cbn. unfold delivered. destruct (dedupStore s) as [d|]; [|by left].
    destruct (Netip.ParseAddr _) as [b|]; [right|by left]. by eexists b, _.
Qed.

Lemma known_act ip T a (s : service) : T <= time_of a -> 0 < time_of a -> known ip T s -> known ip T (act a s).
Proof.
  intros HT Hpos (d & r & Hd & Hr & Hle). destruct (act_dedup a s) as [_ [Ed|(b & id & Ed)]]; rewrite Hd in Ed; [by exists d, r|].
  destruct (marked_later ip T (time_of a) b id d r) as (r' & ? & ?); try done. by eexists _, r'.
Qed.

Lemma known_actions ip T acts (s : service) : 0 < T -> Forall (fun a => T <= time_of a) acts ->
  known ip T s -> known ip T (run_actions acts s) /\ cfg (run_actions acts s) = cfg s.
Proof.
  intros HT. revert s. induction acts as [|a acts IH]; intros s Hf Hk; [done|]. inversion_clear Hf as [|? ? Ha Hf'].
  change (run_actions (a :: acts) s) with (run_actions acts (act a s)).
  destruct (IH (act a s) Hf') as [Hk' Hc]; [apply known_act; try done; lia|]. split; [done|].
  rewrite Hc. apply act_dedup.
Qed.

Lemma reports_known ip a d (s : service) : dedupStore s = Some d -> dedup_readOnly d = false -> 0 < time_of a ->
  reports ip a s -> known ip (time_of a) (act a s).
Proof.
  intros Hd Hro Hpos. destruct a as [c|now item]; cbn [reports act time_of] in *.
  - intros [Hip Hrep]. destruct (Process_dedup (c_t0 c) (c_t1 c) (c_req c) s) as [_ Hp]. rewrite Hrep, Hd in Hp.
    destruct Hp as [_ [id Hp]]. unfold marks in Hp. rewrite Hip in Hp.
    destruct (marked_now ip (c_t1 c) id d Hro Hpos) as (r & ? & ?). by eexists _, r.
  - intros Hip. unfold known. cbn. rewrite Hd. unfold delivered. rewrite Hip.
    destruct (marked_now ip now (Outbox.EvidenceID (Outbox.Reservation item)) d Hro Hpos) as (r & ? & ?). by eexists _, r.
Qed.

(** C5: the report window.  Let the table of reports be wired and writable and
    its statements succeed, and let an address be reported at [t]: by a call
    that sends the report itself, or by the worker of the outbox, which marks
    its deliveries in the same table.  Then, whatever calls and deliveries
    follow at or after [t], a call for the same [netip.Addr], from any source
    and with any white space around it, whose lock is taken before [t] plus
    the report window, sends nothing and reserves nothing.  (The IPv4-mapped
    form is another [netip.Addr]: see [mapped_form_reported_again].) *)
Theorem one_report_per_window a acts t0' t1' req' ip d (s : service) :
  dedupStore s = Some d -> dedup_readOnly d = false -> 0 < reportWindow (cfg s) <= int64_max ->
  0 < time_of a -> reports ip a s -> Forall (fun b => time_of a <= time_of b) acts ->
  Netip.ParseAddr (trim_space (ip_of req')) = Some ip -> t1' < time_of a + reportWindow (cfg s) ->
  let s1 := run_actions acts (act a s) in
  Reported (Process t0' t1' req' s1).2.1 = false /\
  reporter (Process t0' t1' req' s1).1 = reporter s1 /\
  reservationStore (Process t0' t1' req' s1).1 = reservationStore s1.
Proof.
  intros Hd Hro Hw Hpos Hrep Hacts Hip Hlt s1.
  pose proof (reports_known ip a d s Hd Hro Hpos Hrep) as Hk.
  destruct (known_actions ip (time_of a) acts (act a s) Hpos Hacts Hk) as [Hk1 Hc].
  destruct (act_dedup a s) as [Hc0 _]. fold s1 in Hk1, Hc.
  destruct (Process_held t0' t1' req' s1) as [[_ N1 N2 _] Hr]; [|by split_and!].
  apply (known_closed ip (time_of a)); try done; rewrite Hc, Hc0; done.
Qed.

End window.


(** ** Examples *)

#[local] Instance demo_sink : Sink (list SecurityEvent) := fun e l => (l ++ [e], Ok tt).
#[local] Instance demo_evidence : EvidenceStore (list DecisionEvidence) := fun e l => (l ++ [e], Ok tt).
#[local] Instance demo_spamhaus : SpamhausClient (list string) := fun a _ l => (l ++ [Netip.addr_string a], Ok tt).
#[local] Instance demo_reputation : ReputationGate unit :=
  fun _ _ g => (g, Reputation.mk_decision Reputation.ActionAllow Reputation.ReasonAllowedCorroborated true false false).

Notation demo_service := (Service Outbox.FakeReporter (list SecurityEvent) (list DecisionEvidence) AbuseReportDedupStore (list string) unit).

Definition demo_base (down : bool) : demo_service :=
  SetReportDedupStore (Some {| dedup_readOnly := false; dedup_rows := ∅; wall := 0 |})
    (SetSpamhausClient (Some []) (SetEvidenceStore (Some []) (SetReputationGate (Some tt)
      (New (Some {| Outbox.fr_sent := []; Outbox.fr_down := down |}) (Some []) (Some Trust.DefaultRegistry) 0)))).

Definition demo_request (ip uri : string) : Request :=
  {| rq_Source := SourceCloudflareWAF;
     rq_Event := {| Classifier.IP := ip; Classifier.URI := uri; Classifier.URIs := []; Classifier.Hostname := "arleo.eu";
       Classifier.UserAgent := "curl/8"; Classifier.Action := "block"; Classifier.HTTPMethod := "GET"; Classifier.RuleID := "r1";
       Classifier.RulesetID := ""; Classifier.RuleName := ""; Classifier.Source := "firewallCustom"; Classifier.Timestamp := second;
       Classifier.RayID := ""; Classifier.CountryName := ""; Classifier.ASNDescription := ""; Classifier.EdgeResponseStatus := 403;
       Classifier.Hits := 12; Classifier.WindowSec := 60; Classifier.Ref := "" |};
     EvidenceOnly := false |}.

Definition sent_ips (s : demo_service) : list string :=
  match reporter s with Some r => rp_IP <$> Outbox.fr_sent r | None => [] end.

Definition verdict (x : demo_service * (Result * option string)) : bool * string * list string :=
  (Reported x.2.1, SuppressionReason x.2.1, sent_ips x.1).

Definition at_ (n : Z) (ip uri : string) (s : demo_service) := Process (n * second) (n * second) (demo_request ip uri) s.

(** A report, its duplicate, another event of the same address within the
    window, and a protected address. *)
Example process_ex :
  let s1 := (at_ 10 "203.0.113.7" "/.env" (demo_base false)).1 in
  verdict (at_ 10 "203.0.113.7" "/.env" (demo_base false)) = (true, "", ["203.0.113.7"]) /\
  verdict (at_ 20 "203.0.113.7" "/.env" s1) = (false, "duplicate_report", ["203.0.113.7"]) /\
  verdict (at_ 20 "203.0.113.7" "/x.sql" s1) = (false, "abuseipdb_recently_reported", ["203.0.113.7"]) /\
  verdict (at_ 20 "10.0.0.1" "/.env" s1) = (false, "protected_target", ["203.0.113.7"]).
Proof. by vm_compute. Qed.

(** A report the reporter refuses is not tried again: within [dedupTTL] the
    same event counts as a duplicate of it. *)
Example failed_report_is_duplicate :
  let x := at_ 10 "203.0.113.7" "/.env" (demo_base true) in
  verdict x = (false, "abuseipdb_report_failed", []) /\ verdict (at_ 20 "203.0.113.7" "/.env" x.1) = (false, "duplicate_report", []).
Proof. by vm_compute. Qed.

(** The protection looks at the address as it is written: with a blank around
    it a protected address is not recognised, while the later steps trim it. *)
Example padded_address_not_protected :
  verdict (at_ 10 " 10.0.0.1" "/.env" (demo_base false)) = (true, "", [" 10.0.0.1"]).
Proof. by vm_compute. Qed.

Definition outbox_base : demo_service := SetReportReservationStore (Some Outbox.NewReportReservationStore) (demo_base false).

Lemma Process_reserves_witness :
  let s' := (Process (10 * second) (10 * second) (demo_request "203.0.113.7" "/.env") outbox_base).1 in
  reporter s' = reporter outbox_base /\ (fun st => length (Outbox.rows st)) <$> reservationStore s' = Some 1%nat /\
  exists st', reservationStore s' = Some st' /\
    reserved (10 * second) (demo_request "203.0.113.7" "/.env") Outbox.NewReportReservationStore st'.
Proof.
  cbn zeta.
  destruct (Process_reserves (10 * second) (10 * second) (demo_request "203.0.113.7" "/.env") outbox_base Outbox.NewReportReservationStore
    eq_refl eq_refl) as (Hr & _ & _ & st' & Hst & Hrs).
  split; [exact Hr|]. split; [by vm_compute|]. exists st'. split; [exact Hst|exact Hrs].
Defined.

Definition other_call : call := {| c_t0 := 15 * second; c_t1 := 15 * second; c_req := demo_request "198.51.100.1" "/.env" |}.
Definition first_call : call := {| c_t0 := 10 * second; c_t1 := 10 * second; c_req := demo_request "203.0.113.7" "/.env" |}.

Lemma one_report_per_window_witness :
  let s1 := run_actions [Call other_call] (act (Call first_call) (demo_base false)) in
  sent_ips s1 = ["203.0.113.7"; "198.51.100.1"] /\
  Reported (Process (20 * second) (20 * second) (demo_request "203.0.113.7 " "/x.sql") s1).2.1 = false /\
  reporter (Process (20 * second) (20 * second) (demo_request "203.0.113.7 " "/x.sql") s1).1 = reporter s1.
Proof.
  cbn zeta. split; [by vm_compute|].
  destruct (one_report_per_window (Call first_call) [Call other_call] (20 * second) (20 * second)
    (demo_request "203.0.113.7 " "/x.sql") (Netip.A4 3405803783) {| dedup_readOnly := false; dedup_rows := ∅; wall := 0 |} (demo_base false))
    as (Hr & Hs & _); [reflexivity|reflexivity|split; vm_compute; congruence|by vm_compute|split; by vm_compute| |by vm_compute|by vm_compute|].
  - constructor; [vm_compute; congruence|constructor].
  - split; [exact Hr|exact Hs].
Defined.

(** The table has one row per [netip.Addr], and the service does not unmap
    addresses: the IPv4-mapped form of an address that was just reported is
    reported again. *)
Example mapped_form_reported_again :
  let s1 := act (Call first_call) (demo_base false) in
  sent_ips s1 = ["203.0.113.7"] /\
  verdict (at_ 20 "::ffff:203.0.113.7" "/.env" s1) = (true, "", ["203.0.113.7"; "::ffff:203.0.113.7"]).
Proof. split; by vm_compute. Qed.

End Reporting.
