(* ===== verification/Checkpoint.v ===== *)
(** * Checkpoint manager

    The checkpoints of the runtime state ([internal/runtime/checkpoint]) over
    the event log tables, and the JSON document of the runtime state
    ([internal/runtime/models]). *)

From S2P Require Import Prelude GoFmt Sha256 RuntimeModels Events EventLog.
Import Models Json Events EventRepository.

Local Open Scope Z_scope.

(** ** The document of the runtime state *)
Module StateDoc.

(** The fields of a struct in order; [None] is a field left out as empty. *)
Definition present (l : list (string * option json)) : list (string * json) :=
  List.flat_map (fun kv => match kv.2 with Some v => [(kv.1, v)] | None => [] end) l.

Definition str (s : string) : option json := Some (JString s).
Definition str_omit (s : string) : option json := if bool_decide (s = "") then None else Some (JString s).
Definition int (z : Z) : option json := Some (JInt z).
Definition int_omit (z : Z) : option json := if z =? 0 then None else Some (JInt z).
Definition time (t : Z) : option json := Some (JTime t).

Definition lease_fields (l : Lease) : list (string * option json) :=
  [("lease_id", str (l_ID l)); ("owner", str (l_Owner l)); ("action", str (l_Action l)); ("epoch_id", str (l_EpochID l));
   ("expires_at", time (l_ExpiresAt l)); ("created_at", time (l_CreatedAt l)); ("fencing_token", int_omit (l_FencingToken l))].

Definition epoch_fields (e : Epoch) : list (string * option json) :=
  [("epoch_id", str (e_ID e)); ("parent_id", str_omit (e_ParentID e)); ("generation", int (e_Generation e));
   ("scheduler_run_id", str_omit (e_SchedulerRunID e)); ("created_at", time (e_CreatedAt e))].

Definition lifecycle_fields (l : LifecycleState) : list (string * option json) :=
  [("status", str (lc_Status l)); ("epoch_id", str_omit (lc_EpochID l)); ("run_id", str_omit (lc_RunID l));
   ("batch_id", str_omit (lc_BatchID l)); ("plan_id", str_omit (lc_PlanID l)); ("started_at", time (lc_StartedAt l));
   ("last_updated_at", time (lc_LastUpdatedAt l)); ("error", str_omit (lc_Error l)); ("retry_count", int (lc_RetryCount l))].

Definition object (fs : list (string * option json)) : json := JObject (present fs).

(** A map is written with its keys in order, and left out when it is empty. *)
Definition cooldowns_json (m : gmap string Z) : option json :=
  if bool_decide (m = ∅) then None
  else Some (JObject (prod_map id JTime <$> isort (fun x y => str_lt x.1 y.1) (map_to_list m))).

Definition state_fields (s : RuntimeState) : list (string * option json) :=
  [("last_run_id", str (LastRunID s)); ("last_applied_snapshot_checksum", str (LastAppliedSnapshot s));
   ("last_plan_id", str (LastPlanID s)); ("last_success_at", time (LastSuccessAt s));
   ("incomplete_batch_id", str_omit (IncompleteBatchID s)); ("active_rollback_id", str_omit (ActiveRollbackID s));
   ("current_epoch", Some (object (epoch_fields (CurrentEpoch s))));
   ("active_lease", (fun l => object (lease_fields l)) <$> ActiveLease s);
   ("active_rollback_lease", (fun l => object (lease_fields l)) <$> ActiveRollbackLease s);
   ("last_safe_checkpoint", str_omit (LastSafeCheckpoint s)); ("lifecycle", Some (object (lifecycle_fields (Lifecycle s))));
   ("cooldowns", cooldowns_json (Cooldowns s))].

(** [json.Marshal] of the state. *)
Definition marshal_state (s : RuntimeState) : json := object (state_fields s).

(** *** [json.Unmarshal] into the state *)

Definition lease_of (r : RawMessage) : result Lease :=
  (fs <-? fields_of r; id <-? get_string "lease_id" fs; owner <-? get_string "owner" fs; action <-? get_string "action" fs;
   epoch <-? get_string "epoch_id" fs; ex <-? get_time "expires_at" fs; cr <-? get_time "created_at" fs;
   token <-? get_int64 "fencing_token" fs;
   Ok {| l_ID := id; l_Owner := owner; l_Action := action; l_EpochID := epoch; l_ExpiresAt := ex; l_CreatedAt := cr;
         l_FencingToken := token |})%go.

Definition epoch_of (r : RawMessage) : result Epoch :=
  (fs <-? fields_of r; id <-? get_string "epoch_id" fs; parent <-? get_string "parent_id" fs; g <-? get_int64 "generation" fs;
   run <-? get_string "scheduler_run_id" fs; cr <-? get_time "created_at" fs;
   Ok {| e_ID := id; e_ParentID := parent; e_Generation := g; e_SchedulerRunID := run; e_CreatedAt := cr |})%go.

Definition lifecycle_of (r : RawMessage) : result LifecycleState :=
  (fs <-? fields_of r; st <-? get_string "status" fs; epoch <-? get_string "epoch_id" fs; run <-? get_string "run_id" fs;
   batch <-? get_string "batch_id" fs; plan <-? get_string "plan_id" fs; started <-? get_time "started_at" fs;
   updated <-? get_time "last_updated_at" fs; err <-? get_string "error" fs; n <-? get_int64 "retry_count" fs;
   Ok {| lc_Status := st; lc_EpochID := epoch; lc_RunID := run; lc_BatchID := batch; lc_PlanID := plan; lc_StartedAt := started;
         lc_LastUpdatedAt := updated; lc_Error := err; lc_RetryCount := n |})%go.

(** A struct held by value, and one behind a pointer. *)
Definition by_value {A} (dec : RawMessage -> result A) (name : string) (fs : list (string * json)) : result A :=
  dec (Some (default JNull (field name fs))).
Definition by_pointer {A} (dec : RawMessage -> result A) (name : string) (fs : list (string * json)) : result (option A) :=
  match field name fs with
  | None | Some JNull => Ok None
  | Some j => (x <-? dec (Some j); Ok (Some x))%go
  end.

Fixpoint times_of (fs : list (string * json)) (m : gmap string Z) : result (gmap string Z) :=
  match fs with
  | [] => Ok m
  | (k, JTime t) :: fs => times_of fs (<[k := t]> m)
  | (k, JNull) :: fs => times_of fs (<[k := 0]> m)
  | _ => Err type_error
  end.

Definition get_times (name : string) (fs : list (string * json)) : result (gmap string Z) :=
  match field name fs with
  | None | Some JNull => Ok ∅
  | Some (JObject kvs) => times_of kvs ∅
  | Some _ => Err type_error
  end.

Definition unmarshal_state (r : RawMessage) : result RuntimeState :=
  (fs <-? fields_of r; run <-? get_string "last_run_id" fs; snap <-? get_string "last_applied_snapshot_checksum" fs;
   plan <-? get_string "last_plan_id" fs; success <-? get_time "last_success_at" fs; batch <-? get_string "incomplete_batch_id" fs;
   rb <-? get_string "active_rollback_id" fs; epoch <-? by_value epoch_of "current_epoch" fs;
   lease <-? by_pointer lease_of "active_lease" fs; rlease <-? by_pointer lease_of "active_rollback_lease" fs;
   safe <-? get_string "last_safe_checkpoint" fs; lc <-? by_value lifecycle_of "lifecycle" fs; cd <-? get_times "cooldowns" fs;
   Ok {| LastRunID := run; LastAppliedSnapshot := snap; LastPlanID := plan; LastSuccessAt := success; IncompleteBatchID := batch;
         ActiveRollbackID := rb; CurrentEpoch := epoch; ActiveLease := lease; ActiveRollbackLease := rlease; LastSafeCheckpoint := safe;
         Lifecycle := lc; Cooldowns := cd |})%go.

(** *** Round trip *)

Definition int64 (z : Z) : Prop := int64_min <= z <= int64_max.

(** The integers of a state are of their type. *)
Definition lease_typed (l : Lease) : Prop := int64 (l_FencingToken l).
Record state_typed (s : RuntimeState) : Prop := {
  ty_epoch : int64 (e_Generation (CurrentEpoch s)); ty_retry : int64 (lc_RetryCount (Lifecycle s));
  ty_lease : forall l, ActiveLease s = Some l -> lease_typed l; ty_rlease : forall l, ActiveRollbackLease s = Some l -> lease_typed l;
}.

Lemma field_snoc name fs k v :
  field name (fs ++ [(k, v)]) = if bool_decide (to_lower k = name) then Some v else field name fs.
Proof. unfold field. by rewrite foldl_app. Qed.

Lemma field_app name l1 l2 : field name (l1 ++ l2) = match field name l2 with Some v => Some v | None => field name l1 end.
Proof.
  induction l2 as [|[k v] l2 IH] using rev_ind; [by rewrite app_nil_r|]. rewrite app_assoc, !field_snoc. case_bool_decide; [done|apply IH].
Qed.

Lemma present_cons k o l : present ((k, o) :: l) = match o with Some v => [(k, v)] | None => [] end ++ present l.
Proof. done. Qed.

Lemma field_absent name l : (name ∉ to_lower <$> l.*1) -> field name (present l) = None.
Proof.
  induction l as [|[k o] l IH]; [done|]. intros Hn. cbn in Hn. rewrite present_cons, field_app, IH by set_solver. destruct o; [|done].
  cbn. rewrite bool_decide_false; [done|]. set_solver.
Qed.

(** A field is found under its key, which is unique whatever its case. *)
Lemma field_present name o l :
  NoDup (to_lower <$> l.*1) -> to_lower name = name -> (name, o) ∈ l -> field name (present l) = o.
Proof.
  intros Hnd Hlow. induction l as [|[k o'] l IH]; [by intros ?%not_elem_of_nil|]. intros Hin. cbn in Hnd.
  apply NoDup_cons in Hnd as [Hk Hnd]. rewrite present_cons, field_app.
  apply elem_of_cons in Hin as [[= <- <-]|Hin].
  - rewrite field_absent by (by rewrite <- Hlow). destruct o; [|done]. cbn. by rewrite bool_decide_true.
  - rewrite (IH Hnd Hin). destruct o as [v|]; [done|]. destruct o'; [|done]. cbn. rewrite bool_decide_false; [done|].
    intros E. apply Hk. rewrite E, <- Hlow. apply list_elem_of_fmap. exists name. split; [done|]. apply list_elem_of_fmap. by exists (name, None).
Qed.

Lemma get_string_some name s fs : field name fs = str s -> get_string name fs = Ok s.
Proof. unfold get_string. by intros ->. Qed.
Lemma get_string_omit name s fs : field name fs = str_omit s -> get_string name fs = Ok s.
Proof. unfold get_string, str_omit. intros ->. by case_bool_decide; subst. Qed.
Lemma get_time_some name t fs : field name fs = time t -> get_time name fs = Ok t.
Proof. unfold get_time. by intros ->. Qed.
Lemma get_int64_some name z fs : int64 z -> field name fs = int z -> get_int64 name fs = Ok z.
Proof. unfold get_int64, int64. intros [H1 H2] ->. cbn. by rewrite (proj2 (Z.leb_le _ _) H1), (proj2 (Z.leb_le _ _) H2). Qed.
Lemma get_int64_omit name z fs : int64 z -> field name fs = int_omit z -> get_int64 name fs = Ok z.
Proof.
  intros Hz. unfold int_omit. destruct (Z.eqb_spec z 0) as [->|]; [|by apply get_int64_some]. unfold get_int64. by intros ->.
Qed.

(** Find a field by its key and read it. *)
Ltac keyed :=
  apply field_present;
  [by apply (bool_decide_unpack _); vm_compute | reflexivity | repeat first [apply list_elem_of_here | apply list_elem_of_further]].

Ltac read_field :=
  match goal with
  | |- context [get_string ?n (present ?l)] =>
      first [erewrite (get_string_some n) by keyed | erewrite (get_string_omit n) by keyed]
  | |- context [get_time ?n (present ?l)] => erewrite (get_time_some n) by keyed
  | |- context [get_int64 ?n (present ?l)] =>
      first [erewrite (get_int64_some n); [|eassumption|solve [keyed]] | erewrite (get_int64_omit n); [|eassumption|solve [keyed]]]
  end; cbn [rbind].

Lemma lease_roundtrip l : lease_typed l -> lease_of (Some (object (lease_fields l))) = Ok l.
Proof. intros Ht. unfold lease_of, object. cbn [fields_of rbind]. unfold lease_typed in Ht. repeat read_field. by destruct l. Qed.

Lemma epoch_roundtrip e : int64 (e_Generation e) -> epoch_of (Some (object (epoch_fields e))) = Ok e.
Proof. intros Ht. unfold epoch_of, object. cbn [fields_of rbind]. repeat read_field. by destruct e. Qed.

Lemma lifecycle_roundtrip l : int64 (lc_RetryCount l) -> lifecycle_of (Some (object (lifecycle_fields l))) = Ok l.
Proof. intros Ht. unfold lifecycle_of, object. cbn [fields_of rbind]. repeat read_field. by destruct l. Qed.

Lemma times_of_list l m :
  times_of (prod_map id JTime <$> l) m = Ok (foldl (fun m kv => <[kv.1 := kv.2]> m) m l).
Proof. revert m. induction l as [|[k t] l IH]; intros m; [done|]. cbn. apply IH. Qed.

Lemma foldl_inserts (l : list (string * Z)) (m : gmap string Z) :
  NoDup l.*1 -> foldl (fun m kv => <[kv.1 := kv.2]> m) m l = list_to_map l ∪ m.
Proof.
  revert m. induction l as [|[k t] l IH]; intros m Hnd; [symmetry; apply (left_id_L ∅ (∪))|]. cbn in *. apply NoDup_cons in Hnd as [Hk Hnd].
  rewrite IH by done. rewrite <- insert_union_l, insert_union_r; [done|]. by apply not_elem_of_list_to_map_1.
Qed.

Lemma cooldowns_roundtrip name m fs : field name fs = cooldowns_json m -> get_times name fs = Ok m.
Proof.
  unfold get_times, cooldowns_json. intros ->. case_bool_decide as Hm; [by subst|].
  set (lt := fun x y : string * Z => str_lt x.1 y.1).
  assert (NoDup (isort lt (map_to_list m)).*1) as Hnd.
  { rewrite (isort_perm lt). apply NoDup_fst_map_to_list. }
  rewrite times_of_list, foldl_inserts by done. f_equal. rewrite (right_id_L ∅ (∪)).
  rewrite (list_to_map_proper _ (map_to_list m) Hnd (isort_perm _ _)). apply list_to_map_to_list.
Qed.

Lemma pointer_roundtrip {A} (dec : RawMessage -> result A) enc name (o : option A) fs :
  (forall x, o = Some x -> dec (Some (object (enc x))) = Ok x) ->
  field name fs = (fun x => object (enc x)) <$> o -> by_pointer dec name fs = Ok o.
Proof. unfold by_pointer. intros Hd ->. destruct o as [x|]; cbn; [|done]. unfold object in *. by rewrite Hd. Qed.

Lemma value_found {A} (dec : RawMessage -> result A) name fs j : field name fs = Some j -> by_value dec name fs = dec (Some j).
Proof. unfold by_value. by intros ->. Qed.

Lemma state_roundtrip s : state_typed s -> unmarshal_state (Some (marshal_state s)) = Ok s.
Proof.
  intros [H1 H2 H3 H4]. unfold unmarshal_state, marshal_state, object. cbn [fields_of rbind]. do 6 read_field.
  rewrite (value_found epoch_of "current_epoch" _ (object (epoch_fields (CurrentEpoch s)))) by keyed.
  rewrite epoch_roundtrip by done. cbn [rbind].
  rewrite (pointer_roundtrip lease_of lease_fields "active_lease" (ActiveLease s)); [|intros; by apply lease_roundtrip, H3|keyed]. cbn [rbind].
  rewrite (pointer_roundtrip lease_of lease_fields "active_rollback_lease" (ActiveRollbackLease s)); [|intros; by apply lease_roundtrip, H4|keyed].
  cbn [rbind]. read_field.
  rewrite (value_found lifecycle_of "lifecycle" _ (object (lifecycle_fields (Lifecycle s)))) by keyed.
  rewrite lifecycle_roundtrip by done. cbn [rbind].
  rewrite (cooldowns_roundtrip "cooldowns" (Cooldowns s)) by keyed. cbn [rbind]. by destruct s.
Qed.

End StateDoc.

(** ** The manager ([checkpoint.go]) *)
Module Checkpoint.
Import StateDoc.

Definition DefaultRuntimeCheckpointName : string := "runtime-state".

(** The event log is the store of the checkpoints, the source of sequence
    numbers and the archive, as [cmd/cf-sync] wires it; the flags tell whether
    the last two are there. *)
Record Manager := { store : EventRepository; sequences : bool; retention : Z; archive : bool }.

Definition NewManager (db : EventRepository) (seqs : bool) (keep : Z) (arch : bool) : Manager :=
  {| store := db; sequences := seqs; retention := if keep <=? 0 then 10 else keep; archive := arch |}.

Definition with_store (db : EventRepository) (m : Manager) : Manager :=
  {| store := db; sequences := sequences m; retention := retention m; archive := archive m |}.

(** [canonicalTime] in the struct that is digested. *)
Definition canonicalTime (t : Z) : json := if is_zero_time t then JString "" else JTime t.

Definition checksumFor (c : Checkpoint) : string :=
  Sha256.hex_digest
    match cp_State c with
    | None => ""
    | Some st =>
        text (JObject ([jfield "name" (cp_Name c); jfield "scope_id" (cp_ScopeID c); ("sequence", JInt (cp_Sequence c));
                        ("event_id", JInt (cp_EventID c)); ("state", st)] ++ metadata_field (cp_Metadata c) ++
                       [("schema_version", JInt (cp_SchemaVersion c)); ("created_at", canonicalTime (cp_CreatedAt c))]))
    end.

Definition op_validate : string := "runtime.checkpoint.ValidateCheckpoint".

Definition ValidateCheckpoint (c : Checkpoint) : result unit :=
  if bool_decide (cp_Checksum c = checksumFor c) then Ok tt
  else Err (wrap_msg op_validate ("checkpoint checksum mismatch for " +:+ cp_ScopeID c +:+ "/" +:+ cp_Name c +:+ " at sequence " +:+
                                  GoFmt.fmt_d (cp_Sequence c))).

Definition valid (c : Checkpoint) : bool := is_ok (ValidateCheckpoint c).

(** Delete a list of checkpoints, up to the first error. *)
Fixpoint delete_all (scopeID name : string) (l : list Checkpoint) (db : EventRepository) : EventRepository * result unit :=
  match l with
  | [] => (db, Ok tt)
  | c :: l =>
      let '(db, r) := DeleteCheckpoint scopeID name (cp_Sequence c) db in
      match r with Err m => (db, Err m) | Ok _ => delete_all scopeID name l db end
  end.

Fixpoint validate_all (l : list Checkpoint) : result unit :=
  match l with [] => Ok tt | c :: l => (_ <-? ValidateCheckpoint c; validate_all l)%go end.

(** [EventRepository] has the archive's [CompactRawArchive], which also returns
    statistics, and so is no [events.RawArchiveCompactor]. *)
Definition compact (scopeID name : string) (m : Manager) : Manager * result unit :=
  if retention m <=? 0 then (m, Ok tt)
  else
    let l := ListCheckpoints scopeID name 0 (store m) in
    let keep := Z.to_nat (retention m) in
    if (length l <=? keep)%nat then (m, Ok tt)
    else match validate_all (take keep l) with
         | Err e => (m, Err e)
         | Ok _ => let '(db, r) := delete_all scopeID name (drop keep l) (store m) in (with_store db m, r)
         end.

(** The oldest valid checkpoint. *)
Definition safeArchiveSequence (scopeID name : string) (m : Manager) : option Z :=
  cp_Sequence <$> List.find valid (rev (ListCheckpoints scopeID name 0 (store m))).

Definition compactArchive (scopeID name : string) (m : Manager) : Manager * result unit :=
  if archive m then
    match safeArchiveSequence scopeID name m with
    | None => (m, Ok tt)
    | Some safe =>
        if safe =? 0 then (m, Ok tt)
        else let '(db, r) := CompactRawArchive scopeID name safe (store m) in
             (with_store db m, match r with Ok _ => Ok tt | Err e => Err e end)
    end
  else (m, Ok tt).

Definition op_save : string := "runtime.checkpoint.Manager.SaveNamedRuntimeState".

Definition checkpoint_metadata (trigger : string) (e : Event) (s : RuntimeState) : gmap string any :=
  list_to_map [("trigger", AString trigger); ("event_type", AString (ev_Type e)); ("event_category", AString (ev_Category e));
               ("correlation_id", AString (ev_CorrelationID e)); ("lifecycle_status", AString (lc_Status (Lifecycle s)));
               ("epoch_id", AString (e_ID (CurrentEpoch s))); ("fencing_token", AInt64 (e_Generation (CurrentEpoch s)))].

Definition set_checksum (sum : string) (c : Checkpoint) : Checkpoint :=
  {| cp_Name := cp_Name c; cp_ScopeID := cp_ScopeID c; cp_Sequence := cp_Sequence c; cp_EventID := cp_EventID c; cp_Checksum := sum;
     cp_State := cp_State c; cp_Compact := cp_Compact c; cp_Metadata := cp_Metadata c; cp_SchemaVersion := cp_SchemaVersion c;
     cp_CreatedAt := cp_CreatedAt c |}.

(** The checkpoint of a state, sealed with its checksum. *)
Definition checkpoint_of (name scopeID trigger : string) (e : Event) (s : RuntimeState) (m : Manager) : Checkpoint :=
  let seq := if (ev_Sequence e =? 0) && sequences m then GetLastSequence scopeID (store m) else ev_Sequence e in
  let c :=
    {| cp_Name := name; cp_ScopeID := scopeID; cp_Sequence := seq; cp_EventID := ev_ID e; cp_Checksum := "";
       cp_State := Some (marshal_state s); cp_Compact := true; cp_Metadata := Some (checkpoint_metadata trigger e s);
       cp_SchemaVersion := SchemaVersion;
       cp_CreatedAt := if is_zero_time (ev_Timestamp e) then lc_LastUpdatedAt (Lifecycle s) else ev_Timestamp e |} in
  set_checksum (checksumFor c) c.

Definition SaveNamedRuntimeState (now : Z) (name scopeID trigger : string) (e : Event) (s : RuntimeState) (m : Manager)
    : Manager * result Checkpoint :=
  let c := checkpoint_of name scopeID trigger e s m in
  let '(db, r) := SaveCheckpoint now c (store m) in
  let m := with_store db m in
  match r with
  | Err x => (m, Err (wrap_msg op_save x))
  | Ok _ =>
      let '(m, r) := compact scopeID name m in
      match r with
      | Err x => (m, Err (wrap_msg op_save x))
      | Ok _ =>
          let '(m, r) := compactArchive scopeID name m in
          (m, match r with Err x => Err (wrap_msg op_save x) | Ok _ => Ok c end)
      end
  end.

Definition SaveRuntimeState (now : Z) := SaveNamedRuntimeState now DefaultRuntimeCheckpointName.

Definition op_latest : string := "runtime.checkpoint.Manager.LatestNamedRuntimeState".

Definition LatestNamedRuntimeState (scopeID name : string) (m : Manager) : result (RuntimeState * Checkpoint) :=
  match LatestCheckpoint scopeID name (store m) with
  | None => Err "runtime checkpoint not found"
  | Some c =>
      match ValidateCheckpoint c with
      | Err x => Err (wrap_msg op_latest x)
      | Ok _ => match unmarshal_state (cp_State c) with Err x => Err (wrap_msg op_latest x) | Ok s => Ok (s, c) end
      end
  end.

Definition LatestRuntimeState (scopeID : string) := LatestNamedRuntimeState scopeID DefaultRuntimeCheckpointName.

Definition InvalidateStale (scopeID name : string) (m : Manager) : Manager * result unit :=
  if sequences m then
    let lastSequence := GetLastSequence scopeID (store m) in
    let stale := List.filter (fun c => lastSequence <? cp_Sequence c) (ListCheckpoints scopeID name 0 (store m)) in
    let '(db, r) := delete_all scopeID name stale (store m) in
    (with_store db m, match r with Err x => Err (wrap_msg "runtime.checkpoint.Manager.InvalidateStale" x) | Ok _ => Ok tt end)
  else (m, Ok tt).

(** ** Lemmas *)

(** The table has one row for a scope, a name and a sequence number. *)
Definition key_of (c : Checkpoint) : string * string * Z := (cp_ScopeID c, cp_Name c, cp_Sequence c).
Definition keys_ok (db : EventRepository) : Prop := NoDup (key_of <$> checkpoints db).

Lemma same_checkpoint_key scope name seq c : same_checkpoint scope name seq c = true <-> key_of c = (scope, name, seq).
Proof. unfold same_checkpoint, key_of. rewrite !andb_true_iff, !bool_decide_eq_true, Z.eqb_eq. naive_solver. Qed.

Definition newest (a b : Checkpoint) : bool := cp_Sequence b <? cp_Sequence a.
Definition under (scope name : string) (c : Checkpoint) : bool := bool_decide (cp_ScopeID c = scope) && bool_decide (cp_Name c = name).

Lemma named_eq scope name db :
  ListCheckpoints scope name 0 db = scan_checkpoint <$> isort newest (List.filter (under scope name) (checkpoints db)).
Proof. done. Qed.

Lemma newest_sorted l : StronglySorted (fun a b => cp_Sequence b <= cp_Sequence a) (isort newest l).
Proof. apply isort_sorted; unfold newest; [intros; lia|intros x y; rewrite Z.ltb_ge; lia|intros ? ? ?; lia]. Qed.

Lemma newest_filter p l : List.filter p (isort newest l) = isort newest (List.filter p l).
Proof. apply isort_filter; unfold newest; intros *; rewrite ?Z.ltb_ge, ?Z.ltb_lt; lia. Qed.

Lemma listed_desc scope name db : keys_ok db -> StronglySorted (fun a b => cp_Sequence b < cp_Sequence a) (ListCheckpoints scope name 0 db).
Proof.
  intros Hk. rewrite named_eq. set (l := List.filter (under scope name) (checkpoints db)).
  assert (NoDup (cp_Sequence <$> isort newest l)) as Hnd.
  { rewrite (isort_perm newest). apply (NoDup_fmap_1 (fun q => (scope, name, q))).
    rewrite <- list_fmap_compose. rewrite (list_fmap_ext_in _ key_of).
    - eapply sublist_NoDup; [exact Hk|]. apply fmap_sublist, lfilter_sublist.
    - intros c [_ Hc]%list_elem_of_In%filter_In. unfold under in Hc. apply andb_true_iff in Hc as [<-%bool_decide_eq_true <-%bool_decide_eq_true]. done. }
  pose proof (newest_sorted l) as Hs. induction Hs as [|c l' Hs IH Hall]; [constructor|]. cbn in *. apply NoDup_cons in Hnd as [Hn Hnd].
  constructor; [auto|]. apply Forall_fmap. rewrite Forall_forall in *. intros x Hx. cbn. specialize (Hall x Hx).
  assert (cp_Sequence x <> cp_Sequence c); [|lia]. intros E. apply Hn. rewrite <- E. apply list_elem_of_fmap. eauto.
Qed.

Lemma lfilter_fmap {A B} (f : A -> B) (p : B -> bool) (q : A -> bool) l :
  (forall x, p (f x) = q x) -> List.filter p (f <$> l) = f <$> List.filter q l.
Proof. intros H. induction l as [|x l IH]; [done|]. cbn. rewrite H. destruct (q x); cbn; by rewrite IH. Qed.

Lemma listed_delete scope name seq db :
  readOnly db = false ->
  ListCheckpoints scope name 0 (DeleteCheckpoint scope name seq db).1 =
  List.filter (fun c => negb (cp_Sequence c =? seq)) (ListCheckpoints scope name 0 db).
Proof.
  intros Hr. unfold DeleteCheckpoint, ensureWritable. rewrite Hr, !named_eq. cbn [fst checkpoints set_checkpoints].
  rewrite (lfilter_fmap _ _ (fun c => negb (cp_Sequence c =? seq))) by done. f_equal. rewrite newest_filter, !lfilter_lfilter. f_equal.
  apply List.filter_ext. intros c. unfold under, same_checkpoint. by destruct (bool_decide _), (bool_decide _), (_ =? _).
Qed.

Lemma delete_all_spec scope name l db :
  readOnly db = false ->
  let r := delete_all scope name l db in
  r.2 = Ok tt /\ readOnly r.1 = false /\ rows r.1 = rows db /\ checkpoints r.1 `sublist_of` checkpoints db /\ (log_ok db -> log_ok r.1) /\
  ListCheckpoints scope name 0 r.1 =
  List.filter (fun c => negb (bool_decide (cp_Sequence c ∈ cp_Sequence <$> l))) (ListCheckpoints scope name 0 db).
Proof.
  cbn zeta. revert db. induction l as [|c l IH]; intros db Hr; cbn [delete_all].
  { split_and!; try done. symmetry. rewrite (List.filter_ext _ (fun _ => true)); [apply List.filter_true|done]. }
  pose proof (listed_delete scope name (cp_Sequence c) db Hr) as Hl.
  destruct (DeleteCheckpoint scope name (cp_Sequence c) db) as [db1 r] eqn:Ed. unfold DeleteCheckpoint, ensureWritable in Ed. rewrite Hr in Ed.
  injection Ed as <- <-. cbn [fst] in Hl. match type of Hl with ListCheckpoints _ _ _ ?d = _ => set (db1 := d) in * end.
  destruct (IH db1 Hr) as (H1 & H2 & H3 & H4 & H6 & H5). split_and!; try done.
  - etrans; [exact H4|]. apply lfilter_sublist.
  - intros Hlog. apply H6. by destruct Hlog.
  - rewrite H5, Hl, lfilter_lfilter. apply List.filter_ext. intros x. rewrite fmap_cons. rewrite <- negb_orb. f_equal.
    destruct (Z.eqb_spec (cp_Sequence x) (cp_Sequence c)) as [E|E]; rewrite ?orb_true_r, ?orb_false_r.
    + symmetry. apply bool_decide_eq_true. rewrite E. left.
    + apply bool_decide_ext. rewrite elem_of_cons. naive_solver.
Qed.

(** What is beyond the first ones goes. *)
Lemma filter_dropped n l :
  StronglySorted (fun a b => cp_Sequence b < cp_Sequence a) l ->
  List.filter (fun c => negb (bool_decide (cp_Sequence c ∈ cp_Sequence <$> drop n l))) l = take n l.
Proof.
  revert n. induction l as [|c l IH]; intros n Hs; [by destruct n|]. inversion_clear Hs as [|? ? Hs' Hall]. destruct n as [|n].
  - cbn [drop take]. rewrite (lfilter_ext_in _ (fun _ => false)); [apply List.filter_false|].
    intros x Hx. apply negb_false_iff, bool_decide_eq_true, list_elem_of_fmap. eauto.
  - cbn [drop take List.filter]. rewrite bool_decide_false; [cbn [negb]; by rewrite IH|].
    intros (x & Hx & Hin)%list_elem_of_fmap. rewrite Forall_forall in Hall.
    assert (x ∈ l) as Hx' by (rewrite <- (take_drop n l); set_solver). specialize (Hall x Hx'). lia.
Qed.

Lemma compact_spec scope name m :
  readOnly (store m) = false -> keys_ok (store m) -> 0 < retention m ->
  let r := compact scope name m in
  (exists e, r.2 = Err e /\ validate_all (take (Z.to_nat (retention m)) (ListCheckpoints scope name 0 (store m))) = Err e) \/
  (r.2 = Ok tt /\ exists db, r.1 = with_store db m /\ readOnly db = false /\ rows db = rows (store m) /\ keys_ok db /\
     (log_ok (store m) -> log_ok db) /\
     ListCheckpoints scope name 0 db = take (Z.to_nat (retention m)) (ListCheckpoints scope name 0 (store m))).
Proof.
  intros Hr Hk Hret. cbn zeta. unfold compact. destruct (Z.leb_spec (retention m) 0); [lia|].
  set (l := ListCheckpoints scope name 0 (store m)). set (n := Z.to_nat (retention m)).
  destruct (Nat.leb_spec (length l) n) as [Hle|Hle].
  { right. split; [done|]. exists (store m). split; [by destruct m|]. split_and!; try done. by rewrite take_ge. }
  destruct (validate_all (take n l)) as [u|e]; [|left; by exists e]. right.
  destruct (delete_all_spec scope name (drop n l) (store m) Hr) as (H1 & H2 & H3 & H4 & H6 & H5).
  destruct (delete_all scope name (drop n l) (store m)) as [db r]. cbn [fst snd] in *. split; [done|]. exists db. split_and!; try done.
  - unfold keys_ok. eapply sublist_NoDup; [exact Hk|]. by apply fmap_sublist.
  - rewrite H5. apply filter_dropped. by apply listed_desc.
Qed.

Lemma find_oldest (p : Checkpoint -> bool) l c0 c :
  StronglySorted (fun a b => cp_Sequence b < cp_Sequence a) l -> List.find p (rev l) = Some c0 -> c ∈ l -> p c = true ->
  cp_Sequence c0 <= cp_Sequence c.
Proof.
  induction 1 as [|x l Hs IH Hall]; [by intros _ ?%not_elem_of_nil|]. cbn [rev]. rewrite find_app. cbn [List.find]. intros Hf Hc Hp.
  destruct (List.find p (rev l)) as [y|] eqn:Ef.
  - injection Hf as ->. apply elem_of_cons in Hc as [->|Hc]; [|auto]. rewrite Forall_forall in Hall.
    assert (c0 ∈ l) as Hin by (apply find_some in Ef as [Hin _]; by apply list_elem_of_In, in_rev). specialize (Hall _ Hin). lia.
  - apply elem_of_cons in Hc as [->|Hc]; [rewrite Hp in Hf; injection Hf as ->; lia|].
    eapply find_none in Ef; [|apply in_rev; rewrite rev_involutive; by apply list_elem_of_In]. congruence.
Qed.

(** The archive is cut at the oldest valid checkpoint of the name. *)
Lemma safe_oldest scope name m safe c :
  keys_ok (store m) -> safeArchiveSequence scope name m = Some safe -> c ∈ ListCheckpoints scope name 0 (store m) -> valid c = true ->
  safe <= cp_Sequence c.
Proof.
  unfold safeArchiveSequence. intros Hk Hs Hc Hv. destruct (List.find valid _) as [c0|] eqn:Ef; [|done]. injection Hs as <-.
  eapply find_oldest; [by apply listed_desc|done..].
Qed.

Lemma CompactRawArchive_checkpoints scope name through db : checkpoints (CompactRawArchive scope name through db).1 = checkpoints db.
Proof. unfold CompactRawArchive. repeat case_match; done. Qed.

Lemma compactArchive_listed scope name m : ListCheckpoints scope name 0 (store (compactArchive scope name m).1) = ListCheckpoints scope name 0 (store m).
Proof.
  unfold compactArchive. destruct (archive m); [|done]. destruct (safeArchiveSequence _ _ _) as [safe|]; [|done]. destruct (safe =? 0); [done|].
  pose proof (CompactRawArchive_checkpoints scope name safe (store m)) as Hc. destruct (CompactRawArchive _ _ _ _). rewrite !named_eq. cbn in *. by rewrite Hc.
Qed.

Lemma compactArchive_events scope name m c :
  log_ok (store m) -> keys_ok (store m) -> c ∈ ListCheckpoints scope name 0 (store m) -> valid c = true ->
  List_ scope (cp_Sequence c) (store (compactArchive scope name m).1) = List_ scope (cp_Sequence c) (store m).
Proof.
  intros Hlog Hk Hc Hv. unfold compactArchive. destruct (archive m); [|done].
  destruct (safeArchiveSequence scope name m) as [safe|] eqn:Es; [|done]. destruct (safe =? 0); [done|].
  pose proof (Replay.List_compacted scope name safe (cp_Sequence c) (store m) Hlog (safe_oldest _ _ _ _ _ Hk Es Hc Hv)) as Hl.
  by destruct (CompactRawArchive _ _ _ _).
Qed.

(** A checkpoint that replay accepts has the manager's checksum. *)
Lemma replay_valid scope name c : is_ok (Replay.validateReplayCheckpoint scope name c) = true -> valid c = true.
Proof.
  unfold Replay.validateReplayCheckpoint, valid, ValidateCheckpoint. destruct (negb (bool_decide (cp_ScopeID c = scope))); [done|].
  destruct (negb (bool_decide (cp_Name c = name))); [done|]. destruct (cp_Sequence c =? 0); [done|]. destruct (cp_EventID c <=? 0); [done|].
  destruct (is_zero_time (cp_CreatedAt c)) eqn:Ez; [done|]. destruct (cp_State c) as [st|] eqn:Est; [|done]. destruct (negb (cp_Compact c)); [done|].
  assert (Replay.checkpointReplayChecksum c = checksumFor c) as ->.
  { unfold Replay.checkpointReplayChecksum, checksumFor, canonicalTime. by rewrite Est, Ez. }
  by destruct (bool_decide (cp_Checksum c = checksumFor c)).
Qed.

Lemma SaveCheckpoint_keys now c db : keys_ok db -> keys_ok (SaveCheckpoint now c db).1.
Proof.
  intros Hk. unfold SaveCheckpoint. destruct (ensureWritable _ _); [|done]. cbn [cp_ScopeID cp_Name cp_Sequence].
  destruct (existsb _ _) eqn:He; [done|]. unfold keys_ok. cbn. rewrite fmap_app. apply NoDup_app. split_and!; [done| |apply NoDup_singleton].
  intros k Hin. cbn. intros ->%list_elem_of_singleton. apply list_elem_of_fmap in Hin as (c' & Hkey & Hin).
  apply not_true_iff_false in He. apply He, existsb_exists. exists c'. split; [by apply list_elem_of_In|]. by apply same_checkpoint_key.
Qed.

Lemma SaveCheckpoint_log now c db : rows (SaveCheckpoint now c db).1 = rows db /\ (log_ok db -> log_ok (SaveCheckpoint now c db).1).
Proof. split; [unfold SaveCheckpoint; repeat case_match; done|]. intros. eapply step_ok; [apply step_save|done]. Qed.

Lemma List_of_rows scope seq db db' : rows db' = rows db -> List_ scope seq db' = List_ scope seq db.
Proof. unfold List_, in_scope. by intros ->. Qed.

Lemma loaded_listed scope name db c :
  Replay.loadValidCheckpoint (LatestCheckpoint, ListCheckpoints) scope name db = inl c ->
  c ∈ ListCheckpoints scope name 0 db /\ valid c = true.
Proof.
  unfold Replay.loadValidCheckpoint. cbn [fst snd].
  assert (forall c', List.find (fun c => is_ok (Replay.validateReplayCheckpoint scope name c)) (ListCheckpoints scope name 0 db) = Some c' ->
            c' ∈ ListCheckpoints scope name 0 db /\ valid c' = true) as Hf.
  { intros c' [Hin Hv]%find_some. split; [by apply list_elem_of_In|]. by eapply replay_valid. }
  destruct (LatestCheckpoint scope name db) as [c1|] eqn:El.
  - destruct (is_ok _) eqn:Ev; [|destruct (List.find _ _); [intros [= <-]; auto|done]]. intros [= <-]. split; [|by eapply replay_valid].
    unfold LatestCheckpoint in El. unfold ListCheckpoints. cbn. destruct (named_checkpoints scope name db); [done|]. injection El as <-. left.
  - destruct (List.find _ _); [intros [= <-]; auto|]. by destruct (ListCheckpoints _ _ _ _).
Qed.

(** C17: saving a checkpoint keeps the state recoverable.  The checkpoints
    left under the name are the newest ones of those saved, as many as the
    retention allows; and behind every one of them that is valid, in
    particular behind the one a replay would start from, the log has all the
    events it had before: pruning never outruns the oldest valid checkpoint. *)
Theorem save_keeps_recoverable now name scope trigger e s m m' c :
  readOnly (store m) = false -> log_ok (store m) -> keys_ok (store m) -> 0 < retention m ->
  SaveNamedRuntimeState now name scope trigger e s m = (m', Ok c) ->
  ListCheckpoints scope name 0 (store m') =
    take (Z.to_nat (retention m)) (ListCheckpoints scope name 0 (SaveCheckpoint now c (store m)).1) /\
  (forall c', c' ∈ ListCheckpoints scope name 0 (store m') -> valid c' = true ->
     List_ scope (cp_Sequence c') (store m') = List_ scope (cp_Sequence c') (store m)) /\
  (forall c', Replay.loadValidCheckpoint (LatestCheckpoint, ListCheckpoints) scope name (store m') = inl c' ->
     List_ scope (cp_Sequence c') (store m') = List_ scope (cp_Sequence c') (store m)).
Proof.
  intros Hr Hlog Hk Hret. unfold SaveNamedRuntimeState. set (c0 := checkpoint_of name scope trigger e s m).
  pose proof (SaveCheckpoint_keys now c0 (store m) Hk) as Hk1. pose proof (SaveCheckpoint_log now c0 (store m)) as [Hrows Hlog1].
  specialize (Hlog1 Hlog). assert (readOnly (SaveCheckpoint now c0 (store m)).1 = false) as Hr1 by (unfold SaveCheckpoint; repeat case_match; done).
  destruct (SaveCheckpoint now c0 (store m)) as [db1 r1] eqn:E1. cbn [fst] in *. destruct r1 as [u|x]; [|done].
  set (m1 := with_store db1 m). pose proof (compact_spec scope name m1 Hr1 Hk1 Hret) as Hcomp. cbn zeta in Hcomp.
  destruct (compact scope name m1) as [m2 r2]. cbn [fst snd] in Hcomp.
  destruct Hcomp as [(x & -> & _)|(-> & db2 & -> & Hr2 & Hrows2 & Hk2 & Hlog2 & Hl2)]; [done|]. specialize (Hlog2 Hlog1).
  pose proof (compactArchive_listed scope name (with_store db2 m1)) as Hl3.
  pose proof (fun c' => compactArchive_events scope name (with_store db2 m1) c') as Hev.
  destruct (compactArchive scope name (with_store db2 m1)) as [m3 r3]. cbn [fst store with_store] in *. destruct r3 as [u'|x]; [|done].
  intros [= <- <-]. rewrite E1. cbn [fst]. split; [by rewrite Hl3, Hl2|].
  assert (forall c', c' ∈ ListCheckpoints scope name 0 (store m3) -> valid c' = true ->
     List_ scope (cp_Sequence c') (store m3) = List_ scope (cp_Sequence c') (store m)) as Hmain.
  { intros c' Hc Hv. rewrite Hl3 in Hc. rewrite (Hev c' Hlog2 Hk2 Hc Hv). apply List_of_rows. by rewrite Hrows2. }
  split; [exact Hmain|]. intros c' [Hc Hv]%loaded_listed. by apply Hmain.
Qed.

(** *** Reading a checkpoint back *)

Lemma reread_list l : reread (Some (list_to_map l)) = Some (list_to_map (prod_map id reread_any <$> l)).
Proof. unfold reread. cbn. by rewrite list_to_map_fmap. Qed.

(** A number is written alike whichever of its types it has. *)
Lemma metadata_text t y k co st ep g :
  metadata_field (Some (list_to_map [("trigger", AString t); ("event_type", AString y); ("event_category", AString k);
    ("correlation_id", AString co); ("lifecycle_status", AString st); ("epoch_id", AString ep); ("fencing_token", AFloat64 g)])) =
  metadata_field (Some (list_to_map [("trigger", AString t); ("event_type", AString y); ("event_category", AString k);
    ("correlation_id", AString co); ("lifecycle_status", AString st); ("epoch_id", AString ep); ("fencing_token", AInt64 g)])).
Proof. by vm_compute. Qed.

(** The numbers of the metadata come back as floats. *)
Definition exact (g : Z) : Prop := Z.abs g <= 2 ^ 53.

Lemma sealed_valid name scope trigger e s m :
  exact (e_Generation (CurrentEpoch s)) -> valid (scan_checkpoint (checkpoint_of name scope trigger e s m)) = true.
Proof.
  intros Hg. unfold valid, ValidateCheckpoint. rewrite bool_decide_true; [done|]. unfold checksumFor, scan_checkpoint, checkpoint_of, set_checksum.
  cbn [cp_Checksum cp_Metadata cp_Name cp_ScopeID cp_Sequence cp_EventID cp_State cp_SchemaVersion cp_CreatedAt].
  unfold checkpoint_metadata. rewrite reread_list. cbn [fmap list_fmap prod_map id reread_any fst snd]. rewrite to_float_exact by done.
  by rewrite metadata_text.
Qed.

Lemma isort_newest_snoc l c : Forall (fun x => cp_Sequence x < cp_Sequence c) l -> isort newest (l ++ [c]) = c :: isort newest l.
Proof.
  induction 1 as [|x l Hx _ IH]; [done|]. change (isort newest ((x :: l) ++ [c])) with (ins newest x (isort newest (l ++ [c]))). rewrite IH.
  cbn. unfold newest at 1. by rewrite (proj2 (Z.ltb_lt _ _) Hx).
Qed.

(** A checkpoint newer than those of its name comes first in the list. *)
Lemma save_lists now c db :
  readOnly db = false -> cp_SchemaVersion c <> 0 -> is_zero_time (cp_CreatedAt c) = false ->
  Forall (fun x => cp_Sequence x < cp_Sequence c) (ListCheckpoints (cp_ScopeID c) (cp_Name c) 0 db) ->
  (SaveCheckpoint now c db).2 = Ok tt /\
  ListCheckpoints (cp_ScopeID c) (cp_Name c) 0 (SaveCheckpoint now c db).1 =
    scan_checkpoint c :: ListCheckpoints (cp_ScopeID c) (cp_Name c) 0 db.
Proof.
  intros Hr Hv Hz Hall.
  assert (Forall (fun x => cp_Sequence x < cp_Sequence c) (List.filter (under (cp_ScopeID c) (cp_Name c)) (checkpoints db))) as Hall'.
  { rewrite named_eq, Forall_fmap, (isort_perm newest) in Hall. exact Hall. }
  unfold SaveCheckpoint, ensureWritable. rewrite Hr, Hz. rewrite (proj2 (Z.eqb_neq _ _) Hv). cbn [cp_ScopeID cp_Name cp_Sequence].
  destruct (existsb _ _) eqn:Ex.
  { exfalso. apply existsb_exists in Ex as (x & Hx & Hs%same_checkpoint_key). unfold key_of in Hs. injection Hs as H1 H2 H3.
    rewrite Forall_forall in Hall'. specialize (Hall' x). rewrite H3 in Hall'. assert (cp_Sequence c < cp_Sequence c); [|lia]. apply Hall'.
    apply elem_of_lfilter. split; [by apply list_elem_of_In|]. unfold under. by rewrite H1, H2, !bool_decide_true. }
  split; [done|]. rewrite !named_eq. cbn [fst checkpoints set_checkpoints]. rewrite List.filter_app. cbn [List.filter]. unfold under at 2.
  cbn [cp_ScopeID cp_Name]. rewrite !bool_decide_true by done. cbn [andb]. rewrite isort_newest_snoc by done. by destruct c.
Qed.

Lemma validate_all_ok l : Forall (fun c => valid c = true) l -> validate_all l = Ok tt.
Proof.
  induction 1 as [|c l Hc _ IH]; [done|]. cbn. unfold valid in Hc. destruct (ValidateCheckpoint c) as [[]|]; [|done]. exact IH.
Qed.

Lemma compactArchive_ok scope name m :
  readOnly (store m) = false -> (compactArchive scope name m).2 = Ok tt.
Proof.
  intros Hr. unfold compactArchive. destruct (archive m); [|done]. unfold safeArchiveSequence.
  destruct (List.find valid _) as [c|] eqn:Ef; [|done]. cbn. destruct (cp_Sequence c =? 0) eqn:Ez; [done|].
  assert (hasCheckpointBoundary scope name (cp_Sequence c) (store m) = true) as Hb.
  { apply find_some in Ef as [Hin _]. rewrite <- in_rev, <- list_elem_of_In, named_eq in Hin. apply list_elem_of_fmap in Hin as (c0 & -> & Hin).
    rewrite (isort_perm newest) in Hin. apply elem_of_lfilter in Hin as [Hin Hu]. apply existsb_exists. exists c0.
    split; [by apply list_elem_of_In|]. unfold under in Hu. unfold same_checkpoint. apply andb_true_iff. split; [exact Hu|]. cbn. apply Z.eqb_refl. }
  unfold CompactRawArchive, ensureWritable. rewrite Hr, Ez, Hb. cbn [negb]. by destruct (countEventsThrough _ _ _ =? 0).
Qed.

(** C18: a state that is saved is the state that is read back.  With a
    writable log, valid checkpoints and a position after theirs, saving
    succeeds and reading the latest checkpoint of the name gives the same
    state, for every state whose epoch number a float can hold. *)
Theorem save_then_latest now name scope trigger e s m :
  readOnly (store m) = false -> keys_ok (store m) -> 0 < retention m -> state_typed s -> exact (e_Generation (CurrentEpoch s)) ->
  let c := checkpoint_of name scope trigger e s m in
  is_zero_time (cp_CreatedAt c) = false ->
  Forall (fun x => cp_Sequence x < cp_Sequence c /\ valid x = true) (ListCheckpoints scope name 0 (store m)) ->
  exists m', SaveNamedRuntimeState now name scope trigger e s m = (m', Ok c) /\
             LatestNamedRuntimeState scope name m' = Ok (s, scan_checkpoint c).
Proof.
  intros Hr Hk Hret Hty Hex c Hz Hall. apply Forall_and in Hall as [Hlt Hval].
  destruct (save_lists now c (store m) Hr) as [Hs1 Hs2]; [done|done|exact Hlt|].
  change (cp_ScopeID c) with scope in Hs2. change (cp_Name c) with name in Hs2.
  pose proof (SaveCheckpoint_keys now c (store m) Hk) as Hk1.
  assert (readOnly (SaveCheckpoint now c (store m)).1 = false) as Hr1 by (unfold SaveCheckpoint; repeat case_match; done).
  unfold SaveNamedRuntimeState. fold c. destruct (SaveCheckpoint now c (store m)) as [db1 r1]. cbn [fst snd] in *. subst r1.
  pose proof (compact_spec scope name (with_store db1 m) Hr1 Hk1 Hret) as Hcomp. cbn zeta in Hcomp.
  destruct (compact scope name (with_store db1 m)) as [m2 r2]. cbn [fst snd store with_store retention] in Hcomp. rewrite Hs2 in Hcomp.
  assert (validate_all (take (Z.to_nat (retention m)) (scan_checkpoint c :: ListCheckpoints scope name 0 (store m))) = Ok tt) as Hv.
  { apply validate_all_ok, Forall_take. constructor; [by apply sealed_valid|done]. }
  destruct Hcomp as [(x & _ & Hx)|(-> & db2 & -> & Hr2 & _ & _ & _ & Hl2)]; [congruence|].
  pose proof (compactArchive_ok scope name (with_store db2 (with_store db1 m)) Hr2) as Hok.
  pose proof (compactArchive_listed scope name (with_store db2 (with_store db1 m))) as Hl3.
  destruct (compactArchive _ _ _) as [m3 r3]. cbn [fst snd store with_store] in *. subst r3. exists m3. split; [done|].
  assert (LatestCheckpoint scope name (store m3) = Some (scan_checkpoint c)) as Hhead.
  { change (LatestCheckpoint scope name (store m3)) with (head (ListCheckpoints scope name 0 (store m3))). rewrite Hl3, Hl2.
    destruct (Z.to_nat (retention m)) eqn:En; [lia|done]. }
  unfold LatestNamedRuntimeState. rewrite Hhead. pose proof (sealed_valid name scope trigger e s m Hex) as Hval1. fold c in Hval1.
  unfold valid in Hval1. destruct (ValidateCheckpoint (scan_checkpoint c)); [|done].
  change (cp_State (scan_checkpoint c)) with (Some (marshal_state s)). by rewrite state_roundtrip.
Qed.

(** A save keeps the invariants of the log and of the table. *)
Lemma delete_all_inv scope name l db : (log_ok db -> log_ok (delete_all scope name l db).1) /\ (keys_ok db -> keys_ok (delete_all scope name l db).1).
Proof.
  revert db. induction l as [|c l IH]; intros db; [done|]. cbn. destruct (DeleteCheckpoint scope name (cp_Sequence c) db) as [db1 r] eqn:Ed.
  assert ((log_ok db -> log_ok db1) /\ (keys_ok db -> keys_ok db1)) as [H1 H2].
  { unfold DeleteCheckpoint in Ed. destruct (ensureWritable _ _); injection Ed as <- <-; [|done]. split; [by intros []|].
    intros Hk. unfold keys_ok. cbn. eapply sublist_NoDup; [exact Hk|]. apply fmap_sublist, lfilter_sublist. }
  destruct r; cbn; [|done]. destruct (IH db1). auto.
Qed.

Lemma compact_inv scope name m :
  (log_ok (store m) -> log_ok (store (compact scope name m).1)) /\ (keys_ok (store m) -> keys_ok (store (compact scope name m).1)).
Proof.
  unfold compact. destruct (_ <=? 0); [done|]. destruct (_ <=? _)%nat; [done|]. destruct (validate_all _); [|done].
  match goal with |- context [delete_all scope name ?l ?d] => pose proof (delete_all_inv scope name l d) as Hd end.
  by destruct (delete_all _ _ _ _).
Qed.

Lemma compactArchive_inv scope name m :
  (log_ok (store m) -> log_ok (store (compactArchive scope name m).1)) /\
  (keys_ok (store m) -> keys_ok (store (compactArchive scope name m).1)).
Proof.
  unfold compactArchive. destruct (archive m); [|done]. destruct (safeArchiveSequence _ _ _) as [safe|]; [|done]. destruct (safe =? 0); [done|].
  pose proof (CompactRawArchive_checkpoints scope name safe (store m)) as Hc.
  pose proof (step_ok _ _ (step_compact scope name safe (store m))) as Hl. destruct (CompactRawArchive _ _ _ _). cbn in *.
  split; [done|]. unfold keys_ok. by rewrite Hc.
Qed.

Lemma save_inv now name scope trigger e s m :
  let m' := (SaveNamedRuntimeState now name scope trigger e s m).1 in
  (log_ok (store m) -> log_ok (store m')) /\ (keys_ok (store m) -> keys_ok (store m')).
Proof.
  cbn zeta. unfold SaveNamedRuntimeState. set (c := checkpoint_of _ _ _ _ _ _).
  pose proof (SaveCheckpoint_keys now c (store m)) as K1. pose proof (SaveCheckpoint_log now c (store m)) as [_ L1].
  destruct (SaveCheckpoint now c (store m)) as [db1 [u|x]]; cbn [fst] in *; [|done].
  destruct (compact_inv scope name (with_store db1 m)) as [L2 K2]. destruct (compact scope name (with_store db1 m)) as [m2 [u2|x]]; cbn [fst store with_store] in *; [|auto].
  destruct (compactArchive_inv scope name m2) as [L3 K3]. destruct (compactArchive scope name m2) as [m3 r3]. cbn [fst] in *. auto.
Qed.

Lemma save_log_ok now name scope trigger e s m :
  log_ok (store m) -> log_ok (store (SaveNamedRuntimeState now name scope trigger e s m).1).
Proof. apply save_inv. Qed.
Lemma save_keys_ok now name scope trigger e s m :
  keys_ok (store m) -> keys_ok (store (SaveNamedRuntimeState now name scope trigger e s m).1).
Proof. apply save_inv. Qed.

(** ** Examples *)

Definition demo_state (status : string) : RuntimeState :=
  {| LastRunID := "run"; LastAppliedSnapshot := "sum"; LastPlanID := ""; LastSuccessAt := 5; IncompleteBatchID := ""; ActiveRollbackID := "";
     CurrentEpoch := {| e_ID := "ep"; e_ParentID := ""; e_Generation := 7; e_SchedulerRunID := ""; e_CreatedAt := 3 |};
     ActiveLease := Some {| l_ID := "l"; l_Owner := "a"; l_Action := "reconcile"; l_EpochID := "ep"; l_ExpiresAt := 90; l_CreatedAt := 3;
                            l_FencingToken := 7 |};
     ActiveRollbackLease := None; LastSafeCheckpoint := ""; Lifecycle := {| lc_Status := status; lc_EpochID := "ep"; lc_RunID := ""; lc_BatchID := "";
       lc_PlanID := ""; lc_StartedAt := 4; lc_LastUpdatedAt := 6; lc_Error := ""; lc_RetryCount := 0 |};
     Cooldowns := {["b" := 8; "a" := 9]} |}.

Definition demo_manager : Manager := NewManager sample_log true 0 true.
(** The events of the log, with their sequence numbers. *)
Definition demo_event (n : Z) : Event := set_ids n n (sample_event (if n =? 1 then "a" else "b") (10 * n)).

Lemma demo_typed status : state_typed (demo_state status).
Proof. split; [split; vm_compute; congruence|split; vm_compute; congruence| |done]. intros l [= <-]. split; vm_compute; congruence. Qed.

Lemma save_then_latest_witness :
  exists m', SaveNamedRuntimeState 50 "runtime-state" "scope" "t" (demo_event 2) (demo_state "idle") demo_manager =
               (m', Ok (checkpoint_of "runtime-state" "scope" "t" (demo_event 2) (demo_state "idle") demo_manager)) /\
             LatestNamedRuntimeState "scope" "runtime-state" m' =
               Ok (demo_state "idle", scan_checkpoint (checkpoint_of "runtime-state" "scope" "t" (demo_event 2) (demo_state "idle") demo_manager)).
Proof.
  apply (save_then_latest 50 "runtime-state" "scope" "t" (demo_event 2) (demo_state "idle") demo_manager).
  - reflexivity.
  - constructor.
  - reflexivity.
  - apply demo_typed.
  - vm_compute. congruence.
  - reflexivity.
  - constructor.
Defined.

(** Two saves in turn, with room for both. *)
Definition after_one : Manager := (SaveRuntimeState 50 "scope" "t" (demo_event 1) (demo_state "idle") demo_manager).1.
Definition after_two : Manager * result Checkpoint := SaveRuntimeState 50 "scope" "t" (demo_event 2) (demo_state "discovering") after_one.

Definition positions (name : string) (m : Manager) : list Z := cp_Sequence <$> ListCheckpoints "scope" name 0 (store m).
Definition log_of (m : Manager) : list Z := ev_Sequence <$> rows (store m).

Lemma save_keeps_recoverable_witness :
  log_of after_one = [2] /\ positions "runtime-state" after_two.1 = [2; 1] /\ log_of after_two.1 = [2] /\
  Forall (fun c => valid c = true -> List_ "scope" (cp_Sequence c) (store after_two.1) = List_ "scope" (cp_Sequence c) (store after_one))
    (ListCheckpoints "scope" "runtime-state" 0 (store after_two.1)).
Proof.
  split; [by vm_compute|]. split; [by vm_compute|]. split; [by vm_compute|].
  assert (is_ok after_two.2 = true) as Hok by (by vm_compute). destruct after_two as [m' [c|x]] eqn:E; [|done].
  apply Forall_forall.
  apply (save_keeps_recoverable 50 "runtime-state" "scope" "t" (demo_event 2) (demo_state "discovering") after_one m' c).
  - by vm_compute.
  - apply save_log_ok, sample_log_ok.
  - apply save_keys_ok. constructor.
  - by vm_compute.
  - exact E.
Defined.

(** With the first checkpoint of a scope the whole log up to it is pruned; the
    last sequence number is read from the rows that are left, is then 0, and
    the checkpoint counts as stale. *)
Example stale_check_forgets :
  let m := (SaveRuntimeState 50 "scope" "t" (demo_event 2) (demo_state "idle") demo_manager).1 in
  log_of m = [] /\ positions "runtime-state" m = [2] /\ positions "runtime-state" (InvalidateStale "scope" "runtime-state" m).1 = [].
Proof. by vm_compute. Qed.

(** The archive is pruned by the checkpoints of one name only: the first
    checkpoint of another name takes away the events behind the older ones. *)
Example other_name_prunes :
  log_of after_one = [2] /\ positions "runtime-state" after_one = [1] /\
  let m := (SaveNamedRuntimeState 50 "post-convergence" "scope" "t" (demo_event 2) (demo_state "converged") after_one).1 in
  log_of m = [] /\ positions "runtime-state" m = [1].
Proof. by vm_compute. Qed.

End Checkpoint.
