(* ===== verification/Drift.v ===== *)
(** * Drift, invariants and convergence

    The classification of drift and its escalation ([internal/runtime/drift]
    with [memory]), the invariants of a snapshot
    ([internal/runtime/invariants]) and the check that a run converged
    ([internal/runtime/convergence]).  Case is folded for ASCII letters. *)

From Stdlib Require Import SpecFloat.
From S2P Require Import Prelude RuntimeModels Lifecycle Reports ResourceGraph Snapshot.
Import Models StateStore StateMachine F64 Snapshot Resources.

Local Open Scope Z_scope.

(** ** Memory of drifts ([drift/memory]) *)
Module Memory.

Inductive Trend := TrendImproving | TrendStable | TrendWorsening.

Record DriftMemory := {
  Fingerprint : string; FirstSeenAt : Z; LastSeenAt : Z; Occurrences : Z; LastScopeID : string; LastLeaderID : string;
  SeverityTrend : Trend; LastRiskScore : float64;
}.

Definition Store : Type := gmap string DriftMemory.

(** The memory a drift leaves; [now] is the clock at the call. *)
Definition Record_ (now : Z) (fingerprint : string) (score : float64) (scopeID leaderID : string) (s : Store) : Store * DriftMemory :=
  let '(first, n, trend) :=
    match s !! fingerprint with
    | None => (now, 1, TrendStable)
    | Some m =>
        (FirstSeenAt m, wrap64 (Occurrences m + 1),
         if SFltb (LastRiskScore m) score then TrendWorsening else if SFltb score (LastRiskScore m) then TrendImproving else TrendStable)
    end in
  let m := {| Fingerprint := fingerprint; FirstSeenAt := first; LastSeenAt := now; Occurrences := n; LastScopeID := scopeID;
              LastLeaderID := leaderID; SeverityTrend := trend; LastRiskScore := score |} in
  (<[fingerprint := m]> s, m).

Definition Get (fingerprint : string) (s : Store) : option DriftMemory := s !! fingerprint.

Definition DetectGlobalAnomaly (now window threshold : Z) (s : Store) : bool :=
  threshold <? Z.of_nat (length (List.filter (fun kv => t_sub now (LastSeenAt kv.2) <? window) (map_to_list s))).

End Memory.

(** ** Drift engine ([drift]) *)
Module DriftEngine.
Import Memory.

Inductive Class_ :=
| ClassBenign | ClassOperator | ClassHostile | ClassProvider | ClassOscillation | ClassStale | ClassOwnership | ClassConvergence.
Inductive RiskLevel := LevelInfo | LevelLow | LevelMedium | LevelHigh | LevelCritical.
Inductive EscalationAction :=
| ActionIgnore | ActionAuditOnly | ActionRetry | ActionCooldown | ActionRequireApproval | ActionQuarantine | ActionRollback | ActionBreakerOpen.

#[export] Instance Class_eq_dec : EqDecision Class_.
Proof. solve_decision. Defined.
#[export] Instance EscalationAction_eq_dec : EqDecision EscalationAction.
Proof. solve_decision. Defined.

(** The fields the engine reads and writes. *)
Record DriftEvent := {
  ID : string; Timestamp : Z; de_StableIdentityKey : string; ResourceType : string; Classification : option Class_; de_Fingerprint : string;
  Level : option RiskLevel; RiskScore : float64; Diff : string;
}.

Record EscalationDecision := { Action : EscalationAction; Reason : string }.

Definition set_class (c : Class_) (e : DriftEvent) : DriftEvent :=
  {| ID := ID e; Timestamp := Timestamp e; de_StableIdentityKey := de_StableIdentityKey e; ResourceType := ResourceType e;
     Classification := Some c; de_Fingerprint := de_Fingerprint e; Level := Level e; RiskScore := RiskScore e; Diff := Diff e |}.
Definition set_risk (l : RiskLevel) (score : float64) (e : DriftEvent) : DriftEvent :=
  {| ID := ID e; Timestamp := Timestamp e; de_StableIdentityKey := de_StableIdentityKey e; ResourceType := ResourceType e;
     Classification := Classification e; de_Fingerprint := de_Fingerprint e; Level := Some l; RiskScore := score; Diff := Diff e |}.

Definition externally_owned (reg : Registry) (rt : string) : bool :=
  match Resources.Get rt reg with Some d => bool_decide (d_DefaultOwner d = OwnershipExternallyOwned) | None => false end.

Definition Classify (reg : Registry) (e : DriftEvent) : DriftEvent :=
  let lower := to_lower (Diff e) in
  if externally_owned reg (ResourceType e) then set_class ClassOwnership e
  else if str_contains lower "convergence" then set_class ClassConvergence e
  else if str_contains lower "deleted" || str_contains lower "removed" then set_class ClassHostile e
  else if bool_decide (Diff e = "") || str_contains (Diff e) "timestamp" then set_class ClassBenign e
  else set_class ClassOperator e.

Definition tenth (n : Z) : float64 := div (of_int n) (of_int 10).

Definition Score (e : DriftEvent) : DriftEvent :=
  match Classification e with
  | Some ClassHostile => set_risk LevelCritical (tenth 9) e
  | Some ClassOwnership => set_risk LevelHigh (tenth 8) e
  | Some ClassOscillation => set_risk LevelHigh (tenth 7) e
  | Some ClassConvergence => set_risk LevelMedium (tenth 5) e
  | Some ClassOperator => set_risk LevelLow (tenth 2) e
  | Some ClassBenign => set_risk LevelInfo (tenth 1) e
  | _ => set_risk LevelMedium (tenth 4) e
  end.

Section engine.
Context {B C : Type} `{!EventBus B} `{!CheckpointManager C}.

Record Engine := { registry : Registry; machine : StateMachine B C; memStore : Store }.

(** The transition's error is dropped. *)
Definition Decide (now : Z) (ctx : RuntimeContext) (e : DriftEvent) (sm : StateMachine B C) : StateMachine B C * EscalationDecision :=
  match Classification e with
  | Some ClassHostile =>
      ((Transition now now ctx StatusQuarantined "hostile drift detected" sm).1,
       {| Action := ActionQuarantine; Reason := "hostile drift detected" |})
  | Some ClassOwnership => (sm, {| Action := ActionRequireApproval; Reason := "ownership violation" |})
  | Some ClassOscillation => (sm, {| Action := ActionCooldown; Reason := "reconciliation oscillation detected" |})
  | Some ClassConvergence => (sm, {| Action := ActionRetry; Reason := "transient convergence failure" |})
  | Some ClassBenign => (sm, {| Action := ActionAuditOnly; Reason := "benign drift" |})
  | _ => (sm, {| Action := ActionAuditOnly; Reason := "manual operator drift" |})
  end.

(** The engine, the decision and the event as it is left. *)
Definition Process (now : Z) (ctx : RuntimeContext) (e0 : DriftEvent) (scopeID leaderID : string) (g : Engine)
    : Engine * EscalationDecision * DriftEvent :=
  let e := Score (Classify (registry g) e0) in
  let '(ms, hist) := Record_ now (de_Fingerprint e) (RiskScore e) scopeID leaderID (memStore g) in
  let e := if (5 <? Occurrences hist) && bool_decide (Classification e = Some ClassConvergence)
           then Score (set_class ClassOscillation e) else e in
  let '(sm, d) := Decide now ctx e (machine g) in
  ({| registry := registry g; machine := sm; memStore := ms |}, d, e).

(** ** Theorems *)

Definition seen (fp : string) (g : Engine) : Z := match memStore g !! fp with Some m => Occurrences m | None => 0 end.

(** A drift whose text speaks of convergence and that nobody else owns. *)
Definition converging (g : Engine) (e : DriftEvent) : Prop :=
  externally_owned (registry g) (ResourceType e) = false /\ str_contains (to_lower (Diff e)) "convergence" = true.

Lemma Process_converging now ctx e scope leader g :
  converging g e -> 0 <= seen (de_Fingerprint e) g < int64_max ->
  let '(g', d, _) := Process now ctx e scope leader g in
  Action d = (if 5 <=? seen (de_Fingerprint e) g then ActionCooldown else ActionRetry) /\ registry g' = registry g /\
  machine g' = machine g /\ seen (de_Fingerprint e) g' = seen (de_Fingerprint e) g + 1.
Proof.
  intros [Ho Hd] Hn. unfold Process, Classify. rewrite Ho, Hd. cbn [Score Classification set_class de_Fingerprint set_risk RiskScore].
  unfold Record_, seen in *. destruct (memStore g !! de_Fingerprint e) as [m|]; cbn [Occurrences].
  - assert (wrap64 (Occurrences m + 1) = Occurrences m + 1) as Hw by (apply wrap64_small; unfold int64_min in *; lia). rewrite Hw.
    rewrite bool_decide_true by done. rewrite andb_true_r. destruct (Z.leb_spec 5 (Occurrences m)), (Z.ltb_spec 5 (Occurrences m + 1)); try lia;
      unfold Decide, Store; cbn [andb Score set_class Classification set_risk machine memStore registry Action]; rewrite (lookup_insert_eq (M := gmap string)); auto.
  - unfold Decide, Store. cbn [andb Score set_class Classification set_risk machine memStore registry Action Z.ltb Z.compare Pos.compare Pos.compare_cont].
    rewrite (lookup_insert_eq (M := gmap string)). auto.
Qed.

Fixpoint decisions (ctx : RuntimeContext) (scope leader : string) (calls : list (Z * DriftEvent)) (g : Engine) : list EscalationAction :=
  match calls with
  | [] => []
  | (now, e) :: calls => let '(g, d, _) := Process now ctx e scope leader g in Action d :: decisions ctx scope leader calls g
  end.

(** a drift that keeps coming back.  The first five times a convergence
    failure is seen it is retried; from the sixth on, however many there are,
    it is an oscillation and the scope cools down.  The lifecycle is not
    touched. *)
Theorem oscillation_damped ctx scope leader fp calls g :
  memStore g !! fp = None -> Z.of_nat (length calls) < int64_max ->
  Forall (fun c => de_Fingerprint c.2 = fp /\ converging g c.2) calls ->
  decisions ctx scope leader calls g = replicate (Nat.min 5 (length calls)) ActionRetry ++ replicate (length calls - 5) ActionCooldown.
Proof.
  intros Hn Hlen Hall.
  assert (forall n cs g', 0 <= n -> n + Z.of_nat (length cs) < int64_max -> seen fp g' = n -> registry g' = registry g ->
            Forall (fun c => de_Fingerprint c.2 = fp /\ converging g c.2) cs ->
            decisions ctx scope leader cs g' = (fun k => if 5 <=? n + Z.of_nat k then ActionCooldown else ActionRetry) <$> seq 0 (length cs)) as Hgen.
  { intros n cs. revert n. induction cs as [|[now e] cs IH]; intros n g' H0 Hl Hs Hr Hf; [done|]. inversion_clear Hf as [|? ? [Hfp Hc] Hf'].
    cbn in Hfp. subst fp. assert (converging g' e) as Hc' by (destruct Hc; split; [by rewrite Hr|done]). cbn [length] in Hl.
    pose proof (Process_converging now ctx e scope leader g' Hc') as Hp. rewrite Hs in Hp. specialize (Hp ltac:(lia)).
    cbn [decisions]. destruct (Process now ctx e scope leader g') as [[g1 d] e1]. destruct Hp as (Ha & Hr1 & _ & Hs1). cbn [length seq fmap list_fmap].
    rewrite Ha, Z.add_0_r. f_equal. rewrite (IH (n + 1)); [|lia|lia|done|congruence|done]. rewrite <- (fmap_S_seq 0), <- list_fmap_compose.
    apply list_fmap_ext. intros i k _. cbn [compose]. unfold compose. by replace (n + 1 + Z.of_nat k) with (n + Z.of_nat (S k)) by lia. }
  rewrite (Hgen 0); [|lia|lia|unfold seen; by rewrite Hn|done|done]. generalize (length calls). clear. intros n.
  assert (forall k a, (5 <= a)%nat -> (fun k => if 5 <=? 0 + Z.of_nat k then ActionCooldown else ActionRetry) <$> seq a k = replicate k ActionCooldown) as Hc.
  { induction k as [|k IH]; intros a Ha; [done|]. cbn [seq replicate fmap list_fmap]. rewrite IH by lia. destruct (Z.leb_spec 5 (0 + Z.of_nat a)); [done|lia]. }
  destruct (Nat.le_gt_cases 5 n) as [Hle|Hlt]; [|by destruct n as [|[|[|[|[|n]]]]]; [..|lia]].
  replace n with (5 + (n - 5))%nat at 1 by lia. rewrite seq_app, fmap_app, (Hc _ (0 + 5)%nat) by lia. by rewrite Nat.min_l.
Qed.

(** A drift that is not of convergence is decided on its class alone. *)
Lemma Process_class now ctx e scope leader g c :
  Classification (Classify (registry g) e) = Some c -> c <> ClassConvergence -> exists ms e',
  Process now ctx e scope leader g = ({| registry := registry g; machine := (Decide now ctx e' (machine g)).1; memStore := ms |},
                                      (Decide now ctx e' (machine g)).2, e') /\ Classification e' = Some c.
Proof.
  intros Hc Hn. assert (Classification (Score (Classify (registry g) e)) = Some c) as Hs.
  { unfold Score. destruct (Classification (Classify (registry g) e)) as [[]|] eqn:He; cbn; congruence. }
  unfold Process. destruct (Record_ _ _ _ _ _ _) as [ms h]. rewrite bool_decide_false by (rewrite Hs; congruence). rewrite andb_false_r.
  exists ms, (Score (Classify (registry g) e)). split; [|done]. by destruct (Decide _ _ _ _).
Qed.

(** The class says whether the scope is to be quarantined. *)
Lemma Decide_class now ctx e sm c :
  Classification e = Some c -> c <> ClassHostile -> (Decide now ctx e sm).1 = sm /\ Action (Decide now ctx e sm).2 <> ActionQuarantine.
Proof. intros Hc Hn. unfold Decide. rewrite Hc. by destruct c. Qed.

Lemma Classify_hostile reg e :
  Classification (Classify reg e) = Some ClassHostile <->
  externally_owned reg (ResourceType e) = false /\ str_contains (to_lower (Diff e)) "convergence" = false /\
  str_contains (to_lower (Diff e)) "deleted" || str_contains (to_lower (Diff e)) "removed" = true.
Proof.
  unfold Classify. destruct (externally_owned reg (ResourceType e)), (str_contains (to_lower (Diff e)) "convergence"),
    (str_contains (to_lower (Diff e)) "deleted" || str_contains (to_lower (Diff e)) "removed"), (bool_decide (Diff e = "") || str_contains (Diff e) "timestamp");
    cbn; intuition discriminate.
Qed.

(** A drift of any other class leaves the lifecycle alone. *)
Lemma Process_other now ctx e scope leader g :
  Classification (Classify (registry g) e) <> Some ClassHostile ->
  let '(g', d, _) := Process now ctx e scope leader g in machine g' = machine g /\ Action d <> ActionQuarantine.
Proof.
  intros Hh. destruct (Classification (Classify (registry g) e)) as [c|] eqn:Hc; [destruct (decide (c = ClassConvergence)) as [->|Hn]|].
  - unfold Process, Classify in *. repeat case_match; try discriminate; cbn in *; simplify_eq; try done.
  - destruct (Process_class now ctx e scope leader g c Hc Hn) as (ms & e' & -> & He). apply (Decide_class now ctx e' (machine g) c He). congruence.
  - unfold Classify in Hc. repeat case_match; discriminate.
Qed.

(** hostile drift.  Only a drift whose text speaks of a deletion, and not
    of convergence, on a resource the system owns, asks for quarantine; the
    scope then is quarantined when the table allows it and the disk works, and
    otherwise keeps its status although the decision is the same. *)
Theorem quarantine_iff now ctx e scope leader g :
  let '(g', d, _) := Process now ctx e scope leader g in
  let st := current_status (Load (sm_store (machine g))) in
  let lower := to_lower (Diff e) in
  (Action d = ActionQuarantine <->
     externally_owned (registry g) (ResourceType e) = false /\ str_contains lower "convergence" = false /\
     str_contains lower "deleted" || str_contains lower "removed" = true) /\
  (Action d <> ActionQuarantine -> machine g' = machine g) /\
  (Action d = ActionQuarantine ->
     if isTransitionAllowed st StatusQuarantined && bool_decide (disk_error (sm_store (machine g)) = None)
     then current_status (Load (sm_store (machine g'))) = StatusQuarantined
     else sm_store (machine g') = sm_store (machine g)).
Proof.
  destruct (decide (Classification (Classify (registry g) e) = Some ClassHostile)) as [Hh|Hh].
  - destruct (Process_class now ctx e scope leader g _ Hh ltac:(done)) as (ms & e' & -> & He). pose proof (proj1 (Classify_hostile _ _) Hh) as Hcl.
    unfold Decide. rewrite He. cbn -[Load Transition]. split; [done|]. split; [done|]. intros _.
    pose proof (Transition_store now now ctx StatusQuarantined "hostile drift detected" (machine g)) as Ht. cbn zeta in Ht.
    destruct (Transition _ _ _ _ _ (machine g)) as [m' r]. cbn -[Load] in *. destruct Ht as [(-> & _ & [->|Hd])|(-> & -> & ->)].
    + done.
    + rewrite (bool_decide_false _ Hd), andb_false_r. done.
    + cbn -[Reducer.ApplyLifecycleTransition]. unfold Load. cbn -[Reducer.ApplyLifecycleTransition]. unfold current_status.
      by rewrite StateMachine.ApplyLifecycleTransition_status.
  - pose proof (Process_other now ctx e scope leader g Hh) as Ho. destruct (Process now ctx e scope leader g) as [[g' d] e1].
    destruct Ho as [-> Ha]. rewrite Classify_hostile in Hh. cbn -[Load]. split; [tauto|]. split; [done|]. intros Hq. by destruct (Ha Hq).
Qed.

End engine.
Arguments Engine : clear implicits.

#[local] Existing Instance EventLog.Bus.EventRepository_store.

(** *** An access rule that does not settle *)
Definition unsettled : DriftEvent :=
  {| ID := "d1"; Timestamp := 0; de_StableIdentityKey := "ip_access_rule:192.0.2.1"; ResourceType := "ip_access_rules"; Classification := None;
     de_Fingerprint := "f1"; Level := None; RiskScore := of_int 0; Diff := "Convergence timeout" |}.

Definition fresh_engine : Engine (EventLog.Bus.Bus EventLog.EventRepository.EventRepository unit * unit) Empty_set :=
  {| registry := NewRegistry; machine := fresh_machine; memStore := ∅ |}.

Lemma oscillation_damped_witness :
  decisions plain_context "global" "node-a" [(1, unsettled); (2, unsettled); (3, unsettled); (4, unsettled); (5, unsettled); (6, unsettled); (7, unsettled)]
    fresh_engine = replicate 5 ActionRetry ++ replicate 2 ActionCooldown.
Proof.
  apply (oscillation_damped plain_context "global" "node-a" "f1"
           [(1, unsettled); (2, unsettled); (3, unsettled); (4, unsettled); (5, unsettled); (6, unsettled); (7, unsettled)] fresh_engine).
  - reflexivity.
  - reflexivity.
  - repeat constructor; vm_compute; reflexivity.
Defined.
End DriftEngine.

(** ** Invariants of a snapshot ([invariants]) *)
Module Invariants.

Inductive ViolationType :=
| ViolationGraphIntegrity | ViolationOwnershipBound | ViolationResourceUnique | ViolationStableIDConflict | ViolationPhaseOrdering.

Record Violation := { Type_ : ViolationType; Description : string; Resource : string }.

(** The first loop; [seenSIKs] holds the keys met so far. *)
Fixpoint stable_ids (seenSIKs : gset string) (l : list NormalizedObject) : list Violation :=
  match l with
  | [] => []
  | obj :: l =>
      (if decide (StableIdentityKey obj ∈ seenSIKs)
       then [{| Type_ := ViolationStableIDConflict; Description := "duplicate stable identity key detected"; Resource := StableIdentityKey obj |}]
       else []) ++ stable_ids ({[StableIdentityKey obj]} ∪ seenSIKs) l
  end.

(** The second; [seenIDs] maps a provider id to the last key that had it. *)
Fixpoint object_ids (seenIDs : gmap string string) (l : list NormalizedObject) : list Violation :=
  match l with
  | [] => []
  | obj :: l =>
      if bool_decide (ObjectID obj = "") then object_ids seenIDs l
      else
        (match seenIDs !! ObjectID obj with
         | Some otherSIK => [{| Type_ := ViolationResourceUnique;
                                Description := "duplicate provider object ID detected for different SIKs: " +:+ otherSIK;
                                Resource := StableIdentityKey obj |}]
         | None => []
         end) ++ object_ids (<[ObjectID obj := StableIdentityKey obj]> seenIDs) l
  end.

Definition Validate (snap : option Snapshot) : list Violation :=
  match snap with
  | None => [{| Type_ := ViolationGraphIntegrity; Description := "snapshot is required"; Resource := "" |}]
  | Some snap => stable_ids ∅ (Objects snap) ++ object_ids ∅ (Objects snap)
  end.

Definition named (l : list NormalizedObject) : list string := List.filter (fun i => negb (bool_decide (i = ""))) (ObjectID <$> l).

Lemma stable_ids_nil seen l :
  stable_ids seen l = [] <-> NoDup (StableIdentityKey <$> l) /\ forall o, o ∈ l -> StableIdentityKey o ∉ seen.
Proof.
  revert seen. induction l as [|o l IH]; intros seen; cbn [stable_ids fmap list_fmap].
  - split; [|done]. intros _. split; [constructor|]. intros o Ho. by apply elem_of_nil in Ho.
  - rewrite app_nil, IH, NoDup_cons. setoid_rewrite elem_of_cons. setoid_rewrite list_elem_of_fmap. split.
    + intros (Hd & Hn & Hs). destruct (decide _) as [|Hni]; [done|]. repeat split; [|done|].
      * intros (o' & Hk & Ho'). specialize (Hs o' Ho'). set_solver.
      * intros o' [->|Ho']; [done|]. specialize (Hs o' Ho'). set_solver.
    + intros ([Hni Hn] & Hs). destruct (decide _) as [Hin|_]; [by destruct (Hs o (or_introl eq_refl))|]. repeat split; [done|].
      intros o' Ho'. specialize (Hs o' (or_intror Ho')). intros [Hk%elem_of_singleton|]%elem_of_union; [|done]. apply Hni. by exists o'.
Qed.

Lemma object_ids_nil seen l :
  object_ids seen l = [] <-> NoDup (named l) /\ forall i, i ∈ named l -> seen !! i = None.
Proof.
  revert seen. induction l as [|o l IH]; intros seen; unfold named; cbn [object_ids fmap list_fmap List.filter].
  - split; [|done]. intros _. split; [constructor|]. intros i Hi. by apply elem_of_nil in Hi.
  - case_bool_decide as He; cbn [negb]; [apply IH|]. fold (named l). rewrite app_nil, IH, NoDup_cons. setoid_rewrite elem_of_cons. split.
    + intros (Hd & Hn & Hs). destruct (seen !! ObjectID o) eqn:Hl; [done|]. repeat split; [|done|].
      * intros Hin. specialize (Hs _ Hin). by rewrite lookup_insert_eq in Hs.
      * intros i [->|Hi]; [done|]. specialize (Hs i Hi). by apply lookup_insert_None in Hs as [??].
    + intros ([Hni Hn] & Hs). rewrite (Hs _ (or_introl eq_refl)). repeat split; [done|]. intros i Hi.
      apply lookup_insert_None. split; [by apply Hs; right|]. intros Hk. apply Hni. by rewrite Hk.
Qed.

(** A snapshot passes when no two objects share a key and none a provider id. *)
Lemma Validate_nil snap :
  Validate (Some snap) = [] <-> NoDup (StableIdentityKey <$> Objects snap) /\ NoDup (named (Objects snap)).
Proof.
  cbn [Validate]. rewrite app_nil, stable_ids_nil, object_ids_nil. split; [tauto|]. intros [Hs Hn].
  split; split; [done|set_solver|done|by intros].
Qed.

End Invariants.

(** ** Convergence ([convergence/validator.go]) *)
Module Convergence.
Import Invariants.

Record ValidationResult := { Converged : bool; Violations : list Violation; vr_Snapshot : option Snapshot }.

Definition ValidateConvergence (target current : option Snapshot) : ValidationResult :=
  let violations := Validate current in
  let ok := bool_decide (length violations = 0%nat) in
  match current with
  | None => {| Converged := ok; Violations := violations; vr_Snapshot := current |}
  | Some c =>
      let same := match target with
                  | Some t => bool_decide (SnapshotChecksum (sn_Integrity c) = SnapshotChecksum (sn_Integrity t))
                  | None => true
                  end in
      {| Converged := ok && same; Violations := violations; vr_Snapshot := current |}
  end.

(** a run converged.  A state is accepted exactly when it was captured, no
    two of its objects share a stable identity key, no two share a provider
    id, and its checksum is the target's when there is a target; a rejected
    state without violation therefore differs from the target. *)
Theorem converged_iff target current :
  let r := ValidateConvergence target current in
  (Converged r = true <->
     exists c, current = Some c /\ NoDup (StableIdentityKey <$> Objects c) /\ NoDup (named (Objects c)) /\
     forall t, target = Some t -> SnapshotChecksum (sn_Integrity c) = SnapshotChecksum (sn_Integrity t)) /\
  (Converged r = false -> Violations r = [] ->
     exists t c, target = Some t /\ current = Some c /\ SnapshotChecksum (sn_Integrity c) <> SnapshotChecksum (sn_Integrity t)).
Proof.
  destruct current as [c|]; [|split; [split; [done|by intros (c & ? & _)]|done]]. cbn -[Validate]. pose proof (Validate_nil c) as Hv.
  destruct (Validate (Some c)) as [|v vs]; cbn.
  - rewrite !(bool_decide_true (0%nat = 0%nat)) by done. destruct (proj1 Hv eq_refl) as [Hs Hn]. destruct target as [t|]; [case_bool_decide as Hc|].
    + split; [|done]. split; [|done]. intros _. exists c. repeat (split; [done|]). by intros ? [= <-].
    + split; [|by exists t, c]. split; [done|]. intros (? & [= <-] & _ & _ & Ht). by destruct Hc; apply Ht.
    + split; [|done]. split; [|done]. intros _. exists c. by repeat (split; [done|]).
  - rewrite !(bool_decide_false (S _ = 0%nat)) by done. cbn.
    split; [|done]. split; [done|]. intros (? & [= <-] & Hs & Hn & _). discriminate (proj2 Hv (conj Hs Hn)).
Qed.

End Convergence.
