(* ===== verification/AiGateway.v ===== *)
(** * AI explanations

    The gateway that asks a language model to explain an event
    ([internal/ai]): the posture of a provider's quota ([quota/quota.go]), the
    cache of answers ([cache]), the choice of a provider ([router]) and the
    gateway itself ([gateway/service.go]).  The redactor and the builder of
    contexts are the interfaces the gateway holds; a provider answers by its
    configuration and the calls made so far.  The clock moves only while a
    provider is asked.  Case is folded for ASCII letters, and metrics are left
    out. *)

From S2P Require Import Prelude GoFmt Sha256 Events Snapshot Reports.
Import Sha256 Json Snapshot.

Local Open Scope Z_scope.

(** ** Requests ([types.go]) *)
Module AiTypes.

Record ExplainRequest := {
  SubjectType : string; SubjectID : string; ProviderPreference : string; rq_Context : string; rq_ContextHash : string;
  MaxContextBytes : Z; MaxOutputTokens : Z;
}.

Record ExplainResponse := {
  rs_Provider : string; rs_Model : string; Cached : bool; rs_QuotaState : string; rs_Explanation : string;
  rs_InputTokens : Z; rs_OutputTokens : Z; rs_TotalTokens : Z; ContextHash : string; rs_AuditID : string;
}.

End AiTypes.

(** ** Quota posture ([quota/quota.go]) *)
Module AiQuota.

Definition Normal : string := "NORMAL".
Definition Warning : string := "WARNING".
Definition Throttled : string := "THROTTLED".
Definition Exhausted : string := "EXHAUSTED".
Definition Cooldown : string := "COOLDOWN".
Definition Unknown : string := "UNKNOWN".
Definition Disabled : string := "DISABLED".

Record ProviderQuota := {
  pq_Provider : string; pq_State : string;
  RequestsLimit : Z; RequestsUsed : Z; RequestsRemain : Z; TokensLimit : Z; TokensUsed : Z; TokensRemain : Z;
  ResetAt : option Z; ResetKnown : bool; RetryAfter : option Z; LastObservedAt : Z; Source : string;
}.

Definition no_observation (provider state : string) : ProviderQuota :=
  {| pq_Provider := provider; pq_State := state; RequestsLimit := 0; RequestsUsed := 0; RequestsRemain := 0; TokensLimit := 0;
     TokensUsed := 0; TokensRemain := 0; ResetAt := None; ResetKnown := false; RetryAfter := None; LastObservedAt := 0; Source := "" |}.

Definition set_provider (p : string) (q : ProviderQuota) : ProviderQuota :=
  {| pq_Provider := p; pq_State := pq_State q; RequestsLimit := RequestsLimit q; RequestsUsed := RequestsUsed q;
     RequestsRemain := RequestsRemain q; TokensLimit := TokensLimit q; TokensUsed := TokensUsed q; TokensRemain := TokensRemain q;
     ResetAt := ResetAt q; ResetKnown := ResetKnown q; RetryAfter := RetryAfter q; LastObservedAt := LastObservedAt q; Source := Source q |}.

Definition resetTime (q : ProviderQuota) : option Z :=
  match ResetAt q with
  | Some t => Some t
  | None =>
      match RetryAfter q with
      | Some d => if is_zero_time (LastObservedAt q) then None else Some (t_add (LastObservedAt q) d)
      | None => None
      end
  end.

Definition CanUseAt (q : ProviderQuota) (now : Z) : bool :=
  if bool_decide (pq_State q = Disabled) then false
  else if bool_decide (pq_State q = Exhausted) || bool_decide (pq_State q = Cooldown) then
    match resetTime q with Some t => negb (now <? t) | None => false end
  else true.

Definition quotaPriority (q : ProviderQuota) : Z :=
  if bool_decide (pq_State q = Normal) then 5 else if bool_decide (pq_State q = Warning) then 4
  else if bool_decide (pq_State q = Throttled) then 3 else if bool_decide (pq_State q = Unknown) then 2 else 1.

Definition Better (a b : ProviderQuota) : bool :=
  if negb (quotaPriority a =? quotaPriority b) then quotaPriority b <? quotaPriority a
  else if negb (TokensRemain a =? TokensRemain b) then TokensRemain b <? TokensRemain a
  else RequestsRemain b <? RequestsRemain a.

Definition MemoryRegistry : Type := gmap string ProviderQuota.
Definition normalizeProvider (name : string) : string := to_lower (trim_space name).
Definition Set_ (q : ProviderQuota) (r : MemoryRegistry) : MemoryRegistry := <[normalizeProvider (pq_Provider q) := q]> r.
Definition Get (provider : string) (r : MemoryRegistry) : option ProviderQuota := r !! normalizeProvider provider.
Definition QuotaSnapshot (r : MemoryRegistry) : list ProviderQuota := (map_to_list r).*2.

End AiQuota.

(** ** Cache of answers ([cache]) *)
Module AiCache.

Record Entry := {
  Key : string; Provider : string; Model : string; QuotaState : string; Explanation : string;
  InputTokens : Z; OutputTokens : Z; TotalTokens : Z; AuditID : string; ExpiresAt : Z;
}.

Record MemoryStore := { items : gmap string Entry; maxEntries : Z; cleanupEvery : Z; puts : Z; lastSweep : Z }.

Definition NewMemoryStoreWithCapacity (n : Z) : MemoryStore :=
  {| items := ∅; maxEntries := if n <=? 0 then 2048 else n; cleanupEvery := 32; puts := 0; lastSweep := 0 |}.
Definition NewMemoryStore : MemoryStore := NewMemoryStoreWithCapacity 2048.

Definition with_items (m : gmap string Entry) (s : MemoryStore) : MemoryStore :=
  {| items := m; maxEntries := maxEntries s; cleanupEvery := cleanupEvery s; puts := puts s; lastSweep := lastSweep s |}.

Definition expired (now : Z) (e : Entry) : bool := negb (is_zero_time (ExpiresAt e)) && t_after now (ExpiresAt e).

Definition sweepExpiredLocked (now : Z) (m : gmap string Entry) : gmap string Entry := filter (fun kv => expired now kv.2 = false) m.

Definition maybeSweepLocked (now : Z) (s : MemoryStore) : MemoryStore :=
  if (0 <? cleanupEvery s) && negb (Z.rem (puts s) (cleanupEvery s) =? 0) && negb (is_zero_time (lastSweep s)) &&
     (t_sub now (lastSweep s) <? 5 * minute)
  then s
  else {| items := sweepExpiredLocked now (items s); maxEntries := maxEntries s; cleanupEvery := cleanupEvery s; puts := puts s;
          lastSweep := now |}.

(** One step of the search for the entry to evict. *)
Definition evict_step (acc : option (string * Entry)) (kv : string * Entry) : option (string * Entry) :=
  match acc with
  | None => Some kv
  | Some (oldestKey, oldest) =>
      if is_zero_time (ExpiresAt kv.2) then
        if is_zero_time (ExpiresAt oldest) then (if str_lt kv.1 oldestKey then Some kv else acc) else Some kv
      else if is_zero_time (ExpiresAt oldest) || (ExpiresAt kv.2 <? ExpiresAt oldest) then Some kv
      else if (ExpiresAt kv.2 =? ExpiresAt oldest) && str_lt kv.1 oldestKey then Some kv
      else acc
  end.

(** [order] is the order in which the map is ranged over. *)
Definition evictOldestLocked (order : list (string * Entry)) (m : gmap string Entry) : gmap string Entry :=
  match foldl evict_step None order with
  | Some (k, _) => if bool_decide (k = "") then m else delete k m
  | None => m
  end.

(** The clock is read before the sweep and again for the entry. *)
Definition Get_entry (now now' : Z) (key : string) (s : MemoryStore) : MemoryStore * option Entry :=
  let s := maybeSweepLocked now s in
  match items s !! key with
  | None => (s, None)
  | Some e => if expired now' e then (with_items (delete key (items s)) s, None) else (s, Some e)
  end.

Definition Put (range : gmap string Entry -> list (string * Entry)) (now : Z) (e : Entry) (s : MemoryStore) : MemoryStore :=
  let s := {| items := items s; maxEntries := maxEntries s; cleanupEvery := cleanupEvery s; puts := wrap64 (puts s + 1);
              lastSweep := lastSweep s |} in
  let s := maybeSweepLocked now s in
  let m := if maxEntries s <=? Z.of_nat (size (items s)) then evictOldestLocked (range (items s)) (items s) else items s in
  with_items (<[Key e := e]> m) s.

(** *** Theorems *)

(** [range] visits every entry once. *)
Definition visits (range : gmap string Entry -> list (string * Entry)) : Prop := forall m, range m ≡ₚ map_to_list m.

Definition older (a b : string * Entry) : bool :=
  (ExpiresAt a.2 <? ExpiresAt b.2) || ((ExpiresAt a.2 =? ExpiresAt b.2) && str_lt a.1 b.1).

Lemma foldl_evict_in acc l kv : foldl evict_step acc l = Some kv -> acc = Some kv \/ kv ∈ l.
Proof.
  revert acc. induction l as [|x l IH]; intros acc H; [by left|]. cbn in H. apply IH in H as [H|H]; [|right; by right].
  unfold evict_step in H. destruct acc as [[k e]|]; [|right; simplify_eq; by left].
  repeat case_match; simplify_eq; first [by left|right; by left].
Qed.

Lemma evict_shrinks order m :
  order ≡ₚ map_to_list m -> m <> ∅ -> m !! "" = None -> S (size (evictOldestLocked order m)) = size m.
Proof.
  intros Hp Hne He. unfold evictOldestLocked. destruct (foldl evict_step None order) as [[k e]|] eqn:Hf.
  - apply foldl_evict_in in Hf as [|Hin]; [done|]. rewrite Hp, elem_of_map_to_list in Hin.
    rewrite bool_decide_false by congruence. rewrite map_size_delete, Hin. destruct (size m) eqn:Hs; [|lia].
    by apply map_size_empty_iff in Hs.
  - destruct order as [|x l]; [|exfalso].
    + symmetry in Hp. apply Permutation_nil_r, map_to_list_empty_iff in Hp. done.
    + cbn in Hf. clear -Hf. revert x Hf. induction l as [|y l IH]; intros x Hf; [done|]. cbn in Hf. destruct x.
      repeat case_match; eapply IH; exact Hf.
Qed.

(** Not older is an order: by the time of expiry, then by the key. *)
Lemma older_false a b :
  older a b = false <-> ExpiresAt b.2 < ExpiresAt a.2 \/ (ExpiresAt b.2 = ExpiresAt a.2 /\ str_lt a.1 b.1 = false).
Proof. unfold older. rewrite orb_false_iff, andb_false_iff, Z.ltb_ge, Z.eqb_neq. destruct (str_lt a.1 b.1); intuition lia. Qed.

Lemma older_trans a b c : older b a = false -> older c b = false -> older c a = false.
Proof.
  rewrite !older_false. intros [?|[? H1]] [?|[? H2]]; [left; lia..|]. right. split; [lia|]. by eapply str_le_trans.
Qed.

Lemma older_asym a b : older a b = true -> older b a = false.
Proof.
  intros H. destruct (older b a) eqn:E; [|done]. unfold older in *. rewrite orb_true_iff, andb_true_iff, Z.ltb_lt, Z.eqb_eq in *.
  destruct H as [?|[? H1]], E as [?|[? H2]]; try lia.
  pose proof (str_lt_trans _ _ _ H1 H2) as Hl. by rewrite str_lt_irrefl in Hl.
Qed.

Lemma older_refl a : older a a = false.
Proof. apply older_false. right. split; [done|apply str_lt_irrefl]. Qed.

(** Between entries that expire the step keeps the older one. *)
Lemma evict_step_older a b :
  ExpiresAt a.2 <> 0 -> ExpiresAt b.2 <> 0 -> evict_step (Some a) b = Some (if older b a then b else a).
Proof.
  intros Ha Hb. destruct a as [ka a], b as [kb b]. unfold evict_step, older, is_zero_time. cbn in *.
  rewrite (proj2 (Z.eqb_neq _ 0) Ha), (proj2 (Z.eqb_neq _ 0) Hb). cbn. by destruct (_ <? _), ((_ =? _) && _).
Qed.

Lemma foldl_evict_least a l :
  ExpiresAt a.2 <> 0 -> (forall x, x ∈ l -> ExpiresAt x.2 <> 0) ->
  exists b, foldl evict_step (Some a) l = Some b /\ b ∈ a :: l /\ forall x, x ∈ a :: l -> older x b = false.
Proof.
  revert a. induction l as [|y l IH]; intros a Ha Hl; cbn [foldl].
  { exists a. split; [done|]. split; [by left|]. intros x [->|Hx]%elem_of_cons; [apply older_refl|by apply elem_of_nil in Hx]. }
  rewrite evict_step_older; [|done|apply Hl; by left].
  destruct (IH (if older y a then y else a)) as (b & Hb & Hin & Hmin); [destruct (older y a); [apply Hl; by left|done]|intros x Hx; apply Hl; by right|].
  exists b. split; [done|]. assert (older (if older y a then y else a) b = false) as Hh by (apply Hmin; by left). split.
  - apply elem_of_cons in Hin as [->|Hin]; [destruct (older y a); [right|]; by left|right; by right].
  - intros x [->|[->|Hx]%elem_of_cons]%elem_of_cons; [| |apply Hmin; by right].
    + destruct (older y a) eqn:E; [|done]. eapply older_trans; [exact Hh|by apply older_asym].
    + destruct (older y a) eqn:E; [done|]. eapply older_trans; [exact Hh|done].
Qed.

(** which answer makes room.  When every entry expires, as every entry of the
    gateway does, the entry that leaves a full cache is the one that expires
    first, the least key among equals, in whatever order the map is visited;
    nothing else changes. *)
Theorem evicts_first_to_expire order m :
  order ≡ₚ map_to_list m -> m <> ∅ -> m !! "" = None -> (forall k e, m !! k = Some e -> ExpiresAt e <> 0) ->
  exists k e, m !! k = Some e /\ evictOldestLocked order m = delete k m /\
    forall k' e', m !! k' = Some e' -> ExpiresAt e < ExpiresAt e' \/ (ExpiresAt e = ExpiresAt e' /\ str_lt k' k = false).
Proof.
  intros Hp Hne He Hz. assert (forall x, x ∈ order -> m !! x.1 = Some x.2) as Hin.
  { intros [k e] Hx. by rewrite Hp, elem_of_map_to_list in Hx. }
  destruct order as [|a l]; [symmetry in Hp; by apply Permutation_nil_r, map_to_list_empty_iff in Hp|].
  destruct (foldl_evict_least a l) as ([k e] & Hf & Hb & Hmin); [eapply Hz, Hin; by left|intros x Hx; eapply Hz, Hin; by right|].
  exists k, e. pose proof (Hin _ Hb) as Hk. split; [done|]. unfold evictOldestLocked. cbn [foldl]. cbn [evict_step]. rewrite Hf. split.
  - rewrite bool_decide_false; [done|]. intros ->. cbn in Hk. congruence.
  - intros k' e' Hk'. apply (older_false (k', e') (k, e)), Hmin. by rewrite Hp, elem_of_map_to_list.
Qed.

Definition demo_entry (key : string) (expires : Z) : Entry :=
  {| Key := key; Provider := "openai"; Model := "m"; QuotaState := "NORMAL"; Explanation := key; InputTokens := 0; OutputTokens := 0;
     TotalTokens := 0; AuditID := ""; ExpiresAt := expires |}.

Lemma evicts_first_to_expire_witness :
  exists k e, ({["a" := demo_entry "a" 20; "b" := demo_entry "b" 10]} : gmap string Entry) !! k = Some e /\
    evictOldestLocked [("b", demo_entry "b" 10); ("a", demo_entry "a" 20)] {["a" := demo_entry "a" 20; "b" := demo_entry "b" 10]} =
      delete k {["a" := demo_entry "a" 20; "b" := demo_entry "b" 10]} /\
    forall k' e', ({["a" := demo_entry "a" 20; "b" := demo_entry "b" 10]} : gmap string Entry) !! k' = Some e' ->
      ExpiresAt e < ExpiresAt e' \/ (ExpiresAt e = ExpiresAt e' /\ str_lt k' k = false).
Proof.
  apply evicts_first_to_expire.
  - vm_compute. first [reflexivity|constructor].
  - done.
  - done.
  - intros k e [[_ <-]|[_ [_ <-]%lookup_singleton_Some]]%lookup_insert_Some; done.
Defined.

(** *** Runs of the cache *)
Inductive op :=
| OpPut (range : gmap string Entry -> list (string * Entry)) (now : Z) (e : Entry)
| OpGet (now now' : Z) (key : string).

Definition apply_op (s : MemoryStore) (o : op) : MemoryStore :=
  match o with OpPut range now e => Put range now e s | OpGet now now' key => (Get_entry now now' key s).1 end.

Definition run (ops : list op) (s : MemoryStore) : MemoryStore := foldl apply_op s ops.

Definition op_ok (o : op) : Prop := match o with OpPut range _ e => visits range /\ Key e <> "" | OpGet _ _ _ => True end.

(** The entry last put under a key. *)
Definition put_key (k : string) (o : op) : option Entry :=
  match o with OpPut _ _ e => if bool_decide (Key e = k) then Some e else None | OpGet _ _ _ => None end.
Definition last_put (k : string) (ops : list op) : option Entry := last (omap (put_key k) ops).

Lemma last_put_snoc k ops o :
  last_put k (ops ++ [o]) = match put_key k o with Some e => Some e | None => last_put k ops end.
Proof. unfold last_put. rewrite omap_app. cbn. destruct (put_key k o); [by rewrite last_snoc|by rewrite app_nil_r]. Qed.

Lemma maybeSweep_sub now s : items (maybeSweepLocked now s) ⊆ items s /\ maxEntries (maybeSweepLocked now s) = maxEntries s.
Proof. unfold maybeSweepLocked. case_match; [done|]. split; [apply map_filter_subseteq|done]. Qed.

Lemma evict_sub order m : evictOldestLocked order m ⊆ m.
Proof. unfold evictOldestLocked. repeat case_match; [done|apply delete_subseteq|done]. Qed.

Lemma Get_entry_sub now now' k s :
  items (Get_entry now now' k s).1 ⊆ items s /\ maxEntries (Get_entry now now' k s).1 = maxEntries s.
Proof.
  destruct (maybeSweep_sub now s) as [Hs Hm]. unfold Get_entry. repeat case_match; cbn; [|done..].
  split; [|done]. etrans; [apply delete_subseteq|done].
Qed.

Record cache_ok (ops : list op) (s : MemoryStore) : Prop := {
  ok_size : Z.of_nat (size (items s)) <= maxEntries s;
  ok_empty : items s !! "" = None;
  ok_last : forall k e, items s !! k = Some e -> last_put k ops = Some e;
}.

Lemma Put_ok ops range now e s :
  0 < maxEntries s -> op_ok (OpPut range now e) -> cache_ok ops s -> cache_ok (ops ++ [OpPut range now e]) (Put range now e s).
Proof.
  intros Hpos [Hr Hk] [Hsz He Hl]. unfold Put. set (s0 := {| items := items s; puts := _ |}). set (s1 := maybeSweepLocked now s0).
  destruct (maybeSweep_sub now s0) as [Hsub Hm]. fold s1 in Hsub, Hm. cbn in Hsub, Hm. rewrite Hm.
  assert (size (items s1) <= size (items s))%nat as Hsz1 by by apply map_subseteq_size.
  assert (items s1 !! "" = None) as He1 by (eapply lookup_weaken_None; done).
  set (m := if _ <=? _ then _ else _). assert (m ⊆ items s1 /\ Z.of_nat (size m) < maxEntries s) as [Hms Hmz].
  { subst m. destruct (Z.leb_spec (maxEntries s) (Z.of_nat (size (items s1)))); [|split; [done|lia]]. split; [apply evict_sub|].
    pose proof (evict_shrinks (range (items s1)) (items s1) (Hr _)) as Hes.
    destruct (decide (items s1 = ∅)) as [E|E]; [rewrite E, map_size_empty in *; lia|]. specialize (Hes E He1). lia. }
  split; cbn.
  - rewrite Hm, map_size_insert. case_match; unfold id; lia.
  - rewrite lookup_insert_ne by done. eapply lookup_weaken_None; [exact He1|done].
  - intros k e' Hk'. rewrite last_put_snoc. cbn. case_bool_decide as Hkk.
    + subst k. rewrite lookup_insert_eq in Hk'. done.
    + rewrite lookup_insert_ne in Hk' by done. apply Hl. eapply lookup_weaken, Hsub. by eapply lookup_weaken, Hms.
Qed.

Lemma Get_ok ops now now' k s : cache_ok ops s -> cache_ok (ops ++ [OpGet now now' k]) (Get_entry now now' k s).1.
Proof.
  intros [Hsz He Hl]. destruct (Get_entry_sub now now' k s) as [Hs Hm]. pose proof (map_subseteq_size _ _ Hs). split.
  - rewrite Hm. lia.
  - by eapply lookup_weaken_None.
  - intros k' e Hk'. rewrite last_put_snoc. cbn. apply Hl. by eapply lookup_weaken.
Qed.

(** a cache of answers.  After any sequence of uses a cache made for [n]
    entries holds at most [n] (2048 when [n] is not positive), and what it
    gives for a key is the entry last put under that key, not yet expired. *)
Theorem cache_bounded_and_current n ops :
  Forall op_ok ops ->
  let s := run ops (NewMemoryStoreWithCapacity n) in
  Z.of_nat (size (items s)) <= (if n <=? 0 then 2048 else n) /\
  forall now now' k e, (Get_entry now now' k s).2 = Some e ->
    last_put k ops = Some e /\ (ExpiresAt e = 0 \/ now' <= ExpiresAt e).
Proof.
  intros Hops. cbn zeta. set (s0 := NewMemoryStoreWithCapacity n).
  assert (0 < maxEntries s0) as Hpos by (subst s0; cbn; destruct (Z.leb_spec n 0); lia).
  assert (cache_ok ops (run ops s0) /\ maxEntries (run ops s0) = maxEntries s0) as [[Hsz He Hl] Hm].
  { induction ops as [|o ops IH] using rev_ind; [split; [split|done]; [cbn; rewrite map_size_empty; destruct (Z.leb_spec n 0); lia|done|done]|].
    apply Forall_app in Hops as [Hops Ho]. inversion_clear Ho as [|? ? Hok _]. specialize (IH Hops) as [IH Hm].
    unfold run. rewrite foldl_app. cbn [foldl]. fold (run ops s0). destruct o as [range now e|now now' k]; cbn [apply_op].
    - split; [apply Put_ok; [by rewrite Hm|done|done]|]. unfold Put. cbn. rewrite (proj2 (maybeSweep_sub _ _)). exact Hm.
    - split; [by apply Get_ok|]. rewrite (proj2 (Get_entry_sub _ _ _ _)). exact Hm. }
  split; [by rewrite Hm in Hsz|]. intros now now' k e Hg. unfold Get_entry in Hg.
  destruct (items _ !! k) as [e'|] eqn:Hk; [|done]. destruct (expired now' e') eqn:Hx; [done|]. cbn in Hg. simplify_eq. split.
  - apply Hl. eapply lookup_weaken, (proj1 (maybeSweep_sub now _)). done.
  - unfold expired, is_zero_time, t_after in Hx. apply andb_false_iff in Hx as [Hx|Hx]; [left|right; lia].
    by apply negb_false_iff, Z.eqb_eq in Hx.
Qed.

Lemma cache_bounded_and_current_witness :
  let ops := [OpPut map_to_list 1 (demo_entry "a" 9); OpPut map_to_list 2 (demo_entry "b" 8); OpPut map_to_list 3 (demo_entry "c" 7)] in
  Z.of_nat (size (items (run ops (NewMemoryStoreWithCapacity 2)))) <= 2 /\ last_put "c" ops = Some (demo_entry "c" 7).
Proof.
  cbn zeta. split.
  - apply (cache_bounded_and_current 2
             [OpPut map_to_list 1 (demo_entry "a" 9); OpPut map_to_list 2 (demo_entry "b" 8); OpPut map_to_list 3 (demo_entry "c" 7)]).
    repeat (apply List.Forall_cons; [split; [intros m; reflexivity|discriminate]|]). apply List.Forall_nil.
  - reflexivity.
Defined.

(** Once some entry never expires the choice depends on the order. *)
Example mixed_expiry_by_chance :
  let m : gmap string Entry := {["a" := demo_entry "a" 20; "b" := demo_entry "b" 0]} in
  evictOldestLocked [("a", demo_entry "a" 20); ("b", demo_entry "b" 0)] m = {["a" := demo_entry "a" 20]} /\
  evictOldestLocked [("b", demo_entry "b" 0); ("a", demo_entry "a" 20)] m = {["b" := demo_entry "b" 0]}.
Proof. by vm_compute. Qed.

End AiCache.

(** ** Choice of a provider ([router/router.go]) *)
Module Router.
Import AiTypes AiQuota.

(** A call names the provider and carries the request it got. *)
Abbreviation call := (string * ExplainRequest)%type.

(** [p_Enabled] is [None] for a provider without that method; [took] is the
    time a call lasts. *)
Record Provider := {
  Name : string; Enabled : option bool; p_Explain : list call -> ExplainRequest -> result ExplainResponse;
  p_Quota : list call -> ProviderQuota; took : list call -> Z;
}.

Definition providerName (p : Provider) : string := to_lower (trim_space (Name p)).

Definition quotaFor (reg : option MemoryRegistry) (provider : string) : ProviderQuota :=
  match reg with
  | None => no_observation provider Unknown
  | Some r => match Get provider r with Some q => q | None => no_observation provider Unknown end
  end.

Definition betterQuota (a b : ProviderQuota) : bool :=
  if negb (quotaPriority a =? quotaPriority b) then quotaPriority b <? quotaPriority a
  else if bool_decide (pq_State a = Normal) && bool_decide (pq_State b = Normal) then
    if LastObservedAt a =? LastObservedAt b then str_lt (pq_Provider a) (pq_Provider b) else t_after (LastObservedAt a) (LastObservedAt b)
  else if negb (TokensRemain a =? TokensRemain b) then TokensRemain b <? TokensRemain a
  else RequestsRemain b <? RequestsRemain a.

Definition usable (now : Z) (reg : option MemoryRegistry) (p : Provider) : bool :=
  negb (bool_decide (Enabled p = Some false)) && CanUseAt (quotaFor reg (providerName p)) now.

Definition availableProviders (now : Z) (reg : option MemoryRegistry) (ps : list (option Provider)) : list Provider :=
  List.filter (usable now reg) (omap id ps).

(** The leading candidates of the first one's priority. *)
Fixpoint top_run (reg : option MemoryRegistry) (topPriority : Z) (l : list Provider) : list Provider :=
  match l with
  | [] => []
  | p :: l => if negb (quotaPriority (quotaFor reg (providerName p)) =? topPriority) then [] else p :: top_run reg topPriority l
  end.

(** [providerRotation] counts the choices made so far; the remainder of its
    conversion to [int] is negative from 2^63 on, when the index panics
    ([None]). *)
Definition rotateTopCandidates (rot : Z) (reg : option MemoryRegistry) (candidates : list Provider) : option (Z * option Provider) :=
  match candidates with
  | [] => Some (rot, None)
  | first :: _ =>
      let top := top_run reg (quotaPriority (quotaFor reg (providerName first))) candidates in
      match top with
      | [] => Some (rot, Some first)
      | [p] => Some (rot, Some p)
      | _ =>
          let idx := (rot + 1) `mod` 2 ^ 64 in
          let i := Z.rem (wrap64 ((idx - 1) `mod` 2 ^ 64)) (Z.of_nat (length top)) in
          if i <? 0 then None else p ← top !! Z.to_nat i; Some (idx, Some p)
      end
  end.

Definition preference (req : ExplainRequest) : string := to_lower (trim_space (ProviderPreference req)).

Definition SelectProvider (now rot : Z) (reg : option MemoryRegistry) (ps : list (option Provider)) (req : ExplainRequest)
    : option (Z * result (option Provider * ProviderQuota)) :=
  match availableProviders now reg ps with
  | [] => Some (rot, Ok (None, no_observation "" Unknown))
  | candidates =>
      let pref := preference req in
      if negb (bool_decide (pref = "")) && negb (bool_decide (pref = "auto")) then
        match List.find (fun p => bool_decide (providerName p = pref)) candidates with
        | Some p => Some (rot, Ok (Some p, quotaFor reg (providerName p)))
        | None => Some (rot, Err "preferred provider unavailable")
        end
      else
        '(rot, chosen) ← rotateTopCandidates rot reg (isort (fun a b => betterQuota (quotaFor reg (providerName a)) (quotaFor reg (providerName b))) candidates);
        Some (rot, Ok (chosen, quotaFor reg (match chosen with Some p => providerName p | None => "" end)))
  end.

(** *** Theorems *)
Definition prio (reg : option MemoryRegistry) (p : Provider) : Z := quotaPriority (quotaFor reg (providerName p)).

Lemma elem_of_available now reg ps p : p ∈ availableProviders now reg ps <-> Some p ∈ ps /\ usable now reg p = true.
Proof.
  unfold availableProviders. rewrite elem_of_lfilter, list_elem_of_omap. split; [|naive_solver].
  by intros [([p'|] & Hin & [= ->]) Hu].
Qed.

Lemma elem_of_top_run reg t l p : p ∈ top_run reg t l -> p ∈ l /\ prio reg p = t.
Proof.
  induction l as [|x l IH]; cbn; [by intros ?%elem_of_nil|]. unfold prio in *. destruct (Z.eqb_spec (quotaPriority (quotaFor reg (providerName x))) t); cbn.
  - intros [->|H]%elem_of_cons; [split; [by left|done]|]. destruct (IH H). split; [by right|done].
  - by intros ?%elem_of_nil.
Qed.

Lemma betterQuota_prio a b : (betterQuota a b = true -> quotaPriority b <= quotaPriority a) /\ (betterQuota a b = false -> quotaPriority a <= quotaPriority b).
Proof. unfold betterQuota. destruct (Z.eqb_spec (quotaPriority a) (quotaPriority b)) as [->|Hne]; cbn; [lia|]. split; intros; lia. Qed.

Lemma rotate_spec rot reg p0 l :
  0 <= rot < 2 ^ 63 -> exists rot' p, rotateTopCandidates rot reg (p0 :: l) = Some (rot', Some p) /\ rot <= rot' <= rot + 1 /\
    p ∈ p0 :: l /\ prio reg p = prio reg p0.
Proof.
  intros Hrot. unfold rotateTopCandidates. fold (prio reg p0).
  assert (forall p, p ∈ top_run reg (prio reg p0) (p0 :: l) -> p ∈ p0 :: l /\ prio reg p = prio reg p0) as Htop by (intros p; apply elem_of_top_run).
  destruct (top_run reg (prio reg p0) (p0 :: l)) as [|q1 [|q2 ts]].
  - exists rot, p0. repeat split; [lia..|by left].
  - exists rot, q1. split; [done|]. split; [lia|]. apply Htop. by left.
  - remember (q1 :: q2 :: ts) as top eqn:Et. assert (0 < Z.of_nat (length top)) as Hlen by (rewrite Et; cbn; lia). clear Et.
    rewrite (Z.mod_small (rot + 1)) by lia. replace (rot + 1 - 1) with rot by lia.
    rewrite (Z.mod_small rot), wrap64_small by (unfold int64_min, int64_max; lia).
    pose proof (Z.rem_bound_pos rot (Z.of_nat (length top)) ltac:(lia) Hlen) as Hi.
    destruct (Z.ltb_spec (Z.rem rot (Z.of_nat (length top))) 0); [lia|].
    destruct (lookup_lt_is_Some_2 top (Z.to_nat (Z.rem rot (Z.of_nat (length top))))) as [p Hp]; [lia|]. rewrite Hp. cbn.
    exists (rot + 1), p. split; [done|]. split; [lia|]. apply Htop. by eapply list_elem_of_lookup_2.
Qed.

(** The candidates in the order of the sort. *)
Definition ranked (reg : option MemoryRegistry) (l : list Provider) : list Provider :=
  isort (fun a b => betterQuota (quotaFor reg (providerName a)) (quotaFor reg (providerName b))) l.

Lemma ranked_head reg l p0 l' : ranked reg l = p0 :: l' -> forall p, p ∈ l -> prio reg p <= prio reg p0.
Proof.
  intros Hr p Hp. assert (StronglySorted (fun a b => prio reg b <= prio reg a) (ranked reg l)) as Hs.
  { apply isort_sorted; [intros x y|intros x y|intros x y z; lia]; apply betterQuota_prio. }
  assert (p ∈ ranked reg l) as Hin by by apply elem_of_isort. rewrite Hr in Hs, Hin. inversion_clear Hs as [|? ? _ Hall].
  apply elem_of_cons in Hin as [->|Hin]; [done|]. rewrite Forall_forall in Hall. by apply Hall.
Qed.

Definition named (req : ExplainRequest) : bool := negb (bool_decide (preference req = "")) && negb (bool_decide (preference req = "auto")).

(** whom the gateway asks.  The router always answers while its counter is
    below 2^63.  A provider it gives is one of the configured ones, enabled and
    with a quota that allows a call; it is the one the request names, or else
    none that can be used has a better posture.  It gives none exactly when
    none can be used, and fails only when the provider the request names
    cannot. *)
Theorem selection now rot reg ps req :
  0 <= rot < 2 ^ 63 ->
  exists rot' r, SelectProvider now rot reg ps req = Some (rot', r) /\ rot <= rot' <= rot + 1 /\
  match r with
  | Ok (Some p, q) =>
      Some p ∈ ps /\ usable now reg p = true /\ q = quotaFor reg (providerName p) /\
      if named req then providerName p = preference req
      else forall p', Some p' ∈ ps -> usable now reg p' = true -> quotaPriority (quotaFor reg (providerName p')) <= quotaPriority q
  | Ok (None, _) => forall p, Some p ∈ ps -> usable now reg p = false
  | Err _ => named req = true /\ forall p, Some p ∈ ps -> usable now reg p = true -> providerName p <> preference req
  end.
Proof.
  intros Hrot. unfold SelectProvider. fold (named req). destruct (availableProviders now reg ps) as [|c0 cs] eqn:Ha.
  { exists rot. eexists. split; [done|]. split; [lia|]. intros p Hp. destruct (usable now reg p) eqn:Hu; [|done].
    assert (p ∈ availableProviders now reg ps) as Hin by by apply elem_of_available. rewrite Ha in Hin. by apply elem_of_nil in Hin. }
  rewrite <- Ha. destruct (named req) eqn:Hn.
  - destruct (List.find _ _) as [p|] eqn:Hf.
    + apply find_some_in in Hf as [Hin Hp]. apply elem_of_available in Hin as [Hin Hu]. bool_simpl.
      exists rot. eexists. split; [done|]. split; [lia|]. by repeat (split; [done|]).
    + exists rot. eexists. split; [done|]. split; [lia|]. split; [done|]. intros p Hp Hu Hpn.
      pose proof (List.find_none _ _ Hf p) as Hno. cbn in Hno. rewrite bool_decide_true in Hno by done. enough (true = false) by done. apply Hno.
      apply list_elem_of_In. by apply elem_of_available.
  - fold (ranked reg (availableProviders now reg ps)). destruct (ranked reg (availableProviders now reg ps)) as [|p0 l] eqn:Hr.
    { apply isort_nil_iff in Hr. congruence. }
    destruct (rotate_spec rot reg p0 l Hrot) as (rot' & p & -> & Hb & Hin & Hpr). cbn. exists rot'. eexists. split; [done|]. split; [done|].
    rewrite <- Hr in Hin. apply elem_of_isort, elem_of_available in Hin as [Hin Hu]. repeat (split; [done|]).
    intros p' Hp' Hu'. change (prio reg p' <= prio reg p). rewrite Hpr. eapply ranked_head; [exact Hr|]. by apply elem_of_available.
Qed.

End Router.

(** ** Gateway ([gateway/service.go], [config.go]) *)
Module Gateway.
Import AiTypes AiQuota AiCache Router.

Record ProviderConfig := { pc_Enabled : bool; pc_Model : string; APIKey : string; APIKeyFile : string }.

Record Config := {
  cfg_Enabled : bool; ProviderStrategy : string; cfg_MaxContextBytes : Z; cfg_MaxOutputTokens : Z; Timeout : Z; RateLimitPerMinute : Z;
  CacheTTL : Z; StrictNoTools : bool; cfg_OpenAI : ProviderConfig; cfg_Anthropic : ProviderConfig; cfg_Gemini : ProviderConfig;
}.

(** [redaction.Result]. *)
Record Redacted := { Text : string; Redactions : Z; ContainsSecret : bool }.

(** The router shares [providers] and [quotas] with the service. *)
Record Service := {
  cfg : Config; cache : MemoryStore; builder : ExplainRequest -> result string; redactor : string -> Redacted;
  providers : list (option Provider); quotas : option MemoryRegistry;
}.

Definition positive (z fallback : Z) : Z := if z <=? 0 then fallback else z.

Definition NewService (c : Config) (build : ExplainRequest -> result string) (redact : string -> Redacted) (ps : list (option Provider))
    (qs : option MemoryRegistry) : Service :=
  {| cfg := {| cfg_Enabled := cfg_Enabled c; ProviderStrategy := ProviderStrategy c; cfg_MaxContextBytes := positive (cfg_MaxContextBytes c) 12000;
               cfg_MaxOutputTokens := positive (cfg_MaxOutputTokens c) 800; Timeout := positive (Timeout c) (15 * second);
               RateLimitPerMinute := positive (RateLimitPerMinute c) 10; CacheTTL := positive (CacheTTL c) (15 * minute);
               StrictNoTools := StrictNoTools c; cfg_OpenAI := cfg_OpenAI c; cfg_Anthropic := cfg_Anthropic c; cfg_Gemini := cfg_Gemini c |};
     cache := NewMemoryStore; builder := build; redactor := redact; providers := ps; quotas := qs |}.

(** The calls made to providers, the clock and the counter of the router. *)
Record World := { calls : list call; clock : Z; providerRotation : Z }.

Definition with_cache (c : MemoryStore) (s : Service) : Service :=
  {| cfg := cfg s; cache := c; builder := builder s; redactor := redactor s; providers := providers s; quotas := quotas s |}.
Definition with_quotas (q : option MemoryRegistry) (s : Service) : Service :=
  {| cfg := cfg s; cache := cache s; builder := builder s; redactor := redactor s; providers := providers s; quotas := q |}.
Definition set_rotation (r : Z) (w : World) : World := {| calls := calls w; clock := clock w; providerRotation := r |}.

Definition hashString (s : string) : string := hex_digest s.

Definition cacheKey (req : ExplainRequest) (contextHash subjectHash : string) : string :=
  hashString (struct_text [
    ("provider_preference", text_string (to_lower (trim_space (ProviderPreference req))));
    ("subject_type", text_string (to_lower (SubjectType req)));
    ("subject_id_hash", text_string subjectHash);
    ("context_hash", text_string contextHash);
    ("max_context_bytes", GoFmt.fmt_d (MaxContextBytes req));
    ("max_output_tokens", GoFmt.fmt_d (MaxOutputTokens req))]).

Definition unavailableResponse (ctxHash reason : string) : ExplainResponse :=
  {| rs_Provider := "none"; rs_Model := ""; Cached := false; rs_QuotaState := Unknown; rs_Explanation := "AI explain unavailable: " +:+ reason;
     rs_InputTokens := 0; rs_OutputTokens := 0; rs_TotalTokens := 0; ContextHash := ctxHash; rs_AuditID := "" |}.

Definition modelForProvider (name : string) (c : Config) : string :=
  let n := to_lower (trim_space name) in
  if bool_decide (n = "openai") then pc_Model (cfg_OpenAI c) else if bool_decide (n = "anthropic") then pc_Model (cfg_Anthropic c)
  else if bool_decide (n = "gemini") then pc_Model (cfg_Gemini c) else "".

Definition ttlForState (c : Config) (state : string) : Z :=
  if bool_decide (state = Warning) then 30 * minute else if bool_decide (state = Throttled) then 60 * minute
  else if bool_decide (state = Exhausted) then 60 * minute else if bool_decide (state = Disabled) then 5 * minute
  else if bool_decide (state = Unknown) then 5 * minute else CacheTTL c.

Definition capPositive (value fallback : Z) : Z :=
  if (0 <? value) && (0 <? fallback) && (value <? fallback) then value
  else if (0 <? value) && (0 <? fallback) then fallback
  else if 0 <? value then value else if 0 <? fallback then fallback else 1.

Definition normalizeRequest (c : Config) (req : ExplainRequest) : ExplainRequest :=
  let pref := trim_space (ProviderPreference req) in
  let pref := if bool_decide (pref = "") then trim_space (ProviderStrategy c) else pref in
  {| SubjectType := SubjectType req; SubjectID := SubjectID req; ProviderPreference := if bool_decide (pref = "") then "auto" else pref;
     rq_Context := rq_Context req; rq_ContextHash := rq_ContextHash req;
     MaxContextBytes := capPositive (MaxContextBytes req) (cfg_MaxContextBytes c);
     MaxOutputTokens := capPositive (MaxOutputTokens req) (cfg_MaxOutputTokens c) |}.

Definition set_context (c : string) (req : ExplainRequest) : ExplainRequest :=
  {| SubjectType := SubjectType req; SubjectID := SubjectID req; ProviderPreference := ProviderPreference req; rq_Context := c;
     rq_ContextHash := rq_ContextHash req; MaxContextBytes := MaxContextBytes req; MaxOutputTokens := MaxOutputTokens req |}.
Definition set_preference (p : string) (req : ExplainRequest) : ExplainRequest :=
  {| SubjectType := SubjectType req; SubjectID := SubjectID req; ProviderPreference := p; rq_Context := rq_Context req;
     rq_ContextHash := rq_ContextHash req; MaxContextBytes := MaxContextBytes req; MaxOutputTokens := MaxOutputTokens req |}.

(** The answer of a provider as it is returned and cached. *)
Definition finish_response (s : Service) (name ctxHash state : string) (r : ExplainResponse) : ExplainResponse :=
  {| rs_Provider := if bool_decide (rs_Provider r = "") then name else rs_Provider r;
     rs_Model := if bool_decide (rs_Model r = "") then modelForProvider name (cfg s) else rs_Model r;
     Cached := Cached r; rs_QuotaState := if bool_decide (rs_QuotaState r = "") then state else rs_QuotaState r;
     rs_Explanation := Text (redactor s (rs_Explanation r));
     rs_InputTokens := rs_InputTokens r; rs_OutputTokens := rs_OutputTokens r; rs_TotalTokens := rs_TotalTokens r;
     ContextHash := ctxHash; rs_AuditID := rs_AuditID r |}.

Definition entry_of (key : string) (r : ExplainResponse) (expires : Z) : Entry :=
  {| Key := key; AiCache.Provider := rs_Provider r; Model := rs_Model r; QuotaState := rs_QuotaState r; Explanation := rs_Explanation r;
     InputTokens := rs_InputTokens r; OutputTokens := rs_OutputTokens r; TotalTokens := rs_TotalTokens r; AuditID := rs_AuditID r;
     ExpiresAt := expires |}.

Definition cached_response (ctxHash : string) (e : Entry) : ExplainResponse :=
  {| rs_Provider := AiCache.Provider e; rs_Model := Model e; Cached := true; rs_QuotaState := QuotaState e; rs_Explanation := Explanation e;
     rs_InputTokens := InputTokens e; rs_OutputTokens := OutputTokens e; rs_TotalTokens := TotalTokens e; ContextHash := ctxHash;
     rs_AuditID := AuditID e |}.

Section gateway.
Context (range : gmap string Entry -> list (string * Entry)).

Definition put_response (key : string) (r : ExplainResponse) (state : string) (w : World) (s : Service) : Service :=
  with_cache (Put range (clock w) (entry_of key r (t_add (clock w) (ttlForState (cfg s) state))) (cache s)) s.

(** An answer that none could be had is cached as well. *)
Definition cacheUnavailable (key ctxHash reason : string) (w : World) (s : Service) : Service * World * ExplainResponse :=
  let r := unavailableResponse ctxHash reason in (put_response key r Unknown w s, w, r).

(** A provider is asked, and its quota is noted. *)
Definition ask (p : Router.Provider) (req : ExplainRequest) (s : Service) (w : World)
    : Service * World * ProviderQuota * result ExplainResponse :=
  let answer := p_Explain p (calls w) req in
  let w' := {| calls := calls w ++ [(Name p, req)]; clock := t_add (clock w) (took p (calls w)); providerRotation := providerRotation w |} in
  let q := p_Quota p (calls w') in
  let q := if bool_decide (pq_Provider q = "") then set_provider (Name p) q else q in
  (with_quotas (Set_ q <$> quotas s) s, w', q, answer).

(** The loop, [n] rounds of it left; [None] when the router panics. *)
Fixpoint fallback_loop (n : nat) (attempted : list string) (req : ExplainRequest) (key ctxHash : string) (s : Service) (w : World)
    : option (Service * World * ExplainResponse) :=
  match n with
  | O => Some (cacheUnavailable key ctxHash "all AI providers are unavailable" w s)
  | S n =>
      '(rot, sel) ← SelectProvider (clock w) (providerRotation w) (quotas s) (providers s) req;
      let w := set_rotation rot w in
      match sel with
      | Ok (Some p, _) =>
          if bool_decide (Name p ∈ attempted) then Some (cacheUnavailable key ctxHash "all AI providers are unavailable" w s)
          else
            let '(s, w, q, answer) := ask p req s w in
            match answer with
            | Ok r => let r := finish_response s (Name p) ctxHash (pq_State q) r in Some (put_response key r (pq_State q) w s, w, r)
            | Err _ => fallback_loop n (Name p :: attempted) (set_preference "auto" req) key ctxHash s w
            end
      | _ => Some (cacheUnavailable key ctxHash "no AI provider is available" w s)
      end
  end.

Definition explainWithFallback (req : ExplainRequest) (key ctxHash : string) (s : Service) (w : World) :=
  fallback_loop (Nat.max 1 (length (providers s))) [] req key ctxHash s w.

(** What the request becomes, the hash of its context and its key. *)
Definition prepare (req : ExplainRequest) (s : Service) : result (ExplainRequest * string * string) :=
  let req := normalizeRequest (cfg s) req in
  match builder s req with
  | Err e => Err ("build context: " +:+ e)
  | Ok payload =>
      let text := Text (redactor s payload) in
      let req := set_context text req in
      Ok (req, hashString text, cacheKey req (hashString text) (hashString (Text (redactor s (SubjectID req)))))
  end.

(** [ctx_err] is the error of the context on entry. *)
Definition Explain (ctx_err : option string) (req : ExplainRequest) (s : Service) (w : World)
    : option (Service * World * result ExplainResponse) :=
  match ctx_err with
  | Some e => Some (s, w, Err e)
  | None =>
      match prepare req s with
      | Err e => Some (s, w, Err e)
      | Ok (req, ctxHash, key) =>
          if negb (cfg_Enabled (cfg s)) then
            let r := unavailableResponse ctxHash "AI explain disabled" in Some (put_response key r Unknown w s, w, Ok r)
          else
            let '(c, hit) := Get_entry (clock w) (clock w) key (cache s) in
            let s := with_cache c s in
            match hit with
            | Some e => Some (s, w, Ok (cached_response ctxHash e))
            | None => '(s, w, r) ← explainWithFallback req key ctxHash s w; Some (s, w, Ok r)
            end
      end
  end.

(** *** Theorems *)

(** What a call in the loop carries, and to whom. *)
Definition call_ok (req : ExplainRequest) (ps : list (option Router.Provider)) (c : call) : Prop :=
  rq_Context c.2 = rq_Context req /\ SubjectID c.2 = SubjectID req /\ MaxOutputTokens c.2 = MaxOutputTokens req /\
  exists p, Some p ∈ ps /\ Name p = c.1 /\ Enabled p <> Some false.

(** The answer is the last call's, redacted, or says that there is none. *)
Definition answered (s : Service) (before l : list call) (r : ExplainResponse) : Prop :=
  (exists l0 p rq a, l = l0 ++ [(Name p, rq)] /\ Some p ∈ providers s /\ p_Explain p (before ++ l0) rq = Ok a /\
     rs_Explanation r = Text (redactor s (rs_Explanation a))) \/
  rs_Explanation r = "AI explain unavailable: no AI provider is available" \/
  rs_Explanation r = "AI explain unavailable: all AI providers are unavailable".

Lemma call_ok_preference req ps c x : call_ok (set_preference x req) ps c <-> call_ok req ps c.
Proof. done. Qed.

(** The loop asks each provider at most once. *)
Lemma fallback_loop_spec n attempted req key h s w :
  0 <= providerRotation w -> providerRotation w + Z.of_nat n < 2 ^ 63 ->
  exists s' w' r l, fallback_loop n attempted req key h s w = Some (s', w', r) /\ calls w' = calls w ++ l /\ NoDup l.*1 /\
    (forall x, x ∈ l.*1 -> x ∉ attempted) /\ (length l <= n)%nat /\ Forall (call_ok req (providers s)) l /\ answered s (calls w) l r /\
    0 <= providerRotation w' <= providerRotation w + Z.of_nat n.
Proof.
  revert attempted req s w. induction n as [|n IH]; intros attempted req s w H0 Hr; cbn [fallback_loop].
  { eexists _, _, _, []. split; [done|]. rewrite app_nil_r. repeat split; [constructor|by intros ? ?%elem_of_nil|done|constructor|by right; right|lia|cbn; lia]. }
  destruct (selection (clock w) (providerRotation w) (quotas s) (providers s) req) as (rot & sel & -> & Hrot & Hsel); [lia|]. cbn [mbind option_bind].
  assert (forall reason, reason = "no AI provider is available" \/ reason = "all AI providers are unavailable" ->
    exists s' w' r l, Some (cacheUnavailable key h reason (set_rotation rot w) s) = Some (s', w', r) /\ calls w' = calls w ++ l /\ NoDup l.*1 /\
      (forall x, x ∈ l.*1 -> x ∉ attempted) /\ (length l <= S n)%nat /\ Forall (call_ok req (providers s)) l /\ answered s (calls w) l r /\
      0 <= providerRotation w' <= providerRotation w + Z.of_nat (S n)) as Hnone.
  { intros reason Hre. eexists _, _, _, []. split; [done|]. rewrite app_nil_r.
    repeat split; [constructor|by intros ? ?%elem_of_nil|cbn; lia|constructor|right; destruct Hre as [->| ->]; auto|cbn; lia|cbn; lia]. }
  destruct sel as [[[p|] q]|e]; [|by apply Hnone; left|by apply Hnone; left]. destruct Hsel as (Hin & Hu & _).
  case_bool_decide as Hatt; [by apply Hnone; right|]. clear Hnone.
  assert (Enabled p <> Some false) as Hen.
  { intros He. unfold usable in Hu. rewrite He in Hu. done. }
  assert (call_ok req (providers s) (Name p, req)) as Hc by (repeat split; by exists p).
  destruct (ask p req s (set_rotation rot w)) as [[[s1 w1] q1] answer] eqn:Hask. unfold ask in Hask. cbn in Hask.
  destruct (p_Explain p (calls w) req) as [a|e] eqn:Hex; injection Hask as <- <- Hq <-.
  - eexists _, _, _, [(Name p, req)]. split; [done|]. cbn [calls]. split; [done|]. split; [apply NoDup_singleton|].
    split; [by intros x ->%list_elem_of_singleton|]. split; [cbn; lia|]. split; [by constructor|]. split; [|cbn; lia].
    left. exists [], p, req, a. rewrite app_nil_r. done.
  - edestruct (IH (Name p :: attempted) (set_preference "auto" req)) as (s' & w' & r & l & -> & Hcalls & Hnd & Hna & Hlen & Hall & Hans & Hrot');
      [|cbn [providerRotation set_rotation]; lia|]; [cbn; lia|]. cbn [calls providers redactor providerRotation with_quotas set_rotation] in *.
    exists s', w', r, ((Name p, req) :: l). split; [done|]. split; [rewrite Hcalls; by rewrite <- app_assoc|]. cbn [fmap list_fmap fst length].
    split; [constructor; [intros Hx; apply Hna in Hx; apply Hx; by left|done]|].
    split; [intros x [->|Hx]%elem_of_cons; [done|apply Hna in Hx; set_solver]|]. split; [lia|]. split; [constructor; [done|]; eapply Forall_impl; [exact Hall|done]|].
    split; [|lia]. destruct Hans as [(l0 & p' & rq & a & -> & Hp' & Ha & He')|Hans]; [|by right]. left.
    exists ((Name p, req) :: l0), p', rq, a. rewrite <- app_assoc in Ha. done.
Qed.

Lemma capPositive_bounds v fb : 0 < capPositive v fb /\ (0 < fb -> capPositive v fb <= fb).
Proof. unfold capPositive. destruct (Z.ltb_spec 0 v), (Z.ltb_spec 0 fb), (Z.ltb_spec v fb); cbn; lia. Qed.

(** C28: what leaves the house.  An explanation asks every provider at most once
    and only enabled ones, none when the feature is off, when the answer is
    cached or when no context can be built; every request sent carries the
    redacted context and a number of output tokens within the configured one,
    and what comes back is redacted before it is shown or cached. *)
Theorem explain_calls req s w :
  0 <= providerRotation w -> providerRotation w + Z.of_nat (Nat.max 1 (length (providers s))) < 2 ^ 63 ->
  exists s' w' r l, Explain None req s w = Some (s', w', r) /\ calls w' = calls w ++ l /\ NoDup l.*1 /\
    (cfg_Enabled (cfg s) = false -> l = []) /\
    match builder s (normalizeRequest (cfg s) req) with
    | Err e => l = [] /\ r = Err ("build context: " +:+ e)
    | Ok payload =>
        (forall c, c ∈ l -> rq_Context c.2 = Text (redactor s payload) /\ 0 < MaxOutputTokens c.2 /\
           (0 < cfg_MaxOutputTokens (cfg s) -> MaxOutputTokens c.2 <= cfg_MaxOutputTokens (cfg s)) /\
           exists p, Some p ∈ providers s /\ Name p = c.1 /\ Enabled p <> Some false) /\
        exists resp, r = Ok resp /\ (l <> [] -> answered s (calls w) l resp)
    end.
Proof.
  intros H0 Hr. unfold Explain, prepare. destruct (builder s (normalizeRequest (cfg s) req)) as [payload|e].
  2: { eexists _, _, _, []. rewrite app_nil_r. repeat split; constructor. }
  set (text := Text (redactor s payload)). set (req1 := set_context text (normalizeRequest (cfg s) req)). set (key := cacheKey _ _ _).
  assert (forall (s1 : Service) (r : ExplainResponse), exists s' w' r' l, Some (s1, w, Ok r) = Some (s', w', r') /\ calls w' = calls w ++ l /\ NoDup l.*1 /\
    (cfg_Enabled (cfg s) = false -> l = []) /\
    (forall c, c ∈ l -> rq_Context c.2 = text /\ 0 < MaxOutputTokens c.2 /\ (0 < cfg_MaxOutputTokens (cfg s) -> MaxOutputTokens c.2 <= cfg_MaxOutputTokens (cfg s)) /\
       exists p, Some p ∈ providers s /\ Name p = c.1 /\ Enabled p <> Some false) /\
    exists resp, r' = Ok resp /\ (l <> [] -> answered s (calls w) l resp)) as Hno.
  { intros s1 r. exists s1, w, (Ok r), []. rewrite app_nil_r. split; [done|]. split; [done|]. split; [constructor|]. split; [done|].
    split; [by intros ? ?%elem_of_nil|]. by exists r. }
  destruct (cfg_Enabled (cfg s)) eqn:Hen; cbn [negb]; [|apply Hno]. destruct (Get_entry _ _ _ _) as [c [e|]]; [apply Hno|]. clear Hno.
  destruct (fallback_loop_spec (Nat.max 1 (length (providers s))) [] req1 key (hashString text) (with_cache c s) w H0 Hr)
    as (s' & w' & r & l & Hf & Hc & Hnd & _ & _ & Hall & Hans & _).
  unfold explainWithFallback. cbn [providers with_cache] in *. rewrite Hf. cbn [mbind option_bind]. exists s', w', (Ok r), l.
  split; [done|]. split; [done|]. split; [done|]. split; [done|]. split; [|by exists r]. intros x Hx. rewrite Forall_forall in Hall.
  destruct (Hall x Hx) as (-> & _ & -> & Hp). split; [done|]. cbn [MaxOutputTokens req1 set_context normalizeRequest].
  destruct (capPositive_bounds (MaxOutputTokens req) (cfg_MaxOutputTokens (cfg s))). done.
Qed.

(** An entry just put is there at the same time. *)
Lemma Get_after_Put now e c :
  expired now e = false -> exists c', Get_entry now now (Key e) (Put range now e c) = (c', Some e).
Proof.
  intros Hx. unfold Get_entry. assert (items (Put range now e c) !! Key e = Some e) as Hp by (unfold Put; cbn; by rewrite lookup_insert_eq).
  assert (items (maybeSweepLocked now (Put range now e c)) !! Key e = Some e) as Hi.
  { generalize dependent (Put range now e c). intros s0 Hp. unfold maybeSweepLocked. case_match; cbn [items]; [done|].
    unfold sweepExpiredLocked. by apply map_lookup_filter_Some. }
  rewrite Hi, Hx. by eexists.
Qed.

Definition same_setup (s s' : Service) : Prop :=
  cfg s' = cfg s /\ builder s' = builder s /\ redactor s' = redactor s /\ providers s' = providers s.

(** Whatever the loop answers is what it caches last. *)
Lemma fallback_loop_caches n attempted req key h s w s' w' r :
  fallback_loop n attempted req key h s w = Some (s', w', r) ->
  exists s1 state, s' = put_response key r state w' s1 /\ ContextHash r = h /\ same_setup s s1.
Proof.
  revert attempted req s w. induction n as [|n IH]; intros attempted req s w; cbn [fallback_loop].
  { intros [= <- <- <-]. by eexists _, _. }
  destruct (SelectProvider _ _ _ _ _) as [[rot sel]|]; [|done]. cbn [mbind option_bind].
  destruct sel as [[[p|] q]|e]; [|intros [= <- <- <-]; by eexists _, _..]. case_bool_decide; [intros [= <- <- <-]; by eexists _, _|].
  destruct (ask p req s (set_rotation rot w)) as [[[s1 w1] q1] answer] eqn:Hask. assert (same_setup s s1) as Hs1 by (unfold ask in Hask; by simplify_eq).
  destruct answer as [a|e]; [intros [= <- <- <-]; by eexists _, _|]. intros (s2 & st & -> & Hh & Hs2)%IH. exists s2, st. split; [done|]. split; [done|].
  unfold same_setup in *. naive_solver congruence.
Qed.

Lemma ttl_nonneg c state : 0 <= CacheTTL c -> 0 <= ttlForState c state.
Proof. intros H. unfold ttlForState. by repeat case_bool_decide. Qed.

Lemma prepare_same req s s' : same_setup s s' -> prepare req s' = prepare req s.
Proof. intros (Hc & Hb & Hr & _). unfold prepare. by rewrite Hc, Hb, Hr. Qed.

(** An answer put in the cache is the answer the next time. *)
Lemma Explain_hit req s w req1 h key r state s1 :
  prepare req s = Ok (req1, h, key) -> cfg_Enabled (cfg s) = true -> 0 <= CacheTTL (cfg s) -> same_setup s s1 -> ContextHash r = h ->
  exists s'', Explain None req (put_response key r state w s1) w =
    Some (s'', w, Ok (cached_response h (entry_of key r (t_add (clock w) (ttlForState (cfg s1) state))))).
Proof.
  intros Hp Hen Httl Hs Hh. unfold Explain. rewrite (prepare_same req s) by done. rewrite Hp. pose proof Hs as (Hc & _). cbn [cfg put_response with_cache].
  rewrite Hc, Hen. cbn [negb]. pose proof (ttl_nonneg (cfg s) state Httl) as Ht.
  edestruct (Get_after_Put (clock w) (entry_of key r (t_add (clock w) (ttlForState (cfg s) state))) (cache s1)) as [c' Hg].
  { unfold expired, t_after, t_add. cbn. destruct (Z.ltb_spec (clock w + ttlForState (cfg s) state) (clock w)); [lia|]. apply andb_false_r. }
  unfold put_response. rewrite Hc. cbn [cache with_cache entry_of Key] in *. rewrite Hg. by eexists.
Qed.

Lemma Get_entry_again now k c c' e :
  Get_entry now now k c = (c', Some e) -> exists c'', Get_entry now now k c' = (c'', Some e).
Proof.
  unfold Get_entry. destruct (items (maybeSweepLocked now c) !! k) as [e'|] eqn:Hk; [|done]. destruct (expired now e') eqn:Hx; [done|].
  intros [= <- <-]. assert (items (maybeSweepLocked now (maybeSweepLocked now c)) !! k = Some e') as ->; [|rewrite Hx; by eexists].
  generalize dependent (maybeSweepLocked now c). intros c1 Hk. unfold maybeSweepLocked. case_match; [done|]. by apply map_lookup_filter_Some.
Qed.

Definition as_cached (r : ExplainResponse) : ExplainResponse :=
  {| rs_Provider := rs_Provider r; rs_Model := rs_Model r; Cached := true; rs_QuotaState := rs_QuotaState r; rs_Explanation := rs_Explanation r;
     rs_InputTokens := rs_InputTokens r; rs_OutputTokens := rs_OutputTokens r; rs_TotalTokens := rs_TotalTokens r; ContextHash := ContextHash r;
     rs_AuditID := rs_AuditID r |}.

(** asked again.  Once the gateway has answered a request, with an
    explanation or with the news that none can be had, the same request gets
    the same answer from the cache and no provider is asked. *)
Theorem asked_again req s w s' w' r :
  cfg_Enabled (cfg s) = true -> 0 <= CacheTTL (cfg s) -> Explain None req s w = Some (s', w', Ok r) ->
  exists s'', Explain None req s' w' = Some (s'', w', Ok (as_cached r)).
Proof.
  intros Hen Httl Hex. pose proof Hex as Hex'. unfold Explain in Hex. destruct (prepare req s) as [[[req1 h] key]|e] eqn:Hp; [|done]. rewrite Hen in Hex. cbn [negb] in Hex.
  destruct (Get_entry _ _ _ _) as [c [e|]] eqn:Hg.
  - injection Hex as <- <- <-. destruct (Get_entry_again _ _ _ _ _ Hg) as [c'' Hg'']. unfold Explain.
    rewrite (prepare_same req s), Hp by done. cbn [cfg with_cache cache]. rewrite Hen, Hg''. cbn [negb]. by eexists.
  - unfold explainWithFallback in Hex. destruct (fallback_loop _ _ _ _ _ _ _) as [[[s2 w2] r2]|] eqn:Hf; [|done]. cbn in Hex. injection Hex as -> -> ->.
    apply fallback_loop_caches in Hf as (s1 & st & -> & Hh & Hs).
    destruct (Explain_hit req s w' req1 h key r st s1 Hp Hen Httl Hs Hh) as [s'' ->]. exists s''. unfold cached_response, entry_of, as_cached. cbn. by rewrite Hh.
Qed.

End gateway.

(** *** Two providers: one with a good quota that cannot be reached, and one
    never asked before that works *)
Definition answer_of (name text : string) : ExplainResponse :=
  {| rs_Provider := name; rs_Model := ""; Cached := false; rs_QuotaState := ""; rs_Explanation := text; rs_InputTokens := 1; rs_OutputTokens := 2;
     rs_TotalTokens := 3; ContextHash := ""; rs_AuditID := "" |}.

Definition unreachable : Router.Provider :=
  {| Name := "openai"; Enabled := Some true; p_Explain := fun _ _ => Err "request timeout"; p_Quota := fun _ => no_observation "openai" Normal;
     took := fun _ => second |}.
Definition working (name : string) : Router.Provider :=
  {| Name := name; Enabled := Some true; p_Explain := fun _ _ => Ok (answer_of name "brute force"); p_Quota := fun _ => no_observation name Normal;
     took := fun _ => second |}.

Definition demo_config : Config :=
  let conf := {| pc_Enabled := true; pc_Model := "m"; APIKey := "k"; APIKeyFile := "" |} in
  {| cfg_Enabled := true; ProviderStrategy := "auto"; cfg_MaxContextBytes := 0; cfg_MaxOutputTokens := 0; Timeout := 0; RateLimitPerMinute := 0;
     CacheTTL := 0; StrictNoTools := true; cfg_OpenAI := conf; cfg_Anthropic := conf; cfg_Gemini := conf |}.

Definition demo_service (ps : list (option Router.Provider)) : Service :=
  NewService demo_config (fun rq => Ok ("event " +:+ SubjectID rq)) (fun t => {| Text := t; Redactions := 0; ContainsSecret := false |}) ps
    (Some {["openai" := no_observation "openai" Normal]}).

Definition demo_request : ExplainRequest :=
  {| SubjectType := "timeline_event"; SubjectID := "e1"; ProviderPreference := ""; rq_Context := ""; rq_ContextHash := ""; MaxContextBytes := 0;
     MaxOutputTokens := 0 |}.
Definition demo_world : World := {| calls := []; clock := hour; providerRotation := 0 |}.

(** The provider that failed stays the best, is chosen again and ends the
    search: the other one is never asked. *)
Example no_fallback_past_the_best :
  exists s w r, Explain map_to_list None demo_request (demo_service [Some unreachable; Some (working "gemini")]) demo_world = Some (s, w, Ok r) /\
    (calls w).*1 = ["openai"] /\ rs_Explanation r = "AI explain unavailable: all AI providers are unavailable".
Proof. eexists _, _, _. split; [vm_compute; reflexivity|]. split; vm_compute; reflexivity. Qed.

Lemma explain_calls_witness :
  exists s' w' r l, Explain map_to_list None demo_request (demo_service [Some (working "gemini")]) demo_world = Some (s', w', r) /\
    calls w' = [] ++ l /\ NoDup l.*1.
Proof.
  destruct (explain_calls map_to_list demo_request (demo_service [Some (working "gemini")]) demo_world) as (s' & w' & r & l & H1 & H2 & H3 & _).
  - discriminate.
  - reflexivity.
  - exists s', w', r, l. split; [exact H1|]. split; [exact H2|exact H3].
Defined.

Lemma asked_again_witness :
  exists s' w' s'' r, Explain map_to_list None demo_request (demo_service [Some (working "gemini")]) demo_world = Some (s', w', Ok r) /\
    Explain map_to_list None demo_request s' w' = Some (s'', w', Ok (as_cached r)).
Proof.
  destruct (Explain map_to_list None demo_request (demo_service [Some (working "gemini")]) demo_world) as [[[s' w'] [r|e]]|] eqn:He;
    [|exfalso; vm_compute in He; discriminate He..].
  destruct (asked_again map_to_list demo_request (demo_service [Some (working "gemini")]) demo_world s' w' r) as [s'' H''].
  - reflexivity.
  - discriminate.
  - exact He.
  - exists s', w', s'', r. split; [reflexivity|exact H''].
Defined.

End Gateway.
