(* ===== verification/EnrichService.v ===== *)
(** * Enrichment

    [internal/security/enrichment]: what is known of an address from its name,
    its network and the look-up services, its assessment, and the static table
    of networks ([asn]).  The resolver and the look-up services are the
    interfaces the service holds, functions of the time and the address; a
    call reads the clock once.  The service is an implementation of the
    interface that the reputation gate and the auto-ban evaluator use
    ([Reputation.Enrichment.IPEnricher]).  Case is folded for ASCII letters. *)

From S2P Require Import Prelude Netip NetipText Reputation.
Import Netip Enrichment.

Local Open Scope Z_scope.

(** ** Networks ([asn]) *)
Module Asn.

Definition KindUnknown : string := "unknown".
Definition KindProtected : string := "protected".
Definition KindSearchBot : string := "searchbot".
Definition KindAIAgent : string := "aiagent".
Definition KindMonitoring : string := "monitoring".
Definition KindDatacenter : string := "datacenter".
Definition KindResidential : string := "residential".

Record Result := {
  Provider : string; Kind : string; ASN : Z; Org : string; Network : string; Country : string; Protected : bool;
}.
Definition no_result : Result :=
  {| Provider := ""; Kind := ""; ASN := 0; Org := ""; Network := ""; Country := ""; Protected := false |}.

Inductive RegistryStatus := RegistryStatusLoaded | RegistryStatusSourceUnavailable | RegistryStatusTooVolatile.

Record RegistryEntry := {
  Organization : string; re_Kind : string; CIDRs : list string; SourceURL : string; LastVerified : string; Notes : string;
}.

Definition Status (e : RegistryEntry) : RegistryStatus :=
  if bool_decide (0 < length (CIDRs e))%nat then RegistryStatusLoaded
  else if negb (bool_decide (SourceURL e = "")) then RegistryStatusTooVolatile else RegistryStatusSourceUnavailable.

Definition DefaultRegistry : list RegistryEntry := [
  {| Organization := "cloudflare"; re_Kind := KindProtected;
     CIDRs := ["173.245.48.0/20"; "103.21.244.0/22"; "103.22.200.0/22"; "103.31.4.0/22"; "141.101.64.0/18"; "108.162.192.0/18";
               "190.93.240.0/20"; "188.114.96.0/20"; "197.234.240.0/22"; "198.41.128.0/17"; "162.158.0.0/15"; "104.16.0.0/13";
               "104.24.0.0/14"; "172.64.0.0/13"; "131.0.72.0/22"; "2400:cb00::/32"; "2606:4700::/32"; "2803:f800::/32";
               "2405:b500::/32"; "2405:8100::/32"; "2a06:98c0::/29"; "2c0f:f248::/32"];
     SourceURL := "https://www.cloudflare.com/ips-v4"; LastVerified := "2026-06-01";
     Notes := "IPv6 source: https://www.cloudflare.com/ips-v6" |};
  {| Organization := "google"; re_Kind := KindSearchBot;
     CIDRs := ["66.249.64.0/19"; "64.233.160.0/19"; "72.14.192.0/18"; "74.125.0.0/16"; "209.85.128.0/17"; "216.239.32.0/19";
               "2001:4860::/32"];
     SourceURL := "https://developers.google.com/search/apis/ipranges/googlebot.json"; LastVerified := "pre-2026-06-01";
     Notes := "Ranges not re-fetched 2026-06-01; re-verify before next release." |};
  {| Organization := "microsoft"; re_Kind := KindSearchBot;
     CIDRs := ["40.74.0.0/15"; "40.76.0.0/14"; "40.80.0.0/12"; "40.96.0.0/12"; "40.112.0.0/13"; "40.120.0.0/14"; "40.124.0.0/16";
               "65.52.0.0/14"; "13.64.0.0/11"; "20.33.0.0/16"; "157.54.0.0/15"; "2603:1000::/25"];
     SourceURL := "https://www.microsoft.com/en-us/download/details.aspx?id=56519"; LastVerified := "pre-2026-06-01";
     Notes := "Azure IP Ranges JSON; re-verify weekly. Bing crawler ASN: AS8075." |};
  {| Organization := "betterstack"; re_Kind := KindMonitoring;
     CIDRs := ["103.167.32.0/22"];
     SourceURL := "https://betterstack.com/docs/uptime/ip-ranges/"; LastVerified := "pre-2026-06-01";
     Notes := "Re-verify against BetterStack official documentation." |};
  {| Organization := "uptime-monitoring"; re_Kind := KindMonitoring;
     CIDRs := ["216.144.248.0/24"; "69.162.124.0/22"];
     SourceURL := "https://uptimerobot.com/blog/ip-addresses-for-uptime-robot-monitors/"; LastVerified := "pre-2026-06-01";
     Notes := "Covers UptimeRobot and Pingdom; re-verify each vendor separately." |};
  {| Organization := "openai-gptbot"; re_Kind := KindAIAgent;
     CIDRs := ["132.196.86.0/24"; "172.182.202.0/25"; "172.182.204.0/24"; "172.182.207.0/25"; "172.182.214.0/24"; "172.182.215.0/24";
               "20.125.66.80/28"; "20.171.206.0/24"; "20.171.207.0/24"; "4.227.36.0/25"; "52.230.152.0/24"; "74.7.175.128/25";
               "74.7.227.0/25"; "74.7.227.128/25"; "74.7.228.0/25"; "74.7.230.0/25"; "74.7.241.0/25"; "74.7.241.128/25";
               "74.7.242.0/25"; "74.7.243.128/25"; "74.7.244.0/25"];
     SourceURL := "https://openai.com/gptbot.json"; LastVerified := "2026-06-01";
     Notes := "Source JSON created 2025-10-30. Re-verify periodically; list is relatively stable." |};
  {| Organization := "openai-searchbot"; re_Kind := KindAIAgent;
     CIDRs := ["104.210.140.128/28"; "135.234.64.0/24"; "172.182.193.224/28"; "172.182.193.80/28"; "172.182.194.144/28";
               "172.182.194.32/28"; "172.182.195.48/28"; "172.182.209.208/28"; "172.182.211.192/28"; "172.182.213.192/28";
               "172.182.224.0/28"; "172.203.190.128/28"; "20.14.99.96/28"; "20.168.18.32/28"; "20.169.6.224/28"; "20.169.7.48/28";
               "20.169.77.0/25"; "20.171.123.64/28"; "20.171.53.224/28"; "20.25.151.224/28"; "20.42.10.176/28"; "4.227.36.0/25";
               "40.67.175.0/25"; "40.90.214.16/28"; "51.8.102.0/24"; "74.7.175.128/25"; "74.7.228.0/25"; "74.7.228.128/25";
               "74.7.229.0/25"; "74.7.229.128/25"; "74.7.230.0/25"; "74.7.241.128/25"; "74.7.242.128/25"; "74.7.243.0/25";
               "74.7.244.0/25"];
     SourceURL := "https://openai.com/searchbot.json"; LastVerified := "2026-06-01";
     Notes := "Source JSON created 2026-01-02. Re-verify periodically." |};
  {| Organization := "openai-chatgpt-user"; re_Kind := KindAIAgent;
     CIDRs := [];
     SourceURL := "https://openai.com/chatgpt-user.json"; LastVerified := "2026-06-01";
     Notes := "237 Azure /28 ranges (as of 2026-05-21). Too volatile for static embedding; requires automated refresh. Status: too_volatile." |};
  {| Organization := "github-copilot"; re_Kind := KindAIAgent;
     CIDRs := ["192.30.252.0/22"; "185.199.108.0/22"; "140.82.112.0/20"; "143.55.64.0/20"; "2a0a:a440::/29"; "2606:50c0::/32";
               "20.85.130.105/32"; "4.237.22.41/32"; "4.228.31.153/32"; "4.249.131.160/32"; "20.199.39.224/32"; "52.175.140.176/32";
               "52.140.63.241/32"; "4.225.11.192/32"; "20.250.119.64/32"; "138.91.182.224/32"; "13.107.5.93/32"];
     SourceURL := "https://api.github.com/meta"; LastVerified := "2026-06-01";
     Notes := "copilot section of GitHub Meta API. Single-host /32 entries may change; re-verify weekly." |};
  {| Organization := "anthropic"; re_Kind := KindAIAgent;
     CIDRs := ["160.79.104.0/21"; "2607:6bc0::/48"];
     SourceURL := "https://platform.claude.com/docs/en/api/ip-addresses"; LastVerified := "2026-06-01";
     Notes := "Anthropic states these addresses will not change without notice. Phased-out /32 ranges (34.162.x.x) are no longer active and excluded. AWS-platform inbound resolves to AWS IP ranges (not listed here)." |}].

Record protectedEntry := { net : addr * Z; owner : string; kind : string }.
Definition StaticProvider : Type := list protectedEntry.

Definition entry_networks (e : RegistryEntry) : list protectedEntry :=
  omap (fun c => (fun n => {| net := n; owner := Organization e; kind := re_Kind e |}) <$> ParseCIDR c) (CIDRs e).

Definition NewStaticProviderFromRegistry (entries : list RegistryEntry) : StaticProvider := e ← entries; entry_networks e.
Definition NewStaticProvider : StaticProvider := NewStaticProviderFromRegistry DefaultRegistry.

(** The bytes of an address carry no zone. *)
Definition drop_zone (a : addr) : addr := match a with A6 v _ => A6 v "" | A4 _ => a end.

Definition Lookup (p : StaticProvider) (ip : addr) : result Result :=
  match List.find (fun e => net_contains (net e) (drop_zone (unmap ip))) p with
  | Some e => Ok {| Provider := "static"; Kind := kind e; ASN := 0; Org := owner e; Network := net_string (net e); Country := ""; Protected := true |}
  | None => Ok {| Provider := "static"; Kind := KindUnknown; ASN := 0; Org := ""; Network := ""; Country := ""; Protected := false |}
  end.

End Asn.

(** ** Scoring ([scoring.go]) *)
Module Scoring.

Definition scoreDNS (dnsConfirmed trusted : bool) : Z * string :=
  if negb dnsConfirmed || negb trusted then (0, "") else (-5, "trusted_forward_confirmed_bot").

Definition scoreASN (kind : string) (protected : bool) : Z * bool * string :=
  let k := to_lower kind in
  if protected then
    if bool_decide (k = "searchbot") then (0, true, "search_bot_network")
    else if bool_decide (k = "aiagent") then (0, true, "ai_agent_network")
    else if bool_decide (k = "monitoring") then (0, true, "monitoring_network")
    else (0, true, "protected_network")
  else if bool_decide (k = "datacenter") then (2, false, "datacenter_network") else (0, false, "").

Definition scoreProvider (v : ProviderVerdict) : Z * string :=
  if v_Score v <=? 0 then (0, "")
  else if v_Manual v then (if 10 <? v_Score v then 10 else v_Score v, v_Provider v +:+ "_manual_signal")
  else if 90 <=? v_Score v then (3, v_Provider v +:+ "_high_signal")
  else if 70 <=? v_Score v then (2, v_Provider v +:+ "_elevated_signal")
  else if 40 <=? v_Score v then (1, v_Provider v +:+ "_weak_signal")
  else (0, "").

End Scoring.

(** ** Service ([service.go], [cache.go]) *)
Module EnrichService.
Import Asn Scoring.

Definition LookupModeAutomatic : string := "automatic".
Definition LookupModeManual : string := "manual".

Record DnsResult := { Hostname : string; Addresses : list string; Confirmed : bool; TrustedBot : bool }.
Definition no_dns : DnsResult := {| Hostname := ""; Addresses := []; Confirmed := false; TrustedBot := false |}.

(** The whole summary; [base] is the part the interface shows. *)
Record Summary := { base : EnrichmentSummary; DNS : DnsResult; sum_ASN : Result }.

Record Assessment := { Score : Z; NoHardBan : bool; HardBanAllowed : bool; Reasons : list string }.

Record Config := {
  Enabled : bool; DNSEnabled : bool; ASNEnabled : bool; Timeout : Z; CacheTTL : Z; TrustedSuffixes : list string;
}.

Record DNSResolver := { LookupAddr : Z -> string -> result (list string); LookupHost : Z -> string -> result (list string) }.
Record LookupProvider := { lp_Name : string; lp_Mode : string; lp_Lookup : Z -> addr -> result ProviderVerdict }.
Record ReporterProvider := { rp_Name : string; rp_Report : option addr -> string -> result unit }.

(** [cacheEntry] and [summaryCache]. *)
Record cacheEntry := { expiresAt : Z; summary : Summary }.
Record summaryCache := { items : gmap string cacheEntry; ttl : Z }.

Definition newSummaryCache (d : Z) : summaryCache := {| items := ∅; ttl := if d <=? 0 then minute else d |}.

Definition Get (now : Z) (key : string) (c : summaryCache) : summaryCache * option Summary :=
  match items c !! key with
  | None => (c, None)
  | Some e => if t_after now (expiresAt e) then ({| items := delete key (items c); ttl := ttl c |}, None) else (c, Some (summary e))
  end.

Definition Put (now : Z) (key : string) (s : Summary) (c : summaryCache) : summaryCache :=
  {| items := <[key := {| expiresAt := t_add now (ttl c); summary := s |}]> (items c); ttl := ttl c |}.

Record Service := {
  cfg : Config; dnsResolver : option DNSResolver; asnProvider : option (addr -> result Result);
  lookupProviders : list (option LookupProvider); reporterProviders : list (option ReporterProvider); cache : summaryCache;
}.

Definition NewService (c : Config) (dns : option DNSResolver) (asn : option (addr -> result Result))
    (lookups : list (option LookupProvider)) (reporters : list (option ReporterProvider)) : Service :=
  let timeout := if Timeout c <=? 0 then 800 * (second / 1000) else Timeout c in
  let cttl := if CacheTTL c <=? 0 then 6 * hour else CacheTTL c in
  {| cfg := {| Enabled := Enabled c; DNSEnabled := DNSEnabled c; ASNEnabled := ASNEnabled c; Timeout := timeout; CacheTTL := cttl;
               TrustedSuffixes := TrustedSuffixes c |};
     dnsResolver := dns; asnProvider := asn; lookupProviders := lookups; reporterProviders := reporters; cache := newSummaryCache cttl |}.

Definition with_cache (c : summaryCache) (s : Service) : Service :=
  {| cfg := cfg s; dnsResolver := dnsResolver s; asnProvider := asnProvider s; lookupProviders := lookupProviders s;
     reporterProviders := reporterProviders s; cache := c |}.

Definition has_suffix (suf s : string) : bool := has_prefix (str_rev suf) (str_rev s).
Definition trim_suffix (suf s : string) : string :=
  if has_suffix suf s then String.substring 0 (String.length s - String.length suf) s else s.

Definition normalizeHostname (host : string) : string := trim_suffix "." (trim_space (to_lower host)).

Definition isTrustedHostname (suffixes : list string) (hostname : string) : bool :=
  if bool_decide (hostname = "") then false
  else
    let host := trim_suffix "." (to_lower hostname) in
    existsb (fun suffix =>
      let suffix := trim_space (to_lower (trim_suffix "." suffix)) in
      if bool_decide (suffix = "") then false else bool_decide (host = suffix) || has_suffix ("." +:+ suffix) host) suffixes.

(** Forward-confirmed reverse lookup of the first name. *)
Definition lookupDNS (now : Z) (ip : addr) (s : Service) : DnsResult :=
  match dnsResolver s with
  | None => no_dns
  | Some r =>
      match LookupAddr r now (addr_string ip) with
      | Err _ | Ok [] => no_dns
      | Ok (host :: hosts) =>
          let hostname := normalizeHostname host in
          if bool_decide (hostname = "") then no_dns
          else
            match LookupHost r now hostname with
            | Err _ => {| Hostname := hostname; Addresses := host :: hosts; Confirmed := false; TrustedBot := false |}
            | Ok ips =>
                let confirmed := existsb (fun c => bool_decide (ParseAddr c = Some ip)) ips in
                {| Hostname := hostname; Addresses := ips; Confirmed := confirmed;
                   TrustedBot := confirmed && isTrustedHostname (TrustedSuffixes (cfg s)) hostname |}
            end
      end
  end.

Definition lookupASN (ip : addr) (s : Service) : Result :=
  match asnProvider s with
  | None => no_result
  | Some p => match p ip with Ok r => r | Err _ => no_result end
  end.

Definition lookupProvider (now : Z) (p : LookupProvider) (ip : addr) : result ProviderVerdict :=
  match lp_Lookup p now ip with
  | Err e => Err e
  | Ok v => Ok {| v_Provider := if bool_decide (v_Provider v = "") then lp_Name p else v_Provider v; v_Mode := lp_Mode p; v_Score := v_Score v;
                  v_Manual := if bool_decide (lp_Mode p = LookupModeManual) then true else v_Manual v; v_Note := v_Note v |}
  end.

Definition cacheKey (ip : addr) (opts : LookupOptions) : string :=
  let t (b : bool) := if b then "true" else "false" in
  addr_string ip +:+ "|manual=" +:+ t (ManualForensics opts) +:+ "|repcheck=" +:+ t (ReputationCheck opts).

Definition manualTriggered (opts : LookupOptions) : bool := ManualForensics opts || ReputationCheck opts.

(** The two conditions of the loop over the providers. *)
Definition consulted (opts : LookupOptions) (p : LookupProvider) : bool :=
  if bool_decide (lp_Mode p = LookupModeManual) && negb (manualTriggered opts) then false
  else bool_decide (lp_Mode p = LookupModeAutomatic) || manualTriggered opts.

(** A look-up that left the house: the provider and the address. *)
Abbreviation lookup := (string * addr)%type.

Fixpoint verdicts (now : Z) (ip : addr) (opts : LookupOptions) (ps : list (option LookupProvider)) : list ProviderVerdict * list lookup :=
  match ps with
  | [] => ([], [])
  | None :: ps => verdicts now ip opts ps
  | Some p :: ps =>
      let '(vs, ls) := verdicts now ip opts ps in
      if consulted opts p then
        (match lookupProvider now p ip with Ok v => v :: vs | Err _ => vs end, (lp_Name p, ip) :: ls)
      else (vs, ls)
  end.

(** What the sources say now, and the look-ups made for it. *)
Definition gather (now : Z) (ip : addr) (opts : LookupOptions) (s : Service) : Summary * list lookup :=
  let '(vs, ls) := verdicts now ip opts (lookupProviders s) in
  ({| base := {| es_IP := Some ip; es_Providers := vs; es_LocalSignalScore := lo_LocalSignalScore opts; es_CacheHit := false |};
      DNS := if DNSEnabled (cfg s) then lookupDNS now ip s else no_dns;
      sum_ASN := if ASNEnabled (cfg s) then lookupASN ip s else no_result |}, ls).

Definition set_hit (s : Summary) : Summary :=
  {| base := {| es_IP := es_IP (base s); es_Providers := es_Providers (base s); es_LocalSignalScore := es_LocalSignalScore (base s);
                es_CacheHit := true |}; DNS := DNS s; sum_ASN := sum_ASN s |}.

Definition bare (ip : option addr) : Summary :=
  {| base := {| es_IP := ip; es_Providers := []; es_LocalSignalScore := 0; es_CacheHit := false |}; DNS := no_dns; sum_ASN := no_result |}.

(** The service, the look-ups made and the summary. *)
Definition EnrichFull (now : Z) (ip : option addr) (opts : LookupOptions) (s : Service) : Service * list lookup * result Summary :=
  match ip with
  | None => (s, [], Err "ip is required")
  | Some a =>
      if negb (Enabled (cfg s)) then (s, [], Ok (bare ip))
      else
        let key := cacheKey a opts in
        let '(c, hit) := Get now key (cache s) in
        let s := with_cache c s in
        match hit with
        | Some cached => (s, [], Ok (set_hit cached))
        | None => let '(sum, ls) := gather now a opts s in (with_cache (Put now key sum (cache s)) s, ls, Ok sum)
        end
  end.

#[global] Instance service_enricher : IPEnricher Service := fun now ip opts s =>
  let '(s, _, r) := EnrichFull now ip opts s in (s, match r with Ok sum => Ok (base sum) | Err e => Err e end).

Fixpoint uniq_loop (seen : gset string) (l : list string) : list string :=
  match l with
  | [] => []
  | v :: l => if bool_decide (v = "") || bool_decide (v ∈ seen) then uniq_loop seen l else v :: uniq_loop ({[v]} ∪ seen) l
  end.
Definition uniqStrings (l : list string) : list string := uniq_loop ∅ l.

(** The deltas and reasons of the providers, in order. *)
Definition provider_scores (vs : list ProviderVerdict) : list (Z * string) := List.filter (fun d => negb (d.1 =? 0)) (scoreProvider <$> vs).
Definition total (l : list Z) : Z := foldr Z.add 0 l.

Definition Assess (s : Summary) : Assessment :=
  let d := scoreDNS (Confirmed (DNS s)) (TrustedBot (DNS s)) in
  let '(ad, noHardBan, ar) := scoreASN (Kind (sum_ASN s)) (Protected (sum_ASN s)) in
  let ps := provider_scores (es_Providers (base s)) in
  let score := d.1 + ad + total (ps.*1) in
  {| Score := score; NoHardBan := noHardBan;
     HardBanAllowed := bool_decide (is_Some (es_IP (base s))) && (0 <? es_LocalSignalScore (base s)) && negb noHardBan && (50 <=? score);
     Reasons := uniqStrings ((if d.1 =? 0 then [] else [d.2]) ++ (if bool_decide (ar = "") then [] else [ar]) ++ ps.*2) |}.

(** Reports go out one after the other until one fails; the reporters asked. *)
Fixpoint report_loop (ip : option addr) (reason : string) (ps : list (option ReporterProvider)) : list string * result unit :=
  match ps with
  | [] => ([], Ok tt)
  | None :: ps => report_loop ip reason ps
  | Some p :: ps =>
      match rp_Report p ip reason with
      | Err e => ([rp_Name p], Err (rp_Name p +:+ " report failed: " +:+ e))
      | Ok _ => let '(l, r) := report_loop ip reason ps in (rp_Name p :: l, r)
      end
  end.

Definition Report (ip : option addr) (opts : LookupOptions) (reason : string) (s : Service) : list string * result unit :=
  if negb (SpamhausReport opts) then ([], Ok tt) else report_loop ip reason (reporterProviders s).

(** ** Theorems *)

(** *** Keys *)

(** An address without a zone that is not an IPv4-mapped one. *)
Definition plain (a : addr) : Prop :=
  match a with A4 v => 0 <= v < 2 ^ 32 | A6 v z => 0 <= v < 2 ^ 128 /\ z = "" /\ is4in6 a = false end.

Lemma plain_parse a : plain a -> ParseAddr (addr_string a) = Some a.
Proof.
  destruct a as [v|v z]; cbn [plain addr_string]; [by apply NetipText.ParseAddr_v4_string|]. intros (Hv & -> & ->).
  change (zone_suffix "") with "". rewrite str_app_nil. by apply NetipText.ParseAddr_v6_string.
Qed.

Lemma string_app_list s t : String.list_ascii_of_string (s +:+ t) = String.list_ascii_of_string s ++ String.list_ascii_of_string t.
Proof.
  induction s as [|a s IH]; [done|]. change (String a s +:+ t) with (String a (s +:+ t)). cbn [String.list_ascii_of_string app]. by rewrite IH.
Qed.

Lemma string_list_inj s t : String.list_ascii_of_string s = String.list_ascii_of_string t -> s = t.
Proof. intros H. by rewrite <- (String.string_of_list_ascii_of_string s), H, String.string_of_list_ascii_of_string. Qed.

(** The flags are read off the end of a key. *)
Lemma key_flags s s' m m' r r' :
  let t (b : bool) := if b then "true" else "false" in
  s +:+ "|manual=" +:+ t m +:+ "|repcheck=" +:+ t r = s' +:+ "|manual=" +:+ t m' +:+ "|repcheck=" +:+ t r' -> s = s' /\ m = m' /\ r = r'.
Proof.
  intros t H. apply (f_equal (fun x => rev (String.list_ascii_of_string x))) in H. rewrite !string_app_list, !rev_app_distr in H.
  destruct m, m', r, r'; cbn in H; simplify_eq/=; (split; [|done]); apply string_list_inj;
    rewrite <- (rev_involutive (String.list_ascii_of_string s)), <- (rev_involutive (String.list_ascii_of_string s')); by f_equal.
Qed.

Definition flags (o : LookupOptions) : bool * bool := (ManualForensics o, ReputationCheck o).

Lemma cacheKey_inj a b o o' : plain a -> plain b -> cacheKey a o = cacheKey b o' -> a = b /\ flags o = flags o'.
Proof.
  intros Ha Hb H. apply (key_flags _ _ (ManualForensics o) (ManualForensics o') (ReputationCheck o) (ReputationCheck o')) in H as (Hs & Hm & Hr).
  split; [|by unfold flags; rewrite Hm, Hr]. apply (f_equal ParseAddr) in Hs. rewrite !plain_parse in Hs by done. by simplify_eq.
Qed.

(** *** Runs *)
Definition request : Type := Z * addr * LookupOptions.

Fixpoint run (reqs : list request) (s : Service) : list (Summary * list lookup) :=
  match reqs with
  | [] => []
  | (now, a, o) :: reqs =>
      let '(s, ls, r) := EnrichFull now (Some a) o s in
      match r with Ok sum => (sum, ls) :: run reqs s | Err _ => [] end
  end.

Lemma gather_with_cache now a o c s : gather now a o (with_cache c s) = gather now a o s.
Proof. done. Qed.

(** A call that is answered from the cache, or that asks and keeps the answer. *)
Lemma EnrichFull_cases now a o s :
  Enabled (cfg s) = true ->
  (exists e, items (cache s) !! cacheKey a o = Some e /\ now <= expiresAt e /\ EnrichFull now (Some a) o s = (with_cache (cache s) s, [], Ok (set_hit (summary e)))) \/
  (exists c, (forall e, items (cache s) !! cacheKey a o = Some e -> expiresAt e < now) /\ ttl c = ttl (cache s) /\
     (forall k, k <> cacheKey a o -> items c !! k = items (cache s) !! k) /\
     items c !! cacheKey a o = Some {| expiresAt := now + ttl (cache s); summary := (gather now a o s).1 |} /\
     EnrichFull now (Some a) o s = (with_cache c s, (gather now a o s).2, Ok (gather now a o s).1)).
Proof.
  intros Hen. unfold EnrichFull, Get. rewrite Hen. cbn [negb]. destruct (gather now a o s) as [sum ls] eqn:Hg.
  destruct (items (cache s) !! cacheKey a o) as [e|] eqn:He; [destruct (t_after now (expiresAt e)) eqn:Hx; unfold t_after in Hx|].
  - right. rewrite gather_with_cache, Hg. exists (Put now (cacheKey a o) sum {| items := delete (cacheKey a o) (items (cache s)); ttl := ttl (cache s) |}).
    split; [intros ? [= <-]; lia|]. cbn. split; [done|]. split; [|split; [|done]].
    + intros k Hk. by rewrite lookup_insert_ne, lookup_delete_ne by done.
    + by rewrite lookup_insert_eq.
  - left. exists e. split; [done|]. split; [lia|]. done.
  - right. rewrite gather_with_cache, Hg. exists (Put now (cacheKey a o) sum (cache s)). split; [done|]. cbn. split; [done|]. split; [|split; [|done]].
    + intros k Hk. by rewrite lookup_insert_ne by done.
    + by rewrite lookup_insert_eq.
Qed.

Lemma with_cache_same s : with_cache (cache s) s = s.
Proof. by destruct s. Qed.

(** What a cached entry of an address says of its network. *)
Definition honest (s : Service) : Prop :=
  forall a o e, plain a -> items (cache s) !! cacheKey a o = Some e ->
    sum_ASN (summary e) = (if ASNEnabled (cfg s) then lookupASN a s else no_result).

Lemma gather_asn now a o s : sum_ASN (gather now a o s).1 = (if ASNEnabled (cfg s) then lookupASN a s else no_result).
Proof. unfold gather. by destruct (verdicts _ _ _ _). Qed.

Lemma run_asn reqs s :
  Enabled (cfg s) = true -> Forall (fun r : request => plain r.1.2) reqs -> honest s ->
  forall i now a o sum ls, reqs !! i = Some (now, a, o) -> run reqs s !! i = Some (sum, ls) ->
    sum_ASN sum = (if ASNEnabled (cfg s) then lookupASN a s else no_result).
Proof.
  revert s. induction reqs as [|[[t a] o] reqs IH]; intros s Hen Hp Hh i now a' o' sum ls Hi Hr; [done|]. inversion_clear Hp as [|? ? Ha Hp'].
  cbn in Ha. cbn [run] in Hr. destruct (EnrichFull_cases t a o s Hen) as [(e & He & _ & Hf)|(c & _ & _ & Ho & Hk & Hf)]; rewrite Hf in Hr.
  - rewrite with_cache_same in Hr. destruct i as [|i]; cbn in Hi, Hr; [|by eapply IH]. simplify_eq. cbn. by eapply Hh.
  - destruct i as [|i]; cbn in Hi, Hr; [simplify_eq; apply gather_asn|]. refine (IH (with_cache c s) Hen Hp' _ i now a' o' sum ls Hi Hr).
    intros b ob e Hb He. cbn in He. destruct (decide (cacheKey b ob = cacheKey a o)) as [Heq|Hne]; [|rewrite Ho in He by done; by eapply Hh].
    apply cacheKey_inj in Heq as Hab; [|done..]. destruct Hab as [-> _]. rewrite Heq, Hk in He. simplify_eq. cbn [summary]. by rewrite gather_asn.
Qed.

Lemma plain_bytes a : plain a -> drop_zone (unmap a) = a.
Proof. destruct a as [v|v z]; [done|]. cbn [plain]. intros (_ & -> & H4). unfold unmap. by rewrite H4. Qed.

(** An address in a listed network is found, whatever entry matches first. *)
Lemma Lookup_protected entries a e c n :
  plain a -> e ∈ entries -> c ∈ CIDRs e -> ParseCIDR c = Some n -> net_contains n a = true ->
  exists r, Lookup (NewStaticProviderFromRegistry entries) a = Ok r /\ Protected r = true.
Proof.
  intros Ha He Hc Hn Hin. unfold Lookup. rewrite plain_bytes by done. destruct (List.find _ _) as [x|] eqn:Hf; [by eexists|exfalso].
  pose proof (List.find_none _ _ Hf {| net := n; owner := Organization e; kind := re_Kind e |}) as Hx. cbn in Hx. rewrite Hin in Hx.
  enough (true = false) by done. apply Hx, list_elem_of_In, list_elem_of_bind. exists e. split; [|done].
  unfold entry_networks. apply list_elem_of_omap. exists c. split; [done|]. by rewrite Hn.
Qed.

Lemma scoreASN_protected k : exists r, scoreASN k true = (0, true, r).
Proof. unfold scoreASN. repeat case_bool_decide; by eexists. Qed.

(** C29: friendly networks.  However often and for whatever reason an address is
    looked up, cached or not, once it lies in a network of the table its
    assessment forbids a hard ban, whatever the services say of it. *)
Theorem protected_network_spared c dns lookups reporters entries reqs i now a o sum ls :
  Enabled c = true -> ASNEnabled c = true -> Forall (fun r : request => plain r.1.2) reqs ->
  (exists e d n, e ∈ entries /\ d ∈ CIDRs e /\ ParseCIDR d = Some n /\ net_contains n a = true) ->
  reqs !! i = Some (now, a, o) ->
  run reqs (NewService c dns (Some (Lookup (NewStaticProviderFromRegistry entries))) lookups reporters) !! i = Some (sum, ls) ->
  NoHardBan (Assess sum) = true /\ HardBanAllowed (Assess sum) = false.
Proof.
  intros Hen Hasn Hp (e & d & n & He & Hd & Hn & Hin) Hi Hr. assert (plain a) as Ha.
  { rewrite Forall_forall in Hp. apply list_elem_of_lookup_2 in Hi. by apply (Hp _ Hi). }
  eapply run_asn in Hr; [|done|done|intros b ob x _ Hx; cbn in Hx; by rewrite lookup_empty in Hx|exact Hi].
  cbn [NewService cfg ASNEnabled] in Hr. rewrite Hasn in Hr. unfold lookupASN in Hr. cbn [NewService asnProvider] in Hr.
  destruct (Lookup_protected entries a e d n Ha He Hd Hn Hin) as (r & Hl & Hpr). rewrite Hl in Hr. unfold Assess. rewrite Hr, Hpr.
  destruct (scoreASN_protected (Kind r)) as [x ->]. cbn. split; [done|]. by rewrite andb_false_r.
Qed.

Lemma cacheKey_flags a o o' : flags o' = flags o -> cacheKey a o' = cacheKey a o.
Proof. unfold flags, cacheKey. intros [= -> ->]. done. Qed.

(** After a look-up at [t] the entry stays until the time is over. *)
Definition covered (t : Z) (key : string) (now : Z) (s : Service) : Prop :=
  (exists e, items (cache s) !! key = Some e /\ t + ttl (cache s) <= expiresAt e) \/ t + ttl (cache s) < now.

Lemma run_spaced reqs s t a o clock :
  Enabled (cfg s) = true -> covered t (cacheKey a o) clock s -> t <= clock ->
  (forall k r, reqs !! k = Some r -> clock <= r.1.1) -> StronglySorted (fun r r' : request => r.1.1 <= r'.1.1) reqs ->
  forall j now o' sum l ls, reqs !! j = Some (now, a, o') -> flags o' = flags o -> run reqs s !! j = Some (sum, l :: ls) -> t + ttl (cache s) < now.
Proof.
  revert s clock. induction reqs as [|[[t0 a0] o0] reqs IH]; intros s clock Hen Hc Ht Hlo Hs j now o' sum l ls Hj Hfl Hr; [done|].
  pose proof (Hlo 0%nat _ eq_refl) as H0. cbn in H0. apply StronglySorted_inv in Hs as [Hs' Hall]. rewrite Forall_forall in Hall.
  assert (forall k r, reqs !! k = Some r -> t0 <= r.1.1) as Hlo' by (intros k r Hk; eapply (Hall r), list_elem_of_lookup_2, Hk).
  cbn [run] in Hr. destruct (EnrichFull_cases t0 a0 o0 s Hen) as [(e & He & Hx & Hf)|(c & Hx & Httl & Ho & Hk & Hf)]; rewrite Hf in Hr.
  - rewrite with_cache_same in Hr. destruct j as [|j]; [done|]. cbn in Hj, Hr.
    refine (IH s t0 Hen _ ltac:(lia) Hlo' Hs' j now o' sum l ls Hj Hfl Hr). destruct Hc as [Hc|Hc]; [by left|right; lia].
  - destruct j as [|j]; cbn in Hj, Hr.
    + pose proof (cacheKey_flags a o o' Hfl) as Hkk. injection Hj as -> -> ->.
      destruct Hc as [(e & He & Hex)|Hc]; [|lia]. rewrite <- Hkk in He. specialize (Hx e He). lia.
    + rewrite <- Httl. refine (IH (with_cache c s) t0 Hen _ ltac:(lia) Hlo' Hs' j now o' sum l ls Hj Hfl Hr). unfold covered. cbn. rewrite Httl.
      destruct Hc as [(e & He & Hex)|Hc]; [|right; lia]. destruct (decide (cacheKey a o = cacheKey a0 o0)) as [Heq|Hne].
      * right. rewrite Heq in He. specialize (Hx e He). lia.
      * left. exists e. by rewrite Ho.
Qed.

(** sparing the quotas.  While the clock does not go back, two look-ups of
    one address under the same flags, by whatever provider, are more than the
    time to live of the cache apart. *)
Theorem lookups_spaced c dns asn lookups reporters reqs i j ti tj a o o' si sj li lsi lj lsj :
  Enabled c = true -> StronglySorted (fun r r' : request => r.1.1 <= r'.1.1) reqs -> (i < j)%nat ->
  reqs !! i = Some (ti, a, o) -> reqs !! j = Some (tj, a, o') -> flags o' = flags o ->
  let res := run reqs (NewService c dns asn lookups reporters) in
  res !! i = Some (si, li :: lsi) -> res !! j = Some (sj, lj :: lsj) ->
  ti + (if CacheTTL c <=? 0 then 6 * hour else CacheTTL c) < tj.
Proof.
  intros Hen Hs Hij Hi Hj Hfl res Hri Hrj. set (s := NewService c dns asn lookups reporters) in *. set (d := if _ <=? _ then _ else _).
  assert (ttl (cache s) = d) as Hd.
  { subst s d. cbn. destruct (Z.leb_spec (CacheTTL c) 0); [done|]. by destruct (Z.leb_spec (CacheTTL c) 0); [lia|]. }
  assert (Enabled (cfg s) = true) as Hens by done. clearbody s d. subst res. rewrite <- Hd. clear Hd Hen.
  revert s i j Hens Hs Hij Hi Hj Hri Hrj. induction reqs as [|[[t0 a0] o0] reqs IH]; intros s i j Hen Hs Hij Hi Hj Hri Hrj; [done|].
  apply StronglySorted_inv in Hs as [Hs' Hall]. rewrite Forall_forall in Hall. destruct j as [|j]; [lia|]. cbn in Hj. cbn [run] in Hri, Hrj.
  destruct (EnrichFull_cases t0 a0 o0 s Hen) as [(e & He & Hx & Hf)|(c0 & Hx & Httl & Ho & Hk & Hf)]; rewrite Hf in Hri, Hrj.
  - rewrite with_cache_same in Hri, Hrj. destruct i as [|i]; [done|]. cbn in Hi, Hri, Hrj. eapply (IH s i j); eauto with lia.
  - rewrite <- Httl. destruct i as [|i]; cbn in Hi, Hri, Hrj.
    + injection Hi as -> -> ->. refine (run_spaced reqs (with_cache c0 s) ti a o ti Hen _ ltac:(lia) _ Hs' j tj o' sj lj lsj Hj Hfl Hrj).
      * left. eexists. split; [exact Hk|]. cbn. lia.
      * intros k r Hk'. eapply (Hall r), list_elem_of_lookup_2, Hk'.
    + refine (IH (with_cache c0 s) i j Hen Hs' ltac:(lia) Hi Hj Hri Hrj).
Qed.

(** *** Hard bans *)
Definition manual_verdicts (s : Summary) : Z := Z.of_nat (length (List.filter v_Manual (es_Providers (base s)))).
Definition other_verdicts (s : Summary) : Z := Z.of_nat (length (List.filter (fun v => negb (v_Manual v)) (es_Providers (base s)))).

Lemma total_filter (l : list (Z * string)) : total ((List.filter (fun d => negb (d.1 =? 0)) l).*1) = total (l.*1).
Proof. unfold total. induction l as [|[z x] l IH]; [done|]. cbn. destruct (Z.eqb_spec z 0) as [->|]; cbn; by rewrite IH. Qed.

Lemma scoreProvider_bound v : (scoreProvider v).1 <= if v_Manual v then 10 else 3.
Proof.
  unfold scoreProvider. destruct (Z.leb_spec (v_Score v) 0); [cbn; by destruct (v_Manual v)|]. destruct (v_Manual v); cbn.
  - destruct (Z.ltb_spec 10 (v_Score v)); lia.
  - repeat case_match; cbn; lia.
Qed.

Lemma total_bound s : total ((provider_scores (es_Providers (base s))).*1) <= 10 * manual_verdicts s + 3 * other_verdicts s.
Proof.
  unfold provider_scores, manual_verdicts, other_verdicts. rewrite total_filter. induction (es_Providers (base s)) as [|v vs IH]; [done|].
  unfold total in *. cbn. pose proof (scoreProvider_bound v). destruct (v_Manual v); cbn [negb length]; lia.
Qed.

(** external signal alone cannot hard-ban.  An assessment allows a hard ban
    only with a local signal, outside the protected networks, and with a score
    that needs five services at least: ten points from each one asked on
    request, three from any other. *)
Theorem hard_ban_needs s :
  HardBanAllowed (Assess s) = true ->
  0 < es_LocalSignalScore (base s) /\ Protected (sum_ASN s) = false /\ 48 <= 10 * manual_verdicts s + 3 * other_verdicts s /\
  (5 <= length (es_Providers (base s)))%nat.
Proof.
  unfold Assess. destruct (scoreASN _ _) as [[ad nhb] ar] eqn:Ha. cbn. rewrite !andb_true_iff, negb_true_iff. intros (((_ & Hl) & Hn) & Hs).
  pose proof (total_bound s) as Ht. assert (ad <= 2 /\ Protected (sum_ASN s) = false) as [Had Hp].
  { unfold scoreASN in Ha. repeat case_match; simplify_eq; split; done || lia. }
  assert ((scoreDNS (Confirmed (DNS s)) (TrustedBot (DNS s))).1 <= 0) by (unfold scoreDNS; by case_match).
  split; [lia|]. split; [done|]. assert (48 <= 10 * manual_verdicts s + 3 * other_verdicts s) as H48 by lia. split; [done|].
  pose proof (List.filter_length v_Manual (es_Providers (base s))) as Hlen. unfold manual_verdicts, other_verdicts in H48. lia.
Qed.

(** *** Examples *)
Definition demo_config (asn : bool) : Config :=
  {| Enabled := true; DNSEnabled := false; ASNEnabled := asn; Timeout := 0; CacheTTL := 0; TrustedSuffixes := [] |}.

Definition service_saying (name : string) (score : Z) : LookupProvider :=
  {| lp_Name := name; lp_Mode := LookupModeManual;
     lp_Lookup := fun _ _ => Ok {| v_Provider := name; v_Mode := ""; v_Score := score; v_Manual := false; v_Note := "" |} |}.

Definition asking (local : Z) : LookupOptions :=
  {| ManualForensics := true; SpamhausReport := false; ReputationCheck := false; lo_LocalSignalScore := local |}.

Definition crawler : addr := A4 (66 * 2 ^ 24 + 249 * 2 ^ 16 + 64 * 2 ^ 8 + 1).

Definition demo_service : Service :=
  NewService (demo_config true) None None (replicate 5 (Some (service_saying "abuseipdb" 100))) [].

Definition google_entry : RegistryEntry :=
  {| Organization := "google"; re_Kind := KindSearchBot; CIDRs := ["66.249.64.0/19"; "2001:4860::/32"]; SourceURL := ""; LastVerified := ""; Notes := "" |}.

Lemma protected_network_spared_witness :
  exists sum ls,
    run [(1, crawler, asking 9)]
      (NewService (demo_config true) None (Some (Lookup (NewStaticProviderFromRegistry [google_entry]))) (replicate 5 (Some (service_saying "abuseipdb" 100))) [])
      !! 0%nat = Some (sum, ls) /\
    NoHardBan (Assess sum) = true /\ HardBanAllowed (Assess sum) = false.
Proof.
  destruct (run [(1, crawler, asking 9)]
      (NewService (demo_config true) None (Some (Lookup (NewStaticProviderFromRegistry [google_entry]))) (replicate 5 (Some (service_saying "abuseipdb" 100))) [])
      !! 0%nat) as [[sum ls]|] eqn:Hr; [|vm_compute in Hr; discriminate Hr].
  exists sum, ls. split; [reflexivity|].
  apply (protected_network_spared (demo_config true) None (replicate 5 (Some (service_saying "abuseipdb" 100))) [] [google_entry]
           [(1, crawler, asking 9)] 0 1 crawler (asking 9) sum ls).
  - reflexivity.
  - reflexivity.
  - apply List.Forall_cons; [|apply List.Forall_nil]. vm_compute. split; [intros H; discriminate H|reflexivity].
  - exists google_entry, "66.249.64.0/19". eexists. split; [left|]. split; [left|]. split; [vm_compute; reflexivity|vm_compute; reflexivity].
  - reflexivity.
  - exact Hr.
Defined.

Lemma hard_ban_needs_witness :
  exists sum, (5 <= length (es_Providers (base sum)))%nat.
Proof.
  exists (gather 1 (A4 1) (asking 9) demo_service).1.
  apply (hard_ban_needs (gather 1 (A4 1) (asking 9) demo_service).1). vm_compute. reflexivity.
Defined.

Lemma lookups_spaced_witness :
  1 + 6 * hour < 7 * hour + 1.
Proof.
    destruct (run [(1, crawler, asking 9); (hour, crawler, asking 9); (7 * hour + 1, crawler, asking 9)]
      (NewService (demo_config true) None None (replicate 5 (Some (service_saying "abuseipdb" 100))) []) !! 0%nat) as [[s0 [|l0 ls0]]|] eqn:H0; [vm_compute in H0; discriminate H0| |vm_compute in H0; discriminate H0].
  destruct (run [(1, crawler, asking 9); (hour, crawler, asking 9); (7 * hour + 1, crawler, asking 9)]
      (NewService (demo_config true) None None (replicate 5 (Some (service_saying "abuseipdb" 100))) []) !! 2%nat) as [[s2 [|l2 ls2]]|] eqn:H2; [vm_compute in H2; discriminate H2| |vm_compute in H2; discriminate H2].
  apply (lookups_spaced (demo_config true) None None (replicate 5 (Some (service_saying "abuseipdb" 100))) []
           [(1, crawler, asking 9); (hour, crawler, asking 9); (7 * hour + 1, crawler, asking 9)] 0 2 1 (7 * hour + 1) crawler (asking 9) (asking 9) s0 s2 l0 ls0 l2 ls2).
  - reflexivity.
  - repeat constructor; vm_compute; discriminate.
  - repeat constructor.
  - reflexivity.
  - reflexivity.
  - reflexivity.
  - exact H0.
  - exact H2.
Defined.

(** Every network of the table is read. *)
Example registry_loads : length NewStaticProvider = length (List.concat (CIDRs <$> DefaultRegistry)).
Proof. by vm_compute. Qed.

(** A range of an AI crawler lies in one listed before it for another owner. *)
Example shadowed_range :
  (fun a => (Org <$> (match Lookup NewStaticProvider a with Ok r => Some r | Err _ => None end))) <$> ParseAddr "40.90.214.16" = Some (Some "microsoft").
Proof. by vm_compute. Qed.

(** The local signal of a call that hits the cache is that of the first. *)
Example stale_local_signal :
  let s := NewService (demo_config false) None None (replicate 5 (Some (service_saying "abuseipdb" 100))) [] in
  (fun r => HardBanAllowed (Assess r.1)) <$> run [(1, crawler, asking 0); (2, crawler, asking 9)] s = [false; false] /\
  (fun r => HardBanAllowed (Assess r.1)) <$> run [(1, crawler, asking 9); (2, crawler, asking 0)] s = [true; true].
Proof. by vm_compute. Qed.

End EnrichService.
