(* ===== verification/Poller.v ===== *)
(** * CrowdSec poller

    [internal/crowdsec/poller]: decisions and alerts of CrowdSec are copied to
    a log of JSON lines, each identifier once.  The log is modelled by what its
    lines decode to and by whether they are too long to be read again; what the
    local API and [cscli] answer is the input of a tick, and how each write to
    the disk ends comes from a list of outcomes.  A process that is started
    again rebuilds its memory from the log, when it can read it. *)

From S2P Require Import Prelude GoFmt Sha256 Events Snapshot.

Local Open Scope Z_scope.

Module Poller.
Import Json Snapshot.

(** ** Data ([lapi.go], [writer.go]) *)
Record LAPIDecision := {
  d_ID : Z; d_Value : string; d_Type : string; d_Scenario : string; d_Duration : string; d_Origin : string; d_Scope : string; d_Simulated : bool;
}.

Record alertSource := { src_IP : string; Country : string; ASNumber : Z; ASName : string; Range : string }.
Definition alertEvent : Type := list (string * string).

(** Of its decisions only the number is read. *)
Record LAPIAlert := {
  a_ID : Z; a_Scenario : string; a_Message : string; CreatedAt : string; Source : alertSource; Decisions : list unit; Events : list alertEvent;
}.

Record wafMatch := {
  RuleID : string; Message : string; Category : string; URI : string; MatchedZones : string; Data : string; TargetFQDN : string;
}.

Record decisionFields := {
  EventType : string; ID : Z; IP : string; Type_ : string; Scenario : string; Duration : string; Origin : string; Scope : string;
  Simulated : bool; Action : string; HasDecision : bool; WAF : option wafMatch;
}.
Record DecisionRecord := { DT : string; Host : string; Platform : string; CS : decisionFields }.

Definition hasDecision (a : LAPIAlert) : bool := bool_decide (0 < length (Decisions a))%nat.

(** The first value under a key, in the order of the events. *)
Definition metaLookup (key : string) (a : LAPIAlert) : string :=
  match List.find (fun kv => bool_decide (kv.1 = key)) (List.concat (Events a)) with Some kv => kv.2 | None => "" end.

(** The last value under a key wins. *)
Definition metaOf (ev : alertEvent) : gmap string string := foldl (fun m kv => <[kv.1 := kv.2]> m) ∅ ev.

Definition categorizeWAFRule (ruleName : string) : string :=
  let p := "native_rule:" in
  let id := if has_prefix p ruleName then drop_bytes (String.length p) ruleName else ruleName in
  if has_prefix "942" id then "sqli" else if has_prefix "94" id then "xss"
  else if has_prefix "932" id || has_prefix "933" id then "rce" else if has_prefix "930" id then "traversal"
  else if has_prefix "913" id then "scanner" else "waf".

Definition match_of (ev : alertEvent) : wafMatch :=
  let m k := default "" (metaOf ev !! k) in
  {| RuleID := m "rule_name"; Message := m "message"; Category := categorizeWAFRule (m "rule_name"); URI := m "uri";
     MatchedZones := m "matched_zones"; Data := m "data"; TargetFQDN := m "target_fqdn" |}.

Fixpoint waf_loop (fallback : option wafMatch) (l : list alertEvent) : option wafMatch :=
  match l with
  | [] => fallback
  | ev :: l =>
      let m := match_of ev in
      if bool_decide (RuleID m = "") then waf_loop fallback l
      else
        let fallback := match fallback with Some f => Some f | None => Some m end in
        if negb (bool_decide (Data m = "")) then Some m else waf_loop fallback l
  end.
Definition primaryWAFMatch (a : LAPIAlert) : option wafMatch := waf_loop None (Events a).

(** ** Log ([writer.go]) *)

Definition omit_true (k : string) (b : bool) : list (string * string) := if b then [(k, "true")] else [].

Definition waf_text (m : wafMatch) : string :=
  struct_text (omit_empty "rule_id" (RuleID m) ++ omit_empty "message" (Message m) ++ omit_empty "category" (Category m) ++
    omit_empty "uri" (URI m) ++ omit_empty "matched_zones" (MatchedZones m) ++ omit_empty "data" (Data m) ++
    omit_empty "target_fqdn" (TargetFQDN m)).

Definition fields_text (c : decisionFields) : string :=
  struct_text ([("event_type", text_string (EventType c)); ("id", GoFmt.fmt_d (ID c)); ("ip", text_string (IP c))] ++
    omit_empty "type" (Type_ c) ++ [("scenario", text_string (Scenario c))] ++ omit_empty "duration" (Duration c) ++
    omit_empty "origin" (Origin c) ++ omit_empty "scope" (Scope c) ++ omit_true "simulated" (Simulated c) ++
    omit_empty "action" (Action c) ++ omit_true "has_decision" (HasDecision c) ++
    match WAF c with Some m => [("waf", waf_text m)] | None => [] end).

(** The text of a record. *)
Definition record_text (r : DecisionRecord) : string :=
  struct_text [("dt", text_string (DT r)); ("host", text_string (Host r)); ("platform", text_string (Platform r));
               ("cs", fields_text (CS r))].

(** A line with its record, if it is the text of one: it can be read, or is
    over the limit of the reader, whose buffer holds a megabyte with the end
    of the line.  A line that is made of fragments does not decode. *)
Inductive line := Rec (r : DecisionRecord) | Garbage | Oversized (r : option DecisionRecord).

Definition line_of (r : option DecisionRecord) (bytes : N) : line :=
  if (1048576 <=? bytes)%N then Oversized r else match r with Some r => Rec r | None => Garbage end.

(** How a write ends: in full, with nothing of it in the file, or with its
    first bytes and no end of line. *)
Inductive outcome := WriteOK | WriteFailed (e : string) | WriteTorn (bytes : N) (e : string).

(** The lines with an end, and the length of what comes after the last end of
    line, with its record when it is the whole text of one. *)
Record World := { log : list line; torn : N; torn_record : option DecisionRecord; disk : list outcome }.

(** What a reader finds. *)
Definition lines (w : World) : list line :=
  log w ++ if (torn w =? 0)%N then [] else [line_of (torn_record w) (torn w)].

Definition write (r : DecisionRecord) (w : World) : World * result unit :=
  let rest := List.tl (disk w) in
  let size := N.of_nat (String.length (record_text r)) in
  let own := if (torn w =? 0)%N then Some r else None in
  match default WriteOK (head (disk w)) with
  | WriteOK => ({| log := log w ++ [line_of own (torn w + size)]; torn := 0; torn_record := None; disk := rest |}, Ok tt)
  | WriteFailed e => ({| log := log w; torn := torn w; torn_record := torn_record w; disk := rest |}, Err e)
  | WriteTorn k e =>
      if (k =? 0)%N then ({| log := log w; torn := torn w; torn_record := torn_record w; disk := rest |}, Err e)
      else ({| log := log w; torn := torn w + N.min k size;
               torn_record := if (size <=? k)%N then own else None; disk := rest |}, Err e)
  end.

(** The identifiers of one kind that a reader finds, in order. *)
Definition id_of (kind : string) (l : line) : option Z :=
  match l with Rec r => if bool_decide (EventType (CS r) = kind) then Some (ID (CS r)) else None | _ => None end.
Definition ids (kind : string) (l : list line) : list Z := omap (id_of kind) l.

Definition too_long (l : line) : bool := match l with Oversized _ => true | _ => false end.

(** The file may fail to open (one that does not exist is empty) or to be
    read, and the scan stops at a line that is too long. *)
Definition loadSeenIDs (io : option string) (l : list line) : result (gset Z * gset Z) :=
  match io with
  | Some e => Err e
  | None => if existsb too_long l then Err "bufio.Scanner: token too long"
            else Ok (list_to_set (ids "decision" l), list_to_set (ids "alert" l))
  end.

(** ** Poller ([poller.go]) *)
Record Config := { LAPIURL : string; LAPIKey : string; Interval : Z; Enabled : bool; LogPath : string; CscliBin : string; Timeout : Z }.

Definition setDefaults (c : Config) : Config :=
  let str s d := if bool_decide (s = "") then d else s in
  {| LAPIURL := str (LAPIURL c) "http://127.0.0.1:8080"; LAPIKey := LAPIKey c; Interval := if Interval c <=? 0 then 30 * second else Interval c;
     Enabled := Enabled c; LogPath := str (LogPath c) "/var/log/crowdsec/decisions.log"; CscliBin := str (CscliBin c) "cscli";
     Timeout := if Timeout c <=? 0 then 15 * second else Timeout c |}.

Record Metrics := { PollSuccessTotal : Z; PollErrorTotal : Z; DecisionsWritten : Z; LastSuccessUnixSec : Z; LastErrorUnixSec : Z }.

Record Poller := { cfg : Config; host : string; metrics : Metrics; seenDecisions : gset Z; seenAlerts : gset Z }.

Definition New (c : Config) (hostname : string) : option Poller :=
  if negb (Enabled c) then None
  else Some {| cfg := setDefaults c; host := hostname;
               metrics := {| PollSuccessTotal := 0; PollErrorTotal := 0; DecisionsWritten := 0; LastSuccessUnixSec := 0; LastErrorUnixSec := 0 |};
               seenDecisions := ∅; seenAlerts := ∅ |}.

Definition set_seen (d a : gset Z) (p : Poller) : Poller :=
  {| cfg := cfg p; host := host p; metrics := metrics p; seenDecisions := d; seenAlerts := a |}.
Definition set_metrics (m : Metrics) (p : Poller) : Poller :=
  {| cfg := cfg p; host := host p; metrics := m; seenDecisions := seenDecisions p; seenAlerts := seenAlerts p |}.
Definition count_written (p : Poller) : Poller :=
  let m := metrics p in
  set_metrics {| PollSuccessTotal := PollSuccessTotal m; PollErrorTotal := PollErrorTotal m; DecisionsWritten := wrap64 (DecisionsWritten m + 1);
                 LastSuccessUnixSec := LastSuccessUnixSec m; LastErrorUnixSec := LastErrorUnixSec m |} p.

(** On an error the memory is left as it is. *)
Definition preload (io : option string) (w : World) (p : Poller) : Poller :=
  match loadSeenIDs io (lines w) with Ok (d, a) => set_seen d a p | Err _ => p end.

Definition nowISO (now : Z) : string := GoFmt.format_rfc3339 now.
Definition orDefault (v d : string) : string := if bool_decide (v = "") then d else v.

Definition decision_record (now : Z) (p : Poller) (d : LAPIDecision) : DecisionRecord :=
  {| DT := nowISO now; Host := host p; Platform := "CrowdSec";
     CS := {| EventType := "decision"; ID := d_ID d; IP := orDefault (d_Value d) "unknown"; Type_ := orDefault (d_Type d) "unknown";
              Scenario := orDefault (d_Scenario d) "unknown"; Duration := orDefault (d_Duration d) "unknown"; Origin := orDefault (d_Origin d) "unknown";
              Scope := orDefault (d_Scope d) "unknown"; Simulated := d_Simulated d; Action := ""; HasDecision := false; WAF := None |} |}.

Definition alert_ip (a : LAPIAlert) : string :=
  let ip := orDefault (src_IP (Source a)) "unknown" in
  if bool_decide (ip = "unknown") then let v := metaLookup "source_ip" a in if bool_decide (v = "") then ip else v else ip.

Definition alert_record (now : Z) (p : Poller) (a : LAPIAlert) : DecisionRecord :=
  {| DT := orDefault (CreatedAt a) (nowISO now); Host := host p; Platform := "CrowdSec";
     CS := {| EventType := "alert"; ID := a_ID a; IP := alert_ip a; Type_ := ""; Scenario := orDefault (a_Scenario a) "unknown"; Duration := "";
              Origin := ""; Scope := ""; Simulated := false; Action := if hasDecision a then "banned" else "detected";
              HasDecision := hasDecision a; WAF := primaryWAFMatch a |} |}.

(** The loop over the decisions, with the number written so far. *)
Fixpoint decisions_loop (now : Z) (l : list LAPIDecision) (count : Z) (p : Poller) (w : World) : Poller * World * Z * result unit :=
  match l with
  | [] => (p, w, count, Ok tt)
  | d :: l =>
      if decide (d_ID d ∈ seenDecisions p) then decisions_loop now l count p w
      else
        let p := set_seen ({[d_ID d]} ∪ seenDecisions p) (seenAlerts p) p in
        let '(w, r) := write (decision_record now p d) w in
        match r with
        | Err e => (p, w, count, Err ("write decision " +:+ GoFmt.fmt_d (d_ID d) +:+ ": " +:+ e))
        | Ok _ => decisions_loop now l (count + 1) (count_written p) w
        end
  end.

Definition processDecisions (now : Z) (fetched : result (list LAPIDecision)) (p : Poller) (w : World) : Poller * World * Z * result unit :=
  match fetched with Err e => (p, w, 0, Err e) | Ok l => decisions_loop now l 0 p w end.

Fixpoint alerts_loop (now : Z) (l : list LAPIAlert) (count : Z) (p : Poller) (w : World) : Poller * World * Z * result unit :=
  match l with
  | [] => (p, w, count, Ok tt)
  | a :: l =>
      if decide (a_ID a ∈ seenAlerts p) then alerts_loop now l count p w
      else
        let p := set_seen (seenDecisions p) ({[a_ID a]} ∪ seenAlerts p) p in
        let '(w, r) := write (alert_record now p a) w in
        match r with
        | Err e => (p, w, count, Err ("write alert " +:+ GoFmt.fmt_d (a_ID a) +:+ ": " +:+ e))
        | Ok _ => alerts_loop now l (count + 1) (count_written p) w
        end
  end.

Definition processAlerts (now : Z) (listed : result (list LAPIAlert)) (p : Poller) (w : World) : Poller * World * Z * result unit :=
  match listed with Err e => (p, w, 0, Err e) | Ok l => alerts_loop now l 0 p w end.

Definition poll (now : Z) (fetched : result (list LAPIDecision)) (listed : result (list LAPIAlert)) (p : Poller) (w : World)
    : Poller * World * result (Z * Z) :=
  let '(p, w, nd, errD) := processDecisions now fetched p w in
  let '(p, w, na, errA) := processAlerts now listed p w in
  (p, w, match errD, errA with
         | Err d, Err a => Err ("decisions: " +:+ d +:+ "; alerts: " +:+ a)
         | Err d, Ok _ => Err ("decisions: " +:+ d)
         | Ok _, Err a => Err ("alerts: " +:+ a)
         | Ok _, Ok _ => Ok (nd, na)
         end).

Definition tick (now : Z) (fetched : result (list LAPIDecision)) (listed : result (list LAPIAlert)) (p : Poller) (w : World) : Poller * World :=
  let '(p, w, r) := poll now fetched listed p w in
  let m := metrics p in
  match r with
  | Err _ => (set_metrics {| PollSuccessTotal := PollSuccessTotal m; PollErrorTotal := wrap64 (PollErrorTotal m + 1); DecisionsWritten := DecisionsWritten m;
                             LastSuccessUnixSec := LastSuccessUnixSec m; LastErrorUnixSec := unix_seconds now |} p, w)
  | Ok _ => (set_metrics {| PollSuccessTotal := wrap64 (PollSuccessTotal m + 1); PollErrorTotal := PollErrorTotal m; DecisionsWritten := DecisionsWritten m;
                            LastSuccessUnixSec := unix_seconds now; LastErrorUnixSec := LastErrorUnixSec m |} p, w)
  end.

(** What the loop of [Run] goes through until it is stopped: the ticks; [io] is
    an error of the preload's reading. *)
Record ticked := { at_ : Z; fetched : result (list LAPIDecision); listed : result (list LAPIAlert) }.

Definition tick_with (pw : Poller * World) (t : ticked) : Poller * World := tick (at_ t) (fetched t) (listed t) pw.1 pw.2.

Definition Run (io : option string) (ticks : list ticked) (p : Poller) (w : World) : World * result unit :=
  if bool_decide (LAPIKey (cfg p) = "")
  then (w, Err "crowdsec lapi key is not configured — set it via the UI Settings panel or first-run wizard")
  else ((foldl tick_with (preload io w p, w) ticks).2, Ok tt).

(** ** Theorems *)

(** *** Both loops are one *)
Fixpoint copy (l : list DecisionRecord) (seen : gset Z) (w : World) : gset Z * World * bool :=
  match l with
  | [] => (seen, w, true)
  | r :: l =>
      if decide (ID (CS r) ∈ seen) then copy l seen w
      else
        let '(w, res) := write r w in
        match res with Err _ => ({[ID (CS r)]} ∪ seen, w, false) | Ok _ => copy l ({[ID (CS r)]} ∪ seen) w end
  end.

Lemma decisions_loop_copy now l count p w :
  let '(p', w', _, r) := decisions_loop now l count p w in
  let '(seen, w1, ok) := copy (decision_record now p <$> l) (seenDecisions p) w in
  seenDecisions p' = seen /\ seenAlerts p' = seenAlerts p /\ cfg p' = cfg p /\ host p' = host p /\ w' = w1 /\ is_ok r = ok.
Proof.
  revert count p w. induction l as [|d l IH]; intros count p w; [done|]. cbn [decisions_loop copy fmap list_fmap].
  change (ID (CS (decision_record now p d))) with (d_ID d). destruct (decide _); [apply IH|].
  change (decision_record now (set_seen _ _ p) d) with (decision_record now p d). destruct (write _ w) as [w1 [u|e]]; [|done].
  specialize (IH (count + 1) (count_written (set_seen ({[d_ID d]} ∪ seenDecisions p) (seenAlerts p) p)) w1). exact IH.
Qed.

Lemma alerts_loop_copy now l count p w :
  let '(p', w', _, r) := alerts_loop now l count p w in
  let '(seen, w1, ok) := copy (alert_record now p <$> l) (seenAlerts p) w in
  seenAlerts p' = seen /\ seenDecisions p' = seenDecisions p /\ cfg p' = cfg p /\ host p' = host p /\ w' = w1 /\ is_ok r = ok.
Proof.
  revert count p w. induction l as [|a l IH]; intros count p w; [done|]. cbn [alerts_loop copy fmap list_fmap].
  change (ID (CS (alert_record now p a))) with (a_ID a). destruct (decide _); [apply IH|].
  change (alert_record now (set_seen _ _ p) a) with (alert_record now p a). destruct (write _ w) as [w1 [u|e]]; [|done].
  specialize (IH (count + 1) (count_written (set_seen (seenDecisions p) ({[a_ID a]} ∪ seenAlerts p) p)) w1). exact IH.
Qed.

(** *** The log *)

(** The identifiers of one kind whose records are in the log, whether they can
    be read again or not. *)
Definition record_of (l : line) : option DecisionRecord :=
  match l with Rec r => Some r | Garbage => None | Oversized r => r end.
Definition own_id (kind : string) (r : DecisionRecord) : option Z :=
  if bool_decide (EventType (CS r) = kind) then Some (ID (CS r)) else None.
Definition written (kind : string) (l : list line) : list Z := omap (fun x => r ← record_of x; own_id kind r) l.

Definition readable (l : list line) : Prop := existsb too_long l = false.

(** How often a record is in the log. *)
Definition copies (kind : string) (i : Z) (w : World) : nat := count_occ Z.eq_dec (written kind (lines w)) i.

Lemma written_app kind l l' : written kind (l ++ l') = written kind l ++ written kind l'.
Proof. apply omap_app. Qed.

Lemma record_line_of r n : record_of (line_of r n) = r.
Proof. unfold line_of. by destruct (_ <=? n)%N, r. Qed.

Lemma written_line kind r n : written kind [line_of r n] = match r ≫= own_id kind with Some i => [i] | None => [] end.
Proof. unfold written. cbn [omap list_omap]. by rewrite record_line_of. Qed.

Lemma written_readable kind l : readable l -> written kind l = ids kind l.
Proof.
  unfold readable, written, ids. induction l as [|x l IH]; [done|]. cbn [existsb omap list_omap].
  intros [Hx Hl]%orb_false_iff. rewrite (IH Hl). by destruct x.
Qed.

(** The identifiers of the log, and the one of the unfinished line. *)
Lemma written_lines kind w : written kind (lines w) =
  written kind (log w) ++ if (torn w =? 0)%N then [] else match torn_record w ≫= own_id kind with Some i => [i] | None => [] end.
Proof. unfold lines. rewrite written_app. by destruct (torn w =? 0)%N; [|rewrite written_line]. Qed.

Lemma lines_long w : existsb too_long (lines w) = existsb too_long (log w) || (1048576 <=? torn w)%N.
Proof.
  unfold lines. rewrite existsb_app. f_equal. destruct (N.eqb_spec (torn w) 0) as [->|Hn]; [done|].
  cbn. rewrite orb_false_r. unfold line_of. by destruct (1048576 <=? torn w)%N, (torn_record w).
Qed.

(** The disk takes every write, and no line is open. *)
Definition fine (w : World) : Prop := disk w = [] /\ torn w = 0%N.

(** A write leaves at most its own record, in full on a disk that works, and
    keeps what is too long too long. *)
Lemma write_spec r w : let '(w', res) := write r w in
  log w `prefix_of` log w' /\
  (readable (lines w') -> readable (lines w)) /\
  (forall kind i, (copies kind i w' <= copies kind i w + if bool_decide (own_id kind r = Some i) then 1 else 0)%nat) /\
  (fine w -> fine w' /\ res = Ok tt /\
     forall kind, written kind (lines w') = written kind (lines w) ++ match own_id kind r with Some i => [i] | None => [] end).
Proof.
  unfold readable. unfold write. set (size := N.of_nat _). set (own := if (torn w =? 0)%N then Some r else None).
  assert (Hlog : forall kind i, (count_occ Z.eq_dec (written kind (log w)) i <= copies kind i w)%nat)
    by (intros kind i; unfold copies; rewrite written_lines, count_occ_app; lia).
  assert (Hown : forall kind i, (count_occ Z.eq_dec (match own ≫= own_id kind with Some i => [i] | None => [] end) i
                                 <= if bool_decide (own_id kind r = Some i) then 1 else 0)%nat).
  { intros kind i. unfold own. destruct (torn w =? 0)%N; [|cbn; lia]. cbn. destruct (own_id kind r) as [j|]; [|cbn; lia].
    cbn. destruct (Z.eq_dec j i) as [->|Hne]; [by rewrite bool_decide_true|lia]. }
  assert (Hsame : forall rest, let w' := {| log := log w; torn := torn w; torn_record := torn_record w; disk := rest |} in
    lines w' = lines w) by done.
  destruct (disk w) as [|[|e|k e] rest] eqn:Ed; cbn [head hd_error from_option id List.tl tl].
  1, 2: split; [by eexists|]; split;
    [rewrite !lines_long; cbn [log torn]; rewrite existsb_app, orb_false_r; cbn; unfold line_of;
     intros [-> Hb]%orb_false_iff; rewrite orb_false_r in Hb; destruct (N.leb_spec 1048576 (torn w + size)); [by destruct own|];
     cbn; apply N.leb_gt; lia|]; split;
    [intros kind i; unfold copies at 1; rewrite written_lines; cbn [log torn]; rewrite app_nil_r, written_app, count_occ_app, written_line;
     specialize (Hlog kind i); specialize (Hown kind i); lia|].
  - intros [_ Ht]. split; [done|]. split; [done|]. intros kind. rewrite !written_lines. cbn [log torn].
    by rewrite !app_nil_r, written_app, written_line, Ht; unfold own; rewrite Ht; cbn; rewrite app_nil_r.
  - intros [Hd _]. congruence.
  - split; [done|]. split; [by rewrite Hsame|]. split; [|intros [Hd _]; congruence].
    intros kind i. unfold copies. rewrite Hsame. lia.
  - destruct (N.eqb_spec k 0) as [->|Hk].
    { split; [done|]. split; [by rewrite Hsame|]. split; [|intros [Hd _]; congruence].
      intros kind i. unfold copies. rewrite Hsame. lia. }
    split; [done|]. split; [|split; [|intros [Hd _]; congruence]].
    + rewrite !lines_long. cbn [log torn]. intros [-> Hb]%orb_false_iff. cbn. apply N.leb_gt. apply N.leb_gt in Hb. lia.
    + intros kind i. unfold copies at 1. rewrite written_lines, count_occ_app. cbn [log torn torn_record].
      specialize (Hlog kind i). specialize (Hown kind i).
      destruct (torn w + _ =? 0)%N; [cbn; lia|]. destruct (size <=? k)%N; [lia|cbn; lia].
Qed.

(** No record is there more than [m] times, and those that are not remembered
    can still be written. *)
Definition below (kind : string) (m : nat) (seen : gset Z) (w : World) : Prop :=
  forall i, (copies kind i w <= m)%nat /\ (i ∉ seen -> (copies kind i w < m)%nat).

(** What one world owes to another before it. *)
Definition grows (w w' : World) : Prop := log w `prefix_of` log w' /\ (readable (lines w') -> readable (lines w)).

Lemma grows_trans w1 w2 w3 : grows w1 w2 -> grows w2 w3 -> grows w1 w3.
Proof. intros [H1 H2] [H3 H4]. split; [by etrans|auto]. Qed.

Lemma own_id_other kind kind' r : kind <> kind' -> EventType (CS r) = kind -> own_id kind' r = None.
Proof. intros Hk Hr. unfold own_id. rewrite bool_decide_false; congruence. Qed.

Lemma copy_spec kind kind' m l seen w :
  kind <> kind' -> Forall (fun r => EventType (CS r) = kind) l -> below kind m seen w ->
  let '(seen', w', ok) := copy l seen w in
  below kind m seen' w' /\ (forall i, copies kind' i w' <= copies kind' i w)%nat /\ grows w w' /\
  (fine w -> (forall i, i ∈ seen -> i ∈ written kind (lines w)) ->
     fine w' /\ ok = true /\ written kind' (lines w') = written kind' (lines w) /\
     (exists k, written kind (lines w') = written kind (lines w) ++ k) /\
     (forall i, i ∈ seen' -> i ∈ written kind (lines w')) /\ forall r, r ∈ l -> ID (CS r) ∈ written kind (lines w')).
Proof.
  intros Hk. revert seen w. induction l as [|r l IH]; intros seen w Hl Hb; cbn [copy].
  { split; [done|]. split; [done|]. split; [by split|]. intros Hf Hsub. repeat (split; [done|]).
    split; [exists []; by rewrite app_nil_r|]. split; [done|]. by intros r ?%elem_of_nil. }
  apply Forall_cons in Hl as [Hr Hl]. destruct (decide (ID (CS r) ∈ seen)) as [Hin|Hni].
  { specialize (IH seen w Hl Hb). destruct (copy l seen w) as [[seen' w'] ok]. destruct IH as (H1 & H2 & H3 & H4).
    repeat (split; [done|]). intros Hf Hsub. destruct (H4 Hf Hsub) as (Hf' & Hok & Hk' & Hpre & Hi & Hall). repeat (split; [done|]).
    intros x [->|Hx]%elem_of_cons; [|by apply Hall]. destruct Hpre as [k ->]. apply elem_of_app. left. by apply Hsub. }
  assert (own_id kind r = Some (ID (CS r))) as Hown by (unfold own_id; by rewrite bool_decide_true).
  pose proof (write_spec r w) as Hw. destruct (write r w) as [w1 res]. destruct Hw as (Hlog & Hread & Hcount & Hfine).
  assert (below kind m ({[ID (CS r)]} ∪ seen) w1) as Hb1.
  { intros i. specialize (Hb i) as [Hle Hlt]. specialize (Hcount kind i). rewrite Hown in Hcount.
    case_bool_decide as Hi; [injection Hi as <-; specialize (Hlt Hni); split; [lia|set_solver]|].
    split; [lia|]. intros Hns. assert (i ∉ seen) as Hi' by set_solver. specialize (Hlt Hi'). lia. }
  assert (forall i, copies kind' i w1 <= copies kind' i w)%nat as Hother.
  { intros i. specialize (Hcount kind' i). rewrite (own_id_other kind kind'), bool_decide_false in Hcount by done. lia. }
  assert (grows w w1) as Hg by by split. destruct res as [u|e].
  - specialize (IH ({[ID (CS r)]} ∪ seen) w1 Hl Hb1). destruct (copy l _ w1) as [[seen' w'] ok]. destruct IH as (H1 & H2 & H3 & H4).
    split; [done|]. split; [intros i; specialize (H2 i); specialize (Hother i); lia|]. split; [by eapply grows_trans|].
    intros Hf Hsub. destruct (Hfine Hf) as (Hf1 & _ & Hwr).
    destruct (H4 Hf1) as (Hf' & Hok & Hk' & [k Hpre] & Hi & Hall).
    { intros i Hi. rewrite Hwr, Hown. set_solver. }
    split; [done|]. split; [done|]. split; [rewrite Hk', Hwr, (own_id_other kind kind') by done; by rewrite app_nil_r|].
    split; [exists ([ID (CS r)] ++ k); by rewrite Hpre, Hwr, Hown, <- app_assoc|]. split; [done|].
    intros x [->|Hx]%elem_of_cons; [|by apply Hall]. rewrite Hpre, Hwr, Hown. set_solver.
  - split; [done|]. split; [done|]. split; [done|]. intros Hf. by destruct (Hfine Hf) as (_ & ? & _).
Qed.

(** *** Ticks *)

(** What holds of a poller between ticks. *)
Definition bounded (m : nat) (p : Poller) (w : World) : Prop :=
  below "decision" m (seenDecisions p) w /\ below "alert" m (seenAlerts p) w.

(** And, while every write succeeded, its memory is in the log. *)
Definition exact (p : Poller) (w : World) : Prop :=
  (forall i, i ∈ seenDecisions p -> i ∈ written "decision" (lines w)) /\
  (forall i, i ∈ seenAlerts p -> i ∈ written "alert" (lines w)).

(** What a tick was given is in the log. *)
Definition recorded (t : ticked) (w : World) : Prop :=
  (forall ds d, fetched t = Ok ds -> d ∈ ds -> d_ID d ∈ written "decision" (lines w)) /\
  (forall al a, listed t = Ok al -> a ∈ al -> a_ID a ∈ written "alert" (lines w)).

(** On a disk that works, records stay. *)
Definition keeps (w w' : World) : Prop :=
  forall kind, exists k, written kind (lines w') = written kind (lines w) ++ k.

Lemma keeps_refl w : keeps w w.
Proof. intros kind. exists []. by rewrite app_nil_r. Qed.

Lemma keeps_trans w1 w2 w3 : keeps w1 w2 -> keeps w2 w3 -> keeps w1 w3.
Proof. intros H1 H2 kind. destruct (H1 kind) as [k1 E1], (H2 kind) as [k2 E2]. exists (k1 ++ k2). by rewrite E2, E1, app_assoc. Qed.

Lemma keeps_in w w' kind i : keeps w w' -> i ∈ written kind (lines w) -> i ∈ written kind (lines w').
Proof. intros H Hi. destruct (H kind) as [k ->]. set_solver. Qed.

Lemma recorded_keeps t w w' : keeps w w' -> recorded t w -> recorded t w'.
Proof. intros Hk [H1 H2]. split; intros l x Hl Hx; (eapply keeps_in; [done|]); eauto. Qed.

(** Each record is of one of the two kinds, so [keeps] needs these alone. *)
Lemma below_le kind m seen w w' : (forall i, copies kind i w' <= copies kind i w)%nat -> below kind m seen w -> below kind m seen w'.
Proof. intros Hle Hb i. specialize (Hle i). specialize (Hb i) as [H1 H2]. split; [lia|]. intros Hi. specialize (H2 Hi). lia. Qed.

Lemma copy_keeps l seen w : let '(_, w', _) := copy l seen w in fine w -> keeps w w'.
Proof.
  revert seen w. induction l as [|r l IH]; intros seen w; cbn [copy]; [intros _; apply keeps_refl|].
  destruct (decide _); [apply IH|]. pose proof (write_spec r w) as Hw. destruct (write r w) as [w1 res].
  destruct Hw as (_ & _ & _ & Hfine).
  assert (fine w -> keeps w w1) as Hk by (intros Hf kind; destruct (Hfine Hf) as (_ & _ & Hwr); eexists; apply Hwr).
  destruct res; [|done]. specialize (IH ({[ID (CS r)]} ∪ seen) w1). destruct (copy l _ w1) as [[? w'] ?].
  intros Hf. eapply keeps_trans; [by apply Hk|]. apply IH. by destruct (Hfine Hf).
Qed.

(** A stage of a tick: bounds kept, the log grown, and on a disk that works
    everything there and nothing lost. *)
Definition stage (m : nat) (p : Poller) (w : World) (p' : Poller) (w' : World) (given : World -> Prop) : Prop :=
  bounded m p' w' /\ grows w w' /\ (fine w -> exact p w -> fine w' /\ exact p' w' /\ keeps w w' /\ given w').

Lemma processDecisions_spec m now f p w : bounded m p w ->
  let '(p', w', _, _) := processDecisions now f p w in
  stage m p w p' w' (fun w' => forall ds d, f = Ok ds -> d ∈ ds -> d_ID d ∈ written "decision" (lines w')).
Proof.
  intros [Hd Ha]. destruct f as [l|e]; cbn [processDecisions].
  2:{ split; [done|]. split; [by split|]. intros Hf He. by split_and!; [..|apply keeps_refl|]. }
  pose proof (decisions_loop_copy now l 0 p w) as Hc. destruct (decisions_loop now l 0 p w) as [[[p' w'] n] r].
  pose proof (copy_spec "decision" "alert" m (decision_record now p <$> l) (seenDecisions p) w) as Hs.
  pose proof (copy_keeps (decision_record now p <$> l) (seenDecisions p) w) as Hkp.
  destruct (copy _ _ w) as [[seen w1] ok]. destruct Hc as (Hsd & Hsa & _ & _ & -> & _).
  destruct Hs as (H1 & H2 & H3 & H4); [done| |done|].
  { apply Forall_fmap, Forall_true. done. }
  split; [split; [by rewrite Hsd|rewrite Hsa; by eapply below_le]|]. split; [done|].
  intros Hf [He1 He2]. destruct (H4 Hf He1) as (Hf' & _ & Hk' & _ & Hi & Hall). split; [done|].
  split; [split; [by rewrite Hsd|rewrite Hsa, Hk'; done]|]. split; [by apply Hkp|].
  intros ds d [= <-] Hin. apply (Hall (decision_record now p d)). apply list_elem_of_fmap. by exists d.
Qed.

Lemma processAlerts_spec m now f p w : bounded m p w ->
  let '(p', w', _, _) := processAlerts now f p w in
  stage m p w p' w' (fun w' => forall al a, f = Ok al -> a ∈ al -> a_ID a ∈ written "alert" (lines w')).
Proof.
  intros [Hd Ha]. destruct f as [l|e]; cbn [processAlerts].
  2:{ split; [done|]. split; [by split|]. intros Hf He. by split_and!; [..|apply keeps_refl|]. }
  pose proof (alerts_loop_copy now l 0 p w) as Hc. destruct (alerts_loop now l 0 p w) as [[[p' w'] n] r].
  pose proof (copy_spec "alert" "decision" m (alert_record now p <$> l) (seenAlerts p) w) as Hs.
  pose proof (copy_keeps (alert_record now p <$> l) (seenAlerts p) w) as Hkp.
  destruct (copy _ _ w) as [[seen w1] ok]. destruct Hc as (Hsa & Hsd & _ & _ & -> & _).
  destruct Hs as (H1 & H2 & H3 & H4); [done| |done|].
  { apply Forall_fmap, Forall_true. done. }
  split; [split; [rewrite Hsd; by eapply below_le|by rewrite Hsa]|]. split; [done|].
  intros Hf [He1 He2]. destruct (H4 Hf He2) as (Hf' & _ & Hk' & _ & Hi & Hall). split; [done|].
  split; [split; [rewrite Hsd, Hk'; done|by rewrite Hsa]|]. split; [by apply Hkp|].
  intros al a [= <-] Hin. apply (Hall (alert_record now p a)). apply list_elem_of_fmap. by exists a.
Qed.

Lemma tick_spec m t p w : bounded m p w ->
  let '(p', w') := tick (at_ t) (fetched t) (listed t) p w in stage m p w p' w' (recorded t).
Proof.
  intros Hb. unfold tick, poll. pose proof (processDecisions_spec m (at_ t) (fetched t) p w Hb) as H1.
  destruct (processDecisions _ _ p w) as [[[p1 w1] nd] errD]. destruct H1 as (Hb1 & Hg1 & Hf1).
  pose proof (processAlerts_spec m (at_ t) (listed t) p1 w1 Hb1) as H2.
  destruct (processAlerts _ _ p1 w1) as [[[p2 w2] na] errA]. destruct H2 as (Hb2 & Hg2 & Hf2).
  assert (grows w w2) as Hg by by eapply grows_trans.
  assert (fine w -> exact p w -> fine w2 /\ exact p2 w2 /\ keeps w w2 /\ recorded t w2) as Hall.
  { intros Hf He. destruct (Hf1 Hf He) as (Hf' & He' & Hk1 & Hd). destruct (Hf2 Hf' He') as (Hf'' & He'' & Hk2 & Ha).
    split; [done|]. split; [done|]. split; [by eapply keeps_trans|]. split; [|done].
    intros ds d Hds Hin. eapply keeps_in; [exact Hk2|]. by eapply Hd. }
  destruct errD, errA; done.
Qed.

Lemma ticks_spec m ticks p w : bounded m p w ->
  let '(p', w') := foldl tick_with (p, w) ticks in
  stage m p w p' w' (fun w' => forall t, t ∈ ticks -> recorded t w').
Proof.
  revert p w. induction ticks as [|t ticks IH]; intros p w Hb; cbn [foldl].
  { split; [done|]. split; [by split|]. intros Hf He. split_and!; [done..|apply keeps_refl|by intros t ?%elem_of_nil]. }
  pose proof (tick_spec m t p w Hb) as Ht. unfold tick_with at 2. cbn [fst snd]. destruct (tick _ _ _ p w) as [p1 w1].
  destruct Ht as (Hb1 & Hg1 & Hf1). specialize (IH p1 w1 Hb1). destruct (foldl tick_with (p1, w1) ticks) as [p2 w2].
  destruct IH as (Hb2 & Hg2 & Hf2). split; [done|]. split; [by eapply grows_trans|]. intros Hf He.
  destruct (Hf1 Hf He) as (Hf' & He' & Hk1 & Ht'). destruct (Hf2 Hf' He') as (Hf'' & He'' & Hk2 & Hall).
  split; [done|]. split; [done|]. split; [by eapply keeps_trans|].
  intros x [->|Hx]%elem_of_cons; [by eapply recorded_keeps|by apply Hall].
Qed.

(** *** Runs of processes *)

(** A process: its configuration, the error of its preload's reading, if any,
    and its ticks until it ends. *)
Record Process := { pr_cfg : Config; pr_host : string; pr_io : option string; pr_ticks : list ticked }.

Definition exec (w : World) (pr : Process) : World :=
  match New (pr_cfg pr) (pr_host pr) with Some p => (Run (pr_io pr) (pr_ticks pr) p w).1 | None => w end.

Definition working (pr : Process) : Prop := Enabled (pr_cfg pr) = true /\ LAPIKey (pr_cfg pr) <> "".

(** The process starts without the memory of the log. *)
Definition forgets (pr : Process) (w : World) : bool := negb (is_ok (loadSeenIDs (pr_io pr) (lines w))).

(** The number of processes that do. *)
Fixpoint forgetful (procs : list Process) (w : World) : nat :=
  match procs with
  | [] => 0
  | pr :: procs => (if forgets pr w then 1 else 0) + forgetful procs (exec w pr)
  end.

Lemma preload_bounded pr m w p : (1 <= m)%nat -> seenDecisions p = ∅ -> seenAlerts p = ∅ ->
  (forall kind i, kind = "decision" \/ kind = "alert" -> (copies kind i w <= m)%nat) ->
  bounded ((if forgets pr w then 1 else 0) + m) (preload (pr_io pr) w p) w /\ exact (preload (pr_io pr) w p) w.
Proof.
  intros Hm Hd Ha Hc. unfold preload, forgets, loadSeenIDs. destruct (pr_io pr); [|destruct (existsb too_long (lines w)) eqn:Hr]; cbn.
  1, 2: split; [|by split; rewrite ?Hd, ?Ha; set_solver].
  1, 2: split; intros i; pose proof (Hc "decision" i (or_introl eq_refl)); pose proof (Hc "alert" i (or_intror eq_refl)); split; intros; cbn; lia.
  assert (Hnot : forall kind i, i ∉ ids kind (lines w) -> copies kind i w = 0%nat).
  { intros kind i Hi. unfold copies. rewrite written_readable by exact Hr. apply count_occ_not_In. by rewrite <- list_elem_of_In. }
  split.
  - split; intros i; cbn; rewrite not_elem_of_list_to_set;
      (split; [by apply Hc; auto|intros Hi; rewrite (Hnot _ _ Hi); lia]).
  - split; cbn; intros i; rewrite elem_of_list_to_set, written_readable by exact Hr; done.
Qed.

Lemma exec_spec m w pr : (1 <= m)%nat -> (forall kind i, kind = "decision" \/ kind = "alert" -> (copies kind i w <= m)%nat) ->
  let w' := exec w pr in
  (forall kind i, kind = "decision" \/ kind = "alert" -> (copies kind i w' <= (if forgets pr w then 1 else 0) + m)%nat) /\
  grows w w' /\ (fine w -> fine w' /\ keeps w w' /\ (working pr -> forall t, t ∈ pr_ticks pr -> recorded t w')).
Proof.
  intros Hm Hc. cbn zeta. unfold exec, working.
  assert (Hidle : ~ working pr -> (forall kind i, kind = "decision" \/ kind = "alert" ->
      (copies kind i w <= (if forgets pr w then 1 else 0) + m)%nat) /\ grows w w /\
      (fine w -> fine w /\ keeps w w /\ (working pr -> forall t, t ∈ pr_ticks pr -> recorded t w))).
  { intros Hw. split; [intros kind i Hk; specialize (Hc kind i Hk); lia|]. split; [by split|].
    intros Hf. split; [done|]. split; [apply keeps_refl|done]. }
  unfold working in Hidle. unfold New. destruct (Enabled (pr_cfg pr)); cbn [negb]; [|by apply Hidle; intros [? _]].
  set (p := {| cfg := setDefaults (pr_cfg pr) |}). unfold Run.
  change (LAPIKey (cfg p)) with (LAPIKey (pr_cfg pr)). case_bool_decide as Hkey; [by apply Hidle; intros [_ ?]|].
  destruct (preload_bounded pr m w p Hm eq_refl eq_refl Hc) as [Hb He].
  pose proof (ticks_spec _ (pr_ticks pr) (preload (pr_io pr) w p) w Hb) as Ht.
  destruct (foldl tick_with _ (pr_ticks pr)) as [p' w']. cbn [fst snd]. destruct Ht as ([Hb1 Hb2] & Hg & Hf).
  split; [intros kind i [->| ->]; [apply Hb1|apply Hb2]|]. split; [done|]. intros Hfine.
  destruct (Hf Hfine He) as (? & _ & ? & ?). done.
Qed.

Lemma execs_spec m procs w : (1 <= m)%nat -> (forall kind i, kind = "decision" \/ kind = "alert" -> (copies kind i w <= m)%nat) ->
  let w' := foldl exec w procs in
  (forall kind i, kind = "decision" \/ kind = "alert" -> (copies kind i w' <= forgetful procs w + m)%nat) /\
  grows w w' /\ (fine w -> keeps w w' /\ forall pr t, pr ∈ procs -> working pr -> t ∈ pr_ticks pr -> recorded t w') /\
  (readable (lines w') -> Forall (fun pr => pr_io pr = None) procs -> forgetful procs w = 0%nat).
Proof.
  cbn zeta. revert m w. induction procs as [|pr procs IH]; intros m w Hm Hc; cbn [foldl forgetful].
  { split; [done|]. split; [by split|]. split; [|done]. intros _. split; [apply keeps_refl|]. by intros pr t ?%elem_of_nil. }
  destruct (exec_spec m w pr Hm Hc) as (Hc1 & Hg1 & Hf1).
  destruct (IH ((if forgets pr w then 1 else 0) + m)%nat (exec w pr)) as (Hc2 & Hg2 & Hf2 & Hr2); [lia|done|].
  split; [intros kind i Hk; specialize (Hc2 kind i Hk); lia|]. split; [by eapply grows_trans|]. split.
  - intros Hf. destruct (Hf1 Hf) as (Hf' & Hk1 & Hall1). destruct (Hf2 Hf') as [Hk2 Hall2].
    split; [by eapply keeps_trans|]. intros q t [->|Hq]%elem_of_cons Hw Ht; [|by eapply Hall2].
    eapply recorded_keeps; [exact Hk2|]. by apply Hall1.
  - intros Hr [Hio Hios]%Forall_cons. rewrite (Hr2 Hr Hios). unfold forgets, loadSeenIDs. rewrite Hio.
    assert (readable (lines w)) as Hrw by (apply Hg1, Hg2, Hr). unfold readable in Hrw. by rewrite Hrw.
Qed.

(** C30: Every event once, while the log can be read.  Whatever the processes that
    follow each other, the answers they get and the writes that fail or stop
    half-way, the lines of the log stay, and no decision or alert is in it more
    often than once, plus once for each process that could not read the log
    when it started: because opening or reading it failed, or because of a line
    over the megabyte that the reader takes (the poller writes such lines when
    an alert is that large).  When no reading fails and there is no such line
    at the end, no process was among them, and everything stands in the log at
    most once.  When the disk takes every write, all that a process with a key
    was given stands in it. *)
Theorem copied_once procs w :
  NoDup (written "decision" (lines w)) -> NoDup (written "alert" (lines w)) ->
  let w' := foldl exec w procs in
  log w `prefix_of` log w' /\
  (forall kind i, kind = "decision" \/ kind = "alert" -> (copies kind i w' <= forgetful procs w + 1)%nat) /\
  (readable (lines w') -> Forall (fun pr => pr_io pr = None) procs ->
     NoDup (written "decision" (lines w')) /\ NoDup (written "alert" (lines w'))) /\
  (fine w -> forall pr t, pr ∈ procs -> working pr -> t ∈ pr_ticks pr -> recorded t w').
Proof.
  intros Hd Ha w'. rewrite !NoDup_ListNoDup, !(NoDup_count_occ Z.eq_dec) in *.
  destruct (execs_spec 1 procs w) as (Hc & [Hg _] & Hf & Hr); [lia|intros kind i [->| ->]; [apply Hd|apply Ha]|].
  split; [done|]. split; [done|]. split; [|by apply Hf].
  intros Hread Hio. specialize (Hr Hread Hio). split; intros i; [specialize (Hc "decision" i)|specialize (Hc "alert" i)];
    rewrite Hr in Hc; by apply Hc; auto.
Qed.

(** *** Examples *)
Definition ban (id : Z) : LAPIDecision :=
  {| d_ID := id; d_Value := "192.0.2.1"; d_Type := "ban"; d_Scenario := "ssh-bf"; d_Duration := "4h"; d_Origin := "crowdsec"; d_Scope := "Ip"; d_Simulated := false |}.

Definition demo_config : Config :=
  {| LAPIURL := ""; LAPIKey := "k"; Interval := 0; Enabled := true; LogPath := ""; CscliBin := ""; Timeout := 0 |}.
Definition process (ticks : list ticked) : Process := {| pr_cfg := demo_config; pr_host := "edge"; pr_io := None; pr_ticks := ticks |}.
Definition given (t : Z) (l : list Z) : ticked := {| at_ := t; fetched := Ok (ban <$> l); listed := Ok [] |}.
Definition empty_log (outcomes : list outcome) : World := {| log := []; torn := 0; torn_record := None; disk := outcomes |}.

Definition after (outcomes : list outcome) (procs : list Process) : list Z :=
  written "decision" (lines (foldl exec (empty_log outcomes) procs)).

(** A write in the middle stops half-way. *)
Lemma copied_once_witness :
  NoDup (after [WriteOK; WriteTorn 20 "no space left"] [process [given 1 [7; 8]; given 2 [8; 9]]; process [given 3 [7; 9; 10]]]).
Proof.
  refine (proj1 (proj1 (proj2 (proj2 (copied_once [process [given 1 [7; 8]; given 2 [8; 9]]; process [given 3 [7; 9; 10]]]
    (empty_log [WriteOK; WriteTorn 20 "no space left"]) _ _))) _ _)).
  - constructor.
  - constructor.
  - by vm_compute.
  - by repeat constructor.
Defined.

(** An identifier is noted before its record is written: when the write fails
    the decision is not written by any later tick of the process, only by the
    next process. *)
Example failed_write_forgotten :
  after [WriteFailed "no space left"] [process [given 1 [7; 8]; given 2 [7; 8]; given 3 [7; 8]]] = [8] /\
  after [WriteFailed "no space left"] [process [given 1 [7; 8]; given 2 [7; 8]]; process [given 3 [7; 8]]] = [8; 7].
Proof. by vm_compute. Qed.

(** A fragment swallows the record written after it, which counts as written. *)
Example torn_line_swallows :
  after [WriteTorn 20 "no space left"] [process [given 1 [7; 8; 9]; given 2 [7; 8; 9]]] = [9].
Proof. by vm_compute. Qed.

(** A line that cannot be read makes the next process start without memory. *)
Example unreadable_log_repeats :
  written "decision" (lines (exec {| log := [Rec (decision_record 0 {| cfg := demo_config; host := "edge"; metrics := {| PollSuccessTotal := 0;
      PollErrorTotal := 0; DecisionsWritten := 0; LastSuccessUnixSec := 0; LastErrorUnixSec := 0 |};
      seenDecisions := ∅; seenAlerts := ∅ |} (ban 7)); Oversized None]; torn := 0; torn_record := None; disk := [] |}
    (process [given 1 [7]]))) = [7; 7].
Proof. by vm_compute. Qed.

End Poller.
