(* ===== verification/Adapters.v ===== *)
(** * Events of CrowdSec

    The source that feeds the log of the poller to the reporting service
    ([internal/adapters/crowdsecevent]).  The log is modelled by what its lines
    decode to; [time.Parse] for the format RFC 3339 and the search of the
    access logs for the requests of an address are parameters. *)

From S2P Require Import Prelude GoFmt Netip Reputation Reports Outbox Risk ReportGate Reporting Poller.
Import Reports Outbox Reporting.

Local Open Scope Z_scope.

(** ** Common normalisation *)
Module Normal.

Record RawEvent := {
  r_IP : string; r_Hostname : string; r_URIs : list string; r_UserAgent : string; r_Action : string; r_RuleID : string; r_RuleName : string;
  r_Timestamp : Z; r_Hits : Z; r_WindowSec : Z;
}.

(** Trimmed, not empty, each once. *)
Fixpoint uri_loop (seen : gset string) (l : list string) : list string :=
  match l with
  | [] => []
  | u :: l =>
      let u := trim_space u in
      if bool_decide (u = "") || bool_decide (u ∈ seen) then uri_loop seen l else u :: uri_loop ({[u]} ∪ seen) l
  end.
Definition normalizeURIs (l : list string) : list string := uri_loop ∅ l.

Definition firstNonEmpty (l : list string) : string :=
  match List.find (fun v => negb (bool_decide (trim_space v = ""))) l with Some v => v | None => "" end.

Definition event_of (source : string) (uris : list string) (raw : RawEvent) : Classifier.Event :=
  {| Classifier.IP := r_IP raw; Classifier.URI := default "" (head uris); Classifier.URIs := uris; Classifier.Hostname := r_Hostname raw;
     Classifier.UserAgent := r_UserAgent raw; Classifier.Action := firstNonEmpty [r_Action raw; "block"]; Classifier.HTTPMethod := "";
     Classifier.RuleID := r_RuleID raw; Classifier.RulesetID := ""; Classifier.RuleName := r_RuleName raw; Classifier.Source := source;
     Classifier.Timestamp := r_Timestamp raw; Classifier.RayID := ""; Classifier.CountryName := ""; Classifier.ASNDescription := "";
     Classifier.EdgeResponseStatus := 0; Classifier.Hits := r_Hits raw; Classifier.WindowSec := r_WindowSec raw; Classifier.Ref := "" |}.

End Normal.

(** ** CrowdSec ([crowdsecevent]) *)
Module CrowdSecEvent.
Import Normal.

(** Events without a request carry the address [unknown]. *)
Definition Normalize (raw : RawEvent) : result Classifier.Event :=
  if bool_decide (trim_space (r_IP raw) = "") then Err "crowdsecevent normalize: ip is required"
  else
    let uris := normalizeURIs (r_URIs raw) in
    Ok (event_of "crowdsec_waf" (match uris with [] => ["unknown"] | _ => uris end) raw).

(** The identifier as it is decoded: a text, a number (exact below 2^53) or
    nothing, which is marshalled as [null]. *)
Inductive any_id := IdString (s : string) | IdNumber (n : Z) | IdNull.

Definition stringify (v : any_id) : string := match v with IdString s => s | IdNumber n => GoFmt.fmt_d n | IdNull => "null" end.

(** [decisionEnvelope]. *)
Record envelope := {
  e_DT : string; e_EventType : string; e_Origin : string; e_Action : string; e_Type : string; e_Scenario : string; e_IP : string; e_ID : any_id;
  e_WAF : option Poller.wafMatch;
}.

(** A line with its text that decodes, one that does not, one over the limit
    of the scanner. *)
Inductive line := Entry (text : string) (e : envelope) | Junk | TooLong.

Record LiveSource := { DecisionsLog : string; NginxLogDir : string; Lookback : Z; seenIDs : gset string; seenLine : gset string }.

Definition NewLiveSource (decisionsLog nginxLogDir : string) (lookback : Z) : LiveSource :=
  {| DecisionsLog := decisionsLog; NginxLogDir := nginxLogDir; Lookback := if lookback <=? 0 then 24 * hour else lookback; seenIDs := ∅; seenLine := ∅ |}.

Definition acceptDecision (eventType origin decisionType scenario : string) : bool :=
  let of_kind :=
    if bool_decide (eventType = "alert") then true
    else if bool_decide (eventType = "decision") then
      bool_decide (decisionType = "ban") &&
      (bool_decide (origin = "crowdsec") || bool_decide (origin = "cscli") || bool_decide (origin = "capi"))
    else false in
  let scenario := to_lower (trim_space scenario) in
  of_kind && negb (str_contains scenario "cloudflare-waf") && negb (has_prefix "recidivist-escalation" scenario).

Definition markSeen (id text : string) (s : LiveSource) : LiveSource * bool :=
  if negb (bool_decide (id = "")) then
    if bool_decide (id ∈ seenIDs s) then (s, false)
    else ({| DecisionsLog := DecisionsLog s; NginxLogDir := NginxLogDir s; Lookback := Lookback s; seenIDs := {[id]} ∪ seenIDs s; seenLine := seenLine s |}, true)
  else if bool_decide (text ∈ seenLine s) then (s, false)
  else ({| DecisionsLog := DecisionsLog s; NginxLogDir := NginxLogDir s; Lookback := Lookback s; seenIDs := seenIDs s; seenLine := {[text]} ∪ seenLine s |}, true).

Section live.
(** [parseISOTime], and [lookupURIs] with at most five results. *)
Context (parseISOTime : string -> option Z) (lookupURIs : string -> list string).

Definition raw_of (s : LiveSource) (ts : Z) (e : envelope) : RawEvent :=
  let ip := trim_space (e_IP e) in
  let id := trim_space (stringify (e_ID e)) in
  let found := lookupURIs ip in
  let or_else (v d : string) := if bool_decide (v = "") then d else v in
  let uris := match e_WAF e with Some w => if bool_decide (Poller.URI w = "") then found else Poller.URI w :: found | None => found end in
  {| r_IP := ip; r_Hostname := match e_WAF e with Some w => Poller.TargetFQDN w | None => "" end; r_URIs := uris; r_UserAgent := "";
     r_Action := if bool_decide (e_EventType e = "alert") && negb (bool_decide (to_lower (trim_space (e_Action e)) = "banned")) then "detected" else "block";
     r_RuleID := match e_WAF e with Some w => or_else (Poller.RuleID w) id | None => id end;
     r_RuleName := match e_WAF e with Some w => or_else (Poller.Message w) (e_Scenario e) | None => e_Scenario e end;
     r_Timestamp := ts; r_Hits := Z.max 1 (Z.of_nat (length uris)); r_WindowSec := Z.quot (Lookback s) second |}.

(** The event of a line, when it passes the checks before [markSeen]. *)
Definition candidate (now : Z) (s : LiveSource) (e : envelope) : option RawEvent :=
  if negb (acceptDecision (e_EventType e) (to_lower (trim_space (e_Origin e))) (e_Type e) (e_Scenario e)) then None
  else
    match parseISOTime (e_DT e) with
    | None => None
    | Some ts =>
        if ts <? t_add now (- Lookback s) then None
        else match Netip.ParseAddr (trim_space (e_IP e)) with None => None | Some _ => Some (raw_of s ts e) end
    end.

(** The scan; the last component is the error of the scanner. *)
Fixpoint read_loop (now : Z) (l : list line) (s : LiveSource) : LiveSource * list RawEvent * bool :=
  match l with
  | [] => (s, [], false)
  | TooLong :: _ => (s, [], true)
  | Junk :: l => read_loop now l s
  | Entry text e :: l =>
      match candidate now s e with
      | None => read_loop now l s
      | Some raw =>
          let '(s, fresh) := markSeen (trim_space (stringify (e_ID e))) text s in
          let '(s, evs, err) := read_loop now l s in
          (s, if fresh then raw :: evs else evs, err)
      end
  end.

(** [None]: the file does not exist. *)
Definition Read (now : Z) (file : option (list line)) (s : LiveSource) : LiveSource * list RawEvent * bool :=
  if bool_decide (trim_space (DecisionsLog s) = "") then (s, [], false)
  else match file with None => (s, [], false) | Some l => read_loop now l s end.

(** What the runtime goes on with: nothing after an error. *)
Definition delivered (now : Z) (file : option (list line)) (s : LiveSource) : LiveSource * list RawEvent :=
  let '(s, evs, err) := Read now file s in (s, if err : bool then [] else evs).

(** *** Reading again *)
Definition short (l : list line) : Prop := TooLong ∉ l.

Lemma candidate_later now now' s s' e :
  now <= now' -> Lookback s' = Lookback s -> candidate now s e = None -> candidate now' s' e = None.
Proof.
  intros Hn Hl. unfold candidate. rewrite Hl. destruct (negb _); [done|]. destruct (parseISOTime _) as [ts|]; [|done]. unfold t_add.
  destruct (Z.ltb_spec ts (now + - Lookback s)), (Z.ltb_spec ts (now' + - Lookback s)); try done; [lia|]. by destruct (Netip.ParseAddr _).
Qed.

Lemma markSeen_grows id text s :
  let s' := (markSeen id text s).1 in
  seenIDs s ⊆ seenIDs s' /\ seenLine s ⊆ seenLine s' /\ Lookback s' = Lookback s /\ forall s2, seenIDs s' ⊆ seenIDs s2 -> seenLine s' ⊆ seenLine s2 -> markSeen id text s2 = (s2, false).
Proof.
  cbn zeta. unfold markSeen. destruct (bool_decide (id = "")) eqn:Hid; cbn [negb].
  - destruct (bool_decide_reflect (text ∈ seenLine s)) as [Hin|Hni]; cbn; (split; [set_solver|]; split; [set_solver|]; split; [done|]);
      intros s2 H1 H2; rewrite bool_decide_true by set_solver; done.
  - destruct (bool_decide_reflect (id ∈ seenIDs s)) as [Hin|Hni]; cbn; (split; [set_solver|]; split; [set_solver|]; split; [done|]);
      intros s2 H1 H2; rewrite bool_decide_true by set_solver; done.
Qed.

Lemma read_loop_grows now l s :
  let s' := (read_loop now l s).1.1 in seenIDs s ⊆ seenIDs s' /\ seenLine s ⊆ seenLine s' /\ Lookback s' = Lookback s.
Proof.
  cbn zeta. revert s. induction l as [|[text e| |] l IH]; intros s; cbn [read_loop]; [done| |apply IH|done].
  destruct (candidate now s e); [|apply IH]. pose proof (markSeen_grows (trim_space (stringify (e_ID e))) text s) as Hm.
  destruct (markSeen _ text s) as [s1 fresh]. cbn in Hm. specialize (IH s1). destruct (read_loop now l s1) as [[s2 evs] err]. cbn in *.
  destruct Hm as (? & ? & ? & _), IH as (? & ? & ?). split; [set_solver|]. split; [set_solver|congruence].
Qed.

Lemma reread_nothing now now' l l2 s s2 :
  now <= now' -> Lookback s2 = Lookback s -> short l -> seenIDs (read_loop now l s).1.1 ⊆ seenIDs s2 -> seenLine (read_loop now l s).1.1 ⊆ seenLine s2 ->
  read_loop now' (l ++ l2) s2 = read_loop now' l2 s2.
Proof.
  intros Hn. revert s. induction l as [|[text e| |] l IH]; intros s Hl Hs H1 H2; cbn [read_loop app]; [done| | |exfalso; apply Hs; by left].
  - assert (short l) as Hs' by (intros Hx; apply Hs; by right). cbn [read_loop] in H1, H2. destruct (candidate now s e) as [raw|] eqn:Hc.
    + pose proof (markSeen_grows (trim_space (stringify (e_ID e))) text s) as Hm. destruct (markSeen _ text s) as [s1 fresh]. cbn zeta in Hm. cbn [fst] in Hm.
      destruct Hm as (_ & _ & Hlk & Hseen). pose proof (read_loop_grows now l s1) as Hg. cbn zeta in Hg.
      assert (read_loop now' (l ++ l2) s2 = read_loop now' l2 s2) as Hrest.
      { apply (IH s1); [congruence|done|..]; by destruct (read_loop now l s1) as [[? ?] ?]. }
      destruct (candidate now' s2 e); [|done]. destruct (read_loop now l s1) as [[s3 evs] err]. cbn in *. destruct Hg as (Hg1 & Hg2 & _).
      rewrite Hseen by set_solver. rewrite Hrest. by destruct (read_loop now' l2 s2) as [[? ?] ?].
    + rewrite (candidate_later now now' s s2 e Hn Hl Hc). by apply (IH s).
  - apply (IH s); [done|intros Hx; apply Hs; by right|done|done].
Qed.

(** a log read again and again.  While the log only grows and the scanner can
    read its lines, a later read gives the events of the new lines alone, as if
    the file held nothing else: no line becomes an event twice. *)
Theorem reread_gives_new now now' l l2 s :
  now <= now' -> short l ->
  let s' := (delivered now (Some l) s).1 in delivered now' (Some (l ++ l2)) s' = delivered now' (Some l2) s'.
Proof.
  intros Hn Hs. cbn zeta. unfold delivered, Read. destruct (bool_decide (trim_space (DecisionsLog s) = "")) eqn:Hd; [cbn; by rewrite Hd|].
  destruct (read_loop now l s) as [[s1 evs] err] eqn:Hr. cbn [fst]. pose proof (read_loop_grows now l s) as Hg. rewrite Hr in Hg. cbn in Hg.
  destruct (bool_decide (trim_space (DecisionsLog s1) = "")); [done|].
  rewrite (reread_nothing now now' l l2 s s1); [done|done|by destruct Hg as (_ & _ & ?)|done|by rewrite Hr..].
Qed.

End live.

(** *** Over the log of the poller *)

(** The scanner of this source takes lines of less than 64 kB. *)
Definition line_of (l : Poller.line) : line :=
  match l with
  | Poller.Rec r =>
      let c := Poller.CS r in
      if (65536 <=? N.of_nat (String.length (Poller.record_text r)))%N then TooLong
      else Entry "" {| e_DT := Poller.DT r; e_EventType := Poller.EventType c; e_Origin := Poller.Origin c; e_Action := Poller.Action c;
                       e_Type := Poller.Type_ c; e_Scenario := Poller.Scenario c; e_IP := Poller.IP c; e_ID := IdNumber (Poller.ID c);
                       e_WAF := Poller.WAF c |}
  | Poller.Garbage => Junk
  | Poller.Oversized _ => TooLong
  end.

Definition alert (id : Z) : Poller.LAPIAlert :=
  {| Poller.a_ID := id; Poller.a_Scenario := "http-probing"; Poller.a_Message := ""; Poller.CreatedAt := ""; Poller.Decisions := [];
     Poller.Source := {| Poller.src_IP := "192.0.2.9"; Poller.Country := ""; Poller.ASNumber := 0; Poller.ASName := ""; Poller.Range := "" |};
     Poller.Events := [] |}.

Definition source : LiveSource := NewLiveSource "/var/log/crowdsec/decisions.log" "" 0.
Definition read_text (_ : string) : option Z := Some hour.
Definition no_uris (_ : string) : list string := [].

Definition record (d : list Z) (a : list Z) : list line :=
  line_of <$> Poller.log (Poller.exec (Poller.empty_log []) (Poller.process
    [{| Poller.at_ := hour; Poller.fetched := Ok (Poller.ban <$> d); Poller.listed := Ok (alert <$> a) |}])).

Lemma reread_gives_new_witness :
  delivered read_text no_uris hour (Some (record [1] [] ++ record [2] [])) (delivered read_text no_uris hour (Some (record [1] [])) source).1 =
  delivered read_text no_uris hour (Some (record [2] [])) (delivered read_text no_uris hour (Some (record [1] [])) source).1.
Proof.
  apply reread_gives_new.
  - reflexivity.
  - vm_compute. intros H. inversion H as [|? ? ? H2]. inversion H2.
Defined.

(** Decisions and alerts have numbers of their own, which the poller keeps
    apart and the source does not: an alert with the number of a ban that came
    before it is dropped. *)
Example kinds_share_numbers :
  r_RuleName <$> (delivered read_text no_uris hour (Some (record [7] [7])) source).2 = ["ssh-bf"] /\
  r_RuleName <$> (delivered read_text no_uris hour (Some (record [7] [8])) source).2 = ["ssh-bf"; "http-probing"].
Proof. by vm_compute. Qed.

(** Entries without an identifier all have the identifier [null]: only the
    first of them is ever delivered. *)
Example missing_numbers_collide :
  let entry scenario := Entry scenario {| e_DT := ""; e_EventType := "alert"; e_Origin := ""; e_Action := ""; e_Type := ""; e_Scenario := scenario;
                                          e_IP := "192.0.2.9"; e_ID := IdNull; e_WAF := None |} in
  r_RuleName <$> (delivered read_text no_uris hour (Some [entry "ssh-bf"; entry "http-probing"]) source).2 = ["ssh-bf"].
Proof. by vm_compute. Qed.

(** One line too long for the scanner and no event is delivered any more, not
    those before it, which count as seen, and not those after it. *)
Example long_line_blocks :
  let l := record [1] [] ++ [TooLong] ++ record [2] [] in
  (delivered read_text no_uris hour (Some l) source).2 = [] /\
  (delivered read_text no_uris hour (Some (l ++ record [3] [])) (delivered read_text no_uris hour (Some l) source).1).2 = [].
Proof. by vm_compute. Qed.

(** *** Into the reporting service ([service.go]) *)
Section process.
Context {R K E D C G : Type} `{Outbox.Reporter R} `{Sink K} `{EvidenceStore E} `{Outbox.DedupStore D} `{ReportTimes D}
  `{SpamhausClient C} `{ReputationGate G}.

(** [None] when the event is refused. *)
Definition Process (t0 t1 : Z) (raw : RawEvent) (s : Service R K E D C G) : Service R K E D C G * option (Result * option string) :=
  match Normalize raw with
  | Err _ => (s, None)
  | Ok ev =>
      let '(s, r) := Reporting.Process t0 t1 {| rq_Source := AbuseFormat.SourceCrowdSecWAF; rq_Event := ev; EvidenceOnly := bool_decide (r_Action raw = "detected") |} s in
      (s, Some r)
  end.

(** detections stay at home.  An alert without a ban is kept as evidence: it is
    not reported, not reserved, and not noted as reported. *)
Theorem detection_stays_local t0 t1 raw s :
  r_Action raw = "detected" ->
  let '(s', r) := Process t0 t1 raw s in
  reporter s' = reporter s /\ reservationStore s' = reservationStore s /\ dedupStore s' = dedupStore s /\
  match r with Some (res, err) => Reported res = false /\ err = None | None => trim_space (r_IP raw) = "" end.
Proof.
  intros Ha. unfold Process, Normalize. case_bool_decide as Hip; [done|]. set (req := Build_Request _ _ _).
  destruct (Process_cases t0 t1 req s) as [(_ & [_ Hr Hst Hd] & Hrep & Herr)|((He & _) & _)].
  - destruct (Reporting.Process t0 t1 req s) as [s' [res err]]. cbn in *. done.
  - subst req. cbn in He. by rewrite bool_decide_true in He.
Qed.

End process.
End CrowdSecEvent.
