(* ===== verification/OpenResty.v ===== *)
(** * Events of OpenResty

    The source that consumes the file of events the Lua filter writes
    ([internal/adapters/openrestyevent]): the file is renamed, read and
    removed, and a file left by a process that died is read first.  Files are
    modelled by what their lines decode to. *)

From S2P Require Import Prelude Risk Adapters.

Local Open Scope Z_scope.

(** ** OpenResty ([openrestyevent]) *)
Module OpenRestyEvent.
Import Normal.

Definition Normalize (raw : RawEvent) : result Classifier.Event :=
  if bool_decide (trim_space (r_IP raw) = "") then Err "openrestyevent normalize: ip is required"
  else
    match normalizeURIs (r_URIs raw) with
    | [] => Err "openrestyevent normalize: at least one uri is required"
    | uris => Ok (event_of "openresty_waf" uris raw)
    end.

(** [luaEvent]; [lua_TS] is the instant its number of seconds stands for. *)
Record luaEvent := { lua_TS : Z; lua_Type : string; lua_IP : string; lua_Score : Z; lua_Detail : string }.

Inductive line := Event_ (e : luaEvent) | Junk | TooLong.

Definition event_of_line (l : line) : option RawEvent :=
  match l with
  | Event_ e =>
      if bool_decide (trim_space (lua_IP e) = "") || bool_decide (trim_space (lua_Detail e) = "") then None
      else Some {| r_IP := lua_IP e; r_Hostname := ""; r_URIs := [lua_Detail e]; r_UserAgent := ""; r_Action := "block";
                   r_RuleID := if bool_decide (lua_Type e = "honeypot_hit") then "lua_honeypot" else "lua_heuristic"; r_RuleName := lua_Type e;
                   r_Timestamp := lua_TS e; r_Hits := 1; r_WindowSec := 300 |}
  | _ => None
  end.

(** The events up to a line that is too long, and whether there is one. *)
Fixpoint scan_lines (l : list line) : list RawEvent * bool :=
  match l with
  | [] => ([], false)
  | TooLong :: _ => ([], true)
  | x :: l => let '(evs, err) := scan_lines l in (match event_of_line x with Some e => e :: evs | None => evs end, err)
  end.

(** No events and an error when the file cannot be opened. *)
Definition parseProcessingFile (cannot_open : bool) (l : list line) : list RawEvent * bool :=
  if cannot_open then ([], true) else scan_lines l.

(** The two files; [None] is a file that does not exist. *)
Record Files := { eventsFile : option (list line); procFile : option (list line) }.

(** What the file system refuses in one read. *)
Record faults := {
  cannot_stat_stale : bool;
  cannot_open_stale : bool;
  cannot_remove_stale : bool;
  cannot_rename : bool;   (** or to stat the file of events *)
  cannot_open : bool;
  cannot_remove : bool;
}.

(** The part of [Read] after the stale file is dealt with.  The renaming
    replaces a stale file that is still there. *)
Definition read_fresh (fl : faults) (f : Files) : Files * list RawEvent * bool :=
  match eventsFile f with
  | None => (f, [], false)
  | Some l =>
      if cannot_rename fl then (f, [], true)
      else
        let '(evs, err) := parseProcessingFile (cannot_open fl) l in
        ({| eventsFile := None; procFile := if cannot_remove fl then Some l else None |}, evs, err)
  end.

(** The file that was read is removed, whether it could be read or not. *)
Definition Read (fl : faults) (f : Files) : Files * list RawEvent * bool :=
  match (if cannot_stat_stale fl then None else procFile f) with
  | None => read_fresh fl f
  | Some l =>
      let '(evs, err) := parseProcessingFile (cannot_open_stale fl) l in
      let f := {| eventsFile := eventsFile f; procFile := if cannot_remove_stale fl then Some l else None |} in
      if negb err && negb (bool_decide (evs = [])) then (f, evs, false) else read_fresh fl f
  end.

(** What happens to the files: a writer appends, a read completes, or a process
    dies in a read after it has renamed the file. *)
Inductive step := Write (l : list line) | DoRead (fl : faults) | DieAfterRename.

(** A read that finds events in a stale file returns them and renames nothing. *)
Definition returns_stale (f : Files) : bool :=
  match procFile f with Some l => let '(evs, err) := scan_lines l in negb err && negb (bool_decide (evs = [])) | None => false end.

Definition apply (f : Files) (st : step) : Files * list RawEvent :=
  match st with
  | Write l => ({| eventsFile := Some (default [] (eventsFile f) ++ l); procFile := procFile f |}, [])
  | DoRead fl => let '(f, evs, err) := Read fl f in (f, if err : bool then [] else evs)
  | DieAfterRename =>
      if returns_stale f then (f, [])
      else match eventsFile f with Some l => ({| eventsFile := None; procFile := Some l |}, []) | None => (f, []) end
  end.

Fixpoint steps (f : Files) (l : list step) : Files * list RawEvent :=
  match l with [] => (f, []) | st :: l => let '(f, evs) := apply f st in let '(f, evs') := steps f l in (f, evs ++ evs') end.

(** *** Theorem *)
Definition short (l : list line) : Prop := TooLong ∉ l.
Definition events_of (l : list line) : list RawEvent := omap event_of_line l.
Definition pending (f : Files) : list line := default [] (procFile f) ++ default [] (eventsFile f).
Definition written (st : step) : list line := match st with Write l => l | _ => [] end.

Lemma parse_short l : short l -> scan_lines l = (events_of l, false).
Proof.
  induction l as [|x l IH]; intros Hs; [done|]. assert (short l) as Hs' by (intros H; apply Hs; by right). cbn [scan_lines].
  rewrite (IH Hs'). destruct x; [done|done|]. exfalso. apply Hs. by left.
Qed.

Lemma events_of_app l l' : events_of (l ++ l') = events_of l ++ events_of l'.
Proof. apply omap_app. Qed.

Lemma short_app l l' : short (l ++ l') <-> short l /\ short l'.
Proof. unfold short. rewrite elem_of_app. tauto. Qed.

(** Nothing is refused. *)
Definition no_faults : faults :=
  {| cannot_stat_stale := false; cannot_open_stale := false; cannot_remove_stale := false; cannot_rename := false;
     cannot_open := false; cannot_remove := false |}.

Definition calm (st : step) : Prop := match st with DoRead fl => fl = no_faults | _ => True end.

(** Files that were read can be removed. *)
Definition removable (st : step) : Prop :=
  match st with DoRead fl => cannot_remove_stale fl = false /\ cannot_remove fl = false | _ => True end.

Lemma apply_short f st : short (pending f) -> short (written st) -> short (pending (apply f st).1).
Proof.
  intros Hf Hw. unfold pending in *. destruct f as [ev pr]. cbn in Hf. apply short_app in Hf as [Hp He].
  destruct st as [l|fl|]; cbn in *.
  - by rewrite !short_app.
  - unfold Read, read_fresh, parseProcessingFile. cbn.
    repeat case_match; simplify_eq; cbn in *; rewrite ?app_nil_r; rewrite ?short_app; done.
  - repeat case_match; simplify_eq; cbn in *; rewrite ?app_nil_r; rewrite ?short_app; done.
Qed.

Lemma apply_conserves f st :
  short (pending f) -> short (written st) -> calm st ->
  let '(f', evs) := apply f st in evs ++ events_of (pending f') = events_of (pending f) ++ events_of (written st).
Proof.
  intros Hf Hw Hc. unfold pending in *. destruct f as [ev pr]. cbn in *. apply short_app in Hf as [Hp He].
  destruct st as [l|fl|]; cbn in *.
  - by rewrite !events_of_app, app_assoc.
  - subst fl. rewrite app_nil_r. unfold Read, read_fresh, parseProcessingFile. cbn. destruct pr as [pl|]; cbn in *.
    + rewrite parse_short by done. cbn. destruct (bool_decide_reflect (events_of pl = [])) as [E|E]; cbn.
      * rewrite events_of_app, E. destruct ev as [el|]; cbn in *; [rewrite parse_short by done|]; cbn; rewrite ?app_nil_r; done.
      * by rewrite events_of_app.
    + destruct ev as [el|]; cbn in *; [rewrite parse_short by done|]; cbn; rewrite ?app_nil_r; done.
  - rewrite app_nil_r. unfold returns_stale. cbn. destruct pr as [pl|]; cbn in *.
    + rewrite parse_short by done. cbn. destruct (bool_decide_reflect (events_of pl = [])) as [E|E]; cbn; [|done].
      destruct ev as [el|]; cbn in *; rewrite ?app_nil_r; [|done]. by rewrite events_of_app, E.
    + destruct ev as [el|]; cbn in *; rewrite ?app_nil_r; done.
Qed.

(** Faults lose events and add none. *)
Lemma read_fresh_sublist fl ev pr el : short el -> default [] ev = el -> cannot_remove fl = false ->
  let '(f', evs, err) := read_fresh fl {| eventsFile := ev; procFile := pr |} in
  sublist ((if err : bool then [] else evs) ++ events_of (pending f')) (events_of (default [] pr) ++ events_of el).
Proof.
  intros Hs He Hr. unfold read_fresh, pending, parseProcessingFile. cbn. rewrite Hr. destruct ev as [l|]; cbn in *; subst el; cbn.
  - destruct (cannot_rename fl); cbn; [by rewrite events_of_app|]. destruct (cannot_open fl); cbn; [apply sublist_nil_l|].
    rewrite parse_short by done. cbn. rewrite app_nil_r. by apply sublist_inserts_l.
  - by rewrite events_of_app.
Qed.

Lemma apply_sublist f st :
  short (pending f) -> short (written st) -> removable st ->
  let '(f', evs) := apply f st in sublist (evs ++ events_of (pending f')) (events_of (pending f) ++ events_of (written st)).
Proof.
  intros Hf Hw Hr. destruct st as [l|fl|].
  { pose proof (apply_conserves f (Write l) Hf Hw I) as Hc. destruct (apply f (Write l)) as [f' evs]. by rewrite Hc. }
  2:{ pose proof (apply_conserves f DieAfterRename Hf Hw I) as Hc. destruct (apply f DieAfterRename) as [f' evs]. by rewrite Hc. }
  destruct Hr as [Hr1 Hr2]. cbn [apply written].
  rewrite app_nil_r. destruct f as [ev pr]. unfold pending in Hf |- *. cbn in Hf. apply short_app in Hf as [Hp He]. unfold Read. cbn [eventsFile procFile].
  pose proof (read_fresh_sublist fl ev pr _ He eq_refl Hr2) as Hfresh.
  pose proof (read_fresh_sublist fl ev None _ He eq_refl Hr2) as Hnone. rewrite Hr1. unfold parseProcessingFile at 1. rewrite events_of_app.
  destruct (cannot_stat_stale fl).
  { destruct (read_fresh fl {| eventsFile := ev; procFile := pr |}) as [[f' evs] err]. exact Hfresh. }
  destruct pr as [pl|]; cbn [default from_option] in *.
  2:{ destruct (read_fresh fl {| eventsFile := ev; procFile := None |}) as [[f' evs] err]. exact Hnone. }
  assert (Hgone : let '(f', evs, err) := read_fresh fl {| eventsFile := ev; procFile := None |} in
    sublist ((if err : bool then [] else evs) ++ events_of (pending f')) (events_of pl ++ events_of (default [] ev))).
  { destruct (read_fresh fl {| eventsFile := ev; procFile := None |}) as [[f' evs] err]. by apply sublist_inserts_l. }
  destruct (cannot_open_stale fl); cbn [negb andb].
  { destruct (read_fresh fl {| eventsFile := ev; procFile := None |}) as [[f' evs] err]. exact Hgone. }
  rewrite parse_short by done. cbn [negb andb]. destruct (negb _).
  - unfold pending. cbn. done.
  - destruct (read_fresh fl {| eventsFile := ev; procFile := None |}) as [[f' evs] err]. exact Hgone.
Qed.

(** C31: A batch is read once.  Through any order of writes, reads and deaths after
    a rename, the events read so far followed by those still in the files are
    the events written, in their order: none is lost and none is read twice,
    as long as no line is too long for the scanner and the file system refuses
    nothing.  When it refuses to stat, rename or open a file, events may be
    lost (the file that could not be read is removed all the same), but none is
    read twice, made up or out of order. *)
Theorem openresty_conserves l f :
  short (pending f) -> Forall (fun st => short (written st)) l ->
  let '(f', evs) := steps f l in
  let all := events_of (pending f) ++ events_of (List.concat (written <$> l)) in
  (Forall calm l -> evs ++ events_of (pending f') = all) /\
  (Forall removable l -> sublist (evs ++ events_of (pending f')) all).
Proof.
  intros Hf Hl. revert f Hf. induction Hl as [|st l Hst Hl IH]; intros f Hf; cbn [steps]; [by rewrite app_nil_r|].
  pose proof (apply_short f st Hf Hst) as Hf1. pose proof (apply_conserves f st Hf Hst) as Hs. pose proof (apply_sublist f st Hf Hst) as Hsub.
  destruct (apply f st) as [f1 e1]. specialize (IH f1 Hf1). destruct (steps f1 l) as [f2 e2]. destruct IH as [IH1 IH2].
  cbn [fmap list_fmap List.concat]. rewrite events_of_app, app_assoc. split; intros [Hc Hcs]%Forall_cons; rewrite <- app_assoc.
  - rewrite <- (Hs Hc), <- app_assoc. by rewrite IH1.
  - etransitivity; [apply sublist_app; [reflexivity|exact (IH2 Hcs)]|]. rewrite app_assoc. apply sublist_app; [exact (Hsub Hc)|done].
Qed.

Definition hit (ip : string) : line := Event_ {| lua_TS := 0; lua_Type := "honeypot_hit"; lua_IP := ip; lua_Score := 100; lua_Detail := "/.env" |}.
Definition no_files : Files := {| eventsFile := None; procFile := None |}.

Definition demo_steps (fl : faults) : list step :=
  [Write [hit "192.0.2.1"]; DieAfterRename; Write [hit "192.0.2.2"]; DoRead fl; DoRead no_faults].

Lemma openresty_conserves_witness :
  let '(f', evs) := steps no_files (demo_steps no_faults) in
  evs ++ events_of (pending f') = events_of [hit "192.0.2.1"; hit "192.0.2.2"].
Proof.
  refine (proj1 (openresty_conserves (demo_steps no_faults) no_files _ _) _).
  - intros H. inversion H.
  - repeat (apply List.Forall_cons; [intros H; repeat (inversion H as [|? ? ? H']; clear H; rename H' into H)|]). apply List.Forall_nil.
  - by repeat constructor.
Defined.

(** A line too long: the whole batch is gone with the file. *)
Example long_line_loses_batch :
  steps no_files [Write [hit "192.0.2.1"; TooLong; hit "192.0.2.2"]; DoRead no_faults; DoRead no_faults] = (no_files, []).
Proof. done. Qed.

(** A stale file that cannot be opened is removed: its batch is gone. *)
Definition stale_unreadable : faults :=
  {| cannot_stat_stale := false; cannot_open_stale := true; cannot_remove_stale := false; cannot_rename := false;
     cannot_open := false; cannot_remove := false |}.

Example unreadable_file_removed :
  (steps no_files (demo_steps stale_unreadable)).2 = events_of [hit "192.0.2.2"].
Proof. by vm_compute. Qed.

End OpenRestyEvent.
