(* ===== verification/WafRef.v ===== *)
(** * References of block pages

    The source that follows the growing file of references
    ([internal/adapters/wafref]) by the number of bytes consumed.  The JSON
    decoder of a line and [time.Parse] are parameters. *)

From S2P Require Import Prelude Risk Adapters.

Local Open Scope Z_scope.

(** ** References of block pages ([wafref]) *)
Module WafRef.

Record RawEvent := { Ref : string; Timestamp : Z; IP : string; Host : string; Method : string; URI : string; Reason : string }.
Record luaRefEntry := { l_Ref : string; l_TS : string; l_ClientIP : string; l_Host : string; l_Method : string; l_URI : string; l_Reason : string }.

Definition Normalize (raw : RawEvent) : result Classifier.Event :=
  if bool_decide (trim_space (IP raw) = "") then Err "wafref normalize: ip is required"
  else if bool_decide (trim_space (Ref raw) = "") then Err "wafref normalize: ref is required"
  else
    let uri := trim_space (URI raw) in
    let uri := if bool_decide (uri = "") then "unknown" else uri in
    Ok {| Classifier.IP := IP raw; Classifier.URI := uri; Classifier.URIs := [uri]; Classifier.Hostname := Host raw; Classifier.UserAgent := "";
          Classifier.Action := "block"; Classifier.HTTPMethod := Method raw; Classifier.RuleID := ""; Classifier.RulesetID := "";
          Classifier.RuleName := Normal.firstNonEmpty [Reason raw; "waf_block"]; Classifier.Source := "waf_ref"; Classifier.Timestamp := Timestamp raw;
          Classifier.RayID := ""; Classifier.CountryName := ""; Classifier.ASNDescription := ""; Classifier.EdgeResponseStatus := 0;
          Classifier.Hits := 1; Classifier.WindowSec := 0; Classifier.Ref := Ref raw |}.

Definition nl : Ascii.ascii := Ascii.ascii_of_N 10.

(** Up to the last end of line, which is included. *)
Fixpoint complete (s : string) : string :=
  match s with
  | EmptyString => ""
  | String a s' => let r := complete s' in if bool_decide (r = "") && negb (bool_decide (a = nl)) then "" else String a r
  end.

(** [strings.TrimRight] of ends of line. *)
Fixpoint trim_nl (s : string) : string :=
  match s with
  | EmptyString => ""
  | String a s' => let r := trim_nl s' in if bool_decide (r = "") && bool_decide (a = nl) then "" else String a r
  end.

Section source.
(** The decoder of a line and [time.Parse]. *)
Context (decode : string -> option luaRefEntry) (parse_rfc3339 : string -> option Z).

Definition parseLuaTimestamp (raw : string) : option Z :=
  let raw := trim_space raw in if bool_decide (raw = "") then None else parse_rfc3339 raw.

Definition event_of_line (now : Z) (line : string) : option RawEvent :=
  let line := trim_space line in
  if bool_decide (line = "") then None
  else
    match decode line with
    | None => None
    | Some e =>
        if bool_decide (trim_space (l_Ref e) = "") || bool_decide (trim_space (l_ClientIP e) = "") then None
        else Some {| Ref := l_Ref e; Timestamp := default now (parseLuaTimestamp (l_TS e)); IP := l_ClientIP e; Host := l_Host e; Method := l_Method e;
                     URI := l_URI e; Reason := l_Reason e |}
    end.

(** [Read] of a file that exists, with the bytes consumed so far. *)
Definition Read (now : Z) (file : string) (offset : Z) : Z * list RawEvent :=
  let offset := if Z.of_nat (String.length file) <? offset then 0 else offset in
  let c := complete (drop_bytes (Z.to_nat offset) file) in
  if bool_decide (c = "") then (offset, [])
  else (offset + Z.of_nat (String.length c), omap (event_of_line now) (str_split nl (trim_nl c))).

(** *** Theorem *)
Definition events_of (now : Z) (t : string) : list RawEvent := omap (event_of_line now) (str_split nl t).

Lemma blank_line now : event_of_line now "" = None.
Proof. done. Qed.

Lemma str_split_cons sep s : exists x l, str_split sep s = x :: l.
Proof. induction s as [|a s (x & l & IH)]; cbn; [by eexists _, _|]. case_bool_decide; [by eexists _, _|]. rewrite IH. by eexists _, _. Qed.

Lemma split_trim s : exists k, str_split nl s = str_split nl (trim_nl s) ++ replicate k "".
Proof.
  induction s as [|a s [k IH]]; [by exists 0%nat|]. cbn [str_split trim_nl].
  destruct (bool_decide_reflect (a = nl)) as [->|Hne], (bool_decide_reflect (trim_nl s = "")) as [E|E]; cbn [andb].
  - exists (S k). rewrite IH, E. done.
  - exists k. rewrite IH. cbn [str_split]. by rewrite bool_decide_true.
  - exists k. rewrite IH, E. cbn [str_split]. rewrite bool_decide_false by done. done.
  - exists k. rewrite IH. cbn [str_split]. rewrite bool_decide_false by done. destruct (str_split_cons nl (trim_nl s)) as (x & l & ->). done.
Qed.

Lemma events_trim now s : omap (event_of_line now) (str_split nl (trim_nl s)) = events_of now s.
Proof.
  unfold events_of. destruct (split_trim s) as [k ->]. rewrite omap_app. replace (omap (event_of_line now) (replicate k "")) with (@nil RawEvent).
  - by rewrite app_nil_r.
  - induction k as [|k IH]; [done|]. cbn [replicate]. change (omap (event_of_line now) ("" :: replicate k "")) with (omap (event_of_line now) (replicate k "")). done.
Qed.

Lemma split_app_nl s t : str_split nl (s +:+ String nl t) = str_split nl s ++ str_split nl t.
Proof.
  induction s as [|a s IH]; [done|]. change (String a s +:+ String nl t) with (String a (s +:+ String nl t)). cbn [str_split].
  rewrite IH. case_bool_decide; [done|]. destruct (str_split_cons nl s) as (x & l & ->). done.
Qed.

Lemma complete_nonempty_app c x : complete c = c -> complete (c +:+ x) = c +:+ complete x.
Proof.
  induction c as [|a c IH]; intros H; [done|]. change (String a c +:+ x) with (String a (c +:+ x)). cbn [complete] in *.
  destruct (bool_decide_reflect (complete c = "")) as [E|E]; cbn [andb] in H.
  - destruct (bool_decide_reflect (a = nl)) as [->|Hne]; cbn [negb] in H; [|done]. injection H as Hc.
    rewrite IH by (by rewrite Hc). by rewrite andb_false_r.
  - injection H as Hc. rewrite IH by done. rewrite bool_decide_false; [done|]. rewrite Hc in E. by destruct c.
Qed.

Lemma complete_split s : exists r, s = complete s +:+ r /\ complete (complete s) = complete s /\ complete r = "".
Proof.
  induction s as [|a s (r & Hs & Hc & Hr)]; [by exists ""|]. cbn [complete].
  destruct (bool_decide_reflect (complete s = "")) as [E|E], (bool_decide_reflect (a = nl)) as [->|Hne]; cbn [andb negb].
  - exists s. rewrite E. split; [done|]. split; [done|]. done.
  - exists (String a s). split; [done|]. split; [done|]. cbn [complete]. by rewrite E, bool_decide_true, bool_decide_false.
  - exists r. split; [change (String nl (complete s) +:+ r) with (String nl (complete s +:+ r)); by rewrite <- Hs|]. split; [|done]. cbn [complete]. rewrite Hc. by rewrite andb_false_r.
  - exists r. split; [change (String a (complete s) +:+ r) with (String a (complete s +:+ r)); by rewrite <- Hs|]. split; [|done]. cbn [complete]. rewrite Hc.
    by rewrite bool_decide_false.
Qed.

Lemma complete_ends c : complete c = c -> c = "" \/ exists d, c = d +:+ String nl "".
Proof.
  induction c as [|a c IH]; intros H; [by left|right]. cbn [complete] in H. destruct (bool_decide_reflect (complete c = "")) as [E|E]; cbn [andb] in H.
  - destruct (bool_decide_reflect (a = nl)) as [->|Hne]; cbn [negb] in H; [|done]. injection H as Hc. exists "". by rewrite <- Hc, E.
  - injection H as Hc. destruct (IH Hc) as [->|[d ->]]; [done|]. by exists (String a d).
Qed.

Lemma events_app now c x : complete c = c -> events_of now (c +:+ x) = events_of now c ++ events_of now x.
Proof.
  intros [->|[d ->]]%complete_ends; [done|]. unfold events_of. replace ((d +:+ String nl "") +:+ x) with (d +:+ String nl x).
  - rewrite !split_app_nl, !omap_app. cbn [str_split omap list_omap]. by rewrite app_nil_r.
  - induction d as [|a d IH]; [done|]. exact (f_equal (String a) IH).
Qed.

Lemma drop_bytes_app n s t : (n <= String.length s)%nat -> drop_bytes n (s +:+ t) = drop_bytes n s +:+ t.
Proof.
  revert s. induction n as [|n IH]; intros s Hn; [done|]. destruct s as [|a s]; cbn in Hn; [lia|].
  change (String a s +:+ t) with (String a (s +:+ t)). cbn [drop_bytes]. apply IH. lia.
Qed.

Lemma drop_bytes_prefix s t : drop_bytes (String.length s) (s +:+ t) = t.
Proof. induction s as [|a s IH]; [by destruct t|]. exact IH. Qed.

Lemma drop_bytes_add n m s : drop_bytes (n + m) s = drop_bytes m (drop_bytes n s).
Proof. revert s. induction n as [|n IH]; intros s; [done|]. destruct s as [|a s]; [by destruct m|]. apply IH. Qed.

Lemma Read_spec now file offset :
  0 <= offset <= Z.of_nat (String.length file) ->
  Read now file offset = (offset + Z.of_nat (String.length (complete (drop_bytes (Z.to_nat offset) file))), events_of now (complete (drop_bytes (Z.to_nat offset) file))).
Proof.
  intros Ho. unfold Read. destruct (Z.ltb_spec (Z.of_nat (String.length file)) offset); [lia|]. rewrite events_trim.
  case_bool_decide as E; [|done]. rewrite E. cbn. by rewrite Z.add_0_r.
Qed.

(** following a file.  While the file only grows, reading it at two times
    consumes the same bytes and gives the same events, each once and in order,
    as one read at the end; a line still being written is left for later. *)
Theorem tail_in_steps now file more offset :
  0 <= offset <= Z.of_nat (String.length file) ->
  let '(o1, e1) := Read now file offset in
  let '(o2, e2) := Read now (file +:+ more) o1 in
  Read now (file +:+ more) offset = (o2, e1 ++ e2).
Proof.
  intros Ho. rewrite Read_spec by done. set (b := drop_bytes (Z.to_nat offset) file). destruct (complete_split b) as (r & Hb & Hc & Hr).
  set (c := complete b) in *. assert (String.length b = String.length file - Z.to_nat offset)%nat as Hlen.
  { subst b. clear. generalize (Z.to_nat offset). intros n. revert file. induction n as [|n IH]; intros file; [cbn; lia|].
    destruct file as [|a f]; [done|]. cbn. apply IH. }
  assert (String.length b = String.length c + String.length r)%nat as Hlen2 by (rewrite Hb at 1; apply str_length_app).
  assert (drop_bytes (Z.to_nat (offset + Z.of_nat (String.length c))) (file +:+ more) = r +:+ more) as Hd.
  { replace (Z.to_nat (offset + Z.of_nat (String.length c))) with (Z.to_nat offset + String.length c)%nat by lia.
    rewrite drop_bytes_add, drop_bytes_app by lia. fold b. rewrite Hb.
    rewrite str_app_assoc. apply drop_bytes_prefix. }
  rewrite !Read_spec; [|rewrite str_length_app; lia..]. rewrite Hd. rewrite drop_bytes_app by lia. fold b.
  assert (b +:+ more = c +:+ (r +:+ more)) as -> by (rewrite Hb at 1; by rewrite str_app_assoc).
  rewrite complete_nonempty_app by done. rewrite events_app by done. rewrite str_length_app. f_equal. lia.
Qed.

End source.

Definition no_decoder (s : string) : option luaRefEntry :=
  Some {| l_Ref := s; l_TS := ""; l_ClientIP := "192.0.2.1"; l_Host := ""; l_Method := "GET"; l_URI := "/"; l_Reason := "" |}.

Lemma tail_in_steps_witness :
  let '(o1, e1) := Read no_decoder (fun _ => None) 0 ("a" +:+ String nl "b") 0 in
  let '(o2, e2) := Read no_decoder (fun _ => None) 0 (("a" +:+ String nl "b") +:+ String nl "") o1 in
  Read no_decoder (fun _ => None) 0 (("a" +:+ String nl "b") +:+ String nl "") 0 = (o2, e1 ++ e2).
Proof.
  apply (tail_in_steps no_decoder (fun _ => None) 0 ("a" +:+ String nl "b") (String nl "") 0). split; [discriminate|vm_compute; discriminate].
Defined.

End WafRef.
